(* ===== verification/_CoqProject ===== *)
-Q . S2P
Prelude.v
State.v
Logic.v
Spr.v
Sched.v
Debug.v
Except.v
Pic.v
Tick.v
Mem.v
Gpio.v
Mc.v
Uart.v
Serial.v
SerialVapi.v
Ram.v
Mmu.v
Dcache.v
Icache.v
Abstract.v
Direct.v
Dma.v
DmaCopy.v
Bus.v
OpTable.v
Or32.v
Decode.v
Operands.v
Disasm.v
Bpb.v
Sprs.v
Cstring.v
Rsp.v
GdbPacket.v
GdbMemory.v
GdbBreak.v
GdbRegs.v
Insnset.v
Float32.v
Wide.v
FloatRound.v
FloatArith.v
FloatAdd.v
FloatConv.v
FloatRem.v
Sbuf.v
Arith.v
FloatInsn.v
FloatLaws.v
Execute.v
Insn.v
Generated.v
Cpu.v
Jobs.v
Pc.v
Reset.v
Toplevel.v
Jtag.v
JtagBits.v
JtagFrames.v
JtagMem.v
JtagSpr.v
JtagControl.v
