(* ===== verification/Prelude.v ===== *)
(** * Or1ksim verified: a Rocq model of the OpenRISC 1000 simulator

    Or1ksim executes OpenRISC 1000 programs.  The development models its core:
    the processor (decoder, instruction set, exceptions, special purpose
    registers), the memory system (MMUs, caches, memory areas), the scheduler
    with the devices it drives (tick timer, interrupt controller, GPIO, memory
    controller, serial port, DMA), the main loop that runs all of them, and the
    server through which GDB debugs the program.

    ** How the program works

    [exec_main] (cpu/or32/execute.c) runs one turn after another.  A turn
    clocks the processor ([cpu_clock]): it fetches a word through the
    instruction MMU and cache, decodes and executes it, and advances the program
    counter; then the cycles it took are taken off the first job of the
    scheduler's queue (support/sched.c) and the jobs that have become due are
    run.  Jobs belong to the devices: they raise interrupts, which go through
    pic/pic.c to [except_handle] (cpu/or1k/except.c), which changes the program
    counter of the next turn.  Loads and stores translate their address
    (mmu/dmmu.c), go through the data cache (cache/dcache-model.c) and reach the
    function that the memory area at the physical address registered
    (cpu/common/abstract.c): a block of memory (peripheral/memory.c) or the
    registers of a device.  [l.mtspr] (cpu/or1k/sprs.c) reaches the timer, the
    interrupt controller, the TLBs and the caches.  While the debug unit stalls
    the processor, [handle_rsp] (debug/rsp-server.c) serves GDB: a request a
    turn, until one resumes the program.  A program that uses the simulator as a
    library debugs it through the registers of a JTAG port instead
    ([jtag_shift_dr], debug/jtag.c).

    ** Conventions

    - State: every scalar C variable is a [State.cell]; [State.Sim] is the store
      of all of them together with the linked structures (job queue, memory
      areas, memory blocks, reset functions, the breakpoints of both debuggers
      and what the client of the GDB server still sends).  [wr] converts to the
      C type of the variable ([ctype]); arithmetic in expressions is written with
      the conversions of C ([u32], [s32], ... of this file), LP64, and signed
      arithmetic that overflows wraps, as the hosts the program is built for do.
    - Functions: the state monad [State.M] with two ways to end, [Ok] and
      [Stop]; [Stop] has a reason: the program exits, dereferences a NULL
      pointer, does something ISO C leaves undefined, or a loop of the model
      runs out of fuel.
    - Output (messages, VAPI messages, bytes sent to GDB, profiling records, bus
      errors reported) is the list of events [out].  The text of a message is not modelled, only
      that one is printed, except for the disassembler.
    - Function pointers ([sched_entry.func], [mem_ops], the reset hooks) are
      names ([job_fn], [memfn], [reset_fn]) with functions that run them
      ([Execute.run_job], [Mem.call_read32], ... and the class [Devices]).
    - Build: the default configuration of configure.ac, with the generated
      ("complex") execution engine.  Execution history and execution logs
      (which are off by default) are not modelled.

    ** Files

    Foundations.
    - Prelude.v (this file): C types, bit lemmas, automation.
    - State.v: cells, their C types, the store and the monad.
    - Logic.v: the program logic ([wpx], [steps]) and the two classes whose
      instances are found by walking over a function's body: [Respects] (types
      and frames) and [Total].

    Scheduling and exceptions.
    - Spr.v (cpu/or1k/spr-defs.h, arch.h, the vectors of except.h).
    - Sched.v (support/sched.c): [sched_add], [sched_find_remove],
      [sched_next_insn], [do_scheduler]; specified on absolute times.
    - Debug.v (debug/debug-unit.c), Except.v (cpu/or1k/except.c), Pic.v
      (pic/pic.c), Tick.v (tick/tick.c, pm/pm.c, pcu/pcu.c).

    Memory.
    - Mem.v (cpu/common/abstract.c: areas and physical accesses;
      peripheral/memory.c), Ram.v (the same seen as an array of bytes).
    - Mmu.v (mmu/dmmu.c, mmu/immu.c), Dcache.v and Icache.v (cache/).
    - Abstract.v (cpu/common/abstract.c: loads, stores, fetches, accesses of the
      debugger), Direct.v (those accesses as reads and writes of Ram.v's bytes).

    Devices.
    - Gpio.v, Mc.v, Uart.v, Dma.v (peripheral/gpio.c, mc.c, 16450.c, dma.c):
      the operations; Serial.v, SerialVapi.v and DmaCopy.v their theorems where
      they are long.
    - Bus.v: the instance of the interface [Devices] made of the four, and what
      a load or store in their areas does.

    The debugger.
    - Cstring.v: the functions of the C library on strings that the server
      uses; the formats of sscanf are taken apart and interpreted.
    - Rsp.v (debug/rsp-server.c): packets, matchpoints, every request, the
      connection; the packet buffer is an array of cells.
    - GdbPacket.v, GdbMemory.v, GdbBreak.v, GdbRegs.v: the theorems on packets,
      memory, breakpoints and registers, each from the bytes the client sends to
      those it receives.

    - Toplevel.v (toplevel-support.c, the scan chains of debug/debug-unit.c): the
      reset of the simulator, and the debugger's access to registers and memory
      that a JTAG proxy makes.
    - Jtag.v (debug/jtag.c): the registers that are shifted in and out, as lists
      of bytes that a function takes and returns.
    - JtagBits.v, JtagFrames.v, JtagMem.v, JtagSpr.v, JtagControl.v: the register
      as a sequence of bits with its fields and CRC, the seven kinds of registers
      and when they are refused, memory, registers, the command and control bits.

    Instructions.
    - OpTable.v, Or32.v (cpu/or32/or32.c, cpu/or1k/opcode/or32.h): the opcode
      table and the automaton; Decode.v, Operands.v, Disasm.v: their
      correctness and the disassembler.
    - Bpb.v (bpb/branch-predict.c), Sprs.v (cpu/or1k/sprs.c), Insnset.v
      (cpu/or32/insnset.c and the functions of execute.c it calls).
    - Sbuf.v, Arith.v: the store buffer and the arithmetic instructions.

    Floating point.
    - Float32.v (softfloat/softfloat.c, softfloat-macros, softfloat-specialize):
      the single-precision functions that the instructions call.
    - Wide.v: the double-word arithmetic of softfloat-macros; FloatRound.v: what
      correct rounding is, on exact fractions, and that the rounding functions do
      it; FloatArith.v, FloatAdd.v, FloatConv.v, FloatRem.v: the operations of
      IEEE 754 and that the functions compute them, flags included.
    - FloatInsn.v: the library as the instance of the interface that the
      instruction set uses, and the effect of the instructions on the registers;
      FloatLaws.v: the results in terms of the numbers they stand for.

    The processor.
    - Execute.v (cpu/or32/execute.c, and the code cpu/or32/generate.c writes),
      Insn.v (what each instruction may write), Generated.v (the generated
      decoder), Cpu.v, Pc.v, Reset.v (whole instructions, the program counter,
      reset and sleep), Jobs.v (the scheduler's loop with the jobs of the timer,
      the interrupt controller and the console).

    ** Interfaces

    Code outside the repository or outside the model is a type class that the
    definitions using it take as an argument: [Insnset.Softfloat] (the floating
    point library: the instruction set is proved against the promise that it
    writes only its flags, and [FloatInsn.float32_softfloat] is the library
    itself), [Insnset.Host] (time and
    the random numbers of the host), [Mem.Devices] (devices not modelled),
    [Uart.Channels] (the characters a channel delivers), [Rsp.Client] (the
    sockets of the GDB server: who connects, what arrives, whether a write
    succeeds), [Execute.Monitor] (the command line that a breakpoint or a
    control-C enters).  Each has a concrete
    instance that the witnesses use.

    ** Theorems

    - Decoding: [Decode.decode_correct], [Operands.operands_correct],
      [Generated.generated_decoder_correct], [Cpu.decode_execute_correct]: an
      instruction word runs the function its opcode names on the operands that
      the disassembler prints.
    - Instructions: [Arith] (results, flags and range exceptions of the
      arithmetic instructions), [Cpu.registers_written], [Pc.instruction_sequencing]
      (delay slots), [Sbuf.sbuf_refines].
    - Floating point: the instructions refine IEEE 754 ([FloatInsn.lf_binary_ieee],
      [lf_madd_ieee], [lf_convert_ieee], [lf_compare_ieee]: result, flags, and
      nothing else); a result is the number nearest to the exact one
      ([FloatLaws.float32_nearest]; [FloatConv.round32_directed] for the directed
      modes), a remainder is exact ([float32_rem_exact]), and integers of 24 bits
      survive conversion ([int_roundtrip]).
    - Exceptions and interrupts: [Except.except_handle_enters] and
      [except_handle_trapped], [Pic.report_interrupt_spec],
      [Tick.spr_write_ttmr_refines]; [Reset.cpu_reset_correct].
    - Scheduling: the operations refine those on absolute times
      ([sched_add_refines], [sched_find_remove_refines]) and [do_scheduler] ends
      and runs exactly what is due, with the effects of the jobs of the timer,
      the interrupt controller and the console ([Jobs.do_scheduler_runs_due]); a
      timer that restarts with period 0 never lets it end ([Jobs.restart_loops]).
    - Memory: the TLB as a map ([Mmu.dmmu_translate_refines]), the coherence of
      the data cache ([Dcache.dc_read_coherent], [dc_write_coherent]) and what
      loads and stores do to the bytes of memory ([Abstract.store_load],
      [set_mem_coherent], [eval_mem_coherent], [access_faults]).
    - Devices: the FIFOs of the serial port are queues, a DMA transfer completes
      and copies, a clock of the GPIO, the areas the memory controller maps, the
      composition with the bus ([Bus.device_on_bus]).
    - Debugging: a packet that is sent is received, whatever noise precedes it,
      and no input makes the receiver leave its buffer
      ([GdbPacket.packet_roundtrip], [get_packet_finds], [get_packet_safe]);
      reading memory, writing and reading registers, and breakpoints as a set of
      addresses ([GdbMemory.memory_read_served], [GdbRegs.register_roundtrip],
      [GdbBreak.breakpoints_refine]).
    - JTAG: a register that a burst of errors has hit is refused
      ([JtagFrames.burst_refused]); memory, a general purpose register and the
      stall bit read back what was written ([JtagMem.jtag_memory_roundtrip],
      [JtagSpr.jtag_gpr_roundtrip], [JtagControl.stall_roundtrip], and
      [command_roundtrip] for the command itself).  They are stated on the bits
      as they are shifted, by [slice].

    ** Loops and fuel

    Loops over a counter are structural; the others take fuel, and running out
    is a [Stop] of its own that the theorems exclude.  [do_scheduler] makes as many
    rounds as there are due jobs, since those that schedule themselves again do
    so later ([Jobs.do_scheduler_runs_due]); the lists of memory controllers and areas as many
    as there are nodes ([Mc.list_fuel]); the commands of VAPI as many as the
    buffer has places ([SerialVapi.uart_vapi_cmd_ends]); those of the GDB server
    as many as the client still sends bytes ([Rsp.input_fuel]); those of the JTAG
    registers as many as the register has bytes, since each round reads one; the
    loop that corrects the estimate of a quotient makes at most 3 rounds
    ([Wide.estimate_bounds]), those of the remainder at most 4, because an
    exponent difference below 278 shrinks by 62 a round and the estimate of the
    quotient is at most 3 too small ([FloatRem.float32_rem_ieee]); the builder of the
    automaton has a fixed fuel, and runs inside the proofs.  [exec_main] does
    not end: its fuel is the number of turns, and the theorems about it hold for
    every number.

    ** Not modelled

    - The configuration file, the command line and the library interface
      (sim-config.c, sim-cmd.c, cpu-config.c, libtoplevel.c); the setters of the
      modelled components are.
    - VAPI and the channels, the program loader (parse.c), the banner and the
      random seed of toplevel-support.c: input and output.
    - Ethernet, ATA, frame buffer, VGA, keyboard, flash and the generic device:
      they work on files, sockets or callbacks of the host, and reach the model
      as [D_other] of the interface [Devices].
    - Of the floating point library double, extended and quadruple precision,
      64-bit integers, square root and rounding to an integral value, which the
      simulator never calls.
    - cuc/ (a separate tool), profilers, statistics and
      dumps (printing), argtable2/ and port/ (vendored), testsuite/. *)

From stdpp Require Export base numbers list functions.
From Stdlib Require Export ZArith Lia.

#[global] Open Scope Z_scope.

(** ** C integer types *)

(** The integer types the simulator declares its variables with (LP64 host:
    [int] is 32 bits wide, [long long] and [unsigned long] are 64). *)
Inductive cty := U8 | U16 | U32 | U64 | I8 | I16 | I32 | I64.

Definition width (t : cty) : Z :=
  match t with
  | U8 | I8 => 8 | U16 | I16 => 16 | U32 | I32 => 32 | U64 | I64 => 64
  end.

Definition is_signed (t : cty) : bool :=
  match t with U8 | U16 | U32 | U64 => false | _ => true end.

(** Conversion of an integer value to a C type: reduction modulo [2^w] into the
    type's range, which is what ISO C prescribes for unsigned types and what
    gcc documents for signed ones. *)
Definition wrap (t : cty) (z : Z) : Z :=
  if is_signed t
  then (z + 2 ^ (width t - 1)) mod 2 ^ width t - 2 ^ (width t - 1)
  else z mod 2 ^ width t.

#[global] Arguments wrap : simpl never.

Definition cmin (t : cty) : Z := if is_signed t then - 2 ^ (width t - 1) else 0.
Definition cmax (t : cty) : Z :=
  if is_signed t then 2 ^ (width t - 1) - 1 else 2 ^ width t - 1.

(** [z] is a value of the C type [t]. *)
Definition inty (t : cty) (z : Z) : Prop := cmin t <= z <= cmax t.

Abbreviation u8 := (wrap U8).
Abbreviation u16 := (wrap U16).
Abbreviation u32 := (wrap U32).
Abbreviation u64 := (wrap U64).
Abbreviation s8 := (wrap I8).
Abbreviation s16 := (wrap I16).
Abbreviation s32 := (wrap I32).
Abbreviation s64 := (wrap I64).

(** C truth value. *)
Definition nz (z : Z) : bool := negb (z =? 0).

(** C's [b ? 1 : 0] and the value of a comparison. *)
Definition b2z (b : bool) : Z := if b then 1 else 0.

(** [switch (x) { case labels: body; break; ... default: d; }]. *)
Fixpoint switch {A} (x : Z) (cases : list (list Z * A)) (d : A) : A :=
  match cases with
  | [] => d
  | (labels, body) :: rest => if existsb (Z.eqb x) labels then body else switch x rest d
  end.

(** ** Lemmas on integers and their ranges *)

Lemma width_pos t : 0 < width t.
Proof. destruct t; reflexivity. Qed.

Lemma wrap_inty t z : inty t (wrap t z).
Proof.
  unfold inty, wrap, cmin, cmax. pose proof (width_pos t).
  pose proof (Z.mod_pos_bound z (2 ^ width t) ltac:(lia)).
  pose proof (Z.mod_pos_bound (z + 2 ^ (width t - 1)) (2 ^ width t) ltac:(lia)).
  assert (2 ^ width t = 2 * 2 ^ (width t - 1)) by (rewrite <- Z.pow_succ_r by lia; f_equal; lia).
  destruct (is_signed t); lia.
Qed.

Lemma wrap_small t z : inty t z -> wrap t z = z.
Proof.
  unfold inty, wrap, cmin, cmax. pose proof (width_pos t).
  assert (2 ^ width t = 2 * 2 ^ (width t - 1)) by (rewrite <- Z.pow_succ_r by lia; f_equal; lia).
  destruct (is_signed t); intros.
  - rewrite Z.mod_small; lia.
  - apply Z.mod_small; lia.
Qed.

Lemma wrap_wrap t z : wrap t (wrap t z) = wrap t z.
Proof. apply wrap_small, wrap_inty. Qed.

Lemma inty_U8 z : inty U8 z <-> 0 <= z < 2 ^ 8.
Proof. unfold inty; cbn; lia. Qed.
Lemma inty_U16 z : inty U16 z <-> 0 <= z < 2 ^ 16.
Proof. unfold inty; cbn; lia. Qed.
Lemma inty_U32 z : inty U32 z <-> 0 <= z < 2 ^ 32.
Proof. unfold inty; cbn; lia. Qed.
Lemma inty_U64 z : inty U64 z <-> 0 <= z < 2 ^ 64.
Proof. unfold inty; cbn; lia. Qed.
Lemma inty_I8 z : inty I8 z <-> - 2 ^ 7 <= z < 2 ^ 7.
Proof. unfold inty; cbn; lia. Qed.
Lemma inty_I16 z : inty I16 z <-> - 2 ^ 15 <= z < 2 ^ 15.
Proof. unfold inty; cbn; lia. Qed.
Lemma inty_I32 z : inty I32 z <-> - 2 ^ 31 <= z < 2 ^ 31.
Proof. unfold inty; cbn; lia. Qed.
Lemma inty_I64 z : inty I64 z <-> - 2 ^ 63 <= z < 2 ^ 63.
Proof. unfold inty; cbn; lia. Qed.

(** A byte. *)
Definition octet (c : Z) : Prop := 0 <= c < 2 ^ 8.
Lemma octet_u8 c : octet (u8 c).
Proof. apply inty_U8, wrap_inty. Qed.

Lemma u32_eq z : u32 z = z mod 2 ^ 32.
Proof. reflexivity. Qed.
Lemma s32_eq z : s32 z = (z + 2 ^ 31) mod 2 ^ 32 - 2 ^ 31.
Proof. reflexivity. Qed.

Lemma u32_range z : 0 <= u32 z < 2 ^ 32.
Proof. apply inty_U32, wrap_inty. Qed.
Lemma s32_range z : - 2 ^ 31 <= s32 z < 2 ^ 31.
Proof. apply inty_I32, wrap_inty. Qed.

Lemma u32_small z : 0 <= z < 2 ^ 32 -> u32 z = z.
Proof. intros; apply wrap_small, inty_U32; lia. Qed.
Lemma s32_small z : - 2 ^ 31 <= z < 2 ^ 31 -> s32 z = z.
Proof. intros; apply wrap_small, inty_I32; lia. Qed.

Lemma u32_s32 z : u32 (s32 z) = u32 z.
Proof.
  rewrite s32_eq, !u32_eq. rewrite Zminus_mod_idemp_l. f_equal; lia.
Qed.
Lemma s32_u32 z : s32 (u32 z) = s32 z.
Proof. rewrite !s32_eq, u32_eq. rewrite Zplus_mod_idemp_l. reflexivity. Qed.

Lemma u32_s64 z : u32 (s64 z) = u32 z.
Proof.
  unfold wrap; cbn. rewrite Zminus_mod. change (9223372036854775808 mod 4294967296) with 0.
  rewrite Z.sub_0_r, Z.mod_mod by lia.
  rewrite (Z.mod_mod_divide _ 18446744073709551616 4294967296) by (by exists 4294967296).
  rewrite Zplus_mod. change (9223372036854775808 mod 4294967296) with 0.
  by rewrite Z.add_0_r, Z.mod_mod by lia.
Qed.
Lemma u32_sub_s64 a b : u32 (a - s64 b) = u32 (a - b).
Proof.
  rewrite (u32_eq (a - s64 b)), (u32_eq (a - b)), Zminus_mod, <- (u32_eq (s64 b)), u32_s64, u32_eq.
  by rewrite <- Zminus_mod.
Qed.

Lemma u32_s64_sub a b : u32 (s64 a - b) = u32 (a - b).
Proof.
  rewrite (u32_eq (s64 a - b)), (u32_eq (a - b)), Zminus_mod, <- (u32_eq (s64 a)), u32_s64, u32_eq.
  by rewrite <- Zminus_mod.
Qed.

(** The signed reading of a 32-bit pattern. *)
Lemma s32_of_u32 z : 0 <= z < 2 ^ 32 -> s32 z = if z <? 2 ^ 31 then z else z - 2 ^ 32.
Proof.
  intros. rewrite s32_eq. destruct (Z.ltb_spec z (2 ^ 31)).
  - rewrite Z.mod_small; lia.
  - replace (z + 2 ^ 31) with (z - 2 ^ 31 + 1 * 2 ^ 32) by lia.
    rewrite Z.mod_add, Z.mod_small by lia. lia.
Qed.

(** Decides closed comparisons and ranges. *)
Ltac closed_Z := vm_compute; repeat split; first [discriminate | reflexivity].

(** ** Bits and masks *)

Lemma testbit_above n z i : 0 <= z < 2 ^ n -> n <= i -> Z.testbit z i = false.
Proof.
  intros [? ?] Hi. destruct (Z.eq_dec z 0) as [->|]; [apply Z.bits_0|].
  apply Z.bits_above_log2; [lia|].
  apply Z.log2_lt_pow2; [lia|].
  eapply Z.lt_le_trans; [eassumption|]. apply Z.pow_le_mono_r; lia.
Qed.

Lemma range_of_bits n z :
  0 <= n -> 0 <= z -> (forall i, n <= i -> Z.testbit z i = false) -> 0 <= z < 2 ^ n.
Proof.
  intros Hn Hz Hb. split; [lia|]. destruct (Z.eq_dec z 0) as [->|]; [lia|].
  apply Z.log2_lt_pow2; [lia|].
  destruct (Z.lt_ge_cases (Z.log2 z) n) as [|Hge]; [lia|].
  specialize (Hb _ Hge). rewrite Z.bit_log2 in Hb by lia. discriminate.
Qed.

Lemma land_range n a b : 0 <= n -> 0 <= a < 2 ^ n -> 0 <= Z.land a b < 2 ^ n.
Proof.
  intros Hn Ha. apply range_of_bits; [lia| |].
  - apply Z.land_nonneg; lia.
  - intros i Hi. rewrite Z.land_spec, (testbit_above n a) by lia. reflexivity.
Qed.

Lemma land_range_r n a b : 0 <= n -> 0 <= b < 2 ^ n -> 0 <= Z.land a b < 2 ^ n.
Proof. rewrite Z.land_comm. apply land_range. Qed.

Lemma lor_range n a b :
  0 <= n -> 0 <= a < 2 ^ n -> 0 <= b < 2 ^ n -> 0 <= Z.lor a b < 2 ^ n.
Proof.
  intros Hn Ha Hb. apply range_of_bits; [lia| |].
  - apply Z.lor_nonneg; lia.
  - intros i Hi. rewrite Z.lor_spec, (testbit_above n a), (testbit_above n b) by lia.
    reflexivity.
Qed.

Lemma lxor_range n a b :
  0 <= n -> 0 <= a < 2 ^ n -> 0 <= b < 2 ^ n -> 0 <= Z.lxor a b < 2 ^ n.
Proof.
  intros Hn Ha Hb. apply range_of_bits; [lia| |].
  - apply Z.lxor_nonneg; lia.
  - intros i Hi. rewrite Z.lxor_spec, (testbit_above n a), (testbit_above n b) by lia.
    reflexivity.
Qed.

Lemma shiftr_range n a k : 0 <= n -> 0 <= k -> 0 <= a < 2 ^ n -> 0 <= Z.shiftr a k < 2 ^ n.
Proof.
  intros Hn Hk Ha. rewrite Z.shiftr_div_pow2 by lia. split.
  - apply Z.div_pos; lia.
  - apply Z.div_lt_upper_bound; [lia|]. nia.
Qed.

Lemma testbit_pow2 k i : 0 <= k -> Z.testbit (2 ^ k) i = (k =? i).
Proof.
  intros. destruct (Z.eqb_spec k i) as [<-|].
  - apply Z.pow2_bits_true; lia.
  - apply Z.pow2_bits_false; lia.
Qed.

Lemma land_pow2 v k : 0 <= k -> Z.land v (2 ^ k) = if Z.testbit v k then 2 ^ k else 0.
Proof.
  intros. apply Z.bits_inj'. intros i Hi. rewrite Z.land_spec, testbit_pow2 by lia.
  destruct (Z.eqb_spec k i) as [<-|].
  - destruct (Z.testbit v k); rewrite ?Z.bits_0, ?Z.pow2_bits_true by lia; reflexivity.
  - rewrite andb_false_r. destruct (Z.testbit v k);
      rewrite ?Z.bits_0, ?Z.pow2_bits_false by lia; reflexivity.
Qed.

(** The two idioms for testing a flag: [x & M] as a truth value, and
    [(x & M) == M]; both read one bit when [M] has one bit set. *)
Lemma nz_land_bit v k : 0 <= k -> nz (Z.land v (2 ^ k)) = Z.testbit v k.
Proof.
  intros. rewrite land_pow2 by lia. destruct (Z.testbit v k); [|reflexivity].
  unfold nz. destruct (Z.eqb_spec (2 ^ k) 0); [|reflexivity]. lia.
Qed.

Lemma land_eqb_bit v k : 0 <= k -> (Z.land v (2 ^ k) =? 2 ^ k) = Z.testbit v k.
Proof.
  intros. rewrite land_pow2 by lia. destruct (Z.testbit v k).
  - apply Z.eqb_refl.
  - apply Z.eqb_neq. lia.
Qed.

Lemma lor_bit_set v k : 0 <= k -> Z.testbit v k = true -> Z.lor v (2 ^ k) = v.
Proof.
  intros Hk Hb. apply Z.bits_inj'. intros i Hi. rewrite Z.lor_spec, testbit_pow2 by lia.
  destruct (Z.eqb_spec k i) as [<-|]; [by rewrite Hb | by rewrite orb_false_r].
Qed.

Lemma pow2_u32 k : 0 <= k < 32 -> 0 <= 2 ^ k < 2 ^ 32.
Proof. intros. split; [lia|]. apply Z.pow_lt_mono_r; lia. Qed.

(** Setting ([x |= M]) and clearing ([x &= ~M]) a flag, bit by bit. *)
Lemma testbit_set v k i : 0 <= k -> Z.testbit (Z.lor v (2 ^ k)) i = Z.testbit v i || (k =? i).
Proof. intros. rewrite Z.lor_spec, testbit_pow2 by lia. reflexivity. Qed.

Lemma testbit_clr v m i :
  0 <= i -> Z.testbit (Z.land v (Z.lnot m)) i = Z.testbit v i && negb (Z.testbit m i).
Proof. intros. rewrite Z.land_spec, Z.lnot_spec by lia. reflexivity. Qed.

Lemma testbit_u32 z i : 0 <= i -> Z.testbit (u32 z) i = Z.testbit z i && (i <? 32).
Proof.
  intros. rewrite u32_eq. destruct (Z.ltb_spec i 32).
  - rewrite Z.mod_pow2_bits_low by lia. rewrite andb_true_r. reflexivity.
  - rewrite Z.mod_pow2_bits_high by lia. rewrite andb_false_r. reflexivity.
Qed.
Lemma testbit_u64 z i : 0 <= i -> Z.testbit (u64 z) i = Z.testbit z i && (i <? 64).
Proof.
  intros Hi. change (u64 z) with (z mod 2 ^ 64). destruct (Z.ltb_spec i 64).
  - by rewrite Z.mod_pow2_bits_low, andb_true_r by lia.
  - by rewrite Z.mod_pow2_bits_high, andb_false_r by lia.
Qed.

(** Adding to a multiple of [2^n] what fits below it. *)
Lemma add_lxor_low n q r : 0 <= n -> 0 <= r < 2 ^ n -> Z.lxor (q * 2 ^ n) r = q * 2 ^ n + r.
Proof.
  intros Hn Hr. symmetry. apply Z.add_nocarry_lxor. apply Z.bits_inj'. intros i Hi.
  rewrite Z.land_spec, Z.bits_0. destruct (Z.lt_ge_cases i n).
  - rewrite Z.mul_pow2_bits_low by lia. reflexivity.
  - rewrite (testbit_above n r) by lia. apply andb_false_r.
Qed.

Lemma lor_low n q r : 0 <= n -> 0 <= r < 2 ^ n -> Z.lor (q * 2 ^ n) r = q * 2 ^ n + r.
Proof.
  intros Hn Hr. assert (E0 : Z.land (q * 2 ^ n) r = 0).
  { apply Z.bits_inj'. intros i Hi. rewrite Z.land_spec, Z.bits_0. destruct (Z.lt_ge_cases i n).
    - rewrite Z.mul_pow2_bits_low by lia. reflexivity.
    - rewrite (testbit_above n r) by lia. apply andb_false_r. }
  rewrite <- (Z.add_lor_land (q * 2 ^ n) r), E0. lia.
Qed.

(** Keeping the low [n] bits. *)
Lemma land_low n a : 0 <= n -> Z.land a (2 ^ n - 1) = a mod 2 ^ n.
Proof. intros. rewrite <- Z.land_ones by lia. by rewrite Z.ones_equiv, Z.sub_1_r. Qed.

(** Replacing a field of [m] bits at bit [n] of a 32-bit word. *)
Lemma field_disjoint n m hi lo x :
  0 <= n -> 0 <= m -> 0 <= lo < 2 ^ n -> 0 <= x < 2 ^ m -> Z.land (hi * 2 ^ (n + m) + lo) (x * 2 ^ n) = 0.
Proof.
  intros Hn Hm Hlo Hx. rewrite <- lor_low by (try lia; pose proof (Z.pow_le_mono_r 2 n (n + m)); lia).
  apply Z.bits_inj'. intros i Hi.
  rewrite Z.land_spec, Z.lor_spec, Z.bits_0. destruct (Z.lt_ge_cases i n).
  { rewrite (Z.mul_pow2_bits_low x) by lia. apply andb_false_r. }
  destruct (Z.lt_ge_cases i (n + m)).
  - rewrite Z.mul_pow2_bits_low, (testbit_above n lo) by lia. reflexivity.
  - rewrite (Z.mul_pow2_bits x), (testbit_above m x) by lia. apply andb_false_r.
Qed.
Lemma set_field n m s hi mid lo v :
  s = n + m -> 0 <= n -> 0 <= m -> 0 <= lo < 2 ^ n -> 0 <= mid < 2 ^ m -> 0 <= v < 2 ^ m ->
  0 <= hi * 2 ^ s + mid * 2 ^ n + lo < 2 ^ 32 ->
  Z.lor (Z.land (hi * 2 ^ s + mid * 2 ^ n + lo) (Z.ldiff (2 ^ 32 - 1) ((2 ^ m - 1) * 2 ^ n))) (v * 2 ^ n)
    = hi * 2 ^ s + v * 2 ^ n + lo.
Proof.
  intros -> Hn Hm Hlo Hmid Hv HW. set (W := hi * 2 ^ (n + m) + mid * 2 ^ n + lo) in *.
  assert (E1 : Z.land W (Z.ldiff (2 ^ 32 - 1) ((2 ^ m - 1) * 2 ^ n)) = Z.ldiff W ((2 ^ m - 1) * 2 ^ n)).
  { apply Z.bits_inj'. intros i Hi. rewrite Z.land_spec, !Z.ldiff_spec.
    change (2 ^ 32 - 1) with (Z.ones 32). destruct (Z.lt_ge_cases i 32).
    - by rewrite Z.ones_spec_low by lia.
    - by rewrite (testbit_above 32 W) by lia. }
  rewrite E1. set (R := hi * 2 ^ (n + m) + lo).
  assert (Hd : forall x, 0 <= x < 2 ^ m -> Z.land R (x * 2 ^ n) = 0) by (intros; by apply field_disjoint).
  assert (EW : W = Z.lor R (mid * 2 ^ n)).
  { pose proof (Z.add_lor_land R (mid * 2 ^ n)) as Ea. rewrite Hd in Ea by lia. unfold W, R in *. lia. }
  assert (EF : Z.ldiff (mid * 2 ^ n) ((2 ^ m - 1) * 2 ^ n) = 0).
  { apply Z.bits_inj'. intros i Hi. rewrite Z.ldiff_spec, Z.bits_0.
    destruct (Z.lt_ge_cases i n); [by rewrite Z.mul_pow2_bits_low by lia|].
    rewrite !Z.mul_pow2_bits by lia. replace (2 ^ m - 1) with (Z.ones m) by (rewrite Z.ones_equiv; lia).
    destruct (Z.lt_ge_cases (i - n) m).
    - rewrite Z.ones_spec_low by lia. apply andb_false_r.
    - by rewrite (testbit_above m mid) by lia. }
  assert (ER : Z.ldiff R ((2 ^ m - 1) * 2 ^ n) = R).
  { apply Z.bits_inj'. intros i Hi. rewrite Z.ldiff_spec.
    pose proof (f_equal (fun z => Z.testbit z i) (Hd (2 ^ m - 1) ltac:(lia))) as Hb. cbv beta in Hb.
    rewrite Z.land_spec, Z.bits_0 in Hb. destruct (Z.testbit R i), (Z.testbit _ i); done. }
  assert (EL : Z.ldiff W ((2 ^ m - 1) * 2 ^ n) = R).
  { rewrite EW, <- ER at 1. rewrite <- (Z.lor_0_r R) at 2. rewrite <- EF. apply Z.bits_inj'. intros i Hi.
    rewrite !Z.lor_spec, !Z.ldiff_spec, Z.lor_spec. rewrite ER.
    pose proof (f_equal (fun z => Z.testbit z i) ER) as Hr. cbv beta in Hr. rewrite Z.ldiff_spec in Hr.
    destruct (Z.testbit R i), (Z.testbit (mid * 2 ^ n) i), (Z.testbit ((2 ^ m - 1) * 2 ^ n) i); done. }
  rewrite EL. pose proof (Z.add_lor_land R (v * 2 ^ n)) as Ea. rewrite Hd in Ea by lia. unfold R in *. lia.
Qed.

(** Flipping the two low address bits. *)
Lemma lxor_low2 a k : 0 <= a -> 0 <= k < 4 -> Z.lxor a k = 4 * (a / 4) + Z.lxor (a mod 4) k.
Proof.
  intros Ha Hk. rewrite (Z.div_mod a 4) at 1 by lia.
  pose proof (Z.mod_pos_bound a 4 ltac:(lia)).
  rewrite (Z.mul_comm 4). change 4 with (2 ^ 2) in *.
  rewrite <- (add_lxor_low 2) by lia. rewrite Z.lxor_assoc, add_lxor_low; [lia|lia|].
  apply lxor_range; lia.
Qed.

Lemma lxor3 a : 0 <= a -> Z.lxor a 3 = 4 * (a / 4) + (3 - a mod 4).
Proof.
  intros Ha. rewrite lxor_low2 by lia. f_equal.
  pose proof (Z.mod_pos_bound a 4 ltac:(lia)).
  assert (a mod 4 = 0 \/ a mod 4 = 1 \/ a mod 4 = 2 \/ a mod 4 = 3) as [->|[->|[->| ->]]] by lia; reflexivity.
Qed.

Lemma lxor2_even a : 0 <= a -> a mod 2 = 0 -> Z.lxor a 2 = 4 * (a / 4) + (2 - a mod 4).
Proof.
  intros Ha He. rewrite lxor_low2 by lia. f_equal.
  assert (Hm : a mod 4 mod 2 = 0) by (rewrite Z.mod_mod_divide; [exact He | by exists 2]).
  pose proof (Z.mod_pos_bound a 4 ltac:(lia)).
  assert (a mod 4 = 0 \/ a mod 4 = 1 \/ a mod 4 = 2 \/ a mod 4 = 3) as [->|[E|[->|E]]] by lia;
    try reflexivity; rewrite E in Hm; discriminate.
Qed.

(** Masking off the low [k] bits of an [n]-bit value. *)
Lemma land_high n k a :
  0 <= k <= n -> 0 <= a < 2 ^ n -> Z.land a (2 ^ n - 2 ^ k) = a - a mod 2 ^ k.
Proof.
  intros Hk Ha. replace (2 ^ n - 2 ^ k) with (Z.shiftl (Z.ones (n - k)) k).
  2:{ rewrite Z.ones_equiv, Z.shiftl_mul_pow2 by lia.
      replace (2 ^ n) with (2 ^ (n - k) * 2 ^ k) by (rewrite <- Z.pow_add_r by lia; f_equal; lia). lia. }
  transitivity (Z.shiftl (Z.shiftr a k) k).
  - apply Z.bits_inj'. intros i Hi. rewrite Z.land_spec, !Z.shiftl_spec by lia.
    destruct (Z.lt_ge_cases i k).
    + rewrite !(Z.testbit_neg_r _ (i - k)) by lia. apply andb_false_r.
    + rewrite Z.shiftr_spec by lia. replace (i - k + k) with i by lia.
      destruct (Z.lt_ge_cases i n).
      * rewrite Z.ones_spec_low by lia. apply andb_true_r.
      * rewrite (testbit_above n a) by lia. reflexivity.
  - rewrite Z.shiftl_mul_pow2, Z.shiftr_div_pow2 by lia. pose proof (Z.div_mod a (2 ^ k)). lia.
Qed.

(** Complementing a mask of low bits. *)
Lemma lnot_mask k : 0 <= k <= 31 -> u32 (Z.lnot (2 ^ k - 1)) = 2 ^ 32 - 2 ^ k.
Proof.
  intros Hk. unfold Z.lnot. rewrite u32_eq. pose proof (Z.pow_le_mono_r 2 k 31).
  symmetry. apply Z.mod_unique with (-1); lia.
Qed.

Lemma nz_spec z : nz z = true <-> z <> 0.
Proof. unfold nz. destruct (Z.eqb_spec z 0); simpl; split; congruence || tauto. Qed.
Lemma nz_false z : nz z = false <-> z = 0.
Proof. unfold nz. destruct (Z.eqb_spec z 0); simpl; split; congruence || tauto. Qed.
Lemma nz_b2z b : nz (b2z b) = b.
Proof. destruct b; reflexivity. Qed.
