(* ===== verification/State.v ===== *)
(** * The simulator's global state

    Or1ksim keeps its state in C globals: [cpu_state] (cpu/common/execute.h),
    [runtime] and [config] (sim-config.h), the structures of the MMUs, caches
    and the debug unit, and file-level statics.  Every scalar of that state is
    one [cell]; the store maps each cell to the integer it holds, and assigning
    a cell converts the value to the C type the variable is declared with
    ([ctype]).  The linked structures (the scheduler's job queue, the list of
    memory areas) are fields of their own. *)

From S2P Require Export Prelude.

(** ** Cells *)

(** Scalars of [cpu_state], of [runtime] and the file-level variables. *)
Inductive gvar :=
(* struct cpu_state *)
| Insn_ea | Delay_insn | Npc_not_valid | Pc | Pc_delay
| Iq_insn_index | Iq_insn | Iq_insn_addr
| Loadlock_active | Loadlock_addr
(* cpu/or32/execute.c and cpu/or1k/except.c *)
| Pcnext | Sbuf_wait_cyc | Sbuf_total_cyc | Sbuf_head | Sbuf_tail | Sbuf_count
| Sbuf_prev_cycles | Breakpoint | Next_delay_insn | Except_pending | Break_just_hit
| Iprompt | Runtime_vapi_enabled
| Do_stats | Issued_per_cycle | Ico_insn_index | Ico_insn | Ico_insn_addr
(* softfloat *)
| Float_rounding_mode | Float_exception_flags
(* runtime.sim, runtime.cpu *)
| Cycles | Mem_cycles | Loadcycles | Storecycles | Reset_cycles | Hush
| Instructions | Reset_instructions | Stalled | Halted | Supercycles | Hazardwait
(* tick/tick.c *)
| Cycle_count_at_tick_start | Tick_counting
(* cpu/common/abstract.c *)
| Data_ci | Insn_ci | Cur_vadd
(* cache/icache-model.c: 0 while the pointer is NULL *)
| Ic_state
(* debug/debug-unit.c, debug/rsp-server.c *)
| In_reset | Current_scan_chain | Rsp_sigval
(* runtime.debug: the state of debug/jtag.c *)
| Jtag_instr | Jtag_mod_id | Jtag_write_defined_p | Jtag_acc_type | Jtag_addr | Jtag_size
| Rsp_client_waiting | Rsp_client_fd | Rsp_start_addr
(* the static buffer of get_packet, whose characters are [Rsp_data] *)
| Rsp_len
(* peripheral/mc.c: the head of the list [mc_areas], and how many nodes have
   been allocated *)
| Mc_areas | Mc_area_count
(* peripheral/dma.c: the list of the controllers, by number plus one *)
| Dmas.

(** Scalars of [config]. *)
Inductive cfgvar :=
| Sim_is_library | Sim_verbose | Sim_profile | Sim_mprofile | Sim_clkcycle_ps
| Sim_strict_npc | Sim_report_mem_errs | Sim_quiet
| Cpu_superscalar | Cpu_hazards | Cpu_dependstats | Cpu_sbuf_len | Cpu_hardfloat
| Dc_enabled | Dc_nways | Dc_nsets | Dc_blocksize | Dc_ustates
| Dc_store_missdelay | Dc_store_hitdelay | Dc_load_missdelay | Dc_load_hitdelay
| Pic_enabled | Pic_edge_trigger | Pic_use_nmi
| Pm_enabled | Pcu_enabled
| Bpb_enabled | Bpb_sbp_bnf_fwd | Bpb_sbp_bf_fwd | Bpb_btic | Bpb_missdelay | Bpb_hitdelay
| Vapi_enabled
| Debug_enabled | Debug_rsp_enabled | Debug_rsp_port | Debug_vapi_id.

(** [struct immu] (mmu/immu.h) and [struct dmmu] (mmu/dmmu.h). *)
Inductive mmuvar :=
| M_enabled | M_nways | M_nsets | M_pagesize | M_pagesize_log2 | M_page_offset_mask
| M_page_mask | M_vpn_mask | M_lru_reload | M_set_mask | M_entrysize | M_ustates
| M_missdelay | M_hitdelay.

(** The scalars of [struct ic] (cache/icache-model.h). *)
Inductive icvar :=
| I_enabled | I_nways | I_nsets | I_blocksize | I_ustates | I_missdelay | I_hitdelay
| I_blocksize_log2 | I_set_mask | I_tagaddr_mask | I_last_way | I_block_offset_mask
| I_block_mask | I_ustates_reload.

(** Statistics counters (cpu/common/stats.h). *)
Inductive statvar :=
| St_byteadd | St_bf (taken fwd : Z) | St_bnf (taken fwd : Z)
| St_bpb_hit | St_bpb_miss | St_bpb_correct | St_bpb_incorrect
| St_btic_hit | St_btic_miss
| St_ic_readhit | St_ic_readmiss
| St_dc_readhit | St_dc_readmiss | St_dc_writehit | St_dc_writemiss
| St_immu_tlbhit | St_immu_tlbmiss | St_dmmu_tlbhit | St_dmmu_tlbmiss.

(** [struct gpio_device] (peripheral/gpio.c). *)
Inductive gpioreg :=
| Rg_in | Rg_out | Rg_oe | Rg_inte | Rg_ptrig | Rg_aux | Rg_ctrl | Rg_ints | Rg_external_clock.
Inductive gpiovar :=
| Gp_enabled | Gp_baseaddr | Gp_irq | Gp_base_vapi_id | Gp_auxiliary_inputs
| Gp_curr (r : gpioreg) | Gp_next (r : gpioreg).

(** [struct mc] and [struct mc_area] (peripheral/mc.c). *)
Inductive mcvar :=
| Mc_csr | Mc_poc | Mc_ba_mask | Mc_csc (cs : Z) | Mc_tms (cs : Z) | Mc_baseaddr
| Mc_enabled | Mc_index | Mc_own_areas.
Inductive mcareavar := Ma_mem | Ma_cs | Ma_mc | Ma_next.

(** [struct dma_controller] and [struct dma_channel] (peripheral/dma.h). *)
Inductive dmavar :=
| Dm_enabled | Dm_baseaddr | Dm_irq | Dm_vapi_id
| Dm_csr | Dm_int_msk_a | Dm_int_msk_b | Dm_int_src_a | Dm_int_src_b | Dm_next.
Inductive dmachvar :=
| Ch_channel_mask | Ch_referenced | Ch_load_next | Ch_current_descriptor
| Ch_source | Ch_destination | Ch_source_mask | Ch_destination_mask
| Ch_chunk_size | Ch_total_size | Ch_words_transferred
| Ch_csr | Ch_sz | Ch_a0 | Ch_am0 | Ch_a1 | Ch_am1 | Ch_desc | Ch_swptr
| Ch_dma_req_i | Ch_dma_ack_o | Ch_dma_nd_i.

(** [struct dev_16450] (peripheral/16450.c). *)
Inductive uartvar :=
| Ua_txbuf (i : Z) | Ua_rxbuf (i : Z)
| Ua_dll | Ua_dlh | Ua_ier | Ua_iir | Ua_fcr | Ua_lcr | Ua_mcr | Ua_lsr | Ua_msr | Ua_scr
| Ua_txser | Ua_rxser | Ua_loopback
| Ua_txbuf_head | Ua_txbuf_tail | Ua_rxbuf_head | Ua_rxbuf_tail | Ua_txbuf_full | Ua_rxbuf_full
| Ua_receiveing | Ua_recv_break | Ua_ints
| Ua_char_clks
| Ua_vapi_char_clks | Ua_vapi_dll | Ua_vapi_dlh | Ua_vapi_lcr | Ua_vapi_skew
| Ua_vapi_buf (i : Z) | Ua_vapi_buf_head_ptr | Ua_vapi_buf_tail_ptr
| Ua_fifo_len | Ua_channel | Ua_channel_str | Ua_enabled | Ua_jitter | Ua_baseaddr | Ua_irq | Ua_vapi_id | Ua_uart16550.

Inductive cell :=
| GPR (n : Z)                      (* cpu_state.reg[n] *)
| SPR (n : Z)                      (* cpu_state.sprs[n] *)
| G (g : gvar)
| Cfg (c : cfgvar)
| Immu (f : mmuvar)                (* immu_state-> *)
| Dmmu (f : mmuvar)                (* dmmu_state-> *)
| Ic (f : icvar)                   (* ic_state-> *)
| Stat (f : statvar)
| Sbuf_buf (i : Z) | Multissue (i : Z)
| Dc_line (set way i : Z) | Dc_tagaddr (set way : Z) | Dc_lru (set way : Z)
| Ic_mem (i : Z) | Ic_tags (i : Z) | Ic_lrus (i : Z)
| Bpb_addr (e w : Z) | Bpb_taken (e w : Z) | Bpb_lru (e w : Z)
| Btic_addr (e w : Z) | Btic_lru (e w : Z)
| Development (i : Z)
| Mem (block i : Z)                (* byte i of a malloced memory block *)
(* the peripherals, by the number of the structure in order of allocation *)
| Gpio (dev : Z) (f : gpiovar)
| Mc (dev : Z) (f : mcvar) | Mc_area (node : Z) (f : mcareavar)
| Dma (dev : Z) (f : dmavar) | Dma_ch (dev ch : Z) (f : dmachvar)
| Uart (dev : Z) (f : uartvar)
| Rsp_data (i : Z).                (* buf.data[i], as an unsigned byte *)

Coercion G : gvar >-> cell.
Coercion Cfg : cfgvar >-> cell.

#[export] Instance gvar_eq_dec : EqDecision gvar.
Proof. solve_decision. Defined.
#[export] Instance cfgvar_eq_dec : EqDecision cfgvar.
Proof. solve_decision. Defined.
#[export] Instance mmuvar_eq_dec : EqDecision mmuvar.
Proof. solve_decision. Defined.
#[export] Instance icvar_eq_dec : EqDecision icvar.
Proof. solve_decision. Defined.
#[export] Instance statvar_eq_dec : EqDecision statvar.
Proof. solve_decision. Defined.
#[export] Instance gpioreg_eq_dec : EqDecision gpioreg.
Proof. solve_decision. Defined.
#[export] Instance gpiovar_eq_dec : EqDecision gpiovar.
Proof. solve_decision. Defined.
#[export] Instance mcvar_eq_dec : EqDecision mcvar.
Proof. solve_decision. Defined.
#[export] Instance mcareavar_eq_dec : EqDecision mcareavar.
Proof. solve_decision. Defined.
#[export] Instance dmavar_eq_dec : EqDecision dmavar.
Proof. solve_decision. Defined.
#[export] Instance dmachvar_eq_dec : EqDecision dmachvar.
Proof. solve_decision. Defined.
#[export] Instance uartvar_eq_dec : EqDecision uartvar.
Proof. solve_decision. Defined.
#[export] Instance cell_eq_dec : EqDecision cell.
Proof. solve_decision. Defined.

(** The declared type of each variable. *)
Definition ctype (c : cell) : cty :=
  match c with
  | GPR _ | SPR _ => U32
  | G g =>
      match g with
      | Insn_ea | Pc | Pc_delay | Iq_insn | Iq_insn_addr | Ico_insn | Ico_insn_addr | Loadlock_addr
      | Pcnext | Cur_vadd => U32
      | Cycles | Reset_cycles | Instructions | Reset_instructions
      | Cycle_count_at_tick_start => I64
      | Float_rounding_mode | Float_exception_flags => I8
      | Rsp_start_addr | Jtag_mod_id | Jtag_addr | Jtag_size => U64
      | Jtag_instr => U32
      | Jtag_acc_type => U8
      | _ => I32
      end
  | Cfg Sim_clkcycle_ps => I64
  | Cfg Debug_vapi_id => U64
  | Cfg _ => I32
  | Immu (M_pagesize | M_page_offset_mask | M_page_mask | M_vpn_mask | M_set_mask) => U32
  | Immu _ => I32
  | Dmmu (M_page_offset_mask | M_page_mask | M_vpn_mask | M_set_mask) => U32
  | Dmmu _ => I32
  | Ic (I_enabled | I_missdelay | I_hitdelay) => I32
  | Ic _ => U32
  | Stat _ => I32
  | Sbuf_buf _ | Multissue _ => I32
  | Dc_line _ _ _ | Dc_tagaddr _ _ => U32
  | Dc_lru _ _ => I32
  | Ic_mem _ => U8
  | Ic_tags _ | Ic_lrus _ => U32
  | Bpb_addr _ _ | Btic_addr _ _ => U32
  | Bpb_taken _ _ | Bpb_lru _ _ | Btic_lru _ _ => I32
  | Development _ => U64
  | Mem _ _ => U8
  | Gpio _ (Gp_enabled | Gp_irq | Gp_curr Rg_external_clock | Gp_next Rg_external_clock) => I32
  | Gpio _ Gp_baseaddr => U32
  | Gpio _ _ => U64
  | Mc _ (Mc_enabled | Mc_index | Mc_own_areas) => I32
  | Mc _ _ => U32
  | Mc_area _ Ma_cs => U32
  | Mc_area _ _ => I32
  | Dma _ (Dm_enabled | Dm_vapi_id | Dm_next) => I32
  | Dma _ (Dm_baseaddr | Dm_irq) => U32
  | Dma _ _ => U64
  | Dma_ch _ _ (Ch_referenced | Ch_load_next | Ch_source | Ch_destination | Ch_source_mask
      | Ch_destination_mask | Ch_dma_req_i | Ch_dma_ack_o | Ch_dma_nd_i) => U32
  | Dma_ch _ _ _ => U64
  | Uart _ (Ua_txbuf_head | Ua_txbuf_tail | Ua_rxbuf_head | Ua_rxbuf_tail | Ua_receiveing
      | Ua_recv_break | Ua_ints | Ua_vapi_skew | Ua_vapi_buf_head_ptr | Ua_vapi_buf_tail_ptr
      | Ua_fifo_len | Ua_channel | Ua_channel_str | Ua_enabled | Ua_jitter | Ua_irq | Ua_uart16550) => I32
  | Uart _ (Ua_txbuf_full | Ua_rxbuf_full | Ua_baseaddr) => U32
  | Uart _ (Ua_char_clks | Ua_vapi_char_clks | Ua_vapi_buf _ | Ua_vapi_id) => U64
  | Uart _ (Ua_rxbuf _ | Ua_rxser) => U16
  | Uart _ _ => U8
  | Rsp_data _ => U8
  end.

(** ** Linked structures *)

(** The functions that are put on the scheduler's queue; [J_device] stands for
    the jobs of the peripherals that are not modelled. *)
Inductive job_fn :=
| J_sched_guard | J_pic_rep_int | J_tick_raise_except | J_tick_restart
| J_tick_one_shot | J_check_insn_exec | J_check_int
| J_gpio_clock | J_gpio_do_int
| J_dma_channel_clock
| J_uart_int_cti | J_uart_char_clock | J_uart_send_break | J_uart_tx_send | J_uart_recv_break_start
| J_uart_recv_break_stop | J_uart_recv_break | J_uart_recv_char | J_uart_check_char | J_uart_vapi_cmd
| J_device (n : Z).

#[export] Instance job_fn_eq_dec : EqDecision job_fn.
Proof. solve_decision. Defined.

(** [struct sched_entry] (support/sched.h), without the list pointer. *)
Record sched_entry := SchedEntry { time : Z; param : Z; func : job_fn }.

(** The peripherals, each with the number of its structure. *)
Inductive device := D_gpio (n : Z) | D_mc (n : Z) | D_dma (n : Z) | D_uart (n : Z) | D_other (n : Z).

(** The function pointers of [struct mem_ops] (cpu/common/abstract.h) with
    their data pointers: the functions of peripheral/memory.c on a memory
    block, the error functions of abstract.c, or a peripheral's. *)
Inductive memfn :=
| Fn_null
| Fn_simmem (block : Z)            (* simmem_read*, simmem_write* *)
| Fn_simmem_zero                   (* simmem_read_zero*, simmem_write_null* *)
| Fn_inv                           (* eval_mem_*_inv, set_mem_*_inv *)
| Fn_inv_direct                    (* ..._inv_direct *)
| Fn_device (dev : device).

Record mem_ops := MemOps {
  readfunc32 : memfn; readfunc16 : memfn; readfunc8 : memfn;
  writefunc32 : memfn; writefunc16 : memfn; writefunc8 : memfn;
  writeprog32 : memfn; writeprog8 : memfn;
  delayr : Z; delayw : Z; ops_log : bool }.

(** [struct dev_memarea] (cpu/common/abstract.h). *)
Record dev_memarea := DevMemarea {
  addr_mask : Z; addr_compare : Z; area_size : Z; size_mask : Z;
  valid : Z; area_log : bool; ops : mem_ops; direct_ops : mem_ops }.

(** [struct mem_config] (peripheral/memory.c), without the name strings;
    [mem_block] is the [malloc]ed block. *)
Inductive mem_type := MT_UNKNOWN | MT_PATTERN | MT_RANDOM | MT_EXITNOPS.
Record mem_config := MemConfig {
  mem_ce : Z; mem_mc : Z; mem_baseaddr : Z; mem_size : Z; mem_delayr : Z; mem_delayw : Z;
  mem_pattern : Z; mem_random_seed : Z; mem_typ : mem_type; mem_log : bool; mem_block : Z }.

(** The functions registered with [reg_sim_reset]. *)
Inductive reset_fn := R_mem_reset (mem : mem_config) | R_device (dev : device).

(** What the simulator prints and the model records. *)
Inductive event :=
| Ev_report (v : Z) | Ev_putc (c : Z) | Ev_exit (v : Z) | Ev_counters_reset
| Ev_log_read (addr v : Z) | Ev_log_write (addr v : Z)
| Ev_mprofile (addr typ : Z)
(* the call profile of l.jal, l.jalr and l.jr *)
| Ev_call (cycles link target : Z) | Ev_return (cycles target : Z)
(* the statistics of analysis() *)
| Ev_dstats (item1 item2 depend : Z) | Ev_fstats (unit1 unit2 depend : Z) | Ev_sstats (item : Z)
(* a line of the instruction trace *)
| Ev_trace (phys addr insn : Z) | Ev_no_trace
(* output of the peripherals *)
| Ev_vapi_install (id n : Z) | Ev_vapi_send (id data : Z)
| Ev_channel_open (uart : Z) | Ev_channel_write (uart byte : Z)
(* the connection of the GDB client *)
| Ev_rsp_accept | Ev_rsp_close | Ev_rsp_write (byte : Z)
| Ev_warning.

(** What the debuggers keep: [struct mp_entry] and the hash table [rsp.mp_hash]
    of debug/rsp-server.c, its chains as lists; the list of breakpoints of
    cpu/common/labels.c; and the bytes the GDB client has sent, or will send
    before it closes the connection, that have not been read. *)
Record mp_entry := MpEntry { mp_type : Z; mp_addr : Z; mp_instr : Z }.
Record debuggers := Debuggers {
  mp_hash : Z -> list mp_entry; breakpoints : list Z; rsp_input : list Z }.

Record Sim := mkSim {
  glob :> cell -> Z;
  job_queue : list sched_entry;    (* scheduler.job_queue *)
  free_jobs : list sched_entry;    (* scheduler.free_job_queue *)
  dev_list : list dev_memarea;
  mc_area : option nat;            (* position in dev_list *)
  cur_area : option nat;
  blocks : list Z;                 (* sizes of the malloced memory blocks *)
  reset_hooks : list reset_fn;     (* sim_reset_hooks, last registered first *)
  out : list event;
  dbg : debuggers }.

(** ** Assignment *)

Definition upd (c : cell) (v : Z) (s : Sim) : Sim :=
  mkSim (<[c := wrap (ctype c) v]> (glob s)) (job_queue s) (free_jobs s) (dev_list s) (mc_area s)
        (cur_area s) (blocks s) (reset_hooks s) (out s) (dbg s).
Definition set_queue (q f : list sched_entry) (s : Sim) : Sim :=
  mkSim (glob s) q f (dev_list s) (mc_area s)
        (cur_area s) (blocks s) (reset_hooks s) (out s) (dbg s).
Definition set_areas (l : list dev_memarea) (s : Sim) : Sim :=
  mkSim (glob s) (job_queue s) (free_jobs s) l (mc_area s)
        (cur_area s) (blocks s) (reset_hooks s) (out s) (dbg s).
Definition set_mc_area (a : option nat) (s : Sim) : Sim :=
  mkSim (glob s) (job_queue s) (free_jobs s) (dev_list s) a
        (cur_area s) (blocks s) (reset_hooks s) (out s) (dbg s).
Definition set_cur_area (a : option nat) (s : Sim) : Sim :=
  mkSim (glob s) (job_queue s) (free_jobs s) (dev_list s) (mc_area s)
        a (blocks s) (reset_hooks s) (out s) (dbg s).
Definition set_blocks (b : list Z) (s : Sim) : Sim :=
  mkSim (glob s) (job_queue s) (free_jobs s) (dev_list s) (mc_area s)
        (cur_area s) b (reset_hooks s) (out s) (dbg s).
Definition set_hooks (h : list reset_fn) (s : Sim) : Sim :=
  mkSim (glob s) (job_queue s) (free_jobs s) (dev_list s) (mc_area s)
        (cur_area s) (blocks s) h (out s) (dbg s).
Definition set_dbg (d : debuggers) (s : Sim) : Sim :=
  mkSim (glob s) (job_queue s) (free_jobs s) (dev_list s) (mc_area s)
        (cur_area s) (blocks s) (reset_hooks s) (out s) d.
Definition set_mp_hash (h : Z -> list mp_entry) (s : Sim) : Sim :=
  set_dbg (Debuggers h (breakpoints (dbg s)) (rsp_input (dbg s))) s.
Definition set_rsp_input (l : list Z) (s : Sim) : Sim :=
  set_dbg (Debuggers (mp_hash (dbg s)) (breakpoints (dbg s)) l) s.
Definition add_event (e : event) (s : Sim) : Sim :=
  mkSim (glob s) (job_queue s) (free_jobs s) (dev_list s) (mc_area s)
        (cur_area s) (blocks s) (reset_hooks s) (e :: out s) (dbg s).

(** The state before [main]: every static is zero and the lists are empty. *)
Definition zero_state : Sim := mkSim (fun _ => 0) [] [] [] None None [] [] [] (Debuggers (fun _ => []) [] []).

(** ** A state monad with abnormal stops *)

(** Why a run stops before its function returns: [exit] (through [sim_done] or
    directly), a dereferenced NULL pointer, an operation ISO C leaves
    undefined, or a loop of the model that ran out of its fuel. *)
Inductive stop := Exited | Null_deref | Undefined | Out_of_fuel.

Inductive res (A : Type) :=
| Ok (a : A) (s : Sim)
| Stop (w : stop) (s : Sim).
Arguments Ok {A} a s.
Arguments Stop {A} w s.

Definition M (A : Type) : Type := Sim -> res A.

Definition ret {A} (a : A) : M A := fun s => Ok a s.
Definition bind {A B} (m : M A) (f : A -> M B) : M B := fun s =>
  match m s with Ok a s' => f a s' | Stop w s' => Stop w s' end.

Declare Scope sim_scope.
Notation "x ← m ; k" := (bind m (fun x => k))
  (at level 20, m at level 100, k at level 200, only parsing) : sim_scope.
Notation "m ;; k" := (bind m (fun _ => k))
  (at level 100, k at level 200, right associativity, only parsing) : sim_scope.
#[global] Open Scope sim_scope.

Definition rd (c : cell) : M Z := fun s => Ok (s c) s.
Definition wr (c : cell) (v : Z) : M unit := fun s => Ok tt (upd c v s).
Definition gets {A} (f : Sim -> A) : M A := fun s => Ok (f s) s.
Definition modify (f : Sim -> Sim) : M unit := fun s => Ok tt (f s).
Definition stop_with {A} (w : stop) : M A := fun s => Stop w s.
Definition when (b : bool) (m : M unit) : M unit := if b then m else ret tt.

(** [c |= v], [c &= ~v], [c += v]. *)
Definition ors (c : cell) (v : Z) : M unit := x ← rd c; wr c (Z.lor x v).
Definition clr (c : cell) (v : Z) : M unit := x ← rd c; wr c (Z.land x (Z.lnot v)).
Definition adds (c : cell) (v : Z) : M unit := x ← rd c; wr c (x + v).

(** [c & v] as a truth value. *)
Definition flag (c : cell) (v : Z) : M bool := x ← rd c; ret (nz (Z.land x v)).
(** [cfg] as a truth value. *)
Definition isset (c : cell) : M bool := x ← rd c; ret (nz x).

Definition emit (e : event) : M unit := modify (add_event e).

(** [sim_done]: closes the logs and exits. *)
Definition sim_done {A} : M A := stop_with Exited.

(** [x << n] on [int]: an out-of-range shift count is undefined. *)
Definition shl_int (x n : Z) : M Z :=
  if (0 <=? n) && (n <? 32) then ret (s32 (Z.shiftl x n)) else stop_with Undefined.

(** [for (i = lo; n times; i += step) body i]. *)
Fixpoint for_ (n : nat) (lo step : Z) (body : Z -> M unit) : M unit :=
  match n with
  | O => ret tt
  | S n' => body lo;; for_ n' (lo + step) step body
  end.
