(* ===== verification/Logic.v ===== *)
(** * Reasoning about the simulator's functions

    A weakest precondition for the state monad of [State.v] (with a
    postcondition for abnormal stops), the tactic that steps through a function
    body, and the class [Respects R m]: the run of [m] relates its initial and
    final state by the preorder [R].  Typing of the cells and frame conditions
    are both instances of that class, so they are proved for a function by
    instance resolution on its body. *)

From S2P Require Export State.

(** ** Reading after writing *)

Lemma upd_eq c v s : upd c v s c = wrap (ctype c) v.
Proof. unfold upd; cbn. by rewrite fn_lookup_insert. Qed.

Lemma upd_ne c c' v s : c <> c' -> upd c v s c' = s c'.
Proof. intros. unfold upd; cbn. by rewrite fn_lookup_insert_ne. Qed.

Lemma upd_lookup c c' v s :
  upd c v s c' = if decide (c = c') then wrap (ctype c) v else s c'.
Proof. case_decide; subst; [apply upd_eq | by apply upd_ne]. Qed.

(** Every cell holds a value of its declared type. *)
Definition typed (s : Sim) : Prop := forall c, inty (ctype c) (s c).

Lemma upd_typed c v s : typed s -> typed (upd c v s).
Proof. intros Hs c'. rewrite upd_lookup. case_decide; subst; [apply wrap_inty | apply Hs]. Qed.

Lemma zero_typed : typed zero_state.
Proof. intros c. unfold inty, zero_state; cbn. destruct (ctype c); cbn; lia. Qed.

Lemma typed_u32 s c : typed s -> ctype c = U32 -> 0 <= s c < 2 ^ 32.
Proof. intros Hs E. apply inty_U32. rewrite <- E. apply Hs. Qed.

Lemma typed_u64 s c : typed s -> ctype c = U64 -> 0 <= s c < 2 ^ 64.
Proof. intros Hs E. apply inty_U64. rewrite <- E. apply Hs. Qed.

Lemma typed_s32 s c : typed s -> ctype c = I32 -> - 2 ^ 31 <= s c < 2 ^ 31.
Proof. intros Hs E. apply inty_I32. rewrite <- E. apply Hs. Qed.

Lemma typed_u8 s c : typed s -> ctype c = U8 -> 0 <= s c < 2 ^ 8.
Proof. intros Hs E. apply inty_U8. rewrite <- E. apply Hs. Qed.

Lemma typed_wrap s c : typed s -> wrap (ctype c) (s c) = s c.
Proof. intros Hs. apply wrap_small, Hs. Qed.

(** Everything of the state but the cells. *)
Definition same_lists (s s' : Sim) : Prop :=
  job_queue s' = job_queue s /\ free_jobs s' = free_jobs s /\ dev_list s' = dev_list s /\
  mc_area s' = mc_area s /\ cur_area s' = cur_area s /\ blocks s' = blocks s /\
  reset_hooks s' = reset_hooks s /\ out s' = out s /\ dbg s' = dbg s.

(** ** Weakest preconditions *)

Section Wp.
Context {A : Type}.

(** [wpx m E Q s]: the run of [m] from [s] returns with [Q], or stops with [E]. *)
Definition wpx (m : M A) (E : stop -> Sim -> Prop) (Q : A -> Sim -> Prop) (s : Sim) : Prop :=
  match m s with Ok a s' => Q a s' | Stop w s' => E w s' end.

Lemma wpx_mono m (E E' : stop -> Sim -> Prop) (Q Q' : A -> Sim -> Prop) s :
  wpx m E Q s ->
  (forall w s', E w s' -> E' w s') -> (forall a s', Q a s' -> Q' a s') -> wpx m E' Q' s.
Proof. unfold wpx. destruct (m s); auto. Qed.

Lemma wpx_ret a E (Q : A -> Sim -> Prop) s : Q a s -> wpx (ret a) E Q s.
Proof. exact id. Qed.

Lemma wpx_gets (f : Sim -> A) E Q s : Q (f s) s -> wpx (gets f) E Q s.
Proof. exact id. Qed.

Lemma wpx_stop w (E : stop -> Sim -> Prop) (Q : A -> Sim -> Prop) s : E w s -> wpx (stop_with w) E Q s.
Proof. exact id. Qed.

Lemma wpx_if (b : bool) (m1 m2 : M A) E Q s :
  (b = true -> wpx m1 E Q s) -> (b = false -> wpx m2 E Q s) ->
  wpx (if b then m1 else m2) E Q s.
Proof. destruct b; auto. Qed.
End Wp.

Abbreviation wp m := (wpx m (fun _ _ => False)).

Lemma wp_ok {A} (m : M A) Q s : wp m Q s <-> exists a s', m s = Ok a s' /\ Q a s'.
Proof.
  unfold wpx. split.
  - destruct (m s) eqn:Em; [eauto | tauto].
  - intros (a & s' & -> & HQ). exact HQ.
Qed.

Lemma wp_unit (m : M unit) (P : Sim -> Prop) s :
  wp m (fun _ => P) s -> exists s', m s = Ok tt s' /\ P s'.
Proof. intros H. apply wp_ok in H as ([] & s' & H). eauto. Qed.

Lemma wpx_eq {A} (m : M A) a s s' E (Q : A -> Sim -> Prop) :
  m s = Ok a s' -> Q a s' -> wpx m E Q s.
Proof. unfold wpx. by intros ->. Qed.

Lemma wpx_bind {A B} (m : M A) (f : A -> M B) E Q s :
  wpx m E (fun a => wpx (f a) E Q) s -> wpx (bind m f) E Q s.
Proof. unfold wpx, bind. destruct (m s); auto. Qed.

Lemma wpx_rd c E (Q : Z -> Sim -> Prop) (s : Sim) : Q (s c) s -> wpx (rd c) E Q s.
Proof. exact id. Qed.
Lemma wpx_wr c v E (Q : unit -> Sim -> Prop) (s : Sim) : Q tt (upd c v s) -> wpx (wr c v) E Q s.
Proof. exact id. Qed.
Lemma wpx_modify f E (Q : unit -> Sim -> Prop) (s : Sim) : Q tt (f s) -> wpx (modify f) E Q s.
Proof. exact id. Qed.
Lemma wpx_emit e E (Q : unit -> Sim -> Prop) (s : Sim) : Q tt (add_event e s) -> wpx (emit e) E Q s.
Proof. exact id. Qed.
Lemma wpx_ors c v E (Q : unit -> Sim -> Prop) (s : Sim) :
  Q tt (upd c (Z.lor (s c) v) s) -> wpx (ors c v) E Q s.
Proof. exact id. Qed.
Lemma wpx_clr c v E (Q : unit -> Sim -> Prop) (s : Sim) :
  Q tt (upd c (Z.land (s c) (Z.lnot v)) s) -> wpx (clr c v) E Q s.
Proof. exact id. Qed.
Lemma wpx_adds c v E (Q : unit -> Sim -> Prop) (s : Sim) :
  Q tt (upd c (s c + v) s) -> wpx (adds c v) E Q s.
Proof. exact id. Qed.
Lemma wpx_flag c v E (Q : bool -> Sim -> Prop) (s : Sim) : Q (nz (Z.land (s c) v)) s -> wpx (flag c v) E Q s.
Proof. exact id. Qed.
Lemma wpx_isset c E (Q : bool -> Sim -> Prop) (s : Sim) : Q (nz (s c)) s -> wpx (isset c) E Q s.
Proof. exact id. Qed.
Lemma wpx_shl_int x n E (Q : Z -> Sim -> Prop) (s : Sim) :
  0 <= n < 32 -> Q (s32 (Z.shiftl x n)) s -> wpx (shl_int x n) E Q s.
Proof.
  intros Hn HQ. unfold shl_int.
  destruct (Z.leb_spec 0 n), (Z.ltb_spec n 32); try lia. exact HQ.
Qed.
Lemma wpx_when b m E (Q : unit -> Sim -> Prop) (s : Sim) :
  (b = true -> wpx m E Q s) -> (b = false -> Q tt s) -> wpx (when b m) E Q s.
Proof. destruct b; [auto|]. intros _ HQ. exact (HQ eq_refl). Qed.

Lemma wpx_switch {A} x labels (m : M A) cases d E (Q : A -> Sim -> Prop) (s : Sim) :
  (existsb (Z.eqb x) labels = true -> wpx m E Q s) ->
  (existsb (Z.eqb x) labels = false -> wpx (switch x cases d) E Q s) ->
  wpx (switch x ((labels, m) :: cases) d) E Q s.
Proof. cbn. destruct (existsb _ _); auto. Qed.

(** The loop rule: [I i s] holds before iteration [i]. *)
Lemma wpx_for n lo step body E (I : nat -> Sim -> Prop) (Q : unit -> Sim -> Prop) s :
  I 0%nat s ->
  (forall i s, (i < n)%nat -> I i s ->
     wpx (body (lo + Z.of_nat i * step)) E (fun _ => I (S i)) s) ->
  (forall s, I n s -> Q tt s) ->
  wpx (for_ n lo step body) E Q s.
Proof.
  intros H0 Hstep HQ. revert lo I s H0 Hstep HQ.
  induction n as [|n IH]; intros lo I s H0 Hstep HQ; simpl.
  - apply wpx_ret, HQ, H0.
  - apply wpx_bind. eapply wpx_mono.
    + replace lo with (lo + Z.of_nat 0 * step) at 1 by lia. apply Hstep; [lia | exact H0].
    + intros w s' Hw; exact Hw.
    + intros u s' HI. apply (IH (lo + step) (fun i => I (S i))); auto.
      intros i s'' Hi HI'. replace (lo + step + Z.of_nat i * step) with (lo + Z.of_nat (S i) * step) by lia.
      apply Hstep; [lia | exact HI'].
Qed.

(** ** Stepping through a body *)

(** Simplify the value of a cell after a chain of assignments. *)
Ltac cell_ne := first [discriminate | congruence | intros [=]; lia].

Lemma set_queue_cell q f s c : set_queue q f s c = s c.
Proof. reflexivity. Qed.
Lemma add_event_cell e s c : add_event e s c = s c.
Proof. reflexivity. Qed.
Lemma set_cur_area_cell a s c : set_cur_area a s c = s c.
Proof. reflexivity. Qed.

Ltac look1 :=
  match goal with
  | |- context [glob (set_queue ?q ?f ?s) ?c'] => rewrite (set_queue_cell q f s c')
  | |- context [glob (add_event ?e ?s) ?c'] => rewrite (add_event_cell e s c')
  | |- context [glob (set_cur_area ?e ?s) ?c'] => rewrite (set_cur_area_cell e s c')
  | |- context [glob (upd ?c ?v ?s) ?c'] =>
      first [ rewrite (upd_eq c v s : glob (upd c v s) c' = _)
            | rewrite (upd_ne c c' v s) by cell_ne ]
  end.
Ltac look := repeat look1; cbn [ctype].

Ltac wp1 :=
  lazymatch goal with
  | |- wpx (bind _ _) _ _ _ => apply wpx_bind
  | |- wpx (ret _) _ _ _ => apply wpx_ret
  | |- wpx (rd _) _ _ _ => apply wpx_rd
  | |- wpx (wr _ _) _ _ _ => apply wpx_wr
  | |- wpx (ors _ _) _ _ _ => apply wpx_ors
  | |- wpx (clr _ _) _ _ _ => apply wpx_clr
  | |- wpx (adds _ _) _ _ _ => apply wpx_adds
  | |- wpx (flag _ _) _ _ _ => apply wpx_flag
  | |- wpx (isset _) _ _ _ => apply wpx_isset
  | |- wpx (gets _) _ _ _ => apply wpx_gets
  | |- wpx (modify _) _ _ _ => apply wpx_modify
  | |- wpx (emit _) _ _ _ => apply wpx_emit
  | |- wpx (stop_with _) _ _ _ => apply wpx_stop
  | |- wpx (when _ _) _ _ _ => apply wpx_when; intros
  | |- wpx (if _ then _ else _) _ _ _ => apply wpx_if; intros
  | |- wpx (switch _ (_ :: _) _) _ _ _ => apply wpx_switch; intros
  | |- wpx (switch _ [] ?d) ?E ?Q ?s => change (wpx d E Q s)
  end.
Ltac wps := repeat (wp1; cbv beta; look).

(** ** Preorders kept by a run *)

Definition state_of {A} (r : res A) : Sim := match r with Ok _ s => s | Stop _ s => s end.

Class Respects (R : relation Sim) {A} (m : M A) : Prop :=
  respects : forall s, R s (state_of (m s)).

Section Respects.
Context (R : relation Sim) `{!PreOrder R}.

Lemma respects_ret A (a : A) : Respects R (ret a).
Proof. intros s. reflexivity. Qed.
Lemma respects_gets A (f : Sim -> A) : Respects R (gets f).
Proof. intros s. reflexivity. Qed.
Lemma respects_rd c : Respects R (rd c).
Proof. intros s. reflexivity. Qed.
Lemma respects_flag c v : Respects R (flag c v).
Proof. intros s. reflexivity. Qed.
Lemma respects_isset c : Respects R (isset c).
Proof. intros s. reflexivity. Qed.
Lemma respects_stop A w : Respects R (stop_with (A:=A) w).
Proof. intros s. reflexivity. Qed.
Lemma respects_shl_int x n : Respects R (shl_int x n).
Proof. intros s. unfold shl_int. destruct (_ && _); reflexivity. Qed.
Lemma respects_sim_done A : Respects R (sim_done (A:=A)).
Proof. intros s. reflexivity. Qed.

Lemma respects_bind A B (m : M A) (f : A -> M B) :
  Respects R m -> (forall a, Respects R (f a)) -> Respects R (bind m f).
Proof.
  intros Hm Hf s. unfold bind. specialize (Hm s).
  destruct (m s) as [a s'|w s']; simpl in *; [|exact Hm].
  etransitivity; [exact Hm | apply Hf].
Qed.
Lemma respects_if A (b : bool) (m1 m2 : M A) :
  Respects R m1 -> Respects R m2 -> Respects R (if b then m1 else m2).
Proof. destruct b; auto. Qed.
Lemma respects_switch A x (m : M A) labels cases d :
  Respects R m -> Respects R (switch x cases d) -> Respects R (switch x ((labels, m) :: cases) d).
Proof. cbn. destruct (existsb _ _); auto. Qed.
Lemma respects_switch_nil A x (d : M A) : Respects R d -> Respects R (switch x [] d).
Proof. exact id. Qed.
Lemma respects_when b m : Respects R m -> Respects R (when b m).
Proof. destruct b; [auto|]. intros _ s. reflexivity. Qed.
Lemma respects_for n lo step body :
  (forall i, Respects R (body i)) -> Respects R (for_ n lo step body).
Proof.
  intros Hb. revert lo. induction n as [|n IH]; intros lo; simpl.
  - apply respects_ret.
  - apply respects_bind; auto.
Qed.
End Respects.

(** Typing. *)
Definition keeps_typed (s s' : Sim) : Prop := typed s -> typed s'.

#[export] Instance keeps_typed_preorder : PreOrder keeps_typed.
Proof. split; unfold keeps_typed; red; auto. Qed.
Lemma keeps_typed_wr c v : Respects keeps_typed (wr c v).
Proof. intros s Hs. apply upd_typed, Hs. Qed.
Lemma keeps_typed_ors c v : Respects keeps_typed (ors c v).
Proof. intros s Hs. apply upd_typed, Hs. Qed.
Lemma keeps_typed_clr c v : Respects keeps_typed (clr c v).
Proof. intros s Hs. apply upd_typed, Hs. Qed.
Lemma keeps_typed_adds c v : Respects keeps_typed (adds c v).
Proof. intros s Hs. apply upd_typed, Hs. Qed.
Lemma keeps_typed_emit e : Respects keeps_typed (emit e).
Proof. intros s Hs. exact Hs. Qed.

(** The linked structures are left alone. *)
#[export] Instance same_lists_preorder : PreOrder same_lists.
Proof.
  split; red; unfold same_lists; [done|]. intros x y z Hxy Hyz.
  repeat match goal with H : _ /\ _ |- _ => destruct H end. split_and!; congruence.
Qed.
Lemma same_lists_assign {A} (m : M A) :
  (forall s, exists c v, state_of (m s) = upd c v s) -> Respects same_lists m.
Proof. intros H s. destruct (H s) as (c & v & ->). done. Qed.

(** Frame: only the cells in [W] change. *)
Definition frame (W : cell -> Prop) (s s' : Sim) : Prop :=
  forall c, ~ W c -> s' c = s c.

#[export] Instance frame_preorder W : PreOrder (frame W).
Proof.
  split; unfold frame; red; auto. intros s1 s2 s3 H1 H2 c Hc. by rewrite H2, H1.
Qed.

(** The cells of a list, as a predicate that computes. *)
Definition foot (l : list cell) (c : cell) : Prop := existsb (fun c' => bool_decide (c = c')) l = true.

Lemma frame_upd (W : cell -> Prop) c v s : W c -> frame W s (upd c v s).
Proof. intros HW c' Hc. apply upd_ne. intros <-. contradiction. Qed.

Lemma frame_trans_upd (W : cell -> Prop) c v s s' : W c -> frame W s s' -> frame W s (upd c v s').
Proof. intros HW Hf. etransitivity; [exact Hf | by apply frame_upd]. Qed.

Lemma same_lists_refl s : same_lists s s.
Proof. done. Qed.
Lemma same_lists_upd c v s s' : same_lists s s' -> same_lists s (upd c v s').
Proof. done. Qed.
#[export] Hint Resolve same_lists_refl same_lists_upd : core.

(** The queue of jobs and the output are not cells. *)
Lemma frame_set_queue W q f s s' : frame W s s' -> frame W s (set_queue q f s').
Proof. intros H c Hc. exact (H c Hc). Qed.
Lemma frame_add_event W e s s' : frame W s s' -> frame W s (add_event e s').
Proof. intros H c Hc. exact (H c Hc). Qed.

(** A frame around a chain of assignments to listed cells. *)
Ltac solve_frame :=
  repeat first [ apply frame_trans_upd; [reflexivity|] | apply frame_set_queue | apply frame_add_event ]; first [reflexivity | assumption].

Lemma frame_wr (W : cell -> Prop) c v : W c -> Respects (frame W) (wr c v).
Proof. intros HW s. by apply frame_upd. Qed.
Lemma frame_ors (W : cell -> Prop) c v : W c -> Respects (frame W) (ors c v).
Proof. intros HW s. by apply frame_upd. Qed.
Lemma frame_clr (W : cell -> Prop) c v : W c -> Respects (frame W) (clr c v).
Proof. intros HW s. by apply frame_upd. Qed.
Lemma frame_adds (W : cell -> Prop) c v : W c -> Respects (frame W) (adds c v).
Proof. intros HW s. by apply frame_upd. Qed.
Lemma frame_emit W e : Respects (frame W) (emit e).
Proof. intros s c Hc. reflexivity. Qed.

Lemma keeps_typed_set_queue q f : Respects keeps_typed (modify (set_queue q f)).
Proof. intros s Hs. exact Hs. Qed.
Lemma frame_modify_queue W q f : Respects (frame W) (modify (set_queue q f)).
Proof. intros s c Hc. reflexivity. Qed.

(** An assignment to one of the fields that are not cells. *)
Definition keeps_cells (f : Sim -> Sim) : Prop := forall s c, f s c = s c.
Lemma keeps_typed_modify f : keeps_cells f -> Respects keeps_typed (modify f).
Proof. intros Hf s Hs c. cbn. rewrite Hf. apply Hs. Qed.
Lemma frame_modify W f : keeps_cells f -> Respects (frame W) (modify f).
Proof. intros Hf s c Hc. apply Hf. Qed.

(** The preorders that allow any assignment to the cells of [W] and any change
    of the linked structures.  A function that assigns only cells of [W] keeps
    all of them: its typing and its frames are one instance. *)
Class Writes (W : cell -> Prop) (R : relation Sim) : Prop := {
  writes_preorder : PreOrder R;
  writes_upd : forall c v s, W c -> R s (upd c v s);
  writes_other : forall f s, keeps_cells f -> R s (f s) }.

#[export] Hint Extern 0 (PreOrder ?R) =>
  match goal with HR : Writes _ R |- _ => exact (writes_preorder (Writes:=HR)) end : typeclass_instances.

Section Writes.
Context (W : cell -> Prop) (R : relation Sim) `{!Writes W R}.

Lemma writes_wr c v : W c -> Respects R (wr c v).
Proof. intros Hc s. by apply (writes_upd (W:=W)). Qed.
Lemma writes_ors c v : W c -> Respects R (ors c v).
Proof. intros Hc s. by apply (writes_upd (W:=W)). Qed.
Lemma writes_clr c v : W c -> Respects R (clr c v).
Proof. intros Hc s. by apply (writes_upd (W:=W)). Qed.
Lemma writes_adds c v : W c -> Respects R (adds c v).
Proof. intros Hc s. by apply (writes_upd (W:=W)). Qed.
Lemma writes_emit e : Respects R (emit e).
Proof. intros s. apply (writes_other (W:=W)). intros ? ?; reflexivity. Qed.
Lemma writes_modify f : keeps_cells f -> Respects R (modify f).
Proof. intros Hf s. by apply (writes_other (W:=W)). Qed.
End Writes.

Create HintDb footprint.

(** The general purpose registers and the variables that sequence instructions
    belong to the CPU: no other part of the simulator writes one, except by
    raising an exception.  [cells l pc]: the registers of [l], the sequencing
    variables when [pc] is set, and all other cells. *)
Definition cells (l : list Z) (pc : bool) (c : cell) : Prop :=
  match c with
  | GPR r => r ∈ l
  | G (Pc | Pcnext | Pc_delay | Delay_insn | Next_delay_insn | Except_pending) => pc = true
  | _ => True
  end.
Definition plain : cell -> Prop := cells [] false.
Definition everything (c : cell) : Prop := True.

#[export] Hint Extern 1 (cells _ _ (GPR _)) => apply list_elem_of_here : footprint.

Lemma cells_le l l' pc pc' c : l ⊆ l' -> (pc = true -> pc' = true) -> cells l pc c -> cells l' pc' c.
Proof. intros Hl Hp. unfold cells. destruct c as [|?|[]| | | | | | | | | | | | | | | | | | | | | | | | | | |]; auto. Qed.
Lemma writes_sub (W W' : cell -> Prop) R : (forall c, W' c -> W c) -> Writes W R -> Writes W' R.
Proof. intros HW []. split; auto. Qed.
Lemma writes_plain l pc R : Writes (cells l pc) R -> Writes plain R.
Proof. apply writes_sub. intros c. apply cells_le; [apply list_subseteq_nil | done]. Qed.
Lemma writes_everything W R : Writes everything R -> Writes W R.
Proof. by apply writes_sub. Qed.
#[export] Hint Extern 0 (Writes plain ?R) =>
  match goal with HR : Writes (cells _ _) R |- _ => exact (writes_plain _ _ R HR) end : typeclass_instances.
Lemma writes_nopc l R : Writes (cells l true) R -> Writes (cells l false) R.
Proof. apply writes_sub. intros c. by apply cells_le. Qed.
#[export] Hint Extern 0 (Writes (cells ?l false) ?R) =>
  match goal with HR : Writes (cells l true) R |- _ => exact (writes_nopc l R HR) end : typeclass_instances.
#[export] Hint Extern 1 (Writes _ ?R) =>
  match goal with HR : Writes everything R |- _ => exact (writes_everything _ R HR) end : typeclass_instances.

#[export] Instance writes_typed W : Writes W keeps_typed.
Proof.
  split; [exact keeps_typed_preorder | intros c v s _ Hs; by apply upd_typed |].
  intros f s Hf Hs c. rewrite Hf. apply Hs.
Qed.
#[export] Instance writes_frame W : Writes W (frame W).
Proof.
  split; [apply _ | | intros f s Hf c _; apply Hf].
  intros c v s Hc. by apply frame_upd.
Qed.

(** Proves [Respects R m] along the structure of [m]; calls of other functions
    are left to their own instances. *)
Ltac in_footprint := solve [exact I | reflexivity | auto with footprint].
(** [tac] with the cells a hypothesis allows, or with [plain]. *)
Ltac with_writes R tac :=
  first [ match goal with _ : Writes ?W R |- _ => tac W end | tac plain ].
Ltac respects_write :=
  lazymatch goal with
  | |- Respects same_lists _ => apply same_lists_assign; intros ?; eexists _, _; reflexivity
  | |- Respects keeps_typed (wr _ _) => apply keeps_typed_wr
  | |- Respects keeps_typed (ors _ _) => apply keeps_typed_ors
  | |- Respects keeps_typed (clr _ _) => apply keeps_typed_clr
  | |- Respects keeps_typed (adds _ _) => apply keeps_typed_adds
  | |- Respects keeps_typed (emit _) => apply keeps_typed_emit
  | |- Respects keeps_typed (modify (set_queue _ _)) => apply keeps_typed_set_queue
  | |- Respects (frame _) (wr _ _) => apply frame_wr; in_footprint
  | |- Respects (frame _) (ors _ _) => apply frame_ors; in_footprint
  | |- Respects (frame _) (clr _ _) => apply frame_clr; in_footprint
  | |- Respects (frame _) (adds _ _) => apply frame_adds; in_footprint
  | |- Respects (frame _) (emit _) => apply frame_emit
  | |- Respects (frame _) (modify (set_queue _ _)) => apply frame_modify_queue
  | |- Respects keeps_typed (modify _) => apply keeps_typed_modify; intros ? ?; reflexivity
  | |- Respects (frame _) (modify _) => apply frame_modify; intros ? ?; reflexivity
  | |- Respects ?R (wr _ _) => with_writes R ltac:(fun W => apply (writes_wr W R); in_footprint)
  | |- Respects ?R (ors _ _) => with_writes R ltac:(fun W => apply (writes_ors W R); in_footprint)
  | |- Respects ?R (clr _ _) => with_writes R ltac:(fun W => apply (writes_clr W R); in_footprint)
  | |- Respects ?R (adds _ _) => with_writes R ltac:(fun W => apply (writes_adds W R); in_footprint)
  | |- Respects ?R (emit _) => with_writes R ltac:(fun W => apply (writes_emit W R))
  | |- Respects ?R (modify _) => with_writes R ltac:(fun W => apply (writes_modify W R); intros ? ?; reflexivity)
  end.
Ltac preorder := first [exact keeps_typed_preorder | exact same_lists_preorder | apply frame_preorder | typeclasses eauto].
Ltac respects1 :=
  lazymatch goal with
  | |- forall _, _ => intros ?
  | |- Respects _ (let _ := _ in _) => cbv zeta
  | |- Respects _ (bind _ _) => apply respects_bind; [preorder| |]
  | |- Respects _ (ret _) => apply respects_ret; preorder
  | |- Respects _ (gets _) => apply respects_gets; preorder
  | |- Respects _ (rd _) => apply respects_rd; preorder
  | |- Respects _ (flag _ _) => apply respects_flag; preorder
  | |- Respects _ (isset _) => apply respects_isset; preorder
  | |- Respects _ (stop_with _) => apply respects_stop; preorder
  | |- Respects _ (shl_int _ _) => apply respects_shl_int; preorder
  | |- Respects _ sim_done => apply respects_sim_done; preorder
  | |- Respects _ (when _ _) => apply respects_when; [preorder|]
  | |- Respects _ (for_ _ _ _ _) => apply respects_for; [preorder|]
  | |- Respects _ (switch _ [] _) => apply respects_switch_nil
  | |- Respects _ (switch _ (_ :: _) _) => apply respects_switch
  | |- Respects _ (match ?x with _ => _ end) => destruct x
  | |- Respects _ (wr _ _) => respects_write
  | |- Respects _ (ors _ _) => respects_write
  | |- Respects _ (clr _ _) => respects_write
  | |- Respects _ (adds _ _) => respects_write
  | |- Respects _ (emit _) => respects_write
  | |- Respects _ (modify _) => 
      respects_write
  | |- Respects _ _ => typeclasses eauto
  end.
Ltac respects := repeat respects1.

(** A frame weakens to a larger footprint. *)
Lemma frame_weaken {A} (W W' : cell -> Prop) (m : M A) :
  Respects (frame W) m -> (forall c, W c -> W' c) -> Respects (frame W') m.
Proof. intros Hm HW s c Hc. apply Hm. auto. Qed.

(** Using a frame after a successful run. *)
Lemma frame_ok {A} (W : cell -> Prop) (m : M A) s a s' c :
  Respects (frame W) m -> m s = Ok a s' -> ~ W c -> s' c = s c.
Proof. intros Hm E Hc. specialize (Hm s c Hc). by rewrite E in Hm. Qed.

Lemma wpx_respects {A} R (m : M A) E Q (s : Sim) :
  Respects R m ->
  wpx m (fun w s' => R s s' -> E w s') (fun a s' => R s s' -> Q a s') s -> wpx m E Q s.
Proof. intros Hm. specialize (Hm s). unfold wpx. destruct (m s); simpl in *; auto. Qed.

(** A switch label taken: one goal for each value the scrutinee can have. *)
Ltac label_taken H :=
  revert H; cbn [existsb]; rewrite ?orb_true_iff, ?orb_false_r;
  repeat lazymatch goal with
  | |- _ \/ _ -> _ => let L := fresh in intro L; case L; clear L
  end;
  lazymatch goal with
  | |- false = true -> _ => let L := fresh in intro L; discriminate L
  | |- _ = true -> _ => let L := fresh in intro L; apply Z.eqb_eq in L; subst
  end.

(** No label taken: every comparison with a label is false. *)
Ltac labels_missed :=
  repeat match goal with
  | H : existsb _ _ = false |- _ => cbn [existsb] in H; rewrite ?orb_false_iff in H
  end;
  repeat match goal with H : _ /\ _ |- _ => destruct H end;
  cbn [existsb switch];
  repeat match goal with
  | E : (_ =? _) = false |- _ => rewrite E
  end.

(** Inclusion of footprints. *)
Lemma frame_mono (l l' : list cell) s s' :
  forallb (fun c => existsb (fun c' => bool_decide (c = c')) l') l = true ->
  frame (foot l) s s' -> frame (foot l') s s'.
Proof.
  intros Hl Hf c Hc. apply Hf. intros Hin. apply Hc. unfold foot in *.
  rewrite forallb_forall in Hl. apply existsb_exists in Hin as (c' & Hin & Hd).
  apply bool_decide_eq_true in Hd as <-. auto.
Qed.

(** Cells outside a footprint. *)
Lemma frame_get (l : list cell) s s' c :
  frame (foot l) s s' -> existsb (fun c' => bool_decide (c = c')) l = false -> s' c = s c.
Proof. intros Hf Hc. apply Hf. unfold foot. congruence. Qed.

(** ** Functions that always return *)

Class Total {A} (m : M A) : Prop := total : forall s, exists a s', m s = Ok a s'.

Lemma total_ok {A} (m : M A) : (forall s, exists a s', m s = Ok a s') -> Total m.
Proof. exact id. Qed.
Lemma total_bind {A B} (m : M A) (f : A -> M B) : Total m -> (forall a, Total (f a)) -> Total (bind m f).
Proof. intros Hm Hf s. unfold bind. destruct (Hm s) as (a & s1 & ->). apply Hf. Qed.
Lemma total_switch {A} x labels (m : M A) cases d :
  Total m -> Total (switch x cases d) -> Total (switch x ((labels, m) :: cases) d).
Proof. intros H1 H2 s. cbn. destruct (existsb _ _); auto. Qed.
Lemma total_when b m : Total m -> Total (when b m).
Proof. destruct b; [auto|]. intros _ s. by eexists _, _. Qed.
Lemma total_for n lo step body : (forall i, Total (body i)) -> Total (for_ n lo step body).
Proof.
  intros Hb. revert lo. induction n as [|n IH]; intros lo; simpl; [by intros s; eexists _, _|].
  by apply total_bind.
Qed.

(** Proves [Total m] along the structure of [m]. *)
Ltac total :=
  repeat lazymatch goal with
  | |- forall _, _ => intros ?
  | |- Total (let _ := _ in _) => cbv zeta
  | |- Total (bind _ _) => apply total_bind
  | |- Total (when _ _) => apply total_when
  | |- Total (switch _ (_ :: _) _) => apply total_switch
  | |- Total (switch _ [] ?d) => change (Total d)
  | |- Total (for_ _ _ _ _) => apply total_for
  | |- Total (match ?x with _ => _ end) => destruct x
  | |- Total (ret _) => apply total_ok; intros ?; eexists _, _; reflexivity
  | |- Total (gets _) => apply total_ok; intros ?; eexists _, _; reflexivity
  | |- Total (rd _) => apply total_ok; intros ?; eexists _, _; reflexivity
  | |- Total (wr _ _) => apply total_ok; intros ?; eexists _, _; reflexivity
  | |- Total (ors _ _) => apply total_ok; intros ?; eexists _, _; reflexivity
  | |- Total (clr _ _) => apply total_ok; intros ?; eexists _, _; reflexivity
  | |- Total (adds _ _) => apply total_ok; intros ?; eexists _, _; reflexivity
  | |- Total (flag _ _) => apply total_ok; intros ?; eexists _, _; reflexivity
  | |- Total (isset _) => apply total_ok; intros ?; eexists _, _; reflexivity
  | |- Total (emit _) => apply total_ok; intros ?; eexists _, _; reflexivity
  | |- Total (modify _) => apply total_ok; intros ?; eexists _, _; reflexivity
  | |- Total _ => typeclasses eauto
  end.

(** A function that returns, along a preorder it keeps. *)
Lemma total_respects {A} R (m : M A) s : Total m -> Respects R m -> exists a s', m s = Ok a s' /\ R s s'.
Proof. intros Ht Hr. destruct (Ht s) as (a & s' & E). exists a, s'. specialize (Hr s). by rewrite E in Hr. Qed.
