(* ===== verification/Spr.v ===== *)
(** * Special purpose registers and exception vectors

    The numbers of cpu/or1k/spr-defs.h (register numbers, fields and flags),
    the exception vectors of cpu/or1k/except.h and the register conventions of
    cpu/or1k/arch.h, with the facts about flags the other files use. *)

From S2P Require Export Logic.

(** ** cpu/or1k/spr-defs.h *)

Definition MAX_GRPS : Z := 32.
Definition MAX_GPRS : Z := 32.
Definition MAX_SPRS_PER_GRP_BITS : Z := 11.
Definition MAX_SPRS_PER_GRP : Z := Z.shiftl 1 MAX_SPRS_PER_GRP_BITS.
Definition MAX_SPRS : Z := 0x10000.

(* Base addresses for the groups *)
Definition SPRGROUP_SYS : Z := Z.shiftl 0 MAX_SPRS_PER_GRP_BITS.
Definition SPRGROUP_DMMU : Z := Z.shiftl 1 MAX_SPRS_PER_GRP_BITS.
Definition SPRGROUP_IMMU : Z := Z.shiftl 2 MAX_SPRS_PER_GRP_BITS.
Definition SPRGROUP_DC : Z := Z.shiftl 3 MAX_SPRS_PER_GRP_BITS.
Definition SPRGROUP_IC : Z := Z.shiftl 4 MAX_SPRS_PER_GRP_BITS.
Definition SPRGROUP_MAC : Z := Z.shiftl 5 MAX_SPRS_PER_GRP_BITS.
Definition SPRGROUP_D : Z := Z.shiftl 6 MAX_SPRS_PER_GRP_BITS.
Definition SPRGROUP_PC : Z := Z.shiftl 7 MAX_SPRS_PER_GRP_BITS.
Definition SPRGROUP_PM : Z := Z.shiftl 8 MAX_SPRS_PER_GRP_BITS.
Definition SPRGROUP_PIC : Z := Z.shiftl 9 MAX_SPRS_PER_GRP_BITS.
Definition SPRGROUP_TT : Z := Z.shiftl 10 MAX_SPRS_PER_GRP_BITS.
Definition SPRGROUP_FP : Z := Z.shiftl 11 MAX_SPRS_PER_GRP_BITS.

(* System control and status group *)
Definition SPR_VR : Z := SPRGROUP_SYS + 0.
Definition SPR_UPR : Z := SPRGROUP_SYS + 1.
Definition SPR_CPUCFGR : Z := SPRGROUP_SYS + 2.
Definition SPR_DMMUCFGR : Z := SPRGROUP_SYS + 3.
Definition SPR_IMMUCFGR : Z := SPRGROUP_SYS + 4.
Definition SPR_DCCFGR : Z := SPRGROUP_SYS + 5.
Definition SPR_ICCFGR : Z := SPRGROUP_SYS + 6.
Definition SPR_DCFGR : Z := SPRGROUP_SYS + 7.
Definition SPR_PCCFGR : Z := SPRGROUP_SYS + 8.
Definition SPR_VR2 : Z := SPRGROUP_SYS + 9.
Definition SPR_AVR : Z := SPRGROUP_SYS + 10.
Definition SPR_EVBAR : Z := SPRGROUP_SYS + 11.
Definition SPR_AECR : Z := SPRGROUP_SYS + 12.
Definition SPR_AESR : Z := SPRGROUP_SYS + 13.
Definition SPR_NPC : Z := SPRGROUP_SYS + 16.
Definition SPR_SR : Z := SPRGROUP_SYS + 17.
Definition SPR_PPC : Z := SPRGROUP_SYS + 18.
Definition SPR_FPCSR : Z := SPRGROUP_SYS + 20.
Definition SPR_ISR_BASE : Z := SPRGROUP_SYS + 21.
Definition SPR_EPCR_BASE : Z := SPRGROUP_SYS + 32.
Definition SPR_EPCR_LAST : Z := SPRGROUP_SYS + 47.
Definition SPR_EEAR_BASE : Z := SPRGROUP_SYS + 48.
Definition SPR_EEAR_LAST : Z := SPRGROUP_SYS + 63.
Definition SPR_ESR_BASE : Z := SPRGROUP_SYS + 64.
Definition SPR_ESR_LAST : Z := SPRGROUP_SYS + 79.
Definition SPR_GPR_BASE : Z := SPRGROUP_SYS + 1024.

(* Data MMU group *)
Definition SPR_DMMUCR : Z := SPRGROUP_DMMU + 0.
Definition SPR_DMMUPR : Z := SPRGROUP_DMMU + 1.
Definition SPR_DTLBEIR : Z := SPRGROUP_DMMU + 2.
Definition SPR_DTLBMR_BASE (WAY : Z) : Z := SPRGROUP_DMMU + 0x200 + WAY * 0x100.
Definition SPR_DTLBMR_LAST (WAY : Z) : Z := SPRGROUP_DMMU + 0x27f + WAY * 0x100.
Definition SPR_DTLBTR_BASE (WAY : Z) : Z := SPRGROUP_DMMU + 0x280 + WAY * 0x100.
Definition SPR_DTLBTR_LAST (WAY : Z) : Z := SPRGROUP_DMMU + 0x2ff + WAY * 0x100.

(* Instruction MMU group *)
Definition SPR_IMMUCR : Z := SPRGROUP_IMMU + 0.
Definition SPR_IMMUPR : Z := SPRGROUP_IMMU + 1.
Definition SPR_ITLBEIR : Z := SPRGROUP_IMMU + 2.
Definition SPR_ITLBMR_BASE (WAY : Z) : Z := SPRGROUP_IMMU + 0x200 + WAY * 0x100.
Definition SPR_ITLBMR_LAST (WAY : Z) : Z := SPRGROUP_IMMU + 0x27f + WAY * 0x100.
Definition SPR_ITLBTR_BASE (WAY : Z) : Z := SPRGROUP_IMMU + 0x280 + WAY * 0x100.
Definition SPR_ITLBTR_LAST (WAY : Z) : Z := SPRGROUP_IMMU + 0x2ff + WAY * 0x100.

(* Data cache group *)
Definition SPR_DCCR : Z := SPRGROUP_DC + 0.
Definition SPR_DCBPR : Z := SPRGROUP_DC + 1.
Definition SPR_DCBFR : Z := SPRGROUP_DC + 2.
Definition SPR_DCBIR : Z := SPRGROUP_DC + 3.
Definition SPR_DCBWR : Z := SPRGROUP_DC + 4.
Definition SPR_DCBLR : Z := SPRGROUP_DC + 5.
Definition SPR_DCR_BASE (WAY : Z) : Z := SPRGROUP_DC + 0x200 + WAY * 0x200.
Definition SPR_DCR_LAST (WAY : Z) : Z := SPRGROUP_DC + 0x3ff + WAY * 0x200.

(* Instruction cache group *)
Definition SPR_ICCR : Z := SPRGROUP_IC + 0.
Definition SPR_ICBPR : Z := SPRGROUP_IC + 1.
Definition SPR_ICBIR : Z := SPRGROUP_IC + 2.
Definition SPR_ICBLR : Z := SPRGROUP_IC + 3.
Definition SPR_ICR_BASE (WAY : Z) : Z := SPRGROUP_IC + 0x200 + WAY * 0x200.
Definition SPR_ICR_LAST (WAY : Z) : Z := SPRGROUP_IC + 0x3ff + WAY * 0x200.

(* MAC group *)
Definition SPR_MACLO : Z := SPRGROUP_MAC + 1.
Definition SPR_MACHI : Z := SPRGROUP_MAC + 2.

(* Debug group *)
Definition SPR_DVR (N : Z) : Z := SPRGROUP_D + N.
Definition SPR_DCR (N : Z) : Z := SPRGROUP_D + 8 + N.
Definition SPR_DMR1 : Z := SPRGROUP_D + 16.
Definition SPR_DMR2 : Z := SPRGROUP_D + 17.
Definition SPR_DWCR0 : Z := SPRGROUP_D + 18.
Definition SPR_DWCR1 : Z := SPRGROUP_D + 19.
Definition SPR_DSR : Z := SPRGROUP_D + 20.
Definition SPR_DRR : Z := SPRGROUP_D + 21.

(* Performance counters group *)
Definition SPR_PCCR (N : Z) : Z := SPRGROUP_PC + N.
Definition SPR_PCMR (N : Z) : Z := SPRGROUP_PC + 8 + N.

(* Power management group *)
Definition SPR_PMR : Z := SPRGROUP_PM + 0.

(* PIC group *)
Definition SPR_PICMR : Z := SPRGROUP_PIC + 0.
Definition SPR_PICPR : Z := SPRGROUP_PIC + 1.
Definition SPR_PICSR : Z := SPRGROUP_PIC + 2.

(* Tick Timer group *)
Definition SPR_TTMR : Z := SPRGROUP_TT + 0.
Definition SPR_TTCR : Z := SPRGROUP_TT + 1.

(* Bit definitions for the Version Register *)
Definition SPR_VR_VER : Z := 0xff000000.
Definition SPR_VR_CFG : Z := 0x00ff0000.
Definition SPR_VR_RES : Z := 0x0000ffc0.
Definition SPR_VR_REV : Z := 0x0000003f.
Definition SPR_VR_VER_OFF : Z := 24.
Definition SPR_VR_CFG_OFF : Z := 16.
Definition SPR_VR_REV_OFF : Z := 0.

(* Bit definitions for the Unit Present Register *)
Definition SPR_UPR_UP : Z := 0x00000001.
Definition SPR_UPR_DCP : Z := 0x00000002.
Definition SPR_UPR_ICP : Z := 0x00000004.
Definition SPR_UPR_DMP : Z := 0x00000008.
Definition SPR_UPR_IMP : Z := 0x00000010.
Definition SPR_UPR_MP : Z := 0x00000020.
Definition SPR_UPR_DUP : Z := 0x00000040.
Definition SPR_UPR_PCUP : Z := 0x00000080.
Definition SPR_UPR_PMP : Z := 0x00000100.
Definition SPR_UPR_PICP : Z := 0x00000200.
Definition SPR_UPR_TTP : Z := 0x00000400.
Definition SPR_UPR_RES : Z := 0x00fe0000.
Definition SPR_UPR_CUP : Z := 0xff000000.

(* Bit definitions for the CPU configuration register *)
Definition SPR_CPUCFGR_NSGF : Z := 0x0000000f.
Definition SPR_CPUCFGR_CGF : Z := 0x00000010.
Definition SPR_CPUCFGR_OB32S : Z := 0x00000020.
Definition SPR_CPUCFGR_OB64S : Z := 0x00000040.
Definition SPR_CPUCFGR_OF32S : Z := 0x00000080.
Definition SPR_CPUCFGR_OF64S : Z := 0x00000100.
Definition SPR_CPUCFGR_OV64S : Z := 0x00000200.
Definition SPR_CPUCFGR_ND : Z := 0x00000400.
Definition SPR_CPUCFGR_AVRP : Z := 0x00000800.
Definition SPR_CPUCFGR_EVBARP : Z := 0x00001000.
Definition SPR_CPUCFGR_ISRP : Z := 0x00002000.
Definition SPR_CPUCFGR_AECSRP : Z := 0x00004000.
Definition SPR_CPUCFGR_RES : Z := 0xffff8000.

(* Bit definitions for the Debug configuration register and other constants *)
Definition SPR_DCFGR_NDP : Z := 0x00000007.
Definition SPR_DCFGR_NDP1 : Z := 0x00000000.
Definition SPR_DCFGR_NDP2 : Z := 0x00000001.
Definition SPR_DCFGR_NDP3 : Z := 0x00000002.
Definition SPR_DCFGR_NDP4 : Z := 0x00000003.
Definition SPR_DCFGR_NDP5 : Z := 0x00000004.
Definition SPR_DCFGR_NDP6 : Z := 0x00000005.
Definition SPR_DCFGR_NDP7 : Z := 0x00000006.
Definition SPR_DCFGR_NDP8 : Z := 0x00000007.
Definition SPR_DCFGR_WPCI : Z := 0x00000008.
Definition MAX_MATCHPOINTS : Z := 8.
Definition MAX_WATCHPOINTS : Z := MAX_MATCHPOINTS + 2.

(* Bit definitions for Version Register 2 *)
Definition SPR_VR2_CPUID : Z := 0xff000000.
Definition SPR_VR2_VER : Z := 0x00ffffff.

(* Bit definitions for Architecture Version Register *)
Definition SPR_AVR_RES : Z := 0x000000ff.
Definition SPR_AVR_REV : Z := 0x0000ff00.
Definition SPR_AVR_MIN : Z := 0x00ff0000.
Definition SPR_AVR_MAJ : Z := 0xff000000.

(* Bit definitions for Exception Vector Base Address Register *)
Definition SPR_EVBAR_RES : Z := 0x00001fff.
Definition SPR_EVBAR_EVBA : Z := 0xffffe000.

(* Bit definitions for the Arithmetic Exception Control Register *)
Definition SPR_AECR_CYADDE : Z := 0x00000001.
Definition SPR_AECR_OVADDE : Z := 0x00000002.
Definition SPR_AECR_CYMULE : Z := 0x00000004.
Definition SPR_AECR_OVMULE : Z := 0x00000008.
Definition SPR_AECR_DBZE : Z := 0x00000010.
Definition SPR_AECR_CYMACADDE : Z := 0x00000020.
Definition SPR_AECR_OVMACADDE : Z := 0x00000040.

(* Bit definitions for the Arithmetic Exception Status Register *)
Definition SPR_AESR_CYADDE : Z := 0x00000001.
Definition SPR_AESR_OVADDE : Z := 0x00000002.
Definition SPR_AESR_CYMULE : Z := 0x00000004.
Definition SPR_AESR_OVMULE : Z := 0x00000008.
Definition SPR_AESR_DBZE : Z := 0x00000010.
Definition SPR_AESR_CYMACADDE : Z := 0x00000020.
Definition SPR_AESR_OVMACADDE : Z := 0x00000040.

(* Bit definitions for the Supervision Register *)
Definition SPR_SR_SM : Z := 0x00000001.
Definition SPR_SR_TEE : Z := 0x00000002.
Definition SPR_SR_IEE : Z := 0x00000004.
Definition SPR_SR_DCE : Z := 0x00000008.
Definition SPR_SR_ICE : Z := 0x00000010.
Definition SPR_SR_DME : Z := 0x00000020.
Definition SPR_SR_IME : Z := 0x00000040.
Definition SPR_SR_LEE : Z := 0x00000080.
Definition SPR_SR_CE : Z := 0x00000100.
Definition SPR_SR_F : Z := 0x00000200.
Definition SPR_SR_CY : Z := 0x00000400.
Definition SPR_SR_OV : Z := 0x00000800.
Definition SPR_SR_OVE : Z := 0x00001000.
Definition SPR_SR_DSX : Z := 0x00002000.
Definition SPR_SR_EPH : Z := 0x00004000.
Definition SPR_SR_FO : Z := 0x00008000.
Definition SPR_SR_SUMRA : Z := 0x00010000.
Definition SPR_SR_RES : Z := 0x0ffe0000.
Definition SPR_SR_CID : Z := 0xf0000000.

(* Bit definitions for the Data MMU Control Register *)
Definition SPR_DMMUCR_P2S : Z := 0x0000003e.
Definition SPR_DMMUCR_P1S : Z := 0x000007c0.
Definition SPR_DMMUCR_VADDR_WIDTH : Z := 0x0000f800.
Definition SPR_DMMUCR_PADDR_WIDTH : Z := 0x000f0000.

(* Bit definitions for the Instruction MMU Control Register *)
Definition SPR_IMMUCR_P2S : Z := 0x0000003e.
Definition SPR_IMMUCR_P1S : Z := 0x000007c0.
Definition SPR_IMMUCR_VADDR_WIDTH : Z := 0x0000f800.
Definition SPR_IMMUCR_PADDR_WIDTH : Z := 0x000f0000.

(* Bit definitions for the Data TLB Match Register *)
Definition SPR_DTLBMR_V : Z := 0x00000001.
Definition SPR_DTLBMR_PL1 : Z := 0x00000002.
Definition SPR_DTLBMR_CID : Z := 0x0000003c.
Definition SPR_DTLBMR_LRU : Z := 0x000000c0.
Definition SPR_DTLBMR_VPN : Z := 0xffffe000.

(* Bit definitions for the Data TLB Translate Register *)
Definition SPR_DTLBTR_CC : Z := 0x00000001.
Definition SPR_DTLBTR_CI : Z := 0x00000002.
Definition SPR_DTLBTR_WBC : Z := 0x00000004.
Definition SPR_DTLBTR_WOM : Z := 0x00000008.
Definition SPR_DTLBTR_A : Z := 0x00000010.
Definition SPR_DTLBTR_D : Z := 0x00000020.
Definition SPR_DTLBTR_URE : Z := 0x00000040.
Definition SPR_DTLBTR_UWE : Z := 0x00000080.
Definition SPR_DTLBTR_SRE : Z := 0x00000100.
Definition SPR_DTLBTR_SWE : Z := 0x00000200.
Definition SPR_DTLBTR_PPN : Z := 0xffffe000.

(* Bit definitions for the Instruction TLB Match Register *)
Definition SPR_ITLBMR_V : Z := 0x00000001.
Definition SPR_ITLBMR_PL1 : Z := 0x00000002.
Definition SPR_ITLBMR_CID : Z := 0x0000003c.
Definition SPR_ITLBMR_LRU : Z := 0x000000c0.
Definition SPR_ITLBMR_VPN : Z := 0xffffe000.

(* Bit definitions for the Instruction TLB Translate Register *)
Definition SPR_ITLBTR_CC : Z := 0x00000001.
Definition SPR_ITLBTR_CI : Z := 0x00000002.
Definition SPR_ITLBTR_WBC : Z := 0x00000004.
Definition SPR_ITLBTR_WOM : Z := 0x00000008.
Definition SPR_ITLBTR_A : Z := 0x00000010.
Definition SPR_ITLBTR_D : Z := 0x00000020.
Definition SPR_ITLBTR_SXE : Z := 0x00000040.
Definition SPR_ITLBTR_UXE : Z := 0x00000080.
Definition SPR_ITLBTR_PPN : Z := 0xffffe000.

(* Bit definitions for Data Cache Control register *)
Definition SPR_DCCR_EW : Z := 0x000000ff.

(* Bit definitions for Insn Cache Control register *)
Definition SPR_ICCR_EW : Z := 0x000000ff.

(* Bit definitions for Data Cache Configuration Register *)
Definition SPR_DCCFGR_NCW : Z := 0x00000007.
Definition SPR_DCCFGR_NCS : Z := 0x00000078.
Definition SPR_DCCFGR_CBS : Z := 0x00000080.
Definition SPR_DCCFGR_CWS : Z := 0x00000100.
Definition SPR_DCCFGR_CCRI : Z := 0x00000200.
Definition SPR_DCCFGR_CBIRI : Z := 0x00000400.
Definition SPR_DCCFGR_CBPRI : Z := 0x00000800.
Definition SPR_DCCFGR_CBLRI : Z := 0x00001000.
Definition SPR_DCCFGR_CBFRI : Z := 0x00002000.
Definition SPR_DCCFGR_CBWBRI : Z := 0x00004000.
Definition SPR_DCCFGR_NCW_OFF : Z := 0.
Definition SPR_DCCFGR_NCS_OFF : Z := 3.
Definition SPR_DCCFGR_CBS_OFF : Z := 7.

(* Bit definitions for Instruction Cache Configuration Register *)
Definition SPR_ICCFGR_NCW : Z := 0x00000007.
Definition SPR_ICCFGR_NCS : Z := 0x00000078.
Definition SPR_ICCFGR_CBS : Z := 0x00000080.
Definition SPR_ICCFGR_CCRI : Z := 0x00000200.
Definition SPR_ICCFGR_CBIRI : Z := 0x00000400.
Definition SPR_ICCFGR_CBPRI : Z := 0x00000800.
Definition SPR_ICCFGR_CBLRI : Z := 0x00001000.
Definition SPR_ICCFGR_NCW_OFF : Z := 0.
Definition SPR_ICCFGR_NCS_OFF : Z := 3.
Definition SPR_ICCFGR_CBS_OFF : Z := 7.

(* Bit definitions for Data MMU Configuration Register *)
Definition SPR_DMMUCFGR_NTW : Z := 0x00000003.
Definition SPR_DMMUCFGR_NTS : Z := 0x0000001C.
Definition SPR_DMMUCFGR_NAE : Z := 0x000000E0.
Definition SPR_DMMUCFGR_CRI : Z := 0x00000100.
Definition SPR_DMMUCFGR_PRI : Z := 0x00000200.
Definition SPR_DMMUCFGR_TEIRI : Z := 0x00000400.
Definition SPR_DMMUCFGR_HTR : Z := 0x00000800.
Definition SPR_DMMUCFGR_NTW_OFF : Z := 0.
Definition SPR_DMMUCFGR_NTS_OFF : Z := 2.

(* Bit definitions for Instruction MMU Configuration Register *)
Definition SPR_IMMUCFGR_NTW : Z := 0x00000003.
Definition SPR_IMMUCFGR_NTS : Z := 0x0000001C.
Definition SPR_IMMUCFGR_NAE : Z := 0x000000E0.
Definition SPR_IMMUCFGR_CRI : Z := 0x00000100.
Definition SPR_IMMUCFGR_PRI : Z := 0x00000200.
Definition SPR_IMMUCFGR_TEIRI : Z := 0x00000400.
Definition SPR_IMMUCFGR_HTR : Z := 0x00000800.
Definition SPR_IMMUCFGR_NTW_OFF : Z := 0.
Definition SPR_IMMUCFGR_NTS_OFF : Z := 2.

(* Bit definitions for Debug Control registers *)
Definition SPR_DCR_DP : Z := 0x00000001.
Definition SPR_DCR_CC : Z := 0x0000000e.
Definition SPR_DCR_SC : Z := 0x00000010.
Definition SPR_DCR_CT : Z := 0x000000e0.

(* Bit results with SPR_DCR_CC mask *)
Definition SPR_DCR_CC_MASKED : Z := 0x00000000.
Definition SPR_DCR_CC_EQUAL : Z := 0x00000002.
Definition SPR_DCR_CC_LESS : Z := 0x00000004.
Definition SPR_DCR_CC_LESSE : Z := 0x00000006.
Definition SPR_DCR_CC_GREAT : Z := 0x00000008.
Definition SPR_DCR_CC_GREATE : Z := 0x0000000a.
Definition SPR_DCR_CC_NEQUAL : Z := 0x0000000c.

(* Bit results with SPR_DCR_CT mask *)
Definition SPR_DCR_CT_DISABLED : Z := 0x00000000.
Definition SPR_DCR_CT_IFEA : Z := 0x00000020.
Definition SPR_DCR_CT_LEA : Z := 0x00000040.
Definition SPR_DCR_CT_SEA : Z := 0x00000060.
Definition SPR_DCR_CT_LD : Z := 0x00000080.
Definition SPR_DCR_CT_SD : Z := 0x000000a0.
Definition SPR_DCR_CT_LSEA : Z := 0x000000c0.
Definition SPR_DCR_CT_LSD : Z := 0x000000e0.

(* Bit definitions for Debug Mode 1 register *)
Definition SPR_DMR1_CW : Z := 0x000fffff.
Definition SPR_DMR1_CW0_AND : Z := 0x00000001.
Definition SPR_DMR1_CW0_OR : Z := 0x00000002.
Definition SPR_DMR1_CW0 : Z := Z.lor SPR_DMR1_CW0_AND SPR_DMR1_CW0_OR.
Definition SPR_DMR1_CW1_AND : Z := 0x00000004.
Definition SPR_DMR1_CW1_OR : Z := 0x00000008.
Definition SPR_DMR1_CW1 : Z := Z.lor SPR_DMR1_CW1_AND SPR_DMR1_CW1_OR.
Definition SPR_DMR1_CW2_AND : Z := 0x00000010.
Definition SPR_DMR1_CW2_OR : Z := 0x00000020.
Definition SPR_DMR1_CW2 : Z := Z.lor SPR_DMR1_CW2_AND SPR_DMR1_CW2_OR.
Definition SPR_DMR1_CW3_AND : Z := 0x00000040.
Definition SPR_DMR1_CW3_OR : Z := 0x00000080.
Definition SPR_DMR1_CW3 : Z := Z.lor SPR_DMR1_CW3_AND SPR_DMR1_CW3_OR.
Definition SPR_DMR1_CW4_AND : Z := 0x00000100.
Definition SPR_DMR1_CW4_OR : Z := 0x00000200.
Definition SPR_DMR1_CW4 : Z := Z.lor SPR_DMR1_CW4_AND SPR_DMR1_CW4_OR.
Definition SPR_DMR1_CW5_AND : Z := 0x00000400.
Definition SPR_DMR1_CW5_OR : Z := 0x00000800.
Definition SPR_DMR1_CW5 : Z := Z.lor SPR_DMR1_CW5_AND SPR_DMR1_CW5_OR.
Definition SPR_DMR1_CW6_AND : Z := 0x00001000.
Definition SPR_DMR1_CW6_OR : Z := 0x00002000.
Definition SPR_DMR1_CW6 : Z := Z.lor SPR_DMR1_CW6_AND SPR_DMR1_CW6_OR.
Definition SPR_DMR1_CW7_AND : Z := 0x00004000.
Definition SPR_DMR1_CW7_OR : Z := 0x00008000.
Definition SPR_DMR1_CW7 : Z := Z.lor SPR_DMR1_CW7_AND SPR_DMR1_CW7_OR.
Definition SPR_DMR1_CW8_AND : Z := 0x00010000.
Definition SPR_DMR1_CW8_OR : Z := 0x00020000.
Definition SPR_DMR1_CW8 : Z := Z.lor SPR_DMR1_CW8_AND SPR_DMR1_CW8_OR.
Definition SPR_DMR1_CW9_AND : Z := 0x00040000.
Definition SPR_DMR1_CW9_OR : Z := 0x00080000.
Definition SPR_DMR1_CW9 : Z := Z.lor SPR_DMR1_CW9_AND SPR_DMR1_CW9_OR.
Definition SPR_DMR1_RES1 : Z := 0x00300000.
Definition SPR_DMR1_ST : Z := 0x00400000.
Definition SPR_DMR1_BT : Z := 0x00800000.
Definition SPR_DMR1_RES2 : Z := 0xff000000.

(* Bit definitions for Debug Mode 2 register *)
Definition SPR_DMR2_WCE0 : Z := 0x00000001.
Definition SPR_DMR2_WCE1 : Z := 0x00000002.
Definition SPR_DMR2_AWTC : Z := 0x00000ffc.
Definition SPR_DMR2_AWTC_OFF : Z := 2.
Definition SPR_DMR2_WGB : Z := 0x003ff000.
Definition SPR_DMR2_WGB_OFF : Z := 12.
Definition SPR_DMR2_WBS : Z := 0xffc00000.
Definition SPR_DMR2_WBS_OFF : Z := 22.

(* Bit definitions for Debug watchpoint counter registers *)
Definition SPR_DWCR_COUNT : Z := 0x0000ffff.
Definition SPR_DWCR_MATCH : Z := 0xffff0000.
Definition SPR_DWCR_MATCH_OFF : Z := 16.

(* Bit definitions for Debug stop register *)
Definition SPR_DSR_RSTE : Z := 0x00000001.
Definition SPR_DSR_BUSEE : Z := 0x00000002.
Definition SPR_DSR_DPFE : Z := 0x00000004.
Definition SPR_DSR_IPFE : Z := 0x00000008.
Definition SPR_DSR_TTE : Z := 0x00000010.
Definition SPR_DSR_AE : Z := 0x00000020.
Definition SPR_DSR_IIE : Z := 0x00000040.
Definition SPR_DSR_IE : Z := 0x00000080.
Definition SPR_DSR_DME : Z := 0x00000100.
Definition SPR_DSR_IME : Z := 0x00000200.
Definition SPR_DSR_RE : Z := 0x00000400.
Definition SPR_DSR_SCE : Z := 0x00000800.
Definition SPR_DSR_FPE : Z := 0x00001000.
Definition SPR_DSR_TE : Z := 0x00002000.

(* Bit definitions for Debug reason register *)
Definition SPR_DRR_RSTE : Z := 0x00000001.
Definition SPR_DRR_BUSEE : Z := 0x00000002.
Definition SPR_DRR_DPFE : Z := 0x00000004.
Definition SPR_DRR_IPFE : Z := 0x00000008.
Definition SPR_DRR_TTE : Z := 0x00000010.
Definition SPR_DRR_AE : Z := 0x00000020.
Definition SPR_DRR_IIE : Z := 0x00000040.
Definition SPR_DRR_IE : Z := 0x00000080.
Definition SPR_DRR_DME : Z := 0x00000100.
Definition SPR_DRR_IME : Z := 0x00000200.
Definition SPR_DRR_RE : Z := 0x00000400.
Definition SPR_DRR_SCE : Z := 0x00000800.
Definition SPR_DRR_FPE : Z := 0x00001000.
Definition SPR_DRR_TE : Z := 0x00002000.

(* Bit definitions for Performance counters mode registers *)
Definition SPR_PCMR_CP : Z := 0x00000001.
Definition SPR_PCMR_UMRA : Z := 0x00000002.
Definition SPR_PCMR_CISM : Z := 0x00000004.
Definition SPR_PCMR_CIUM : Z := 0x00000008.
Definition SPR_PCMR_LA : Z := 0x00000010.
Definition SPR_PCMR_SA : Z := 0x00000020.
Definition SPR_PCMR_IF : Z := 0x00000040.
Definition SPR_PCMR_DCM : Z := 0x00000080.
Definition SPR_PCMR_ICM : Z := 0x00000100.
Definition SPR_PCMR_IFS : Z := 0x00000200.
Definition SPR_PCMR_LSUS : Z := 0x00000400.
Definition SPR_PCMR_BS : Z := 0x00000800.
Definition SPR_PCMR_DTLBM : Z := 0x00001000.
Definition SPR_PCMR_ITLBM : Z := 0x00002000.
Definition SPR_PCMR_DDS : Z := 0x00004000.
Definition SPR_PCMR_WPE : Z := 0x03ff8000.

(* Bit definitions for the Power management register *)
Definition SPR_PMR_SDF : Z := 0x0000000f.
Definition SPR_PMR_DME : Z := 0x00000010.
Definition SPR_PMR_SME : Z := 0x00000020.
Definition SPR_PMR_DCGE : Z := 0x00000040.
Definition SPR_PMR_SUME : Z := 0x00000080.

(* Bit definitions for PICMR *)
Definition SPR_PICMR_IUM : Z := 0xfffffffc.

(* Bit definitions for PICPR *)
Definition SPR_PICPR_IPRIO : Z := 0xfffffffc.

(* Bit definitions for PICSR *)
Definition SPR_PICSR_IS : Z := 0xffffffff.

(* Bit definitions for Tick Timer Control Register *)
Definition SPR_TTCR_CNT : Z := 0xffffffff.
Definition SPR_TTMR_TP : Z := 0x0fffffff.
Definition SPR_TTMR_IP : Z := 0x10000000.
Definition SPR_TTMR_IE : Z := 0x20000000.
Definition SPR_TTMR_DI : Z := 0x00000000.
Definition SPR_TTMR_RT : Z := 0x40000000.
Definition SPR_TTMR_SR : Z := 0x80000000.
Definition SPR_TTMR_CR : Z := 0xc0000000.
Definition SPR_TTMR_M : Z := 0xc0000000.

(* Bit definitions for the FP Control Status Register *)
Definition SPR_FPCSR_FPEE : Z := 0x00000001.
Definition SPR_FPCSR_RM : Z := 0x00000006.
Definition SPR_FPCSR_OVF : Z := 0x00000008.
Definition SPR_FPCSR_UNF : Z := 0x00000010.
Definition SPR_FPCSR_SNF : Z := 0x00000020.
Definition SPR_FPCSR_QNF : Z := 0x00000040.
Definition SPR_FPCSR_ZF : Z := 0x00000080.
Definition SPR_FPCSR_IXF : Z := 0x00000100.
Definition SPR_FPCSR_IVF : Z := 0x00000200.
Definition SPR_FPCSR_INF : Z := 0x00000400.
Definition SPR_FPCSR_DZF : Z := 0x00000800.
Definition SPR_FPCSR_ALLF : Z :=
  Z.lor SPR_FPCSR_OVF (Z.lor SPR_FPCSR_UNF (Z.lor SPR_FPCSR_SNF
  (Z.lor SPR_FPCSR_QNF (Z.lor SPR_FPCSR_ZF (Z.lor SPR_FPCSR_IXF
  (Z.lor SPR_FPCSR_IVF (Z.lor SPR_FPCSR_INF SPR_FPCSR_DZF))))))).
Definition FPCSR_RM_RN : Z := Z.shiftl 0 1.
Definition FPCSR_RM_RZ : Z := Z.shiftl 1 1.
Definition FPCSR_RM_RIP : Z := Z.shiftl 2 1.
Definition FPCSR_RM_RIN : Z := Z.shiftl 3 1.

(* l.nop constants *)
Definition NOP_NOP : Z := 0x0000.
Definition NOP_EXIT : Z := 0x0001.
Definition NOP_REPORT : Z := 0x0002.
Definition NOP_PUTC : Z := 0x0004.
Definition NOP_CNT_RESET : Z := 0x0005.
Definition NOP_GET_TICKS : Z := 0x0006.
Definition NOP_GET_PS : Z := 0x0007.
Definition NOP_TRACE_ON : Z := 0x0008.
Definition NOP_TRACE_OFF : Z := 0x0009.
Definition NOP_RANDOM : Z := 0x000a.
Definition NOP_OR1KSIM : Z := 0x000b.
Definition NOP_EXIT_SILENT : Z := 0x000c.

Definition MATCHPOINTS_TO_NDP (n : Z) : Z :=
  if 1 =? n then SPR_DCFGR_NDP1 else if 2 =? n then SPR_DCFGR_NDP2
  else if 3 =? n then SPR_DCFGR_NDP3 else if 4 =? n then SPR_DCFGR_NDP4
  else if 5 =? n then SPR_DCFGR_NDP5 else if 6 =? n then SPR_DCFGR_NDP6
  else if 7 =? n then SPR_DCFGR_NDP7 else SPR_DCFGR_NDP8.

(** ** cpu/or1k/except.h, cpu/or1k/arch.h *)

Definition EXCEPT_NONE : Z := 0x0000.
Definition EXCEPT_RESET : Z := 0x0100.
Definition EXCEPT_BUSERR : Z := 0x0200.
Definition EXCEPT_DPF : Z := 0x0300.
Definition EXCEPT_IPF : Z := 0x0400.
Definition EXCEPT_TICK : Z := 0x0500.
Definition EXCEPT_ALIGN : Z := 0x0600.
Definition EXCEPT_ILLEGAL : Z := 0x0700.
Definition EXCEPT_INT : Z := 0x0800.
Definition EXCEPT_DTLBMISS : Z := 0x0900.
Definition EXCEPT_ITLBMISS : Z := 0x0a00.
Definition EXCEPT_RANGE : Z := 0x0b00.
Definition EXCEPT_SYSCALL : Z := 0x0c00.
Definition EXCEPT_FPE : Z := 0x0d00.
Definition EXCEPT_TRAP : Z := 0x0e00.

Definition LINK_REGNO : Z := 9.

(** ** Flags of the supervision register *)

(** A flag of [SR] is a single bit. *)
Lemma sr_bits :
  [SPR_SR_SM; SPR_SR_TEE; SPR_SR_IEE; SPR_SR_DCE; SPR_SR_ICE; SPR_SR_DME; SPR_SR_IME;
   SPR_SR_LEE; SPR_SR_CE; SPR_SR_F; SPR_SR_CY; SPR_SR_OV; SPR_SR_OVE; SPR_SR_DSX;
   SPR_SR_EPH; SPR_SR_FO; SPR_SR_SUMRA]
  = map (fun i => 2 ^ i) [0; 1; 2; 3; 4; 5; 6; 7; 8; 9; 10; 11; 12; 13; 14; 15; 16].
Proof. reflexivity. Qed.
