(* ===== verification/Sched.v ===== *)
(** * The job scheduler (support/sched.c)

    The queue holds each job with the number of cycles between it and the job
    before it.  [absq] gives every job its absolute time; the theorems relate
    the operations on the differences to insertion, removal and consumption on
    the absolute times. *)

From S2P Require Export Logic.

Module Sched.

Definition SCHED_HEAP_SIZE : nat := 128.
Definition SCHED_TIME_MAX : Z := 2 ^ 31 - 1.

(** The walk of [sched_add]: [pre] is the part of the queue up to [prev]. *)
Fixpoint sched_walk (job_time : Z) (pre cur : list sched_entry) (alltime : Z)
  : list sched_entry * list sched_entry * Z :=
  match cur with
  | [] => (pre, [], alltime)
  | e :: r =>
      if alltime <? job_time then
        sched_walk job_time (pre ++ [e]) r
          match r with e' :: _ => s32 (alltime + time e') | [] => alltime end
      else (pre, cur, alltime)
  end.

(** [cur->time -= new_job->time] where [cur] is the head of [l], and [+=]. *)
Definition head_plus (d : Z) (l : list sched_entry) : list sched_entry :=
  match l with
  | [] => []
  | e :: r => SchedEntry (s32 (time e + d)) (param e) (func e) :: r
  end.

Definition sched_add (job_func : job_fn) (job_param job_time : Z) : M unit :=
  q ← gets job_queue;
  match q with
  | [] => stop_with Null_deref
  | h :: _ =>
      let '(pre, cur, alltime) := sched_walk job_time [] q (time h) in
      fr ← gets free_jobs;
      match fr with
      | [] => stop_with Null_deref
      | _ :: fr' =>
          let curtime := match cur with e :: _ => time e | [] => 0 end in
          let new_time :=
            match pre with
            | [] => if 0 <=? job_time then job_time else curtime
            | _ => s32 (job_time - s32 (alltime - curtime))
            end in
          modify (set_queue (pre ++ SchedEntry new_time job_param job_func
                                 :: head_plus (- new_time) cur) fr')
      end
  end.

Definition sched_guard (dat : Z) : M unit :=
  q ← gets job_queue;
  match q with
  | _ :: _ => sched_add J_sched_guard dat SCHED_TIME_MAX
  | [] =>
      fr ← gets free_jobs;
      match fr with
      | [] => stop_with Null_deref
      | e :: fr' => modify (set_queue [SchedEntry SCHED_TIME_MAX (param e) J_sched_guard] fr')
      end
  end.

(** The loop pushes the queue's entries on the free list one by one. *)
Definition sched_reset : M unit :=
  modify (fun s => set_queue [] (rev (job_queue s) ++ free_jobs s) s);;
  sched_guard 0.

(** [heap]: the contents of the memory the [SCHED_HEAP_SIZE] calls of [malloc]
    return, which [sched_init] leaves uninitialised. *)
Definition sched_init (heap : list sched_entry) : M unit :=
  modify (set_queue [] (rev heap));;
  sched_guard 0.

(** [do_scheduler], with the call through [tmp->func] as [run_job]; the
    do-while loop runs at most [fuel] times. *)
Fixpoint do_scheduler (fuel : nat) (run_job : job_fn -> Z -> M unit) : M unit :=
  match fuel with
  | O => stop_with Out_of_fuel
  | S fuel' =>
      q ← gets job_queue;
      fr ← gets free_jobs;
      match q with
      | [] => stop_with Null_deref
      | tmp :: q' =>
          modify (set_queue (head_plus (time tmp) q') (tmp :: fr));;
          match q' with
          | [] => stop_with Null_deref
          | _ :: _ =>
              run_job (func tmp) (param tmp);;
              q'' ← gets job_queue;
              match q'' with
              | [] => stop_with Null_deref
              | h :: _ => if time h <=? 0 then do_scheduler fuel' run_job else ret tt
              end
          end
      end
  end.

(** The end of a turn of [exec_main]'s loop: [elapsed] cycles pass, and the jobs
    that are due run. *)
Definition elapse (run_job : job_fn -> Z -> M unit) (fuel : nat) (elapsed : Z) : M unit :=
  q ← gets job_queue; fr ← gets free_jobs;
  match q with
  | [] => stop_with Null_deref
  | h :: _ =>
      modify (set_queue (head_plus (- elapsed) q) fr);;
      if s32 (time h - elapsed) <=? 0 then do_scheduler fuel run_job else ret tt
  end.

Definition job_is (job_func : job_fn) (dat : Z) (e : sched_entry) : bool :=
  bool_decide (func e = job_func) && (param e =? dat).

(** The first matching entry, what precedes it and what follows it. *)
Fixpoint find_job (job_func : job_fn) (dat : Z) (pre q : list sched_entry)
  : option (list sched_entry * sched_entry * list sched_entry) :=
  match q with
  | [] => None
  | e :: r => if job_is job_func dat e then Some (pre, e, r)
              else find_job job_func dat (pre ++ [e]) r
  end.

Definition sched_find_remove (job_func : job_fn) (dat : Z) : M unit :=
  q ← gets job_queue;
  fr ← gets free_jobs;
  match find_job job_func dat [] q with
  | None => ret tt
  | Some (pre, e, r) => modify (set_queue (pre ++ head_plus (time e) r) (e :: fr))
  end.

Fixpoint next_insn_cycles (cycles : Z) (q : list sched_entry) : Z :=
  match q with
  | [] => cycles
  | e :: r => if time e <? 0 then next_insn_cycles (s32 (cycles - time e)) r else cycles
  end.

Definition sched_next_insn (job_func : job_fn) (dat : Z) : M unit :=
  q ← gets job_queue;
  sched_add job_func dat (next_insn_cycles 1 q).

#[export] Hint Opaque sched_add sched_find_remove sched_next_insn
  : typeclass_instances.
#[export] Instance sched_add_typed R `{!Writes plain R} f d t : Respects R (sched_add f d t).
Proof. unfold sched_add. respects. Qed.
#[export] Instance sched_find_remove_typed R `{!Writes plain R} f d : Respects R (sched_find_remove f d).
Proof. unfold sched_find_remove. respects. Qed.
#[export] Instance sched_next_insn_typed R `{!Writes plain R} f d : Respects R (sched_next_insn f d).
Proof. unfold sched_next_insn. respects. Qed.
#[export] Instance sched_add_frame W f d t : Respects (frame W) (sched_add f d t).
Proof. unfold sched_add. respects. Qed.
#[export] Instance sched_find_remove_frame W f d : Respects (frame W) (sched_find_remove f d).
Proof. unfold sched_find_remove. respects. Qed.

(** ** Absolute times *)

(** A job with its absolute time. *)
Definition ajob : Type := Z * Z * job_fn.
Definition at_time (j : ajob) : Z := j.1.1.

Fixpoint absq (base : Z) (q : list sched_entry) : list ajob :=
  match q with
  | [] => []
  | e :: r => (base + time e, param e, func e) :: absq (base + time e) r
  end.

(** Insertion before the first job that is not due earlier. *)
Fixpoint insert_at (j : ajob) (l : list ajob) : list ajob :=
  match l with
  | [] => [j]
  | k :: r => if at_time k <? at_time j then k :: insert_at j r else j :: l
  end.

(** Removal of the first job with the given function and argument. *)
Fixpoint remove_first (f : job_fn) (d : Z) (l : list ajob) : list ajob :=
  match l with
  | [] => []
  | k :: r => if bool_decide (k.2 = f) && (k.1.2 =? d) then r else k :: remove_first f d r
  end.

(** The jobs due now at the front of a list, and what follows them. *)
Fixpoint span_due (l : list ajob) : list ajob * list ajob :=
  match l with
  | [] => ([], [])
  | j :: r => if at_time j <=? 0 then let '(d, n) := span_due r in (j :: d, n) else ([], l)
  end.

(** Sum of the differences of a queue. *)
Definition total (q : list sched_entry) : Z := foldr (fun e n => time e + n) 0 q.

(** No time, relative or absolute, leaves [int32_t], and only the first job
    can be overdue. *)
Definition queue_ok (q : list sched_entry) : Prop :=
  q <> [] /\
  Forall (fun e => inty I32 (time e)) q /\
  Forall (fun j => inty I32 (at_time j)) (absq 0 q) /\
  Forall (fun e => 0 <= time e) (tail q).

(** The time [sched_add] gives a job: the one asked for, except that a negative
    one that is not later than the first job becomes the first job's. *)
Definition added_time (job_time : Z) (q : list sched_entry) : Z :=
  match q with
  | h :: _ => if time h <? job_time then job_time
              else if 0 <=? job_time then job_time else time h
  | [] => job_time
  end.

(** ** Lemmas on absolute times *)

Lemma absq_app b p c : absq b (p ++ c) = absq b p ++ absq (b + total p) c.
Proof.
  revert b. induction p as [|e p IH]; intros b; cbn.
  - f_equal; lia.
  - rewrite IH. do 3 f_equal. unfold total; cbn. lia.
Qed.

Lemma absq_head_plus b d q :
  (forall e r, q = e :: r -> inty I32 (time e + d)) ->
  absq b (head_plus d q) = absq (b + d) q.
Proof.
  destruct q as [|e r]; intros Hd; [reflexivity|]. cbn.
  rewrite wrap_small by (eapply Hd; reflexivity).
  replace (b + (time e + d)) with (b + d + time e) by lia. reflexivity.
Qed.

Lemma insert_at_app j p c :
  Forall (fun k => at_time k < at_time j) p ->
  (forall k r, c = k :: r -> at_time j <= at_time k) ->
  insert_at j (p ++ c) = p ++ j :: c.
Proof.
  intros Hp Hc. induction Hp as [|k p Hk Hp IH]; cbn.
  - destruct c as [|k r]; [reflexivity|]. cbn.
    destruct (Z.ltb_spec (at_time k) (at_time j)); [|reflexivity].
    specialize (Hc k r eq_refl). lia.
  - destruct (Z.ltb_spec (at_time k) (at_time j)); [|lia]. by rewrite IH.
Qed.

(** What the walk of [sched_add] finds: it splits the queue where the absolute
    time reaches [job_time]. *)
Lemma sched_walk_split t cur : forall pre b alltime,
  Forall (fun j => inty I32 (at_time j)) (absq b cur) ->
  (forall e r, cur = e :: r -> alltime = b + time e) ->
  (cur = [] -> alltime = b) ->
  exists p c a,
    sched_walk t pre cur alltime = (pre ++ p, c, a) /\ cur = p ++ c /\
    Forall (fun j => at_time j < t) (absq b p) /\
    (forall e r, c = e :: r -> a = b + total p + time e /\ t <= a) /\
    (c = [] -> a = b + total p).
Proof.
  induction cur as [|e r IH]; intros pre b alltime Hr Ha H0.
  - exists [], [], alltime. rewrite app_nil_r. cbn. unfold total; cbn.
    split_and!; first [done | by constructor | intros; rewrite H0 by done; lia].
  - cbn. apply Forall_cons_1 in Hr as [He Hr]. cbn in He.
    pose proof (Ha e r eq_refl) as ->.
    destruct (Z.ltb_spec (b + time e) t) as [Hlt|Hge].
    + destruct (IH (pre ++ [e]) (b + time e)
        (match r with e' :: _ => s32 (b + time e + time e') | [] => b + time e end))
        as (p & c & a & Hw & -> & Hp & Hc & Hn); auto.
      * intros e' r' ->. apply Forall_cons_1 in Hr as [He' _]. cbn in He'.
        by rewrite wrap_small.
      * intros ->. reflexivity.
      * exists (e :: p), c, a. rewrite Hw, <- app_assoc. cbn. unfold total in *; cbn.
        split_and!; auto.
        -- intros e' r' Hc'. specialize (Hc e' r' Hc'). lia.
        -- intros Hc'. specialize (Hn Hc'). lia.
    + exists [], (e :: r), (b + time e). rewrite app_nil_r. unfold total; cbn.
      split_and!; first [done | by constructor | intros ? ? [= <- <-]; lia].
Qed.

Lemma Forall_insert_at (P : ajob -> Prop) j l :
  P j -> Forall P l -> Forall P (insert_at j l).
Proof.
  intros Hj Hl. induction Hl as [|k l Hk Hl IH]; cbn; [auto|].
  destruct (_ <? _); auto.
Qed.

Lemma total_app p c : total (p ++ c) = total p + total c.
Proof. induction p as [|e p IH]; [reflexivity|]. cbn in *. unfold total in *; cbn. lia. Qed.

Lemma total_nonneg p : Forall (fun e => 0 <= time e) p -> 0 <= total p.
Proof. induction 1; unfold total in *; cbn in *; lia. Qed.

Lemma Forall_head_plus (P : sched_entry -> Prop) d q :
  (forall e r, q = e :: r -> P (SchedEntry (s32 (time e + d)) (param e) (func e))) ->
  Forall P (tail q) -> Forall P (head_plus d q).
Proof. destruct q; cbn; [constructor|]. intros H1 H2. constructor; eauto. Qed.

(** The last absolute time of a non-empty prefix. *)
Lemma absq_total p b P :
  p <> [] -> Forall (fun j => P (at_time j)) (absq b p) -> P (b + total p).
Proof.
  revert b. induction p as [|e p IH]; intros b Hp HF; [congruence|].
  cbn in HF. apply Forall_cons_1 in HF as [He HF]. unfold total in *; cbn in *.
  destruct p as [|e' p]; [cbn; by rewrite Z.add_0_r|].
  rewrite Z.add_assoc. apply IH; [discriminate | exact HF].
Qed.

(** Insertion into the differences, given where the walk stopped. *)
Lemma splice_ok p c t jp jf S :
  queue_ok (p ++ c) -> S = total p -> inty I32 t ->
  (p <> [] -> S < t /\ t - S <= SCHED_TIME_MAX) ->
  (forall e r, c = e :: r -> 0 <= S + time e - t <= SCHED_TIME_MAX) ->
  Forall (fun j => at_time j < t) (absq 0 p) ->
  let q' := p ++ SchedEntry (t - S) jp jf :: head_plus (- (t - S)) c in
  absq 0 q' = insert_at (t, jp, jf) (absq 0 (p ++ c)) /\ queue_ok q'.
Proof.
  intros (Hne & Ht & Ha & Htl) -> Hit Hp Hc Hlt q'.
  assert (Hd : forall e r, c = e :: r -> inty I32 (time e + - (t - total p))).
  { intros e r ->. specialize (Hc e r eq_refl). unfold SCHED_TIME_MAX in Hc.
    apply inty_I32. lia. }
  assert (Hn : inty I32 (t - total p)).
  { destruct p as [|e p']; [unfold total; cbn; rewrite Z.sub_0_r; auto|].
    apply inty_I32. unfold SCHED_TIME_MAX in Hp. specialize (Hp ltac:(discriminate)). lia. }
  assert (HA : absq 0 q' = insert_at (t, jp, jf) (absq 0 (p ++ c))).
  { unfold q'. rewrite !absq_app. cbn [absq time param func].
    rewrite absq_head_plus by (intros; eauto).
    rewrite insert_at_app; [|exact Hlt|].
    - replace (0 + total p + (t - total p)) with t by lia.
      by replace (t + - (t - total p)) with (0 + total p) by lia.
    - intros k r Hk. destruct c as [|e c']; [discriminate|].
      injection Hk as <- _. cbn. specialize (Hc e c' eq_refl). lia. }
  split; [exact HA|]. split; [unfold q'; by destruct p|]. split; [|split].
  - unfold q'. apply Forall_app in Ht as [Htp Htc]. apply Forall_app_2; [exact Htp|].
    constructor; [exact Hn|]. apply Forall_head_plus; [intros; apply wrap_inty|].
    destruct Htc; [constructor|assumption].
  - rewrite HA. apply Forall_insert_at; assumption.
  - assert (HH : Forall (fun e => 0 <= time e) (head_plus (- (t - total p)) c)).
    { apply Forall_head_plus.
      - intros e r E. cbn. rewrite wrap_small by eauto. specialize (Hc e r E). lia.
      - destruct p as [|e p']; [exact Htl|]. cbn in Htl. apply Forall_app in Htl as [_ Htl].
        destruct Htl; [constructor|assumption]. }
    unfold q'. destruct p as [|e p']; [exact HH|]. cbn [tail app] in Htl |- *.
    apply Forall_app in Htl as [Htl _]. apply Forall_app_2; [exact Htl|].
    constructor; [|exact HH]. cbn [time]. specialize (Hp ltac:(discriminate)). lia.
Qed.

(** [sched_add] on the absolute times. *)
Lemma sched_add_run s h r f d t e fr :
  job_queue s = h :: r -> free_jobs s = e :: fr -> queue_ok (h :: r) -> inty I32 t ->
  t - time h <= SCHED_TIME_MAX ->
  exists q', sched_add f d t s = Ok tt (set_queue q' fr s) /\
    absq 0 q' = insert_at (added_time t (h :: r), d, f) (absq 0 (h :: r)) /\ queue_ok q'.
Proof.
  intros Hq Hf Hok Ht Hov. pose proof Hok as (Hne & Hti & Hab & Htl).
  destruct (sched_walk_split t (h :: r) [] 0 (time h)) as (p & c & a & Hw & Hsp & Hp & Hc & Hn);
    [exact Hab | intros ? ? [= <- <-]; lia | discriminate |].
  unfold sched_add, gets, modify, bind. cbn beta iota. rewrite Hq, Hw.
  cbn beta iota. rewrite Hf. cbn beta iota. cbn [app].
  destruct p as [|h' p'].
  - (* before the first job *)
    cbn in Hsp. subst c. destruct (Hc h r eq_refl) as [-> Hge].
    unfold total in Hge; cbn in Hge. cbn [added_time].
    destruct (Z.ltb_spec (time h) t) as [?|_]; [lia|].
    apply Forall_cons_1 in Hti as [Hh _].
    set (T := if 0 <=? t then t else time h).
    assert (HT : inty I32 T) by (unfold T; destruct (0 <=? t); assumption).
    destruct (splice_ok [] (h :: r) T d f 0) as [HA HB]; [done|done|exact HT|congruence| |constructor|].
    + intros ? ? [= <- <-]. apply inty_I32 in Hh. unfold SCHED_TIME_MAX, T.
      destruct (Z.leb_spec 0 t); lia.
    + rewrite Z.sub_0_r in HA, HB. eexists; split; [reflexivity|]. split; [exact HA | exact HB].
  - (* after [prev] *)
    assert (Hh : time h <= total (h' :: p') < t).
    { injection Hsp as <- Hr. rewrite Hr in Htl. cbn [tail] in Htl.
      apply Forall_app in Htl as [Htl _]. apply total_nonneg in Htl.
      split; [unfold total in *; cbn in *; lia|].
      apply (absq_total (h :: p') 0 (fun z => z < t)); [discriminate | exact Hp]. }
    assert (HS : inty I32 (total (h' :: p'))).
    { rewrite Hsp, absq_app in Hab. apply Forall_app in Hab as [Hab _].
      apply (absq_total (h' :: p') 0 (inty I32)); [discriminate | exact Hab]. }
    replace (s32 (a - match c with [] => 0 | e :: _ => time e end)) with (total (h' :: p')).
    2:{ symmetry. destruct c as [|e' c'].
        - rewrite Hn by reflexivity. rewrite wrap_small; rewrite ?Z.sub_0_r; [lia | exact HS].
        - destruct (Hc e' c' eq_refl) as [-> _]. rewrite wrap_small; [lia|].
          by replace (0 + total (h' :: p') + time e' - time e') with (total (h' :: p')) by lia. }
    rewrite (wrap_small I32 (t - _)) by (apply inty_I32; unfold SCHED_TIME_MAX in Hov; lia).
    destruct (splice_ok (h' :: p') c t d f _ ltac:(by rewrite <- Hsp) eq_refl Ht) as [HA HB].
    + intros _. split; lia.
    + intros e' c' Ec. destruct (Hc e' c' Ec) as [Ha2 Hge]. split; [lia|].
      rewrite Hsp, Ec in Hti. apply Forall_app in Hti as [_ Hti].
      apply Forall_cons_1 in Hti as [He' _]. apply inty_I32 in He'. unfold SCHED_TIME_MAX. lia.
    + exact Hp.
    + eexists; split; [reflexivity|]. rewrite Hsp at 2. cbn [added_time].
      destruct (Z.ltb_spec (time h) t) as [_|?]; [|lia]. split; [exact HA | exact HB].
Qed.

Lemma find_job_split f d q : forall pre,
  match find_job f d pre q with
  | None => Forall (fun e => job_is f d e = false) q
  | Some (p, e, r) => exists p', p = pre ++ p' /\ q = p' ++ e :: r /\
      Forall (fun e => job_is f d e = false) p' /\ job_is f d e = true
  end.
Proof.
  induction q as [|e q IH]; intros pre; cbn; [constructor|].
  destruct (job_is f d e) eqn:Ej.
  - exists []. rewrite app_nil_r. by auto.
  - specialize (IH (pre ++ [e])). destruct (find_job _ _ _ _) as [[[p e'] r]|].
    + destruct IH as (p' & -> & -> & Hp & He). exists (e :: p').
      rewrite <- app_assoc. auto.
    + by constructor.
Qed.

Lemma remove_first_miss f d q b rest :
  Forall (fun e => job_is f d e = false) q ->
  remove_first f d (absq b q ++ rest) = absq b q ++ remove_first f d rest.
Proof.
  intros H. revert b. induction H as [|e q He H IH]; intros b; [reflexivity|].
  cbn. unfold job_is in He. rewrite He. by rewrite IH.
Qed.

(** The absolute times of a queue do not lie more than [SCHED_TIME_MAX] behind
    the first one. *)
Definition spread_ok (q : list sched_entry) : Prop :=
  forall h r, q = h :: r -> Forall (fun j => at_time j - time h <= SCHED_TIME_MAX) (absq 0 q).

(** Removing an entry leaves a representable difference behind. *)
Lemma merged_time p e e' r :
  queue_ok (p ++ e :: e' :: r) -> spread_ok (p ++ e :: e' :: r) ->
  inty I32 (time e' + time e).
Proof.
  intros (_ & _ & Hab & Htl) Hsp. rewrite absq_app in Hab.
  apply Forall_app in Hab as [Hp Hab]. cbn in Hab.
  apply Forall_cons_1 in Hab as [_ Hab]. apply Forall_cons_1 in Hab as [He' _]. cbn in He'.
  apply inty_I32 in He'. apply inty_I32.
  destruct p as [|h p']; [unfold total in *; cbn in *; lia|].
  specialize (Hsp h _ eq_refl). rewrite absq_app in Hsp.
  apply Forall_app in Hsp as [_ Hsp]. cbn [absq] in Hsp.
  apply Forall_cons_1 in Hsp as [_ Hsp]. apply Forall_cons_1 in Hsp as [Hs _].
  cbn [tail app] in Htl. apply Forall_app in Htl as [Hp' Htl].
  apply Forall_cons_1 in Htl as [Hte Htl]. apply Forall_cons_1 in Htl as [Hte' _].
  apply total_nonneg in Hp'. unfold SCHED_TIME_MAX, total, at_time in *; cbn in *. lia.
Qed.

(** [sched_find_remove] on the absolute times. *)
Lemma sched_find_remove_run s f d :
  queue_ok (job_queue s) -> spread_ok (job_queue s) ->
  exists q' fr', sched_find_remove f d s = Ok tt (set_queue q' fr' s) /\
    absq 0 q' = remove_first f d (absq 0 (job_queue s)) /\
    (length q' + length fr' = length (job_queue s) + length (free_jobs s))%nat.
Proof.
  intros Hok Hsp. unfold sched_find_remove, gets, modify, bind.
  pose proof (find_job_split f d (job_queue s) []) as Hf.
  destruct (find_job f d [] (job_queue s)) as [[[p e] r]|].
  - destruct Hf as (p' & -> & Eq & Hp & He). cbn [app]. rewrite Eq in *.
    eexists _, _. split; [reflexivity|]. split.
    + rewrite !absq_app, remove_first_miss by exact Hp. cbn.
      unfold job_is in He. rewrite He. f_equal. apply absq_head_plus.
      intros e' r' ->. by eapply merged_time.
    + rewrite !length_app. cbn. destruct r; cbn; lia.
  - exists (job_queue s), (free_jobs s). split; [by destruct s|]. split; [|lia].
    pose proof (remove_first_miss f d (job_queue s) 0 [] Hf) as H.
    by rewrite !app_nil_r in H.
Qed.

(** *** The invariant of a running simulation *)

(** The queue is representable, contains the guard, no job lies more than
    [SCHED_TIME_MAX] behind the first and the first is not overdue by more than
    [2^30] cycles. *)
Definition abs_good (l : list ajob) : Prop :=
  List.Exists (fun j => j.2 = J_sched_guard) l /\
  forall j r, l = j :: r ->
    - 2 ^ 30 <= at_time j /\ Forall (fun k => at_time k - at_time j <= SCHED_TIME_MAX) l.
Definition queue_good (q : list sched_entry) : Prop := queue_ok q /\ abs_good (absq 0 q).

Lemma queue_good_spread q : queue_good q -> spread_ok q.
Proof.
  intros [_ [_ Hg]] h r ->. cbn in Hg. destruct (Hg _ _ eq_refl) as [_ H].
  cbn in H. rewrite Z.add_0_l in *. exact H.
Qed.

Lemma Exists_insert_at (P : ajob -> Prop) j l : List.Exists P l -> List.Exists P (insert_at j l).
Proof.
  induction 1 as [k l Hk|k l Hl IH]; cbn; destruct (_ <? _); auto using List.Exists_cons_hd, List.Exists_cons_tl.
Qed.

Lemma insert_at_good j l :
  abs_good l -> 0 <= at_time j < 2 ^ 30 ->
  Forall (fun k => at_time k <= SCHED_TIME_MAX) l -> abs_good (insert_at j l).
Proof.
  intros [He Hg] Hj Hm. split; [by apply Exists_insert_at|].
  destruct l as [|k l]; [by inversion He|]. destruct (Hg k l eq_refl) as [Hk Hs].
  unfold SCHED_TIME_MAX in *. cbn. destruct (Z.ltb_spec (at_time k) (at_time j)) as [Hlt|Hge].
  - intros k' r [= <- <-]. split; [exact Hk|]. constructor; [lia|].
    apply Forall_insert_at; [lia|]. by apply Forall_cons_1 in Hs as [_ Hs].
  - intros k' r [= <- <-]. split; [lia|]. constructor; [lia|].
    eapply Forall_impl; [|exact Hm]. cbn. lia.
Qed.

Lemma remove_first_Forall P f d l : Forall P l -> Forall P (remove_first f d l).
Proof. induction 1; cbn; [constructor|]. destruct (_ && _); auto. Qed.

Lemma remove_first_good f d l :
  f <> J_sched_guard -> (forall k1 k2 r, l = k1 :: k2 :: r -> at_time k1 <= at_time k2) ->
  abs_good l -> abs_good (remove_first f d l).
Proof.
  intros Hf Hmono [He Hg]. split.
  - clear Hg Hmono. induction He as [k l Hk|k l Hl IH]; cbn.
    + destruct (bool_decide_reflect (k.2 = f)); [congruence|]. by apply List.Exists_cons_hd.
    + destruct (_ && _); auto using List.Exists_cons_tl.
  - destruct l as [|k l]; [by inversion He|]. destruct (Hg k l eq_refl) as [Hk Hs].
    cbn. destruct (_ && _).
    + intros k' r ->. specialize (Hmono _ _ _ eq_refl). split; [lia|].
      apply Forall_cons_1 in Hs as [_ Hs]. eapply Forall_impl; [|exact Hs]. cbn. lia.
    + intros k' r [= <- <-]. split; [exact Hk|]. apply Forall_cons_1 in Hs as [Hk' Hs].
      constructor; [exact Hk'|]. by apply remove_first_Forall.
Qed.

(** [sched_add] of a job less than [2^30] cycles ahead keeps the invariant. *)
Lemma sched_add_good s f d t e fr :
  queue_good (job_queue s) -> free_jobs s = e :: fr -> 0 <= t < 2 ^ 30 ->
  exists q', sched_add f d t s = Ok tt (set_queue q' fr s) /\
    absq 0 q' = insert_at (t, d, f) (absq 0 (job_queue s)) /\ queue_good q'.
Proof.
  intros [Hok Hg] Hf Ht. destruct (job_queue s) as [|h r] eqn:Hq; [by destruct Hok|].
  pose proof Hg as [_ Hg']. destruct (Hg' _ _ eq_refl) as [Hh _]. cbn in Hh.
  destruct (sched_add_run s h r f d t e fr) as (q' & H1 & H2 & H3); auto;
    [apply inty_I32; lia | unfold SCHED_TIME_MAX; lia |].
  assert (E : added_time t (h :: r) = t).
  { cbn. destruct (time h <? t); [reflexivity|]. by rewrite (proj2 (Z.leb_le 0 t)) by lia. }
  rewrite E in H2. exists q'. split; [exact H1|]. split; [exact H2|]. split; [exact H3|].
  rewrite H2. apply insert_at_good; [exact Hg | cbn; lia |].
  destruct Hok as (_ & _ & Hab & _). eapply Forall_impl; [|exact Hab].
  cbn. intros j Hj. apply inty_I32 in Hj. unfold SCHED_TIME_MAX. lia.
Qed.

(** [sched_find_remove] of a job that is not the guard keeps the invariant. *)
Lemma sched_find_remove_good s f d :
  queue_good (job_queue s) -> f <> J_sched_guard ->
  exists q' fr', sched_find_remove f d s = Ok tt (set_queue q' fr' s) /\
    absq 0 q' = remove_first f d (absq 0 (job_queue s)) /\ queue_good q' /\
    (length (free_jobs s) <= length fr')%nat.
Proof.
  intros Hgood Hf. pose proof (queue_good_spread _ Hgood) as Hsp. destruct Hgood as [Hok Hg].
  unfold sched_find_remove, gets, modify, bind.
  pose proof (find_job_split f d (job_queue s) []) as Hj.
  destruct (find_job f d [] (job_queue s)) as [[[p e] r]|].
  - destruct Hj as (p' & -> & Eq & Hp & He). cbn [app]. rewrite Eq in *.
    pose proof (merged_time p' e) as Hm. pose proof Hok as (Hne & Ht & Hab & Htl).
    assert (HA : absq 0 (p' ++ head_plus (time e) r) = remove_first f d (absq 0 (p' ++ e :: r))).
    { rewrite !absq_app, remove_first_miss by exact Hp. cbn. unfold job_is in He. rewrite He.
      f_equal. apply absq_head_plus. intros e' r' ->. by eapply Hm. }
    assert (HG : abs_good (absq 0 (p' ++ head_plus (time e) r))).
    { rewrite HA. apply remove_first_good; [exact Hf | | exact Hg].
      intros k1 k2 l E. destruct (p' ++ e :: r) as [|e1 [|e2 q]] eqn:E12; try discriminate.
      cbn in E, Htl. injection E as <- <- _. apply Forall_cons_1 in Htl as [H2 _]. cbn. lia. }
    eexists _, _. split; [reflexivity|]. split; [exact HA|]. split; [|cbn; lia]. split; [|exact HG].
    split; [|split; [|split]].
    + destruct HG as [HE _]. intros E. rewrite E in HE. inversion HE.
    + apply Forall_app in Ht as [Htp Htr]. apply Forall_cons_1 in Htr as [_ Htr].
      apply Forall_app_2; [exact Htp|]. apply Forall_head_plus; [intros; apply wrap_inty|].
      destruct Htr; [constructor|assumption].
    + rewrite HA. by apply remove_first_Forall.
    + assert (HH : p' <> [] -> Forall (fun e => 0 <= time e) (head_plus (time e) r)).
      { intros Hp'. destruct p' as [|h p'']; [done|]. cbn in Htl. apply Forall_app in Htl as [_ Htl].
        apply Forall_cons_1 in Htl as [Hte Htl]. apply Forall_head_plus; [|destruct Htl; [constructor|assumption]].
        intros e' r' ->. cbn. rewrite wrap_small by (eapply Hm; [exact Hok | exact Hsp]).
        apply Forall_cons_1 in Htl as [? _]. lia. }
      destruct p' as [|h p'']; cbn in Htl |- *.
      * destruct r as [|e' r]; cbn in *; [constructor|]. by apply Forall_cons_1 in Htl as [_ Htl].
      * apply Forall_app in Htl as [Htl _]. apply Forall_app_2; [exact Htl|]. by apply HH.
  - exists (job_queue s), (free_jobs s). split; [by destruct s|].
    pose proof (remove_first_miss f d (job_queue s) 0 [] Hj) as H. rewrite !app_nil_r in H.
    by rewrite H.
Qed.

(** [sched_at s l n s']: [s'] is [s] with the jobs [l] on the queue and at least
    [n] free entries. *)
Definition sched_at (s : Sim) (l : list ajob) (n : nat) (s' : Sim) : Prop :=
  exists q fr, s' = set_queue q fr s /\ queue_good q /\ absq 0 q = l /\ (n <= length fr)%nat.

Lemma sched_at_refl s n :
  queue_good (job_queue s) -> (n <= length (free_jobs s))%nat ->
  sched_at s (absq 0 (job_queue s)) n s.
Proof. intros. exists (job_queue s), (free_jobs s). split; [by destruct s | auto]. Qed.

Lemma sched_at_cell s l n s' c : sched_at s l n s' -> s' c = s c.
Proof. intros (q & fr & -> & _). reflexivity. Qed.

Lemma wp_find_remove s l n s' f d :
  sched_at s l n s' -> f <> J_sched_guard ->
  wp (sched_find_remove f d) (fun _ => sched_at s (remove_first f d l) n) s'.
Proof.
  intros (q & fr & -> & Hg & <- & Hn) Hf.
  destruct (sched_find_remove_good (set_queue q fr s) f d Hg Hf) as (q' & fr' & E & Ha & Hg' & Hl).
  eapply wpx_eq; [exact E|]. exists q', fr'. split_and!; try done. cbn in Hl. lia.
Qed.

Lemma wp_add s l n s' f d t :
  sched_at s l (S n) s' -> 0 <= t < 2 ^ 30 ->
  wp (sched_add f d t) (fun _ => sched_at s (insert_at (t, d, f) l) n) s'.
Proof.
  intros (q & fr & -> & Hg & <- & Hn) Ht. destruct fr as [|e fr]; [cbn in Hn; lia|].
  destruct (sched_add_good (set_queue q (e :: fr) s) f d t e fr Hg eq_refl Ht) as (q' & E & Ha & Hg').
  eapply wpx_eq; [exact E|]. exists q', fr. split_and!; try done. cbn in Hn. lia.
Qed.

Lemma sched_at_weaken s l n m s' : (m <= n)%nat -> sched_at s l n s' -> sched_at s l m s'.
Proof. intros Hm (q & fr & H1 & H2 & H3 & Hn). exists q, fr. split_and!; try done. lia. Qed.

(** ** Taking the first job *)

(** What [do_scheduler] does with the queue before it calls the job. *)
Lemma pop_good h q :
  queue_good (h :: q) -> func h <> J_sched_guard ->
  queue_good (head_plus (time h) q) /\ absq 0 (head_plus (time h) q) = absq (time h) q.
Proof.
  intros [(_ & Ht & Hab & Htl) [He Hg]] Hf. destruct (Hg _ _ eq_refl) as [Hh Hs]. cbn [absq at_time fst] in *.
  destruct q as [|h2 q].
  { inversion He as [? ? Hc|? ? Hc]; subst; [done | inversion Hc]. }
  apply Forall_cons_1 in Ht as [_ Ht], Hab as [_ Hab], Hs as [_ Hs]. cbn [absq tail at_time fst] in *.
  pose proof (Forall_inv Hab) as H2. cbn in H2. apply Forall_cons_1 in Htl as [Hn Htl].
  apply Forall_cons_1 in Ht as [_ Ht]. rewrite Z.add_0_l in *.
  assert (HA : absq 0 (head_plus (time h) (h2 :: q)) = absq (time h) (h2 :: q)).
  { apply absq_head_plus. intros e r [= <- <-]. by rewrite Z.add_comm. }
  split; [|done]. split; [|split]; rewrite ?HA; cbn [absq head_plus].
  - split; [done|]. split; [constructor; [apply wrap_inty | done]|]. split; [|done].
    change (Forall (fun j => inty I32 (at_time j)) (absq 0 (head_plus (time h) (h2 :: q)))). by rewrite HA.
  - inversion He as [? ? Hc|? ? Hc]; subst; done.
  - intros j r [= <- <-]. cbn [at_time fst]. split; [lia|]. eapply Forall_impl; [|exact Hs]. cbn. lia.
Qed.

(** The time that [sched_next_insn] asks for. *)
Lemma next_insn_cycles_run h r :
  queue_ok (h :: r) -> - 2 ^ 31 + 2 <= time h -> next_insn_cycles 1 (h :: r) = 1 + Z.max 0 (- time h).
Proof.
  intros (_ & Hti & _ & Htl) Hb. apply Forall_cons_1 in Hti as [Hh _]. apply inty_I32 in Hh.
  cbn. destruct (Z.ltb_spec (time h) 0); [|lia].
  rewrite s32_small by lia. destruct r as [|h' r]; cbn; [lia|].
  cbn in Htl. apply Forall_cons_1 in Htl as [H' _].
  destruct (Z.ltb_spec (time h') 0); lia.
Qed.

(** C6: [sched_add] inserts the job at its time, before the first job that is
    not due earlier and with every other job's time unchanged, keeps the queue
    representable and ordered, and takes one entry from the free list; with an
    empty queue or an empty free list it dereferences NULL. *)
Theorem sched_add_refines s f d t :
  inty I32 t ->
  match job_queue s, free_jobs s with
  | h :: r, _ :: fr =>
      queue_ok (h :: r) -> t - time h <= SCHED_TIME_MAX ->
      exists q', sched_add f d t s = Ok tt (set_queue q' fr s) /\
        absq 0 q' = insert_at (added_time t (h :: r), d, f) (absq 0 (h :: r)) /\ queue_ok q'
  | _, _ => sched_add f d t s = Stop Null_deref s
  end.
Proof.
  intros Ht. destruct (job_queue s) as [|h r] eqn:Hq; [|destruct (free_jobs s) as [|e fr] eqn:Hf].
  - unfold sched_add, gets, bind. by rewrite Hq.
  - unfold sched_add, gets, bind. rewrite Hq.
    destruct (sched_walk t [] (h :: r) (time h)) as [[p c] a]. by rewrite Hf.
  - intros. eapply sched_add_run; eauto.
Qed.

(** [sched_find_remove] removes the first job with the given function and
    argument and no other, and every remaining job keeps its absolute time. *)
Theorem sched_find_remove_refines s f d :
  queue_ok (job_queue s) -> spread_ok (job_queue s) ->
  exists q' fr', sched_find_remove f d s = Ok tt (set_queue q' fr' s) /\
    absq 0 q' = remove_first f d (absq 0 (job_queue s)) /\
    (length q' + length fr' = length (job_queue s) + length (free_jobs s))%nat.
Proof. apply sched_find_remove_run. Qed.

(** When the job that fires is the only one on the queue, [do_scheduler]
    dereferences NULL before it calls the job, whatever the job is: the guard
    cannot put itself back. *)
Theorem do_scheduler_last_job s fuel run_job e :
  job_queue s = [e] ->
  do_scheduler (S fuel) run_job s = Stop Null_deref (set_queue [] (e :: free_jobs s) s).
Proof.
  intros Hq. cbn [do_scheduler]. unfold gets, modify, bind. by rewrite Hq.
Qed.

(** A job scheduled by [sched_next_insn] becomes due after one cycle when no
    job is overdue; when the first job is overdue by [n] cycles, only after
    [1 + n]. *)
Theorem sched_next_insn_time s f d h r e fr :
  job_queue s = h :: r -> free_jobs s = e :: fr -> queue_ok (h :: r) ->
  1 - 2 * time h <= SCHED_TIME_MAX ->
  exists q', sched_next_insn f d s = Ok tt (set_queue q' fr s) /\
    absq 0 q' = insert_at (1 + Z.max 0 (- time h), d, f) (absq 0 (h :: r)) /\ queue_ok q'.
Proof.
  intros Hq Hf Hok Hb. pose proof Hok as (_ & Hti & _ & Htl).
  apply Forall_cons_1 in Hti as [Hh _]. apply inty_I32 in Hh.
  unfold sched_next_insn, gets, bind. cbn beta iota. rewrite Hq.
  assert (E : next_insn_cycles 1 (h :: r) = 1 + Z.max 0 (- time h)) by (unfold SCHED_TIME_MAX in Hb; apply next_insn_cycles_run; [done | lia]).
  rewrite E. unfold SCHED_TIME_MAX in Hb.
  destruct (sched_add_run s h r f d (1 + Z.max 0 (- time h)) e fr) as (q' & H1 & H2 & H3);
    auto; [apply inty_I32; lia | unfold SCHED_TIME_MAX; lia |].
  exists q'. split; [exact H1|]. split; [|exact H3]. rewrite H2. do 3 f_equal.
  cbn. destruct (Z.ltb_spec (time h) (1 + Z.max 0 (- time h))); [reflexivity|].
  destruct (Z.leb_spec 0 (1 + Z.max 0 (- time h))); lia.
Qed.

(** ** Witnesses *)

(** A queue with a timer job in 5 cycles, a device job 2 cycles after it and
    the guard; two free entries. *)
Definition ex_queue : list sched_entry :=
  [SchedEntry 5 0 J_tick_one_shot; SchedEntry 2 3 (J_device 0); SchedEntry 1000 0 J_sched_guard].
Definition ex_free : list sched_entry := [SchedEntry 0 0 J_sched_guard; SchedEntry 0 0 J_check_insn_exec].
Definition ex_sim : Sim := set_queue ex_queue ex_free zero_state.

Ltac queue_facts :=
  repeat first [ split | apply List.Forall_cons | apply List.Forall_nil
               | discriminate | (cbn; unfold inty, SCHED_TIME_MAX; cbn; lia) ].

Lemma ex_queue_ok : queue_ok ex_queue.
Proof. unfold queue_ok, ex_queue; cbn. queue_facts. Qed.
Lemma ex_queue_good : queue_good ex_queue.
Proof.
  split; [exact ex_queue_ok|]. split.
  - cbn. do 2 apply List.Exists_cons_tl. apply List.Exists_cons_hd. reflexivity.
  - intros j r [= <- <-]. split; [closed_Z|]. queue_facts.
Qed.

Lemma sched_add_refines_witness :
  exists q', sched_add J_pic_rep_int 9 6 ex_sim = Ok tt (set_queue q' [SchedEntry 0 0 J_check_insn_exec] ex_sim) /\
    absq 0 q' = insert_at (6, 9, J_pic_rep_int) (absq 0 ex_queue) /\ queue_ok q'.
Proof.
  apply (sched_add_refines ex_sim J_pic_rep_int 9 6).
  - unfold inty; cbn; lia.
  - exact ex_queue_ok.
  - unfold SCHED_TIME_MAX; cbn; lia.
Defined.

Lemma sched_find_remove_refines_witness :
  exists q' fr', sched_find_remove (J_device 0) 3 ex_sim = Ok tt (set_queue q' fr' ex_sim) /\
    absq 0 q' = remove_first (J_device 0) 3 (absq 0 ex_queue) /\
    (length q' + length fr' = 5)%nat.
Proof.
  apply (sched_find_remove_refines ex_sim (J_device 0) 3).
  - exact ex_queue_ok.
  - intros h r [= <- <-]. unfold SCHED_TIME_MAX. queue_facts.
Defined.

Lemma do_scheduler_last_job_witness :
  do_scheduler 1 (fun _ _ => sched_guard 0) (set_queue [SchedEntry 0 0 J_sched_guard] [] zero_state)
  = Stop Null_deref (set_queue [] [SchedEntry 0 0 J_sched_guard] zero_state).
Proof. apply (do_scheduler_last_job (set_queue [SchedEntry 0 0 J_sched_guard] [] zero_state)). reflexivity. Defined.

Lemma sched_next_insn_time_witness :
  exists q', sched_next_insn J_tick_raise_except 0 (set_queue (head_plus (-8) ex_queue) ex_free ex_sim)
    = Ok tt (set_queue q' [SchedEntry 0 0 J_check_insn_exec] (set_queue (head_plus (-8) ex_queue) ex_free ex_sim)) /\
    absq 0 q' = insert_at (4, 0, J_tick_raise_except) (absq (-8) ex_queue) /\ queue_ok q'.
Proof.
  apply (sched_next_insn_time (set_queue (head_plus (-8) ex_queue) ex_free ex_sim) J_tick_raise_except 0
    (SchedEntry (-3) 0 J_tick_one_shot) (tail ex_queue) (SchedEntry 0 0 J_sched_guard)).
  - reflexivity.
  - reflexivity.
  - unfold queue_ok, ex_queue; cbn. queue_facts.
  - unfold SCHED_TIME_MAX; cbn; lia.
Defined.

(** The queue [sched_init] builds is ready for use. *)
Lemma sched_init_ok heap s e heap' :
  rev heap = e :: heap' ->
  sched_init heap s = Ok tt (set_queue [SchedEntry SCHED_TIME_MAX (param e) J_sched_guard] heap' s) /\
  queue_ok [SchedEntry SCHED_TIME_MAX (param e) J_sched_guard].
Proof.
  intros E. unfold sched_init, sched_guard, gets, modify, bind. cbn. rewrite E. cbn.
  split; [reflexivity|]. unfold queue_ok; cbn. queue_facts.
Qed.

End Sched.
