(* ===== verification/Debug.v ===== *)
(** * The debug unit (debug/debug-unit.c)

    Stalling the processor, the exceptions the debug unit takes over, and the
    match- and watchpoints with their two counters. *)

From S2P Require Export Spr.

Module Debug.

(** ** Stall state and trapped exceptions *)

Definition RISCOP_STALL : Z := 0x00000001.
Definition RISCOP_RESET : Z := 0x00000002.
Definition DEVELOPINT_RISCOP : Z := 4.
Definition DEVELOPINT_MAX : Z := 27.

Definition set_stall_state (state : Z) : M unit :=
  clr (Development DEVELOPINT_RISCOP) RISCOP_STALL;;
  ors (Development DEVELOPINT_RISCOP) (if nz state then RISCOP_STALL else 0);;
  wr Stalled state;;
  stalled ← isset Stalled;
  when (negb stalled) (wr Npc_not_valid 0;; wr Halted 0).

Definition du_reset : M unit :=
  for_ 28 0 1 (fun i => wr (Development i) 0);;
  set_stall_state 0.

(** The signal numbers of debug/rsp-server.c. *)
Definition TARGET_SIGNAL_INT : Z := 2.
Definition TARGET_SIGNAL_ILL : Z := 4.
Definition TARGET_SIGNAL_TRAP : Z := 5.
Definition TARGET_SIGNAL_FPE : Z := 8.
Definition TARGET_SIGNAL_BUS : Z := 10.
Definition TARGET_SIGNAL_SEGV : Z := 11.
Definition TARGET_SIGNAL_ALRM : Z := 14.
Definition TARGET_SIGNAL_USR2 : Z := 31.
Definition TARGET_SIGNAL_PWR : Z := 32.

(** Its warnings (another signal pending, an unknown exception) are not modelled. *)
Definition rsp_exception (except : Z) : M unit :=
  switch except
    [ ([EXCEPT_RESET], wr Rsp_sigval TARGET_SIGNAL_PWR);
      ([EXCEPT_BUSERR], wr Rsp_sigval TARGET_SIGNAL_BUS);
      ([EXCEPT_DPF], wr Rsp_sigval TARGET_SIGNAL_SEGV);
      ([EXCEPT_IPF], wr Rsp_sigval TARGET_SIGNAL_SEGV);
      ([EXCEPT_TICK], wr Rsp_sigval TARGET_SIGNAL_ALRM);
      ([EXCEPT_ALIGN], wr Rsp_sigval TARGET_SIGNAL_BUS);
      ([EXCEPT_ILLEGAL], wr Rsp_sigval TARGET_SIGNAL_ILL);
      ([EXCEPT_INT], wr Rsp_sigval TARGET_SIGNAL_INT);
      ([EXCEPT_DTLBMISS], wr Rsp_sigval TARGET_SIGNAL_SEGV);
      ([EXCEPT_ITLBMISS], wr Rsp_sigval TARGET_SIGNAL_SEGV);
      ([EXCEPT_RANGE], wr Rsp_sigval TARGET_SIGNAL_FPE);
      ([EXCEPT_SYSCALL], wr Rsp_sigval TARGET_SIGNAL_USR2);
      ([EXCEPT_FPE], wr Rsp_sigval TARGET_SIGNAL_FPE);
      ([EXCEPT_TRAP], wr Rsp_sigval TARGET_SIGNAL_TRAP) ]
    (ret tt).

(** The part of [DSR] that [debug_ignore_exception] tests for an exception. *)
Definition dsr_mask (except : Z) : Z :=
  switch except
    [ ([EXCEPT_RESET], SPR_DSR_RSTE); ([EXCEPT_BUSERR], SPR_DSR_BUSEE);
      ([EXCEPT_DPF], SPR_DSR_DPFE); ([EXCEPT_IPF], SPR_DSR_IPFE);
      ([EXCEPT_TICK], SPR_DSR_TTE); ([EXCEPT_ALIGN], SPR_DSR_AE);
      ([EXCEPT_ILLEGAL], SPR_DSR_IIE); ([EXCEPT_INT], SPR_DSR_IE);
      ([EXCEPT_DTLBMISS], SPR_DSR_DME); ([EXCEPT_ITLBMISS], SPR_DSR_IME);
      ([EXCEPT_RANGE], SPR_DSR_RE); ([EXCEPT_SYSCALL], SPR_DSR_SCE);
      ([EXCEPT_TRAP], SPR_DSR_TE) ]
    0.

Definition debug_ignore_exception (except : Z) : M bool :=
  dsr ← rd (SPR SPR_DSR);
  let result := Z.land dsr (dsr_mask except) in
  ors (SPR SPR_DRR) result;;
  set_stall_state (b2z (nz result));;
  rsp ← isset Debug_rsp_enabled;
  when (rsp && nz result) (rsp_exception except);;
  ret (nz result).

(** ** Matchpoints and watchpoints *)

Inductive debug_unit_action :=
| DebugInstructionFetch | DebugLoadAddress | DebugStoreAddress | DebugLoadData | DebugStoreData.

#[export] Instance debug_unit_action_eq_dec : EqDecision debug_unit_action.
Proof. solve_decision. Defined.

(** Does the action fit the "compare to" field? *)
Definition match_action (dcr_ct : Z) (action : debug_unit_action) : bool :=
  switch dcr_ct
    [ ([SPR_DCR_CT_IFEA], bool_decide (DebugInstructionFetch = action));
      ([SPR_DCR_CT_LEA], bool_decide (DebugLoadAddress = action));
      ([SPR_DCR_CT_SEA], bool_decide (DebugStoreAddress = action));
      ([SPR_DCR_CT_LD], bool_decide (DebugLoadData = action));
      ([SPR_DCR_CT_SD], bool_decide (DebugStoreData = action));
      ([SPR_DCR_CT_LSEA], bool_decide (DebugLoadAddress = action)
                          || bool_decide (DebugStoreAddress = action));
      ([SPR_DCR_CT_LSD], bool_decide (DebugLoadData = action)
                         || bool_decide (DebugStoreData = action)) ]
    false.

(** The comparison, stored in an [unsigned char]. *)
Definition compare_cc (dcr_cc op1 op2 : Z) : Z :=
  switch dcr_cc
    [ ([SPR_DCR_CC_MASKED], u8 (Z.land op1 op2));
      ([SPR_DCR_CC_EQUAL], b2z (op1 =? op2));
      ([SPR_DCR_CC_NEQUAL], b2z (negb (op1 =? op2)));
      ([SPR_DCR_CC_LESS], b2z (op1 <? op2));
      ([SPR_DCR_CC_LESSE], b2z (op1 <=? op2));
      ([SPR_DCR_CC_GREAT], b2z (op2 <? op1));
      ([SPR_DCR_CC_GREATE], b2z (op2 <=? op1)) ]
    0.

(** [mp[i]]; [udata] is an [unsigned long] and [dvr] a 32-bit register, both
    converted to [long] for a signed comparison. *)
Definition matchpoint (dcr dvr : Z) (action : debug_unit_action) (udata : Z) : Z :=
  if negb (SPR_DCR_DP =? Z.land dcr SPR_DCR_DP) then 0
  else if negb (match_action (Z.land dcr SPR_DCR_CT) action) then 0
  else if SPR_DCR_SC =? Z.land dcr SPR_DCR_SC
  then compare_cc (Z.land dcr SPR_DCR_CC) (s64 udata) (s64 dvr)
  else compare_cc (Z.land dcr SPR_DCR_CC) udata dvr.

(** The four cases of a chaining field whose AND and OR bits are given. *)
Definition chain_wp (dmr1 cw_and cw_or own prev : Z) : Z :=
  let f := Z.land dmr1 (Z.lor cw_and cw_or) in
  if f =? 0 then own
  else if f =? cw_and then b2z (nz own && nz prev)
  else if f =? cw_or then b2z (nz own || nz prev)
  else 0.

(** [wp[0]] to [wp[7]]: only [wp[0]] has no predecessor. *)
Definition wp_first (dmr1 mp0 : Z) : Z := if Z.land dmr1 SPR_DMR1_CW0 =? 0 then mp0 else 0.

Fixpoint wp_rest (dmr1 prev : Z) (cws : list (Z * Z)) (mps : list Z) : list Z :=
  match cws, mps with
  | (a, o) :: cws, m :: mps =>
      let w := chain_wp dmr1 a o m prev in w :: wp_rest dmr1 w cws mps
  | _, _ => []
  end.

Definition watchpoints (dmr1 : Z) (mp : list Z) : list Z :=
  match mp with
  | [] => []
  | mp0 :: mps =>
      wp_first dmr1 mp0 ::
      wp_rest dmr1 (wp_first dmr1 mp0)
        [(SPR_DMR1_CW1_AND, SPR_DMR1_CW1_OR); (SPR_DMR1_CW2_AND, SPR_DMR1_CW2_OR);
         (SPR_DMR1_CW3_AND, SPR_DMR1_CW3_OR); (SPR_DMR1_CW4_AND, SPR_DMR1_CW4_OR);
         (SPR_DMR1_CW5_AND, SPR_DMR1_CW5_OR); (SPR_DMR1_CW6_AND, SPR_DMR1_CW6_OR);
         (SPR_DMR1_CW7_AND, SPR_DMR1_CW7_OR)] mps
  end.

(** The counting loop over [wp[i]], [wp[i + 1]], ...; the counters are [short]. *)
Fixpoint count_wps (dmr2 : Z) (en0 en1 : bool) (i : Z) (wps : list Z) (c : Z * Z) : Z * Z :=
  match wps with
  | [] => c
  | w :: wps =>
      let use_counter_0 := negb (Z.land (Z.shiftr dmr2 (SPR_DMR2_AWTC_OFF + i)) 1 =? 1) in
      let c' :=
        if use_counter_0
        then (if en0 && nz w then s16 (c.1 + 1) else c.1, c.2)
        else (c.1, if en1 && nz w then s16 (c.2 + 1) else c.2) in
      count_wps dmr2 en0 en1 (i + 1) wps c'
  end.

Definition update_counters (dmr2 : Z) (wps : list Z) : M unit :=
  let en0 := SPR_DMR2_WCE0 =? Z.land dmr2 SPR_DMR2_WCE0 in
  let en1 := SPR_DMR2_WCE1 =? Z.land dmr2 SPR_DMR2_WCE1 in
  when (en0 || en1)
    (dwcr0 ← rd (SPR SPR_DWCR0);
     dwcr1 ← rd (SPR SPR_DWCR1);
     let c := count_wps dmr2 en0 en1 0 wps
                (s16 (Z.land dwcr0 SPR_DWCR_COUNT), s16 (Z.land dwcr1 SPR_DWCR_COUNT)) in
     clr (SPR SPR_DWCR0) SPR_DWCR_COUNT;;
     ors (SPR SPR_DWCR0) c.1;;
     clr (SPR SPR_DWCR1) SPR_DWCR_COUNT;;
     ors (SPR SPR_DWCR1) c.2).

Definition counter_matched (dwcr : Z) : bool :=
  Z.land dwcr SPR_DWCR_COUNT =? Z.shiftr (Z.land dwcr SPR_DWCR_MATCH) SPR_DWCR_MATCH_OFF.

(** The last loop: [dmr2] with the status bits set, and whether one was. *)
Fixpoint break_wps (i : Z) (wps : list Z) (dmr2 : Z) (found : bool) : Z * bool :=
  match wps with
  | [] => (dmr2, found)
  | w :: wps =>
      if (1 =? Z.land (Z.shiftr dmr2 (SPR_DMR2_WGB_OFF + i)) 1) && nz w
      then break_wps (i + 1) wps (Z.lor dmr2 (u64 (s32 (Z.shiftl 1 (SPR_DMR2_WBS_OFF + i))))) true
      else break_wps (i + 1) wps dmr2 found
  end.

Fixpoint matchpoints (n : nat) (i : Z) (action : debug_unit_action) (udata : Z) (s : Sim) : list Z :=
  match n with
  | O => []
  | S n => matchpoint (s (SPR (SPR_DCR i))) (s (SPR (SPR_DVR i))) action udata
           :: matchpoints n (i + 1) action udata s
  end.

Definition calculate_watchpoints (action : debug_unit_action) (udata : Z) : M bool :=
  mp ← gets (matchpoints 8 0 action udata);
  if negb (existsb nz mp) then ret false
  else
    dmr1 ← rd (SPR SPR_DMR1);
    let wp07 := watchpoints dmr1 mp in
    dmr2 ← rd (SPR SPR_DMR2);
    update_counters dmr2 wp07;;
    dwcr0 ← rd (SPR SPR_DWCR0);
    dwcr1 ← rd (SPR SPR_DWCR1);
    let wp8 := chain_wp dmr1 SPR_DMR1_CW8_AND SPR_DMR1_CW8_OR
                 (b2z (counter_matched dwcr0)) (nth 7 wp07 0) in
    let wp9 := chain_wp dmr1 SPR_DMR1_CW9_AND SPR_DMR1_CW9_OR
                 (b2z (counter_matched dwcr1)) wp8 in
    let r := break_wps 0 (wp07 ++ [wp8; wp9]) dmr2 false in
    wr (SPR SPR_DMR2) r.1;;
    ret r.2.

Definition check_debug_unit (action : debug_unit_action) (udata : Z) : M bool :=
  enabled ← isset Debug_enabled;
  reset ← isset In_reset;
  if negb enabled || reset then ret false
  else
    watching ← flag (SPR SPR_DMR2) (Z.lor SPR_DMR2_WGB SPR_DMR2_AWTC);
    if watching then calculate_watchpoints action udata else ret false.

(** ** Configuration *)

Definition debug_enabled (val : Z) : M unit :=
  (if nz val then ors (SPR SPR_UPR) SPR_UPR_DUP else clr (SPR SPR_UPR) SPR_UPR_DUP);;
  wr Debug_enabled val.
Definition debug_rsp_enabled (val : Z) : M unit := wr Debug_rsp_enabled val.
Definition debug_rsp_port (val : Z) : M unit :=
  if (val <? 0) || (65535 <? val) then ret tt else wr Debug_rsp_port val.
Definition debug_vapi_id (val : Z) : M unit := wr Debug_vapi_id val.

(** ** Typing *)

#[export] Hint Opaque set_stall_state du_reset rsp_exception debug_ignore_exception update_counters
  check_debug_unit
  : typeclass_instances.
#[export] Instance set_stall_state_typed R `{!Writes plain R} st : Respects R (set_stall_state st).
Proof. unfold set_stall_state. respects. Qed.
#[export] Instance du_reset_typed R `{!Writes plain R} : Respects R du_reset.
Proof. unfold du_reset. respects. Qed.
#[export] Instance rsp_exception_typed R `{!Writes plain R} e : Respects R (rsp_exception e).
Proof. unfold rsp_exception. respects. Qed.
#[export] Instance debug_ignore_exception_typed R `{!Writes plain R} e : Respects R (debug_ignore_exception e).
Proof. unfold debug_ignore_exception. respects. Qed.
#[export] Instance update_counters_typed R `{!Writes plain R} d w : Respects R (update_counters d w).
Proof. unfold update_counters. respects. Qed.
#[export] Instance check_debug_unit_typed R `{!Writes plain R} a u : Respects R (check_debug_unit a u).
Proof. unfold check_debug_unit, calculate_watchpoints. respects. Qed.

End Debug.
