(* ===== verification/Except.v ===== *)
(** * Exception entry (cpu/or1k/except.c)

    [except_handle] with the complete description of the state it leaves. *)

From S2P Require Export Debug.

Module Except.
Import Debug.

(** [cpu_state.delay_insn ? 4 : 0] *)
Definition delay_offset : M Z := d ← isset Delay_insn; ret (if d : bool then 4 else 0).

Definition except_handle (except ea : Z) : M unit :=
  wr Loadlock_active 0;;
  ignored ← debug_ignore_exception except;
  if ignored then ret tt
  else
    wr Except_pending 1;;
    eph ← flag (SPR SPR_SR) SPR_SR_EPH;
    let except_vector := u32 (except + if eph then 0xf0000000 else 0x00000000) in
    wr Pcnext except_vector;;
    wr (SPR SPR_EEAR_BASE) ea;;
    sr ← rd (SPR SPR_SR);
    wr (SPR SPR_ESR_BASE) sr;;
    clr (SPR SPR_SR) SPR_SR_OVE;;
    ors (SPR SPR_SR) SPR_SR_SM;;
    clr (SPR SPR_SR) (Z.lor SPR_SR_IEE SPR_SR_TEE);;
    clr (SPR SPR_SR) SPR_SR_DME;;
    switch except
      [ ([EXCEPT_RESET], ret tt);
        ([EXCEPT_ITLBMISS; EXCEPT_IPF],
          d ← delay_offset; wr (SPR SPR_EPCR_BASE) (ea - d));
        ([EXCEPT_BUSERR; EXCEPT_DPF; EXCEPT_ALIGN; EXCEPT_ILLEGAL; EXCEPT_DTLBMISS;
          EXCEPT_RANGE; EXCEPT_TRAP],
          pc ← rd Pc; d ← delay_offset; wr (SPR SPR_EPCR_BASE) (pc - d));
        ([EXCEPT_FPE; EXCEPT_SYSCALL],
          pc ← rd Pc; d ← delay_offset; wr (SPR SPR_EPCR_BASE) (pc + 4 - d));
        ([EXCEPT_TICK; EXCEPT_INT],
          pc ← rd Pc; d ← delay_offset; wr (SPR SPR_EPCR_BASE) (pc - d);;
          pcnext ← rd Pcnext; wr Pc pcnext;; adds Pcnext 4) ]
      (ret tt);;
    clr (SPR SPR_SR) SPR_SR_IME;;
    wr Delay_insn 0.

#[export] Hint Opaque except_handle
  : typeclass_instances.

(** The preorders that allow raising an exception, besides the assignments any
    part of the simulator makes. *)
Class Enters (R : relation Sim) : Prop := {
  enters_writes : Writes plain R;
  enters : forall e ea, Respects R (except_handle e ea) }.
#[export] Hint Extern 0 (Writes plain ?R) =>
  match goal with HR : Enters R |- _ => exact (enters_writes (Enters:=HR)) end : typeclass_instances.
#[export] Hint Extern 0 (PreOrder ?R) =>
  match goal with HR : Enters R |- _ =>
    exact (writes_preorder (Writes:=enters_writes (Enters:=HR))) end : typeclass_instances.
#[export] Instance except_handle_keeps R `{!Enters R} e ea : Respects R (except_handle e ea).
Proof. apply enters. Qed.

Lemma enters_cells l R : Writes (cells l true) R -> Enters R.
Proof.
  intros HR. split; [apply _|]. intros e ea. unfold except_handle, delay_offset. respects.
Qed.
#[export] Instance enters_typed : Enters keeps_typed.
Proof. apply (enters_cells []), _. Qed.
#[export] Instance enters_frame l : Enters (frame (cells l true)).
Proof. apply (enters_cells l), _. Qed.
#[export] Hint Extern 0 (Enters ?R) =>
  match goal with
  | HR : Writes (cells ?l true) R |- _ => exact (enters_cells l R HR)
  | HR : Writes everything R |- _ => exact (enters_cells [] R (writes_everything _ R HR))
  end : typeclass_instances.

(** ** What exception entry does *)

(** The debug unit takes the exception over. *)
Definition ignored (except : Z) (s : Sim) : bool :=
  nz (Z.land (s (SPR SPR_DSR)) (dsr_mask except)).

Definition handler_addr (except : Z) (s : Sim) : Z :=
  u32 (except + if Z.testbit (s (SPR SPR_SR)) 14 then 0xf0000000 else 0).

(** Supervisor mode, no interrupts, no translation, no overflow exceptions. *)
Definition entry_sr_bit (sr : Z) (i : Z) : bool :=
  if i =? 0 then true
  else if existsb (Z.eqb i) [1; 2; 5; 6; 12] then false
  else Z.testbit sr i.

(** The return address: the faulting fetch address, the instruction or the one
    after it, moved back to the branch when in a delay slot. *)
Definition return_addr (except ea : Z) (s : Sim) : option Z :=
  let d := if nz (s Delay_insn) then 4 else 0 in
  if existsb (Z.eqb except) [EXCEPT_ITLBMISS; EXCEPT_IPF] then Some (u32 (ea - d))
  else if existsb (Z.eqb except)
    [EXCEPT_BUSERR; EXCEPT_DPF; EXCEPT_ALIGN; EXCEPT_ILLEGAL; EXCEPT_DTLBMISS; EXCEPT_RANGE;
     EXCEPT_TRAP; EXCEPT_TICK; EXCEPT_INT] then Some (u32 (s Pc - d))
  else if existsb (Z.eqb except) [EXCEPT_FPE; EXCEPT_SYSCALL] then Some (u32 (s Pc + 4 - d))
  else None.

(** Tick and interrupt exceptions are taken between instructions. *)
Definition is_async (except : Z) : bool := existsb (Z.eqb except) [EXCEPT_TICK; EXCEPT_INT].

Definition stall_cells : list cell :=
  [Development DEVELOPINT_RISCOP; G Stalled; G Npc_not_valid; G Halted].
Definition debug_cells : list cell := SPR SPR_DRR :: G Rsp_sigval :: stall_cells.
Definition entry_cells : list cell :=
  stall_cells ++
  [G Loadlock_active; G Except_pending; G Pcnext; SPR SPR_EEAR_BASE; SPR SPR_ESR_BASE; SPR SPR_SR;
   SPR SPR_EPCR_BASE; G Pc; G Delay_insn].

Lemma rsp_run except s (Q : unit -> Sim -> Prop) :
  Q tt s -> (forall v, Q tt (upd Rsp_sigval v s)) -> wp (rsp_exception except) Q s.
Proof. intros H0 H1. unfold rsp_exception. wps; auto. Qed.

Lemma s32_b2z b : s32 (b2z b) = b2z b.
Proof. by destruct b. Qed.

(** [set_stall_state (0)]: the processor runs, and a program counter set by the
    debugger counts as valid. *)
Definition unstalled (s s' : Sim) : Prop :=
  s' Stalled = 0 /\ s' Halted = 0 /\ s' Npc_not_valid = 0 /\
  s' (Development DEVELOPINT_RISCOP) =
    u64 (Z.land (s (Development DEVELOPINT_RISCOP)) (Z.lnot RISCOP_STALL)).

Lemma debug_ignore_run except s :
  wp (debug_ignore_exception except)
     (fun b s' => b = ignored except s /\ s' Stalled = b2z b /\
        s' (SPR SPR_DRR) = u32 (Z.lor (s (SPR SPR_DRR)) (Z.land (s (SPR SPR_DSR)) (dsr_mask except))) /\
        (b = false -> unstalled s s' /\ s' Rsp_sigval = s Rsp_sigval) /\
        frame (foot debug_cells) s s' /\ same_lists s s') s.
Proof.
  unfold debug_ignore_exception, set_stall_state. wps; rewrite ?s32_b2z, ?nz_b2z in *;
    fold (ignored except s) in *; try (apply rsp_run; [|intros v]; wps);
    fold (ignored except s) in *; (split; [reflexivity|]);
    destruct (ignored except s); rewrite ?andb_false_r in *; try discriminate;
    split_and!; intros; try discriminate; unfold unstalled; look;
    rewrite ?Z.lor_0_r, ?wrap_wrap; try done; split_and?; try done; unfold debug_cells; solve_frame.
Qed.
(** The five assignments to [SR]. *)
Definition entry_sr (sr : Z) : Z :=
  let sr := u32 (Z.land sr (Z.lnot SPR_SR_OVE)) in
  let sr := u32 (Z.lor sr SPR_SR_SM) in
  let sr := u32 (Z.land sr (Z.lnot (Z.lor SPR_SR_IEE SPR_SR_TEE))) in
  let sr := u32 (Z.land sr (Z.lnot SPR_SR_DME)) in
  u32 (Z.land sr (Z.lnot SPR_SR_IME)).

Lemma entry_sr_spec sr i : 0 <= i < 32 -> Z.testbit (entry_sr sr) i = entry_sr_bit sr i.
Proof.
  intros Hi. unfold entry_sr. cbn zeta. rewrite !testbit_u32 by lia.
  rewrite !testbit_clr by lia. rewrite testbit_u32 by lia.
  rewrite testbit_clr by lia. rewrite testbit_u32, testbit_clr, testbit_u32 by lia.
  rewrite Z.lor_spec, testbit_u32, testbit_clr by lia.
  rewrite (proj2 (Z.ltb_lt i 32)) by lia. rewrite !andb_true_r.
  change SPR_SR_OVE with (2 ^ 12). change SPR_SR_SM with (2 ^ 0).
  change SPR_SR_DME with (2 ^ 5). change SPR_SR_IME with (2 ^ 6).
  change (Z.lor SPR_SR_IEE SPR_SR_TEE) with (Z.lor (2 ^ 2) (2 ^ 1)).
  rewrite Z.lor_spec, !testbit_pow2 by lia.
  unfold entry_sr_bit. cbn [existsb]. rewrite !(Z.eqb_sym i).
  destruct (Z.eqb_spec 0 i), (Z.eqb_spec 1 i), (Z.eqb_spec 2 i),
    (Z.eqb_spec 5 i), (Z.eqb_spec 6 i), (Z.eqb_spec 12 i);
    try lia; cbn; rewrite ?andb_true_r, ?andb_false_r, ?orb_true_r, ?orb_false_r; reflexivity.
Qed.

(** The state after an exception the debug unit does not take. *)
Definition entered (except ea : Z) (s s' : Sim) : Prop :=
  s' (SPR SPR_SR) = entry_sr (s (SPR SPR_SR)) /\
  s' (SPR SPR_ESR_BASE) = s (SPR SPR_SR) /\
  s' (SPR SPR_EEAR_BASE) = u32 ea /\
  s' (SPR SPR_EPCR_BASE) = default (s (SPR SPR_EPCR_BASE)) (return_addr except ea s) /\
  s' Pc = (if is_async except then handler_addr except s else s Pc) /\
  s' Pcnext = (if is_async except then u32 (handler_addr except s + 4) else handler_addr except s) /\
  s' Delay_insn = 0 /\ s' Loadlock_active = 0 /\ s' Except_pending = 1 /\ unstalled s s' /\
  frame (foot entry_cells) s s' /\ same_lists s s'.

(** An exception that is not taken over sets no bit of [DRR]. *)
Lemma not_taken_drr except (s s1 : Sim) :
  typed s -> ignored except s = false ->
  s1 (SPR SPR_DRR) = u32 (Z.lor (s (SPR SPR_DRR)) (Z.land (s (SPR SPR_DSR)) (dsr_mask except))) ->
  s1 (SPR SPR_DRR) = s (SPR SPR_DRR).
Proof.
  intros Hty Hig ->. apply nz_false in Hig. rewrite Hig, Z.lor_0_r. apply wrap_small, (Hty (SPR SPR_DRR)).
Qed.
Lemma released_frame (s s1 : Sim) :
  s1 (SPR SPR_DRR) = s (SPR SPR_DRR) -> s1 Rsp_sigval = s Rsp_sigval ->
  (forall c, existsb (fun c' => bool_decide (c = c')) (G Loadlock_active :: debug_cells) = false -> s1 c = s c) ->
  frame (foot entry_cells) s s1.
Proof.
  intros Hd Hv Hg c Hc. destruct (decide (c = SPR SPR_DRR)) as [->|N1]; [done|].
  destruct (decide (c = G Rsp_sigval)) as [->|N2]; [done|]. apply Hg.
  unfold foot, entry_cells in Hc. apply not_true_is_false in Hc. rewrite existsb_app in Hc.
  apply orb_false_iff in Hc as [H1 H2]. cbn [existsb] in H2. apply orb_false_iff in H2 as [H2 _].
  unfold debug_cells. cbn [existsb]. rewrite H2, (bool_decide_eq_false_2 _ N1), (bool_decide_eq_false_2 _ N2). exact H1.
Qed.

Lemma except_handle_run except ea s :
  typed s -> ignored except s = false ->
  wp (except_handle except ea) (fun _ s' => entered except ea s s' /\ typed s') s.
Proof.
  intros Hty Hig.
  eapply (wpx_respects keeps_typed); [apply _|].
  eapply wpx_mono with (E := fun _ _ => False) (Q := fun _ => entered except ea s); [|done|by auto].
  unfold except_handle, delay_offset. wps.
  eapply wpx_mono; [apply debug_ignore_run | done |].
  intros b s1 (-> & Hst & Hdrr & Hstall & Hfr & Hsl). cbv beta.
  change (ignored except (upd Loadlock_active 0 s)) with (ignored except s) in *.
  rewrite Hig in *. specialize (Hstall eq_refl).
  apply (not_taken_drr except (upd Loadlock_active 0 s) s1 (upd_typed _ _ _ Hty) Hig) in Hdrr.
  assert (Hg : forall c, existsb (fun c' => bool_decide (c = c')) (G Loadlock_active :: debug_cells) = false ->
                s1 c = s c).
  { intros c Hc. cbn [existsb] in Hc. apply orb_false_iff in Hc as [Hne Hc].
    apply bool_decide_eq_false in Hne.
    rewrite (frame_get _ _ _ c Hfr Hc). apply upd_ne. congruence. }
  assert (Hll : s1 Loadlock_active = 0) by (rewrite (frame_get _ _ _ _ Hfr) by reflexivity; look; done).
  assert (Hfr' : frame (foot entry_cells) s s1) by exact (released_frame s s1 Hdrr (proj2 Hstall) Hg).
  assert (Hsl' : same_lists s s1) by exact Hsl.
  clear Hfr Hsl.
  assert (Esr : s1 (SPR SPR_SR) = s (SPR SPR_SR)) by by apply Hg.
  assert (Epc : s1 Pc = s Pc) by by apply Hg.
  assert (Edl : s1 Delay_insn = s Delay_insn) by by apply Hg.
  assert (Eep : s1 (SPR SPR_EPCR_BASE) = s (SPR SPR_EPCR_BASE)) by by apply Hg.
  pose proof (typed_u32 s (SPR SPR_SR) Hty eq_refl) as Hsr.
  wps.
  all: unfold entered, return_addr, is_async, handler_addr; split_and!; look.
  all: rewrite ?Esr, ?Epc, ?Edl, ?Eep.
  all: try (apply wrap_small, inty_U32; lia).
  all: try done.
  all: try (apply frame_trans_upd; [reflexivity|]; solve_frame).
  all: try (destruct Hstall as [Hs _]; unfold unstalled in *; look; exact Hs).
  all: change SPR_SR_EPH with (2 ^ 14); rewrite ?nz_land_bit, ?wrap_wrap by lia.
  all: match goal with
       | H : existsb _ _ = true |- _ => label_taken H; reflexivity
       | _ => idtac
       end.
  all: labels_missed; reflexivity.
Qed.

(** An ignored exception leaves the processor where it was. *)
Lemma except_handle_ignored_run except ea s :
  ignored except s = true ->
  wp (except_handle except ea)
     (fun _ s' => s' Stalled = 1 /\ s' Loadlock_active = 0 /\
        s' (SPR SPR_DRR) = u32 (Z.lor (s (SPR SPR_DRR)) (Z.land (s (SPR SPR_DSR)) (dsr_mask except))) /\
        frame (foot (G Loadlock_active :: debug_cells)) s s' /\ same_lists s s') s.
Proof.
  intros Hig. unfold except_handle. wps.
  eapply wpx_mono; [apply debug_ignore_run | done |].
  intros b s1 (-> & Hst & Hdrr & _ & Hfr & Hsl). cbv beta.
  change (ignored except (upd Loadlock_active 0 s)) with (ignored except s) in *.
  rewrite Hig in *. wps. split_and!; try done.
  - rewrite (frame_get _ _ _ _ Hfr) by reflexivity. look. done.
  - intros c Hc. rewrite (frame_get _ _ _ c Hfr).
    + apply upd_ne. intros <-. apply Hc. reflexivity.
    + unfold foot in Hc. cbn [existsb] in Hc. apply not_true_is_false in Hc.
      by apply orb_false_iff in Hc as [_ Hc].
Qed.

(** C3: an exception the debug unit does not take enters its handler: the
    context is saved ([ESR], [EEAR], [EPCR] with the address the class of the
    exception and the delay slot prescribe), supervisor mode is entered with
    interrupts, translation and overflow exceptions off and the other [SR] bits
    kept, control goes to the vector (high prefix honoured), the reservation is
    lost, and [except_pending] is set.  The stall of the debug unit is released
    ([unstalled]: also a program counter set by the debugger counts as valid, and
    the processor is not halted any more); nothing else changes, [DRR] and the
    signal kept for GDB included. *)
Theorem except_handle_enters except ea s :
  typed s -> ignored except s = false ->
  exists s', except_handle except ea s = Ok tt s' /\ entered except ea s s' /\
    forall i, 0 <= i < 32 -> Z.testbit (s' (SPR SPR_SR)) i = entry_sr_bit (s (SPR SPR_SR)) i.
Proof.
  intros Hty Hig. pose proof (except_handle_run except ea s Hty Hig) as Hwp.
  apply wp_ok in Hwp as ([] & s' & E & He & _). exists s'. split; [exact E|]. split; [exact He|].
  intros i Hi. destruct He as [-> _]. by apply entry_sr_spec.
Qed.

(** C40: an exception whose bit is set in [DSR] stalls the processor and is noted
    in [DRR]; program counters, [SR] and the saved context are left alone (the
    reservation of l.lwa is lost, as the code clears it first). *)
Theorem except_handle_trapped except ea s :
  ignored except s = true ->
  exists s', except_handle except ea s = Ok tt s' /\ s' Stalled = 1 /\
    s' (SPR SPR_DRR) = u32 (Z.lor (s (SPR SPR_DRR)) (Z.land (s (SPR SPR_DSR)) (dsr_mask except))) /\
    (forall c, c ∈ [G Pc; G Pcnext; SPR SPR_SR; SPR SPR_ESR_BASE; SPR SPR_EPCR_BASE; SPR SPR_EEAR_BASE;
                    G Delay_insn; G Except_pending] -> s' c = s c) /\
    same_lists s s'.
Proof.
  intros Hig. pose proof (except_handle_ignored_run except ea s Hig) as Hwp.
  apply wp_ok in Hwp as ([] & s' & E & Hst & _ & Hd & Hfr & Hsl). exists s'. split_and!; try done.
  intros c Hc. apply (frame_get _ _ _ _ Hfr).
  repeat (apply elem_of_cons in Hc as [->|Hc]; [reflexivity|]). by apply elem_of_nil in Hc.
Qed.

(** A floating point exception is never taken by the debug unit, whatever
    [DSR] says, although [spr-defs.h] gives it a stop bit: the processor goes to
    the handler and does not stall. *)
Theorem fpe_never_trapped ea s :
  typed s ->
  exists s', except_handle EXCEPT_FPE ea s = Ok tt s' /\ s' Stalled = 0 /\
    s' Pcnext = handler_addr EXCEPT_FPE s /\ s' (SPR SPR_ESR_BASE) = s (SPR SPR_SR).
Proof.
  intros Hty. assert (Hig : ignored EXCEPT_FPE s = false).
  { unfold ignored. change (dsr_mask EXCEPT_FPE) with 0. by rewrite Z.land_0_r. }
  pose proof (except_handle_run EXCEPT_FPE ea s Hty Hig) as Hwp.
  apply wp_ok in Hwp as ([] & s' & E & He & _). exists s'.
  destruct He as (_ & ? & _ & _ & _ & Hp & _ & _ & _ & Hu & _). split_and!; done || apply Hu.
Qed.

(** ** Witnesses *)

(** A processor in a delay slot at 0x2004, interrupts and translation on. *)
Definition ex_cpu : Sim :=
  upd (SPR SPR_SR) 0x8067 (upd Pc 0x2004 (upd Pcnext 0x2008 (upd Delay_insn 1 zero_state))).

Lemma ex_cpu_typed : typed ex_cpu.
Proof. repeat apply upd_typed. exact zero_typed. Qed.

Lemma except_handle_enters_witness :
  exists s', except_handle EXCEPT_DPF 0x1234 ex_cpu = Ok tt s' /\ entered EXCEPT_DPF 0x1234 ex_cpu s' /\
    forall i, 0 <= i < 32 -> Z.testbit (s' (SPR SPR_SR)) i = entry_sr_bit (ex_cpu (SPR SPR_SR)) i.
Proof. apply (except_handle_enters EXCEPT_DPF 0x1234 ex_cpu ex_cpu_typed). reflexivity. Defined.

Lemma except_handle_trapped_witness :
  exists s', except_handle EXCEPT_TRAP 0 (upd (SPR SPR_DSR) SPR_DSR_TE ex_cpu) = Ok tt s' /\
    s' Stalled = 1 /\ s' (SPR SPR_DRR) = SPR_DSR_TE.
Proof.
  destruct (except_handle_trapped EXCEPT_TRAP 0 (upd (SPR SPR_DSR) SPR_DSR_TE ex_cpu))
    as (s' & E & Hst & Hd & _); [reflexivity|].
  exists s'. split; [exact E|]. split; [exact Hst | rewrite Hd; reflexivity].
Defined.

Lemma fpe_never_trapped_witness :
  exists s', except_handle EXCEPT_FPE 0 (upd (SPR SPR_DSR) SPR_DSR_FPE ex_cpu) = Ok tt s' /\ s' Stalled = 0.
Proof.
  destruct (fpe_never_trapped 0 (upd (SPR SPR_DSR) SPR_DSR_FPE ex_cpu)) as (s' & E & Hst & _).
  - apply upd_typed, ex_cpu_typed.
  - exists s'. split; [exact E | exact Hst].
Defined.

(** The entry code evaluated: [EPCR] is the branch before the delay slot. *)
Example except_handle_ex :
  match except_handle EXCEPT_SYSCALL 0 ex_cpu with
  | Ok _ s' => (s' (SPR SPR_EPCR_BASE), s' Pcnext, s' (SPR SPR_SR), s' (SPR SPR_ESR_BASE))
               = (0x2004, 0xc00, 0x8001, 0x8067)
  | Stop _ _ => False
  end.
Proof. vm_compute. reflexivity. Qed.

End Except.
