(* ===== verification/Pic.v ===== *)
(** * The programmable interrupt controller (pic/pic.c) *)

From S2P Require Export Sched Except.

Module Pic.
Import Sched Except.

Definition pic_reset : M unit :=
  nmi ← isset Pic_use_nmi;
  wr (SPR SPR_PICMR) (if nmi : bool then 0x00000003 else 0x00000000);;
  wr (SPR SPR_PICSR) 0x00000000.

Definition pic_rep_int (dat : Z) : M unit :=
  picsr ← isset (SPR SPR_PICSR);
  when picsr (eear ← rd (SPR SPR_EEAR_BASE); except_handle EXCEPT_INT eear).

Definition pic_ints_en : M unit :=
  picmr ← rd (SPR SPR_PICMR);
  picsr ← rd (SPR SPR_PICSR);
  when (nz (Z.land picmr picsr)) (sched_add J_pic_rep_int 0 0).

Definition report_interrupt (line : Z) : M unit :=
  bit ← shl_int 1 line;
  let lmask := u32 bit in
  clr (SPR SPR_PMR) (Z.lor SPR_PMR_DME SPR_PMR_SME);;
  enabled ← isset Pic_enabled;
  if negb enabled then
    iee ← flag (SPR SPR_SR) SPR_SR_IEE;
    when iee (eear ← rd (SPR SPR_EEAR_BASE); except_handle EXCEPT_INT eear)
  else
    pending ← flag (SPR SPR_PICSR) lmask;
    if pending : bool then ret tt
    else
      ors (SPR SPR_PICSR) lmask;;
      unmasked ← flag (SPR SPR_PICMR) lmask;
      iee ← flag (SPR SPR_SR) SPR_SR_IEE;
      when (unmasked && iee) (sched_add J_pic_rep_int 0 0).

Definition clear_interrupt (line : Z) : M unit :=
  bit ← shl_int 1 line;
  clr (SPR SPR_PICSR) bit.

Definition pic_enabled (val : Z) : M unit :=
  (if nz val then ors (SPR SPR_UPR) SPR_UPR_PICP else clr (SPR SPR_UPR) SPR_UPR_PICP);;
  wr Pic_enabled val.
Definition pic_edge_trigger (val : Z) : M unit := wr Pic_edge_trigger val.
Definition pic_use_nmi (val : Z) : M unit := wr Pic_use_nmi val.

#[export] Hint Opaque pic_reset pic_rep_int pic_ints_en report_interrupt clear_interrupt
  : typeclass_instances.
#[export] Instance pic_reset_typed R `{!Enters R} : Respects R pic_reset.
Proof. unfold pic_reset. respects. Qed.
#[export] Instance pic_rep_int_typed R `{!Enters R} d : Respects R (pic_rep_int d).
Proof. unfold pic_rep_int. respects. Qed.
#[export] Instance pic_ints_en_typed R `{!Enters R} : Respects R pic_ints_en.
Proof. unfold pic_ints_en. respects. Qed.
#[export] Instance report_interrupt_typed R `{!Enters R} l : Respects R (report_interrupt l).
Proof. unfold report_interrupt. respects. Qed.
#[export] Instance clear_interrupt_typed R `{!Enters R} l : Respects R (clear_interrupt l).
Proof. unfold clear_interrupt. respects. Qed.

(** ** Lemmas *)

(** A job for now goes in front of a queue that is not overdue. *)
Lemma sched_add_now s f d h r e fr :
  job_queue s = h :: r -> free_jobs s = e :: fr -> 0 <= time h -> inty I32 (time h) ->
  sched_add f d 0 s = Ok tt (set_queue (SchedEntry 0 d f :: h :: r) fr s).
Proof.
  intros Hq Hf Hh Ht. unfold sched_add, gets, modify, bind. rewrite Hq. cbn [sched_walk].
  rewrite (proj2 (Z.ltb_ge (time h) 0)) by lia. rewrite Hf. cbn.
  rewrite Z.add_0_r, wrap_small by exact Ht. by destruct h.
Qed.

(** The line's bit as an [uint32_t]. *)
Lemma line_mask line : 0 <= line < 32 -> u32 (s32 (Z.shiftl 1 line)) = 2 ^ line.
Proof.
  intros. rewrite u32_s32, Z.shiftl_1_l. apply u32_small. split; [lia|].
  apply Z.pow_lt_mono_r; lia.
Qed.

Lemma u32_lor_bit v k : 0 <= v < 2 ^ 32 -> 0 <= k < 32 -> u32 (Z.lor v (2 ^ k)) = Z.lor v (2 ^ k).
Proof. intros. apply u32_small, lor_range; [lia | lia | by apply pow2_u32]. Qed.

(** ** Properties *)

(** Asserting a line that is not pending marks it in [PICSR], leaves doze
    and sleep mode, and puts the interrupt job on the queue, due now, exactly
    when the line is unmasked and interrupts are enabled; a pending line is
    left alone. *)
Theorem report_interrupt_spec line s h r e fr :
  typed s -> 0 <= line < 32 -> nz (s Pic_enabled) = true ->
  job_queue s = h :: r -> free_jobs s = e :: fr -> 0 <= time h -> inty I32 (time h) ->
  exists s', report_interrupt line s = Ok tt s' /\
    s' (SPR SPR_PICSR) = Z.lor (s (SPR SPR_PICSR)) (2 ^ line) /\
    s' (SPR SPR_PMR) = Z.land (s (SPR SPR_PMR)) (Z.lnot 0x30) /\
    (job_queue s', free_jobs s') =
      (if negb (Z.testbit (s (SPR SPR_PICSR)) line) && Z.testbit (s (SPR SPR_PICMR)) line
          && Z.testbit (s (SPR SPR_SR)) 2
       then (SchedEntry 0 0 J_pic_rep_int :: h :: r, fr) else (h :: r, e :: fr)) /\
    frame (foot [SPR SPR_PICSR; SPR SPR_PMR]) s s'.
Proof.
  intros Hty Hl Hen Hq Hf Hh Ht.
  assert (Hpm : u32 (Z.land (s (SPR SPR_PMR)) (Z.lnot 0x30)) = Z.land (s (SPR SPR_PMR)) (Z.lnot 0x30)).
  { apply wrap_small, inty_U32, land_range; [lia|]. by apply typed_u32. }
  pose proof (typed_u32 s (SPR SPR_PICSR) Hty eq_refl) as Hps.
  apply wp_unit. unfold report_interrupt. wps. apply wpx_shl_int; [exact Hl|].
  cbv zeta. rewrite !(line_mask line Hl). wps.
  all: rewrite ?Hen in *; try match goal with H : negb true = true |- _ => discriminate H end.
  all: change SPR_SR_IEE with (2 ^ 2) in *; change (Z.lor SPR_PMR_DME SPR_PMR_SME) with 0x30 in *.
  all: rewrite ?nz_land_bit in * by lia.
  all: repeat match goal with H : _ = true |- _ => rewrite H end.
  - split_and!; [by rewrite lor_bit_set by (lia || done) | done | by rewrite <- Hq, <- Hf | solve_frame].
  - eapply wpx_eq; [eapply sched_add_now; eauto|]. look.
    apply andb_true_iff in H1 as [-> ->]. rewrite H0.
    split_and!; [by apply u32_lor_bit | done | done | solve_frame].
  - rewrite H0. cbn [negb andb]. rewrite H1.
    split_and!; [by apply u32_lor_bit | done | by rewrite <- Hq, <- Hf | solve_frame].
Qed.

(** The jobs of the interrupt controller, as the scheduler runs them. *)
Definition run_pic (f : job_fn) (d : Z) : M unit :=
  match f with J_pic_rep_int => pic_rep_int d | _ => ret tt end.

Lemma entered_typed_free except ea s s' :
  entered except ea s s' -> ignored except s' = ignored except s.
Proof.
  intros (_ & _ & _ & _ & _ & _ & _ & _ & _ & _ & Hfr & _). unfold ignored.
  by rewrite (frame_get _ _ _ _ Hfr).
Qed.

Lemma return_addr_int ea (s : Sim) :
  return_addr EXCEPT_INT ea s = Some (u32 (s Pc - if nz (s Delay_insn) then 4 else 0)).
Proof. reflexivity. Qed.

Lemma handler_addr_entered (s s' : Sim) :
  s' (SPR SPR_SR) = entry_sr (s (SPR SPR_SR)) -> handler_addr EXCEPT_INT s' = handler_addr EXCEPT_INT s.
Proof. intros E. unfold handler_addr. by rewrite E, entry_sr_spec by lia. Qed.

(** When two unmasked lines are asserted before the scheduler runs, both
    interrupt jobs are queued and both run in one call of [do_scheduler], the
    second although the first has disabled interrupts: [EPCR] ends up as the
    address of the interrupt handler itself and [ESR] has interrupts disabled,
    so the interrupted program's address is in no register. *)
Theorem double_interrupt s h r :
  typed s -> job_queue s = SchedEntry 0 0 J_pic_rep_int :: SchedEntry 0 0 J_pic_rep_int :: h :: r ->
  0 < time h -> inty I32 (time h) ->
  nz (s (SPR SPR_PICSR)) = true -> ignored EXCEPT_INT s = false ->
  exists s', do_scheduler 2 run_pic s = Ok tt s' /\
    s' (SPR SPR_EPCR_BASE) = handler_addr EXCEPT_INT s /\
    Z.testbit (s' (SPR SPR_ESR_BASE)) 2 = false /\
    s' Pc = handler_addr EXCEPT_INT s.
Proof.
  intros Hty Hq Hh Hi Hp Hig. apply wp_unit.
  cbn [do_scheduler]. wps. rewrite Hq. cbn [head_plus time param func run_pic].
  wps. unfold pic_rep_int. wps; [|cbn in *; congruence].
  eapply wpx_mono; [apply except_handle_run; [exact Hty | exact Hig] | done |].
  intros _ s1 [He1 Hty1]. cbv beta.
  pose proof (entered_typed_free _ _ _ _ He1) as Hig1.
  pose proof He1 as (Hsr1 & _ & _ & _ & Hpc1 & _ & Hd1 & _ & _ & _ & Hfr1 & Hq1 & _).
  cbn [set_queue job_queue] in Hq1.
  wps. rewrite Hq1. cbn [time Z.leb Z.add]. wps; [|discriminate].
  rewrite Hq1. cbn [head_plus time param func run_pic]. rewrite Z.add_0_r, wrap_small by exact Hi.
  wps. unfold pic_rep_int. wps; [|rewrite (frame_get _ _ _ _ Hfr1) in * by reflexivity; cbn in *; congruence].
  eapply wpx_mono; [apply except_handle_run; [exact Hty1 | exact (eq_trans Hig1 Hig)] | done |].
  intros _ s2 [He2 Hty2]. cbv beta.
  destruct He2 as (_ & He2 & _ & Hep2 & Hpc2 & _ & _ & _ & _ & _ & _ & Hq2 & _).
  cbn [set_queue job_queue] in Hq2. wps. rewrite Hq2. cbn [time].
  rewrite (proj2 (Z.leb_gt _ _)) by exact Hh. wps.
  pose proof (handler_addr_entered _ _ Hsr1) as Hh1.
  change (s1 Pc = handler_addr EXCEPT_INT s) in Hpc1. split_and!.
  - rewrite Hep2, return_addr_int. look. rewrite Hd1, Hpc1. cbn [default nz Z.eqb negb].
    rewrite Z.sub_0_r. apply wrap_wrap.
  - rewrite He2. look. rewrite Hsr1, entry_sr_spec by lia. reflexivity.
  - rewrite Hpc2. exact Hh1.
Qed.

(** ** Witnesses *)

(** Supervisor mode with interrupts on, lines 2 and 3 unmasked, at 0x4000. *)
Definition ex_pic : Sim :=
  set_queue [SchedEntry SCHED_TIME_MAX 0 J_sched_guard] [SchedEntry 0 0 J_sched_guard; SchedEntry 0 0 J_sched_guard]
    (upd (SPR SPR_SR) 0x8005 (upd Pc 0x4000 (upd Pcnext 0x4004 (upd Pic_enabled 1
      (upd (SPR SPR_PICMR) 0xc zero_state))))).

Lemma ex_pic_typed : typed ex_pic.
Proof. do 5 apply (upd_typed _ _ _). exact zero_typed. Qed.

Lemma report_interrupt_spec_witness :
  exists s', report_interrupt 2 ex_pic = Ok tt s' /\ s' (SPR SPR_PICSR) = 4 /\
    job_queue s' = [SchedEntry 0 0 J_pic_rep_int; SchedEntry SCHED_TIME_MAX 0 J_sched_guard].
Proof.
  destruct (report_interrupt_spec 2 ex_pic (SchedEntry SCHED_TIME_MAX 0 J_sched_guard) []
    (SchedEntry 0 0 J_sched_guard) [SchedEntry 0 0 J_sched_guard] ex_pic_typed)
    as (s' & E & H1 & _ & H2 & _); try reflexivity; try closed_Z.
  exists s'. split; [exact E|]. split; [rewrite H1; reflexivity | exact (f_equal fst H2)].
Defined.

Definition ex_both : Sim :=
  state_of (bind (report_interrupt 2) (fun _ => report_interrupt 3) ex_pic).

Lemma ex_both_typed : typed ex_both.
Proof.
  assert (H : Respects keeps_typed (bind (report_interrupt 2) (fun _ => report_interrupt 3))) by respects.
  exact (H ex_pic ex_pic_typed).
Qed.

Lemma double_interrupt_witness :
  exists s', do_scheduler 2 run_pic ex_both = Ok tt s' /\
    s' (SPR SPR_EPCR_BASE) = 0x800 /\ Z.testbit (s' (SPR SPR_ESR_BASE)) 2 = false /\ s' Pc = 0x800.
Proof.
  apply (double_interrupt ex_both (SchedEntry SCHED_TIME_MAX 0 J_sched_guard) [] ex_both_typed).
  - vm_compute. reflexivity.
  - closed_Z.
  - closed_Z.
  - vm_compute. reflexivity.
  - vm_compute. reflexivity.
Defined.

End Pic.
