(* ===== verification/Tick.v ===== *)
(** * The tick timer, power management and the performance counters
    (tick/tick.c, pm/pm.c, pcu/pcu.c) *)

From S2P Require Export Sched Except.

Module Tick.
Import Sched Except.

Definition tick_reset : M unit :=
  wr (SPR SPR_TTCR) 0;;
  wr (SPR SPR_TTMR) 0;;
  wr Tick_counting 0.

Definition tick_raise_except (dat : Z) : M unit :=
  ors (SPR SPR_TTMR) SPR_TTMR_IP;;
  sched_next_insn J_tick_raise_except 0;;
  tee ← flag (SPR SPR_SR) SPR_SR_TEE;
  when tee (eear ← rd (SPR SPR_EEAR_BASE); except_handle EXCEPT_TICK eear).

Definition tick_restart (dat : Z) : M unit :=
  wr (SPR SPR_TTCR) 0;;
  cycles ← rd Cycles;
  wr Cycle_count_at_tick_start cycles;;
  ttmr ← rd (SPR SPR_TTMR);
  sched_add J_tick_restart 0 (Z.land ttmr SPR_TTMR_TP).

Definition tick_one_shot (dat : Z) : M unit :=
  ttmr ← rd (SPR SPR_TTMR);
  wr (SPR SPR_TTCR) (Z.land ttmr SPR_TTMR_TP);;
  wr Tick_counting 0.

Definition spr_read_ttcr : M Z :=
  counting ← isset Tick_counting;
  if negb counting then rd (SPR SPR_TTCR)
  else
    cycles ← rd Cycles;
    start ← rd Cycle_count_at_tick_start;
    ret (u32 (cycles - start)).

(** Cycles until the low 28 bits of the count reach the match value. *)
Definition cycles_until_except (match_ttmr match_ttcr : Z) : Z :=
  if match_ttcr <=? match_ttmr then u32 (match_ttmr - match_ttcr)
  else u32 (match_ttmr + (0x0fffffff - match_ttcr) + 1).

Definition sched_timer_job (prev_ttmr : Z) : M unit :=
  ttmr ← rd (SPR SPR_TTMR);
  ttcr ← spr_read_ttcr;
  let match_ttmr := Z.land ttmr SPR_TTMR_TP in
  let match_ttcr := Z.land ttcr SPR_TTMR_TP in
  let raising := nz (Z.land ttmr SPR_TTMR_IE) && negb (nz (Z.land ttmr SPR_TTMR_IP)) in
  when (nz (Z.land prev_ttmr SPR_TTMR_IE) && negb (nz (Z.land ttmr SPR_TTMR_IP)))
    (sched_find_remove J_tick_raise_except 0);;
  switch (Z.land prev_ttmr SPR_TTMR_M)
    [ ([SPR_TTMR_RT], sched_find_remove J_tick_restart 0);
      ([SPR_TTMR_SR], sched_find_remove J_tick_one_shot 0) ]
    (ret tt);;
  let c := cycles_until_except match_ttmr match_ttcr in
  switch (Z.land ttmr SPR_TTMR_M)
    [ ([0], when (negb (nz c) && raising) (sched_add J_tick_raise_except 0 0));
      ([SPR_TTMR_RT],
        sched_add J_tick_restart 0 c;;
        when raising (sched_add J_tick_raise_except 0 c));
      ([SPR_TTMR_SR],
        counting ← isset Tick_counting;
        when counting
          (sched_add J_tick_one_shot 0 c;;
           when raising (sched_add J_tick_raise_except 0 c)));
      ([SPR_TTMR_CR], when raising (sched_add J_tick_raise_except 0 c)) ]
    (ret tt).

Definition spr_write_ttcr (value : Z) : M unit :=
  cycles ← rd Cycles;
  wr Cycle_count_at_tick_start (cycles - value);;
  ttmr ← rd (SPR SPR_TTMR);
  sched_timer_job ttmr.

Definition spr_write_ttmr (prev_val : Z) : M unit :=
  value ← rd (SPR SPR_TTMR);
  clr (SPR SPR_TTMR) SPR_TTMR_IP;;
  counting ← isset Tick_counting;
  when counting
    (cycles ← rd Cycles;
     start ← rd Cycle_count_at_tick_start;
     wr (SPR SPR_TTCR) (cycles - start));;
  cycles ← rd Cycles;
  ttcr ← rd (SPR SPR_TTCR);
  wr Cycle_count_at_tick_start (cycles - ttcr);;
  wr Tick_counting (Z.land value SPR_TTMR_M);;
  sched_timer_job prev_val.

(** ** Power management *)

Definition pm_reset : M unit := wr (SPR SPR_PMR) 0.
Definition pm_enabled (val : Z) : M unit :=
  (if nz val then ors (SPR SPR_UPR) SPR_UPR_PMP else clr (SPR SPR_UPR) SPR_UPR_PMP);;
  wr Pm_enabled val.

(** ** Performance counters *)

Definition pcu_count_event (event : Z) : M unit :=
  for_ 8 0 1 (fun i =>
    pcmr ← rd (SPR (SPR_PCMR i));
    sm ← flag (SPR SPR_SR) SPR_SR_SM;
    when (nz (Z.land event pcmr) &&
          ((nz (Z.land pcmr SPR_PCMR_CISM) && sm) ||
           (nz (Z.land pcmr SPR_PCMR_CIUM) && negb sm)))
      (adds (SPR (SPR_PCCR i)) 1)).

Definition pcu_enabled (val : Z) : M unit :=
  (if nz val then
     ors (SPR SPR_UPR) SPR_UPR_PCUP;;
     for_ 8 0 1 (fun i => wr (SPR (SPR_PCMR i)) SPR_PCMR_CP)
   else clr (SPR SPR_UPR) SPR_UPR_PCUP);;
  wr Pcu_enabled val.

(** ** Typing *)

#[export] Hint Opaque tick_reset tick_raise_except tick_restart tick_one_shot spr_read_ttcr sched_timer_job
  spr_write_ttcr spr_write_ttmr pm_reset pcu_count_event
  : typeclass_instances.
#[export] Instance tick_reset_typed R `{!Enters R} : Respects R tick_reset.
Proof. unfold tick_reset. respects. Qed.
#[export] Instance tick_raise_except_typed R `{!Enters R} d : Respects R (tick_raise_except d).
Proof. unfold tick_raise_except. respects. Qed.
#[export] Instance tick_restart_typed R `{!Enters R} d : Respects R (tick_restart d).
Proof. unfold tick_restart. respects. Qed.
#[export] Instance tick_one_shot_typed R `{!Enters R} d : Respects R (tick_one_shot d).
Proof. unfold tick_one_shot. respects. Qed.
#[export] Instance spr_read_ttcr_typed R `{!Enters R} : Respects R spr_read_ttcr.
Proof. unfold spr_read_ttcr. respects. Qed.
#[export] Instance sched_timer_job_typed R `{!Enters R} p : Respects R (sched_timer_job p).
Proof. unfold sched_timer_job. respects. Qed.
#[export] Instance spr_write_ttcr_typed R `{!Enters R} v : Respects R (spr_write_ttcr v).
Proof. unfold spr_write_ttcr. respects. Qed.
#[export] Instance spr_write_ttmr_typed R `{!Enters R} v : Respects R (spr_write_ttmr v).
Proof. unfold spr_write_ttmr. respects. Qed.
#[export] Instance pm_reset_typed R `{!Enters R} : Respects R pm_reset.
Proof. unfold pm_reset. respects. Qed.
#[export] Instance pcu_count_event_typed R `{!Enters R} e : Respects R (pcu_count_event e).
Proof. unfold pcu_count_event. respects. Qed.

#[export] Instance spr_read_ttcr_frame W : Respects (frame W) spr_read_ttcr.
Proof. unfold spr_read_ttcr. respects. Qed.
#[export] Instance sched_timer_job_frame W p : Respects (frame W) (sched_timer_job p).
Proof. unfold sched_timer_job. respects. Qed.

(** ** Specification *)

(** The mode field of [TTMR]. *)
Definition tick_mode (ttmr : Z) : Z := Z.shiftr ttmr 30.

(** Cycles from count [ttcr] to the next match with [ttmr], modulo [2^28]. *)
Definition until_match (ttmr ttcr : Z) : Z := (ttmr mod 2 ^ 28 - ttcr mod 2 ^ 28) mod 2 ^ 28.

(** The timer jobs on the queue after the mode register, the count or both have
    been written: the jobs of the previous mode are removed, then those of the
    new one are put at the next match. *)
Definition timer_jobs (prev ttmr ttcr : Z) (counting : bool) (l : list ajob) : list ajob :=
  let c := until_match ttmr ttcr in
  let raising := Z.testbit ttmr 29 && negb (Z.testbit ttmr 28) in
  let l := if Z.testbit prev 29 && negb (Z.testbit ttmr 28)
           then remove_first J_tick_raise_except 0 l else l in
  let l := if tick_mode prev =? 1 then remove_first J_tick_restart 0 l
           else if tick_mode prev =? 2 then remove_first J_tick_one_shot 0 l else l in
  let raise l := if raising then insert_at (c, 0, J_tick_raise_except) l else l in
  if tick_mode ttmr =? 0 then if c =? 0 then raise l else l
  else if tick_mode ttmr =? 1 then raise (insert_at (c, 0, J_tick_restart) l)
  else if tick_mode ttmr =? 2 then
    if counting then raise (insert_at (c, 0, J_tick_one_shot) l) else l
  else raise l.

Lemma land_tp x : Z.land x SPR_TTMR_TP = x mod 2 ^ 28.
Proof. change SPR_TTMR_TP with (Z.ones 28). apply Z.land_ones. lia. Qed.

Lemma cycles_until_except_spec ttmr ttcr :
  cycles_until_except (Z.land ttmr SPR_TTMR_TP) (Z.land ttcr SPR_TTMR_TP) = until_match ttmr ttcr.
Proof.
  rewrite !land_tp. unfold cycles_until_except, until_match.
  pose proof (Z.mod_pos_bound ttmr (2 ^ 28) ltac:(lia)).
  pose proof (Z.mod_pos_bound ttcr (2 ^ 28) ltac:(lia)).
  set (m := ttmr mod 2 ^ 28) in *. set (t := ttcr mod 2 ^ 28) in *.
  destruct (Z.leb_spec t m).
  - rewrite u32_small, Z.mod_small by lia. lia.
  - rewrite u32_small by lia. apply Z.mod_unique with (-1); lia.
Qed.

Lemma land_mode x : 0 <= x < 2 ^ 32 -> Z.land x SPR_TTMR_M = tick_mode x * 2 ^ 30 /\ 0 <= tick_mode x < 4.
Proof.
  intros Hx. unfold tick_mode. split.
  - rewrite <- Z.shiftl_mul_pow2 by lia. apply Z.bits_inj'. intros i Hi.
    rewrite Z.land_spec, Z.shiftl_spec by lia.
    change SPR_TTMR_M with (Z.shiftl (Z.ones 2) 30). rewrite Z.shiftl_spec by lia.
    destruct (Z.lt_ge_cases i 30).
    + rewrite !(Z.testbit_neg_r _ (i - 30)) by lia. apply andb_false_r.
    + rewrite Z.shiftr_spec by lia. replace (i - 30 + 30) with i by lia.
      destruct (Z.lt_ge_cases i 32).
      * rewrite Z.ones_spec_low by lia. apply andb_true_r.
      * rewrite (testbit_above 32 x) by lia. reflexivity.
  - rewrite Z.shiftr_div_pow2 by lia. split; [apply Z.div_pos; lia|].
    apply Z.div_lt_upper_bound; lia.
Qed.

Lemma land_mode_eqb x k : 0 <= x < 2 ^ 32 -> (Z.land x SPR_TTMR_M =? k * 2 ^ 30) = (tick_mode x =? k).
Proof.
  intros Hx. destruct (land_mode x Hx) as [-> _].
  destruct (Z.eqb_spec (tick_mode x) k); [subst; apply Z.eqb_refl|]. apply Z.eqb_neq. lia.
Qed.

Lemma until_match_range m t : 0 <= until_match m t < 2 ^ 28.
Proof. apply Z.mod_pos_bound. lia. Qed.

(** [raise]: the last step of every mode. *)
Lemma wp_raise s l n s' (b : bool) c :
  sched_at s l (S n) s' -> 0 <= c < 2 ^ 28 ->
  wp (when b (sched_add J_tick_raise_except 0 c))
     (fun _ => sched_at s (if b then insert_at (c, 0, J_tick_raise_except) l else l) n) s'.
Proof.
  intros Ha Hc. apply wpx_when; intros ->.
  - apply wp_add; [exact Ha | lia].
  - eapply sched_at_weaken; [|exact Ha]. lia.
Qed.

(** The current count. *)
Definition ttcr_now (s : Sim) : Z :=
  if nz (s Tick_counting) then u32 (s Cycles - s Cycle_count_at_tick_start) else s (SPR SPR_TTCR).

Lemma sched_timer_job_run prev s :
  typed s -> 0 <= prev < 2 ^ 32 -> queue_good (job_queue s) -> (2 <= length (free_jobs s))%nat ->
  wp (sched_timer_job prev)
     (fun _ => sched_at s (timer_jobs prev (s (SPR SPR_TTMR)) (ttcr_now s) (nz (s Tick_counting))
                             (absq 0 (job_queue s))) 0) s.
Proof.
  intros Hty Hprev Hg Hfr. pose proof (typed_u32 s (SPR SPR_TTMR) Hty eq_refl) as Hm.
  unfold sched_timer_job. wps. unfold spr_read_ttcr.
  apply wpx_bind with (m := bind (isset Tick_counting) _).
  eapply (wpx_eq _ (ttcr_now s) s).
  { unfold ttcr_now, bind, isset, rd, ret. cbn. by destruct (nz (s Tick_counting)). }
  cbv beta zeta. rewrite cycles_until_except_spec.
  pose proof (until_match_range (s (SPR SPR_TTMR)) (ttcr_now s)) as Hc.
  destruct (land_mode _ Hm) as [_ Hrange].
  change SPR_TTMR_IE with (2 ^ 29). change SPR_TTMR_IP with (2 ^ 28).
  rewrite !nz_land_bit by lia. cbn [switch existsb]. rewrite !orb_false_r.
  change SPR_TTMR_RT with (1 * 2 ^ 30). change SPR_TTMR_SR with (2 * 2 ^ 30).
  change SPR_TTMR_CR with (3 * 2 ^ 30).
  replace (Z.land (s (SPR SPR_TTMR)) SPR_TTMR_M =? 0) with (tick_mode (s (SPR SPR_TTMR)) =? 0)
    by (symmetry; exact (land_mode_eqb _ 0 Hm)).
  rewrite !land_mode_eqb by assumption. unfold timer_jobs.
  set (c := until_match _ _) in *. set (ttmr := s (SPR SPR_TTMR)) in *.
  set (raising := Z.testbit ttmr 29 && negb (Z.testbit ttmr 28)).
  set (l0 := absq 0 (job_queue s)).
  set (l1 := if Z.testbit prev 29 && negb (Z.testbit ttmr 28)
             then remove_first J_tick_raise_except 0 l0 else l0).
  set (l2 := if tick_mode prev =? 1 then remove_first J_tick_restart 0 l1
             else if tick_mode prev =? 2 then remove_first J_tick_one_shot 0 l1 else l1).
  apply wpx_bind. eapply wpx_mono with (E := fun _ _ => False) (Q := fun _ => sched_at s l1 2); [|done|].
  { apply wpx_when; intros H; unfold l1; rewrite H.
    - apply wp_find_remove; [by apply sched_at_refl | done].
    - by apply sched_at_refl. }
  intros _ s1 H1. cbv beta.
  apply wpx_bind. eapply wpx_mono with (E := fun _ _ => False) (Q := fun _ => sched_at s l2 2); [|done|].
  { unfold l2. destruct (tick_mode prev =? 1); [|destruct (tick_mode prev =? 2)].
    - by apply wp_find_remove.
    - by apply wp_find_remove.
    - exact H1. }
  intros _ s2 H2. cbv beta.
  assert (H21 : sched_at s l2 1 s2) by (eapply sched_at_weaken; [|exact H2]; lia).
  assert (H20 : sched_at s l2 0 s2) by (eapply sched_at_weaken; [|exact H2]; lia).
  destruct (tick_mode ttmr =? 0) eqn:E0; [|destruct (tick_mode ttmr =? 1) eqn:E1;
    [|destruct (tick_mode ttmr =? 2) eqn:E2; [|destruct (tick_mode ttmr =? 3) eqn:E3]]].
  - destruct (Z.eqb_spec c 0) as [->|Hne]; cbn [nz Z.eqb negb andb].
    + by apply wp_raise.
    + replace (nz c) with true by (symmetry; by apply nz_spec). exact H20.
  - apply wpx_bind. eapply wpx_mono; [apply wp_add; [exact H2 | lia] | done |].
    intros u s3 H3. by apply wp_raise.
  - wps.
    + rewrite (sched_at_cell _ _ _ _ _ H2) in *. rewrite H.
      eapply wpx_mono; [apply wp_add; [exact H2 | lia] | done |].
      intros u s3 H3. by apply wp_raise.
    + rewrite (sched_at_cell _ _ _ _ _ H2) in *. by rewrite H.
  - by apply wp_raise.
  - lia.
Qed.

Lemma nz_s32_mode x : 0 <= x < 2 ^ 32 -> nz (s32 (Z.land x SPR_TTMR_M)) = negb (tick_mode x =? 0).
Proof.
  intros Hx. destruct (land_mode x Hx) as [-> H].
  destruct (Z.eqb_spec (tick_mode x) 0) as [->|Hne]; [reflexivity|].
  cbn [negb]. apply nz_spec. intros E. apply (f_equal u32) in E. rewrite u32_s32 in E.
  rewrite u32_small in E by lia. change (u32 0) with 0 in E. lia.
Qed.

(** The state on which [spr_write_ttmr] calls [sched_timer_job]. *)
Definition ttmr_state (s : Sim) : Sim :=
  let s := upd (SPR SPR_TTMR) (Z.land (s (SPR SPR_TTMR)) (Z.lnot SPR_TTMR_IP)) s in
  let s' := if nz (s Tick_counting) then upd (SPR SPR_TTCR) (s Cycles - s Cycle_count_at_tick_start) s else s in
  upd Cycle_count_at_tick_start (s' Cycles - s' (SPR SPR_TTCR)) s'.

Lemma ttcr_now_ttmr_state v (s : Sim) :
  typed s -> ttcr_now (upd Tick_counting v (ttmr_state s)) = ttcr_now s.
Proof.
  intros Hty. pose proof (typed_u32 s (SPR SPR_TTCR) Hty eq_refl) as Ht.
  unfold ttcr_now, ttmr_state. cbv zeta. look.
  destruct (nz (s Tick_counting)) eqn:E; look; destruct (nz (s32 v)); try done;
    rewrite u32_sub_s64.
  - replace (s Cycles - (s Cycles - u32 (s Cycles - s Cycle_count_at_tick_start)))
      with (u32 (s Cycles - s Cycle_count_at_tick_start)) by lia. apply wrap_wrap.
  - rewrite u32_small; lia.
Qed.

(** C39: a write to [TTMR] clears the pending bit, leaves the count where it is,
    runs the counter exactly in the modes that count, and replaces the timer's
    jobs on the scheduler's queue: the jobs of the old mode go, and those of the
    new mode are due when the low 28 bits of the count next match, every other
    job keeping its time. *)
Theorem spr_write_ttmr_refines prev s :
  typed s -> 0 <= prev < 2 ^ 32 -> queue_good (job_queue s) -> (2 <= length (free_jobs s))%nat ->
  exists s', spr_write_ttmr prev s = Ok tt s' /\
    s' (SPR SPR_TTMR) = Z.land (s (SPR SPR_TTMR)) (Z.lnot SPR_TTMR_IP) /\
    ttcr_now s' = ttcr_now s /\
    nz (s' Tick_counting) = negb (tick_mode (s (SPR SPR_TTMR)) =? 0) /\
    queue_good (job_queue s') /\
    absq 0 (job_queue s') =
      timer_jobs prev (s' (SPR SPR_TTMR)) (ttcr_now s) (nz (s' Tick_counting)) (absq 0 (job_queue s)).
Proof.
  intros Hty Hprev Hg Hfr. pose proof (typed_u32 s (SPR SPR_TTMR) Hty eq_refl) as Hm.
  apply wp_unit. unfold spr_write_ttmr.
  set (v := Z.land (s (SPR SPR_TTMR)) SPR_TTMR_M).
  assert (Hs2 : wp (sched_timer_job prev) (fun _ s' =>
      sched_at (upd Tick_counting v (ttmr_state s))
        (timer_jobs prev (Z.land (s (SPR SPR_TTMR)) (Z.lnot SPR_TTMR_IP)) (ttcr_now s) (nz (s32 v))
           (absq 0 (job_queue s))) 0 s') (upd Tick_counting v (ttmr_state s))).
  { assert (Hty' : typed (upd Tick_counting v (ttmr_state s))).
    { unfold ttmr_state. cbv zeta. repeat apply upd_typed. destruct (nz _); repeat apply upd_typed; exact Hty. }
    assert (Hq : job_queue (upd Tick_counting v (ttmr_state s)) = job_queue s /\
                 free_jobs (upd Tick_counting v (ttmr_state s)) = free_jobs s).
    { unfold ttmr_state. cbv zeta. look. by destruct (nz (s Tick_counting)). }
    destruct Hq as [Hq Hf].
    eapply wpx_mono; [apply sched_timer_job_run; rewrite ?Hq, ?Hf; assumption | done |].
    intros u s' Hat. cbv beta in Hat. rewrite ttcr_now_ttmr_state, Hq in Hat by exact Hty.
    replace ((upd Tick_counting v (ttmr_state s)) (SPR SPR_TTMR))
      with (Z.land (s (SPR SPR_TTMR)) (Z.lnot SPR_TTMR_IP)) in Hat.
    - rewrite upd_eq in Hat. exact Hat.
    - look. unfold ttmr_state. cbv zeta. look. destruct (nz (s Tick_counting)); look;
        symmetry; apply u32_small, land_range; lia. }
  assert (Hend : wp (sched_timer_job prev) (fun _ s' =>
    s' (SPR SPR_TTMR) = Z.land (s (SPR SPR_TTMR)) (Z.lnot SPR_TTMR_IP) /\
    ttcr_now s' = ttcr_now s /\
    nz (s' Tick_counting) = negb (tick_mode (s (SPR SPR_TTMR)) =? 0) /\
    queue_good (job_queue s') /\
    absq 0 (job_queue s') =
      timer_jobs prev (s' (SPR SPR_TTMR)) (ttcr_now s) (nz (s' Tick_counting)) (absq 0 (job_queue s)))
    (upd Tick_counting v (ttmr_state s))).
  { eapply wpx_mono; [exact Hs2 | done |]. intros u s' (q & fr & -> & Hgq & Ha & _).
    change (ttcr_now (set_queue q fr (upd Tick_counting v (ttmr_state s))))
      with (ttcr_now (upd Tick_counting v (ttmr_state s))).
    rewrite ttcr_now_ttmr_state by exact Hty. look.
    replace (nz (s32 v)) with (negb (tick_mode (s (SPR SPR_TTMR)) =? 0)) in *
      by (symmetry; exact (nz_s32_mode _ Hm)).
    assert (Ht : ttmr_state s (SPR SPR_TTMR) = Z.land (s (SPR SPR_TTMR)) (Z.lnot SPR_TTMR_IP)).
    { unfold ttmr_state. cbv zeta. look. destruct (nz (s Tick_counting)); look;
        apply u32_small, land_range; lia. }
    rewrite Ht. by split_and!. }
  unfold ttmr_state, v in Hend. cbv zeta in Hend.
  rewrite (upd_ne (SPR SPR_TTMR) Tick_counting) in Hend by discriminate.
  wps; match goal with H : nz _ = _ |- _ => rewrite H in Hend end; revert Hend; look; exact id.
Qed.

Lemma ttcr_read_later v d (s s1 : Sim) :
  nz (s Tick_counting) = true -> spr_write_ttcr v s = Ok tt s1 ->
  spr_read_ttcr (upd Cycles (s1 Cycles + d) s1) = Ok (u32 (v + d)) (upd Cycles (s1 Cycles + d) s1).
Proof.
  intros Hc E. unfold spr_write_ttcr in E.
  assert (Hs1 : forall c, c <> G Cycle_count_at_tick_start -> s1 c = s c).
  { intros c Hne. unfold bind, rd, wr in E. eapply (frame_ok (foot [])) in E; [|apply _|discriminate].
    rewrite E. by apply upd_ne. }
  assert (Hst : s1 Cycle_count_at_tick_start = s64 (s Cycles - v)).
  { unfold bind, rd, wr in E. eapply (frame_ok (foot [])) in E; [|apply _|discriminate].
    rewrite E. apply upd_eq. }
  unfold spr_read_ttcr, isset, bind, rd, ret. cbv beta iota. look.
  rewrite (Hs1 Tick_counting), Hc by discriminate. cbn [negb]. cbv beta iota. look.
  rewrite Hst, Hs1, u32_sub_s64, u32_s64_sub by discriminate. do 2 f_equal. lia.
Qed.

(** A write of [v] to a running count succeeds, and reading the count [d]
    cycles later gives [v + d] modulo [2^32]. *)
Theorem ttcr_write_read v s :
  typed s -> nz (s Tick_counting) = true ->
  queue_good (job_queue s) -> (2 <= length (free_jobs s))%nat ->
  exists s1, spr_write_ttcr v s = Ok tt s1 /\
    forall d, spr_read_ttcr (upd Cycles (s1 Cycles + d) s1)
              = Ok (u32 (v + d)) (upd Cycles (s1 Cycles + d) s1).
Proof.
  intros Hty Hc Hg Hf.
  destruct (wp_unit (spr_write_ttcr v) (fun _ => True) s) as (s1 & E & _).
  - unfold spr_write_ttcr. wps.
    eapply wpx_mono; [apply sched_timer_job_run; try assumption | done | done].
    + by apply upd_typed.
    + exact (typed_u32 s (SPR SPR_TTMR) Hty eq_refl).
  - exists s1. split; [exact E|]. intros d. by apply (ttcr_read_later v d s).
Qed.

(** ** Witnesses *)

(** A continuous-mode timer matching at 100, with the count at 40. *)
Definition ex_tick : Sim :=
  set_queue [SchedEntry 50 1 (J_device 0); SchedEntry 1000 0 J_sched_guard]
    [SchedEntry 0 0 J_sched_guard; SchedEntry 0 0 J_sched_guard]
    (upd (SPR SPR_TTMR) 0xf0000064 (upd Tick_counting 1 (upd Cycles 140
      (upd Cycle_count_at_tick_start 100 zero_state)))).

Lemma ex_tick_typed : typed ex_tick.
Proof. do 4 apply (upd_typed _ _ _). exact zero_typed. Qed.

Lemma ex_tick_good : queue_good (job_queue ex_tick).
Proof.
  split.
  - unfold queue_ok; cbn. queue_facts.
  - split; [cbn; apply List.Exists_cons_tl, List.Exists_cons_hd; reflexivity|].
    intros j r [= <- <-]. split; [closed_Z|]. unfold SCHED_TIME_MAX. queue_facts.
Qed.

Lemma spr_write_ttmr_refines_witness :
  exists s', spr_write_ttmr 0 ex_tick = Ok tt s' /\ s' (SPR SPR_TTMR) = 0xe0000064 /\
    absq 0 (job_queue s') =
      [(50, 1, J_device 0); (60, 0, J_tick_raise_except); (1050, 0, J_sched_guard)].
Proof.
  destruct (spr_write_ttmr_refines 0 ex_tick ex_tick_typed ltac:(closed_Z) ex_tick_good ltac:(cbn; lia))
    as (s' & E & H1 & H2 & H3 & _ & H5).
  exists s'. split; [exact E|]. split; [exact H1|]. rewrite H5, H1, H3. vm_compute. reflexivity.
Defined.

Lemma ttcr_write_read_witness :
  exists s1, spr_write_ttcr 7 ex_tick = Ok tt s1 /\
    forall d, spr_read_ttcr (upd Cycles (s1 Cycles + d) s1)
              = Ok (u32 (7 + d)) (upd Cycles (s1 Cycles + d) s1).
Proof. apply (ttcr_write_read 7 ex_tick ex_tick_typed eq_refl ex_tick_good). cbn. lia. Defined.

End Tick.
