(* ===== verification/Mem.v ===== *)
(** * Memory areas and memory blocks
    (cpu/common/abstract.c up to the [setsim_mem*] functions, peripheral/memory.c)

    Physical addresses are resolved by a list of memory areas, each with the
    functions that read and write it.  A memory block stores words in host
    (little-endian) byte order, so the byte and halfword functions flip address
    bits; [be_byte] is the big-endian byte array that the functions implement. *)

From S2P Require Export Except.

Import Except.

(** What peripherals promise to the memory interface: their access functions
    keep every variable in the range of its type and leave the CPU's registers
    alone, but may raise an interrupt. *)
Class Devices := {
  dev_read : device -> Z -> Z -> M Z;            (* bytes, offset *)
  dev_write : device -> Z -> Z -> Z -> M unit;   (* bytes, offset, value *)
  dev_reset : device -> M unit;
  mc_reg_mem_area : nat -> Z -> Z -> M unit;  (* peripheral/mc.c *)
  dev_read_typed : forall R `{!Enters R} d w a, Respects R (dev_read d w a);
  dev_write_typed : forall R `{!Enters R} d w a v, Respects R (dev_write d w a v);
  dev_reset_typed : forall R `{!Enters R} d, Respects R (dev_reset d);
  mc_reg_mem_area_typed : forall R `{!Enters R} i ce mc, Respects R (mc_reg_mem_area i ce mc) }.
#[export] Existing Instances dev_read_typed dev_write_typed dev_reset_typed mc_reg_mem_area_typed.

(** A system without peripherals. *)
Definition no_devices : Devices.
Proof.
  refine {| dev_read := fun _ _ _ => ret 0; dev_write := fun _ _ _ _ => ret tt;
            dev_reset := fun _ => ret tt; mc_reg_mem_area := fun _ _ _ => ret tt |};
    intros; respects.
Defined.

Module Mem.

(** ** Memory blocks (peripheral/memory.c) *)

(** An access outside the [malloc]ed block is undefined. *)
Definition in_block (block addr n : Z) : M unit :=
  bs ← gets blocks;
  match bs !! Z.to_nat block with
  | Some size => if (0 <=? addr) && (addr + n <=? size) then ret tt else stop_with Undefined
  | None => stop_with Undefined
  end.

Definition simmem_read32 (block addr : Z) : M Z :=
  in_block block addr 4;;
  b0 ← rd (Mem block addr); b1 ← rd (Mem block (addr + 1));
  b2 ← rd (Mem block (addr + 2)); b3 ← rd (Mem block (addr + 3));
  ret (b0 + b1 * 2 ^ 8 + b2 * 2 ^ 16 + b3 * 2 ^ 24).
Definition simmem_read16 (block addr : Z) : M Z :=
  let a := Z.lxor addr 2 in
  in_block block a 2;;
  b0 ← rd (Mem block a); b1 ← rd (Mem block (a + 1));
  ret (b0 + b1 * 2 ^ 8).
Definition simmem_read8 (block addr : Z) : M Z :=
  let a := Z.lxor addr 3 in
  in_block block a 1;; rd (Mem block a).

Definition simmem_write32 (block addr value : Z) : M unit :=
  in_block block addr 4;;
  wr (Mem block addr) value;; wr (Mem block (addr + 1)) (Z.shiftr value 8);;
  wr (Mem block (addr + 2)) (Z.shiftr value 16);; wr (Mem block (addr + 3)) (Z.shiftr value 24).
Definition simmem_write16 (block addr value : Z) : M unit :=
  let a := Z.lxor addr 2 in
  in_block block a 2;;
  wr (Mem block a) value;; wr (Mem block (a + 1)) (Z.shiftr value 8).
Definition simmem_write8 (block addr value : Z) : M unit :=
  let a := Z.lxor addr 3 in
  in_block block a 1;; wr (Mem block a) value.

Definition simmem_read_zero (addr : Z) : M Z := ret 0.
Definition simmem_write_null (addr value : Z) : M unit := ret tt.

(** [mem_reset]; [rnd i] is the [i]-th value of [random ()] after the seeding. *)
Definition mem_reset (rnd : Z -> Z) (mem : mem_config) : M unit :=
  let fill f := for_ (Z.to_nat (mem_size mem)) 0 1 (fun i => wr (Mem (mem_block mem) i) (f i)) in
  match mem_typ mem with
  | MT_RANDOM => fill (fun i => Z.land (rnd i) 0xff)
  | MT_PATTERN => fill (fun i => mem_pattern mem)
  | MT_UNKNOWN => ret tt
  | MT_EXITNOPS =>
      fill (fun i => let k := Z.land i 0x3 in
                     if k =? 3 then 0x15 else if k =? 0 then 0x01 else 0x00)
  end.

(** ** The invalid-access functions (abstract.c) *)

Definition eval_mem_inv : M Z := v ← rd Cur_vadd; except_handle EXCEPT_BUSERR v;; ret 0.
Definition set_mem_inv : M unit := v ← rd Cur_vadd; except_handle EXCEPT_BUSERR v.
Definition eval_mem_inv_direct : M Z := ret 0.
Definition set_mem_inv_direct : M unit := ret tt.

(** ** Memory areas *)

(** [bit_mask]; shifting an [uint32_t] by 32 is undefined. *)
Fixpoint bit_mask_loop (fuel : nat) (data i : Z) : M Z :=
  match fuel with
  | O => stop_with Out_of_fuel
  | S fuel' =>
      if 32 <=? i then stop_with Undefined
      else if nz (Z.shiftr data i) then bit_mask_loop fuel' (u32 (Z.lor data (Z.shiftl 1 i))) (i + 1)
      else ret data
  end.
Definition bit_mask (data : Z) : M Z := bit_mask_loop 34 (u32 (data - 1)) 0.

(** The test for an overlap with an existing area. *)
Definition areas_overlap (compare size : Z) (a : dev_memarea) : bool :=
  let last := u32 (addr_compare a + area_size a) in
  ((addr_compare a <=? compare) && (compare <? last))
  || ((addr_compare a <? u32 (compare + size)) && (compare <? last)).

Definition empty_ops : mem_ops :=
  MemOps Fn_null Fn_null Fn_null Fn_null Fn_null Fn_null Fn_null Fn_null 0 0 false.

(** Appends an area to the list and returns its position. *)
Definition register_memoryarea_mask (mask compare size : Z) (mc_dev : bool) : M nat :=
  smask ← bit_mask size;
  let compare := Z.land compare mask in
  l ← gets dev_list;
  if existsb (areas_overlap compare size) l then stop_with Exited
  else
    let i := length l in
    modify (set_areas (l ++ [DevMemarea mask compare size smask 1 false empty_ops empty_ops]));;
    modify (set_cur_area (Some i));;
    (if mc_dev then modify (set_mc_area (Some i)) else ret tt);;
    ret i.

Definition if_null (f g : memfn) : memfn := match f with Fn_null => g | _ => f end.

(** The two function tables [reg_mem_area] builds from the given one. *)
Definition area_ops (o : mem_ops) : mem_ops :=
  let w32 := if_null (writefunc32 o) Fn_inv in
  let w8 := if_null (writefunc8 o) Fn_inv in
  MemOps (if_null (readfunc32 o) Fn_inv) (if_null (readfunc16 o) Fn_inv)
         (if_null (readfunc8 o) Fn_inv) w32 (if_null (writefunc16 o) Fn_inv) w8
         (if_null (writeprog32 o) w32) (if_null (writeprog8 o) w8) (delayr o) (delayw o) (ops_log o).
Definition area_direct_ops (o : mem_ops) : mem_ops :=
  MemOps (if_null (readfunc32 o) Fn_inv_direct) (if_null (readfunc16 o) Fn_inv_direct)
         (if_null (readfunc8 o) Fn_inv_direct) (if_null (writefunc32 o) Fn_inv_direct)
         (if_null (writefunc16 o) Fn_inv_direct) (if_null (writefunc8 o) Fn_inv_direct)
         (writeprog32 o) (writeprog8 o) (delayr o) (delayw o) (ops_log o).

(** Update of the [i]-th area in place. *)
Definition set_area (i : nat) (f : dev_memarea -> dev_memarea) : M unit :=
  l ← gets dev_list; modify (set_areas (alter f i l)).

Definition reg_mem_area (addr size : Z) (mc_dev : bool) (o : mem_ops) : M nat :=
  smask ← bit_mask size;
  let mask := u32 (Z.lnot smask) in
  i ← register_memoryarea_mask mask (Z.land addr mask) (u32 (smask + 1)) mc_dev;
  set_area i (fun a => DevMemarea (addr_mask a) (addr_compare a) (area_size a) (size_mask a)
                         (valid a) (ops_log o) (area_ops o) (area_direct_ops o));;
  ret i.

(** [(addr & mem->addr_mask) == (mem->addr_compare & mem->addr_mask)] *)
Definition area_hit (addr : Z) (a : dev_memarea) : bool :=
  Z.land addr (addr_mask a) =? Z.land (addr_compare a) (addr_mask a).

Fixpoint find_area (addr : Z) (i : nat) (l : list dev_memarea) : option nat :=
  match l with
  | [] => None
  | a :: r => if area_hit addr a && nz (valid a) then Some i else find_area addr (S i) r
  end.

(** Does the area a pointer designates match? *)
Definition ptr_hit (addr : Z) (l : list dev_memarea) (p : option nat) : bool :=
  match p ≫= (fun i => l !! i) with Some a => area_hit addr a | None => false end.

Definition verify_memoryarea (addr : Z) : M (option nat) :=
  l ← gets dev_list; mc ← gets mc_area; cur ← gets cur_area;
  if ptr_hit addr l mc then modify (set_cur_area mc);; ret mc
  else if ptr_hit addr l cur then ret cur
  else let r := find_area addr 0 l in modify (set_cur_area r);; ret r.

Definition set_mem_valid (i : nat) (v : Z) : M unit :=
  set_area i (fun a => DevMemarea (addr_mask a) (addr_compare a) (area_size a) (size_mask a)
                         v (area_log a) (ops a) (direct_ops a)).

Definition adjust_rw_delay (i : nat) (dr dw : Z) : M unit :=
  set_area i (fun a =>
    let o := ops a in
    DevMemarea (addr_mask a) (addr_compare a) (area_size a) (size_mask a) (valid a) (area_log a)
      (MemOps (readfunc32 o) (readfunc16 o) (readfunc8 o) (writefunc32 o) (writefunc16 o)
         (writefunc8 o) (writeprog32 o) (writeprog8 o) dr dw (ops_log o)) (direct_ops a)).

Section Access.
Context `{Devices}.

(** Calls through the function pointers. *)
Definition call_read32 (f : memfn) (addr : Z) : M Z :=
  match f with
  | Fn_null => stop_with Null_deref
  | Fn_simmem b => simmem_read32 b addr
  | Fn_simmem_zero => simmem_read_zero addr
  | Fn_inv => eval_mem_inv
  | Fn_inv_direct => eval_mem_inv_direct
  | Fn_device d => v ← dev_read d 4 addr; ret (u32 v)
  end.
Definition call_read16 (f : memfn) (addr : Z) : M Z :=
  match f with
  | Fn_null => stop_with Null_deref
  | Fn_simmem b => simmem_read16 b addr
  | Fn_simmem_zero => simmem_read_zero addr
  | Fn_inv => eval_mem_inv
  | Fn_inv_direct => eval_mem_inv_direct
  | Fn_device d => v ← dev_read d 2 addr; ret (u16 v)
  end.
Definition call_read8 (f : memfn) (addr : Z) : M Z :=
  match f with
  | Fn_null => stop_with Null_deref
  | Fn_simmem b => simmem_read8 b addr
  | Fn_simmem_zero => simmem_read_zero addr
  | Fn_inv => eval_mem_inv
  | Fn_inv_direct => eval_mem_inv_direct
  | Fn_device d => v ← dev_read d 1 addr; ret (u8 v)
  end.
Definition call_write32 (f : memfn) (addr value : Z) : M unit :=
  match f with
  | Fn_null => stop_with Null_deref
  | Fn_simmem b => simmem_write32 b addr value
  | Fn_simmem_zero => simmem_write_null addr value
  | Fn_inv => set_mem_inv
  | Fn_inv_direct => set_mem_inv_direct
  | Fn_device d => dev_write d 4 addr value
  end.
Definition call_write16 (f : memfn) (addr value : Z) : M unit :=
  match f with
  | Fn_null => stop_with Null_deref
  | Fn_simmem b => simmem_write16 b addr value
  | Fn_simmem_zero => simmem_write_null addr value
  | Fn_inv => set_mem_inv
  | Fn_inv_direct => set_mem_inv_direct
  | Fn_device d => dev_write d 2 addr value
  end.
Definition call_write8 (f : memfn) (addr value : Z) : M unit :=
  match f with
  | Fn_null => stop_with Null_deref
  | Fn_simmem b => simmem_write8 b addr value
  | Fn_simmem_zero => simmem_write_null addr value
  | Fn_inv => set_mem_inv
  | Fn_inv_direct => set_mem_inv_direct
  | Fn_device d => dev_write d 1 addr value
  end.

(** The area behind a pointer into the list. *)
Definition area_at (i : nat) : M dev_memarea :=
  l ← gets dev_list;
  match l !! i with Some a => ret a | None => stop_with Null_deref end.

Definition evalsim_mem32 (memaddr vaddr : Z) : M Z :=
  mem ← verify_memoryarea memaddr;
  match mem with
  | Some i =>
      a ← area_at i;
      adds Mem_cycles (delayr (ops a));;
      call_read32 (readfunc32 (ops a)) (Z.land memaddr (size_mask a))
  | None => except_handle EXCEPT_BUSERR vaddr;; ret 0
  end.
Definition evalsim_mem16 (memaddr vaddr : Z) : M Z :=
  mem ← verify_memoryarea memaddr;
  match mem with
  | Some i =>
      a ← area_at i;
      adds Mem_cycles (delayr (ops a));;
      call_read16 (readfunc16 (ops a)) (Z.land memaddr (size_mask a))
  | None => except_handle EXCEPT_BUSERR vaddr;; ret 0
  end.
Definition evalsim_mem8 (memaddr vaddr : Z) : M Z :=
  mem ← verify_memoryarea memaddr;
  match mem with
  | Some i =>
      a ← area_at i;
      adds Mem_cycles (delayr (ops a));;
      call_read8 (readfunc8 (ops a)) (Z.land memaddr (size_mask a))
  | None => except_handle EXCEPT_BUSERR vaddr;; ret 0
  end.

Definition setsim_mem32 (memaddr vaddr value : Z) : M unit :=
  mem ← verify_memoryarea memaddr;
  match mem with
  | Some i =>
      a ← area_at i;
      wr Cur_vadd vaddr;;
      adds Mem_cycles (delayw (ops a));;
      call_write32 (writefunc32 (ops a)) (Z.land memaddr (size_mask a)) (u32 value)
  | None => except_handle EXCEPT_BUSERR vaddr
  end.
Definition setsim_mem16 (memaddr vaddr value : Z) : M unit :=
  mem ← verify_memoryarea memaddr;
  match mem with
  | Some i =>
      a ← area_at i;
      wr Cur_vadd vaddr;;
      adds Mem_cycles (delayw (ops a));;
      call_write16 (writefunc16 (ops a)) (Z.land memaddr (size_mask a)) (u16 value)
  | None => except_handle EXCEPT_BUSERR vaddr
  end.
Definition setsim_mem8 (memaddr vaddr value : Z) : M unit :=
  mem ← verify_memoryarea memaddr;
  match mem with
  | Some i =>
      a ← area_at i;
      wr Cur_vadd vaddr;;
      adds Mem_cycles (delayw (ops a));;
      call_write8 (writefunc8 (ops a)) (Z.land memaddr (size_mask a)) (u8 value)
  | None => except_handle EXCEPT_BUSERR vaddr
  end.

(** Program loading writes through the [writeprog*] functions. *)
Definition set_program32 (memaddr value : Z) : M unit :=
  if nz (Z.land memaddr 3) then ret tt
  else
    mem ← verify_memoryarea memaddr;
    match mem with
    | Some i =>
        a ← area_at i;
        call_write32 (writeprog32 (ops a)) (Z.land memaddr (size_mask a)) (u32 value)
    | None => ret tt
    end.
Definition set_program8 (memaddr value : Z) : M unit :=
  mem ← verify_memoryarea memaddr;
  match mem with
  | Some i =>
      a ← area_at i;
      call_write8 (writeprog8 (ops a)) (Z.land memaddr (size_mask a)) (u8 value)
  | None => ret tt
  end.

(** ** Configuration of a memory block (memory.c) *)

Definition memory_sec_start : mem_config :=
  MemConfig (-1) 0 0 1024 1 1 0 (-1) MT_UNKNOWN false 0.

Definition memory_ops (mem : mem_config) (b : Z) : mem_ops :=
  let r := if 0 <? mem_delayr mem then Fn_simmem b else Fn_simmem_zero in
  let w := if 0 <? mem_delayw mem then Fn_simmem b else Fn_simmem_zero in
  MemOps r r r w w w (Fn_simmem b) (Fn_simmem b) (mem_delayr mem) (mem_delayw mem) (mem_log mem).

Definition memory_sec_end (mem : mem_config) : M unit :=
  if mem_size mem =? 0 then ret tt
  else
    let size := if nz (Z.land (mem_size mem) 3)
                then u32 (Z.land (mem_size mem) (Z.lnot 3) + 4) else mem_size mem in
    bs ← gets blocks;
    let b := Z.of_nat (length bs) in
    modify (set_blocks (bs ++ [size]));;
    i ← reg_mem_area (mem_baseaddr mem) size false (memory_ops mem b);
    set_mem_valid i 1;;
    when (0 <=? mem_ce mem) (mc_reg_mem_area i (mem_ce mem) (mem_mc mem));;
    h ← gets reset_hooks;
    modify (set_hooks (R_mem_reset
      (MemConfig (mem_ce mem) (mem_mc mem) (mem_baseaddr mem) size (mem_delayr mem) (mem_delayw mem)
         (mem_pattern mem) (mem_random_seed mem) (mem_typ mem) (mem_log mem) b) :: h)).
End Access.

(** ** Typing *)

#[export] Hint Opaque in_block simmem_read32 simmem_read16 simmem_read8 simmem_write32 simmem_write16
  simmem_write8 mem_reset eval_mem_inv set_mem_inv verify_memoryarea area_at
  call_read32 call_read16 call_read8 call_write32 call_write16 call_write8
  evalsim_mem32 evalsim_mem16 evalsim_mem8 setsim_mem32 setsim_mem16 setsim_mem8
  set_program32 set_program8 bit_mask register_memoryarea_mask reg_mem_area set_mem_valid memory_sec_end
  : typeclass_instances.
#[export] Instance in_block_typed R `{!Enters R} b a n : Respects R (in_block b a n).
Proof. unfold in_block. respects. Qed.
#[export] Instance simmem_read32_typed R `{!Enters R} b a : Respects R (simmem_read32 b a).
Proof. unfold simmem_read32. respects. Qed.
#[export] Instance simmem_read16_typed R `{!Enters R} b a : Respects R (simmem_read16 b a).
Proof. unfold simmem_read16. respects. Qed.
#[export] Instance simmem_read8_typed R `{!Enters R} b a : Respects R (simmem_read8 b a).
Proof. unfold simmem_read8. respects. Qed.
#[export] Instance simmem_write32_typed R `{!Enters R} b a v : Respects R (simmem_write32 b a v).
Proof. unfold simmem_write32. respects. Qed.
#[export] Instance simmem_write16_typed R `{!Enters R} b a v : Respects R (simmem_write16 b a v).
Proof. unfold simmem_write16. respects. Qed.
#[export] Instance simmem_write8_typed R `{!Enters R} b a v : Respects R (simmem_write8 b a v).
Proof. unfold simmem_write8. respects. Qed.
#[export] Instance mem_reset_typed R `{!Enters R} r m : Respects R (mem_reset r m).
Proof. unfold mem_reset. respects. Qed.
#[export] Instance eval_mem_inv_typed R `{!Enters R} : Respects R eval_mem_inv.
Proof. unfold eval_mem_inv. respects. Qed.
#[export] Instance set_mem_inv_typed R `{!Enters R} : Respects R set_mem_inv.
Proof. unfold set_mem_inv. respects. Qed.
#[export] Instance verify_memoryarea_typed R `{!Enters R} a : Respects R (verify_memoryarea a).
Proof. unfold verify_memoryarea. respects. Qed.
#[export] Instance area_at_typed R `{!Enters R} i : Respects R (area_at i).
Proof. unfold area_at. respects. Qed.

Section AccessTyped.
Context `{Devices}.
#[export] Instance call_read32_typed R `{!Enters R} f a : Respects R (call_read32 f a).
Proof. unfold call_read32, simmem_read_zero, eval_mem_inv_direct. respects. Qed.
#[export] Instance call_read16_typed R `{!Enters R} f a : Respects R (call_read16 f a).
Proof. unfold call_read16, simmem_read_zero, eval_mem_inv_direct. respects. Qed.
#[export] Instance call_read8_typed R `{!Enters R} f a : Respects R (call_read8 f a).
Proof. unfold call_read8, simmem_read_zero, eval_mem_inv_direct. respects. Qed.
#[export] Instance call_write32_typed R `{!Enters R} f a v : Respects R (call_write32 f a v).
Proof. unfold call_write32, simmem_write_null, set_mem_inv_direct. respects. Qed.
#[export] Instance call_write16_typed R `{!Enters R} f a v : Respects R (call_write16 f a v).
Proof. unfold call_write16, simmem_write_null, set_mem_inv_direct. respects. Qed.
#[export] Instance call_write8_typed R `{!Enters R} f a v : Respects R (call_write8 f a v).
Proof. unfold call_write8, simmem_write_null, set_mem_inv_direct. respects. Qed.
#[export] Instance evalsim_mem32_typed R `{!Enters R} a v : Respects R (evalsim_mem32 a v).
Proof. unfold evalsim_mem32. respects. Qed.
#[export] Instance evalsim_mem16_typed R `{!Enters R} a v : Respects R (evalsim_mem16 a v).
Proof. unfold evalsim_mem16. respects. Qed.
#[export] Instance evalsim_mem8_typed R `{!Enters R} a v : Respects R (evalsim_mem8 a v).
Proof. unfold evalsim_mem8. respects. Qed.
#[export] Instance setsim_mem32_typed R `{!Enters R} a v x : Respects R (setsim_mem32 a v x).
Proof. unfold setsim_mem32. respects. Qed.
#[export] Instance setsim_mem16_typed R `{!Enters R} a v x : Respects R (setsim_mem16 a v x).
Proof. unfold setsim_mem16. respects. Qed.
#[export] Instance setsim_mem8_typed R `{!Enters R} a v x : Respects R (setsim_mem8 a v x).
Proof. unfold setsim_mem8. respects. Qed.
#[export] Instance set_program32_typed R `{!Enters R} a x : Respects R (set_program32 a x).
Proof. unfold set_program32. respects. Qed.
#[export] Instance set_program8_typed R `{!Enters R} a x : Respects R (set_program8 a x).
Proof. unfold set_program8. respects. Qed.
#[export] Instance bit_mask_typed R `{!Enters R} d : Respects R (bit_mask d).
Proof.
  unfold bit_mask. generalize (u32 (d - 1)) 0. intros v i. revert v i.
  generalize 34%nat. intros n. induction n as [|n IH]; intros v i; cbn [bit_mask_loop]; respects.
Qed.
#[export] Instance register_memoryarea_mask_typed R `{!Enters R} m c n d : Respects R (register_memoryarea_mask m c n d).
Proof. unfold register_memoryarea_mask. respects. Qed.
#[export] Instance reg_mem_area_typed R `{!Enters R} a n d o : Respects R (reg_mem_area a n d o).
Proof. unfold reg_mem_area, set_area. respects. Qed.
#[export] Instance set_mem_valid_typed R `{!Enters R} i v : Respects R (set_mem_valid i v).
Proof. unfold set_mem_valid, set_area. respects. Qed.
#[export] Instance memory_sec_end_typed R `{!Enters R} m : Respects R (memory_sec_end m).
Proof. unfold memory_sec_end. respects. Qed.
End AccessTyped.

(** ** A block as a big-endian byte array *)

Definition be_byte (s : Sim) (b a : Z) : Z := s (Mem b (Z.lxor a 3)).

(** Block [b] exists with [n] bytes, a multiple of the word size. *)
Definition block_size (s : Sim) (b n : Z) : Prop :=
  blocks s !! Z.to_nat b = Some n /\ n mod 4 = 0.

(** Big-endian value of the [n] bytes at [a]. *)
Fixpoint be_val (s : Sim) (b a : Z) (n : nat) : Z :=
  match n with
  | O => 0
  | S n' => be_byte s b a * 2 ^ (8 * Z.of_nat n') + be_val s b (a + 1) n'
  end.

(** [s'] is [s] with the low [n] bytes of [v] stored big-endian at [a]. *)
Definition be_write (s : Sim) (b a n v : Z) (s' : Sim) : Prop :=
  (forall b' a', be_byte s' b' a' =
     if (b' =? b) && (a <=? a') && (a' <? a + n)
     then u8 (Z.shiftr v (8 * (n - 1 - (a' - a)))) else be_byte s b' a') /\
  (forall c, (forall i, c <> Mem b i) -> s' c = s c) /\ same_lists s s'.

Lemma in_block_fail s b n a k :
  blocks s !! Z.to_nat b = Some n -> n < a + k -> in_block b a k s = Stop Undefined s.
Proof.
  intros Hb Hk. unfold in_block, bind, gets. rewrite Hb.
  rewrite (proj2 (Z.leb_gt (a + k) n)) by lia. by rewrite andb_false_r.
Qed.

Lemma in_block_ok s b n a k :
  block_size s b n -> 0 <= a -> a + k <= n -> in_block b a k s = Ok tt s.
Proof.
  intros [Hb _] H0 H1. unfold in_block, bind, gets. rewrite Hb.
  rewrite (proj2 (Z.leb_le 0 a)), (proj2 (Z.leb_le (a + k) n)) by lia. reflexivity.
Qed.

Lemma lxor3_inj a x : Z.lxor a 3 = Z.lxor x 3 -> a = x.
Proof.
  intros E. apply (f_equal (fun z => Z.lxor z 3)) in E. rewrite !Z.lxor_assoc in E.
  change (Z.lxor 3 3) with 0 in E. by rewrite !Z.lxor_0_r in E.
Qed.

(** Host positions of the bytes of a byte, halfword and word access. *)
Lemma host_byte n a : n mod 4 = 0 -> 0 <= a < n -> 0 <= Z.lxor a 3 /\ Z.lxor a 3 + 1 <= n.
Proof.
  intros Hn Ha. rewrite lxor3 by lia. pose proof (Z.mod_pos_bound a 4 ltac:(lia)).
  pose proof (Z.div_mod a 4). pose proof (Z.div_mod n 4). lia.
Qed.

Lemma host_half n a :
  n mod 4 = 0 -> 0 <= a -> a + 2 <= n -> a mod 2 = 0 ->
  Z.lxor a 3 = Z.lxor a 2 + 1 /\ Z.lxor (a + 1) 3 = Z.lxor a 2 /\
  0 <= Z.lxor a 2 /\ Z.lxor a 2 + 2 <= n.
Proof.
  intros Hn Ha Hle He. rewrite !lxor3, lxor2_even by lia.
  pose proof (Z.div_mod a 4). pose proof (Z.div_mod (a + 1) 4). pose proof (Z.div_mod n 4).
  pose proof (Z.mod_pos_bound a 4 ltac:(lia)). pose proof (Z.mod_pos_bound (a + 1) 4 ltac:(lia)).
  pose proof (Z.div_mod a 2). lia.
Qed.

Lemma host_word a k : 0 <= a -> a mod 4 = 0 -> 0 <= k < 4 -> Z.lxor (a + k) 3 = a + 3 - k.
Proof.
  intros Ha Hm Hk. rewrite lxor3 by lia.
  pose proof (Z.div_mod a 4). pose proof (Z.div_mod (a + k) 4).
  pose proof (Z.mod_pos_bound (a + k) 4 ltac:(lia)). lia.
Qed.

Section Block.
Context (s : Sim) (b n : Z) (Hblock : block_size s b n).

Lemma simmem_read8_be a : 0 <= a < n -> simmem_read8 b a s = Ok (be_val s b a 1) s.
Proof.
  intros Ha. unfold simmem_read8, bind. destruct (host_byte n a (proj2 Hblock) Ha).
  rewrite (in_block_ok s b n) by assumption. unfold rd. f_equal. cbn. unfold be_byte. lia.
Qed.

Lemma simmem_read16_be a :
  0 <= a -> a + 2 <= n -> a mod 2 = 0 -> simmem_read16 b a s = Ok (be_val s b a 2) s.
Proof.
  intros Ha Hn He. destruct (host_half n a (proj2 Hblock) Ha Hn He) as (E1 & E2 & H0 & H1).
  unfold simmem_read16, bind. rewrite (in_block_ok s b n) by assumption.
  unfold rd, ret. f_equal. cbn [be_val]. unfold be_byte. rewrite E1, E2.
  change (2 ^ (8 * Z.of_nat 1)) with (2 ^ 8). change (2 ^ (8 * Z.of_nat 0)) with 1. lia.
Qed.

Lemma simmem_read32_be a :
  0 <= a -> a + 4 <= n -> a mod 4 = 0 -> simmem_read32 b a s = Ok (be_val s b a 4) s.
Proof.
  intros Ha Hn He. unfold simmem_read32, bind. rewrite (in_block_ok s b n) by assumption.
  unfold rd, ret. f_equal. cbn [be_val]. unfold be_byte.
  rewrite <- (Z.add_0_r a) at 5. rewrite (host_word a 0), (host_word a 1) by lia.
  replace (a + 1 + 1) with (a + 2) by lia. replace (a + 2 + 1) with (a + 3) by lia.
  rewrite (host_word a 2), (host_word a 3) by lia.
  change (2 ^ (8 * Z.of_nat 3)) with (2 ^ 24). change (2 ^ (8 * Z.of_nat 2)) with (2 ^ 16).
  change (2 ^ (8 * Z.of_nat 1)) with (2 ^ 8). change (2 ^ (8 * Z.of_nat 0)) with 1.
  replace (a + 3 - 0) with (a + 3) by lia. replace (a + 3 - 1) with (a + 2) by lia.
  replace (a + 3 - 2) with (a + 1) by lia. replace (a + 3 - 3) with a by lia. lia.
Qed.

(** A byte in or out of the range that is written. *)
Lemma in_range a b' a' k :
  ((b' =? b) && (a <=? a') && (a' <? a + k) = true /\ b' = b /\ a <= a' < a + k) \/
  ((b' =? b) && (a <=? a') && (a' <? a + k) = false /\ (b' = b -> a' < a \/ a + k <= a')).
Proof.
  destruct (Z.eqb_spec b' b), (Z.leb_spec a a'), (Z.ltb_spec a' (a + k)); cbn; auto; right; auto; lia.
Qed.

Lemma simmem_write8_be a v :
  0 <= a < n -> exists s', simmem_write8 b a v s = Ok tt s' /\ be_write s b a 1 v s'.
Proof.
  intros Ha. unfold simmem_write8, bind. destruct (host_byte n a (proj2 Hblock) Ha).
  rewrite (in_block_ok s b n) by assumption. eexists. split; [reflexivity|].
  split; [|split; [intros c Hc; by rewrite upd_ne by auto | done]].
  intros b' a'. unfold be_byte. destruct (in_range a b' a' 1) as [(-> & -> & Hr)|[-> Hr]].
  - assert (a' = a) as -> by lia. rewrite upd_eq. cbn [ctype].
    replace (8 * (1 - 1 - (a - a))) with 0 by lia. by rewrite Z.shiftr_0_r.
  - apply upd_ne. intros [= <- E]. apply lxor3_inj in E. lia.
Qed.

Lemma simmem_write16_be a v :
  0 <= a -> a + 2 <= n -> a mod 2 = 0 ->
  exists s', simmem_write16 b a v s = Ok tt s' /\ be_write s b a 2 v s'.
Proof.
  intros Ha Hn He. destruct (host_half n a (proj2 Hblock) Ha Hn He) as (E1 & E2 & H0 & H1).
  unfold simmem_write16, bind. rewrite (in_block_ok s b n) by assumption.
  eexists. split; [reflexivity|].
  split; [|split; [intros c Hc; rewrite !upd_ne by auto; done | done]].
  intros b' a'. unfold be_byte. destruct (in_range a b' a' 2) as [(-> & -> & Hr)|[-> Hr]].
  - assert (a' = a \/ a' = a + 1) as [-> | ->] by lia; rewrite ?E1, ?E2; look.
    + f_equal. f_equal. lia.
    + replace (8 * (2 - 1 - (a + 1 - a))) with 0 by lia. by rewrite Z.shiftr_0_r.
  - rewrite !upd_ne; [done| |].
    + rewrite <- E2. intros [= <- E]. apply lxor3_inj in E. lia.
    + rewrite <- E1. intros [= <- E]. apply lxor3_inj in E. lia.
Qed.

Lemma simmem_write32_be a v :
  0 <= a -> a + 4 <= n -> a mod 4 = 0 ->
  exists s', simmem_write32 b a v s = Ok tt s' /\ be_write s b a 4 v s'.
Proof.
  intros Ha Hn He. unfold simmem_write32, bind. rewrite (in_block_ok s b n) by assumption.
  eexists. split; [reflexivity|].
  split; [|split; [intros c Hc; rewrite !upd_ne by auto; done | done]].
  intros b' a'. unfold be_byte. destruct (in_range a b' a' 4) as [(-> & -> & Hr)|[-> Hr]].
  - assert (Hk : exists k, a' = a + k /\ (k = 0 \/ k = 1 \/ k = 2 \/ k = 3)) by (exists (a' - a); lia).
    destruct Hk as (k & -> & Hk). rewrite host_word by lia.
    replace (8 * (4 - 1 - (a + k - a))) with (8 * (3 - k)) by lia.
    destruct Hk as [->|[->|[->| ->]]];
      [replace (a + 3 - 0) with (a + 3) by lia | replace (a + 3 - 1) with (a + 2) by lia
      | replace (a + 3 - 2) with (a + 1) by lia | replace (a + 3 - 3) with a by lia]; look;
      rewrite ?Z.shiftr_0_r; reflexivity.
  - assert (Hne : forall k, 0 <= k < 4 -> Mem b (a + 3 - k) <> Mem b' (Z.lxor a' 3)).
    { intros k Hk [= <- E]. rewrite <- host_word in E by lia. apply lxor3_inj in E. lia. }
    assert (H0 := Hne 3 ltac:(lia)). assert (H1 := Hne 2 ltac:(lia)).
    assert (H2 := Hne 1 ltac:(lia)). assert (H3 := Hne 0 ltac:(lia)).
    replace (a + 3 - 3) with a in H0 by lia. replace (a + 3 - 2) with (a + 1) in H1 by lia.
    replace (a + 3 - 1) with (a + 2) in H2 by lia. replace (a + 3 - 0) with (a + 3) in H3 by lia.
    by rewrite !upd_ne by assumption.
Qed.
End Block.

(** The stored bytes are the value. *)
Lemma shiftr8 v k : 0 <= k -> Z.shiftr v (8 * (k + 1)) = Z.shiftr v (8 * k) / 256.
Proof.
  intros Hk. replace (8 * (k + 1)) with (8 * k + 8) by lia.
  rewrite <- Z.shiftr_shiftr by lia. rewrite (Z.shiftr_div_pow2 _ 8) by lia. reflexivity.
Qed.

Lemma bytes_val v :
  let q1 := v / 256 in let q2 := q1 / 256 in let q3 := q2 / 256 in
  u8 v = v mod 256 /\
  u8 q1 * 256 + u8 v = u16 v /\
  u8 q3 * 2 ^ 24 + (u8 q2 * 2 ^ 16 + (u8 q1 * 2 ^ 8 + u8 v)) = u32 v.
Proof.
  cbv zeta. change (u8 (v / 256 / 256 / 256)) with (v / 256 / 256 / 256 mod 256).
  change (u8 (v / 256 / 256)) with (v / 256 / 256 mod 256).
  change (u8 (v / 256)) with (v / 256 mod 256). change (u8 v) with (v mod 256).
  change (u16 v) with (v mod 65536). change (u32 v) with (v mod 4294967296).
  pose proof (Z.div_mod v 256). pose proof (Z.div_mod (v / 256) 256).
  pose proof (Z.div_mod (v / 256 / 256) 256). pose proof (Z.div_mod (v / 256 / 256 / 256) 256).
  pose proof (Z.mod_pos_bound v 256). pose proof (Z.mod_pos_bound (v / 256) 256).
  pose proof (Z.mod_pos_bound (v / 256 / 256) 256). pose proof (Z.mod_pos_bound (v / 256 / 256 / 256) 256).
  split; [reflexivity|]. split.
  - apply Z.mod_unique with (v / 256 / 256); lia.
  - apply Z.mod_unique with (v / 256 / 256 / 256 / 256); lia.
Qed.

Lemma be_write_read32 s s' b a v :
  be_write s b a 4 v s' ->
  be_val s' b a 4 = u32 v /\ be_val s' b a 2 = u16 (Z.shiftr v 16) /\ be_val s' b (a + 2) 2 = u16 v /\
  forall k, 0 <= k < 4 -> be_val s' b (a + k) 1 = u8 (Z.shiftr v (8 * (3 - k))).
Proof.
  intros Hw.
  assert (Hb : forall k, 0 <= k < 4 -> be_byte s' b (a + k) = u8 (Z.shiftr v (8 * (3 - k)))).
  { intros k Hk. destruct Hw as [Hw _]. rewrite Hw.
    rewrite Z.eqb_refl, (proj2 (Z.leb_le _ _)), (proj2 (Z.ltb_lt _ _)) by lia. cbn [andb].
    do 2 f_equal. lia. }
  pose proof (Hb 0 ltac:(lia)) as H0. rewrite Z.add_0_r in H0.
  pose proof (Hb 1 ltac:(lia)) as H1. pose proof (Hb 2 ltac:(lia)) as H2.
  pose proof (Hb 3 ltac:(lia)) as H3.
  change (8 * (3 - 0)) with (8 * (2 + 1)) in H0. change (8 * (3 - 1)) with (8 * (1 + 1)) in H1.
  change (8 * (3 - 2)) with (8 * (0 + 1)) in H2. change (8 * (3 - 3)) with (8 * 0) in H3.
  rewrite shiftr8 in H0 by lia. change (8 * 2) with (8 * (1 + 1)) in H0.
  rewrite shiftr8 in H0, H1 by lia. change (8 * 1) with (8 * (0 + 1)) in H0, H1.
  rewrite shiftr8 in H0, H1, H2 by lia. change (8 * 0) with 0 in *.
  rewrite Z.shiftr_0_r in H0, H1, H2, H3.
  destruct (bytes_val v) as (_ & E16 & E32). destruct (bytes_val (Z.shiftr v 16)) as (_ & E16' & _).
  assert (Es : Z.shiftr v 16 = v / 256 / 256).
  { rewrite Z.shiftr_div_pow2, Z.div_div by lia. reflexivity. }
  cbn [be_val]. replace (a + 1 + 1) with (a + 2) by lia. replace (a + 2 + 1) with (a + 3) by lia.
  rewrite H0, H1, H2, H3. change (2 ^ (8 * Z.of_nat 3)) with (2 ^ 24).
  change (2 ^ (8 * Z.of_nat 2)) with (2 ^ 16). change (2 ^ (8 * Z.of_nat 1)) with (2 ^ 8).
  change (2 ^ (8 * Z.of_nat 0)) with 1. split_and!.
  - lia.
  - rewrite Es in *. cbv zeta in E16'. lia.
  - cbv zeta in E16. lia.
  - intros k Hk. rewrite Hb by lia. change (2 ^ (8 * Z.of_nat 0)) with 1. lia.
Qed.

(** ** Areas *)

Lemma bit_mask_loop_run d n s : 0 <= n < 32 -> (forall i, 0 <= i < n -> Z.shiftr d i <> 0) -> 0 <= d < 2 ^ n ->
  forall fuel i, 0 <= i <= n -> n - i < Z.of_nat fuel ->
  bit_mask_loop fuel (Z.lor d (Z.ones i)) i s = Ok (2 ^ n - 1) s.
Proof.
  intros Hn Hlow Hd fuel. induction fuel as [|fuel IH]; intros i Hi Hf; [lia|]. cbn [bit_mask_loop].
  rewrite (proj2 (Z.leb_gt 32 i)) by lia.
  assert (Hsh : Z.shiftr (Z.lor d (Z.ones i)) i = Z.shiftr d i).
  { rewrite Z.shiftr_lor. rewrite (Z.shiftr_div_pow2 (Z.ones i)), Z.ones_equiv by lia.
    rewrite (Z.div_small (Z.pred (2 ^ i))) by lia. apply Z.lor_0_r. }
  rewrite Hsh. destruct (Z.eq_dec i n) as [->|Hne].
  - rewrite (proj2 (nz_false _)).
    + unfold ret. f_equal. destruct (Z.eq_dec d 0) as [->|].
      * rewrite Z.lor_0_l, Z.ones_equiv. lia.
      * rewrite Z.lor_ones_low; [rewrite Z.ones_equiv; lia | lia |]. apply Z.log2_lt_pow2; lia.
    + rewrite Z.shiftr_div_pow2 by lia. apply Z.div_small. lia.
  - rewrite (proj2 (nz_spec _)) by (apply Hlow; lia).
    replace (u32 (Z.lor (Z.lor d (Z.ones i)) (Z.shiftl 1 i))) with (Z.lor d (Z.ones (i + 1))).
    + apply IH; lia.
    + rewrite <- Z.lor_assoc. replace (Z.lor (Z.ones i) (Z.shiftl 1 i)) with (Z.ones (i + 1)).
      * symmetry. apply u32_small. apply lor_range; [lia| |].
        -- split; [lia|]. eapply Z.lt_le_trans; [apply Hd|]. apply Z.pow_le_mono_r; lia.
        -- rewrite Z.ones_equiv. pose proof (Z.pow_le_mono_r 2 (i + 1) 32). lia.
      * apply Z.bits_inj'. intros j Hj. rewrite Z.lor_spec, Z.shiftl_1_l, testbit_pow2 by lia.
        rewrite !Z.testbit_ones_nonneg by lia.
        destruct (Z.ltb_spec j i), (Z.ltb_spec j (i + 1)), (Z.eqb_spec i j); cbn; lia || reflexivity.
Qed.

(** The least power of two that is at least [size], less one. *)
Lemma bit_mask_run size s :
  1 <= size <= 2 ^ 31 -> bit_mask size s = Ok (2 ^ Z.log2_up size - 1) s.
Proof.
  intros Hs. unfold bit_mask. rewrite u32_small by lia.
  rewrite <- (Z.lor_0_r (size - 1)). change 0 with (Z.ones 0) at 1.
  assert (Hn : 0 <= Z.log2_up size <= 31).
  { split; [apply Z.log2_up_nonneg|]. apply Z.log2_up_le_pow2; lia. }
  assert (Hup : size <= 2 ^ Z.log2_up size).
  { destruct (Z.eq_dec size 1) as [->|]; [cbn; lia|]. apply Z.log2_up_spec. lia. }
  apply bit_mask_loop_run; try lia.
  intros i Hi. rewrite Z.shiftr_div_pow2 by lia. intros E.
  apply Z.div_small_iff in E; [|lia]. destruct E as [E|E]; [|lia].
  assert (size <= 2 ^ i) by lia. apply Z.log2_up_le_pow2 in H; lia.
Qed.

(** An area as [reg_mem_area] makes it, not ending beyond the top word. *)
Definition area_wf (a : dev_memarea) : Prop :=
  exists k, 0 <= k <= 31 /\ addr_mask a = 2 ^ 32 - 2 ^ k /\ size_mask a = 2 ^ k - 1 /\
    area_size a = 2 ^ k /\ addr_compare a mod 2 ^ k = 0 /\ 0 <= addr_compare a /\
    addr_compare a + 2 ^ k < 2 ^ 32.

(** The addresses of an area. *)
Definition in_area (addr : Z) (a : dev_memarea) : Prop :=
  addr_compare a <= addr < addr_compare a + area_size a.

Lemma area_hit_spec addr a :
  area_wf a -> 0 <= addr < 2 ^ 32 -> area_hit addr a = true <-> in_area addr a.
Proof.
  intros (k & Hk & Hm & _ & Hs & Hc & H0 & Hend) Ha. unfold area_hit, in_area.
  rewrite Hm, Hs, !land_high, Hc, Z.eqb_eq by lia.
  pose proof (Z.div_mod addr (2 ^ k) ltac:(lia)). pose proof (Z.mod_pos_bound addr (2 ^ k) ltac:(lia)).
  pose proof (Z.div_mod (addr_compare a) (2 ^ k) ltac:(lia)).
  split; [lia|]. intros Hr.
  assert (addr / 2 ^ k = addr_compare a / 2 ^ k); [|nia].
  symmetry. apply Z.div_unique with (addr - addr_compare a); [lia|]. nia.
Qed.

Lemma areas_overlap_spec compare size a :
  area_wf a -> 0 <= compare -> 0 < size -> compare + size < 2 ^ 32 ->
  areas_overlap compare size a = true <->
  addr_compare a < compare + size /\ compare < addr_compare a + area_size a.
Proof.
  intros (k & Hk & _ & _ & Hs & _ & H0 & Hend) Hc Hsz Hend'. unfold areas_overlap.
  rewrite !u32_small by lia. rewrite orb_true_iff, !andb_true_iff, !Z.ltb_lt, Z.leb_le.
  split; [intros [?|?]; lia | intros; right; lia].
Qed.

(** No address belongs to two areas. *)
Definition areas_disjoint (l : list dev_memarea) : Prop :=
  forall i j a b addr, l !! i = Some a -> l !! j = Some b ->
    in_area addr a -> in_area addr b -> i = j.

(** The list of areas is in order. *)
Definition areas_ok (s : Sim) : Prop :=
  Forall area_wf (dev_list s) /\ areas_disjoint (dev_list s) /\
  (forall i, mc_area s = Some i -> (i < length (dev_list s))%nat) /\
  (forall i, cur_area s = Some i -> (i < length (dev_list s))%nat).

Lemma find_area_spec addr l : forall i0,
  match find_area addr i0 l with
  | Some i => exists a, (i0 <= i)%nat /\ l !! (i - i0)%nat = Some a /\ area_hit addr a = true /\ nz (valid a) = true
  | None => forall j a, l !! j = Some a -> area_hit addr a && nz (valid a) = false
  end.
Proof.
  induction l as [|a l IH]; intros i0; cbn.
  - intros j a Ha. by rewrite lookup_nil in Ha.
  - destruct (area_hit addr a && nz (valid a)) eqn:E.
    + apply andb_true_iff in E as [E1 E2]. exists a. rewrite Nat.sub_diag. auto.
    + specialize (IH (S i0)). destruct (find_area addr (S i0) l) as [i|].
      * destruct IH as (b & Hi & Hl & H). exists b.
        destruct (i - i0)%nat eqn:En; [lia|]. cbn. replace n with (i - S i0)%nat by lia.
        split; [lia | auto].
      * intros [|j] b Hb; [by injection Hb as -> | by apply (IH j)].
Qed.

(** With disjoint valid areas, what a pointer or the list finds is the same. *)
Lemma find_area_unique addr s i a :
  areas_ok s -> Forall (fun a => nz (valid a) = true) (dev_list s) -> 0 <= addr < 2 ^ 32 ->
  dev_list s !! i = Some a -> area_hit addr a = true -> find_area addr 0 (dev_list s) = Some i.
Proof.
  intros (Hwf & Hdis & _) Hv Haddr Hi Hh. pose proof (find_area_spec addr (dev_list s) 0) as Hf.
  pose proof (Forall_lookup_1 _ _ _ _ Hwf Hi) as Hwa.
  destruct (find_area addr 0 (dev_list s)) as [j|].
  - destruct Hf as (b & _ & Hj & Hhb & _). rewrite Nat.sub_0_r in Hj. f_equal.
    pose proof (Forall_lookup_1 _ _ _ _ Hwf Hj) as Hwb.
    apply (Hdis j i b a addr Hj Hi); by apply area_hit_spec.
  - specialize (Hf i a Hi). rewrite Hh, (Forall_lookup_1 _ _ _ _ Hv Hi) in Hf. discriminate.
Qed.

Lemma ptr_hit_spec addr s p :
  areas_ok s -> Forall (fun a => nz (valid a) = true) (dev_list s) -> 0 <= addr < 2 ^ 32 ->
  ptr_hit addr (dev_list s) p = true -> find_area addr 0 (dev_list s) = p.
Proof.
  intros Hok Hv Ha Hp. unfold ptr_hit in Hp. destruct p as [i|]; [|discriminate]. cbn in Hp.
  destruct (dev_list s !! i) as [a|] eqn:Hi; [|discriminate]. by eapply find_area_unique.
Qed.

Lemma verify_run addr s :
  areas_ok s -> Forall (fun a => nz (valid a) = true) (dev_list s) -> 0 <= addr < 2 ^ 32 ->
  verify_memoryarea addr s =
    Ok (find_area addr 0 (dev_list s)) (set_cur_area (find_area addr 0 (dev_list s)) s).
Proof.
  intros Hok Hv Ha. unfold verify_memoryarea, bind, gets, modify, ret.
  destruct (ptr_hit addr (dev_list s) (mc_area s)) eqn:Em.
  - by rewrite (ptr_hit_spec _ _ _ Hok Hv Ha Em).
  - destruct (ptr_hit addr (dev_list s) (cur_area s)) eqn:Ec; [|reflexivity].
    rewrite (ptr_hit_spec _ _ _ Hok Hv Ha Ec). f_equal. by destruct s.
Qed.

(** Memory is big-endian whatever the host's byte order is used for
    storage: the access functions of a memory block read and write the
    big-endian value of the bytes at the address, aligned and in range, and a
    write changes those bytes of that block and nothing else. *)
Theorem simmem_big_endian s b n a v :
  block_size s b n -> 0 <= a ->
  (a + 1 <= n -> simmem_read8 b a s = Ok (be_val s b a 1) s /\
     exists s', simmem_write8 b a v s = Ok tt s' /\ be_write s b a 1 v s') /\
  (a + 2 <= n -> a mod 2 = 0 -> simmem_read16 b a s = Ok (be_val s b a 2) s /\
     exists s', simmem_write16 b a v s = Ok tt s' /\ be_write s b a 2 v s') /\
  (a + 4 <= n -> a mod 4 = 0 -> simmem_read32 b a s = Ok (be_val s b a 4) s /\
     exists s', simmem_write32 b a v s = Ok tt s' /\ be_write s b a 4 v s').
Proof.
  intros Hb Ha. split_and!; intros; split.
  - apply (simmem_read8_be s b n Hb). lia.
  - apply (simmem_write8_be s b n Hb). lia.
  - by apply (simmem_read16_be s b n Hb).
  - by apply (simmem_write16_be s b n Hb).
  - by apply (simmem_read32_be s b n Hb).
  - by apply (simmem_write32_be s b n Hb).
Qed.

(** A word written is read back as the word, as its two halfwords and as
    its four bytes, most significant first. *)
Theorem simmem_write_read s b n a v :
  block_size s b n -> 0 <= a -> a + 4 <= n -> a mod 4 = 0 ->
  exists s', simmem_write32 b a v s = Ok tt s' /\
    simmem_read32 b a s' = Ok (u32 v) s' /\
    simmem_read16 b a s' = Ok (u16 (Z.shiftr v 16)) s' /\
    simmem_read16 b (a + 2) s' = Ok (u16 v) s' /\
    forall k, 0 <= k < 4 -> simmem_read8 b (a + k) s' = Ok (u8 (Z.shiftr v (8 * (3 - k)))) s'.
Proof.
  intros Hb Ha Hn Hm. destruct (simmem_write32_be s b n Hb a v Ha Hn Hm) as (s' & E & Hw).
  exists s'. split; [exact E|].
  assert (Hb' : block_size s' b n).
  { destruct Hb as [Hb1 Hb2]. destruct Hw as (_ & _ & _ & _ & _ & _ & _ & Hbl & _).
    split; [by rewrite Hbl | exact Hb2]. }
  destruct (be_write_read32 _ _ _ _ _ Hw) as (E32 & E16 & E16' & E8).
  assert (He : a mod 2 = 0 /\ (a + 2) mod 2 = 0).
  { pose proof (Z.div_mod a 4). pose proof (Z.div_mod a 2). pose proof (Z.div_mod (a + 2) 2).
    pose proof (Z.mod_pos_bound a 2). pose proof (Z.mod_pos_bound (a + 2) 2). lia. }
  rewrite (simmem_read32_be s' b n Hb'), (simmem_read16_be s' b n Hb' a),
    (simmem_read16_be s' b n Hb' (a + 2)), E32, E16, E16' by lia.
  split_and!; try done. intros k Hk. by rewrite (simmem_read8_be s' b n Hb'), E8 by lia.
Qed.

(** While the areas are pairwise disjoint and valid, [verify_memoryarea]
    returns the one area that contains the address, or NULL when there is none:
    the memory controller's area and the cached area only save the search. *)
Theorem verify_memoryarea_correct addr s :
  areas_ok s -> Forall (fun a => nz (valid a) = true) (dev_list s) -> 0 <= addr < 2 ^ 32 ->
  exists r, verify_memoryarea addr s = Ok r (set_cur_area r s) /\
    forall i, r = Some i <-> exists a, dev_list s !! i = Some a /\ in_area addr a.
Proof.
  intros Hok Hv Ha. exists (find_area addr 0 (dev_list s)). split; [by apply verify_run|].
  intros i. pose proof Hok as (Hwf & _). split.
  - intros E. pose proof (find_area_spec addr (dev_list s) 0) as Hf. rewrite E in Hf.
    destruct Hf as (a & _ & Hi & Hh & _). rewrite Nat.sub_0_r in Hi. exists a. split; [exact Hi|].
    apply area_hit_spec; try assumption. exact (Forall_lookup_1 _ _ _ _ Hwf Hi).
  - intros (a & Hi & Hin). eapply find_area_unique; eauto.
    apply area_hit_spec; try assumption. exact (Forall_lookup_1 _ _ _ _ Hwf Hi).
Qed.

(** The area [reg_mem_area] adds. *)
Definition new_area (addr size : Z) (o : mem_ops) : dev_memarea :=
  let n := 2 ^ Z.log2_up size in
  DevMemarea (2 ^ 32 - n) (addr - addr mod n) n (n - 1) 1 (ops_log o) (area_ops o) (area_direct_ops o).

Lemma new_area_wf addr size o :
  1 <= size <= 2 ^ 31 -> 0 <= addr < 2 ^ 32 ->
  addr_compare (new_area addr size o) + area_size (new_area addr size o) < 2 ^ 32 ->
  area_wf (new_area addr size o).
Proof.
  intros Hs Ha Hend. exists (Z.log2_up size). cbn in *.
  assert (0 <= Z.log2_up size <= 31).
  { split; [apply Z.log2_up_nonneg | apply Z.log2_up_le_pow2; lia]. }
  pose proof (Z.mod_pos_bound addr (2 ^ Z.log2_up size) ltac:(lia)).
  pose proof (Z.div_mod addr (2 ^ Z.log2_up size) ltac:(lia)).
  pose proof (Z.mod_le addr (2 ^ Z.log2_up size) ltac:(lia) ltac:(lia)).
  split_and!; try lia.
  replace (addr - addr mod 2 ^ Z.log2_up size) with (addr / 2 ^ Z.log2_up size * 2 ^ Z.log2_up size) by lia.
  apply Z.mod_mul. lia.
Qed.

Lemma reg_mem_area_run addr size mc_dev o s :
  1 <= size <= 2 ^ 31 -> 0 <= addr < 2 ^ 32 ->
  reg_mem_area addr size mc_dev o s =
    if existsb (areas_overlap (addr_compare (new_area addr size o)) (area_size (new_area addr size o))) (dev_list s)
    then Stop Exited s
    else Ok (length (dev_list s))
      (set_areas (dev_list s ++ [new_area addr size o])
        ((if mc_dev then set_mc_area (Some (length (dev_list s))) else id)
          (set_cur_area (Some (length (dev_list s))) s))).
Proof.
  intros Hs Ha. unfold reg_mem_area, bind. rewrite bit_mask_run by assumption. cbv beta iota.
  assert (Hk : 0 <= Z.log2_up size <= 31).
  { split; [apply Z.log2_up_nonneg | apply Z.log2_up_le_pow2; lia]. }
  pose proof (Z.pow_le_mono_r 2 (Z.log2_up size) 31).
  rewrite lnot_mask by assumption.
  replace (u32 (2 ^ Z.log2_up size - 1 + 1)) with (2 ^ Z.log2_up size) by (symmetry; rewrite u32_small; lia).
  unfold register_memoryarea_mask, bind.
  rewrite (bit_mask_run (2 ^ Z.log2_up size)), Z.log2_up_pow2 by lia. cbv beta iota.
  rewrite <- Z.land_assoc, Z.land_diag, land_high by lia. unfold gets at 1.
  cbn [new_area addr_compare area_size].
  set (l := dev_list s). set (n := 2 ^ Z.log2_up size).
  destruct (existsb _ l); [reflexivity|].
  assert (Hall : forall x, alter x (length l) (l ++ [DevMemarea (2 ^ 32 - n) (addr - addr mod n) n (n - 1) 1 false empty_ops empty_ops])
    = l ++ [x (DevMemarea (2 ^ 32 - n) (addr - addr mod n) n (n - 1) 1 false empty_ops empty_ops)]).
  { intros x. by rewrite alter_app_r_alt, Nat.sub_diag by lia. }
  destruct mc_dev; unfold set_area, modify, ret, gets, bind; cbn [dev_list set_mc_area set_cur_area set_areas];
    rewrite Hall; reflexivity.
Qed.

(** Registering an area whose rounded size keeps it below the top of the
    address space either exits because it overlaps an existing area, or adds
    the area, rounded up to a power of two and aligned down, and keeps the list
    in order: all areas disjoint and the cached pointers valid. *)
Theorem reg_mem_area_disjoint addr size mc_dev o s :
  areas_ok s -> 1 <= size <= 2 ^ 31 -> 0 <= addr < 2 ^ 32 ->
  addr_compare (new_area addr size o) + area_size (new_area addr size o) < 2 ^ 32 ->
  (reg_mem_area addr size mc_dev o s = Stop Exited s /\
     exists a x, a ∈ dev_list s /\ in_area x a /\ in_area x (new_area addr size o)) \/
  (exists s', reg_mem_area addr size mc_dev o s = Ok (length (dev_list s)) s' /\
     dev_list s' = dev_list s ++ [new_area addr size o] /\ areas_ok s' /\
     in_area addr (new_area addr size o)).
Proof.
  intros (Hwf & Hdis & Hmc & Hcur) Hs Ha Hend.
  pose proof (new_area_wf addr size o Hs Ha Hend) as Hnew.
  rewrite reg_mem_area_run by assumption. set (a' := new_area addr size o) in *.
  assert (Hpos : 0 <= addr_compare a' /\ 0 < area_size a').
  { destruct Hnew as (k & Hk & _ & _ & -> & _ & ? & _). lia. }
  destruct (existsb _ (dev_list s)) eqn:E; [left|right].
  - split; [reflexivity|]. apply existsb_exists in E as (a & Hin & Ho).
    apply list_elem_of_In in Hin. apply list_elem_of_lookup in Hin as (i & Hi).
    pose proof (Forall_lookup_1 _ _ _ _ Hwf Hi) as Hwa.
    apply areas_overlap_spec in Ho; [|assumption|lia|lia|assumption].
    exists a, (Z.max (addr_compare a) (addr_compare a')).
    split; [apply list_elem_of_lookup; eauto|]. unfold in_area.
    destruct Hwa as (ka & Hka & _ & _ & Hsa & _). lia.
  - eexists. split; [reflexivity|].
    split; [by destruct mc_dev|]. split.
    + unfold areas_ok. replace (dev_list _) with (dev_list s ++ [a']) by by destruct mc_dev.
      rewrite length_app. cbn [length]. split_and!.
      * apply Forall_app_2; [exact Hwf | by constructor].
      * assert (Hsep : forall j b x, dev_list s !! j = Some b -> in_area x b -> in_area x a' -> False).
        { intros j b x Hj Hb Hx. pose proof (Forall_lookup_1 _ _ _ _ Hwf Hj) as Hwb.
          assert (Ho : areas_overlap (addr_compare a') (area_size a') b = true).
          { apply areas_overlap_spec; try lia; [assumption|]. unfold in_area in *. lia. }
          assert (Hex : existsb (areas_overlap (addr_compare a') (area_size a')) (dev_list s) = true).
          { apply existsb_exists. exists b. split; [|exact Ho].
            apply list_elem_of_In, list_elem_of_lookup. eauto. }
          congruence. }
        intros i j a b x Hi Hj Hxa Hxb. apply lookup_app_Some in Hi, Hj.
        destruct Hi as [Hi|[Hi1 Hi]], Hj as [Hj|[Hj1 Hj]].
        -- by eapply Hdis.
        -- apply list_lookup_singleton_Some in Hj as [Hj <-]. exfalso. by eapply (Hsep i).
        -- apply list_lookup_singleton_Some in Hi as [Hi <-]. exfalso. by eapply (Hsep j).
        -- apply list_lookup_singleton_Some in Hi as [Hi _], Hj as [Hj _]. lia.
      * destruct mc_dev; cbn; [intros i [= <-]; lia | intros i Hi; specialize (Hmc i Hi); lia].
      * destruct mc_dev; cbn; intros i [= <-]; lia.
    + unfold in_area, a'. cbn. pose proof (Z.log2_up_nonneg size).
      pose proof (Z.mod_pos_bound addr (2 ^ Z.log2_up size) ltac:(lia)). lia.
Qed.

(** An area that ends exactly at the top of the 32-bit address space is
    invisible to the overlap check: the same area can be registered again. *)
Theorem overlap_missed_at_top addr size o s a :
  1 <= size <= 2 ^ 31 -> 0 <= addr < 2 ^ 32 ->
  addr_compare (new_area addr size o) + area_size (new_area addr size o) = 2 ^ 32 ->
  dev_list s = [a] -> a = new_area addr size o ->
  exists s', reg_mem_area addr size false o s = Ok 1%nat s' /\
    dev_list s' = [new_area addr size o; new_area addr size o].
Proof.
  intros Hs Ha Hend Hl Ea. rewrite reg_mem_area_run by assumption. rewrite Hl. subst a.
  set (a' := new_area addr size o) in *.
  assert (E : areas_overlap (addr_compare a') (area_size a') a' = false).
  { unfold areas_overlap. rewrite Hend. change (u32 (2 ^ 32)) with 0.
    assert (0 <= addr_compare a').
    { unfold a'; cbn. pose proof (Z.log2_up_nonneg size).
      pose proof (Z.mod_le addr (2 ^ Z.log2_up size)). lia. }
    rewrite (proj2 (Z.ltb_ge (addr_compare a') 0)) by lia. by rewrite !andb_false_r. }
  cbn [existsb]. rewrite E. eexists. split; [reflexivity|]. reflexivity.
Qed.

(** An access that hits the cached area. *)
Lemma evalsim_cached `{Devices} addr vaddr s i a :
  mc_area s = None -> cur_area s = Some i -> dev_list s !! i = Some a -> area_hit addr a = true ->
  evalsim_mem32 addr vaddr s =
    bind (adds Mem_cycles (delayr (ops a)))
      (fun _ => call_read32 (readfunc32 (ops a)) (Z.land addr (size_mask a))) s.
Proof.
  intros Hmc Hcur Hi Hh. unfold evalsim_mem32, verify_memoryarea, area_at, bind, gets, ret.
  cbv beta iota. rewrite Hmc, Hcur. unfold ptr_hit. cbn. rewrite Hi. cbn. rewrite Hh. cbv beta iota.
  by rewrite Hi.
Qed.

(** A memory of [size] bytes (a multiple of 4) is mapped over the next
    power of two, but only [size] bytes are allocated: a word read at offset
    [size], inside the area, goes past the end of the [malloc]ed block. *)
Theorem area_exceeds_block `{Devices} size vaddr :
  4 <= size <= 2 ^ 31 -> size mod 4 = 0 -> size < 2 ^ Z.log2_up size ->
  exists s s1,
    memory_sec_end (MemConfig (-1) 0 0 size 1 1 0 (-1) MT_UNKNOWN false 0) zero_state = Ok tt s /\
    blocks s = [size] /\ evalsim_mem32 size vaddr s = Stop Undefined s1.
Proof.
  intros Hs Hm Hlt. assert (Hk : 0 <= Z.log2_up size <= 31).
  { split; [apply Z.log2_up_nonneg | apply Z.log2_up_le_pow2; lia]. }
  set (n := 2 ^ Z.log2_up size) in *.
  assert (Hn : 0 < n <= 2 ^ 31) by (unfold n; split; [lia | apply Z.pow_le_mono_r; lia]).
  eexists. eexists. split; [|split].
  - unfold memory_sec_end, bind. cbn [mem_size mem_baseaddr mem_ce mem_log].
    rewrite (proj2 (Z.eqb_neq size 0)) by lia.
    change 3 with (Z.ones 2). rewrite Z.land_ones by lia. change (2 ^ 2) with 4. rewrite Hm.
    cbn [nz Z.eqb negb]. unfold gets, modify at 1. cbv beta iota.
    rewrite reg_mem_area_run by lia. cbn -[new_area]. reflexivity.
  - reflexivity.
  - erewrite evalsim_cached; [| reflexivity | reflexivity | reflexivity |].
    + unfold bind, adds, rd, wr. cbn [size_mask ops]. cbv beta iota. unfold bind.
      cbn [area_ops memory_ops new_area ops readfunc32 if_null mem_delayr call_read32 size_mask].
      change (2 ^ Z.log2_up size) with n.
      replace (n - 1) with (Z.ones (Z.log2_up size)) by (rewrite Z.ones_equiv; lia).
      rewrite Z.land_ones by lia. change (2 ^ Z.log2_up size) with n. rewrite Z.mod_small by lia.
      change (if_null (if 0 <? 1 then Fn_simmem (Z.of_nat 0) else Fn_simmem_zero) Fn_inv) with (Fn_simmem 0).
      unfold call_read32, simmem_read32, bind. erewrite in_block_fail; [reflexivity | reflexivity | lia].
    + unfold area_hit. cbn [addr_mask addr_compare new_area]. fold n.
      rewrite Z.mod_0_l, Z.sub_diag, Z.land_0_l by lia.
      unfold n. rewrite land_high by lia. fold n. rewrite Z.mod_small by lia. apply Z.eqb_eq. lia.
Qed.

(** ** Witnesses *)

(** A memory of 3 MB at address 0, valid, with one block. *)
Definition ex_mem : Sim :=
  state_of (memory_sec_end (H := no_devices)
    (MemConfig (-1) 0 0 0x300000 1 1 0 (-1) MT_UNKNOWN false 0) zero_state).

Lemma ex_mem_block : block_size ex_mem 0 0x300000.
Proof. split; vm_compute; reflexivity. Qed.

Lemma ex_mem_areas : dev_list ex_mem = [new_area 0 0x300000 (memory_ops (MemConfig (-1) 0 0 0x300000 1 1 0 (-1) MT_UNKNOWN false 0) 0)].
Proof. vm_compute. reflexivity. Qed.

Lemma ex_mem_ok : areas_ok ex_mem /\ Forall (fun a => nz (valid a) = true) (dev_list ex_mem).
Proof.
  rewrite ex_mem_areas. unfold areas_ok. rewrite ex_mem_areas. split_and!.
  - constructor; [|constructor]. apply new_area_wf; closed_Z.
  - intros i j a b x Hi Hj. apply list_lookup_singleton_Some in Hi as [-> _], Hj as [-> _]. done.
  - intros i Hi. vm_compute in Hi. discriminate.
  - intros i Hi. vm_compute in Hi. injection Hi as <-. cbn. lia.
  - constructor; [reflexivity | constructor].
Qed.

Lemma simmem_big_endian_witness :
  simmem_read8 0 0x101 ex_mem = Ok (be_val ex_mem 0 0x101 1) ex_mem /\
  exists s', simmem_write8 0 0x101 0xab ex_mem = Ok tt s' /\ be_write ex_mem 0 0x101 1 0xab s'.
Proof.
  destruct (simmem_big_endian ex_mem 0 0x300000 0x101 0xab ex_mem_block ltac:(lia)) as [H8 _].
  apply H8. lia.
Defined.

Lemma simmem_write_read_witness :
  exists s', simmem_write32 0 0x100 0x11223344 ex_mem = Ok tt s' /\
    simmem_read8 0 0x102 s' = Ok 0x33 s'.
Proof.
  destruct (simmem_write_read ex_mem 0 0x300000 0x100 0x11223344 ex_mem_block
    ltac:(lia) ltac:(lia) ltac:(reflexivity)) as (s' & E & _ & _ & _ & H8).
  exists s'. split; [exact E|]. exact (H8 2 ltac:(lia)).
Defined.

Lemma verify_memoryarea_correct_witness :
  exists r, verify_memoryarea 0x2000 ex_mem = Ok r (set_cur_area r ex_mem) /\ r = Some 0%nat.
Proof.
  destruct (verify_memoryarea_correct 0x2000 ex_mem) as (r & E & Hr).
  - exact (proj1 ex_mem_ok).
  - exact (proj2 ex_mem_ok).
  - lia.
  - exists r. split; [exact E|]. apply Hr. rewrite ex_mem_areas. eexists. split; [reflexivity|].
    closed_Z.
Defined.

Lemma reg_mem_area_disjoint_witness :
  (reg_mem_area 0x800000 0x1000 false empty_ops ex_mem = Stop Exited ex_mem /\
     exists a x, a ∈ dev_list ex_mem /\ in_area x a /\ in_area x (new_area 0x800000 0x1000 empty_ops)) \/
  (exists s', reg_mem_area 0x800000 0x1000 false empty_ops ex_mem = Ok 1%nat s' /\
     dev_list s' = dev_list ex_mem ++ [new_area 0x800000 0x1000 empty_ops] /\ areas_ok s' /\
     in_area 0x800000 (new_area 0x800000 0x1000 empty_ops)).
Proof. apply (reg_mem_area_disjoint 0x800000 0x1000 false empty_ops ex_mem (proj1 ex_mem_ok)); closed_Z. Defined.

Lemma overlap_missed_at_top_witness :
  exists s', reg_mem_area 0xf0000000 0x10000000 false empty_ops
      (set_areas [new_area 0xf0000000 0x10000000 empty_ops] zero_state) = Ok 1%nat s' /\
    dev_list s' = [new_area 0xf0000000 0x10000000 empty_ops; new_area 0xf0000000 0x10000000 empty_ops].
Proof.
  apply (overlap_missed_at_top 0xf0000000 0x10000000 empty_ops
    (set_areas [new_area 0xf0000000 0x10000000 empty_ops] zero_state)
    (new_area 0xf0000000 0x10000000 empty_ops)); first [reflexivity | closed_Z].
Defined.

Lemma area_exceeds_block_witness :
  exists s s1,
    memory_sec_end (H := no_devices) (MemConfig (-1) 0 0 0x300000 1 1 0 (-1) MT_UNKNOWN false 0) zero_state = Ok tt s /\
    blocks s = [0x300000] /\ evalsim_mem32 (H := no_devices) 0x300000 0x300000 s = Stop Undefined s1.
Proof. apply (area_exceeds_block (H := no_devices) 0x300000 0x300000); closed_Z. Defined.

End Mem.
