(* ===== verification/Gpio.v ===== *)
(** * General purpose I/O (peripheral/gpio.c)

    The device keeps two copies of its registers: [next], which the bus and the
    outside world write, and [curr], which the bus reads; a clock of the device
    computes the outputs and the interrupts and copies [next] to [curr].  The
    parameter [n] of the functions is the number of the structure [dat] points
    to. *)

From S2P Require Export Pic Mem.

Module Gpio.
Import Sched Except Pic Mem.

Definition GPIO_ADDR_SPACE := 0x20.
Definition RGPIO_IN := 0x00.
Definition RGPIO_OUT := 0x04.
Definition RGPIO_OE := 0x08.
Definition RGPIO_INTE := 0x0C.
Definition RGPIO_PTRIG := 0x10.
Definition RGPIO_AUX := 0x14.
Definition RGPIO_CTRL := 0x18.
Definition RGPIO_INTS := 0x1C.
Definition RGPIO_CTRL_ECLK := 0x00000001.
Definition RGPIO_CTRL_NEC := 0x00000002.
Definition RGPIO_CTRL_INTE := 0x00000004.
Definition RGPIO_CTRL_INTS := 0x00000008.

Definition GPIO_VAPI_DATA := 0.
Definition GPIO_VAPI_AUX := 1.
Definition GPIO_VAPI_CLOCK := 2.
Definition GPIO_VAPI_RGPIO_OE := 3.
Definition GPIO_VAPI_RGPIO_INTE := 4.
Definition GPIO_VAPI_RGPIO_PTRIG := 5.
Definition GPIO_VAPI_RGPIO_AUX := 6.
Definition GPIO_VAPI_RGPIO_CTRL := 7.
Definition GPIO_NUM_VAPI_IDS := 8.

Definition curr (n : Z) (r : gpioreg) : cell := Gpio n (Gp_curr r).
Definition next (n : Z) (r : gpioreg) : cell := Gpio n (Gp_next r).

Definition gpio_reset (n : Z) : M unit :=
  baseaddr ← isset (Gpio n Gp_baseaddr);
  when baseaddr
    (id ← rd (Gpio n Gp_base_vapi_id);
     when (nz id) (emit (Ev_vapi_install id GPIO_NUM_VAPI_IDS)));;
  sched_add J_gpio_clock n 1.

Definition gpio_read32 (addr n : Z) : M Z :=
  v ← switch addr
    [([RGPIO_IN], i ← rd (curr n Rg_in); o ← rd (curr n Rg_out); ret (Z.lor i o));
     ([RGPIO_OUT], rd (curr n Rg_out));
     ([RGPIO_OE], rd (curr n Rg_oe));
     ([RGPIO_INTE], rd (curr n Rg_inte));
     ([RGPIO_PTRIG], rd (curr n Rg_ptrig));
     ([RGPIO_AUX], rd (curr n Rg_aux));
     ([RGPIO_CTRL], rd (curr n Rg_ctrl));
     ([RGPIO_INTS], rd (curr n Rg_ints))] (ret 0);
  ret (u32 v).

Definition gpio_write32 (addr value n : Z) : M unit :=
  switch addr
    [([RGPIO_IN], ret tt);
     ([RGPIO_OUT], wr (next n Rg_out) value);
     ([RGPIO_OE], wr (next n Rg_oe) value);
     ([RGPIO_INTE], wr (next n Rg_inte) value);
     ([RGPIO_PTRIG], wr (next n Rg_ptrig) value);
     ([RGPIO_AUX], wr (next n Rg_aux) value);
     ([RGPIO_CTRL], wr (next n Rg_ctrl) value);
     ([RGPIO_INTS],
        ints ← isset (next n Rg_ints);
        when (ints && negb (nz value)) (irq ← rd (Gpio n Gp_irq); clear_interrupt irq);;
        wr (next n Rg_ints) value)] (ret tt).

Definition gpio_do_int (n : Z) : M unit := irq ← rd (Gpio n Gp_irq); report_interrupt irq.

(** [memcpy (&(gpio->curr), &(gpio->next), sizeof (gpio->curr))] *)
Definition gpio_regs : list gpioreg :=
  [Rg_in; Rg_out; Rg_oe; Rg_inte; Rg_ptrig; Rg_aux; Rg_ctrl; Rg_ints; Rg_external_clock].
Fixpoint gpio_copy (n : Z) (l : list gpioreg) : M unit :=
  match l with
  | [] => ret tt
  | r :: l => v ← rd (next n r); wr (curr n r) v;; gpio_copy n l
  end.

(** The parts of [gpio_device_clock]. *)
Definition gpio_pins (n : Z) : M unit :=
  oe ← rd (next n Rg_oe);
  clr (next n Rg_in) oe;;
  out ← rd (next n Rg_out); aux ← rd (next n Rg_aux); inputs ← rd (Gpio n Gp_auxiliary_inputs);
  wr (next n Rg_out) (Z.lor (Z.land out (Z.lnot aux)) (Z.land inputs aux));;
  out ← rd (next n Rg_out); oe ← rd (next n Rg_oe);
  wr (next n Rg_out) (Z.land out oe).
Definition gpio_notify (n : Z) : M unit :=
  out ← rd (next n Rg_out); old ← rd (curr n Rg_out);
  when (negb (out =? old))
    (id ← rd (Gpio n Gp_base_vapi_id);
     when (nz id) (emit (Ev_vapi_send (u64 (id + GPIO_VAPI_DATA)) out))).
Definition relevant_bits (ptrig inp was : Z) : Z :=
  let changed_bits := u32 (Z.lxor inp was) in
  let set_bits := u32 (Z.land changed_bits inp) in
  let cleared_bits := u32 (Z.land changed_bits was) in
  u32 (Z.lor (Z.land ptrig set_bits) (Z.land (u64 (Z.lnot ptrig)) cleared_bits)).
Definition gpio_interrupts (n : Z) : M unit :=
  inp ← rd (next n Rg_in); was ← rd (curr n Rg_in);
  when (negb (inp =? was))
    (enabled ← flag (next n Rg_ctrl) RGPIO_CTRL_INTE;
     when enabled
       (ptrig ← rd (next n Rg_ptrig); inte ← rd (next n Rg_inte);
        let relevant := relevant_bits ptrig inp was in
        when (nz (Z.land relevant inte))
          (ors (next n Rg_ctrl) RGPIO_CTRL_INTS;;
           ors (next n Rg_ints) (Z.land relevant inte);;
           sched_add J_gpio_do_int n 1))).

Definition gpio_device_clock (n : Z) : M unit :=
  gpio_pins n;;
  gpio_notify n;;
  gpio_interrupts n;;
  gpio_copy n gpio_regs.

Definition gpio_external_clock (value n : Z) : M unit :=
  ctrl ← rd (curr n Rg_ctrl);
  let use_external_clock := Z.land ctrl RGPIO_CTRL_ECLK =? RGPIO_CTRL_ECLK in
  let negative_edge := b2z (Z.land ctrl RGPIO_CTRL_NEC =? RGPIO_CTRL_NEC) in
  let value := b2z (nz value) in
  wr (next n Rg_external_clock) value;;
  new ← rd (next n Rg_external_clock); old ← rd (curr n Rg_external_clock);
  when (use_external_clock && negb (new =? old) && negb (value =? negative_edge))
    (eclk ← flag (curr n Rg_ctrl) RGPIO_CTRL_ECLK;
     when eclk (gpio_device_clock n)).

Definition gpio_clock (n : Z) : M unit :=
  eclk ← flag (curr n Rg_ctrl) RGPIO_CTRL_ECLK;
  when (negb eclk) (gpio_device_clock n);;
  sched_add J_gpio_clock n 1.

Definition gpio_vapi_read (id data n : Z) : M unit :=
  base ← rd (Gpio n Gp_base_vapi_id);
  let which := u32 (id - base) in
  switch which
    [([GPIO_VAPI_DATA], wr (next n Rg_in) data);
     ([GPIO_VAPI_AUX], wr (Gpio n Gp_auxiliary_inputs) data);
     ([GPIO_VAPI_RGPIO_OE], wr (next n Rg_oe) data);
     ([GPIO_VAPI_RGPIO_INTE], wr (next n Rg_inte) data);
     ([GPIO_VAPI_RGPIO_PTRIG], wr (next n Rg_ptrig) data);
     ([GPIO_VAPI_RGPIO_AUX], wr (next n Rg_aux) data);
     ([GPIO_VAPI_RGPIO_CTRL], wr (next n Rg_ctrl) data);
     ([GPIO_VAPI_CLOCK], gpio_external_clock data n)] (ret tt).

(** ** Configuration *)

Definition gpio_baseaddr (val n : Z) : M unit := wr (Gpio n Gp_baseaddr) val.
Definition gpio_irq (val n : Z) : M unit := wr (Gpio n Gp_irq) val.
Definition gpio_base_vapi_id (val n : Z) : M unit := wr (Gpio n Gp_base_vapi_id) val.
Definition gpio_enabled (val n : Z) : M unit := wr (Gpio n Gp_enabled) val.

(** [memset (&new->curr, 0, ...)], [memset (&new->next, 0, ...)] *)
Fixpoint gpio_clear (f : gpioreg -> cell) (l : list gpioreg) : M unit :=
  match l with [] => ret tt | r :: l => wr (f r) 0;; gpio_clear f l end.
Definition gpio_sec_start (n : Z) : M unit :=
  wr (Gpio n Gp_auxiliary_inputs) 0;;
  gpio_clear (curr n) gpio_regs;;
  gpio_clear (next n) gpio_regs;;
  wr (Gpio n Gp_enabled) 1;;
  wr (Gpio n Gp_baseaddr) 0;;
  wr (Gpio n Gp_irq) 0;;
  wr (Gpio n Gp_base_vapi_id) 0.

Definition gpio_ops (n : Z) : mem_ops :=
  let f := Fn_device (D_gpio n) in
  MemOps f Fn_null Fn_null f Fn_null Fn_null Fn_null Fn_null 2 2 false.
Definition gpio_sec_end (n : Z) : M unit :=
  enabled ← isset (Gpio n Gp_enabled);
  if negb enabled then ret tt
  else
    base ← rd (Gpio n Gp_baseaddr);
    _ ← reg_mem_area base GPIO_ADDR_SPACE false (gpio_ops n);
    h ← gets reset_hooks;
    modify (set_hooks (R_device (D_gpio n) :: h)).

(** ** What the functions leave alone *)

#[export] Hint Opaque gpio_reset gpio_read32 gpio_write32 gpio_do_int gpio_copy gpio_device_clock
  gpio_external_clock gpio_clock gpio_vapi_read gpio_clear gpio_sec_start gpio_sec_end
  : typeclass_instances.
#[export] Instance gpio_reset_typed R `{!Enters R} n : Respects R (gpio_reset n).
Proof. unfold gpio_reset. respects. Qed.
#[export] Instance gpio_read32_typed R `{!Enters R} a n : Respects R (gpio_read32 a n).
Proof. unfold gpio_read32. respects. Qed.
#[export] Instance gpio_write32_typed R `{!Enters R} a v n : Respects R (gpio_write32 a v n).
Proof. unfold gpio_write32. respects. Qed.
#[export] Instance gpio_do_int_typed R `{!Enters R} n : Respects R (gpio_do_int n).
Proof. unfold gpio_do_int. respects. Qed.
#[export] Instance gpio_copy_typed R `{!Enters R} n l : Respects R (gpio_copy n l).
Proof. induction l; cbn [gpio_copy]; respects. Qed.
#[export] Instance gpio_device_clock_typed R `{!Enters R} n : Respects R (gpio_device_clock n).
Proof. unfold gpio_device_clock, gpio_pins, gpio_notify, gpio_interrupts. respects. Qed.
#[export] Instance gpio_external_clock_typed R `{!Enters R} v n : Respects R (gpio_external_clock v n).
Proof. unfold gpio_external_clock. respects. Qed.
#[export] Instance gpio_clock_typed R `{!Enters R} n : Respects R (gpio_clock n).
Proof. unfold gpio_clock. respects. Qed.
#[export] Instance gpio_vapi_read_typed R `{!Enters R} i d n : Respects R (gpio_vapi_read i d n).
Proof. unfold gpio_vapi_read. respects. Qed.
#[export] Instance gpio_clear_typed R `{!Enters R} n c l :
  Respects R (gpio_clear (fun r => Gpio n (c r)) l).
Proof. induction l; cbn [gpio_clear]; respects. Qed.

(** ** The clock of the device *)

(** What the clock drives on output pin [i] and reads from input pin [i]. *)
Definition pin_out (n : Z) (s : Sim) (i : Z) : bool :=
  Z.testbit (s (next n Rg_oe)) i &&
  if Z.testbit (s (next n Rg_aux)) i then Z.testbit (s (Gpio n Gp_auxiliary_inputs)) i
  else Z.testbit (s (next n Rg_out)) i.
Definition pin_in (n : Z) (s : Sim) (i : Z) : bool :=
  Z.testbit (s (next n Rg_in)) i && negb (Z.testbit (s (next n Rg_oe)) i).

(** Input pin [i] has an edge of the selected direction that may interrupt. *)
Definition pin_edge (n : Z) (s : Sim) (i : Z) : bool :=
  (i <? 32) && Z.testbit (s (next n Rg_ctrl)) 2 && Z.testbit (s (next n Rg_inte)) i &&
  xorb (pin_in n s i) (Z.testbit (s (curr n Rg_in)) i) &&
  Bool.eqb (pin_in n s i) (Z.testbit (s (next n Rg_ptrig)) i).
Definition interrupting (n : Z) (s : Sim) : bool := existsb (pin_edge n s) (seqZ 0 32).

(** The values the code computes for the three registers. *)
Definition new_in (n : Z) (s : Sim) : Z := Z.land (s (next n Rg_in)) (Z.lnot (s (next n Rg_oe))).
Definition new_out (n : Z) (s : Sim) : Z :=
  Z.land (Z.lor (Z.land (s (next n Rg_out)) (Z.lnot (s (next n Rg_aux))))
            (Z.land (s (Gpio n Gp_auxiliary_inputs)) (s (next n Rg_aux)))) (s (next n Rg_oe)).
Definition edges (n : Z) (s : Sim) : Z :=
  Z.land (relevant_bits (s (next n Rg_ptrig)) (new_in n s) (s (curr n Rg_in))) (s (next n Rg_inte)).

Lemma new_in_bits n (s : Sim) i : 0 <= i -> Z.testbit (new_in n s) i = pin_in n s i.
Proof. intros. unfold new_in, pin_in. by rewrite Z.land_spec, Z.lnot_spec by lia. Qed.
Lemma new_out_bits n (s : Sim) i : 0 <= i -> Z.testbit (new_out n s) i = pin_out n s i.
Proof.
  intros. unfold new_out, pin_out. rewrite !Z.land_spec, Z.lor_spec, !Z.land_spec, Z.lnot_spec by lia.
  do 4 destruct (Z.testbit _ _); reflexivity.
Qed.
Lemma edges_bits n (s : Sim) i :
  0 <= i -> Z.testbit (s (next n Rg_ctrl)) 2 = true -> Z.testbit (edges n s) i = pin_edge n s i.
Proof.
  intros Hi Hc. unfold edges, relevant_bits, pin_edge. rewrite Hc.
  rewrite Z.land_spec, testbit_u32, Z.lor_spec, !Z.land_spec, !testbit_u32, !Z.land_spec, !testbit_u32,
    !Z.lxor_spec, testbit_u64, Z.lnot_spec, new_in_bits by lia.
  destruct (Z.ltb_spec i 32); [rewrite (proj2 (Z.ltb_lt i 64)) by lia | by rewrite !andb_false_r].
  destruct (pin_in n s i), (Z.testbit (s (curr n Rg_in)) i), (Z.testbit (s (next n Rg_ptrig)) i),
    (Z.testbit (s (next n Rg_inte)) i); reflexivity.
Qed.
Lemma pin_edge_off n (s : Sim) i : Z.testbit (s (next n Rg_ctrl)) 2 = false -> pin_edge n s i = false.
Proof. intros Hc. unfold pin_edge. by rewrite Hc, andb_false_r. Qed.
Lemma pin_edge_same n (s : Sim) i : 0 <= i -> new_in n s = s (curr n Rg_in) -> pin_edge n s i = false.
Proof.
  intros Hi E. unfold pin_edge. rewrite <- (new_in_bits n s i Hi), E, xorb_nilpotent.
  by rewrite andb_false_r.
Qed.

Lemma edges_range n (s : Sim) : 0 <= edges n s < 2 ^ 32.
Proof. apply land_range; [lia | apply u32_range]. Qed.

Lemma interrupting_edges n (s : Sim) :
  Z.testbit (s (next n Rg_ctrl)) 2 = true -> interrupting n s = nz (edges n s).
Proof.
  intros Hc. destruct (nz (edges n s)) eqn:E.
  - apply nz_spec in E. apply existsb_exists. destruct (existsb (pin_edge n s) (seqZ 0 32)) eqn:Ex.
    + by apply existsb_exists in Ex.
    + exfalso. apply E. apply Z.bits_inj_0. intros i. destruct (Z.ltb_spec i 0) as [|Hi]; [by apply Z.testbit_neg_r|].
      rewrite edges_bits by done. destruct (Z.ltb_spec i 32) as [H32|H32].
      * apply not_true_is_false. intros Hp. assert (existsb (pin_edge n s) (seqZ 0 32) = true); [|congruence].
        apply existsb_exists. exists i. split; [|done]. apply list_elem_of_In, elem_of_seqZ. lia.
      * unfold pin_edge. by rewrite (proj2 (Z.ltb_ge i 32)).
  - apply nz_false in E. apply not_true_is_false. intros Hx. apply existsb_exists in Hx as (i & Hi & Hp).
    apply list_elem_of_In, elem_of_seqZ in Hi. rewrite <- edges_bits in Hp by (done || lia).
    by rewrite E, Z.testbit_0_l in Hp.
Qed.
Lemma not_interrupting n (s : Sim) : (forall i, 0 <= i -> pin_edge n s i = false) -> interrupting n s = false.
Proof.
  intros H. apply not_true_is_false. intros Hx. apply existsb_exists in Hx as (i & Hi & Hp).
  apply list_elem_of_In, elem_of_seqZ in Hi. rewrite H in Hp by lia. discriminate.
Qed.

Lemma land_u64 a b : 0 <= a < 2 ^ 64 -> u64 (Z.land a b) = Z.land a b.
Proof. intros. apply wrap_small, inty_U64, land_range; lia. Qed.
Lemma lor_u64 a b : 0 <= a < 2 ^ 64 -> 0 <= b < 2 ^ 64 -> u64 (Z.lor a b) = Z.lor a b.
Proof. intros. apply wrap_small, inty_U64, lor_range; lia. Qed.

(** The registers after the clock. *)
Definition clocked (n : Z) (s : Sim) (r : gpioreg) : Z :=
  match r with
  | Rg_in => new_in n s
  | Rg_out => new_out n s
  | Rg_ctrl => Z.lor (s (next n Rg_ctrl)) (if interrupting n s then RGPIO_CTRL_INTS else 0)
  | Rg_ints => Z.lor (s (next n Rg_ints)) (if interrupting n s then edges n s else 0)
  | r => s (next n r)
  end.
(** The value of the output pins is sent when it changes. *)
Definition sent (n : Z) (s : Sim) : list event :=
  let id := s (Gpio n Gp_base_vapi_id) in
  if negb (new_out n s =? s (curr n Rg_out)) && nz id
  then [Ev_vapi_send (u64 (id + GPIO_VAPI_DATA)) (new_out n s)] else [].
Definition gpio_cells (n : Z) (c : cell) : Prop :=
  match c with Gpio n' (Gp_curr _ | Gp_next _) => n' = n | _ => False end.

Lemma gpio_copy_run n l (s : Sim) :
  NoDup l ->
  wp (gpio_copy n l) (fun _ s' =>
    (forall r, r ∈ l -> s' (curr n r) = wrap (ctype (curr n r)) (s (next n r))) /\
    frame (fun c => exists r, r ∈ l /\ c = curr n r) s s' /\ same_lists s s') s.
Proof.
  revert s. induction l as [|r l IH]; intros s Hnd; cbn [gpio_copy].
  - wps. split_and!; [|by intros ?|done]. intros r Hr. by apply not_elem_of_nil in Hr.
  - inversion_clear Hnd as [|? ? Hr Hnd']. unfold curr, next in *. wps. eapply wpx_mono; [by apply IH | done |].
    intros _ s' (Hs' & Hf & Hl). split_and!; [| |exact Hl].
    + intros r' [->|Hr']%elem_of_cons.
      * rewrite Hf; [by look | intros (r' & Hr' & [=])]. congruence.
      * rewrite Hs' by done. by look.
    + intros c Hc. rewrite Hf.
      * apply upd_ne. intros <-. apply Hc. exists r. split; [apply list_elem_of_here | done].
      * intros (r' & Hr' & ->). apply Hc. exists r'. split; [by apply list_elem_of_further | done].
Qed.

(** Assignments to the registers of the device. *)
Lemma frame_gpio n r v (s s' : Sim) :
  frame (gpio_cells n) s s' -> frame (gpio_cells n) s (upd (next n r) v s').
Proof. apply frame_trans_upd. done. Qed.

Lemma gpio_pins_run n (s : Sim) :
  typed s ->
  wp (gpio_pins n) (fun _ s' =>
    (forall r, s' (next n r) =
       match r with Rg_in => new_in n s | Rg_out => new_out n s | r => s (next n r) end) /\
    (forall c, (forall r, c <> next n r) -> s' c = s c) /\ same_lists s s') s.
Proof.
  intros Hty. unfold gpio_pins, next. wps.
  assert (H64 : forall f, ctype (Gpio n f) = U64 -> 0 <= s (Gpio n f) < 2 ^ 64) by (intros; by apply typed_u64).
  split_and!; [intros []; look; try done | | done].
  - apply land_u64. by apply H64.
  - unfold new_out. rewrite lor_u64 by (apply land_range; [lia | by apply H64]).
    apply land_u64, lor_range; [lia | |]; (apply land_range; [lia | by apply H64]).
  - intros c Hc. by rewrite !upd_ne by (intros <-; by eapply Hc).
Qed.

Lemma gpio_notify_run n (s : Sim) :
  wp (gpio_notify n) (fun _ s' =>
    out s' = (if negb (s (next n Rg_out) =? s (curr n Rg_out)) && nz (s (Gpio n Gp_base_vapi_id))
              then [Ev_vapi_send (u64 (s (Gpio n Gp_base_vapi_id) + GPIO_VAPI_DATA)) (s (next n Rg_out))]
              else []) ++ out s /\
    (forall c, s' c = s c) /\ job_queue s' = job_queue s /\ free_jobs s' = free_jobs s) s.
Proof.
  unfold gpio_notify. wps;
    repeat match goal with H : negb _ = _ |- _ => rewrite H | H : nz _ = _ |- _ => rewrite H end; done.
Qed.

(** No pin interrupts: one of the three tests fails. *)
Lemma no_interrupt n (s : Sim) :
  new_in n s = s (curr n Rg_in) \/ Z.testbit (s (next n Rg_ctrl)) 2 = false \/ edges n s = 0 ->
  interrupting n s = false.
Proof.
  intros H. apply not_interrupting. intros i Hi. destruct H as [H|[H|H]].
  - by apply pin_edge_same.
  - by apply pin_edge_off.
  - destruct (Z.testbit (s (next n Rg_ctrl)) 2) eqn:Ec; [|by apply pin_edge_off].
    by rewrite <- edges_bits, H, Z.testbit_0_l.
Qed.

Lemma clocked_quiet n (s : Sim) r :
  interrupting n s = false ->
  clocked n s r = match r with Rg_in => new_in n s | Rg_out => new_out n s | r => s (next n r) end.
Proof. intros Hi. unfold clocked. rewrite Hi. destruct r; rewrite ?Z.lor_0_r; done. Qed.

(** The interrupts of the clock that starts in [s0], after the pins. *)
Lemma gpio_interrupts_run n (s0 s : Sim) :
  typed s0 -> (forall c, (forall r, c <> next n r) -> s c = s0 c) ->
  (forall r, s (next n r) =
     match r with Rg_in => new_in n s0 | Rg_out => new_out n s0 | r => s0 (next n r) end) ->
  queue_good (job_queue s) -> (1 <= length (free_jobs s))%nat ->
  wp (gpio_interrupts n) (fun _ s' =>
    (forall r, s' (next n r) = clocked n s0 r) /\
    (forall c, (forall r, c <> next n r) -> s' c = s0 c) /\
    absq 0 (job_queue s') =
      (if interrupting n s0 then insert_at (1, n, J_gpio_do_int) (absq 0 (job_queue s))
       else absq 0 (job_queue s)) /\
    queue_good (job_queue s') /\ out s' = out s) s.
Proof.
  intros Hty Hc Hr Hq Hf. unfold gpio_interrupts. wps.
  all: rewrite ?(Hr Rg_ctrl), ?(Hr Rg_ptrig), ?(Hr Rg_inte), ?(Hr Rg_in), ?(Hr Rg_ints),
    ?(Hc (curr n Rg_in)) in * by done.
  all: try change RGPIO_CTRL_INTE with (2 ^ 2) in *; rewrite ?nz_land_bit in * by lia.
  all: fold (edges n s0) in *.
  2-4: rewrite (no_interrupt n s0) by (rewrite ?nz_false, ?negb_false_iff, ?Z.eqb_eq in *; tauto).
  2-4: split_and!; try done; intros r; rewrite clocked_quiet; [apply Hr |];
       apply no_interrupt; rewrite ?nz_false, ?negb_false_iff, ?Z.eqb_eq in *; tauto.
  assert (Hi : interrupting n s0 = true) by (by rewrite interrupting_edges).
  eapply wpx_mono; [apply wp_add; [by apply sched_at_refl | lia] | done |].
  intros _ s' (q & fr & -> & Hg & Ha & _). cbn [job_queue set_queue out]. rewrite Hi, Ha.
  pose proof (edges_range n s0). unfold next.
  split_and!; [intros [] | | done | done | done]; look; unfold clocked; rewrite ?Hi;
    rewrite ?(Hr Rg_ctrl); try apply Hr.
  - apply lor_u64; [by apply typed_u64 | done].
  - apply lor_u64; [by apply typed_u64 | lia].
  - intros c Hn. rewrite set_queue_cell, !upd_ne by (intros <-; by eapply Hn). auto.
Qed.

Lemma clocked_range n (s : Sim) r : typed s -> inty (ctype (curr n r)) (clocked n s r).
Proof.
  intros Hty. pose proof (edges_range n s) as He. pose proof (typed_u64 s) as H64.
  destruct r; try match goal with |- context [clocked n s ?r] => exact (Hty (next n r)) end; apply inty_U64; unfold clocked, new_in, new_out.
  - apply land_range; [lia | by apply H64].
  - apply land_range_r; [lia | by apply H64].
  - apply lor_range; [lia | by apply H64 | by destruct (interrupting n s)].
  - apply lor_range; [lia | by apply H64 | destruct (interrupting n s); lia].
Qed.

Lemma gpio_regs_all r : r ∈ gpio_regs.
Proof. apply list_elem_of_In. destruct r; cbn; tauto. Qed.
Lemma gpio_regs_nodup : NoDup gpio_regs.
Proof. repeat constructor; rewrite list_elem_of_In; cbn; intuition discriminate. Qed.

Lemma gpio_device_clock_run n s :
  typed s -> queue_good (job_queue s) -> (1 <= length (free_jobs s))%nat ->
  exists s', gpio_device_clock n s = Ok tt s' /\
    (forall r, s' (curr n r) = clocked n s r /\ s' (next n r) = clocked n s r) /\
    absq 0 (job_queue s') =
      (if interrupting n s then insert_at (1, n, J_gpio_do_int) (absq 0 (job_queue s))
       else absq 0 (job_queue s)) /\
    queue_good (job_queue s') /\ out s' = sent n s ++ out s /\ frame (gpio_cells n) s s'.
Proof.
  intros Hty Hq Hfr. apply wp_unit. unfold gpio_device_clock. wp1.
  eapply wpx_mono; [by apply gpio_pins_run | done |]. intros _ s1 (Hr1 & Hc1 & Hl1). wp1.
  eapply wpx_mono; [apply gpio_notify_run | done |]. intros _ s2 (Ho2 & Hc2 & Hq2 & Hf2). wp1.
  destruct Hl1 as (Hq1 & Hf1 & _ & _ & _ & _ & _ & Ho1 & _).
  eapply wpx_mono; [apply (gpio_interrupts_run n s s2) | done |].
  { exact Hty. } { intros c Hc. rewrite Hc2. by apply Hc1. } { intros r. by rewrite Hc2. }
  { by rewrite Hq2, Hq1. } { by rewrite Hf2, Hf1. }
  intros _ s3 (Hr3 & Hc3 & Ha3 & Hq3 & Ho3).
  eapply wpx_mono; [apply gpio_copy_run, gpio_regs_nodup | done |].
  intros _ s' (Hr' & Hc' & (Hq' & _ & _ & _ & _ & _ & _ & Ho' & _)).
  rewrite Hq', Ho', Ho3, Ho2, Ha3, Hq2, Hq1, Ho1.
  split_and!; try done.
  - intros r. rewrite Hr' by apply gpio_regs_all. rewrite Hc' by (intros (r' & _ & [=])). rewrite Hr3. split; [|done].
    by apply wrap_small, clocked_range.
  - by rewrite (Hr1 Rg_out), (Hc1 (curr n Rg_out)), (Hc1 (Gpio n Gp_base_vapi_id)).
  - intros c Hc. rewrite Hc'.
    + apply Hc3. intros r ->. by apply Hc.
    + intros (r & _ & ->). by apply Hc.
Qed.

Lemma interrupting_on n (s : Sim) : interrupting n s = true -> Z.testbit (s (next n Rg_ctrl)) 2 = true.
Proof.
  intros Hi. apply not_false_is_true. intros Hc. rewrite no_interrupt in Hi by tauto. discriminate.
Qed.

Lemma clocked_ints n (s : Sim) i :
  0 <= i -> Z.testbit (clocked n s Rg_ints) i = Z.testbit (s (next n Rg_ints)) i || pin_edge n s i.
Proof.
  intros Hi. cbn [clocked]. rewrite Z.lor_spec. f_equal. destruct (interrupting n s) eqn:E.
  - by apply edges_bits, interrupting_on.
  - rewrite Z.testbit_0_l. symmetry. apply not_true_is_false. intros Hp. unfold interrupting in E.
    assert (Hx : existsb (pin_edge n s) (seqZ 0 32) = true); [|congruence].
    apply existsb_exists. exists i. split; [|exact Hp]. apply list_elem_of_In, elem_of_seqZ.
    unfold pin_edge in Hp. rewrite !andb_true_iff, Z.ltb_lt in Hp. lia.
Qed.

(** C36: one clock of the device drives each enabled output pin with the output
    register or the auxiliary input, reads the other pins as inputs, records in
    [RGPIO_INTS] the enabled edges of the selected direction on the lower 32
    input pins, sets the interrupt flag and schedules the interrupt for the
    next cycle exactly when there is one, announces changed outputs, leaves the
    other registers as written, and makes all of them current. *)
Theorem gpio_device_clock_correct n s :
  typed s -> queue_good (job_queue s) -> (1 <= length (free_jobs s))%nat ->
  exists s', gpio_device_clock n s = Ok tt s' /\
    (forall i, 0 <= i ->
       Z.testbit (s' (curr n Rg_out)) i = pin_out n s i /\
       Z.testbit (s' (curr n Rg_in)) i = pin_in n s i /\
       Z.testbit (s' (curr n Rg_ints)) i = Z.testbit (s (next n Rg_ints)) i || pin_edge n s i) /\
    s' (curr n Rg_ctrl) =
      Z.lor (s (next n Rg_ctrl)) (if interrupting n s then RGPIO_CTRL_INTS else 0) /\
    (forall r, r ∈ [Rg_oe; Rg_inte; Rg_ptrig; Rg_aux; Rg_external_clock] -> s' (curr n r) = s (next n r)) /\
    (forall r, s' (next n r) = s' (curr n r)) /\
    absq 0 (job_queue s') =
      (if interrupting n s then insert_at (1, n, J_gpio_do_int) (absq 0 (job_queue s))
       else absq 0 (job_queue s)) /\
    queue_good (job_queue s') /\ out s' = sent n s ++ out s /\ frame (gpio_cells n) s s'.
Proof.
  intros Hty Hq Hf. destruct (gpio_device_clock_run n s Hty Hq Hf) as (s' & E & Hr & Hj & Hq' & Ho & Hfr).
  exists s'. split_and!; try done.
  - intros i Hi. rewrite !(proj1 (Hr _)). split_and!.
    + by apply new_out_bits.
    + by apply new_in_bits.
    + by apply clocked_ints.
  - apply (Hr Rg_ctrl).
  - intros r Hin. rewrite (proj1 (Hr r)). rewrite list_elem_of_In in Hin.
    repeat (destruct Hin as [<-|Hin]; [done|]). destruct Hin.
  - intros r. by rewrite (proj1 (Hr r)), (proj2 (Hr r)).
Qed.

(** ** The external clock *)

Lemma external_clock_idle v n (s : Sim) :
  s (curr n Rg_external_clock) = b2z (negb (Z.testbit (s (curr n Rg_ctrl)) 1)) ->
  gpio_external_clock v n s = Ok tt (upd (next n Rg_external_clock) (b2z (nz v)) s).
Proof.
  intros Hc. assert (H : wp (gpio_external_clock v n)
    (fun _ s' => s' = upd (next n Rg_external_clock) (b2z (nz v)) s) s).
  { unfold gpio_external_clock, next, curr in *. wps; [exfalso | exfalso | done].
    all: change RGPIO_CTRL_NEC with (2 ^ 1) in *; rewrite land_eqb_bit in * by lia.
    all: rewrite Hc in *; destruct (nz v), (Z.testbit _ 1); cbn in *; rewrite ?andb_false_r in *; discriminate. }
  unfold wpx in H. destruct (gpio_external_clock v n s) as [[] s'|w s']; [by subst | done].
Qed.

(** Once the recorded level of the external clock
     is the one of the active edge, no change of the level clocks the device again: the
    edge test compares with [curr.external_clock], which only a clock of the
    device updates.  With the negative edge selected this is so from reset on. *)
Theorem external_clock_stuck n (s : Sim) :
  s (curr n Rg_external_clock) = b2z (negb (Z.testbit (s (curr n Rg_ctrl)) 1)) ->
  forall values, exists s',
    foldr (fun v (m : M unit) => gpio_external_clock v n;; m) (ret tt) values s = Ok tt s' /\
    frame (fun c => c = next n Rg_external_clock) s s' /\ same_lists s s'.
Proof.
  intros Hc values. revert s Hc. induction values as [|v values IH]; intros s Hc; cbn [foldr].
  - exists s. split_and!; [done | by intros ? | done].
  - set (s1 := upd (next n Rg_external_clock) (b2z (nz v)) s).
    destruct (IH s1) as (s' & E & Hf & Hl).
    { subst s1. unfold curr, next in *. by look. }
    exists s'. split_and!.
    + unfold bind. by rewrite external_clock_idle.
    + intros c Hn. rewrite Hf by done. by apply upd_ne.
    + exact Hl.
Qed.

(** ** Witnesses *)

(** Input pin 0 rises, with its interrupt enabled. *)
Definition ex_gpio : Sim :=
  upd (next 0 Rg_in) 1 (upd (next 0 Rg_ctrl) RGPIO_CTRL_INTE
    (upd (next 0 Rg_inte) 1 (upd (next 0 Rg_ptrig) 1 ex_sim))).

Lemma gpio_device_clock_correct_witness : exists s',
  gpio_device_clock 0 ex_gpio = Ok tt s' /\ Z.testbit (s' (curr 0 Rg_ints)) 0 = true /\
  absq 0 (job_queue s') = insert_at (1, 0, J_gpio_do_int) (absq 0 ex_queue).
Proof.
  destruct (gpio_device_clock_correct 0 ex_gpio) as (s' & E & Hb & _ & _ & _ & Hj & _).
  { repeat apply upd_typed. exact zero_typed. }
  { exact ex_queue_good. }
  { cbn. lia. }
  exists s'. split_and!; [exact E | | exact Hj].
  rewrite (proj2 (proj2 (Hb 0 ltac:(lia)))). vm_compute. reflexivity.
Defined.

(** Negative edge: the external clock never works. *)
Definition ex_nec : Sim := upd (curr 0 Rg_ctrl) (Z.lor RGPIO_CTRL_ECLK RGPIO_CTRL_NEC) zero_state.
Lemma external_clock_stuck_witness : exists s',
  foldr (fun v (m : M unit) => gpio_external_clock v 0;; m) (ret tt) [1; 0; 1; 0] ex_nec = Ok tt s' /\
  frame (fun c => c = next 0 Rg_external_clock) ex_nec s'.
Proof.
  destruct (external_clock_stuck 0 ex_nec) with (values := [1; 0; 1; 0]) as (s' & E & Hf & _); [reflexivity|].
  exists s'. split; [exact E | exact Hf].
Defined.
End Gpio.
