(* ===== verification/Mc.v ===== *)
(** * The memory controller (peripheral/mc.c)

    The controller maps the memory areas registered with it: its chip select
    registers give the address, the validity and the delays of an area.  The
    areas are nodes of linked lists, first one list for all controllers
    ([Mc_areas]), later one for each; a node is a number, [NULL] is 0. *)

From S2P Require Export Mem.

Module Mc.
Import Except Mem.

Definition N_CE := 8.
Definition MC_CSR := 0x00.
Definition MC_POC := 0x04.
Definition MC_BA_MASK := 0x08.
Definition MC_CSC (i : Z) := 0x10 + i * 8.
Definition MC_TMS (i : Z) := 0x14 + i * 8.
Definition MC_ADDR_SPACE := MC_CSC N_CE.
Definition MC_CSC_EN_OFFSET := 0.
Definition MC_CSC_MEMTYPE_OFFSET := 1.
Definition MC_CSC_BW_OFFSET := 4.
Definition MC_CSC_SEL_OFFSET := 16.
Definition MC_CSC_MEMTYPE_SDRAM := 0.
Definition MC_CSC_MEMTYPE_SSRAM := 1.
Definition MC_CSC_MEMTYPE_ASYNC := 2.
Definition MC_CSC_MEMTYPE_SYNC := 3.
Definition MC_CE_VALID := N_CE - 1.
Definition MC_POC_VALID := 0x0000000F.
Definition MC_BA_MASK_VALID := 0x000003FF.
Definition MC_TMS_SDRAM_VALID := 0x0FFF83FF.
Definition MC_TMS_SSRAM_VALID := 0x00000000.
Definition MC_TMS_ASYNC_VALID := 0x03FFFFFF.
Definition MC_TMS_SYNC_VALID := 0x01FFFFFF.

(** How far the loops over the lists can go. *)
Definition list_fuel : M nat := c ← rd Mc_area_count; ret (S (Z.to_nat c)).

(** [(csc >> MC_CSC_MEMTYPE_OFFSET) && 0x07 == type]: the operator is the
    logical one. *)
Definition memtype_is (csc type : Z) : bool := nz (Z.shiftr csc MC_CSC_MEMTYPE_OFFSET) && (0x07 =? type).

Definition field (v offset mask : Z) : Z := Z.land (Z.shiftr v offset) mask.

(** The body of [set_csc_tms] for the node that has the chip select. *)
Definition program_area (mem csc tms n : Z) : M unit :=
  let i := Z.to_nat mem in
  ba_mask ← rd (Mc n Mc_ba_mask);
  set_area i (fun a => DevMemarea (u32 (Z.shiftl ba_mask 22))
    (u32 (Z.shiftl (Z.shiftr csc MC_CSC_SEL_OFFSET) 22))
    (area_size a) (size_mask a) (valid a) (area_log a) (ops a) (direct_ops a));;
  set_mem_valid i (field csc MC_CSC_EN_OFFSET 0x01);;
  if memtype_is csc MC_CSC_MEMTYPE_ASYNC then
    adjust_rw_delay i (Z.land tms 0xff + field tms 8 0x0f)
      (field tms 12 0x0f + field tms 16 0x0f + field tms 20 0x3f)
  else if memtype_is csc MC_CSC_MEMTYPE_SDRAM then
    adjust_rw_delay i (3 + field tms 4 0x03) (3 + field tms 4 0x03)
  else if memtype_is csc MC_CSC_MEMTYPE_SSRAM then adjust_rw_delay i 2 2
  else if memtype_is csc MC_CSC_MEMTYPE_SYNC then adjust_rw_delay i 2 2
  else ret tt.

Fixpoint find_cs (fuel : nat) (cs cur : Z) (found : Z -> M unit) : M unit :=
  match fuel with
  | O => stop_with Out_of_fuel
  | S fuel =>
      if cur =? 0 then ret tt
      else
        c ← rd (Mc_area cur Ma_cs);
        if c =? u32 cs then found cur
        else nxt ← rd (Mc_area cur Ma_next); find_cs fuel cs nxt found
  end.
Definition set_csc_tms (cs csc tms n : Z) : M unit :=
  cur ← rd (Mc n Mc_own_areas);
  fuel ← list_fuel;
  find_cs fuel cs cur (fun cur => mem ← rd (Mc_area cur Ma_mem); program_area mem csc tms n).

Definition mc_write_word (addr value n : Z) : M unit :=
  switch addr
    [([MC_CSR], wr (Mc n Mc_csr) value);
     ([MC_POC], emit Ev_warning);
     ([MC_BA_MASK],
        wr (Mc n Mc_ba_mask) (Z.land value MC_BA_MASK_VALID);;
        for_ (Z.to_nat N_CE) 0 1 (fun chipsel =>
          csc ← rd (Mc n (Mc_csc chipsel)); tms ← rd (Mc n (Mc_tms chipsel));
          set_csc_tms chipsel csc tms n))]
    (when ((MC_CSC 0 <=? addr) && (addr <=? MC_TMS (N_CE - 1)))
       (let addr := addr - MC_CSC 0 in
        let cs := Z.shiftr addr 3 in
        (if nz (Z.land (Z.shiftr addr 2) 1) then wr (Mc n (Mc_tms cs)) value
         else wr (Mc n (Mc_csc cs)) value);;
        csc ← rd (Mc n (Mc_csc cs)); tms ← rd (Mc n (Mc_tms cs));
        set_csc_tms cs csc tms n)).

Definition mc_read_word (addr n : Z) : M Z :=
  switch addr
    [([MC_CSR], rd (Mc n Mc_csr));
     ([MC_POC], rd (Mc n Mc_poc));
     ([MC_BA_MASK], rd (Mc n Mc_ba_mask))]
    (if (MC_CSC 0 <=? addr) && (addr <=? MC_TMS (N_CE - 1)) then
       let addr := addr - MC_CSC 0 in
       if nz (Z.land (Z.shiftr addr 2) 1) then rd (Mc n (Mc_tms (Z.shiftr addr 3)))
       else rd (Mc n (Mc_csc (Z.shiftr addr 3)))
     else ret 0).

(** The loop of [mc_reset] that moves the nodes of this controller to its own
    list. *)
Fixpoint grab_areas (fuel : nat) (n cur prev : Z) : M unit :=
  match fuel with
  | O => stop_with Out_of_fuel
  | S fuel =>
      if cur =? 0 then ret tt
      else
        mc ← rd (Mc_area cur Ma_mc); index ← rd (Mc n Mc_index);
        if mc =? index then
          nxt ← rd (Mc_area cur Ma_next);
          (if nz prev then wr (Mc_area prev Ma_next) nxt else wr Mc_areas nxt);;
          tmp ← rd (Mc_area cur Ma_next);
          own ← rd (Mc n Mc_own_areas);
          wr (Mc_area cur Ma_next) own;;
          wr (Mc n Mc_own_areas) cur;;
          grab_areas fuel n tmp cur
        else nxt ← rd (Mc_area cur Ma_next); grab_areas fuel n nxt cur
  end.

(** The loop that makes the areas of a list invalid. *)
Fixpoint invalidate_areas (fuel : nat) (cur : Z) : M unit :=
  match fuel with
  | O => stop_with Out_of_fuel
  | S fuel =>
      if cur =? 0 then ret tt
      else
        mem ← rd (Mc_area cur Ma_mem);
        set_mem_valid (Z.to_nat mem) 0;;
        nxt ← rd (Mc_area cur Ma_next);
        invalidate_areas fuel nxt
  end.

(** The registers' part of [mc_reset]. *)
Definition mc_reset_regs (n : Z) : M unit :=
  for_ (Z.to_nat N_CE) 0 1 (fun i => wr (Mc n (Mc_csc i)) 0);;
  for_ (Z.to_nat N_CE) 0 1 (fun i => wr (Mc n (Mc_tms i)) 0);;
  wr (Mc n Mc_csr) 0;;
  wr (Mc n Mc_ba_mask) 0;;
  poc ← rd (Mc n Mc_poc);
  wr (Mc n (Mc_csc 0)) (Z.lor (Z.lor (Z.shiftl (Z.shiftr (Z.land poc 0x0c) 2) MC_CSC_MEMTYPE_OFFSET)
                                 (Z.shiftl (Z.land poc 0x03) MC_CSC_BW_OFFSET)) 1);;
  csc ← rd (Mc n (Mc_csc 0));
  if memtype_is csc MC_CSC_MEMTYPE_ASYNC then wr (Mc n (Mc_tms 0)) MC_TMS_ASYNC_VALID
   else if memtype_is csc MC_CSC_MEMTYPE_SDRAM then wr (Mc n (Mc_tms 0)) MC_TMS_SDRAM_VALID
   else if memtype_is csc MC_CSC_MEMTYPE_SSRAM then wr (Mc n (Mc_tms 0)) MC_TMS_SSRAM_VALID
   else if memtype_is csc MC_CSC_MEMTYPE_SYNC then wr (Mc n (Mc_tms 0)) MC_TMS_SYNC_VALID
   else ret tt.

Definition mc_reset (n : Z) : M unit :=
  mc_reset_regs n;;
  cur ← rd Mc_areas;
  fuel ← list_fuel;
  grab_areas fuel n cur 0;;
  cur ← rd (Mc n Mc_own_areas);
  invalidate_areas fuel cur;;
  csc ← rd (Mc n (Mc_csc 0)); tms ← rd (Mc n (Mc_tms 0));
  set_csc_tms 0 csc tms n.

Definition mc_reg_mem_area (mem : nat) (cs mc : Z) : M unit :=
  count ← rd Mc_area_count;
  let new := count + 1 in
  wr Mc_area_count new;;
  wr (Mc_area new Ma_cs) cs;;
  wr (Mc_area new Ma_mem) (Z.of_nat mem);;
  wr (Mc_area new Ma_mc) mc;;
  head ← rd Mc_areas;
  wr (Mc_area new Ma_next) head;;
  wr Mc_areas new.

(** ** Configuration *)

Definition mc_enabled (val n : Z) : M unit := wr (Mc n Mc_enabled) val.
Definition mc_baseaddr (val n : Z) : M unit := wr (Mc n Mc_baseaddr) val.
Definition mc_poc (val n : Z) : M unit :=
  when (MC_POC_VALID <? val) (emit Ev_warning);;
  wr (Mc n Mc_poc) (Z.land val MC_POC_VALID).
Definition mc_index (val n : Z) : M unit :=
  when (MC_CE_VALID <? val) (emit Ev_warning);;
  wr (Mc n Mc_index) (Z.land val MC_CE_VALID).
Definition mc_sec_start (n : Z) : M unit :=
  wr (Mc n Mc_enabled) 1;;
  wr (Mc n Mc_baseaddr) 0;;
  wr (Mc n Mc_poc) 0;;
  wr (Mc n Mc_index) 0;;
  wr (Mc n Mc_own_areas) 0.
Definition mc_ops (n : Z) : mem_ops :=
  let f := Fn_device (D_mc n) in
  MemOps f Fn_null Fn_null f Fn_null Fn_null Fn_null Fn_null 2 2 false.
(** The list [mcs], to which the function adds the controller, is never read and
    not modelled. *)
Definition mc_sec_end (n : Z) : M unit :=
  enabled ← isset (Mc n Mc_enabled);
  if negb enabled then ret tt
  else
    base ← rd (Mc n Mc_baseaddr);
    _ ← reg_mem_area base MC_ADDR_SPACE true (mc_ops n);
    h ← gets reset_hooks;
    modify (set_hooks (R_device (D_mc n) :: h)).

(** ** What the functions leave alone *)

#[export] Hint Opaque list_fuel program_area find_cs set_csc_tms mc_write_word mc_read_word grab_areas
  invalidate_areas mc_reset_regs mc_reset mc_reg_mem_area set_area set_mem_valid adjust_rw_delay : typeclass_instances.
Section Typed.
Context R `{!Enters R}.
#[export] Instance list_fuel_typed : Respects R list_fuel.
Proof. unfold list_fuel. respects. Qed.
#[export] Instance set_area_typed i f : Respects R (set_area i f).
Proof. unfold set_area. respects. Qed.
#[export] Instance mc_set_mem_valid_typed i v : Respects R (set_mem_valid i v).
Proof. unfold set_mem_valid. respects. Qed.
#[export] Instance adjust_rw_delay_typed i a b : Respects R (adjust_rw_delay i a b).
Proof. unfold adjust_rw_delay. respects. Qed.
#[export] Instance program_area_typed m c t n : Respects R (program_area m c t n).
Proof. unfold program_area. respects. Qed.
Lemma find_cs_typed f cs c g :
  (forall x, Respects R (g x)) -> Respects R (find_cs f cs c g).
Proof. revert c. induction f; intros c Hg; cbn [find_cs]; respects. Qed.
#[export] Instance set_csc_tms_typed cs c t n : Respects R (set_csc_tms cs c t n).
Proof. unfold set_csc_tms. respects. apply find_cs_typed. respects. Qed.
#[export] Instance mc_write_word_typed a v n : Respects R (mc_write_word a v n).
Proof. unfold mc_write_word. respects. Qed.
#[export] Instance mc_read_word_typed a n : Respects R (mc_read_word a n).
Proof. unfold mc_read_word. respects. Qed.
#[export] Instance grab_areas_typed f n c p : Respects R (grab_areas f n c p).
Proof. revert c p. induction f; intros c p; cbn [grab_areas]; respects. Qed.
#[export] Instance invalidate_areas_typed f c : Respects R (invalidate_areas f c).
Proof. revert c. induction f; intros c; cbn [invalidate_areas]; respects. Qed.
#[export] Instance mc_reset_regs_typed n : Respects R (mc_reset_regs n).
Proof. unfold mc_reset_regs. respects. Qed.
#[export] Instance mc_reset_typed n : Respects R (mc_reset n).
Proof. unfold mc_reset. respects. Qed.
#[export] Instance mc_reg_mem_area_plain m cs mc : Respects R (mc_reg_mem_area m cs mc).
Proof. unfold mc_reg_mem_area. respects. Qed.
End Typed.

(** ** The lists *)

(** The nodes reached from [p]. *)
Fixpoint chain (s : Sim) (p : Z) (l : list Z) : Prop :=
  match l with
  | [] => p = 0
  | a :: l => p = a /\ a <> 0 /\ chain s (s (Mc_area a Ma_next)) l
  end.

Lemma chain_ext (s s' : Sim) p l :
  (forall a, a ∈ l -> s' (Mc_area a Ma_next) = s (Mc_area a Ma_next)) -> chain s p l -> chain s' p l.
Proof.
  revert p. induction l as [|a l IH]; intros p H; cbn; [done|]. intros (-> & Ha & Hc).
  split_and!; [done | done |]. rewrite H by apply list_elem_of_here.
  apply IH; [|done]. intros b Hb. by apply H, list_elem_of_further.
Qed.

(** The cells [grab_areas] writes. *)
Definition list_cell (n : Z) (c : cell) : Prop :=
  c = Mc n Mc_own_areas \/ c = G Mc_areas \/ exists a, c = Mc_area a Ma_next.
Lemma frame_list_cell n c v (s s' : Sim) :
  list_cell n c -> frame (list_cell n) s s' -> frame (list_cell n) s (upd c v s').
Proof. apply frame_trans_upd. Qed.

(** Moving the nodes [l] one by one onto the list that starts with [prev]: the
    link of each node to its predecessor is overwritten when the next node is
    moved, so only the last two nodes stay on the list. *)
Lemma grab_tail n l : forall fuel cur prev (s : Sim),
  chain s cur l -> NoDup (prev :: l) -> prev <> 0 -> l <> [] -> (length l < fuel)%nat -> typed s ->
  (forall a, a ∈ l -> s (Mc_area a Ma_mc) = s (Mc n Mc_index)) ->
  s (Mc n Mc_own_areas) = prev -> inty I32 cur ->
  wp (grab_areas fuel n cur prev) (fun _ s' =>
    (exists l0 x y, prev :: l = l0 ++ [y; x] /\ chain s' (s' (Mc n Mc_own_areas)) [x; y]) /\
    s' Mc_areas = s Mc_areas /\ frame (list_cell n) s s' /\ same_lists s s') s.
Proof.
  induction l as [|a l IH]; intros fuel cur prev s Hc Hnd Hp0 Hl Hf Hty Hmc Ho Hcur; [done|].
  destruct fuel as [|fuel]; [cbn in Hf; lia|]. destruct Hc as (-> & Ha0 & Hc).
  cbn [grab_areas]. rewrite (proj2 (Z.eqb_neq a 0)) by done. do 4 (wp1; cbv beta).
  rewrite (Hmc a) by apply list_elem_of_here. rewrite Z.eqb_refl.
  rewrite (proj2 (nz_spec prev)) by done.
  inversion_clear Hnd as [|? ? Hp Hnd']. rewrite elem_of_cons in Hp.
  assert (Hpa : prev <> a) by tauto.
  wps. set (s1 := upd (Mc n Mc_own_areas) a _).
  assert (Hty1 : typed s1) by (by repeat apply upd_typed).
  assert (Hfr1 : frame (list_cell n) s s1).
  { subst s1. repeat apply frame_list_cell; unfold list_cell; eauto; reflexivity. }
  assert (Hs : same_lists s s1) by done.
  assert (Hown : s1 (Mc n Mc_own_areas) = a) by (subst s1; look; by apply (wrap_small I32)).
  assert (Han : s1 (Mc_area a Ma_next) = prev).
  { subst s1. look. rewrite <- Ho. exact (typed_wrap s (Mc n Mc_own_areas) Hty). }
  assert (Hpn : s1 (Mc_area prev Ma_next) = s (Mc_area a Ma_next)).
  { subst s1. look. exact (typed_wrap s (Mc_area a Ma_next) Hty). }
  assert (Hon : forall b, b ∈ l -> s1 (Mc_area b Ma_next) = s (Mc_area b Ma_next)).
  { intros b Hb. inversion_clear Hnd' as [|? ? Hal _]. subst s1. look.
    rewrite ?upd_ne; [done | intros [=]; subst; tauto..]. }
  assert (Hg : s1 Mc_areas = s Mc_areas) by (subst s1; by look).
  assert (Hm : forall b, s1 (Mc_area b Ma_mc) = s1 (Mc n Mc_index) <-> s (Mc_area b Ma_mc) = s (Mc n Mc_index))
    by (intros b; subst s1; by look).
  clearbody s1. destruct l as [|b l].
  - cbn in Hc. rewrite Hc. destruct fuel as [|fuel]; [cbn in Hf; lia|]. cbn [grab_areas]. rewrite Z.eqb_refl. wps.
    split_and!; [|done..]. exists [], a, prev. split; [done|]. cbn [chain].
    by rewrite Hown, Han, Hpn, Hc.
  - eapply wpx_mono; [apply IH | done |]; try done.
    + by apply (chain_ext s).
    + cbn in Hf |- *. lia.
    + intros c Hin. apply Hm, Hmc. by apply list_elem_of_further.
    + apply (Hty (Mc_area a Ma_next)).
    + intros _ s' ((l0 & x & y & E & Hch) & H1 & H2 & H3). split_and!.
      * exists (prev :: l0), x, y. split; [by rewrite E | done].
      * congruence.
      * by etransitivity.
      * by etransitivity.
Qed.

(** The node [set_csc_tms] stops at. *)
Definition first_cs (s : Sim) (cs : Z) (l : list Z) : option Z :=
  List.find (fun a => s (Mc_area a Ma_cs) =? u32 cs) l.

Lemma find_cs_run cs found l : forall fuel cur (s : Sim),
  chain s cur l -> (length l < fuel)%nat ->
  find_cs fuel cs cur found s = match first_cs s cs l with Some a => found a s | None => Ok tt s end.
Proof.
  induction l as [|a l IH]; intros fuel cur s Hc Hf; (destruct fuel as [|fuel]; [cbn in Hf; lia|]);
    cbn [find_cs chain first_cs List.find] in *.
  - by rewrite Hc.
  - destruct Hc as (-> & Ha & Hc). rewrite (proj2 (Z.eqb_neq a 0)) by done. unfold bind at 1, rd at 1.
    destruct (_ =? u32 cs); [done|]. unfold bind, rd. apply IH; [done | lia || (cbn in Hf; lia)].
Qed.

(** The operator of [memtype_is] makes the delays unreachable. *)
Lemma memtype_never csc t : In t [MC_CSC_MEMTYPE_ASYNC; MC_CSC_MEMTYPE_SDRAM; MC_CSC_MEMTYPE_SSRAM; MC_CSC_MEMTYPE_SYNC] ->
  memtype_is csc t = false.
Proof. unfold memtype_is. intros Ht. repeat (destruct Ht as [<-|Ht]; [by rewrite andb_false_r|]). destruct Ht. Qed.

(** An area with the mapping that the registers [ba_mask] and [csc] give. *)
Definition mapped (ba_mask csc : Z) (a : dev_memarea) : dev_memarea :=
  DevMemarea (u32 (Z.shiftl ba_mask 22)) (u32 (Z.shiftl (Z.shiftr csc 16) 22))
    (area_size a) (size_mask a) (Z.land csc 1) (area_log a) (ops a) (direct_ops a).

Lemma program_area_run mem csc tms n (s : Sim) :
  program_area mem csc tms n s =
    Ok tt (set_areas (alter (mapped (s (Mc n Mc_ba_mask)) csc) (Z.to_nat mem) (dev_list s)) s).
Proof.
  unfold program_area. rewrite !memtype_never by (cbn; tauto).
  unfold set_mem_valid, set_area, bind, rd, gets, modify. cbn [dev_list set_areas].
  rewrite list_alter_alter_eq. by do 2 f_equal.
Qed.

(** The areas after [set_csc_tms], with the nodes [l] on the controller's list. *)
Definition remap (n : Z) (s : Sim) (l : list Z) (cs : Z) (areas : list dev_memarea) : list dev_memarea :=
  match first_cs s cs l with
  | Some a => alter (mapped (s (Mc n Mc_ba_mask)) (s (Mc n (Mc_csc cs)))) (Z.to_nat (s (Mc_area a Ma_mem))) areas
  | None => areas
  end.

Lemma list_fuel_run (s : Sim) : list_fuel s = Ok (S (Z.to_nat (s Mc_area_count))) s.
Proof. reflexivity. Qed.

Definition own_list (n : Z) (s : Sim) (l : list Z) : Prop :=
  chain s (s (Mc n Mc_own_areas)) l /\ Z.of_nat (length l) <= s Mc_area_count.

Lemma set_csc_tms_run cs n l (s : Sim) :
  own_list n s l ->
  (csc ← rd (Mc n (Mc_csc cs)); tms ← rd (Mc n (Mc_tms cs)); set_csc_tms cs csc tms n) s =
    Ok tt (set_areas (remap n s l cs (dev_list s)) s).
Proof.
  intros [Hc Hl]. unfold set_csc_tms, bind, rd. rewrite list_fuel_run.
  rewrite (find_cs_run _ _ l) by (done || lia). unfold remap.
  destruct (first_cs s cs l); [apply program_area_run | by destruct s].
Qed.

(** The registers as the bus sees them. *)
Definition mc_reg (addr : Z) : option mcvar :=
  if addr =? MC_CSR then Some Mc_csr
  else if addr =? MC_POC then Some Mc_poc
  else if addr =? MC_BA_MASK then Some Mc_ba_mask
  else if (0x10 <=? addr) && (addr <? 0x50) then
    Some (if Z.testbit addr 2 then Mc_tms ((addr - 0x10) / 8) else Mc_csc ((addr - 0x10) / 8))
  else None.

Lemma own_list_ext n l (s s' : Sim) :
  (forall a, s' (Mc_area a Ma_next) = s (Mc_area a Ma_next)) ->
  s' (Mc n Mc_own_areas) = s (Mc n Mc_own_areas) -> s' Mc_area_count = s Mc_area_count ->
  own_list n s l -> own_list n s' l.
Proof. intros H1 H2 H3 [Hc Hl]. split; [rewrite H2; by apply (chain_ext s) | by rewrite H3]. Qed.

Lemma remap_all_run n l (s : Sim) : own_list n s l -> forall k lo areas,
  for_ k lo 1 (fun cs => csc ← rd (Mc n (Mc_csc cs)); tms ← rd (Mc n (Mc_tms cs)); set_csc_tms cs csc tms n)
    (set_areas areas s) =
  Ok tt (set_areas (foldl (fun ar cs => remap n s l cs ar) areas (seqZ lo (Z.of_nat k))) s).
Proof.
  intros Hl k. induction k as [|k IH]; intros lo areas; [done|]. cbn [for_]. unfold bind at 1.
  rewrite (set_csc_tms_run lo n l) by (by apply (own_list_ext n l s)).
  rewrite seqZ_cons by lia. cbn [foldl]. replace (Z.pred (Z.of_nat (S k))) with (Z.of_nat k) by lia.
  apply IH.
Qed.

Lemma mc_reg_range addr : addr mod 4 = 0 ->
  (MC_CSC 0 <=? addr) && (addr <=? MC_TMS (N_CE - 1)) = (0x10 <=? addr) && (addr <? 0x50).
Proof.
  intros Ha. change (MC_CSC 0) with 0x10. change (MC_TMS (N_CE - 1)) with 0x4c. f_equal.
  pose proof (Z.div_mod addr 4). destruct (Z.leb_spec addr 0x4c), (Z.ltb_spec addr 0x50); lia.
Qed.
Lemma mc_reg_bit addr : nz (Z.land (Z.shiftr (addr - MC_CSC 0) 2) 1) = Z.testbit addr 2.
Proof.
  change 1 with (2 ^ 0) at 1. rewrite nz_land_bit, Z.shiftr_spec by lia. change (MC_CSC 0) with 16.
  rewrite !Z.testbit_odd, !Z.shiftr_div_pow2 by lia.
  replace (addr / 2 ^ 2) with ((addr - 16) / 2 ^ 2 + 2 * 2)
    by (rewrite <- Z.div_add by done; f_equal; lia).
  by rewrite Z.odd_add_mul_2.
Qed.
Lemma mc_reg_index addr : Z.shiftr (addr - MC_CSC 0) 3 = (addr - 0x10) / 8.
Proof. by rewrite Z.shiftr_div_pow2. Qed.

(** A write to a register of chip select [cs]. *)
Lemma mc_write_reg n l v cs r (s : Sim) (read : M Z) :
  own_list n s l -> 0 <= v < 2 ^ 32 -> r = Mc_csc cs \/ r = Mc_tms cs -> read = rd (Mc n r) ->
  exists s',
    (wr (Mc n r) v;; csc ← rd (Mc n (Mc_csc cs)); tms ← rd (Mc n (Mc_tms cs));
     set_csc_tms cs csc tms n) s = Ok tt s' /\
    (forall r', Some r = Some r' -> read s' = Ok (s' (Mc n r')) s' /\
       s' (Mc n r') = match r' with Mc_poc => s (Mc n r') | Mc_ba_mask => Z.land v 0x3ff | _ => v end) /\
    frame (fun c => exists r', Some r = Some r' /\ c = Mc n r') s s' /\
    dev_list s' =
      match r with
      | Mc_ba_mask => foldl (fun ar cs => remap n s' l cs ar) (dev_list s) (seqZ 0 8)
      | Mc_csc cs | Mc_tms cs => remap n s' l cs (dev_list s)
      | _ => dev_list s
      end.
Proof.
  intros Hl Hv Hr ->. set (s1 := upd (Mc n r) v s).
  assert (Hl1 : own_list n s1 l).
  { apply (own_list_ext n l s); auto; subst s1; intros; destruct Hr as [-> | ->]; by look. }
  pose proof (set_csc_tms_run cs n l s1 Hl1) as E.
  eexists. split; [exact E|]. split_and!.
  - intros r' [= <-]. split; [done|]. change (s1 (Mc n r) = match r with Mc_poc => s (Mc n r) | Mc_ba_mask => Z.land v 0x3ff | _ => v end).
    subst s1. rewrite upd_eq. destruct Hr as [-> | ->]; by apply u32_small.
  - intros c Hc. apply (frame_upd (fun c => c = Mc n r)); [done|]. intros ->. eauto.
  - by destruct Hr as [-> | ->].
Qed.

(** C37: a write to an aligned register of the controller is read back (the
    mask register keeps its ten bits, the power-on register is read-only), and
    maps the areas by the new registers: a chip select register maps the first
    area on the controller's list with that chip select, the mask register all
    of them; no other area and no delay of an area changes. *)
Theorem mc_write_correct addr v n l (s : Sim) :
  typed s -> own_list n s l -> 0 <= v < 2 ^ 32 -> addr mod 4 = 0 ->
  exists s', mc_write_word addr v n s = Ok tt s' /\
    (forall r, mc_reg addr = Some r -> mc_read_word addr n s' = Ok (s' (Mc n r)) s' /\
       s' (Mc n r) = match r with Mc_poc => s (Mc n r) | Mc_ba_mask => Z.land v 0x3ff | _ => v end) /\
    frame (fun c => exists r, mc_reg addr = Some r /\ c = Mc n r) s s' /\
    dev_list s' =
      match mc_reg addr with
      | Some Mc_ba_mask => foldl (fun ar cs => remap n s' l cs ar) (dev_list s) (seqZ 0 8)
      | Some (Mc_csc cs | Mc_tms cs) => remap n s' l cs (dev_list s)
      | _ => dev_list s
      end.
Proof.
  intros Hty Hl Hv Ha. unfold mc_write_word, mc_read_word, mc_reg, switch. cbn [existsb].
  rewrite !orb_false_r, mc_reg_range, !mc_reg_bit, !mc_reg_index by done.
  destruct (addr =? MC_CSR); [|destruct (addr =? MC_POC); [|destruct (addr =? MC_BA_MASK);
    [|destruct ((0x10 <=? addr) && (addr <? 0x50)); [destruct (Z.testbit addr 2)|]]]].
  - (* CSR *) eexists. split; [reflexivity|]. split_and!; [intros r [= <-] | | done].
    + split; [done|]. rewrite upd_eq. by apply u32_small.
    + apply frame_upd. eauto.
  - (* POC *) eexists. split; [reflexivity|]. split_and!; [intros r [= <-]; done | by intros ? | done].
  - (* BA_MASK *)
    set (s1 := upd (Mc n Mc_ba_mask) (Z.land v MC_BA_MASK_VALID) s).
    assert (Hl1 : own_list n s1 l) by (apply (own_list_ext n l s); auto; subst s1; intros; by look).
    pose proof (remap_all_run n l s1 Hl1 (Z.to_nat N_CE) 0 (dev_list s)) as E.
    eexists. split; [exact E|]. split_and!; [intros r [= <-] | | done].
    + split; [done|]. change (s1 (Mc n Mc_ba_mask) = Z.land v 0x3ff). subst s1. rewrite upd_eq.
      apply wrap_small, inty_U32. apply land_range; lia.
    + intros c Hc. apply (frame_upd (fun c => c = Mc n Mc_ba_mask)); [done|]. intros ->. eauto.
  - (* TMS *) apply (mc_write_reg n l v ((addr - 16) / 8) (Mc_tms ((addr - 16) / 8)) s
      (rd (Mc n (Mc_tms ((addr - 16) / 8))))); auto.
  - (* CSC *) apply (mc_write_reg n l v ((addr - 16) / 8) (Mc_csc ((addr - 16) / 8)) s
      (rd (Mc n (Mc_csc ((addr - 16) / 8))))); auto.
  - (* no register *) eexists. split; [reflexivity|]. split_and!; [done | by intros ? | done].
Qed.

(** ** Reset *)

Definition reg_cell (n : Z) (c : cell) : Prop :=
  match c with Mc n' (Mc_csr | Mc_ba_mask | Mc_csc _ | Mc_tms _) => n' = n | _ => False end.

Lemma mc_reset_regs_run n (s : Sim) :
  wp (mc_reset_regs n) (fun _ s' => frame (reg_cell n) s s' /\ same_lists s s') s.
Proof.
  assert (Total (mc_reset_regs n)) by (unfold mc_reset_regs; total).
  assert (Respects (frame (reg_cell n)) (mc_reset_regs n)) by (unfold mc_reset_regs; respects).
  assert (Respects same_lists (mc_reset_regs n)) by (unfold mc_reset_regs; respects).
  apply wp_ok. destruct (total_respects _ _ s H H0) as ([] & s' & E & Hf). exists tt, s'.
  split_and!; [done | done |]. specialize (H1 s). by rewrite E in H1.
Qed.

Lemma invalidate_areas_run l : forall fuel cur (s : Sim),
  chain s cur l -> (length l < fuel)%nat ->
  exists areas, invalidate_areas fuel cur s = Ok tt (set_areas areas s) /\
    forall i, (forall a, a ∈ l -> Z.to_nat (s (Mc_area a Ma_mem)) <> i) -> areas !! i = dev_list s !! i.
Proof.
  induction l as [|a l IH]; intros fuel cur s Hc Hf; (destruct fuel as [|fuel]; [cbn in Hf; lia|]);
    cbn [invalidate_areas chain] in *.
  - rewrite Hc. exists (dev_list s). split; [by destruct s | done].
  - destruct Hc as (-> & Ha & Hc). rewrite (proj2 (Z.eqb_neq a 0)) by done.
    unfold set_mem_valid, set_area, bind, rd, gets, modify.
    set (ar := alter _ _ (dev_list s)).
    destruct (IH fuel (s (Mc_area a Ma_next)) (set_areas ar s)) as (areas & E & Hi).
    { by apply (chain_ext s). } { cbn in Hf. lia. }
    exists areas. split; [exact E|]. intros i Hn. rewrite Hi.
    + subst ar. cbn [dev_list set_areas]. apply list_lookup_alter_ne. apply Hn, list_elem_of_here.
    + intros b Hb. by apply Hn, list_elem_of_further.
Qed.

Lemma remap_other n (s : Sim) l cs areas i :
  (forall a, a ∈ l -> Z.to_nat (s (Mc_area a Ma_mem)) <> i) -> remap n s l cs areas !! i = areas !! i.
Proof.
  intros H. unfold remap. destruct (first_cs s cs l) as [a|] eqn:E; [|done].
  apply list_lookup_alter_ne, H. apply find_some in E as [E _]. by apply list_elem_of_In.
Qed.

(** Two or more nodes, all of this controller: the list ends up with the last
    two of them. *)
Lemma grab_all n a b l fuel (s : Sim) :
  chain s (s Mc_areas) (a :: b :: l) -> NoDup (a :: b :: l) -> (length (a :: b :: l) < fuel)%nat -> typed s ->
  (forall c, c ∈ a :: b :: l -> s (Mc_area c Ma_mc) = s (Mc n Mc_index)) ->
  s (Mc n Mc_own_areas) = 0 ->
  wp (grab_areas fuel n (s Mc_areas) 0) (fun _ s' =>
    (exists l0 x y, a :: b :: l = l0 ++ [y; x] /\ chain s' (s' (Mc n Mc_own_areas)) [x; y]) /\
    s' Mc_areas = b /\ frame (list_cell n) s s' /\ same_lists s s') s.
Proof.
  intros Hc Hnd Hf Hty Hmc Ho. destruct fuel as [|fuel]; [cbn in Hf; lia|].
  assert (Ha : inty I32 a) by (destruct Hc as [<- _]; apply (Hty Mc_areas)).
  destruct Hc as (-> & Ha0 & Hb & Hb0 & Hc). cbn [grab_areas].
  rewrite (proj2 (Z.eqb_neq a 0)) by done. do 4 (wp1; cbv beta).
  rewrite (Hmc a) by apply list_elem_of_here. rewrite Z.eqb_refl. wps; [done|]. rewrite Ho, Hb.
  set (s1 := upd (Mc n Mc_own_areas) a _).
  assert (Hfr1 : frame (list_cell n) s s1).
  { subst s1. repeat apply frame_list_cell; unfold list_cell; eauto; reflexivity. }
  inversion_clear Hnd as [|? ? Hal Hnd'].
  assert (Hbt : inty I32 b) by (rewrite <- Hb; apply (Hty (Mc_area a Ma_next))).
  eapply wpx_mono; [apply (grab_tail n (b :: l)) | done |]; try done.
  - apply (chain_ext s).
    + intros c Hin. subst s1. look. rewrite ?upd_ne; [done | intros [=]; by subst..].
    + by split_and!.
  - by constructor.
  - cbn in Hf |- *. lia.
  - by repeat apply upd_typed.
  - intros c Hin. subst s1. look. by apply Hmc, list_elem_of_further.
  - subst s1. look. by apply (wrap_small I32).
  - intros _ s' (Hx & H1 & H2 & H3). split_and!; [done | | by etransitivity | exact H3].
    rewrite H1. subst s1. look. by apply (wrap_small I32).
Qed.

(** A controller with two or more areas keeps, after its first reset, only
    the last two of the list, which are the first two that were registered: the
    other areas stay mapped as they were and no register of the controller can
    reach them any more. *)
Theorem mc_reset_keeps_two n a b l (s : Sim) :
  typed s -> chain s (s Mc_areas) (a :: b :: l) -> NoDup (a :: b :: l) ->
  Z.of_nat (length (a :: b :: l)) <= s Mc_area_count ->
  (forall c, c ∈ a :: b :: l -> s (Mc_area c Ma_mc) = s (Mc n Mc_index)) ->
  s (Mc n Mc_own_areas) = 0 ->
  exists s' l0 x y, mc_reset n s = Ok tt s' /\ a :: b :: l = l0 ++ [y; x] /\
    own_list n s' [x; y] /\ s' Mc_areas = b /\
    forall i, Z.to_nat (s (Mc_area x Ma_mem)) <> i -> Z.to_nat (s (Mc_area y Ma_mem)) <> i ->
      dev_list s' !! i = dev_list s !! i.
Proof.
  intros Hty Hc Hnd Hcnt Hmc Ho.
  assert (H : wp (mc_reset n) (fun _ s' => exists l0 x y, a :: b :: l = l0 ++ [y; x] /\
    own_list n s' [x; y] /\ s' Mc_areas = b /\
    forall i, Z.to_nat (s (Mc_area x Ma_mem)) <> i -> Z.to_nat (s (Mc_area y Ma_mem)) <> i ->
      dev_list s' !! i = dev_list s !! i) s).
  2:{ apply wp_unit in H as (s' & E & l0 & x & y & H). by exists s', l0, x, y. }
  unfold mc_reset. wp1. eapply wpx_respects; [apply (mc_reset_regs_typed keeps_typed)|].
  eapply wpx_mono; [apply mc_reset_regs_run | done |]. intros _ s1 [Hf1 Hl1] Ht1. specialize (Ht1 Hty).
  assert (Hs1 : forall c, ~ reg_cell n c -> s1 c = s c) by exact Hf1.
  wp1. apply wpx_rd. wp1. eapply wpx_eq; [apply list_fuel_run|]. wp1.
  eapply wpx_mono; [apply (grab_all n a b l) | done |]; try done.
  { rewrite Hs1 by (by intros []). apply (chain_ext s); [intros; by rewrite Hs1 by (by intros []) | done]. }
  { rewrite Hs1 by (by intros []). lia. }
  { intros c Hin. rewrite !Hs1 by (by intros []). by apply Hmc. }
  { by rewrite Hs1 by (by intros []). }
  intros _ s2 ((l0 & x & y & E & Hx) & Hg & Hf2 & Hl2).
  assert (Hs2 : forall c, ~ reg_cell n c -> ~ list_cell n c -> s2 c = s c).
  { intros c H1 H2. rewrite Hf2 by done. by apply Hs1. }
  wp1. apply wpx_rd. wp1.
  assert (Hn : (2 < S (Z.to_nat (s1 Mc_area_count)))%nat).
  { rewrite Hs1 by (by intros []). cbn [length] in Hcnt. lia. }
  destruct (invalidate_areas_run [x; y] _ _ s2 Hx Hn) as (areas & Ei & Hi).
  eapply wpx_eq; [exact Ei|].
  assert (Hown : own_list n (set_areas areas s2) [x; y]).
  { apply (own_list_ext n [x; y] s2); try done. split; [exact Hx|].
    rewrite Hs2; [cbn [length] in *; lia | by intros [] | by intros [[=]|[[=]|(c & [=])]]]. }
  pose proof (set_csc_tms_run 0 n [x; y] _ Hown) as Ec. eapply wpx_eq; [exact Ec|].
  exists l0, x, y. split_and!; [done | | exact Hg |].
  { by apply (own_list_ext n [x; y] (set_areas areas s2)). }
  assert (Hmem : forall c, s2 (Mc_area c Ma_mem) = s (Mc_area c Ma_mem)).
  { intros c. apply Hs2; [by intros [] | by intros [[=]|[[=]|(c' & [=])]]]. }
  intros i Hxi Hyi. cbn [dev_list set_areas]. rewrite remap_other.
  - rewrite Hi; [by destruct Hl1 as (_ & _ & <- & _), Hl2 as (_ & _ & <- & _)|].
    intros c. rewrite Hmem, list_elem_of_In. by intros [<-|[<-|[]]].
  - intros c. change (set_areas areas s2 (Mc_area c Ma_mem)) with (s2 (Mc_area c Ma_mem)).
    rewrite Hmem, list_elem_of_In. by intros [<-|[<-|[]]].
Qed.

(** ** Witnesses *)

Lemma run_typed {A} (m : M A) `{!Respects keeps_typed m} s : typed s -> typed (state_of (m s)).
Proof. exact (@respects keeps_typed A m _ s). Qed.

(** Three areas registered with controller 0, on chip selects 0, 1 and 2. *)
Definition ex_area (k : Z) : dev_memarea :=
  new_area (k * 0x100000) 0x100000 (memory_ops memory_sec_start k).
Definition ex_mc : Sim :=
  state_of ((mc_reg_mem_area 0 0 0;; mc_reg_mem_area 1 1 0;; mc_reg_mem_area 2 2 0)
    (set_areas [ex_area 0; ex_area 1; ex_area 2] zero_state)).

Lemma ex_mc_typed : typed ex_mc.
Proof.
  refine (run_typed (mc_reg_mem_area 0 0 0;; _) _ _); [respects | exact zero_typed].
Qed.

Lemma mc_reset_keeps_two_witness : exists s',
  mc_reset 0 ex_mc = Ok tt s' /\ own_list 0 s' [1; 2] /\ dev_list s' !! 2%nat = Some (ex_area 2).
Proof.
  destruct (mc_reset_keeps_two 0 3 2 [1] ex_mc ex_mc_typed) as (s' & l0 & x & y & E & El & Ho & _ & Hi).
  - vm_compute. split_and!; discriminate || reflexivity.
  - repeat constructor; rewrite list_elem_of_In; cbn; lia.
  - vm_compute. discriminate.
  - intros c. rewrite list_elem_of_In. by intros [<-|[<-|[<-|[]]]].
  - reflexivity.
  - destruct l0 as [|z [|z' l0]]; [discriminate El | | destruct l0 as [|? [|? ?]]; discriminate El].
    injection El as <- <- <-. exists s'. split_and!; [exact E | exact Ho |].
    rewrite Hi by (vm_compute; discriminate). vm_compute. reflexivity.
Defined.

(** Chip select 0 maps the area to the top of the address space. *)
Definition ex_mc1 : Sim := state_of (mc_reset 0 ex_mc).
Lemma mc_write_correct_witness : exists s',
  mc_write_word (MC_CSC 0) 0x00ff0001 0 ex_mc1 = Ok tt s' /\
  mc_read_word (MC_CSC 0) 0 s' = Ok 0x00ff0001 s' /\
  dev_list s' = alter (mapped 0 0x00ff0001) 0%nat (dev_list ex_mc1).
Proof.
  destruct (mc_write_correct (MC_CSC 0) 0x00ff0001 0 [1; 2] ex_mc1) as (s' & E & Hr & Hf & Hd).
  - exact (run_typed (mc_reset 0) ex_mc ex_mc_typed).
  - split; [|vm_compute; discriminate]. vm_compute. split_and!; discriminate || reflexivity.
  - lia.
  - reflexivity.
  - assert (Er : mc_reg (MC_CSC 0) = Some (Mc_csc 0)) by reflexivity. rewrite Er in Hr, Hf, Hd.
    exists s'. destruct (Hr (Mc_csc 0) eq_refl) as [Hrd Hv]. split_and!; [exact E | by rewrite Hrd, Hv |].
    rewrite Hd. unfold remap, first_cs. cbn [List.find]. rewrite Hv.
    assert (Hs : forall c, (forall i, c <> Mc 0 (Mc_csc i)) -> s' c = ex_mc1 c).
    { intros c Hc. apply Hf. intros (r & [= <-] & ->). by eapply Hc. }
    rewrite (Hs (Mc_area 1 Ma_cs)) by discriminate.
    replace (_ =? u32 0) with true by (vm_compute; reflexivity).
    rewrite !Hs by discriminate. vm_compute. reflexivity.
Defined.
End Mc.
