(* ===== verification/Uart.v ===== *)
(** * The serial port (peripheral/16450.c)

    Registers, FIFOs, interrupts, transmitter and receiver of the 16450 and
    16550.  The parameter [n] of the functions is the number of the structure
    [dat] points to. *)

From S2P Require Export Pic Mem.

(** What the host's channels deliver: [channel_read] of one character. *)
Inductive chan_input := Chan_char (c : Z) | Chan_none | Chan_error.
Class Channels := { channel_read : Z -> Sim -> chan_input }.

Module Uart.
Import Sched Except Pic Mem.

Definition UART_ADDR_SPACE := 8.
Definition UART_MAX_FIFO_LEN := 16.
Definition MAX_SKEW := 1.
Definition UART_VAPI_BUF_LEN := 128.
Definition UART_CLOCK_DIVIDER := 16.
Definition UART_FGETC_SLOWDOWN := 100.

Definition UART_RXBUF := 0.
Definition UART_TXBUF := 0.
Definition UART_DLL := 0.
Definition UART_DLH := 1.
Definition UART_IER := 1.
Definition UART_IIR := 2.
Definition UART_FCR := 2.
Definition UART_LCR := 3.
Definition UART_MCR := 4.
Definition UART_LSR := 5.
Definition UART_MSR := 6.
Definition UART_SCR := 7.

Definition UART_VALID_LCR := 0xff.
Definition UART_VALID_LSR := 0xff.
Definition UART_VALID_IIR := 0x0f.
Definition UART_VALID_FCR := 0xc0.
Definition UART_VALID_IER := 0x0f.
Definition UART_VALID_MCR := 0x1f.
Definition UART_VALID_MSR := 0xff.

Definition UART_LCR_DLAB := 0x80.
Definition UART_LCR_SBC := 0x40.
Definition UART_LCR_SPAR := 0x20.
Definition UART_LCR_EPAR := 0x10.
Definition UART_LCR_PARITY := 0x08.
Definition UART_LCR_STOP := 0x04.
Definition UART_LCR_WLEN8 := 0x03.
Definition UART_LCR_RESET := 0x03.

Definition UART_LSR_RXERR := 0x80.
Definition UART_LSR_TXSERE := 0x40.
Definition UART_LSR_TXBUFE := 0x20.
Definition UART_LSR_BREAK := 0x10.
Definition UART_LSR_FRAME := 0x08.
Definition UART_LSR_PARITY := 0x04.
Definition UART_LSR_OVRRUN := 0x02.
Definition UART_LSR_RDRDY := 0x01.

Definition UART_IIR_NO_INT := 0x01.
Definition UART_IIR_MSI := 0x00.
Definition UART_IIR_THRI := 0x02.
Definition UART_IIR_RDI := 0x04.
Definition UART_IIR_RLSI := 0x06.
Definition UART_IIR_CTI := 0x0c.

Definition UART_FCR_FIE := 0x01.
Definition UART_FCR_RRXFI := 0x02.
Definition UART_FCR_RTXFI := 0x04.
Definition UART_FIFO_TRIGGER (x : Z) : Z :=
  if x =? 0 then 1 else if x =? 1 then 4 else if x =? 2 then 8 else if x =? 3 then 14 else 0.

Definition UART_IER_MSI := 0x08.
Definition UART_IER_RLSI := 0x04.
Definition UART_IER_THRI := 0x02.
Definition UART_IER_RDI := 0x01.

Definition UART_MCR_LOOP := 0x10.
Definition UART_MCR_AUX2 := 0x08.
Definition UART_MCR_AUX1 := 0x04.
Definition UART_MCR_RTS := 0x02.
Definition UART_MCR_DTR := 0x01.

Definition UART_MSR_DCD := 0x80.
Definition UART_MSR_RI := 0x40.
Definition UART_MSR_DSR := 0x20.
Definition UART_MSR_CTS := 0x10.
Definition UART_MSR_DDCD := 0x08.
Definition UART_MSR_TERI := 0x04.
Definition UART_MSR_DDSR := 0x02.
Definition UART_MSR_DCTS := 0x01.

Definition UART_BREAK_COUNT := 1.
Definition UART_CHAR_TIMEOUT := 4.

(** Clocks of one character; [bauds_per_char] counts half bits. *)
Definition char_clks (dll dlh lcr : Z) : Z :=
  let bauds_per_char :=
    2 + (if nz (Z.land lcr UART_LCR_PARITY) then 2 else 0)
    + (if nz (Z.land lcr UART_LCR_STOP) then 4 else if nz (Z.land lcr 0x3) then 2 else 3)
    + (10 + Z.shiftl (Z.land lcr 0x3) 1) in
  Z.shiftr (u64 (u64 (Z.shiftl dlh 8 + dll) * u32 bauds_per_char)) 1.

(** ** Interrupts *)

Definition raise (n : Z) : M unit := irq ← rd (Uart n Ua_irq); report_interrupt irq.

Definition uart_int_msi (n : Z) : M unit :=
  ors (Uart n Ua_ints) (Z.shiftl 1 UART_IIR_MSI);;
  enabled ← flag (Uart n Ua_ier) UART_IER_MSI;
  if negb enabled then ret tt
  else
    iir ← rd (Uart n Ua_iir);
    when (nz (Z.land iir UART_IIR_NO_INT) || (iir =? UART_IIR_MSI))
      (wr (Uart n Ua_iir) UART_IIR_MSI;; raise n).

Definition uart_int_thri (n : Z) : M unit :=
  ors (Uart n Ua_ints) (Z.shiftl 1 UART_IIR_THRI);;
  enabled ← flag (Uart n Ua_ier) UART_IER_THRI;
  if negb enabled then ret tt
  else
    iir ← rd (Uart n Ua_iir);
    when (nz (Z.land iir UART_IIR_NO_INT) || (iir =? UART_IIR_MSI) || (iir =? UART_IIR_THRI))
      (wr (Uart n Ua_iir) UART_IIR_THRI;; raise n).

Definition uart_int_cti (n : Z) : M unit :=
  ors (Uart n Ua_ints) (Z.shiftl 1 UART_IIR_CTI);;
  enabled ← flag (Uart n Ua_ier) UART_IER_RDI;
  if negb enabled then ret tt
  else
    iir ← rd (Uart n Ua_iir);
    when (negb (iir =? UART_IIR_RLSI) && negb (iir =? UART_IIR_RDI))
      (wr (Uart n Ua_iir) UART_IIR_CTI;; raise n).

Definition uart_int_rdi (n : Z) : M unit :=
  ors (Uart n Ua_ints) (Z.shiftl 1 UART_IIR_RDI);;
  enabled ← flag (Uart n Ua_ier) UART_IER_RDI;
  if negb enabled then ret tt
  else
    iir ← rd (Uart n Ua_iir);
    when (negb (iir =? UART_IIR_RLSI)) (wr (Uart n Ua_iir) UART_IIR_RDI;; raise n).

Definition uart_int_rlsi (n : Z) : M unit :=
  ors (Uart n Ua_ints) (Z.shiftl 1 UART_IIR_RLSI);;
  enabled ← flag (Uart n Ua_ier) UART_IER_RLSI;
  if negb enabled then ret tt
  else wr (Uart n Ua_iir) UART_IIR_RLSI;; raise n.

Definition uart_check_rlsi (n : Z) : M unit :=
  errors ← flag (Uart n Ua_lsr)
    (Z.lor (Z.lor (Z.lor UART_LSR_OVRRUN UART_LSR_PARITY) UART_LSR_FRAME) UART_LSR_BREAK);
  when errors (uart_int_rlsi n).

Definition uart_check_rdi (n : Z) : M unit :=
  full ← rd (Uart n Ua_rxbuf_full); fcr ← rd (Uart n Ua_fcr);
  when (UART_FIFO_TRIGGER (Z.shiftr fcr 6) <=? full) (uart_int_rdi n).

Definition uart_next_int (n : Z) : M unit :=
  ints ← rd (Uart n Ua_ints); ier ← rd (Uart n Ua_ier);
  let due iir enable := nz (Z.land ints (Z.shiftl 1 iir)) && nz (Z.land ier enable) in
  if due UART_IIR_RLSI UART_IER_RLSI then uart_int_rlsi n
  else if due UART_IIR_RDI UART_IER_RDI then uart_int_rdi n
  else if due UART_IIR_CTI UART_IER_RDI then uart_int_cti n
  else if due UART_IIR_THRI UART_IER_THRI then uart_int_thri n
  else if due UART_IIR_MSI UART_IER_MSI then uart_int_msi n
  else
    irq ← rd (Uart n Ua_irq);
    clear_interrupt irq;;
    wr (Uart n Ua_iir) UART_IIR_NO_INT.

Definition uart_clear_int (n intr : Z) : M unit :=
  clr (Uart n Ua_ints) (Z.shiftl 1 intr);;
  when (intr =? UART_IIR_CTI) (sched_find_remove J_uart_int_cti n);;
  iir ← rd (Uart n Ua_iir);
  if negb (intr =? iir) then ret tt else uart_next_int n.

(** ** Loopback *)

Definition uart_loopback (n : Z) : M unit :=
  loop ← flag (Uart n Ua_mcr) UART_MCR_LOOP;
  if negb loop then ret tt
  else
    mcr ← rd (Uart n Ua_mcr); msr ← rd (Uart n Ua_msr);
    when (negb (Z.land mcr UART_MCR_AUX2 =? Z.shiftr (Z.land msr UART_MSR_DCD) 4))
      (ors (Uart n Ua_msr) UART_MSR_DDCD);;
    msr ← rd (Uart n Ua_msr);
    when (Z.land mcr UART_MCR_AUX1 <? Z.shiftr (Z.land msr UART_MSR_RI) 4)
      (ors (Uart n Ua_msr) UART_MSR_TERI);;
    msr ← rd (Uart n Ua_msr);
    when (negb (Z.land mcr UART_MCR_RTS =? Z.shiftr (Z.land msr UART_MSR_CTS) 3))
      (ors (Uart n Ua_msr) UART_MSR_DCTS);;
    msr ← rd (Uart n Ua_msr);
    when (negb (Z.land mcr UART_MCR_DTR =? Z.shiftr (Z.land msr UART_MSR_DSR) 5))
      (ors (Uart n Ua_msr) UART_MSR_DDSR);;
    clr (Uart n Ua_msr) (Z.lor (Z.lor (Z.lor UART_MSR_DCD UART_MSR_RI) UART_MSR_DSR) UART_MSR_CTS);;
    ors (Uart n Ua_msr) (Z.shiftl (Z.land mcr UART_MCR_AUX2) 4);;
    ors (Uart n Ua_msr) (Z.shiftl (Z.land mcr UART_MCR_AUX1) 4);;
    ors (Uart n Ua_msr) (Z.shiftl (Z.land mcr UART_MCR_RTS) 3);;
    ors (Uart n Ua_msr) (Z.shiftl (Z.land mcr UART_MCR_DTR) 5);;
    changed ← flag (Uart n Ua_msr)
      (Z.lor (Z.lor (Z.lor UART_MSR_DCTS UART_MSR_DDSR) UART_MSR_TERI) UART_MSR_DDCD);
    when changed (uart_int_msi n).

(** ** Transmitter *)

(** The parity of the low [k] bits of a packet. *)
Fixpoint parity (k : nat) (packet : Z) : Z :=
  match k with
  | O => 0
  | S k => Z.lxor (parity k packet) (Z.land (Z.shiftr packet (Z.of_nat k)) 1)
  end.

(** The packet of a character: data bits, parity bit, stop bits. *)
Definition encode_packet (txser lcr bits_send : Z) : Z :=
  let nbits := Z.min bits_send (Z.land lcr UART_LCR_WLEN8 + 5) in
  let packet := Z.land txser (Z.shiftl 1 nbits - 1) in
  let par := parity (Z.to_nat nbits) packet in
  let '(packet, nbits) :=
    if nz (Z.land lcr UART_LCR_PARITY) then
      (if nz (Z.land lcr UART_LCR_SPAR) then Z.lor packet (Z.shiftl 1 nbits)
       else if nz (Z.land lcr UART_LCR_EPAR) then Z.lor packet (Z.shiftl par nbits)
       else Z.lor packet (Z.shiftl (Z.lxor par 1) nbits), nbits + 1)
    else (packet, nbits) in
  let packet := Z.lor packet (Z.shiftl 1 nbits) in
  let nbits := nbits + 1 in
  if nz (Z.land lcr UART_LCR_STOP) then Z.lor packet (Z.shiftl 1 nbits) else packet.

(** The character, the line settings and the errors a receiver with the
    settings [lcr] reports for a packet. *)
Definition decode_packet (packet lcr : Z) : Z :=
  let nbits := Z.land lcr UART_LCR_WLEN8 + 5 in
  let data := Z.land packet (Z.shiftl 1 nbits - 1) in
  let par := parity (Z.to_nat (nbits + 1)) packet in
  let '(pe, nbits) :=
    if nz (Z.land lcr UART_LCR_PARITY) then
      (if nz (Z.land lcr UART_LCR_SPAR) then b2z (negb (nz (Z.land (Z.shiftr packet nbits) 1)))
       else if nz (Z.land lcr UART_LCR_EPAR) then b2z (negb (par =? 0))
       else b2z (negb (par =? 1)), nbits + 1)
    else (0, nbits) in
  let fe := Z.lxor (Z.land (Z.shiftr packet nbits) 1) 1 in
  let nbits := nbits + 1 in
  let fe := if nz (Z.land lcr UART_LCR_STOP)
            then Z.lor fe (Z.lxor (Z.land (Z.shiftr packet nbits) 1) 1) else fe in
  Z.lor data (Z.lor (Z.lor (Z.lor (Z.shiftl lcr 8) (Z.shiftl pe 16)) (Z.shiftl fe 17)) (Z.shiftl lcr 8)).

Definition send_char (n bits_send : Z) : M unit :=
  c ← rd (Uart n Ua_txser);
  emit (Ev_putc c);;
  loop ← flag (Uart n Ua_mcr) UART_MCR_LOOP;
  if loop : bool then wr (Uart n Ua_loopback) c
  else
    id ← rd (Uart n Ua_vapi_id);
    if nz id then
      lcr ← rd (Uart n Ua_lcr); vapi_lcr ← rd (Uart n Ua_vapi_lcr);
      emit (Ev_vapi_send id (decode_packet (encode_packet c lcr bits_send) vapi_lcr))
    else emit (Ev_channel_write n (Z.land c 0xff)).

Definition uart_tx_send (n : Z) : M unit :=
  tail ← rd (Uart n Ua_txbuf_tail);
  c ← rd (Uart n (Ua_txbuf tail));
  wr (Uart n Ua_txser) c;;
  len ← rd (Uart n Ua_fifo_len);
  wr (Uart n Ua_txbuf_tail) (Z.rem (tail + 1) len);;
  adds (Uart n Ua_txbuf_full) (-1);;
  clr (Uart n Ua_lsr) UART_LSR_TXSERE;;
  sbc ← flag (Uart n Ua_lcr) UART_LCR_SBC;
  (if negb sbc then
     clks ← rd (Uart n Ua_char_clks);
     sched_add J_uart_char_clock n (s32 (u64 (clks * UART_CLOCK_DIVIDER)))
   else sched_add J_uart_send_break n 0);;
  full ← isset (Uart n Ua_txbuf_full);
  when (negb full) (ors (Uart n Ua_lsr) UART_LSR_TXBUFE;; uart_int_thri n).

(** The end of [uart_char_clock] and of [uart_send_break]. *)
Definition uart_send_next (n : Z) : M unit :=
  full ← isset (Uart n Ua_txbuf_full);
  if negb full then ors (Uart n Ua_lsr) UART_LSR_TXSERE else uart_tx_send n.

Definition uart_char_clock (n : Z) : M unit :=
  lcr ← rd (Uart n Ua_lcr);
  send_char n (Z.land lcr UART_LCR_WLEN8 + 5);;
  uart_send_next n.

Definition uart_send_break (n : Z) : M unit :=
  id ← rd (Uart n Ua_vapi_id);
  emit (Ev_vapi_send id (Z.shiftl UART_LCR_SBC 8));;
  uart_send_next n.

(** ** Receiver *)

(** The part of [uart_add_char] that stores the character. *)
Definition uart_store_char (n ch : Z) : M unit :=
  full ← rd (Uart n Ua_rxbuf_full); len ← rd (Uart n Ua_fifo_len);
  if u32 len <? u32 (full + 1) then
    ors (Uart n Ua_lsr) (Z.lor UART_LSR_OVRRUN UART_LSR_RXERR);;
    uart_int_rlsi n
  else
    head ← rd (Uart n Ua_rxbuf_head);
    wr (Uart n (Ua_rxbuf head)) ch;;
    wr (Uart n Ua_rxbuf_head) (Z.rem (head + 1) len);;
    full ← rd (Uart n Ua_rxbuf_full);
    adds (Uart n Ua_rxbuf_full) 1;;
    when (negb (nz full)) (ors (Uart n Ua_lsr) (Z.shiftr ch 8);; uart_check_rlsi n).

(** The job that reports characters nobody reads. *)
Definition uart_sched_cti (n : Z) : M unit :=
  clks ← rd (Uart n Ua_char_clks);
  sched_add J_uart_int_cti n (s32 (u64 (clks * UART_CHAR_TIMEOUT * UART_CLOCK_DIVIDER))).

Definition uart_add_char (n ch : Z) : M unit :=
  ors (Uart n Ua_lsr) UART_LSR_RDRDY;;
  uart_clear_int n UART_IIR_CTI;;
  uart_sched_cti n;;
  uart_store_char n ch;;
  uart_check_rdi n.

Definition uart_recv_break (n : Z) : M unit :=
  uart_add_char n (Z.shiftl (Z.lor (Z.lor UART_LSR_BREAK UART_LSR_RXERR) UART_LSR_RDRDY) 8).

Definition uart_recv_break_stop (n : Z) : M unit :=
  wr (Uart n Ua_recv_break) 0;;
  sched_find_remove J_uart_recv_break n.

Definition uart_sched_recv_check (n : Z) : M unit :=
  id ← isset (Uart n Ua_vapi_id);
  when (negb id) (sched_add J_uart_check_char n (UART_FGETC_SLOWDOWN * UART_CLOCK_DIVIDER)).

Definition vapi_waiting (n : Z) : M bool :=
  id ← isset (Uart n Ua_vapi_id);
  head ← rd (Uart n Ua_vapi_buf_head_ptr); tail ← rd (Uart n Ua_vapi_buf_tail_ptr);
  ret (id && negb (head =? tail)).

(** The character with its unused bits cleared; the upper byte is for [LSR]. *)
Definition uart_recv_char (n : Z) : M unit :=
  ser ← rd (Uart n Ua_rxser); lcr ← rd (Uart n Ua_lcr);
  let char_to_add := u16 (Z.land ser (Z.lor (Z.shiftl 1 (Z.land lcr 3 + 5) - 1) 0xff00)) in
  emit (Ev_putc (u8 char_to_add));;
  loop ← flag (Uart n Ua_mcr) UART_MCR_LOOP;
  (if loop : bool then
     lb ← rd (Uart n Ua_loopback);
     wr (Uart n Ua_rxser) lb;;
     wr (Uart n Ua_receiveing) 1;;
     clks ← rd (Uart n Ua_char_clks);
     sched_add J_uart_recv_char n (s32 (u64 (clks * UART_CLOCK_DIVIDER)))
   else
     wr (Uart n Ua_receiveing) 0;;
     uart_sched_recv_check n;;
     waiting ← vapi_waiting n;
     when waiting (sched_add J_uart_vapi_cmd n 0));;
  uart_add_char n char_to_add.

Section Channels.
Context `{Channels}.

Definition uart_check_char (n : Z) : M unit :=
  r ← gets (channel_read n);
  match r with
  | Chan_char buffer =>
      wr (Uart n Ua_rxser) (u8 buffer);;
      wr (Uart n Ua_receiveing) 1;;
      clks ← rd (Uart n Ua_char_clks);
      sched_add J_uart_recv_char n (s32 (u64 (clks * UART_CLOCK_DIVIDER)))
  | Chan_none => sched_add J_uart_check_char n (UART_FGETC_SLOWDOWN * UART_CLOCK_DIVIDER)
  | Chan_error => emit Ev_warning
  end.
End Channels.

(** ** Registers *)

(** What a change of the break control bit does, and a write of the others. *)
Definition uart_write_lcr (n value : Z) : M unit :=
  lcr ← rd (Uart n Ua_lcr);
  txsere ← flag (Uart n Ua_lsr) UART_LSR_TXSERE;
  when (negb (Z.land lcr UART_LCR_SBC =? Z.land value UART_LCR_SBC))
    (when (nz (Z.land value UART_LCR_SBC) && negb txsere)
       (sched_find_remove J_uart_char_clock n;;
        sched_add J_uart_send_break n 0);;
     when (negb (nz (Z.land value UART_LCR_SBC)) && negb txsere)
       (sched_add J_uart_tx_send n 0;;
        sched_find_remove J_uart_char_clock n));;
  wr (Uart n Ua_lcr) (Z.land value UART_VALID_LCR);;
  dll ← rd (Uart n Ua_dll); dlh ← rd (Uart n Ua_dlh); lcr ← rd (Uart n Ua_lcr);
  wr (Uart n Ua_char_clks) (char_clks dll dlh lcr).

Definition uart_write_fcr (n value : Z) : M unit :=
  wr (Uart n Ua_fcr) (Z.land value UART_VALID_FCR);;
  len ← rd (Uart n Ua_fifo_len);
  let fie := nz (Z.land value UART_FCR_FIE) in
  let value := if ((len =? 1) && fie) || (negb (len =? 1) && negb fie)
               then Z.lor (Z.lor value UART_FCR_RRXFI) UART_FCR_RTXFI else value in
  wr (Uart n Ua_fifo_len) (if fie then 16 else 1);;
  when (nz (Z.land value UART_FCR_RTXFI))
    (wr (Uart n Ua_txbuf_tail) 0;; wr (Uart n Ua_txbuf_head) 0;;
     wr (Uart n Ua_txbuf_full) 0;;
     ors (Uart n Ua_lsr) UART_LSR_TXBUFE;;
     len ← rd (Uart n Ua_fifo_len);
     when (len =? 16) (uart_int_thri n);;
     sched_find_remove J_uart_tx_send n);;
  when (nz (Z.land value UART_FCR_RRXFI))
    (wr (Uart n Ua_rxbuf_tail) 0;; wr (Uart n Ua_rxbuf_head) 0;;
     wr (Uart n Ua_rxbuf_full) 0;;
     clr (Uart n Ua_lsr) UART_LSR_RDRDY;;
     uart_clear_int n UART_IIR_RDI;;
     uart_clear_int n UART_IIR_CTI).

Definition uart_write_txbuf (n value : Z) : M unit :=
  clr (Uart n Ua_lsr) UART_LSR_TXBUFE;;
  full ← rd (Uart n Ua_txbuf_full); len ← rd (Uart n Ua_fifo_len);
  head ← rd (Uart n Ua_txbuf_head);
  (if full <? u32 len then
     wr (Uart n (Ua_txbuf head)) value;;
     wr (Uart n Ua_txbuf_head) (Z.rem (head + 1) len);;
     adds (Uart n Ua_txbuf_full) 1;;
     txsere ← flag (Uart n Ua_lsr) UART_LSR_TXSERE;
     when (negb (nz full) && txsere) (sched_add J_uart_tx_send n 0)
   else wr (Uart n (Ua_txbuf head)) value);;
  uart_clear_int n UART_IIR_THRI.

Definition uart_write_byte (addr value n : Z) : M unit :=
  dlab ← flag (Uart n Ua_lcr) UART_LCR_DLAB;
  if (dlab : bool) && (addr =? UART_DLL) then
    wr (Uart n Ua_dll) value;;
    dll ← rd (Uart n Ua_dll); dlh ← rd (Uart n Ua_dlh); lcr ← rd (Uart n Ua_lcr);
    wr (Uart n Ua_char_clks) (char_clks dll dlh lcr)
  else if (dlab : bool) && (addr =? UART_DLH) then wr (Uart n Ua_dlh) value
  else
    switch addr
      [([UART_TXBUF], uart_write_txbuf n value);
       ([UART_FCR], uart_write_fcr n value);
       ([UART_IER], wr (Uart n Ua_ier) (Z.land value UART_VALID_IER);; uart_next_int n);
       ([UART_LCR], uart_write_lcr n value);
       ([UART_MCR], wr (Uart n Ua_mcr) (Z.land value UART_VALID_MCR);; uart_loopback n);
       ([UART_SCR], wr (Uart n Ua_scr) value)] (ret tt).

(** A read of the receive buffer: taking a character out of the FIFO, and
    reporting the next one. *)
Definition uart_take_char (n : Z) : M Z :=
  tail ← rd (Uart n Ua_rxbuf_tail);
  c ← rd (Uart n (Ua_rxbuf tail));
  len ← rd (Uart n Ua_fifo_len);
  wr (Uart n Ua_rxbuf_tail) (Z.rem (tail + 1) len);;
  adds (Uart n Ua_rxbuf_full) (-1);;
  ret (u8 c).
Definition uart_next_char (n : Z) : M unit :=
  full ← isset (Uart n Ua_rxbuf_full);
  if full : bool then
    tail ← rd (Uart n Ua_rxbuf_tail);
    c ← rd (Uart n (Ua_rxbuf tail));
    ors (Uart n Ua_lsr) (Z.lor UART_LSR_RDRDY (Z.shiftr c 8));;
    uart_sched_cti n;;
    uart_check_rlsi n;;
    uart_check_rdi n
  else clr (Uart n Ua_lsr) UART_LSR_RDRDY.
Definition uart_read_rxbuf (n : Z) : M Z :=
  full ← isset (Uart n Ua_rxbuf_full);
  value ← (if full : bool then uart_take_char n else ret 0);
  uart_clear_int n UART_IIR_RDI;;
  uart_clear_int n UART_IIR_CTI;;
  uart_next_char n;;
  ret value.

Definition uart_read_byte (addr n : Z) : M Z :=
  dlab ← flag (Uart n Ua_lcr) UART_LCR_DLAB;
  if (dlab : bool) && (addr =? UART_DLL) then rd (Uart n Ua_dll)
  else if (dlab : bool) && (addr =? UART_DLH) then rd (Uart n Ua_dlh)
  else
    switch addr
      [([UART_RXBUF], uart_read_rxbuf n);
       ([UART_IER], ier ← rd (Uart n Ua_ier); ret (Z.land ier UART_VALID_IER));
       ([UART_IIR],
          iir ← rd (Uart n Ua_iir);
          let value := Z.lor (Z.land iir UART_VALID_IIR) 0xc0 in
          when (iir =? UART_IIR_THRI) (uart_clear_int n UART_IIR_THRI);;
          ret value);
       ([UART_LCR], lcr ← rd (Uart n Ua_lcr); ret (Z.land lcr UART_VALID_LCR));
       ([UART_MCR], ret 0);
       ([UART_LSR],
          lsr ← rd (Uart n Ua_lsr);
          clr (Uart n Ua_lsr) (Z.lor (Z.lor (Z.lor (Z.lor UART_LSR_OVRRUN UART_LSR_BREAK)
                                 UART_LSR_PARITY) UART_LSR_FRAME) UART_LSR_RXERR);;
          uart_clear_int n UART_IIR_RLSI;;
          ret (Z.land lsr UART_VALID_LSR));
       ([UART_MSR],
          msr ← rd (Uart n Ua_msr);
          wr (Uart n Ua_msr) 0;;
          uart_clear_int n UART_IIR_MSI;;
          uart_loopback n;;
          ret (Z.land msr UART_VALID_MSR));
       ([UART_SCR], rd (Uart n Ua_scr))] (ret 0).

(** ** VAPI *)

(** A character that arrives with the settings [vapi.lcr]: errors when they are
    not those of the port. *)
Definition vapi_char (n data : Z) : M unit :=
  wr (Uart n Ua_vapi_lcr) (Z.land (Z.shiftr data 8) 0xff);;
  wr (Uart n Ua_rxser) (Z.land data 0xff);;
  vdll ← rd (Uart n Ua_vapi_dll); vdlh ← rd (Uart n Ua_vapi_dlh); vlcr ← rd (Uart n Ua_vapi_lcr);
  wr (Uart n Ua_vapi_char_clks) (char_clks vdll vdlh vlcr);;
  lcr ← rd (Uart n Ua_lcr);
  vclks ← rd (Uart n Ua_vapi_char_clks); clks ← rd (Uart n Ua_char_clks); skew ← rd (Uart n Ua_vapi_skew);
  when (negb (Z.land vlcr (Z.lnot UART_LCR_SBC) =? Z.land lcr (Z.lnot UART_LCR_SBC))
        || negb (vclks =? clks) || (skew <? - MAX_SKEW) || (MAX_SKEW <? skew))
    (emit Ev_warning;;
     ors (Uart n Ua_rxser) (Z.shiftl (Z.lor UART_LSR_FRAME UART_LSR_RXERR) 8);;
     parity ← flag (Uart n Ua_lcr) UART_LCR_PARITY;
     when parity (ors (Uart n Ua_rxser) (Z.shiftl UART_LSR_PARITY 8)));;
  break ← isset (Uart n Ua_recv_break);
  when (negb break)
    (wr (Uart n Ua_receiveing) 1;;
     clks ← rd (Uart n Ua_char_clks);
     sched_add J_uart_recv_char n (s32 (u64 (clks * UART_CLOCK_DIVIDER)))).

(** [uart_recv_break_start], with the function it calls when commands are
    waiting. *)
Definition recv_break_start (cmd : M unit) (n : Z) : M unit :=
  wr (Uart n Ua_receiveing) 0;;
  wr (Uart n Ua_recv_break) 1;;
  sched_find_remove J_uart_recv_char n;;
  waiting ← vapi_waiting n;
  when waiting cmd;;
  clks ← rd (Uart n Ua_vapi_char_clks);
  sched_add J_uart_recv_break n (s32 (u64 (u64 (UART_BREAK_COUNT * clks) * UART_CLOCK_DIVIDER))).

(** [uart_vapi_cmd] and [uart_recv_break_start] call each other; every round of
    the loop takes an entry from the buffer. *)
Fixpoint vapi_cmd (fuel : nat) (n : Z) : M unit :=
  match fuel with
  | O => stop_with Out_of_fuel
  | S fuel =>
      head ← rd (Uart n Ua_vapi_buf_head_ptr); tail ← rd (Uart n Ua_vapi_buf_tail_ptr);
      if head =? tail then ret tt
      else
        data ← rd (Uart n (Ua_vapi_buf tail));
        wr (Uart n Ua_vapi_buf_tail_ptr) (Z.rem (tail + 1) UART_VAPI_BUF_LEN);;
        let time := s32 (u64 (Z.land data 0xffff * UART_CLOCK_DIVIDER)) in
        switch (Z.shiftr data 24)
          [([0x00], vapi_char n data);
           ([0x01], wr (Uart n Ua_vapi_dll) (Z.land data 0xff);;
                    wr (Uart n Ua_vapi_dlh) (Z.land (Z.shiftr data 8) 0xff);; vapi_cmd fuel n);
           ([0x02], wr (Uart n Ua_vapi_lcr) (Z.land (Z.shiftr data 8) 0xff);; vapi_cmd fuel n);
           ([0x03], wr (Uart n Ua_vapi_skew) (s16 (Z.land data 0xffff));; vapi_cmd fuel n);
           ([0x04],
              (if nz (Z.land (Z.shiftr data 16) 1) then
                 if nz (Z.land data 0xffff) then sched_add J_uart_recv_break_start n time
                 else recv_break_start (vapi_cmd fuel n) n
               else
                 if nz (Z.land data 0xffff) then sched_add J_uart_recv_break_stop n time
                 else uart_recv_break_stop n);;
              vapi_cmd fuel n)]
          (emit Ev_warning;; vapi_cmd fuel n)
  end.
Definition vapi_fuel : nat := S (Z.to_nat UART_VAPI_BUF_LEN).
Definition uart_vapi_cmd (n : Z) : M unit := vapi_cmd vapi_fuel n.
Definition uart_recv_break_start (n : Z) : M unit := recv_break_start (uart_vapi_cmd n) n.

Definition uart_vapi_read (id data n : Z) : M unit :=
  head ← rd (Uart n Ua_vapi_buf_head_ptr);
  wr (Uart n (Ua_vapi_buf head)) data;;
  wr (Uart n Ua_vapi_buf_head_ptr) (Z.rem (head + 1) UART_VAPI_BUF_LEN);;
  head ← rd (Uart n Ua_vapi_buf_head_ptr); tail ← rd (Uart n Ua_vapi_buf_tail_ptr);
  if tail =? head then stop_with Exited
  else
    receiveing ← isset (Uart n Ua_receiveing);
    when (negb receiveing) (uart_vapi_cmd n).

(** ** Reset and configuration *)

(** Connecting to VAPI or opening the channel.  The channel itself is not
    modelled: neither that a second reset closes it first nor the warning when it
    cannot be opened. *)
Definition uart_connect (n : Z) : M unit :=
  id ← rd (Uart n Ua_vapi_id); str ← isset (Uart n Ua_channel_str);
  if nz id then emit (Ev_vapi_install id 1)
  else if str : bool then
    wr (Uart n Ua_channel) 1;;
    emit (Ev_channel_open n)
  else emit Ev_warning.

Fixpoint uart_zero (n : Z) (l : list uartvar) : M unit :=
  match l with [] => ret tt | f :: l => wr (Uart n f) 0;; uart_zero n l end.

Definition uart_reset (n : Z) : M unit :=
  uart_connect n;;
  is16550 ← isset (Uart n Ua_uart16550);
  wr (Uart n Ua_fifo_len) (if is16550 : bool then 16 else 1);;
  uart_zero n [Ua_rxbuf_tail; Ua_rxbuf_head; Ua_txbuf_tail; Ua_txbuf_head; Ua_rxbuf_full; Ua_txbuf_full;
               Ua_char_clks; Ua_txser; Ua_rxser; Ua_loopback; Ua_receiveing; Ua_recv_break; Ua_ints];;
  for_ (Z.to_nat UART_MAX_FIFO_LEN) 0 1 (fun i => wr (Uart n (Ua_txbuf i)) 0);;
  for_ (Z.to_nat UART_MAX_FIFO_LEN) 0 1 (fun i => wr (Uart n (Ua_rxbuf i)) 0);;
  uart_zero n [Ua_dll; Ua_dlh; Ua_ier];;
  wr (Uart n Ua_iir) UART_IIR_NO_INT;;
  wr (Uart n Ua_fcr) 0;;
  wr (Uart n Ua_lcr) UART_LCR_RESET;;
  wr (Uart n Ua_mcr) 0;;
  wr (Uart n Ua_lsr) (Z.lor UART_LSR_TXBUFE UART_LSR_TXSERE);;
  uart_zero n [Ua_msr; Ua_scr; Ua_vapi_skew; Ua_vapi_lcr; Ua_vapi_dll; Ua_vapi_char_clks;
               Ua_vapi_buf_head_ptr; Ua_vapi_buf_tail_ptr];;
  for_ (Z.to_nat UART_VAPI_BUF_LEN) 0 1 (fun i => wr (Uart n (Ua_vapi_buf i)) 0);;
  uart_sched_recv_check n.

Definition uart_baseaddr (val n : Z) : M unit := wr (Uart n Ua_baseaddr) val.
Definition uart_jitter (val n : Z) : M unit := wr (Uart n Ua_jitter) val.
Definition uart_irq (val n : Z) : M unit := wr (Uart n Ua_irq) val.
Definition uart_16550 (val n : Z) : M unit := wr (Uart n Ua_uart16550) val.
(** Of the string only whether it is empty. *)
Definition uart_channel (str : list Z) (n : Z) : M unit :=
  wr (Uart n Ua_channel_str) (b2z (negb (match str with [] => true | _ => false end))).
Definition uart_vapi_id (val n : Z) : M unit := wr (Uart n Ua_vapi_id) val.
Definition uart_enabled (val n : Z) : M unit := wr (Uart n Ua_enabled) val.
Definition uart_newway : M unit := emit Ev_warning.

Definition uart_sec_start (n : Z) : M unit :=
  wr (Uart n Ua_enabled) 1;;
  uart_zero n [Ua_baseaddr; Ua_irq; Ua_uart16550; Ua_jitter];;
  wr (Uart n Ua_channel_str) 1;;
  uart_zero n [Ua_vapi_id; Ua_channel].
Definition uart_ops (n : Z) : mem_ops :=
  let f := Fn_device (D_uart n) in
  MemOps Fn_null Fn_null f Fn_null Fn_null f Fn_null Fn_null 2 2 false.
Definition uart_sec_end (n : Z) : M unit :=
  enabled ← isset (Uart n Ua_enabled);
  if negb enabled then ret tt
  else
    base ← rd (Uart n Ua_baseaddr);
    _ ← reg_mem_area base UART_ADDR_SPACE false (uart_ops n);
    h ← gets reset_hooks;
    modify (set_hooks (R_device (D_uart n) :: h)).

(** ** What the functions leave alone *)

#[export] Hint Opaque raise uart_int_msi uart_int_thri uart_int_cti uart_int_rdi uart_int_rlsi
  uart_check_rlsi uart_check_rdi uart_next_int uart_clear_int uart_loopback send_char uart_tx_send
  uart_send_next uart_char_clock uart_send_break uart_add_char uart_recv_break uart_recv_break_stop
  uart_sched_recv_check vapi_waiting uart_recv_char uart_check_char uart_write_lcr uart_write_fcr
  uart_write_txbuf uart_write_byte uart_read_rxbuf uart_read_byte vapi_char recv_break_start vapi_cmd
  uart_vapi_cmd uart_recv_break_start uart_vapi_read uart_connect uart_zero uart_reset
  : typeclass_instances.
Section Typed.
Context R `{!Enters R}.
#[export] Instance raise_typed n : Respects R (raise n).
Proof. unfold raise. respects. Qed.
#[export] Instance uart_int_msi_typed n : Respects R (uart_int_msi n).
Proof. unfold uart_int_msi. respects. Qed.
#[export] Instance uart_int_thri_typed n : Respects R (uart_int_thri n).
Proof. unfold uart_int_thri. respects. Qed.
#[export] Instance uart_int_cti_typed n : Respects R (uart_int_cti n).
Proof. unfold uart_int_cti. respects. Qed.
#[export] Instance uart_int_rdi_typed n : Respects R (uart_int_rdi n).
Proof. unfold uart_int_rdi. respects. Qed.
#[export] Instance uart_int_rlsi_typed n : Respects R (uart_int_rlsi n).
Proof. unfold uart_int_rlsi. respects. Qed.
#[export] Instance uart_check_rlsi_typed n : Respects R (uart_check_rlsi n).
Proof. unfold uart_check_rlsi. respects. Qed.
#[export] Instance uart_check_rdi_typed n : Respects R (uart_check_rdi n).
Proof. unfold uart_check_rdi. respects. Qed.
#[export] Instance uart_next_int_typed n : Respects R (uart_next_int n).
Proof. unfold uart_next_int. respects. Qed.
#[export] Instance uart_clear_int_typed n i : Respects R (uart_clear_int n i).
Proof. unfold uart_clear_int. respects. Qed.
#[export] Instance uart_loopback_typed n : Respects R (uart_loopback n).
Proof. unfold uart_loopback. respects. Qed.
#[export] Instance send_char_typed n b : Respects R (send_char n b).
Proof. unfold send_char. respects. Qed.
#[export] Instance uart_tx_send_typed n : Respects R (uart_tx_send n).
Proof. unfold uart_tx_send. respects. Qed.
#[export] Instance uart_send_next_typed n : Respects R (uart_send_next n).
Proof. unfold uart_send_next. respects. Qed.
#[export] Instance uart_char_clock_typed n : Respects R (uart_char_clock n).
Proof. unfold uart_char_clock. respects. Qed.
#[export] Instance uart_send_break_typed n : Respects R (uart_send_break n).
Proof. unfold uart_send_break. respects. Qed.
#[export] Instance uart_add_char_typed n c : Respects R (uart_add_char n c).
Proof. unfold uart_add_char, uart_store_char, uart_sched_cti. respects. Qed.
#[export] Instance uart_recv_break_typed n : Respects R (uart_recv_break n).
Proof. unfold uart_recv_break. respects. Qed.
#[export] Instance uart_recv_break_stop_typed n : Respects R (uart_recv_break_stop n).
Proof. unfold uart_recv_break_stop. respects. Qed.
#[export] Instance uart_sched_recv_check_typed n : Respects R (uart_sched_recv_check n).
Proof. unfold uart_sched_recv_check. respects. Qed.
#[export] Instance vapi_waiting_typed n : Respects R (vapi_waiting n).
Proof. unfold vapi_waiting. respects. Qed.
#[export] Instance uart_recv_char_typed n : Respects R (uart_recv_char n).
Proof. unfold uart_recv_char. respects. Qed.
#[export] Instance uart_check_char_typed `{Channels} n : Respects R (uart_check_char n).
Proof. unfold uart_check_char. respects. Qed.
#[export] Instance uart_write_lcr_typed n v : Respects R (uart_write_lcr n v).
Proof. unfold uart_write_lcr. respects. Qed.
#[export] Instance uart_write_fcr_typed n v : Respects R (uart_write_fcr n v).
Proof. unfold uart_write_fcr. respects. Qed.
#[export] Instance uart_write_txbuf_typed n v : Respects R (uart_write_txbuf n v).
Proof. unfold uart_write_txbuf. respects. Qed.
#[export] Instance uart_write_byte_typed a v n : Respects R (uart_write_byte a v n).
Proof. unfold uart_write_byte. respects. Qed.
#[export] Instance uart_read_rxbuf_typed n : Respects R (uart_read_rxbuf n).
Proof. unfold uart_read_rxbuf, uart_take_char, uart_next_char, uart_sched_cti. respects. Qed.
#[export] Instance uart_read_byte_typed a n : Respects R (uart_read_byte a n).
Proof. unfold uart_read_byte. respects. Qed.
#[export] Instance vapi_char_typed n d : Respects R (vapi_char n d).
Proof. unfold vapi_char. respects. Qed.
#[export] Instance recv_break_start_typed cmd n `{!Respects R cmd} : Respects R (recv_break_start cmd n).
Proof. unfold recv_break_start. respects. Qed.
#[export] Instance vapi_cmd_typed fuel n : Respects R (vapi_cmd fuel n).
Proof. induction fuel; cbn [vapi_cmd]; respects. Qed.
#[export] Instance uart_vapi_cmd_typed n : Respects R (uart_vapi_cmd n).
Proof. apply vapi_cmd_typed. Qed.
#[export] Instance uart_recv_break_start_typed n : Respects R (uart_recv_break_start n).
Proof. unfold uart_recv_break_start. respects. Qed.
#[export] Instance uart_vapi_read_typed i d n : Respects R (uart_vapi_read i d n).
Proof. unfold uart_vapi_read. respects. Qed.
#[export] Instance uart_connect_typed n : Respects R (uart_connect n).
Proof. unfold uart_connect. respects. Qed.
#[export] Instance uart_zero_typed n l : Respects R (uart_zero n l).
Proof. induction l; cbn [uart_zero]; respects. Qed.
#[export] Instance uart_reset_typed n : Respects R (uart_reset n).
Proof. unfold uart_reset. respects. Qed.
End Typed.
End Uart.
