(* ===== verification/Serial.v ===== *)
(** * The serial port delivers characters in order

    The two FIFOs of peripheral/16450.c are circular buffers that implement
    queues, the interrupt identification register shows the pending interrupt
    of the highest priority except after a change of interrupt, and the packets
    sent to VAPI decode to the characters sent. *)

From S2P Require Export Uart.

Module Serial.
Import Sched Debug Except Pic Mem Uart.

(** ** Functions that need entries of the scheduler's heap *)

(** The port [n] can work: its interrupt line exists, the clocks of a character
    are those of a divisor, and [k] jobs can be scheduled. *)
Definition port (n : Z) (k : nat) (s : Sim) : Prop :=
  queue_good (job_queue s) /\ (k <= length (free_jobs s))%nat /\
  0 <= s (Uart n Ua_irq) < 32 /\ 0 <= s (Uart n Ua_char_clks) < 2 ^ 20.

Lemma port_le n k k' s : (k' <= k)%nat -> port n k s -> port n k' s.
Proof. unfold port. intros. split_and!; tauto || lia. Qed.

(** [m] returns when [k] jobs can be scheduled, and uses at most those. *)
Class Uses (n : Z) (k : nat) {A} (m : M A) : Prop :=
  uses : forall j s, port n (k + j) s -> exists a s', m s = Ok a s' /\ port n j s'.

Section Uses.
Context (n : Z).

(** Cells other than the two that [port] constrains. *)
Definition port_free (c : cell) : Prop :=
  match c with Uart _ (Ua_irq | Ua_char_clks) => False | _ => True end.
Lemma uses_total {A} (m : M A) :
  Total m -> Respects (frame port_free) m -> Respects same_lists m -> Uses n 0 m.
Proof.
  intros Ht Hf Hl j s (Hq & Hfr & Hi & Hc). destruct (Ht s) as (a & s' & E). exists a, s'. split; [done|].
  specialize (Hf s). specialize (Hl s). rewrite E in *. cbn in *. destruct Hl as (E1 & E2 & _).
  unfold port. rewrite E1, E2, !Hf by (intros []). auto.
Qed.
Lemma uses_ret {A} (a : A) : Uses n 0 (ret a).
Proof. intros j s H. by eexists _, _. Qed.
Lemma uses_gets {A} (f : Sim -> A) : Uses n 0 (gets f).
Proof. intros j s H. by eexists _, _. Qed.
Lemma uses_rd c : Uses n 0 (rd c).
Proof. intros j s H. by eexists _, _. Qed.
Lemma uses_flag c v : Uses n 0 (flag c v).
Proof. intros j s H. by eexists _, _. Qed.
Lemma uses_isset c : Uses n 0 (isset c).
Proof. intros j s H. by eexists _, _. Qed.
Lemma uses_emit e : Uses n 0 (emit e).
Proof. intros j s H. by eexists _, _. Qed.
Lemma uses_wr c v : c <> Uart n Ua_irq -> c <> Uart n Ua_char_clks -> Uses n 0 (wr c v).
Proof.
  intros H1 H2 j s (Hq & Hf & Hi & Hc). eexists _, _. split; [reflexivity|].
  unfold port. by rewrite !upd_ne.
Qed.
Lemma uses_ors c v : c <> Uart n Ua_irq -> c <> Uart n Ua_char_clks -> Uses n 0 (ors c v).
Proof. intros H1 H2 j s H. exact (uses_wr c _ H1 H2 j s H). Qed.
Lemma uses_clr c v : c <> Uart n Ua_irq -> c <> Uart n Ua_char_clks -> Uses n 0 (clr c v).
Proof. intros H1 H2 j s H. exact (uses_wr c _ H1 H2 j s H). Qed.
Lemma uses_adds c v : c <> Uart n Ua_irq -> c <> Uart n Ua_char_clks -> Uses n 0 (adds c v).
Proof. intros H1 H2 j s H. exact (uses_wr c _ H1 H2 j s H). Qed.
Lemma uses_bind {A B} k1 k2 (m : M A) (f : A -> M B) :
  Uses n k1 m -> (forall a, Uses n k2 (f a)) -> Uses n (k1 + k2) (bind m f).
Proof.
  intros Hm Hf j s H. rewrite <- Nat.add_assoc in H. destruct (Hm _ s H) as (a & s1 & E & H1).
  destruct (Hf a _ s1 H1) as (b & s2 & E2 & H2). exists b, s2. split; [|done]. unfold bind. by rewrite E.
Qed.
Lemma uses_le {A} k k' (m : M A) : Uses n k m -> (k <= k')%nat -> Uses n k' m.
Proof.
  intros Hm Hk j s H. destruct (Hm ((k' - k) + j)%nat s) as (a & s' & E & H').
  { eapply port_le; [|exact H]. lia. }
  exists a, s'. split; [done|]. eapply port_le; [|exact H']. lia.
Qed.
Lemma uses_if {A} k1 k2 (b : bool) (m1 m2 : M A) :
  Uses n k1 m1 -> Uses n k2 m2 -> Uses n (Nat.max k1 k2) (if b then m1 else m2).
Proof. intros H1 H2. destruct b; eapply uses_le; eauto; lia. Qed.
Lemma uses_when k b m : Uses n k m -> Uses n k (when b m).
Proof. intros H. destruct b; [done|]. eapply uses_le; [apply uses_ret | lia]. Qed.

(** Jobs. *)
Lemma uses_add f d t : 0 <= t < 2 ^ 30 -> Uses n 1 (sched_add f d t).
Proof.
  intros Ht j s (Hq & Hf & Hi & Hc). destruct (free_jobs s) as [|e fr] eqn:Ef; [cbn in Hf; lia|].
  destruct (sched_add_good s f d t e fr Hq Ef Ht) as (q' & E & _ & Hq').
  exists tt, (set_queue q' fr s). split; [done|]. cbn in Hf. unfold port. split_and!; try done; cbn; lia || done.
Qed.
Lemma uses_remove f d : f <> J_sched_guard -> Uses n 0 (sched_find_remove f d).
Proof.
  intros Hg j s (Hq & Hf & Hi & Hc). destruct (sched_find_remove_good s f d Hq Hg) as (q' & fr' & E & _ & Hq' & Hl).
  exists tt, (set_queue q' fr' s). split; [done|]. unfold port. split_and!; try done; cbn; lia || done.
Qed.
(** The two variables [port] bounds. *)
Lemma uses_clks {B} k (f : Z -> M B) :
  (forall x, 0 <= x < 2 ^ 20 -> Uses n k (f x)) -> Uses n k (x ← rd (Uart n Ua_char_clks); f x).
Proof. intros Hf j s H. pose proof H as (_ & _ & _ & Hc). exact (Hf _ Hc j s H). Qed.
Lemma uses_irq {B} k (f : Z -> M B) :
  (forall x, 0 <= x < 32 -> Uses n k (f x)) -> Uses n k (x ← rd (Uart n Ua_irq); f x).
Proof. intros Hf j s H. pose proof H as (_ & _ & Hi & _). exact (Hf _ Hi j s H). Qed.
Lemma chars_time x k : 0 <= x < 2 ^ 20 -> 0 <= k <= 2 ^ 9 -> 0 <= s32 (u64 (x * k)) < 2 ^ 30.
Proof. intros. rewrite (wrap_small U64), s32_small by (nia || (apply inty_U64; nia)). nia. Qed.

Lemma except_handle_uses e ea : Uses n 0 (except_handle e ea).
Proof.
  apply uses_total; unfold except_handle, debug_ignore_exception, set_stall_state, rsp_exception, delay_offset.
  - total.
  - respects.
  - respects.
Qed.
Lemma shl_int_ok k : 0 <= k < 32 -> shl_int 1 k = ret (s32 (Z.shiftl 1 k)).
Proof. intros. unfold shl_int. by rewrite (proj2 (Z.leb_le 0 k)), (proj2 (Z.ltb_lt k 32)) by lia. Qed.
End Uses.

Ltac uses1 :=
  lazymatch goal with
  | |- forall _, _ => intros ?
  | |- Uses _ _ (let _ := _ in _) => cbv zeta
  | |- Uses _ _ (bind (rd (Uart _ Ua_char_clks)) _) => apply uses_clks
  | |- Uses _ _ (bind (rd (Uart _ Ua_irq)) _) => apply uses_irq
  | |- Uses _ _ (bind _ _) => apply uses_bind
  | |- Uses _ _ (ret _) => apply uses_ret
  | |- Uses _ _ (gets _) => apply uses_gets
  | |- Uses _ _ (rd _) => apply uses_rd
  | |- Uses _ _ (flag _ _) => apply uses_flag
  | |- Uses _ _ (isset _) => apply uses_isset
  | |- Uses _ _ (emit _) => apply uses_emit
  | |- Uses _ _ (wr _ _) => apply uses_wr; discriminate
  | |- Uses _ _ (ors _ _) => apply uses_ors; discriminate
  | |- Uses _ _ (clr _ _) => apply uses_clr; discriminate
  | |- Uses _ _ (adds _ _) => apply uses_adds; discriminate
  | |- Uses _ _ (when _ _) => apply uses_when
  | |- Uses _ _ (if _ then _ else _) => apply uses_if
  | |- Uses _ _ (sched_find_remove _ _) => apply uses_remove; discriminate
  | |- Uses _ _ (sched_add _ _ _) => apply uses_add; first [lia | apply chars_time; lia]
  | |- Uses _ _ (except_handle _ _) => apply except_handle_uses
  | |- Uses _ _ _ => typeclasses eauto
  end.
Ltac uses := eapply uses_le; [repeat uses1 | cbn; lia].

Section Functions.
Context (n : Z).

Lemma uses_report k : 0 <= k < 32 -> Uses n 1 (report_interrupt k).
Proof. intros Hk. unfold report_interrupt. rewrite shl_int_ok by done. uses. Qed.
Lemma uses_clear k : 0 <= k < 32 -> Uses n 0 (clear_interrupt k).
Proof. intros Hk. unfold clear_interrupt. rewrite shl_int_ok by done. uses. Qed.
#[export] Instance raise_uses : Uses n 1 (raise n).
Proof. apply uses_irq. apply uses_report. Qed.
#[export] Instance int_msi_uses : Uses n 1 (uart_int_msi n).
Proof. unfold uart_int_msi. uses. Qed.
#[export] Instance int_thri_uses : Uses n 1 (uart_int_thri n).
Proof. unfold uart_int_thri. uses. Qed.
#[export] Instance int_cti_uses : Uses n 1 (uart_int_cti n).
Proof. unfold uart_int_cti. uses. Qed.
#[export] Instance int_rdi_uses : Uses n 1 (uart_int_rdi n).
Proof. unfold uart_int_rdi. uses. Qed.
#[export] Instance int_rlsi_uses : Uses n 1 (uart_int_rlsi n).
Proof. unfold uart_int_rlsi. uses. Qed.
#[export] Instance check_rlsi_uses : Uses n 1 (uart_check_rlsi n).
Proof. unfold uart_check_rlsi. uses. Qed.
#[export] Instance check_rdi_uses : Uses n 1 (uart_check_rdi n).
Proof. unfold uart_check_rdi. uses. Qed.
#[export] Instance next_int_uses : Uses n 1 (uart_next_int n).
Proof.
  unfold uart_next_int. eapply uses_le; [repeat uses1; by apply uses_clear | cbn; lia].
Qed.
#[export] Instance clear_int_uses i : Uses n 1 (uart_clear_int n i).
Proof. unfold uart_clear_int. uses. Qed.
#[export] Instance sched_cti_uses : Uses n 1 (uart_sched_cti n).
Proof.
  apply uses_clks. intros x Hx. apply uses_add.
  replace (x * UART_CHAR_TIMEOUT * UART_CLOCK_DIVIDER) with (x * 64)
    by (unfold UART_CHAR_TIMEOUT, UART_CLOCK_DIVIDER; lia). apply chars_time; lia.
Qed.
End Functions.

(** The interrupt functions write two registers of the port, and whatever the
    interrupt controller and an exception write. *)
Definition int_cell (n : Z) (c : cell) : Prop :=
  match c with
  | Uart n' (Ua_ints | Ua_iir) => n' = n
  | Uart _ _ => False
  | _ => True
  end.
Section Int_cells.
Context (n : Z).
Lemma except_handle_int e ea : Respects (frame (int_cell n)) (except_handle e ea).
Proof.
  unfold except_handle, debug_ignore_exception, set_stall_state, rsp_exception, delay_offset. respects.
Qed.
#[local] Existing Instance except_handle_int.
#[export] Instance raise_int : Respects (frame (int_cell n)) (raise n).
Proof. unfold raise, report_interrupt. respects. Qed.
#[export] Instance int_msi_int : Respects (frame (int_cell n)) (uart_int_msi n).
Proof. unfold uart_int_msi. respects. Qed.
#[export] Instance int_thri_int : Respects (frame (int_cell n)) (uart_int_thri n).
Proof. unfold uart_int_thri. respects. Qed.
#[export] Instance int_cti_int : Respects (frame (int_cell n)) (uart_int_cti n).
Proof. unfold uart_int_cti. respects. Qed.
#[export] Instance int_rdi_int : Respects (frame (int_cell n)) (uart_int_rdi n).
Proof. unfold uart_int_rdi. respects. Qed.
#[export] Instance int_rlsi_int : Respects (frame (int_cell n)) (uart_int_rlsi n).
Proof. unfold uart_int_rlsi. respects. Qed.
#[export] Instance check_rlsi_int : Respects (frame (int_cell n)) (uart_check_rlsi n).
Proof. unfold uart_check_rlsi. respects. Qed.
#[export] Instance check_rdi_int : Respects (frame (int_cell n)) (uart_check_rdi n).
Proof. unfold uart_check_rdi. respects. Qed.
#[export] Instance next_int_int : Respects (frame (int_cell n)) (uart_next_int n).
Proof. unfold uart_next_int, clear_interrupt. respects. Qed.
#[export] Instance clear_int_int i : Respects (frame (int_cell n)) (uart_clear_int n i).
Proof. unfold uart_clear_int. respects. Qed.
#[export] Instance sched_add_int f d t : Respects (frame (int_cell n)) (sched_add f d t).
Proof. apply sched_add_frame. Qed.
#[export] Instance sched_cti_int : Respects (frame (int_cell n)) (uart_sched_cti n).
Proof. unfold uart_sched_cti. respects. Qed.
End Int_cells.

(** Running a function of which only its frame matters. *)
Lemma wp_uses {A} n k j W (m : M A) (Q : A -> Sim -> Prop) (s : Sim) :
  Uses n k m -> Respects (frame W) m -> port n (k + j) s ->
  (forall a s', frame W s s' -> port n j s' -> Q a s') -> wp m Q s.
Proof.
  intros Hu Hr Hp HQ. destruct (Hu j s Hp) as (a & s' & E & Hp'). apply wp_ok. exists a, s'. split; [done|].
  specialize (Hr s). rewrite E in Hr. auto.
Qed.

(** ** The FIFOs *)

Inductive side := Rx | Tx.
Definition buf (n : Z) (d : side) (i : Z) : cell := Uart n (match d with Rx => Ua_rxbuf i | Tx => Ua_txbuf i end).
Definition head (n : Z) (d : side) : cell := Uart n (match d with Rx => Ua_rxbuf_head | Tx => Ua_txbuf_head end).
Definition tail (n : Z) (d : side) : cell := Uart n (match d with Rx => Ua_rxbuf_tail | Tx => Ua_txbuf_tail end).
Definition full (n : Z) (d : side) : cell := Uart n (match d with Rx => Ua_rxbuf_full | Tx => Ua_txbuf_full end).

(** The FIFO holds the queue [q], oldest first. *)
Record fifo (n : Z) (d : side) (q : list Z) (s : Sim) : Prop := {
  f_len : s (Uart n Ua_fifo_len) = 1 \/ s (Uart n Ua_fifo_len) = 16;
  f_tail : 0 <= s (tail n d) < s (Uart n Ua_fifo_len);
  f_full : s (full n d) = Z.of_nat (length q);
  f_room : Z.of_nat (length q) <= s (Uart n Ua_fifo_len);
  f_head : s (head n d) = (s (tail n d) + Z.of_nat (length q)) mod s (Uart n Ua_fifo_len);
  f_slots : forall i c, q !! i = Some c -> s (buf n d ((s (tail n d) + Z.of_nat i) mod s (Uart n Ua_fifo_len))) = c }.

(** The cells that hold a FIFO. *)
Definition fifo_cell (n : Z) (d : side) (c : cell) : Prop :=
  c = Uart n Ua_fifo_len \/ c = tail n d \/ c = full n d \/ c = head n d \/ exists i, c = buf n d i.

Lemma fifo_frame n d q (s s' : Sim) :
  fifo n d q s -> (forall c, fifo_cell n d c -> s' c = s c) -> fifo n d q s'.
Proof.
  intros [] Hs. unfold fifo_cell in Hs. split; rewrite ?(Hs (Uart n Ua_fifo_len)), ?(Hs (tail n d)),
    ?(Hs (full n d)), ?(Hs (head n d)) by tauto; try done.
  intros i c Hi. rewrite Hs by eauto 6. auto.
Qed.
Lemma fifo_int n d q (s s' : Sim) : fifo n d q s -> frame (int_cell n) s s' -> fifo n d q s'.
Proof.
  intros Hq Hf. apply (fifo_frame _ _ _ s); [done|].
  intros c [->|[->|[->|[->|(i & ->)]]]]; destruct d; apply Hf; by intros [].
Qed.

(** The first entry. *)
Lemma fifo_first n d c q (s : Sim) : fifo n d (c :: q) s -> s (buf n d (s (tail n d))) = c.
Proof.
  intros Hq. pose proof (f_slots _ _ _ _ Hq 0%nat c eq_refl) as H.
  rewrite Z.add_0_r, Z.mod_small in H by apply Hq. exact H.
Qed.

(** Taking the first entry. *)
Lemma fifo_pop n d c q (s s' : Sim) :
  fifo n d (c :: q) s ->
  s' (tail n d) = (s (tail n d) + 1) mod s (Uart n Ua_fifo_len) -> s' (full n d) = s (full n d) - 1 ->
  s' (head n d) = s (head n d) -> s' (Uart n Ua_fifo_len) = s (Uart n Ua_fifo_len) ->
  (forall i, s' (buf n d i) = s (buf n d i)) -> fifo n d q s'.
Proof.
  intros [Hl Ht Hf Hr Hh Hs] Et Ef Eh El Eb. cbn [length] in *.
  split; rewrite ?El, ?Et, ?Ef, ?Eh.
  - done.
  - apply Z.mod_pos_bound. lia.
  - rewrite Hf. lia.
  - lia.
  - rewrite Hh, Zplus_mod_idemp_l. f_equal. lia.
  - intros i x Hi. rewrite Eb, Zplus_mod_idemp_l. specialize (Hs (S i) x Hi).
    replace (s (tail n d) + 1 + Z.of_nat i) with (s (tail n d) + Z.of_nat (S i)) by lia. exact Hs.
Qed.

(** Adding an entry. *)
Lemma fifo_push n d v q (s s' : Sim) :
  fifo n d q s -> Z.of_nat (length q) < s (Uart n Ua_fifo_len) ->
  s' (buf n d (s (head n d))) = v -> s' (head n d) = (s (head n d) + 1) mod s (Uart n Ua_fifo_len) ->
  s' (full n d) = s (full n d) + 1 -> s' (tail n d) = s (tail n d) ->
  s' (Uart n Ua_fifo_len) = s (Uart n Ua_fifo_len) ->
  (forall i, i <> s (head n d) -> s' (buf n d i) = s (buf n d i)) -> fifo n d (q ++ [v]) s'.
Proof.
  intros [Hl Ht Hf Hr Hh Hs] Hlt Ev Eh Ef Et El Eb.
  split; rewrite ?length_app, ?El, ?Et, ?Ef, ?Eh; cbn [length].
  - done.
  - done.
  - rewrite Hf. lia.
  - lia.
  - rewrite Hh, Zplus_mod_idemp_l. f_equal. lia.
  - intros i x Hi. apply lookup_app_Some in Hi as [Hi|[Hi Hx]].
    + rewrite Eb; [by apply Hs|]. rewrite Hh. apply lookup_lt_Some in Hi.
      intros E. Z.to_euclidean_division_equations; nia.
    + apply list_lookup_singleton_Some in Hx as [Hi0 <-].
      replace (Z.of_nat i) with (Z.of_nat (length q)) by lia. by rewrite <- Hh.
Qed.

(** ** The receiver *)

(** What the functions of the receiver and the transmitter keep. *)
Record holding (n : Z) (d : side) (len : Z) (q : list Z) (lsr : Z) (k : nat) (s : Sim) : Prop := {
  r_port : port n k s;
  r_fifo : fifo n d q s;
  r_len : s (Uart n Ua_fifo_len) = len;
  r_lsr : s (Uart n Ua_lsr) = lsr;
  r_dlab : Z.land (s (Uart n Ua_lcr)) UART_LCR_DLAB = 0 }.

Lemma wp_calm {A} n d len k j q lsr (m : M A) (Q : A -> Sim -> Prop) (s : Sim) :
  Uses n k m -> Respects (frame (int_cell n)) m -> holding n d len q lsr (k + j) s ->
  (forall a s', holding n d len q lsr j s' -> Q a s') -> wp m Q s.
Proof.
  intros Hu Hr [Hp Hq Hn Hl Hd] HQ. eapply (wp_uses n k j); [done | done | exact Hp |].
  intros a s' Hf Hp'. apply HQ. split; [done | by apply (fifo_int _ _ _ s) | | |]; (rewrite Hf; [done | by intros []]).
Qed.

Lemma lor_u8 a b : 0 <= a < 2 ^ 8 -> 0 <= b < 2 ^ 8 -> u8 (Z.lor a b) = Z.lor a b.
Proof. intros. apply wrap_small, inty_U8, lor_range; lia. Qed.

Lemma wp_lsr n d len q lsr j v (Q : unit -> Sim -> Prop) (s : Sim) :
  holding n d len q lsr j s -> 0 <= lsr < 2 ^ 8 -> 0 <= v < 2 ^ 8 ->
  (forall s', holding n d len q (Z.lor lsr v) j s' -> Q tt s') -> wp (ors (Uart n Ua_lsr) v) Q s.
Proof.
  intros [Hp Hq Hn Hl Hd] Hlr Hv HQ. apply wpx_ors, HQ. split.
  - unfold port. by rewrite !upd_ne.
  - apply (fifo_frame _ _ _ s); [done|]. intros c [->|[->|[->|[->|(k & ->)]]]]; destruct d; by apply upd_ne.
  - by rewrite upd_ne.
  - rewrite upd_eq, Hl. by apply lor_u8.
  - by rewrite upd_ne.
Qed.

(** A change of the line status that clears bits. *)
Lemma wp_clr_lsr n d len q lsr j v (Q : unit -> Sim -> Prop) (s : Sim) :
  holding n d len q lsr j s -> 0 <= lsr < 2 ^ 8 ->
  (forall s', holding n d len q (Z.land lsr (Z.lnot v)) j s' -> Q tt s') -> wp (clr (Uart n Ua_lsr) v) Q s.
Proof.
  intros [Hp Hq Hn Hl Hd] Hlr HQ. apply wpx_clr, HQ. split.
  - unfold port. by rewrite !upd_ne.
  - apply (fifo_frame _ _ _ s); [done|]. intros c [->|[->|[->|[->|(k & ->)]]]]; destruct d; by apply upd_ne.
  - by rewrite upd_ne.
  - rewrite upd_eq, Hl. apply wrap_small, inty_U8, land_range; lia.
  - by rewrite upd_ne.
Qed.

Definition has_room (len : Z) (q : list Z) : bool := Z.of_nat (length q) <? len.

(** The line status after a character arrives. *)
Definition arrived_lsr (room : bool) (q : list Z) (ch lsr : Z) : Z :=
  Z.lor lsr (if room then match q with [] => Z.shiftr ch 8 | _ => 0 end else Z.lor UART_LSR_OVRRUN UART_LSR_RXERR).

Lemma store_char_run n len ch q lsr j (s : Sim) :
  holding n Rx len q lsr (1 + j) s -> 0 <= ch < 2 ^ 16 -> 0 <= lsr < 2 ^ 8 ->
  wp (uart_store_char n ch) (fun _ s' =>
    holding n Rx len (if has_room len q then q ++ [ch] else q) (arrived_lsr (has_room len q) q ch lsr) j s') s.
Proof.
  intros Hr Hch Hlsr. pose proof (r_fifo _ _ _ _ _ _ _ Hr) as Hq. pose proof (f_len _ _ _ _ Hq) as Hlen.
  pose proof (f_full _ _ _ _ Hq) as Hfull. pose proof (f_room _ _ _ _ Hq) as Hroom. change (s (Uart n Ua_rxbuf_full) = Z.of_nat (length q)) in Hfull.
  pose proof (r_len _ _ _ _ _ _ _ Hr) as En.
  unfold uart_store_char, has_room, arrived_lsr. do 4 (wp1; cbv beta). rewrite Hfull, !u32_small by lia.
  subst len. destruct (Z.ltb_spec (Z.of_nat (length q)) (s (Uart n Ua_fifo_len))).
  - rewrite (proj2 (Z.ltb_ge _ _)) by lia. pose proof (f_tail _ _ _ _ Hq) as Htl. pose proof (f_head _ _ _ _ Hq) as Hhd.
    do 10 (wp1; cbv beta). rewrite upd_ne by discriminate.
    match goal with |- wpx _ _ _ ?x => set (s1 := x) end.
    assert (Hr1 : holding n Rx (s (Uart n Ua_fifo_len)) (q ++ [ch]) lsr (1 + j) s1).
    { subst s1. split.
      - unfold port. rewrite !upd_ne by discriminate. apply Hr.
      - assert (Hm : 0 <= s (head n Rx) < s (Uart n Ua_fifo_len)) by (rewrite Hhd; apply Z.mod_pos_bound; lia).
        unfold head in Hm. eapply (fifo_push n Rx ch q s); [done | lia | unfold buf, head, tail, full..].
        + look. by apply (wrap_small U16), inty_U16.
        + look. rewrite Z.rem_mod_nonneg by lia. apply s32_small.
          pose proof (Z.mod_pos_bound (s (Uart n Ua_rxbuf_head) + 1) (s (Uart n Ua_fifo_len))). lia.
        + look. apply u32_small. lia.
        + by look.
        + by look.
        + intros i Hi. by look.
      - by look.
      - look. apply Hr.
      - look. apply Hr. }
    rewrite upd_ne, Hfull by discriminate. destruct q as [|c q].
    + rewrite (proj2 (nz_false (Z.of_nat (length []))) eq_refl). cbn [negb when]. wp1.
      eapply (wp_lsr n Rx _ [ch] lsr (1 + j)); [exact Hr1 | done | |].
      { rewrite Z.shiftr_div_pow2 by lia. split; [apply Z.div_pos; lia | apply Z.div_lt_upper_bound; lia]. }
      intros s2 Hr2. eapply (wp_calm n Rx _ 1 j); [apply _ | apply _ | exact Hr2 |]. by intros _ s' Hr'.
    + rewrite Z.lor_0_r. rewrite (proj2 (nz_spec _)) by (cbn [length]; lia). cbn [negb when]. wp1.
      destruct Hr1 as [Hp1 Hq1 Hn1 Hl1 Hd1]. split; [|done..]. eapply port_le; [|exact Hp1]. lia.
  - rewrite (proj2 (Z.ltb_lt _ _)) by lia. wp1.
    eapply (wp_lsr n Rx _ q lsr (1 + j)); [exact Hr | done | done |].
    intros s2 Hr2. eapply (wp_calm n Rx _ 1 j); [apply _ | apply _ | exact Hr2 |]. by intros _ s' Hr'.
Qed.

Lemma holding_range n len q lsr k (s : Sim) : typed s -> holding n Rx len q lsr k s -> 0 <= lsr < 2 ^ 8.
Proof. intros Hty Hr. rewrite <- (r_lsr _ _ _ _ _ _ _ Hr). by apply (typed_u8 s). Qed.

Lemma add_char_run n len ch q lsr j (s : Sim) :
  holding n Rx len q lsr (4 + j) s -> 0 <= ch < 2 ^ 16 -> 0 <= lsr < 2 ^ 8 ->
  wp (uart_add_char n ch) (fun _ s' =>
    holding n Rx len (if has_room len q then q ++ [ch] else q)
      (arrived_lsr (has_room len q) q ch (Z.lor lsr UART_LSR_RDRDY)) j s') s.
Proof.
  intros Hr Hch Hlsr. unfold uart_add_char. wp1.
  eapply (wp_lsr n Rx len q lsr (4 + j)); [exact Hr | done | done |]. intros s1 Hr1. wp1.
  eapply (wp_calm n Rx len 1 (3 + j)); [apply _ | apply _ | exact Hr1 |]. intros _ s2 Hr2. wp1.
  eapply (wp_calm n Rx len 1 (2 + j)); [apply _ | apply _ | exact Hr2 |]. intros _ s3 Hr3. wp1.
  eapply wpx_mono; [apply (store_char_run n len ch q (Z.lor lsr UART_LSR_RDRDY) (1 + j)) | done |];
    [exact Hr3 | done | apply lor_range; (lia || done) |].
  intros [] s4 Hr4. cbv beta in Hr4. eapply (wp_calm n Rx len 1 j); [apply _ | apply _ | exact Hr4 | by intros ? s'].
Qed.

(** Taking the first character out of the FIFO. *)
Lemma uart_take_char_run n len c q lsr j (s : Sim) :
  holding n Rx len (c :: q) lsr j s ->
  wp (uart_take_char n) (fun v s' => v = u8 c /\ holding n Rx len q lsr j s') s.
Proof.
  intros [Hp Hq Hn Hl Hd]. pose proof (fifo_first _ _ _ _ _ Hq) as Hc. pose proof Hq as [Hlen Ht Hf Hr _ _].
  unfold buf, tail, full in *. cbn [length] in *. unfold uart_take_char. wps. split; [by rewrite Hc|].
  split; [unfold port; by rewrite !upd_ne | | by look..].
  apply (fifo_pop n Rx c q s); [done | unfold buf, head, tail, full..]; look; try done.
  - rewrite Z.rem_mod_nonneg by lia. apply s32_small.
    pose proof (Z.mod_pos_bound (s (Uart n Ua_rxbuf_tail) + 1) (s (Uart n Ua_fifo_len))). lia.
  - rewrite Hf. apply u32_small. lia.
  - intros i. by look.
Qed.
(** The line status once the first character has been taken and [q] is left. *)
Definition taken_lsr (q : list Z) (lsr : Z) : Z :=
  match q with
  | [] => Z.land lsr (Z.lnot UART_LSR_RDRDY)
  | c :: _ => Z.lor lsr (Z.lor UART_LSR_RDRDY (Z.shiftr c 8))
  end.

Lemma high_byte c : 0 <= c < 2 ^ 16 -> 0 <= Z.shiftr c 8 < 2 ^ 8.
Proof.
  intros H. rewrite Z.shiftr_div_pow2 by lia. split; [apply Z.div_pos; lia | apply Z.div_lt_upper_bound; lia].
Qed.

Lemma uart_next_char_run n len q lsr j (s : Sim) :
  holding n Rx len q lsr (3 + j) s -> Forall (fun c => 0 <= c < 2 ^ 16) q -> 0 <= lsr < 2 ^ 8 ->
  wp (uart_next_char n) (fun _ s' => holding n Rx len q (taken_lsr q lsr) j s') s.
Proof.
  intros Hh Hq Hl. pose proof (r_fifo _ _ _ _ _ _ _ Hh) as Hf. pose proof (f_full _ _ _ _ Hf) as Efull.
  change (s (Uart n Ua_rxbuf_full) = Z.of_nat (length q)) in Efull.
  unfold uart_next_char. do 2 wp1. cbv beta. rewrite Efull. destruct q as [|c q].
  - change (nz (Z.of_nat (length (@nil Z)))) with false. cbv iota.
    eapply (wp_clr_lsr n Rx len [] lsr (3 + j)); [exact Hh | done |]. intros s1 [Hp ? ? ? ?].
    split; try done. eapply port_le; [|exact Hp]. lia.
  - rewrite (proj2 (nz_spec (Z.of_nat (length (c :: q))))) by (cbn [length]; lia). do 4 wp1. cbv beta.
    pose proof (fifo_first _ _ _ _ _ Hf) as Hc. unfold buf, tail in Hc. rewrite Hc.
    apply Forall_cons_1 in Hq as [Hc16 Hq]. wp1.
    eapply (wp_lsr n Rx len (c :: q) lsr (3 + j)); [exact Hh | done | |].
    { apply lor_range; [lia | done | by apply high_byte]. }
    intros s1 H1. wp1. eapply (wp_calm n Rx len 1 (2 + j)); [apply _ | apply _ | exact H1 |]. intros _ s2 H2. wp1.
    eapply (wp_calm n Rx len 1 (1 + j)); [apply _ | apply _ | exact H2 |]. intros _ s3 H3.
    eapply (wp_calm n Rx len 1 j); [apply _ | apply _ | exact H3 | by intros _ s4].
Qed.

Lemma uart_read_rxbuf_run n len q lsr j (s : Sim) :
  holding n Rx len q lsr (5 + j) s -> Forall (fun c => 0 <= c < 2 ^ 16) q -> 0 <= lsr < 2 ^ 8 ->
  wp (uart_read_rxbuf n) (fun v s' =>
    v = u8 (hd 0 q) /\ holding n Rx len (tl q) (taken_lsr (tl q) lsr) j s') s.
Proof.
  intros Hh Hq Hl. pose proof (f_full _ _ _ _ (r_fifo _ _ _ _ _ _ _ Hh)) as Efull.
  change (s (Uart n Ua_rxbuf_full) = Z.of_nat (length q)) in Efull.
  unfold uart_read_rxbuf. do 3 wp1. cbv beta. rewrite Efull.
  eapply wpx_mono with (Q := fun v s' => v = u8 (hd 0 q) /\ holding n Rx len (tl q) lsr (5 + j) s').
  { destruct q as [|c q].
    - apply wpx_ret. done.
    - rewrite (proj2 (nz_spec (Z.of_nat (length (c :: q))))) by (cbn [length]; lia). by apply uart_take_char_run. }
  { done. }
  intros v s1 [-> H1]. wp1.
  eapply (wp_calm n Rx len 1 (4 + j)); [apply _ | apply _ | exact H1 |]. intros _ s2 H2. wp1.
  eapply (wp_calm n Rx len 1 (3 + j)); [apply _ | apply _ | exact H2 |]. intros _ s3 H3. wp1.
  eapply wpx_mono; [apply (uart_next_char_run n len (tl q) lsr j) | done |]; [done | by destruct Hq | done |].
  intros [] s4 H4. by apply wpx_ret.
Qed.
(** ** The transmitter *)

(** A character written to the queue [q]: the last one when there is room, in
    the place of the oldest otherwise. *)
Definition written (len v : Z) (q : list Z) : list Z :=
  if has_room len q then q ++ [v] else match q with [] => [] | _ :: q => v :: q end.

(** A full FIFO: the head is the tail. *)
Lemma fifo_replace n d v q (s s' : Sim) :
  fifo n d q s -> s (Uart n Ua_fifo_len) <= Z.of_nat (length q) ->
  s' (buf n d (s (head n d))) = v -> s' (head n d) = s (head n d) -> s' (full n d) = s (full n d) ->
  s' (tail n d) = s (tail n d) -> s' (Uart n Ua_fifo_len) = s (Uart n Ua_fifo_len) ->
  (forall i, i <> s (head n d) -> s' (buf n d i) = s (buf n d i)) ->
  fifo n d (match q with [] => [] | _ :: q => v :: q end) s'.
Proof.
  intros [Hl Ht Hf Hr Hh Hs] Hge Ev Eh Ef Et El Eb. set (len := s (Uart n Ua_fifo_len)) in *.
  destruct q as [|c q]; [cbn in Hge; lia|]. cbn [length] in *.
  assert (Ehd : s (head n d) = s (tail n d)).
  { rewrite Hh. replace (s (tail n d) + Z.of_nat (S (length q))) with (s (tail n d) + 1 * len) by lia.
    rewrite Z_mod_plus_full. apply Z.mod_small. lia. }
  split; cbn [length]; rewrite ?El, ?Et, ?Ef, ?Eh; try done.
  intros i x Hi. destruct i as [|i].
  - injection Hi as <-. rewrite Z.add_0_r, Z.mod_small by lia. by rewrite <- Ehd.
  - rewrite Eb; [by apply Hs|]. rewrite Ehd. apply lookup_lt_Some in Hi. cbn in Hi.
    intros E. Z.to_euclidean_division_equations; nia.
Qed.

Lemma uart_write_txbuf_run n len v q lsr j (s : Sim) :
  holding n Tx len q lsr (2 + j) s -> 0 <= v < 2 ^ 8 -> 0 <= lsr < 2 ^ 8 ->
  wp (uart_write_txbuf n v) (fun _ s' =>
    holding n Tx len (written len v q) (Z.land lsr (Z.lnot UART_LSR_TXBUFE)) j s') s.
Proof.
  intros Hh Hv Hl. unfold uart_write_txbuf, written, has_room. wp1.
  eapply (wp_clr_lsr n Tx len q lsr (2 + j)); [exact Hh | done |]. clear s Hh. intros s Hh.
  set (lsr' := Z.land lsr _) in *.
  pose proof (r_fifo _ _ _ _ _ _ _ Hh) as Hq. pose proof (f_len _ _ _ _ Hq) as Hlen.
  pose proof (f_full _ _ _ _ Hq) as Hfull. change (s (Uart n Ua_txbuf_full) = Z.of_nat (length q)) in Hfull.
  pose proof (f_room _ _ _ _ Hq) as Hroom. pose proof (r_len _ _ _ _ _ _ _ Hh) as En. subst len.
  pose proof (f_tail _ _ _ _ Hq) as Htl. pose proof (f_head _ _ _ _ Hq) as Hhd.
  do 7 (wp1; cbv beta). rewrite Hfull, u32_small by lia.
  destruct (Z.ltb_spec (Z.of_nat (length q)) (s (Uart n Ua_fifo_len))) as [Hlt|Hge].
  - do 8 (wp1; cbv beta). match goal with |- wpx _ _ _ ?x => set (s1 := x) end.
    assert (H1 : holding n Tx (s (Uart n Ua_fifo_len)) (q ++ [v]) lsr' (2 + j) s1).
    { subst s1. split; [| |look; apply Hh..].
      - unfold port. rewrite !upd_ne by discriminate. apply Hh.
      - assert (Hm : 0 <= s (head n Tx) < s (Uart n Ua_fifo_len)) by (rewrite Hhd; apply Z.mod_pos_bound; lia).
        unfold head in Hm. eapply (fifo_push n Tx v q s); [done | lia | unfold buf, head, tail, full..]; look; try reflexivity.
        + by apply (wrap_small U8), inty_U8.
        + rewrite Z.rem_mod_nonneg by lia. apply s32_small.
          pose proof (Z.mod_pos_bound (s (Uart n Ua_txbuf_head) + 1) (s (Uart n Ua_fifo_len))). lia.
        + apply u32_small. lia.
        + intros i Hi. by look. }
    eapply wpx_mono with (E := fun _ _ => False) (Q := fun _ s' => holding n Tx (s (Uart n Ua_fifo_len)) (q ++ [v]) lsr' (1 + j) s'); [|done|].
    { wp1.
      - eapply (wp_calm n Tx _ 1 (1 + j)); [apply uses_add; lia | apply _ | exact H1 | by intros _ s'].
      - destruct H1 as [Hp1 ? ? ? ?]. split; try done. eapply port_le; [|exact Hp1]. lia. }
    intros [] s2 H2. eapply (wp_calm n Tx _ 1 j); [apply _ | apply _ | exact H2 | by intros _ s'].
  - wp1. match goal with |- wpx _ _ _ ?x => set (s1 := x) end.
    assert (H1 : holding n Tx (s (Uart n Ua_fifo_len)) (match q with [] => [] | _ :: q => v :: q end) lsr' (2 + j) s1).
    { subst s1. split; [| |look; apply Hh..].
      - unfold port. rewrite !upd_ne by discriminate. apply Hh.
      - eapply (fifo_replace n Tx v q s); [done | lia | unfold buf, head, tail, full..]; look; try reflexivity.
        + by apply (wrap_small U8), inty_U8.
        + intros i Hi. by look. }
    eapply (wp_calm n Tx _ 1 (1 + j)); [apply _ | apply _ | exact H1 |]. intros _ s2 [Hp2 ? ? ? ?].
    split; try done. eapply port_le; [|exact Hp2]. lia.
Qed.
(** The functions that follow a change of the transmitter keep the shift
    register. *)
Definition not_txser (n : Z) (c : cell) : Prop := c <> Uart n Ua_txser.
#[local] Hint Extern 1 (not_txser _ _) => discriminate : footprint.
Lemma int_not_txser {A} n (m : M A) :
  Respects (frame (int_cell n)) m -> Respects (frame (not_txser n)) m.
Proof. intros H. eapply frame_weaken; [exact H|]. intros c Hc ->. exact Hc. Qed.

(** The line status once the oldest character is in the shift register and [q]
    is left. *)
Definition sent_lsr (q : list Z) (lsr : Z) : Z :=
  let lsr := Z.land lsr (Z.lnot UART_LSR_TXSERE) in
  match q with [] => Z.lor lsr UART_LSR_TXBUFE | _ => lsr end.

Lemma uart_tx_send_run n len c q lsr j (s : Sim) :
  holding n Tx len (c :: q) lsr (2 + j) s -> 0 <= lsr < 2 ^ 8 -> 0 <= c < 2 ^ 8 ->
  wp (uart_tx_send n) (fun _ s' => holding n Tx len q (sent_lsr q lsr) j s' /\ s' (Uart n Ua_txser) = c) s.
Proof.
  intros Hh Hl Hc8. pose proof (r_fifo _ _ _ _ _ _ _ Hh) as Hq. pose proof (fifo_first _ _ _ _ _ Hq) as Hc.
  pose proof Hq as [Hlen Ht Hf Hr _ _]. unfold buf, tail, full in *. cbn [length] in *.
  unfold uart_tx_send. do 12 (wp1; cbv beta). look.
  match goal with |- wpx _ _ _ ?x => set (s1 := x) end.
  assert (H1 : holding n Tx len q lsr (2 + j) s1).
  { subst s1. split; [| |look; apply Hh..].
    - unfold port. rewrite !upd_ne by discriminate. apply Hh.
    - apply (fifo_pop n Tx c q s); [done | unfold buf, head, tail, full..]; look; try reflexivity.
      + rewrite Z.rem_mod_nonneg by lia. apply s32_small.
        pose proof (Z.mod_pos_bound (s (Uart n Ua_txbuf_tail) + 1) (s (Uart n Ua_fifo_len))). lia.
      + rewrite Hf. apply u32_small. lia.
      + intros i. by look. }
  assert (E1 : s1 (Uart n Ua_txser) = c).
  { subst s1. look. rewrite Hc. by apply (wrap_small U8), inty_U8. }
  clearbody s1. apply (wpx_respects (frame (not_txser n))).
  { respects. apply int_not_txser, _. }
  eapply wpx_mono with (E := fun _ _ => False) (Q := fun _ s' => holding n Tx len q (sent_lsr q lsr) j s');
    [|done|intros [] s' H' Hfr; split; [done|]; rewrite <- E1; apply Hfr; intros H; by apply H].
  wp1. eapply (wp_clr_lsr n Tx len q lsr (2 + j)); [exact H1 | done |]. intros s2 H2. do 3 wp1. cbv beta.
  eapply wpx_mono with (E := fun _ _ => False)
    (Q := fun _ s' => holding n Tx len q (Z.land lsr (Z.lnot UART_LSR_TXSERE)) (1 + j) s'); [|done|].
  { eapply (wp_calm n Tx _ 1 (1 + j)); [| |exact H2 | by intros _ s'].
    - destruct (negb _); [apply uses_clks; intros x Hx | ]; apply uses_add; [|lia].
      replace (x * UART_CLOCK_DIVIDER) with (x * 16) by (unfold UART_CLOCK_DIVIDER; lia). apply chars_time; lia.
    - respects. }
  intros [] s3 H3. do 2 wp1. cbv beta. unfold sent_lsr.
  pose proof (f_full _ _ _ _ (r_fifo _ _ _ _ _ _ _ H3)) as Efull. unfold full in Efull. rewrite Efull.
  destruct q as [|c' q]; [change (nz (Z.of_nat (length (@nil Z)))) with false
    | rewrite (proj2 (nz_spec (Z.of_nat (length (c' :: q))))) by (cbn [length]; lia)]; cbn [negb].
  - wp1; [|discriminate]. wp1.
    eapply (wp_lsr n Tx len [] _ (1 + j)); [exact H3 | apply land_range; lia | done |]. intros s4 H4.
    eapply (wp_calm n Tx _ 1 j); [apply _ | apply _ | exact H4 | by intros _ s'].
  - wp1; [discriminate|]. destruct H3 as [Hp3 ? ? ? ?]. split; try done. eapply port_le; [|exact Hp3]. lia.
Qed.
(** ** Sequences of operations *)

(** The results of the operations [ops], one after the other. *)
Fixpoint each {Op} (f : Op -> M Z) (ops : list Op) : M (list Z) :=
  match ops with
  | [] => ret []
  | op :: ops => v ← f op; l ← each f ops; ret (v :: l)
  end.
(** The queue machine: entries and line status; an operation can be disabled. *)
Definition queue : Type := list Z * Z.
Fixpoint each_spec {Op} (f : Op -> queue -> option (Z * queue)) (ops : list Op) (st : queue) : option (list Z * queue) :=
  match ops with
  | [] => Some ([], st)
  | op :: ops =>
      match f op st with
      | Some (v, st) => match each_spec f ops st with Some (l, st) => Some (v :: l, st) | None => None end
      | None => None
      end
  end.

Inductive rx_op := Arrive (ch : Z) | Take.
Definition rx_do (n : Z) (op : rx_op) : M Z :=
  match op with
  | Arrive ch => uart_add_char n ch;; ret 0
  | Take => uart_read_byte UART_RXBUF n
  end.
Definition rx_spec (len : Z) (op : rx_op) (st : queue) : option (Z * queue) :=
  let '(q, lsr) := st in
  match op with
  | Arrive ch =>
      Some (0, (if has_room len q then q ++ [ch] else q,
                arrived_lsr (has_room len q) q ch (Z.lor lsr UART_LSR_RDRDY)))
  | Take => Some (u8 (hd 0 q), (tl q, taken_lsr (tl q) lsr))
  end.
Definition rx_ok (op : rx_op) : Prop := match op with Arrive ch => 0 <= ch < 2 ^ 16 | Take => True end.

Inductive tx_op := Put (v : Z) | Shift.
(** [Shift] is the job [uart_tx_send], with what it leaves in the shift register. *)
Definition tx_do (n : Z) (op : tx_op) : M Z :=
  match op with
  | Put v => uart_write_byte UART_TXBUF v n;; ret 0
  | Shift => uart_tx_send n;; rd (Uart n Ua_txser)
  end.
Definition tx_spec (len : Z) (op : tx_op) (st : queue) : option (Z * queue) :=
  let '(q, lsr) := st in
  match op with
  | Put v => Some (0, (written len v q, Z.land lsr (Z.lnot UART_LSR_TXBUFE)))
  | Shift => match q with [] => None | c :: q => Some (c, (q, sent_lsr q lsr)) end
  end.
Definition tx_ok (op : tx_op) : Prop := match op with Put v => 0 <= v < 2 ^ 8 | Shift => True end.

(** The entries and the line status are in the range of their variables. *)
Definition in_range (w : Z) (st : queue) : Prop := Forall (fun c => 0 <= c < w) st.1 /\ 0 <= st.2 < 2 ^ 8.

(** When every operation does what the machine does, sequences do. *)
Lemma each_run {Op} n d len w k (f : Op -> M Z) (g : Op -> queue -> option (Z * queue)) (ok : Op -> Prop) :
  (forall op st v st' j s, ok op -> in_range w st -> g op st = Some (v, st') ->
     holding n d len st.1 st.2 (k + j) s ->
     in_range w st' /\ wp (f op) (fun v' s' => v' = v /\ holding n d len st'.1 st'.2 j s') s) ->
  forall ops st l st' j s, Forall ok ops -> in_range w st -> each_spec g ops st = Some (l, st') ->
    holding n d len st.1 st.2 (k * length ops + j) s ->
    exists s', each f ops s = Ok l s' /\ holding n d len st'.1 st'.2 j s'.
Proof.
  intros Hstep ops. induction ops as [|op ops IH]; intros st l st' j s Hok Hr E Hh; cbn [each each_spec] in *.
  - injection E as <- <-. exists s. rewrite Nat.mul_0_r in Hh. done.
  - destruct (g op st) as [[v st1]|] eqn:E1; [|done]. destruct (each_spec g ops st1) as [[l' st2]|] eqn:E2; [|done].
    injection E as <- <-. apply Forall_cons_1 in Hok as [Ho Hok].
    destruct (Hstep op st v st1 (k * length ops + j)%nat s Ho Hr E1) as [Hr1 Hw].
    { replace (k + (k * length ops + j))%nat with (k * length (op :: ops) + j)%nat by (cbn [length]; lia). exact Hh. }
    apply wp_ok in Hw as (v' & s1 & Ef & -> & H1).
    destruct (IH st1 l' st2 j s1 Hok Hr1 E2 H1) as (s2 & Es & H2).
    exists s2. split; [|done]. unfold bind. by rewrite Ef, Es.
Qed.

Lemma lsr_land a b : 0 <= a < 2 ^ 8 -> 0 <= Z.land a b < 2 ^ 8.
Proof. intros. apply land_range; lia. Qed.
Lemma lsr_lor a b : 0 <= a < 2 ^ 8 -> 0 <= b < 2 ^ 8 -> 0 <= Z.lor a b < 2 ^ 8.
Proof. intros. apply lor_range; lia. Qed.
#[local] Hint Resolve lsr_land lsr_lor high_byte : core.
Lemma lsr_const v : (0 <=? v) && (v <? 2 ^ 8) = true -> 0 <= v < 2 ^ 8.
Proof. intros H. apply andb_true_iff in H as [H1%Z.leb_le H2%Z.ltb_lt]. lia. Qed.

Lemma dlab_clear n d len q lsr k (s : Sim) :
  holding n d len q lsr k s -> nz (Z.land (s (Uart n Ua_lcr)) UART_LCR_DLAB) = false.
Proof. intros Hh. by rewrite (r_dlab _ _ _ _ _ _ _ Hh). Qed.

Lemma rx_step n len op st v st' j (s : Sim) :
  rx_ok op -> in_range (2 ^ 16) st -> rx_spec len op st = Some (v, st') ->
  holding n Rx len st.1 st.2 (5 + j) s ->
  in_range (2 ^ 16) st' /\ wp (rx_do n op) (fun v' s' => v' = v /\ holding n Rx len st'.1 st'.2 j s') s.
Proof.
  destruct st as [q lsr]. intros Ho [Hq Hl] E Hh. cbn [fst snd] in *. destruct op as [ch|]; cbn in E; injection E as <- <-.
  - split.
    + split; cbn [fst snd].
      * case_match; [|done]. apply Forall_app. auto.
      * unfold arrived_lsr. apply lsr_lor; [auto using lsr_const|]. case_match; [|by apply lsr_const].
        destruct q; [by apply high_byte | lia].
    + unfold rx_do. wp1. eapply wpx_mono; [apply (add_char_run n len ch q lsr j) | done |]; [|done..|].
      { destruct Hh as [Hp ? ? ? ?]. split; try done. eapply port_le; [|exact Hp]. lia. }
      intros [] s' H'. by apply wpx_ret.
  - split.
    + split; cbn [fst snd]; [by destruct Hq|]. unfold taken_lsr. destruct q as [|c [|c' q]]; cbn [tl]; [auto..|].
      apply Forall_cons_1 in Hq as [_ [Hc _]%Forall_cons_1]. auto using lsr_const.
    + unfold rx_do, uart_read_byte. do 2 wp1. cbv beta. rewrite (dlab_clear _ _ _ _ _ _ _ Hh). cbn [andb].
      change (UART_RXBUF) with 0. cbn [switch existsb Z.eqb orb]. by apply uart_read_rxbuf_run.
Qed.

Lemma tx_step n len op st v st' j (s : Sim) :
  tx_ok op -> in_range (2 ^ 8) st -> tx_spec len op st = Some (v, st') ->
  holding n Tx len st.1 st.2 (2 + j) s ->
  in_range (2 ^ 8) st' /\ wp (tx_do n op) (fun v' s' => v' = v /\ holding n Tx len st'.1 st'.2 j s') s.
Proof.
  destruct st as [q lsr]. intros Ho [Hq Hl] E Hh. cbn [fst snd] in *. destruct op as [ch|]; cbn in E.
  - injection E as <- <-. split.
    + split; cbn [fst snd]; [|auto]. unfold written. case_match; [apply Forall_app; auto|].
      destruct q; [done|]. apply Forall_cons_1 in Hq as [_ Hq]. by apply Forall_cons.
    + unfold tx_do, uart_write_byte. do 3 wp1. cbv beta. rewrite (dlab_clear _ _ _ _ _ _ _ Hh). cbn [andb].
      change (UART_TXBUF) with 0. cbn [switch existsb Z.eqb orb].
      eapply wpx_mono; [by apply (uart_write_txbuf_run n len ch q lsr j) | done |]. intros [] s' H'. by apply wpx_ret.
  - destruct q as [|c q]; [done|]. injection E as <- <-. apply Forall_cons_1 in Hq as [Hc Hq]. split.
    + split; cbn [fst snd]; [done|]. unfold sent_lsr. destruct q; auto using lsr_const.
    + unfold tx_do. wp1. eapply wpx_mono; [by apply (uart_tx_send_run n len c q lsr j) | done |].
      intros [] s' [H' E']. by apply wpx_rd.
Qed.
(** ** The interrupt that is reported *)

(** The interrupts by priority, with the enabling bits. *)
Definition sources : list (Z * Z) :=
  [(UART_IIR_RLSI, UART_IER_RLSI); (UART_IIR_RDI, UART_IER_RDI); (UART_IIR_CTI, UART_IER_RDI);
   (UART_IIR_THRI, UART_IER_THRI); (UART_IIR_MSI, UART_IER_MSI)].
Definition due (ints ier : Z) (x : Z * Z) : bool := nz (Z.land ints (Z.shiftl 1 x.1)) && nz (Z.land ier x.2).
(** The one with the highest priority that is pending and enabled. *)
Definition pending (ints ier : Z) : option Z := fst <$> find (due ints ier) sources.
(** The place of an interrupt in the order of priorities. *)
Fixpoint place (id : Z) (l : list (Z * Z)) : Z :=
  match l with [] => 0 | x :: l => if id =? x.1 then 0 else 1 + place id l end.
Definition rank (id : Z) : Z := place id sources.

(** The functions that report an interrupt, except for the condition on the one
    that is reported already. *)
Definition report (n id enable : Z) (cond : Z -> bool) : M unit :=
  ors (Uart n Ua_ints) (Z.shiftl 1 id);;
  enabled ← flag (Uart n Ua_ier) enable;
  if negb enabled then ret tt
  else iir ← rd (Uart n Ua_iir); when (cond iir) (wr (Uart n Ua_iir) id;; raise n).
Definition not_uart (c : cell) : Prop := match c with Uart _ _ => False | _ => True end.
#[local] Instance except_handle_uart e ea : Respects (frame not_uart) (except_handle e ea).
Proof. unfold except_handle, debug_ignore_exception, set_stall_state, rsp_exception, delay_offset. respects. Qed.
#[local] Instance raise_uart n : Respects (frame not_uart) (raise n).
Proof. unfold raise, report_interrupt. respects. Qed.

Lemma report_run n id enable cond j (s : Sim) :
  port n (1 + j) s -> nz (Z.land (s (Uart n Ua_ints)) (Z.shiftl 1 id)) = true -> 0 <= id < 16 ->
  0 <= s (Uart n Ua_ints) < 2 ^ 16 -> nz (Z.land (s (Uart n Ua_ier)) enable) = true ->
  wp (report n id enable cond) (fun _ s' =>
    s' (Uart n Ua_iir) = (if cond (s (Uart n Ua_iir)) then id else s (Uart n Ua_iir))) s.
Proof.
  intros Hp Hi Hid Hr He. unfold report. do 4 (wp1; cbv beta). look. rewrite He. cbn [negb].
  do 2 (wp1; cbv beta). look. wp1; cbv beta; [|by rewrite H; look]. rewrite H. do 2 wp1. cbv beta.
  eapply (wp_uses n 1 j not_uart (raise n)); [apply _ | apply _ | |].
  { unfold port. by rewrite !upd_ne. }
  intros [] s' Hf Hp'. rewrite Hf by intros []. look. apply wrap_small, inty_U8. lia.
Qed.
Lemma wp_ext {A} (m m' : M A) Q (s : Sim) : m s = m' s -> wp m' Q s -> wp m Q s.
Proof. unfold wpx. by intros ->. Qed.

(** What [uart_next_int] leaves in the identification register. *)
Definition next_iir (iir ints ier : Z) : Z :=
  match pending ints ier with
  | None => UART_IIR_NO_INT
  | Some p => if rank p <=? rank iir then p else iir
  end.
Definition reported (id : Z) : Prop := id ∈ sources.*1.

Lemma reported_all (P : Z -> bool) id : reported id -> forallb P sources.*1 = true -> P id = true.
Proof. intros Hid Hf. rewrite forallb_forall in Hf. apply Hf. by apply list_elem_of_In. Qed.
Lemma pending_reported ints ier p : pending ints ier = Some p -> reported p.
Proof.
  unfold pending. destruct (find _ _) as [x|] eqn:E; [|done]. intros [= <-]. apply find_some in E as [E _].
  apply list_elem_of_fmap_2. by apply list_elem_of_In.
Qed.
Lemma rank_inj p q : reported p -> reported q -> rank p = rank q -> p = q.
Proof.
  intros Hp Hq E. apply Z.eqb_eq. apply Z.eqb_eq in E. revert E. apply implb_true_iff.
  apply (reported_all (fun q => implb (rank p =? rank q) (p =? q)) q Hq).
  by apply (reported_all (fun p => forallb (fun q => implb (rank p =? rank q) (p =? q)) sources.*1) p Hp).
Qed.

(** The five functions. *)
Class Reports (n id e : Z) (cond : Z -> bool) (m : M unit) : Prop := is_report : forall s, m s = report n id e cond s.
#[local] Instance rlsi_reports n : Reports n UART_IIR_RLSI UART_IER_RLSI (fun _ => true) (uart_int_rlsi n).
Proof. intros s. reflexivity. Qed.
#[local] Instance rdi_reports n :
  Reports n UART_IIR_RDI UART_IER_RDI (fun iir => negb (iir =? UART_IIR_RLSI)) (uart_int_rdi n).
Proof. intros s. reflexivity. Qed.
#[local] Instance cti_reports n :
  Reports n UART_IIR_CTI UART_IER_RDI (fun iir => negb (iir =? UART_IIR_RLSI) && negb (iir =? UART_IIR_RDI))
    (uart_int_cti n).
Proof. intros s. reflexivity. Qed.
#[local] Instance thri_reports n :
  Reports n UART_IIR_THRI UART_IER_THRI
    (fun iir => nz (Z.land iir UART_IIR_NO_INT) || (iir =? UART_IIR_MSI) || (iir =? UART_IIR_THRI)) (uart_int_thri n).
Proof. intros s. reflexivity. Qed.
#[local] Instance msi_reports n :
  Reports n UART_IIR_MSI UART_IER_MSI
    (fun iir => nz (Z.land iir UART_IIR_NO_INT) || (iir =? UART_IIR_MSI)) (uart_int_msi n).
Proof. intros s. reflexivity. Qed.

(** A case of [uart_next_int]. *)
Lemma next_case n id e cond (m : M unit) j (s : Sim) :
  Reports n id e cond m ->
  forallb (fun x => Bool.eqb (cond x) (rank id <=? rank x)) sources.*1 = true -> 0 <= id < 16 ->
  due (s (Uart n Ua_ints)) (s (Uart n Ua_ier)) (id, e) = true ->
  port n (1 + j) s -> 0 <= s (Uart n Ua_ints) < 2 ^ 16 -> reported (s (Uart n Ua_iir)) ->
  wp m (fun _ s' => s' (Uart n Ua_iir) = if rank id <=? rank (s (Uart n Ua_iir)) then id else s (Uart n Ua_iir)) s.
Proof.
  intros Em Hc Hi [H1 H2]%andb_true_iff Hp Hr Hid. eapply wp_ext; [apply Em|].
  apply (reported_all _ _ Hid), Bool.eqb_prop in Hc. rewrite <- Hc. by apply (report_run n id e cond j).
Qed.

Lemma next_int_run n j (s : Sim) :
  port n (1 + j) s -> 0 <= s (Uart n Ua_ints) < 2 ^ 16 -> reported (s (Uart n Ua_iir)) ->
  wp (uart_next_int n) (fun _ s' =>
    s' (Uart n Ua_iir) = next_iir (s (Uart n Ua_iir)) (s (Uart n Ua_ints)) (s (Uart n Ua_ier))) s.
Proof.
  intros Hp Hr Hid. unfold uart_next_int, next_iir, pending. do 4 wp1. cbv beta zeta. cbn [find sources].
  change (nz (Z.land (s (Uart n Ua_ints)) (Z.shiftl 1 ?i)) && nz (Z.land (s (Uart n Ua_ier)) ?e))
    with (due (s (Uart n Ua_ints)) (s (Uart n Ua_ier)) (i, e)).
  repeat match goal with
  | |- context [if due ?i ?e ?x then _ else _] =>
      let E := fresh in destruct (due i e x) eqn:E; cbn [fst fmap option_fmap option_map];
      [ eapply (next_case n _ _ _ _ j s);
          [typeclasses eauto | reflexivity | split; reflexivity || discriminate | exact E | assumption..] |]
  end.
  do 3 wp1. cbv beta. destruct Hp as (Hq & Hf & Hi & Hc).
  eapply (wp_uses n 0 (1 + j) not_uart); [by apply uses_clear | unfold clear_interrupt; respects | done |].
  intros [] s' _ _. wp1. by rewrite upd_eq.
Qed.

(** When software clears the interrupt that the identification register
    shows, the register shows the pending and enabled interrupt of the highest
    priority if that priority is higher than that of the interrupt cleared; it
    shows that there is none if none is pending; otherwise it goes on showing
    the interrupt that was cleared: [uart_next_int] leaves the old value to be
    compared with. *)
Theorem uart_clear_int_reports n intr ints j (s : Sim) :
  port n (1 + j) s -> 0 <= s (Uart n Ua_ints) < 2 ^ 16 -> s (Uart n Ua_iir) = intr -> reported intr ->
  ints = Z.land (s (Uart n Ua_ints)) (Z.lnot (Z.shiftl 1 intr)) ->
  exists s', uart_clear_int n intr s = Ok tt s' /\
    s' (Uart n Ua_iir) =
      match pending ints (s (Uart n Ua_ier)) with
      | None => UART_IIR_NO_INT
      | Some p => if rank p <? rank intr then p else intr
      end.
Proof.
  intros Hp Hr Eiir Hid ->. apply wp_unit. unfold uart_clear_int. do 3 (wp1; cbv beta).
  match goal with |- wpx _ _ _ ?x => set (s1 := x) end.
  assert (Hp1 : port n (1 + j) s1) by (subst s1; unfold port; by rewrite !upd_ne).
  assert (Hi1 : s1 (Uart n Ua_ints) = Z.land (s (Uart n Ua_ints)) (Z.lnot (Z.shiftl 1 intr))).
  { subst s1. rewrite upd_eq. apply s32_small. pose proof (land_range 16 (s (Uart n Ua_ints)) (Z.lnot (Z.shiftl 1 intr))). lia. }
  assert (He1 : s1 (Uart n Ua_ier) = s (Uart n Ua_ier)) by (subst s1; by look).
  assert (Hii1 : s1 (Uart n Ua_iir) = intr) by (subst s1; by look). clearbody s1.
  eapply (wp_uses n 0 (1 + j) not_uart).
  { destruct (intr =? UART_IIR_CTI); [apply uses_remove; discriminate | apply uses_ret]. }
  { respects. }
  { exact Hp1. }
  intros [] s2 Hf Hp2. do 2 wp1. cbv beta. rewrite (Hf (Uart n Ua_iir)), Hii1, Z.eqb_refl by intros []. cbn [negb].
  eapply wpx_mono; [apply (next_int_run n j s2) | done |].
  { done. }
  { rewrite Hf, Hi1 by intros []. apply land_range; lia. }
  { rewrite Hf, Hii1 by intros []. done. }
  intros [] s3 E3. cbv beta in E3. rewrite E3. rewrite !Hf, Hi1, Hii1, He1 by intros []. unfold next_iir.
  destruct (pending _ _) as [p|] eqn:Ep; [|done].
  destruct (Z.leb_spec (rank p) (rank intr)), (Z.ltb_spec (rank p) (rank intr)); try lia.
  apply rank_inj; [by eapply pending_reported | done | lia].
Qed.
(** ** Packets *)

Definition octets : list Z := map Z.of_nat (seq 0 256).
Lemma octets_all (P : Z -> bool) x : 0 <= x < 2 ^ 8 -> forallb P octets = true -> P x = true.
Proof.
  intros Hx H. rewrite forallb_forall in H. apply H. apply in_map_iff. exists (Z.to_nat x).
  rewrite in_seq. split; lia.
Qed.
Definition packet_ok (lcr c : Z) : bool :=
  decode_packet (encode_packet c lcr (Z.land lcr UART_LCR_WLEN8 + 5)) lcr
  =? Z.lor (Z.land c (Z.ones (Z.land lcr UART_LCR_WLEN8 + 5))) (Z.shiftl lcr 8).
Lemma packet_all : forallb (fun lcr => forallb (packet_ok lcr) octets) octets = true.
Proof. vm_compute. reflexivity. Qed.

(** C35: The packet that [send_char] builds for a character decodes, with the
    same line settings, to the data bits of the character and the settings,
    without a parity or a framing error: for every word length, parity and
    number of stop bits. *)
Theorem uart_packet_roundtrip c lcr :
  0 <= c < 2 ^ 8 -> 0 <= lcr < 2 ^ 8 ->
  decode_packet (encode_packet c lcr (Z.land lcr UART_LCR_WLEN8 + 5)) lcr =
  Z.lor (Z.land c (Z.ones (Z.land lcr UART_LCR_WLEN8 + 5))) (Z.shiftl lcr 8).
Proof.
  intros Hc Hl. apply Z.eqb_eq, (octets_all (packet_ok lcr) c Hc).
  exact (octets_all (fun lcr => forallb (packet_ok lcr) octets) lcr Hl packet_all).
Qed.

(** ** Queues *)

Lemma holding_in_range n d len q lsr k (s : Sim) :
  typed s -> holding n d len q lsr k s -> in_range (match d with Rx => 2 ^ 16 | Tx => 2 ^ 8 end) (q, lsr).
Proof.
  intros Hty Hh. split; cbn [fst snd].
  - apply Forall_lookup. intros i c Hi. rewrite <- (f_slots _ _ _ _ (r_fifo _ _ _ _ _ _ _ Hh) i c Hi).
    unfold buf. destruct d; [apply inty_U16, (Hty (Uart n (Ua_rxbuf _))) | apply inty_U8, (Hty (Uart n (Ua_txbuf _)))].
  - rewrite <- (r_lsr _ _ _ _ _ _ _ Hh). by apply typed_u8.
Qed.

(** C33: The receiver is a queue: any sequence of arriving characters and reads
    of the receive buffer returns what the abstract queue does, and no step of
    it fails.  Characters are read in the order in which they arrived, one that
    arrives at a full FIFO is dropped and sets the overrun bit, an empty FIFO
    reads as zero, and the status bits of a character show when it becomes the
    first. *)
Theorem uart_rx_queue n len ops q lsr l q' lsr' j (s : Sim) :
  typed s -> holding n Rx len q lsr (5 * length ops + j) s -> Forall rx_ok ops ->
  each_spec (rx_spec len) ops (q, lsr) = Some (l, (q', lsr')) ->
  exists s', each (rx_do n) ops s = Ok l s' /\ holding n Rx len q' lsr' j s'.
Proof.
  intros Hty Hh Hok E.
  refine (each_run n Rx len (2 ^ 16) 5 _ (rx_spec len) rx_ok _ ops (q, lsr) l (q', lsr') j s Hok _ E Hh).
  - intros op st v st' j' s1. apply rx_step.
  - exact (holding_in_range _ _ _ _ _ _ _ Hty Hh).
Qed.

(** C34: The transmitter is a queue: the characters written to the transmit
    buffer reach the shift register in order; a character written to a full
    FIFO takes the place of the oldest one. *)
Theorem uart_tx_queue n len ops q lsr l q' lsr' j (s : Sim) :
  typed s -> holding n Tx len q lsr (2 * length ops + j) s -> Forall tx_ok ops ->
  each_spec (tx_spec len) ops (q, lsr) = Some (l, (q', lsr')) ->
  exists s', each (tx_do n) ops s = Ok l s' /\ holding n Tx len q' lsr' j s'.
Proof.
  intros Hty Hh Hok E.
  refine (each_run n Tx len (2 ^ 8) 2 _ (tx_spec len) tx_ok _ ops (q, lsr) l (q', lsr') j s Hok _ E Hh).
  - intros op st v st' j' s1. apply tx_step.
  - exact (holding_in_range _ _ _ _ _ _ _ Hty Hh).
Qed.

(** ** Examples *)

(** Port 0 after a reset, with a FIFO of one character (16450). *)
Definition ex_port : Sim :=
  upd (Uart 0 Ua_fifo_len) 1 (upd (Uart 0 Ua_lsr) (Z.lor UART_LSR_TXBUFE UART_LSR_TXSERE)
    (upd (Uart 0 Ua_char_clks) 160 (upd (Uart 0 Ua_lcr) UART_LCR_RESET
      (set_queue ex_queue (replicate 40 (SchedEntry 0 0 J_sched_guard)) zero_state)))).
Lemma ex_port_typed : typed ex_port.
Proof. unfold ex_port. repeat apply upd_typed. exact zero_typed. Qed.
Lemma ex_port_holding d k : (k <= 40)%nat -> holding 0 d 1 [] (Z.lor UART_LSR_TXBUFE UART_LSR_TXSERE) k ex_port.
Proof.
  intros Hk. unfold ex_port. split; [| |by look..].
  - split; [exact ex_queue_good|]. split; [exact Hk|]. split; vm_compute; split; congruence.
  - destruct d; (split; [left; reflexivity | vm_compute; split; congruence | reflexivity | vm_compute; congruence | reflexivity | by intros i c]).
Qed.

Lemma uart_rx_queue_witness : exists s',
  each (rx_do 0) [Arrive 0x41; Arrive 0x42; Take; Take; Arrive 0x43; Take] ex_port = Ok [0; 0; 0x41; 0; 0; 0x43] s' /\
  holding 0 Rx 1 [] 0xe2 0 s'.
Proof.
  apply (uart_rx_queue 0 1 _ [] (Z.lor UART_LSR_TXBUFE UART_LSR_TXSERE)).
  - exact ex_port_typed.
  - apply ex_port_holding. cbn. lia.
  - repeat constructor; vm_compute; congruence.
  - vm_compute. reflexivity.
Defined.

Lemma uart_tx_queue_witness : exists s',
  each (tx_do 0) [Put 0x41; Shift; Put 0x42; Put 0x43; Shift] ex_port = Ok [0; 0x41; 0; 0; 0x43] s' /\
  holding 0 Tx 1 [] 0x20 0 s'.
Proof.
  apply (uart_tx_queue 0 1 _ [] (Z.lor UART_LSR_TXBUFE UART_LSR_TXSERE)).
  - exact ex_port_typed.
  - apply ex_port_holding. cbn. lia.
  - repeat constructor; vm_compute; congruence.
  - vm_compute. reflexivity.
Defined.

Lemma uart_packet_roundtrip_witness :
  decode_packet (encode_packet 0x41 (Z.lor UART_LCR_WLEN8 UART_LCR_PARITY) 8) (Z.lor UART_LCR_WLEN8 UART_LCR_PARITY) = 0xb41.
Proof. exact (uart_packet_roundtrip 0x41 0x0b ltac:(lia) ltac:(lia)). Defined.

(** The receiver's interrupt is cleared while the transmitter's is pending: the
    register goes on showing the receiver's. *)
Definition ex_pending : Sim :=
  upd (Uart 0 Ua_iir) UART_IIR_RDI (upd (Uart 0 Ua_ier) (Z.lor UART_IER_RDI UART_IER_THRI)
    (upd (Uart 0 Ua_ints) (Z.lor (Z.shiftl 1 UART_IIR_RDI) (Z.shiftl 1 UART_IIR_THRI)) ex_port)).
Lemma uart_clear_int_reports_witness : exists s',
  uart_clear_int 0 UART_IIR_RDI ex_pending = Ok tt s' /\ s' (Uart 0 Ua_iir) = UART_IIR_RDI.
Proof.
  destruct (uart_clear_int_reports 0 UART_IIR_RDI 4 0 ex_pending) as (s' & E & H).
  - unfold ex_pending, port. rewrite !upd_ne by discriminate.
    exact (r_port _ _ _ _ _ _ _ (ex_port_holding Rx 1 ltac:(lia))).
  - vm_compute. split; congruence.
  - reflexivity.
  - unfold reported. apply list_elem_of_In. vm_compute. tauto.
  - vm_compute. reflexivity.
  - exists s'. split; [exact E|]. rewrite H. vm_compute. reflexivity.
Defined.
End Serial.







