(* ===== verification/SerialVapi.v ===== *)
(** * The serial port's VAPI commands end (peripheral/16450.c)

    [uart_vapi_cmd] and [uart_recv_break_start] call each other; the buffer of
    messages bounds the rounds. *)

From S2P Require Import Serial.

Module SerialVapi.
Import Sched Debug Except Pic Mem Uart Serial.

(** A run that does not end for lack of fuel. *)
Class Fuelled {A} (m : M A) : Prop := fuelled : forall s, wpx m (fun w _ => w <> Out_of_fuel) (fun _ _ => True) s.
Lemma fuelled_bind {A B} (m : M A) (f : A -> M B) : Fuelled m -> (forall a, Fuelled (f a)) -> Fuelled (bind m f).
Proof.
  intros Hm Hf s. apply wpx_bind. eapply wpx_mono; [apply Hm | done |]. intros a s' _. apply Hf.
Qed.
Lemma fuelled_total {A} (m : M A) : Total m -> Fuelled m.
Proof. intros Ht s. destruct (Ht s) as (a & s' & E). unfold wpx. by rewrite E. Qed.
Lemma fuelled_when b m : Fuelled m -> Fuelled (when b m).
Proof. intros Hm s. apply wpx_when; intros; [apply Hm | done]. Qed.
Lemma fuelled_switch {A} x labels (m : M A) cases d :
  Fuelled m -> Fuelled (switch x cases d) -> Fuelled (switch x ((labels, m) :: cases) d).
Proof. intros H1 H2 s. apply wpx_switch; intros _; [apply H1 | apply H2]. Qed.
Lemma fuelled_shl_int x k : Fuelled (shl_int x k).
Proof. intros s. unfold shl_int, wpx. by destruct (_ && _). Qed.
Ltac fuelled :=
  repeat lazymatch goal with
  | |- forall _, _ => intros ?
  | |- Fuelled (let _ := _ in _) => cbv zeta
  | |- Fuelled (bind _ _) => apply fuelled_bind
  | |- Fuelled (when _ _) => apply fuelled_when
  | |- Fuelled (shl_int _ _) => apply fuelled_shl_int
  | |- Fuelled (switch _ (_ :: _) _) => apply fuelled_switch
  | |- Fuelled (switch _ [] ?d) => change (Fuelled d)
  | |- Fuelled (match ?x with _ => _ end) => destruct x
  | |- Fuelled (stop_with _) => intros ?; discriminate
  | |- Fuelled _ => first [typeclasses eauto | apply fuelled_total; total; fail]
  end.
#[export] Instance sched_add_fuelled f d t : Fuelled (sched_add f d t).
Proof. unfold sched_add. fuelled. Qed.
#[export] Instance sched_remove_fuelled f d : Fuelled (sched_find_remove f d).
Proof. unfold sched_find_remove. fuelled. Qed.
#[export] Instance vapi_char_fuelled n d : Fuelled (vapi_char n d).
Proof. unfold vapi_char. fuelled. Qed.
#[export] Instance vapi_waiting_fuelled n : Fuelled (vapi_waiting n).
Proof. unfold vapi_waiting. fuelled. Qed.
#[export] Instance break_stop_fuelled n : Fuelled (uart_recv_break_stop n).
Proof. unfold uart_recv_break_stop. fuelled. Qed.

Section Loop.
Context (n : Z).
(** The cells of the buffer's pointers; every other function keeps them. *)
Definition not_pointer (c : cell) : Prop :=
  match c with Uart _ (Ua_vapi_buf_head_ptr | Ua_vapi_buf_tail_ptr) => False | _ => True end.
Instance vapi_char_pointer d : Respects (frame not_pointer) (vapi_char n d).
Proof. unfold vapi_char. respects. Qed.
Instance vapi_waiting_pointer : Respects (frame not_pointer) (vapi_waiting n).
Proof. unfold vapi_waiting. respects. Qed.
Instance break_stop_pointer : Respects (frame not_pointer) (uart_recv_break_stop n).
Proof. unfold uart_recv_break_stop. respects. Qed.

(** Both pointers are inside the buffer, which holds at most [k] entries. *)
Definition buffered (k : Z) (s : Sim) : Prop :=
  0 <= s (Uart n Ua_vapi_buf_head_ptr) < UART_VAPI_BUF_LEN /\
  0 <= s (Uart n Ua_vapi_buf_tail_ptr) < UART_VAPI_BUF_LEN /\
  (s (Uart n Ua_vapi_buf_head_ptr) - s (Uart n Ua_vapi_buf_tail_ptr)) mod UART_VAPI_BUF_LEN <= k.
Abbreviation fp m := (wpx m (fun w _ => w <> Out_of_fuel)).

Lemma fp_keep {A} (m : M A) k (Q : A -> Sim -> Prop) s :
  Fuelled m -> Respects (frame not_pointer) m -> buffered k s ->
  (forall a s', buffered k s' -> Q a s') -> fp m Q s.
Proof.
  intros Hf Hr Hb HQ. apply (wpx_respects _ _ _ _ _ Hr). eapply wpx_mono; [apply Hf | auto |].
  intros a s' _ Hs. apply HQ. unfold buffered in *. by rewrite !Hs by (intros []).
Qed.
Lemma fp_bind_keep {A B} (m : M A) (f : A -> M B) k (Q : B -> Sim -> Prop) s :
  Fuelled m -> Respects (frame not_pointer) m -> buffered k s ->
  (forall a s', buffered k s' -> fp (f a) Q s') -> fp (bind m f) Q s.
Proof. intros. apply wpx_bind. eapply fp_keep; eauto. Qed.

Lemma recv_break_start_run (cmd : M unit) k s :
  (forall s, buffered k s -> fp cmd (fun _ => buffered k) s) -> buffered k s ->
  fp (recv_break_start cmd n) (fun _ => buffered k) s.
Proof.
  intros Hcmd Hb. unfold recv_break_start.
  do 4 (apply (fp_bind_keep _ _ k); [fuelled | respects | done |]; clear s Hb; intros ? s Hb).
  wp1. eapply wpx_mono with (E := fun w _ => w <> Out_of_fuel) (Q := fun _ => buffered k); [| done |].
  { wp1; [by apply Hcmd | done]. }
  intros [] s1 H1. eapply (fp_keep _ k); [fuelled | respects | exact H1 | done].
Qed.

Lemma vapi_cmd_run fuel k s :
  buffered k s -> k < Z.of_nat fuel -> fp (vapi_cmd fuel n) (fun _ => buffered k) s.
Proof.
  revert k s. induction fuel as [|fuel IH]; intros k s Hb Hk.
  { destruct Hb as (_ & _ & Hb). pose proof (Z.mod_pos_bound (s (Uart n Ua_vapi_buf_head_ptr) - s (Uart n Ua_vapi_buf_tail_ptr)) UART_VAPI_BUF_LEN eq_refl). lia. }
  cbn [vapi_cmd]. do 4 (wp1; cbv beta). wp1; [by wp1|]. apply Z.eqb_neq in H. do 4 (wp1; cbv beta zeta).
  match goal with |- wpx _ _ _ ?x => assert (H1 : buffered (k - 1) x) end.
  { unfold buffered, UART_VAPI_BUF_LEN in *. look. destruct Hb as (Hh & Ht & Hd). rewrite Z.rem_mod_nonneg by lia.
    rewrite s32_small by (pose proof (Z.mod_pos_bound (s (Uart n Ua_vapi_buf_tail_ptr) + 1) 128 eq_refl); lia).
    split_and!; [lia.. | | | ]; Z.to_euclidean_division_equations; lia. }
  revert H1. generalize (upd (Uart n Ua_vapi_buf_tail_ptr) (Z.rem (s (Uart n Ua_vapi_buf_tail_ptr) + 1) UART_VAPI_BUF_LEN) s).
  generalize (s (Uart n (Ua_vapi_buf (s (Uart n Ua_vapi_buf_tail_ptr))))). intros data s1 H1.
  assert (Hle : forall s, buffered (k - 1) s -> buffered k s) by (unfold buffered; intros ? (? & ? & ?); split_and!; lia).
  assert (Hrec : forall s, buffered (k - 1) s -> fp (vapi_cmd fuel n) (fun _ => buffered k) s).
  { intros s2 H2. eapply wpx_mono; [apply (IH (k - 1) s2 H2); lia | done | auto]. }
  assert (Hrec' : forall s, buffered (k - 1) s -> fp (vapi_cmd fuel n) (fun _ => buffered (k - 1)) s).
  { intros s2 H2. apply (IH (k - 1) s2 H2); lia. }
  assert (Hstart : fp (recv_break_start (vapi_cmd fuel n) n) (fun _ => buffered (k - 1)) s1).
  { by apply recv_break_start_run. }
  assert (Hkeep : forall m : M unit, Fuelled m -> Respects (frame not_pointer) m ->
    fp m (fun _ => buffered (k - 1)) s1).
  { intros m Hf Hr. by apply (fp_keep m (k - 1)). }
  assert (Hseq : forall m : M unit, fp m (fun _ => buffered (k - 1)) s1 ->
    fp (m;; vapi_cmd fuel n) (fun _ => buffered k) s1).
  { intros m Hm. apply wpx_bind. eapply wpx_mono; [exact Hm | done |]. intros [] s2. apply Hrec. }
  assert (Hset : forall c v, not_pointer c -> forall s, buffered (k - 1) s -> fp (wr c v) (fun _ => buffered (k - 1)) s).
  { intros c v Hc s2 H2. apply (fp_keep _ (k - 1)); [fuelled | by apply frame_wr | done | done]. }
  repeat (apply wpx_switch; intros _).
  - eapply wpx_mono; [apply Hkeep; apply _ | done | auto].
  - apply wpx_bind. eapply wpx_mono; [by apply Hset | done |]. intros [] s2 H2. cbv beta in H2.
    apply wpx_bind. eapply wpx_mono; [by apply Hset | done |]. intros [] s3. apply Hrec.
  - apply Hseq. by apply Hset.
  - apply Hseq. by apply Hset.
  - apply Hseq. repeat case_match; solve [exact Hstart | apply Hkeep; apply _ | apply Hkeep; [fuelled | respects]].
  - apply Hseq. apply Hkeep; [fuelled | respects].
Qed.
End Loop.

(** [uart_vapi_cmd] and [uart_recv_break_start], which call each other and
    run until the buffer of VAPI messages is empty, end: with both pointers
    inside the buffer, a round for each of its places is enough for any
    sequence of messages. *)
Theorem uart_vapi_cmd_ends n (s : Sim) :
  0 <= s (Uart n Ua_vapi_buf_head_ptr) < UART_VAPI_BUF_LEN ->
  0 <= s (Uart n Ua_vapi_buf_tail_ptr) < UART_VAPI_BUF_LEN ->
  (forall s', uart_vapi_cmd n s <> Stop Out_of_fuel s') /\
  (forall s', uart_recv_break_start n s <> Stop Out_of_fuel s').
Proof.
  intros Hh Ht.
  assert (Hcmd : forall s, buffered n 127 s -> wpx (uart_vapi_cmd n) (fun w _ => w <> Out_of_fuel) (fun _ => buffered n 127) s).
  { intros s1 H1. apply vapi_cmd_run; [done|]. vm_compute. reflexivity. }
  assert (Hb : buffered n 127 s).
  { split_and!; try lia. pose proof (Z.mod_pos_bound (s (Uart n Ua_vapi_buf_head_ptr) - s (Uart n Ua_vapi_buf_tail_ptr)) UART_VAPI_BUF_LEN eq_refl).
    unfold UART_VAPI_BUF_LEN in *. lia. }
  split; intros s' E.
  - specialize (Hcmd s Hb). unfold wpx in Hcmd. by rewrite E in Hcmd.
  - pose proof (recv_break_start_run n _ _ s Hcmd Hb) as H. unfold uart_recv_break_start, wpx in *. by rewrite E in H.
Qed.

(** A break, and a change of the divisor after it. *)
Definition ex_commands : Sim :=
  upd (Uart 0 (Ua_vapi_buf 0)) (Z.lor (Z.shiftl 0x04 24) (Z.shiftl 1 16))
    (upd (Uart 0 (Ua_vapi_buf 1)) (Z.lor (Z.shiftl 0x01 24) 12)
      (upd (Uart 0 Ua_vapi_id) 5 (upd (Uart 0 Ua_vapi_buf_head_ptr) 2 ex_port))).
Lemma uart_vapi_cmd_ends_witness :
  (forall s', uart_vapi_cmd 0 ex_commands <> Stop Out_of_fuel s') /\
  (exists s', uart_vapi_cmd 0 ex_commands = Ok tt s' /\ s' (Uart 0 Ua_vapi_dll) = 12).
Proof.
  split; [apply (uart_vapi_cmd_ends 0 ex_commands); vm_compute; split; congruence|].
  exists (state_of (uart_vapi_cmd 0 ex_commands)). split; vm_compute; reflexivity.
Defined.
End SerialVapi.
