(* ===== verification/Ram.v ===== *)
(** * Physical memory as one big-endian byte array

    The view of the memory areas that the caches and the load and store
    functions rely on: a physical address of a memory block holds a byte
    ([ram_byte]), [evalsim_mem*] read the big-endian value at an aligned address
    and [setsim_mem*] change exactly the bytes written. *)

From S2P Require Export Mem.

Module Ram.
Import Mem.

(** An area with the functions of memory.c on a block that covers it. *)
Record ram_area (s : Sim) (ar : dev_memarea) (b : Z) : Prop := {
  ra_r32 : readfunc32 (ops ar) = Fn_simmem b; ra_r16 : readfunc16 (ops ar) = Fn_simmem b;
  ra_r8 : readfunc8 (ops ar) = Fn_simmem b;
  ra_w32 : writefunc32 (ops ar) = Fn_simmem b; ra_w16 : writefunc16 (ops ar) = Fn_simmem b;
  ra_w8 : writefunc8 (ops ar) = Fn_simmem b;
  ra_word : 4 <= area_size ar;
  ra_block : exists n, block_size s b n /\ area_size ar <= n }.

(** All areas are valid and disjoint, and no two of them share a block. *)
Record ram_ok (s : Sim) : Prop := {
  ro_areas : areas_ok s;
  ro_valid : Forall (fun a => nz (valid a) = true) (dev_list s);
  ro_blocks : forall i j ar ar' b, dev_list s !! i = Some ar -> dev_list s !! j = Some ar' ->
    readfunc8 (ops ar) = Fn_simmem b -> readfunc8 (ops ar') = Fn_simmem b -> i = j }.

(** Address [a] is in area [i], a memory block. *)
Definition in_ram (s : Sim) (a : Z) (i : nat) (ar : dev_memarea) (b : Z) : Prop :=
  dev_list s !! i = Some ar /\ in_area a ar /\ ram_area s ar b.
Definition is_ram (s : Sim) (a : Z) : Prop := exists i ar b, in_ram s a i ar b.

Definition ram_byte (s : Sim) (a : Z) : Z :=
  match find_area a 0 (dev_list s) ≫= (fun i => dev_list s !! i) with
  | Some ar => match readfunc8 (ops ar) with
               | Fn_simmem b => be_byte s b (Z.land a (size_mask ar)) | _ => 0 end
  | None => 0
  end.

(** The big-endian value of the [n] bytes at [a]. *)
Fixpoint ram_val (s : Sim) (a : Z) (n : nat) : Z :=
  match n with
  | O => 0
  | S n' => ram_byte s a * 2 ^ (8 * Z.of_nat n') + ram_val s (a + 1) n'
  end.

(** [s'] is [s] with the [n] low bytes of [v] stored at [a]. *)
Definition stored_at (s : Sim) (a n v : Z) (s' : Sim) : Prop :=
  (forall a', is_ram s a' -> ram_byte s' a' =
     if (a <=? a') && (a' <? a + n) then u8 (Z.shiftr v (8 * (n - 1 - (a' - a)))) else ram_byte s a') /\
  (forall c, c <> G Mem_cycles -> c <> G Cur_vadd -> (forall b i, c <> Mem b i) -> s' c = s c) /\
  dev_list s' = dev_list s /\ mc_area s' = mc_area s /\ blocks s' = blocks s /\
  job_queue s' = job_queue s /\ free_jobs s' = free_jobs s /\
  reset_hooks s' = reset_hooks s /\ out s' = out s /\ dbg s' = dbg s.

(** ** Addresses and offsets *)

Lemma area_range ar a : area_wf ar -> in_area a ar -> 0 <= a < 2 ^ 32.
Proof. intros (k & Hk & _ & _ & Hs & _ & H0 & He) Ha. unfold in_area in Ha. lia. Qed.

Lemma area_offset ar a :
  area_wf ar -> in_area a ar -> Z.land a (size_mask ar) = a - addr_compare ar.
Proof.
  intros (k & Hk & _ & Hsm & Hs & Hc & H0 & He) Ha. unfold in_area in Ha. rewrite Hsm.
  replace (2 ^ k - 1) with (Z.ones k) by (rewrite Z.ones_equiv; lia). rewrite Z.land_ones by lia.
  symmetry. apply Z.mod_unique with (addr_compare ar / 2 ^ k); [lia|].
  pose proof (Z.div_mod (addr_compare ar) (2 ^ k) ltac:(lia)). lia.
Qed.

(** An aligned access stays in its area, at an aligned offset. *)
Lemma area_aligned ar a n :
  area_wf ar -> 4 <= area_size ar -> in_area a ar -> n = 1 \/ n = 2 \/ n = 4 -> a mod n = 0 ->
  a + n <= addr_compare ar + area_size ar /\ (a - addr_compare ar) mod n = 0.
Proof.
  intros (k & Hk & _ & _ & Hs & Hc & H0 & He) H4 Ha Hn Hm. unfold in_area in Ha.
  assert (2 <= k). { destruct (Z.lt_ge_cases k 2); [|lia]. assert (k = 0 \/ k = 1) as [->| ->] by lia; lia. }
  assert (E : 2 ^ k = 4 * 2 ^ (k - 2)).
  { replace k with (2 + (k - 2)) at 1 by lia. rewrite Z.pow_add_r by lia. reflexivity. }
  pose proof (Z.div_mod (addr_compare ar) (2 ^ k) ltac:(lia)) as Hd. rewrite Hc in Hd.
  set (q := addr_compare ar / 2 ^ k) in *.
  assert (Hq : addr_compare ar = n * (q * 2 ^ (k - 2) * (4 / n)) /\ area_size ar = n * (2 ^ (k - 2) * (4 / n))).
  { destruct Hn as [->|[->| ->]]; cbn [Z.div Z.div_eucl Z.pos_div_eucl]; vm_compute (4 / _); lia. }
  destruct Hq as [H1 H2]. pose proof (Z.div_mod a n ltac:(lia)). split.
  - assert (a < n * (q * 2 ^ (k - 2) * (4 / n) + 2 ^ (k - 2) * (4 / n))) by lia. nia.
  - rewrite H1. replace (a - _) with ((a / n - q * 2 ^ (k - 2) * (4 / n)) * n) by lia. apply Z.mod_mul. lia.
Qed.

(** The bytes of a value cut to a width. *)
Lemma u8_shiftr_mod w v k : 0 <= k -> 8 * k + 8 <= w -> u8 (Z.shiftr (v mod 2 ^ w) (8 * k)) = u8 (Z.shiftr v (8 * k)).
Proof.
  intros Hk Hw. unfold wrap. cbn [is_signed width]. apply Z.bits_inj'. intros i Hi.
  destruct (Z.lt_ge_cases i 8).
  - rewrite !Z.mod_pow2_bits_low, !Z.shiftr_spec, Z.mod_pow2_bits_low by lia. reflexivity.
  - rewrite !Z.mod_pow2_bits_high by lia. reflexivity.
Qed.

Section Ram.
Context (s : Sim) (Hok : ram_ok s).

Lemma in_ram_wf a i ar b : in_ram s a i ar b -> area_wf ar /\ 0 <= a < 2 ^ 32.
Proof.
  intros (Hi & Ha & _). destruct (ro_areas s Hok) as (Hwf & _).
  pose proof (Forall_lookup_1 _ _ _ _ Hwf Hi). split; [done|]. by apply (area_range ar).
Qed.

Lemma in_ram_find a i ar b : in_ram s a i ar b -> find_area a 0 (dev_list s) = Some i.
Proof.
  intros Hin. destruct (in_ram_wf _ _ _ _ Hin) as [Hwf Hr]. destruct Hin as (Hi & Ha & _).
  eapply find_area_unique; eauto using ro_areas, ro_valid. by apply area_hit_spec.
Qed.

Lemma in_ram_byte (s' : Sim) a i ar b :
  dev_list s' = dev_list s -> in_ram s a i ar b -> ram_byte s' a = be_byte s' b (a - addr_compare ar).
Proof.
  intros Hd Hin. destruct (in_ram_wf _ _ _ _ Hin) as [Hwf Hr]. unfold ram_byte. rewrite Hd.
  rewrite (in_ram_find _ _ _ _ Hin). destruct Hin as (Hi & Ha & Hra). cbn. rewrite Hi.
  rewrite (ra_r8 _ _ _ Hra). by rewrite area_offset.
Qed.

(** The other bytes of an aligned access. *)
Lemma in_ram_next a i ar b n k :
  in_ram s a i ar b -> n = 1 \/ n = 2 \/ n = 4 -> a mod n = 0 -> 0 <= k < n -> in_ram s (a + k) i ar b.
Proof.
  intros Hin Hn Hm Hk. destruct (in_ram_wf _ _ _ _ Hin) as [Hwf Hr]. destruct Hin as (Hi & Ha & Hra).
  destruct (area_aligned ar a n Hwf (ra_word _ _ _ Hra) Ha Hn Hm) as [Hle _].
  split_and!; try done. unfold in_area in *. lia.
Qed.

Lemma in_ram_val a i ar b (n : nat) :
  (forall k, 0 <= k < Z.of_nat n -> in_ram s (a + k) i ar b) ->
  ram_val s a n = be_val s b (a - addr_compare ar) n.
Proof.
  revert a. induction n as [|n IH]; intros a H; [reflexivity|]. cbn [ram_val be_val].
  rewrite <- (in_ram_byte s a i ar b) by (done || rewrite <- (Z.add_0_r a); apply H; lia).
  rewrite IH; [f_equal; f_equal; lia|]. intros k Hk. replace (a + 1 + k) with (a + (k + 1)) by lia. apply H. lia.
Qed.

(** A different block is a different address. *)
Lemma in_ram_block a i ar b a' i' ar' b' n :
  in_ram s a i ar b -> in_ram s a' i' ar' b' -> n = 1 \/ n = 2 \/ n = 4 -> a mod n = 0 ->
  (b' =? b) && (a - addr_compare ar <=? a' - addr_compare ar') &&
    (a' - addr_compare ar' <? a - addr_compare ar + n) = (a <=? a') && (a' <? a + n).
Proof.
  intros Hin Hin' Hn Hm. destruct (Z.eqb_spec b' b) as [->|Hb].
  - assert (i' = i) as ->.
    { destruct Hin as (Hi & _ & Hr), Hin' as (Hi' & _ & Hr').
      eapply (ro_blocks s Hok); eauto using ra_r8. }
    destruct Hin as (Hi & _ & _), Hin' as (Hi' & _ & _). rewrite Hi in Hi'. injection Hi' as <-.
    cbn [andb]. destruct (Z.leb_spec (a - addr_compare ar) (a' - addr_compare ar)), (Z.leb_spec a a'),
      (Z.ltb_spec (a' - addr_compare ar) (a - addr_compare ar + n)), (Z.ltb_spec a' (a + n)); lia || done.
  - cbn [andb]. destruct (Z.leb_spec a a'), (Z.ltb_spec a' (a + n)); try done. exfalso. apply Hb.
    pose proof (in_ram_next a i ar b n (a' - a) Hin Hn Hm ltac:(lia)) as Hx.
    replace (a + (a' - a)) with a' in Hx by lia. pose proof (in_ram_find _ _ _ _ Hx) as F.
    rewrite (in_ram_find _ _ _ _ Hin') in F. injection F as ->.
    destruct Hx as (Hi & _ & Hr), Hin' as (Hi' & _ & Hr'). rewrite Hi in Hi'. injection Hi' as <-.
    pose proof (ra_r8 _ _ _ Hr). pose proof (ra_r8 _ _ _ Hr'). congruence.
Qed.

Context `{Devices}.

Lemma verify_ram a i ar b :
  in_ram s a i ar b -> verify_memoryarea a s = Ok (Some i) (set_cur_area (Some i) s).
Proof.
  intros Hin. rewrite verify_run; [|apply ro_areas, Hok | apply ro_valid, Hok | by eapply in_ram_wf].
  by rewrite (in_ram_find _ _ _ _ Hin).
Qed.

(** The block and offset of an aligned access. *)
Lemma in_ram_off a i ar b n :
  in_ram s a i ar b -> n = 1 \/ n = 2 \/ n = 4 -> a mod n = 0 ->
  Z.land a (size_mask ar) = a - addr_compare ar /\ (a - addr_compare ar) mod n = 0 /\
  exists m, block_size s b m /\ 0 <= a - addr_compare ar /\ a - addr_compare ar + n <= m.
Proof.
  intros Hin Hn Hm. destruct (in_ram_wf _ _ _ _ Hin) as [Hwf Hr]. destruct Hin as (Hi & Ha & Hra).
  destruct (area_aligned ar a n Hwf (ra_word _ _ _ Hra) Ha Hn Hm) as [Hle Hmod].
  split; [by apply area_offset|]. split; [exact Hmod|]. destruct (ra_block _ _ _ Hra) as (m & Hb & Hs).
  exists m. unfold in_area in Ha. split; [exact Hb | lia].
Qed.

Definition accessed (i : nat) (d : Z) : Sim := upd Mem_cycles (s Mem_cycles + d) (set_cur_area (Some i) s).

Lemma evalsim_mem32_ram a v i ar b :
  in_ram s a i ar b -> a mod 4 = 0 ->
  evalsim_mem32 a v s = Ok (ram_val s a 4) (accessed i (delayr (ops ar))).
Proof.
  intros Hin Hm. destruct (in_ram_off a i ar b 4 Hin ltac:(auto) Hm) as (E & Eo & m & Hb & H0 & H1).
  unfold evalsim_mem32, bind at 1. rewrite (verify_ram a i ar b Hin). unfold area_at, bind, gets, ret, adds, rd, wr.
  cbn [dev_list set_cur_area]. rewrite (proj1 Hin). unfold bind. rewrite (ra_r32 _ _ _ (proj2 (proj2 Hin))), E.
  cbn [call_read32]. rewrite (in_ram_val a i ar b) by (intros; by apply (in_ram_next a i ar b 4); auto).
  by rewrite (simmem_read32_be (accessed i (delayr (ops ar))) b m Hb) by lia.
Qed.
Lemma evalsim_mem16_ram a v i ar b :
  in_ram s a i ar b -> a mod 2 = 0 ->
  evalsim_mem16 a v s = Ok (ram_val s a 2) (accessed i (delayr (ops ar))).
Proof.
  intros Hin Hm. destruct (in_ram_off a i ar b 2 Hin ltac:(auto) Hm) as (E & Eo & m & Hb & H0 & H1).
  unfold evalsim_mem16, bind at 1. rewrite (verify_ram a i ar b Hin). unfold area_at, bind, gets, ret, adds, rd, wr.
  cbn [dev_list set_cur_area]. rewrite (proj1 Hin). unfold bind. rewrite (ra_r16 _ _ _ (proj2 (proj2 Hin))), E.
  cbn [call_read16]. rewrite (in_ram_val a i ar b) by (intros; by apply (in_ram_next a i ar b 2); auto).
  by rewrite (simmem_read16_be (accessed i (delayr (ops ar))) b m Hb) by lia.
Qed.
Lemma evalsim_mem8_ram a v i ar b :
  in_ram s a i ar b ->
  evalsim_mem8 a v s = Ok (ram_val s a 1) (accessed i (delayr (ops ar))).
Proof.
  intros Hin. destruct (in_ram_off a i ar b 1 Hin ltac:(auto) (Z.mod_1_r a)) as (E & Eo & m & Hb & H0 & H1).
  unfold evalsim_mem8, bind at 1. rewrite (verify_ram a i ar b Hin). unfold area_at, bind, gets, ret, adds, rd, wr.
  cbn [dev_list set_cur_area]. rewrite (proj1 Hin). unfold bind. rewrite (ra_r8 _ _ _ (proj2 (proj2 Hin))), E.
  cbn [call_read8]. rewrite (in_ram_val a i ar b) by (intros k Hk; replace k with 0 by lia; by rewrite Z.add_0_r).
  by rewrite (simmem_read8_be (accessed i (delayr (ops ar))) b m Hb) by lia.
Qed.

(** What the block functions write is what the address range stores. *)
Lemma be_write_stored a i ar b n v w (s0 s' : Sim) :
  in_ram s a i ar b -> n = 1 \/ n = 2 \/ n = 4 -> a mod n = 0 ->
  (forall k, 0 <= k < n -> u8 (Z.shiftr w (8 * k)) = u8 (Z.shiftr v (8 * k))) ->
  (forall c, c <> G Mem_cycles -> c <> G Cur_vadd -> s0 c = s c) -> same_lists (set_cur_area (Some i) s) s0 ->
  be_write s0 b (a - addr_compare ar) n w s' ->
  stored_at s a n v s' /\ cur_area s' = Some i.
Proof.
  intros Hin Hn Hm Hw Hs0 Hl0 (Hb & Hc & Hl).
  assert (Hl' : same_lists (set_cur_area (Some i) s) s') by (by etransitivity). clear Hl0 Hl.
  destruct Hl' as (L1 & L2 & L3 & L4 & L5 & L6 & L7 & L8 & L9).
  split; [|exact L5]. unfold stored_at. split_and!; try done.
  - intros a' (i' & ar' & b' & Hin'). rewrite (in_ram_byte s' a' i' ar' b'), Hb by done.
    rewrite (in_ram_block a i ar b a' i' ar' b' n) by done.
    destruct (_ && _) eqn:E.
    + apply andb_true_iff in E as [?%Z.leb_le ?%Z.ltb_lt].
      assert (Ho : a' - addr_compare ar' - (a - addr_compare ar) = a' - a).
      { pose proof (in_ram_next a i ar b n (a' - a) Hin Hn Hm ltac:(lia)) as Hx.
        replace (a + (a' - a)) with a' in Hx by lia. pose proof (in_ram_find _ _ _ _ Hx) as F.
        rewrite (in_ram_find _ _ _ _ Hin') in F. injection F as ->.
        destruct Hx as (Hi & _), Hin' as (Hi' & _). rewrite Hi in Hi'. injection Hi' as <-. lia. }
      rewrite Ho. apply Hw. lia.
    + rewrite (in_ram_byte s a' i' ar' b') by done. unfold be_byte. by apply Hs0.
  - intros c H1 H2 H3. rewrite Hc by auto. by apply Hs0.
Qed.

Lemma setsim_mem32_ram a d v i ar b :
  in_ram s a i ar b -> a mod 4 = 0 ->
  exists s', setsim_mem32 a d v s = Ok tt s' /\ stored_at s a 4 v s' /\ cur_area s' = Some i.
Proof.
  intros Hin Hm. destruct (in_ram_off a i ar b 4 Hin ltac:(auto) Hm) as (E & Eo & m & Hb & H0 & H1).
  set (s0 := upd Mem_cycles (s Mem_cycles + delayw (ops ar)) (upd Cur_vadd d (set_cur_area (Some i) s))).
  destruct (simmem_write32_be s0 b m Hb (a - addr_compare ar) (u32 v)) as (s' & Ew & Hw); [lia..|].
  exists s'. split.
  - unfold setsim_mem32, bind at 1. rewrite (verify_ram a i ar b Hin). unfold area_at, bind, gets, ret, adds, rd, wr.
    cbn [dev_list set_cur_area]. rewrite (proj1 Hin). unfold bind. rewrite (ra_w32 _ _ _ (proj2 (proj2 Hin))), E.
    exact Ew.
  - eapply (be_write_stored a i ar b 4 v (u32 v) s0); [exact Hin | auto | exact Hm | | | done | exact Hw].
    + intros k Hk. apply (u8_shiftr_mod 32); lia.
    + intros c H1' H2'. subst s0. rewrite !upd_ne by congruence. done.
Qed.
Lemma setsim_mem16_ram a d v i ar b :
  in_ram s a i ar b -> a mod 2 = 0 ->
  exists s', setsim_mem16 a d v s = Ok tt s' /\ stored_at s a 2 v s' /\ cur_area s' = Some i.
Proof.
  intros Hin Hm. destruct (in_ram_off a i ar b 2 Hin ltac:(auto) Hm) as (E & Eo & m & Hb & H0 & H1).
  set (s0 := upd Mem_cycles (s Mem_cycles + delayw (ops ar)) (upd Cur_vadd d (set_cur_area (Some i) s))).
  destruct (simmem_write16_be s0 b m Hb (a - addr_compare ar) (u16 v)) as (s' & Ew & Hw); [lia..|].
  exists s'. split.
  - unfold setsim_mem16, bind at 1. rewrite (verify_ram a i ar b Hin). unfold area_at, bind, gets, ret, adds, rd, wr.
    cbn [dev_list set_cur_area]. rewrite (proj1 Hin). unfold bind. rewrite (ra_w16 _ _ _ (proj2 (proj2 Hin))), E.
    exact Ew.
  - eapply (be_write_stored a i ar b 2 v (u16 v) s0); [exact Hin | auto | exact Hm | | | done | exact Hw].
    + intros k Hk. apply (u8_shiftr_mod 16); lia.
    + intros c H1' H2'. subst s0. rewrite !upd_ne by congruence. done.
Qed.
Lemma setsim_mem8_ram a d v i ar b :
  in_ram s a i ar b ->
  exists s', setsim_mem8 a d v s = Ok tt s' /\ stored_at s a 1 v s' /\ cur_area s' = Some i.
Proof.
  intros Hin. destruct (in_ram_off a i ar b 1 Hin ltac:(auto) (Z.mod_1_r a)) as (E & Eo & m & Hb & H0 & H1).
  set (s0 := upd Mem_cycles (s Mem_cycles + delayw (ops ar)) (upd Cur_vadd d (set_cur_area (Some i) s))).
  destruct (simmem_write8_be s0 b m Hb (a - addr_compare ar) (u8 v)) as (s' & Ew & Hw); [lia..|].
  exists s'. split.
  - unfold setsim_mem8, bind at 1. rewrite (verify_ram a i ar b Hin). unfold area_at, bind, gets, ret, adds, rd, wr.
    cbn [dev_list set_cur_area]. rewrite (proj1 Hin). unfold bind. rewrite (ra_w8 _ _ _ (proj2 (proj2 Hin))), E.
    exact Ew.
  - eapply (be_write_stored a i ar b 1 v (u8 v) s0); [exact Hin | auto | apply Z.mod_1_r | | | done | exact Hw].
    + intros k Hk. apply (u8_shiftr_mod 8); lia.
    + intros c H1' H2'. subst s0. rewrite !upd_ne by congruence. done.
Qed.
End Ram.

(** The memory stays in order. *)
Lemma lists_ram_ok s s' :
  ram_ok s -> dev_list s' = dev_list s -> mc_area s' = mc_area s ->
  (forall i, cur_area s' = Some i -> (i < length (dev_list s))%nat) -> ram_ok s'.
Proof.
  intros [(H1 & H2 & H3 & H4) Hv Hb] Hd Hm Hc. split; [|by rewrite Hd|by rewrite Hd].
  unfold areas_ok. rewrite Hd, Hm. by split_and!.
Qed.
Lemma lists_in_ram s s' a i ar b :
  dev_list s' = dev_list s -> blocks s' = blocks s -> in_ram s a i ar b -> in_ram s' a i ar b.
Proof.
  intros Hd Hb (Hi & Ha & []). split_and!; [by rewrite Hd | done |]. split; try done.
  destruct ra_block0 as (n & [E ?] & ?). exists n. split; [split; [by rewrite Hb | done] | done].
Qed.

Lemma lists_is_ram (s s' : Sim) x : dev_list s' = dev_list s -> blocks s' = blocks s -> is_ram s x -> is_ram s' x.
Proof. intros Hd Hb (i & ar & b & Hin). exists i, ar, b. by apply (lists_in_ram s). Qed.

(** The memory areas and the memory contents are the same, and the cached area
    is one of the list. *)
Record mem_rest (s s' : Sim) : Prop := {
  mr_dev : dev_list s' = dev_list s; mr_mc : mc_area s' = mc_area s; mr_blocks : blocks s' = blocks s;
  mr_cells : forall b i, s' (Mem b i) = s (Mem b i);
  mr_cur : forall i, cur_area s' = Some i -> (i < length (dev_list s))%nat }.

Lemma mem_rest_refl s : ram_ok s -> mem_rest s s.
Proof. intros [(_ & _ & _ & H) _ _]. by split. Qed.
Lemma mem_rest_trans s1 s2 s3 : mem_rest s1 s2 -> mem_rest s2 s3 -> mem_rest s1 s3.
Proof. intros [] []. split; try congruence. intros i Hi. rewrite <- mr_dev0. auto. Qed.
Lemma mem_rest_ok s s' : ram_ok s -> mem_rest s s' -> ram_ok s'.
Proof. intros Hok []. by apply (lists_ram_ok s). Qed.
Lemma mem_rest_in s s' a i ar b : mem_rest s s' -> in_ram s a i ar b -> in_ram s' a i ar b.
Proof. intros []. by apply lists_in_ram. Qed.
Lemma mem_rest_is_ram s s' a : mem_rest s s' -> is_ram s' a <-> is_ram s a.
Proof.
  intros []. split; intros (i & ar & b & Hin); exists i, ar, b.
  - by apply (lists_in_ram s').
  - by apply (lists_in_ram s).
Qed.
Lemma mem_rest_byte s s' a : mem_rest s s' -> ram_byte s' a = ram_byte s a.
Proof.
  intros []. unfold ram_byte. rewrite mr_dev0. destruct (_ ≫= _) as [ar|]; [|done].
  destruct (readfunc8 _); try done. apply mr_cells0.
Qed.
Lemma mem_rest_val s s' a n : mem_rest s s' -> ram_val s' a n = ram_val s a n.
Proof. intros H. revert a. induction n as [|n IH]; intros a; cbn [ram_val]; [done|]. by rewrite IH, (mem_rest_byte s s'). Qed.

(** Assignments to other cells. *)
Lemma mem_rest_upd s s' c v : (forall b i, c <> Mem b i) -> mem_rest s s' -> mem_rest s (upd c v s').
Proof. intros Hc []. split; try done. intros b i. by rewrite upd_ne. Qed.

Lemma ram_byte_range s a : typed s -> 0 <= ram_byte s a < 2 ^ 8.
Proof.
  intros Hty. unfold ram_byte. destruct (_ ≫= _) as [ar|]; [|lia]. destruct (readfunc8 _); try lia.
  unfold be_byte. by apply typed_u8.
Qed.
Lemma ram_word_range (s : Sim) a : typed s -> 0 <= ram_val s a 4 < 2 ^ 32.
Proof.
  intros Hty. cbn [ram_val]. change (2 ^ (8 * Z.of_nat 3)) with 16777216. change (2 ^ (8 * Z.of_nat 2)) with 65536.
  change (2 ^ (8 * Z.of_nat 1)) with 256. change (2 ^ (8 * Z.of_nat 0)) with 1. pose proof (ram_byte_range s a Hty). pose proof (ram_byte_range s (a + 1) Hty).
  pose proof (ram_byte_range s (a + 1 + 1) Hty). pose proof (ram_byte_range s (a + 1 + 1 + 1) Hty). lia.
Qed.

(** A store to RAM keeps the memory in order. *)
Lemma stored_ok s a n v s' i :
  ram_ok s -> stored_at s a n v s' -> cur_area s' = Some i -> (i < length (dev_list s))%nat -> ram_ok s'.
Proof.
  intros Hok (_ & _ & Hd & Hm & _) Hc Hi. apply (lists_ram_ok s); try done. intros j Hj. congruence.
Qed.
Lemma stored_is_ram s a n v s' x : stored_at s a n v s' -> is_ram s' x <-> is_ram s x.
Proof.
  intros (_ & _ & Hd & _ & Hb & _). split; intros (i & ar & b & Hin); exists i, ar, b.
  - by apply (lists_in_ram s').
  - by apply (lists_in_ram s).
Qed.

End Ram.
