(* ===== verification/Mmu.v ===== *)
(** * The data and instruction MMUs (mmu/dmmu.c, mmu/immu.c)

    The TLBs live in the special purpose registers: way [w] of set [n] is the
    match register [base + n + 256 * w] with its translate register 128 further
    on.  The two files are copies of each other with different permissions. *)

From S2P Require Export Tick.

Module Mmu.
Import Except Tick.

(** ** support/misc.c *)

(** [while (x != 1) x >>= 1, c++;] *)
Fixpoint log2_loop (fuel : nat) (x c : Z) : Z :=
  match fuel with
  | O => c
  | S fuel => if x =? 1 then c else log2_loop fuel (Z.shiftr x 1) (c + 1)
  end.
Definition log2_int (x : Z) : Z := let x := u64 x in if x =? 0 then 0 else log2_loop 64 x 0.

(** [while (!(x & 1)) x >>= 1;] on an [int]. *)
Fixpoint drop_zeros (fuel : nat) (x : Z) : Z :=
  match fuel with
  | O => x
  | S fuel => if nz (Z.land x 1) then x else drop_zeros fuel (Z.shiftr x 1)
  end.
Definition is_power2 (x : Z) : bool := if x =? 0 then false else drop_zeros 32 x =? 1.

(** Multiplication of [int]s: overflow is undefined. *)
Definition mul_int (x y : Z) : M Z :=
  if (- 2 ^ 31 <=? x * y) && (x * y <? 2 ^ 31) then ret (x * y) else stop_with Undefined.

(** ** The lookup both files share *)

(** The loop over the ways of a set, from the match register [mr] on. *)
Fixpoint find_way (mmu : mmuvar -> cell) (vpn : Z) (n : nat) (mr : Z) : M (option Z) :=
  match n with
  | O => ret None
  | S n =>
      e ← rd (SPR mr);
      vpn_mask ← rd (mmu M_vpn_mask);
      if (Z.land e vpn_mask =? vpn) && nz (Z.land e SPR_DTLBMR_V) then ret (Some mr)
      else find_way mmu vpn n (mr + 128 * 2)
  end.

(** The loop that decrements the LRU field of every way of a set. *)
Definition age_lru (nways lru : Z) : M unit :=
  for_ (Z.to_nat nways) lru (128 * 2) (fun p =>
    x ← rd (SPR p);
    when (nz (Z.land x SPR_DTLBMR_LRU))
      (wr (SPR p) (Z.lor (Z.land x (Z.lnot SPR_DTLBMR_LRU)) (Z.land x SPR_DTLBMR_LRU - 0x40)))).

(** ** The data MMU *)

(** Returns the matching register, if any, and the first way's register. *)
Definition dmmu_find_tlbmr (virtaddr : Z) : M (option Z * Z) :=
  page_mask ← rd (Dmmu M_page_mask);
  pagesize_log2 ← rd (Dmmu M_pagesize_log2);
  set_mask ← rd (Dmmu M_set_mask);
  let set := s32 (Z.land (u32 (s32 (Z.shiftr (Z.land virtaddr page_mask) pagesize_log2))) set_mask) in
  vpn_mask ← rd (Dmmu M_vpn_mask);
  let vpn := Z.land virtaddr vpn_mask in
  let dtlbmr := SPR_DTLBMR_BASE 0 + set in
  nways ← rd (Dmmu M_nways);
  r ← find_way Dmmu vpn (Z.to_nat nways) dtlbmr;
  ret (r, dtlbmr).

(** The page fault test on a translate register. *)
Definition dtlb_page_fault (dtlbtr : Z) (write_access : bool) : M bool :=
  tr ← rd (SPR dtlbtr);
  sm ← flag (SPR SPR_SR) SPR_SR_SM;
  ret (if sm : bool
       then (write_access && negb (nz (Z.land tr SPR_DTLBTR_SWE))) ||
            (negb write_access && negb (nz (Z.land tr SPR_DTLBTR_SRE)))
       else (write_access && negb (nz (Z.land tr SPR_DTLBTR_UWE))) ||
            (negb write_access && negb (nz (Z.land tr SPR_DTLBTR_URE)))).

Definition dmmu_translate (virtaddr : Z) (write_access : bool) : M Z :=
  dme ← flag (SPR SPR_SR) SPR_SR_DME;
  dmp ← flag (SPR SPR_UPR) SPR_UPR_DMP;
  if negb dme || negb dmp then
    wr Data_ci (b2z (0x80000000 <=? virtaddr));; ret virtaddr
  else
    found ← dmmu_find_tlbmr virtaddr;
    let (hit, dtlbmr_lru) := found : option Z * Z in
    match hit with
    | Some dtlbmr =>
        adds (Stat St_dmmu_tlbhit) 1;;
        let dtlbtr := dtlbmr + 128 in
        nways ← rd (Dmmu M_nways);
        age_lru nways dtlbmr_lru;;
        lru_reload ← rd (Dmmu M_lru_reload);
        ors (SPR dtlbmr) lru_reload;;
        tr ← rd (SPR dtlbtr);
        wr Data_ci (Z.land tr SPR_DTLBTR_CI);;
        hitdelay ← rd (Dmmu M_hitdelay);
        adds Mem_cycles hitdelay;;
        fault ← dtlb_page_fault dtlbtr write_access;
        when fault (except_handle EXCEPT_DPF virtaddr);;
        tr ← rd (SPR dtlbtr);
        page_offset_mask ← rd (Dmmu M_page_offset_mask);
        ret (Z.lor (Z.land tr SPR_DTLBTR_PPN) (Z.land virtaddr page_offset_mask))
    | None =>
        adds (Stat St_dmmu_tlbmiss) 1;;
        missdelay ← rd (Dmmu M_missdelay);
        adds Mem_cycles missdelay;;
        except_handle EXCEPT_DTLBMISS virtaddr;;
        pcu ← isset Pcu_enabled;
        when pcu (pcu_count_event SPR_PCMR_DTLBM);;
        ret 0
    end.

Definition peek_into_dtlb (virtaddr : Z) (write_access through_dc : bool) : M Z :=
  dme ← flag (SPR SPR_SR) SPR_SR_DME;
  dmp ← flag (SPR SPR_UPR) SPR_UPR_DMP;
  if negb dme || negb dmp then
    when through_dc (wr Data_ci (b2z (0x80000000 <=? virtaddr)));; ret virtaddr
  else
    found ← dmmu_find_tlbmr virtaddr;
    match fst found : option Z with
    | Some dtlbmr =>
        adds (Stat St_dmmu_tlbhit) 1;;
        let dtlbtr := dtlbmr + 128 in
        fault ← dtlb_page_fault dtlbtr write_access;
        if fault : bool then ret 0
        else
          tr ← rd (SPR dtlbtr);
          when through_dc (wr Data_ci (Z.land tr SPR_DTLBTR_CI));;
          page_offset_mask ← rd (Dmmu M_page_offset_mask);
          ret (Z.lor (Z.land tr SPR_DTLBTR_PPN) (Z.land virtaddr page_offset_mask))
    | None => ret 0
    end.

(** ** The instruction MMU *)

Definition immu_find_tlbmr (virtaddr : Z) : M (option Z * Z) :=
  page_mask ← rd (Immu M_page_mask);
  pagesize_log2 ← rd (Immu M_pagesize_log2);
  set_mask ← rd (Immu M_set_mask);
  let set := s32 (Z.land (u32 (s32 (Z.shiftr (Z.land virtaddr page_mask) pagesize_log2))) set_mask) in
  vpn_mask ← rd (Immu M_vpn_mask);
  let vpn := Z.land virtaddr vpn_mask in
  let itlbmr := SPR_ITLBMR_BASE 0 + set in
  nways ← rd (Immu M_nways);
  r ← find_way Immu vpn (Z.to_nat nways) itlbmr;
  ret (r, itlbmr).

Definition itlb_page_fault (itlbtr : Z) : M bool :=
  tr ← rd (SPR itlbtr);
  sm ← flag (SPR SPR_SR) SPR_SR_SM;
  ret (if sm : bool then negb (nz (Z.land tr SPR_ITLBTR_SXE)) else negb (nz (Z.land tr SPR_ITLBTR_UXE))).

Definition immu_translate (virtaddr : Z) : M Z :=
  ime ← flag (SPR SPR_SR) SPR_SR_IME;
  imp ← flag (SPR SPR_UPR) SPR_UPR_IMP;
  if negb ime || negb imp then
    wr Insn_ci (b2z (0x80000000 <=? virtaddr));; ret virtaddr
  else
    found ← immu_find_tlbmr virtaddr;
    let (hit, itlbmr_lru) := found : option Z * Z in
    match hit with
    | Some itlbmr =>
        adds (Stat St_immu_tlbhit) 1;;
        let itlbtr := itlbmr + 128 in
        nways ← rd (Immu M_nways);
        age_lru nways itlbmr_lru;;
        lru_reload ← rd (Immu M_lru_reload);
        ors (SPR itlbmr) lru_reload;;
        tr ← rd (SPR itlbtr);
        wr Insn_ci (Z.land tr SPR_ITLBTR_CI);;
        hitdelay ← rd (Immu M_hitdelay);
        adds Mem_cycles hitdelay;;
        fault ← itlb_page_fault itlbtr;
        when fault (except_handle EXCEPT_IPF virtaddr);;
        tr ← rd (SPR itlbtr);
        page_offset_mask ← rd (Immu M_page_offset_mask);
        ret (Z.lor (Z.land tr SPR_ITLBTR_PPN) (Z.land virtaddr page_offset_mask))
    | None =>
        adds (Stat St_immu_tlbmiss) 1;;
        missdelay ← rd (Immu M_missdelay);
        adds Mem_cycles missdelay;;
        except_handle EXCEPT_ITLBMISS virtaddr;;
        pcu ← isset Pcu_enabled;
        when pcu (pcu_count_event SPR_PCMR_ITLBM);;
        ret 0
    end.

Definition peek_into_itlb (virtaddr : Z) : M Z :=
  ime ← flag (SPR SPR_SR) SPR_SR_IME;
  imp ← flag (SPR SPR_UPR) SPR_UPR_IMP;
  if negb ime || negb imp then ret virtaddr
  else
    found ← immu_find_tlbmr virtaddr;
    match fst found : option Z with
    | Some itlbmr =>
        let itlbtr := itlbmr + 128 in
        fault ← itlb_page_fault itlbtr;
        if fault : bool then ret 0
        else
          tr ← rd (SPR itlbtr);
          page_offset_mask ← rd (Immu M_page_offset_mask);
          ret (Z.lor (Z.land tr SPR_ITLBTR_PPN) (Z.land virtaddr page_offset_mask))
    | None => ret 0
    end.

(** ** Configuration of the data MMU *)

Definition dmmu_enabled (val : Z) : M unit :=
  (if nz val then ors (SPR SPR_UPR) SPR_UPR_DMP else clr (SPR SPR_UPR) SPR_UPR_DMP);;
  wr (Dmmu M_enabled) val.

(** A bad value is ignored with a warning. *)
Definition dmmu_nsets (val : Z) : M unit :=
  when (is_power2 val && (val <=? 128))
    (let set_bits := log2_int val in
     wr (Dmmu M_nsets) val;;
     clr (SPR SPR_DMMUCFGR) SPR_DMMUCFGR_NTS;;
     ors (SPR SPR_DMMUCFGR) (Z.shiftl set_bits SPR_DMMUCFGR_NTS_OFF)).
Definition dmmu_nways (val : Z) : M unit :=
  when ((1 <=? val) && (val <=? 4))
    (let way_bits := val - 1 in
     wr (Dmmu M_nways) val;;
     clr (SPR SPR_DMMUCFGR) SPR_DMMUCFGR_NTW;;
     ors (SPR SPR_DMMUCFGR) (Z.shiftl way_bits SPR_DMMUCFGR_NTW_OFF)).
Definition dmmu_pagesize (val : Z) : M unit := when (is_power2 val) (wr (Dmmu M_pagesize) val).
Definition dmmu_entrysize (val : Z) : M unit := when (is_power2 val) (wr (Dmmu M_entrysize) val).
Definition dmmu_ustates (val : Z) : M unit :=
  when ((2 <=? val) && (val <=? 4)) (wr (Dmmu M_ustates) val).
Definition dmmu_missdelay (val : Z) : M unit := wr (Dmmu M_missdelay) val.
Definition dmmu_hitdelay (val : Z) : M unit := wr (Dmmu M_hitdelay) val.

Definition dmmu_start_sec : M unit :=
  wr (Dmmu M_enabled) 0;; wr (Dmmu M_nsets) 1;; wr (Dmmu M_nways) 1;; wr (Dmmu M_pagesize) 8192;;
  wr (Dmmu M_entrysize) 1;; wr (Dmmu M_ustates) 2;; wr (Dmmu M_hitdelay) 1;; wr (Dmmu M_missdelay) 1;;
  enabled ← isset (Dmmu M_enabled);
  (if enabled : bool then ors (SPR SPR_UPR) SPR_UPR_DMP else clr (SPR SPR_UPR) SPR_UPR_DMP);;
  nsets ← rd (Dmmu M_nsets);
  let set_bits := log2_int nsets in
  clr (SPR SPR_DMMUCFGR) SPR_DMMUCFGR_NTS;;
  ors (SPR SPR_DMMUCFGR) (Z.shiftl set_bits SPR_DMMUCFGR_NTS_OFF);;
  nways ← rd (Dmmu M_nways);
  let way_bits := nways - 1 in
  clr (SPR SPR_DMMUCFGR) SPR_DMMUCFGR_NTW;;
  ors (SPR SPR_DMMUCFGR) (Z.shiftl way_bits SPR_DMMUCFGR_NTW_OFF).

Definition dmmu_end_sec : M unit :=
  pagesize ← rd (Dmmu M_pagesize);
  wr (Dmmu M_pagesize_log2) (log2_int pagesize);;
  wr (Dmmu M_page_offset_mask) (pagesize - 1);;
  page_offset_mask ← rd (Dmmu M_page_offset_mask);
  wr (Dmmu M_page_mask) (Z.lnot page_offset_mask);;
  nsets ← rd (Dmmu M_nsets);
  span ← mul_int pagesize nsets;
  wr (Dmmu M_vpn_mask) (Z.lnot (span - 1));;
  wr (Dmmu M_set_mask) (nsets - 1);;
  set_mask ← rd (Dmmu M_set_mask);
  wr (Dmmu M_lru_reload) (Z.land (u32 (Z.shiftl set_mask 6)) SPR_DTLBMR_LRU).

(** ** Configuration of the instruction MMU ([pagesize] is unsigned there) *)

Definition immu_enabled (val : Z) : M unit :=
  (if nz val then ors (SPR SPR_UPR) SPR_UPR_IMP else clr (SPR SPR_UPR) SPR_UPR_IMP);;
  wr (Immu M_enabled) val.
Definition immu_nsets (val : Z) : M unit :=
  when (is_power2 val && (val <=? 128))
    (let set_bits := log2_int val in
     wr (Immu M_nsets) val;;
     clr (SPR SPR_IMMUCFGR) SPR_IMMUCFGR_NTS;;
     ors (SPR SPR_IMMUCFGR) (Z.shiftl set_bits SPR_IMMUCFGR_NTS_OFF)).
Definition immu_nways (val : Z) : M unit :=
  when ((1 <=? val) && (val <=? 4))
    (let way_bits := val - 1 in
     wr (Immu M_nways) val;;
     clr (SPR SPR_IMMUCFGR) SPR_IMMUCFGR_NTW;;
     ors (SPR SPR_IMMUCFGR) (Z.shiftl way_bits SPR_IMMUCFGR_NTW_OFF)).
Definition immu_pagesize (val : Z) : M unit := when (is_power2 val) (wr (Immu M_pagesize) val).
Definition immu_entrysize (val : Z) : M unit := when (is_power2 val) (wr (Immu M_entrysize) val).
Definition immu_ustates (val : Z) : M unit :=
  when ((2 <=? val) && (val <=? 4)) (wr (Immu M_ustates) val).
Definition immu_missdelay (val : Z) : M unit := wr (Immu M_missdelay) val.
Definition immu_hitdelay (val : Z) : M unit := wr (Immu M_hitdelay) val.

Definition immu_start_sec : M unit :=
  wr (Immu M_enabled) 0;; wr (Immu M_nsets) 1;; wr (Immu M_nways) 1;; wr (Immu M_pagesize) 8192;;
  wr (Immu M_entrysize) 1;; wr (Immu M_ustates) 2;; wr (Immu M_hitdelay) 1;; wr (Immu M_missdelay) 1;;
  enabled ← isset (Immu M_enabled);
  (if enabled : bool then ors (SPR SPR_UPR) SPR_UPR_IMP else clr (SPR SPR_UPR) SPR_UPR_IMP);;
  nsets ← rd (Immu M_nsets);
  let set_bits := log2_int nsets in
  clr (SPR SPR_IMMUCFGR) SPR_IMMUCFGR_NTS;;
  ors (SPR SPR_IMMUCFGR) (Z.shiftl set_bits SPR_IMMUCFGR_NTS_OFF);;
  nways ← rd (Immu M_nways);
  let way_bits := nways - 1 in
  clr (SPR SPR_IMMUCFGR) SPR_IMMUCFGR_NTW;;
  ors (SPR SPR_IMMUCFGR) (Z.shiftl way_bits SPR_IMMUCFGR_NTW_OFF).

Definition immu_end_sec : M unit :=
  pagesize ← rd (Immu M_pagesize);
  wr (Immu M_pagesize_log2) (log2_int pagesize);;
  wr (Immu M_page_offset_mask) (pagesize - 1);;
  page_offset_mask ← rd (Immu M_page_offset_mask);
  wr (Immu M_page_mask) (Z.lnot page_offset_mask);;
  nsets ← rd (Immu M_nsets);
  wr (Immu M_vpn_mask) (Z.lnot (u32 (pagesize * nsets) - 1));;
  wr (Immu M_set_mask) (nsets - 1);;
  set_mask ← rd (Immu M_set_mask);
  wr (Immu M_lru_reload) (Z.land (u32 (Z.shiftl set_mask 6)) SPR_ITLBMR_LRU).

(** ** Typing *)

#[export] Hint Opaque find_way age_lru dmmu_find_tlbmr dtlb_page_fault dmmu_translate peek_into_dtlb
  immu_find_tlbmr itlb_page_fault immu_translate peek_into_itlb mul_int : typeclass_instances.
#[export] Instance mul_int_typed R `{!Enters R} x y : Respects R (mul_int x y).
Proof. unfold mul_int. respects. Qed.
#[export] Instance find_way_respects R `{!PreOrder R} mmu vpn n mr : Respects R (find_way mmu vpn n mr).
Proof.
  revert mr. induction n as [|n IH]; intros mr; cbn [find_way]; [by apply respects_ret|].
  apply respects_bind; [done | by apply respects_rd |]. intros e.
  apply respects_bind; [done | by apply respects_rd |]. intros m.
  apply respects_if; [by apply respects_ret | apply IH].
Qed.
#[export] Instance age_lru_typed R `{!Enters R} n p : Respects R (age_lru n p).
Proof. unfold age_lru. respects. Qed.
#[export] Instance dmmu_find_tlbmr_typed R `{!Enters R} a : Respects R (dmmu_find_tlbmr a).
Proof. unfold dmmu_find_tlbmr. respects. Qed.
#[export] Instance dtlb_page_fault_typed R `{!Enters R} t w : Respects R (dtlb_page_fault t w).
Proof. unfold dtlb_page_fault. respects. Qed.
#[export] Instance dmmu_translate_typed R `{!Enters R} a w : Respects R (dmmu_translate a w).
Proof. unfold dmmu_translate. respects. Qed.
#[export] Instance peek_into_dtlb_typed R `{!Enters R} a w t : Respects R (peek_into_dtlb a w t).
Proof. unfold peek_into_dtlb. respects. Qed.
#[export] Instance immu_find_tlbmr_typed R `{!Enters R} a : Respects R (immu_find_tlbmr a).
Proof. unfold immu_find_tlbmr. respects. Qed.
#[export] Instance itlb_page_fault_typed R `{!Enters R} t : Respects R (itlb_page_fault t).
Proof. unfold itlb_page_fault. respects. Qed.
#[export] Instance immu_translate_typed R `{!Enters R} a : Respects R (immu_translate a).
Proof. unfold immu_translate. respects. Qed.
#[export] Instance peek_into_itlb_typed R `{!Enters R} a : Respects R (peek_into_itlb a).
Proof. unfold peek_into_itlb. respects. Qed.

(** ** The TLB as a map *)

(** A configuration of [2^k] sets of pages of [2^p] bytes. *)
Record mmu_ok (mmu : mmuvar -> cell) (p k : Z) (s : Sim) : Prop := {
  ok_p : 8 <= p; ok_k : 0 <= k <= 7; ok_span : p + k <= 31;
  ok_log2 : s (mmu M_pagesize_log2) = p;
  ok_offset : s (mmu M_page_offset_mask) = 2 ^ p - 1;
  ok_page : s (mmu M_page_mask) = 2 ^ 32 - 2 ^ p;
  ok_vpn : s (mmu M_vpn_mask) = 2 ^ 32 - 2 ^ (p + k);
  ok_set : s (mmu M_set_mask) = 2 ^ k - 1;
  ok_nways : 1 <= s (mmu M_nways) <= 4;
  ok_reload : s (mmu M_lru_reload) = Z.land (Z.shiftl (2 ^ k - 1) 6) 0xc0 }.

(** A match register that is valid and holds the page number of [va]. *)
Definition tlb_match (n va e : Z) : bool := Z.testbit e 0 && (e / 2 ^ n =? va / 2 ^ n).

(** The first matching way of the [w] ways from register [mr] on. *)
Fixpoint lookup_way (n va : Z) (w : nat) (mr : Z) (s : Sim) : option Z :=
  match w with
  | O => None
  | S w => if tlb_match n va (s (SPR mr)) then Some mr else lookup_way n va w (mr + 256) s
  end.

Definition set_reg (base p k va : Z) : Z := base + (va / 2 ^ p) mod 2 ^ k.
Definition tlb_lookup (mmu : mmuvar -> cell) (base p k va : Z) (s : Sim) : option Z :=
  lookup_way (p + k) va (Z.to_nat (s (mmu M_nways))) (set_reg base p k va) s.

Lemma tlb_match_mask n va e :
  0 <= n <= 32 -> 0 <= va < 2 ^ 32 -> 0 <= e < 2 ^ 32 ->
  (Z.land e (2 ^ 32 - 2 ^ n) =? Z.land va (2 ^ 32 - 2 ^ n)) && nz (Z.land e SPR_DTLBMR_V)
    = tlb_match n va e.
Proof.
  intros Hn Hva He. unfold tlb_match. rewrite andb_comm. f_equal.
  - change SPR_DTLBMR_V with (2 ^ 0). by rewrite nz_land_bit by lia.
  - rewrite !land_high by lia. pose proof (Z.div_mod e (2 ^ n) ltac:(lia)).
    pose proof (Z.div_mod va (2 ^ n) ltac:(lia)).
    destruct (Z.eqb_spec (e / 2 ^ n) (va / 2 ^ n)) as [E|E]; [rewrite E in *; apply Z.eqb_eq; lia|].
    apply Z.eqb_neq. intros E'. apply E. apply (Z.mul_cancel_l _ _ (2 ^ n)); lia.
Qed.

Lemma find_way_run mmu p k va w mr s :
  typed s -> mmu_ok mmu p k s -> 0 <= va < 2 ^ 32 ->
  find_way mmu (Z.land va (2 ^ 32 - 2 ^ (p + k))) w mr s = Ok (lookup_way (p + k) va w mr s) s.
Proof.
  intros Hty Hok Hva. pose proof Hok as []. revert mr. induction w as [|w IH]; intros mr; [reflexivity|].
  cbn [find_way lookup_way]. unfold bind, rd. rewrite ok_vpn0.
  rewrite tlb_match_mask by (try lia; by apply typed_u32).
  destruct (tlb_match _ _ _); [reflexivity | apply IH].
Qed.

(** The set index as the code computes it. *)
Lemma set_index p k va :
  8 <= p -> 0 <= k <= 7 -> p + k <= 31 -> 0 <= va < 2 ^ 32 ->
  s32 (Z.land (u32 (s32 (Z.shiftr (Z.land va (2 ^ 32 - 2 ^ p)) p))) (2 ^ k - 1)) = (va / 2 ^ p) mod 2 ^ k.
Proof.
  intros Hp Hk Hpk Hva. rewrite land_high by lia. rewrite u32_s32, Z.shiftr_div_pow2 by lia.
  pose proof (Z.div_mod va (2 ^ p) ltac:(lia)) as Hd.
  replace (va - va mod 2 ^ p) with (va / 2 ^ p * 2 ^ p) by lia. rewrite Z.div_mul by lia.
  assert (0 <= va / 2 ^ p < 2 ^ 32).
  { split; [apply Z.div_pos; lia|]. apply Z.div_lt_upper_bound; [lia|]. nia. }
  rewrite u32_small by lia. replace (2 ^ k - 1) with (Z.ones k) by (rewrite Z.ones_equiv; lia).
  rewrite Z.land_ones by lia. pose proof (Z.mod_pos_bound (va / 2 ^ p) (2 ^ k) ltac:(lia)).
  pose proof (Z.pow_le_mono_r 2 k 7 ltac:(lia) ltac:(lia)). apply s32_small. lia.
Qed.

Lemma dmmu_find_run p k va s :
  typed s -> mmu_ok Dmmu p k s -> 0 <= va < 2 ^ 32 ->
  dmmu_find_tlbmr va s =
    Ok (tlb_lookup Dmmu (SPR_DTLBMR_BASE 0) p k va s, set_reg (SPR_DTLBMR_BASE 0) p k va) s.
Proof.
  intros Hty Hok Hva. pose proof Hok as []. unfold dmmu_find_tlbmr, tlb_lookup, set_reg, bind, rd.
  cbv beta iota zeta. rewrite ok_page0, ok_log3, ok_set0, ok_vpn0, set_index by assumption.
  by rewrite (find_way_run Dmmu p k) by assumption.
Qed.
Lemma immu_find_run p k va s :
  typed s -> mmu_ok Immu p k s -> 0 <= va < 2 ^ 32 ->
  immu_find_tlbmr va s =
    Ok (tlb_lookup Immu (SPR_ITLBMR_BASE 0) p k va s, set_reg (SPR_ITLBMR_BASE 0) p k va) s.
Proof.
  intros Hty Hok Hva. pose proof Hok as []. unfold immu_find_tlbmr, tlb_lookup, set_reg, bind, rd.
  cbv beta iota zeta. rewrite ok_page0, ok_log3, ok_set0, ok_vpn0, set_index by assumption.
  by rewrite (find_way_run Immu p k) by assumption.
Qed.

(** ** The LRU fields *)

(** The LRU field, bits 6 and 7 of a match register. *)
Definition lru_field (e : Z) : Z := b2z (Z.testbit e 6) + 2 * b2z (Z.testbit e 7).

(** Two match registers that differ in the LRU field only. *)
Definition same_entry (e e' : Z) : Prop :=
  forall i, 0 <= i -> i <> 6 -> i <> 7 -> Z.testbit e i = Z.testbit e' i.

Definition aged (e : Z) : Z :=
  if nz (Z.land e SPR_DTLBMR_LRU)
  then u32 (Z.lor (Z.land e (Z.lnot SPR_DTLBMR_LRU)) (Z.land e SPR_DTLBMR_LRU - 0x40)) else e.

Lemma testbit_lru i : 0 <= i -> Z.testbit 0xc0 i = (i =? 6) || (i =? 7).
Proof.
  intros. change 0xc0 with (Z.lor (2 ^ 6) (2 ^ 7)). rewrite Z.lor_spec, !testbit_pow2 by lia.
  by rewrite !(Z.eqb_sym i).
Qed.

Lemma aged_spec e :
  0 <= e < 2 ^ 32 ->
  0 <= aged e < 2 ^ 32 /\ same_entry (aged e) e /\ lru_field (aged e) = Z.max 0 (lru_field e - 1).
Proof.
  intros He. unfold aged. change SPR_DTLBMR_LRU with 0xc0.
  assert (El : Z.land e 0xc0 = Z.lor (if Z.testbit e 6 then 2 ^ 6 else 0) (if Z.testbit e 7 then 2 ^ 7 else 0)).
  { rewrite <- !land_pow2, <- Z.land_lor_distr_r by lia. reflexivity. }
  assert (Hb : forall c i, 0 <= c < 2 ^ 32 -> 0 <= i -> Z.testbit (u32 (Z.lor (Z.land e (Z.lnot 0xc0)) c)) i =
     Z.testbit e i && negb ((i =? 6) || (i =? 7)) || Z.testbit c i).
  { intros c i Hc Hi. rewrite u32_small.
    - by rewrite Z.lor_spec, testbit_clr, testbit_lru by lia.
    - apply lor_range; [lia | apply land_range; lia | lia]. }
  assert (Hsame : forall c, c = 0 \/ c = 2 ^ 6 \/ c = 2 ^ 7 ->
    same_entry (u32 (Z.lor (Z.land e (Z.lnot 0xc0)) c)) e).
  { intros c Hc i Hi H6 H7. rewrite Hb by lia. rewrite (proj2 (Z.eqb_neq i 6)), (proj2 (Z.eqb_neq i 7)) by lia.
    destruct Hc as [->|[->| ->]]; rewrite ?Z.bits_0, ?testbit_pow2 by lia;
      rewrite ?(proj2 (Z.eqb_neq 6 i)), ?(proj2 (Z.eqb_neq 7 i)) by lia; by destruct (Z.testbit e i). }
  unfold lru_field. rewrite El. destruct (Z.testbit e 6) eqn:E6, (Z.testbit e 7) eqn:E7; cbn [nz Z.eqb negb].
  all: match goal with |- context [if ?b then _ else _] => let x := eval vm_compute in b in change b with x end.
  4: { split_and!; [lia | lia | by intros ? ? ? ? | by rewrite E6, E7]. }
  all: match goal with |- context [Z.lor _ (?c - 0x40)] => let x := eval vm_compute in (c - 0x40) in change (c - 0x40) with x end.
  all: split_and!; [apply u32_range.. | apply Hsame; vm_compute; tauto | rewrite !Hb by lia; rewrite !andb_false_r; reflexivity].
Qed.

Lemma same_entry_match n va e e' : 8 <= n -> same_entry e e' -> tlb_match n va e = tlb_match n va e'.
Proof.
  intros Hn Hs. unfold tlb_match. rewrite (Hs 0) by lia. f_equal. f_equal.
  rewrite <- !Z.shiftr_div_pow2 by lia. apply Z.bits_inj'. intros i Hi.
  rewrite !Z.shiftr_spec by lia. apply Hs; lia.
Qed.

Lemma lookup_way_same n va w mr (s s' : Sim) :
  8 <= n -> (forall q, same_entry (s' (SPR q)) (s (SPR q))) -> lookup_way n va w mr s' = lookup_way n va w mr s.
Proof.
  intros Hn Hs. revert mr. induction w as [|w IH]; intros mr; [reflexivity|]. cbn [lookup_way].
  rewrite (same_entry_match n va _ _ Hn (Hs mr)), IH. reflexivity.
Qed.

Lemma lookup_way_some n va w mr s q :
  lookup_way n va w mr s = Some q ->
  tlb_match n va (s (SPR q)) = true /\ exists i, 0 <= i < Z.of_nat w /\ q = mr + 256 * i.
Proof.
  revert mr. induction w as [|w IH]; intros mr; cbn [lookup_way]; [discriminate|].
  destruct (tlb_match n va (s (SPR mr))) eqn:E.
  - intros [= <-]. split; [exact E|]. exists 0. lia.
  - intros H. destruct (IH _ H) as (Hm & i & Hi & ->). split; [exact Hm|]. exists (i + 1). lia.
Qed.

(** Is [q] one of the [w] registers from [mr] on? *)
Definition in_ways (w : Z) (mr q : Z) : bool := (mr <=? q) && (q <? mr + 256 * w) && ((q - mr) mod 256 =? 0).

Lemma in_ways_iff w mr q : in_ways w mr q = true <-> exists i, 0 <= i < w /\ q = mr + 256 * i.
Proof.
  unfold in_ways. rewrite !andb_true_iff, Z.leb_le, Z.ltb_lt, Z.eqb_eq. split.
  - intros [[H1 H2] H3]. exists ((q - mr) / 256). pose proof (Z.div_mod (q - mr) 256 ltac:(lia)). lia.
  - intros (i & Hi & ->). replace (mr + 256 * i - mr) with (i * 256) by lia. rewrite Z.mod_mul by lia. lia.
Qed.

(** The state after the loop over the LRU fields. *)
Definition aged_state (w mr : Z) (s s' : Sim) : Prop :=
  (forall q, s' (SPR q) = if in_ways w mr q then aged (s (SPR q)) else s (SPR q)) /\
  frame (fun c => exists q, c = SPR q) s s' /\ same_lists s s'.

Lemma age_lru_run w mr s :
  typed s -> 0 <= w -> wp (age_lru w mr) (fun _ s' => aged_state w mr s s' /\ typed s') s.
Proof.
  intros Hty Hw. unfold age_lru.
  apply (wpx_for _ _ _ _ _ (fun i s' => aged_state (Z.of_nat i) mr s s' /\ typed s')).
  - split; [|exact Hty]. split_and!; try done. intros q. destruct (in_ways _ _ _) eqn:E; [|done].
    apply in_ways_iff in E as (i & ? & _). lia.
  - intros i s1 Hi [(Hr & Hf & Hl) Ht1].
    assert (Hcur : s1 (SPR (mr + Z.of_nat i * (128 * 2))) = s (SPR (mr + Z.of_nat i * (128 * 2)))).
    { rewrite Hr. destruct (in_ways _ _ _) eqn:E; [|done]. apply in_ways_iff in E as (j & ? & ?). lia. }
    assert (Hsplit : forall q, q <> mr + Z.of_nat i * (128 * 2) ->
      in_ways (Z.of_nat (S i)) mr q = in_ways (Z.of_nat i) mr q).
    { intros q Hq. apply eq_true_iff_eq. rewrite !in_ways_iff.
      split; intros (j & Hj & ->); exists j; (split; [|done]); lia. }
    assert (Hin : in_ways (Z.of_nat (S i)) mr (mr + Z.of_nat i * (128 * 2)) = true).
    { apply in_ways_iff. exists (Z.of_nat i). lia. }
    wps; (split; [|by repeat apply upd_typed]).
    + split_and!; try done.
      * intros q. rewrite upd_lookup. case_decide as E.
        -- injection E as <-. rewrite Hin, Hcur in *. cbn [ctype].
           change (128 * 2) with 256 in *. unfold aged. rewrite H. reflexivity.
        -- rewrite Hr, Hsplit by congruence. done.
      * apply frame_trans_upd; [eauto | exact Hf].
    + split_and!; try done. intros q. destruct (Z.eq_dec q (mr + Z.of_nat i * (128 * 2))) as [->|E].
      * rewrite Hin, Hcur in *. unfold aged. by rewrite H.
      * rewrite Hr, Hsplit by exact E. done.
  - rewrite Z2Nat.id by lia. auto.
Qed.

(** ** Translation *)

(** The state after a TLB hit: the statistics counter [st], the cache inhibit
    flag [ci] from the translate register, the hit delay, and the LRU fields. *)
Definition tlb_used (mmu : mmuvar -> cell) (st ci : cell) (base p k va hit : Z) (s s' : Sim) : Prop :=
  s' ci = Z.land (s (SPR (hit + 128))) 2 /\
  s' Mem_cycles = s32 (s Mem_cycles + s (mmu M_hitdelay)) /\
  s' st = s32 (s st + 1) /\
  (forall q, s' (SPR q) =
     let e := if in_ways (s (mmu M_nways)) (set_reg base p k va) q then aged (s (SPR q)) else s (SPR q) in
     if q =? hit then u32 (Z.lor e (s (mmu M_lru_reload))) else e) /\
  frame (fun c => c = ci \/ c = G Mem_cycles \/ c = st \/ exists q, c = SPR q) s s' /\ same_lists s s'.

(** The reload value only touches the LRU field. *)
Lemma tlb_used_entries mmu st ci base p k va hit s s' :
  typed s -> (exists m, s (mmu M_lru_reload) = Z.land m 0xc0) -> 0 <= s (mmu M_lru_reload) < 2 ^ 32 ->
  tlb_used mmu st ci base p k va hit s s' -> forall q, same_entry (s' (SPR q)) (s (SPR q)).
Proof.
  intros Hty [m Hm] Hr (_ & _ & _ & Hq & _) q. rewrite Hq. cbv zeta.
  pose proof (typed_u32 s (SPR q) Hty eq_refl) as Hs.
  pose proof (aged_spec (s (SPR q)) Hs) as (Ha & Hse & _).
  set (e := if in_ways _ _ q then _ else _).
  assert (He : 0 <= e < 2 ^ 32 /\ same_entry e (s (SPR q))).
  { unfold e. destruct (in_ways _ _ _); [by split | split; [exact Hs | by intros ? ? ? ?]]. }
  destruct He as [Her Hee]. destruct (q =? hit); [|exact Hee].
  intros i Hi H6 H7. rewrite u32_small by (apply lor_range; lia).
  rewrite Z.lor_spec, Hm, Z.land_spec, testbit_lru by lia.
  rewrite (proj2 (Z.eqb_neq i 6)), (proj2 (Z.eqb_neq i 7)) by lia.
  rewrite andb_false_r, orb_false_r. by apply Hee.
Qed.

(** An access allowed by a translate register, in supervisor or user mode. *)
Definition dtlb_allows (sm write : bool) (tr : Z) : bool :=
  Z.testbit tr (if sm then (if write then 9 else 8) else (if write then 7 else 6)).
Definition itlb_allows (sm : bool) (tr : Z) : bool := Z.testbit tr (if sm then 6 else 7).

Lemma dtlb_page_fault_run tr write s :
  dtlb_page_fault tr write s =
    Ok (negb (dtlb_allows (Z.testbit (s (SPR SPR_SR)) 0) write (s (SPR tr)))) s.
Proof.
  unfold dtlb_page_fault, bind, rd, flag, ret, dtlb_allows. cbv beta iota.
  change SPR_SR_SM with (2 ^ 0). change SPR_DTLBTR_SWE with (2 ^ 9). change SPR_DTLBTR_SRE with (2 ^ 8).
  change SPR_DTLBTR_UWE with (2 ^ 7). change SPR_DTLBTR_URE with (2 ^ 6).
  unfold bind, rd. rewrite !nz_land_bit by lia.
  destruct (Z.testbit (s (SPR SPR_SR)) 0), write; cbn; by rewrite ?orb_false_r.
Qed.
Lemma itlb_page_fault_run tr s :
  itlb_page_fault tr s = Ok (negb (itlb_allows (Z.testbit (s (SPR SPR_SR)) 0) (s (SPR tr)))) s.
Proof.
  unfold itlb_page_fault, bind, rd, flag, ret, itlb_allows. cbv beta iota.
  change SPR_SR_SM with (2 ^ 0). change SPR_ITLBTR_SXE with (2 ^ 6). change SPR_ITLBTR_UXE with (2 ^ 7).
  unfold bind, rd. rewrite !nz_land_bit by lia. by destruct (Z.testbit (s (SPR SPR_SR)) 0).
Qed.

(** The performance counters. *)
Definition pccr (c : cell) : Prop := exists i, 0 <= i < 8 /\ c = SPR (SPR_PCCR i).

Lemma pcu_count_run e s :
  typed s -> wp (pcu_count_event e) (fun _ s' => frame pccr s s' /\ same_lists s s' /\ typed s') s.
Proof.
  intros Hty. unfold pcu_count_event.
  apply (wpx_for _ _ _ _ _ (fun _ s' => frame pccr s s' /\ same_lists s s' /\ typed s')); [done| |auto].
  intros i s1 Hi (Hf & Hl & Ht). wps; split_and!; try done.
  - apply frame_trans_upd; [|exact Hf]. exists (0 + Z.of_nat i * 1). split; [lia | reflexivity].
  - by apply upd_typed.
Qed.

Lemma entered_spr except ea s s' q :
  entered except ea s s' -> 2048 <= q < 12288 -> s' (SPR q) = s (SPR q).
Proof.
  intros (_ & _ & _ & _ & _ & _ & _ & _ & _ & _ & Hf & _) Hq. apply Hf. unfold foot. intros H.
  apply existsb_exists in H as (c & Hin & E). apply bool_decide_eq_true in E as <-.
  unfold entry_cells, stall_cells in Hin. cbn [app In] in Hin.
  repeat destruct Hin as [Hin|Hin]; try discriminate; try done; injection Hin as <-; revert Hq; vm_compute; intuition congruence.
Qed.

(** The bodies of a TLB hit and of a TLB miss in the two translation functions. *)
Definition hit_body (mmu : mmuvar -> cell) (st ci : cell) (exc va hit lru : Z) (fault : M bool) : M Z :=
  adds st 1;;
  nways ← rd (mmu M_nways);
  age_lru nways lru;;
  lru_reload ← rd (mmu M_lru_reload);
  ors (SPR hit) lru_reload;;
  tr ← rd (SPR (hit + 128));
  wr ci (Z.land tr 2);;
  hitdelay ← rd (mmu M_hitdelay);
  adds Mem_cycles hitdelay;;
  fault ← fault;
  when fault (except_handle exc va);;
  tr ← rd (SPR (hit + 128));
  page_offset_mask ← rd (mmu M_page_offset_mask);
  ret (Z.lor (Z.land tr 0xffffe000) (Z.land va page_offset_mask)).
Definition miss_body (mmu : mmuvar -> cell) (st : cell) (exc event va : Z) : M Z :=
  adds st 1;;
  missdelay ← rd (mmu M_missdelay);
  adds Mem_cycles missdelay;;
  except_handle exc va;;
  pcu ← isset Pcu_enabled;
  when pcu (pcu_count_event event);;
  ret 0.

(** The physical address of [va] in the 8 KB page of a translate register. *)
Definition phys (tr va : Z) : Z := tr / 2 ^ 13 * 2 ^ 13 + va mod 2 ^ 13.

Lemma phys_code tr va :
  0 <= tr < 2 ^ 32 -> 0 <= va ->
  Z.lor (Z.land tr 0xffffe000) (Z.land va (2 ^ 13 - 1)) = phys tr va.
Proof.
  intros Ht Hv. change 0xffffe000 with (2 ^ 32 - 2 ^ 13). rewrite land_high by lia.
  rewrite land_low by lia. unfold phys.
  pose proof (Z.div_mod tr (2 ^ 13) ltac:(lia)) as Hd.
  replace (tr - tr mod 2 ^ 13) with (tr / 2 ^ 13 * 2 ^ 13) by lia.
  apply lor_low; [lia | apply Z.mod_pos_bound; lia].
Qed.

Lemma mmu_cell_ne (mmu : mmuvar -> cell) x g f :
  mmu = Immu \/ mmu = Dmmu -> mmu f <> G g /\ mmu f <> Stat x /\ mmu f <> G Mem_cycles /\ forall q, mmu f <> SPR q.
Proof. intros [->| ->]; split_and!; done. Qed.

Section Bodies.
Context (mmu : mmuvar -> cell) (x : statvar) (g : gvar) (base k va : Z) (s : Sim).
Context (Hmmu : mmu = Immu \/ mmu = Dmmu) (Hg : g = Data_ci \/ g = Insn_ci).
Context (Hty : typed s) (Hok : mmu_ok mmu 13 k s) (Hva : 0 <= va < 2 ^ 32).
Context (Hbase : 2048 <= base <= 8192).

Let ways := in_ways (s (mmu M_nways)) (set_reg base 13 k va).

Lemma set_reg_range : base <= set_reg base 13 k va < base + 128.
Proof.
  pose proof Hok as []. unfold set_reg. pose proof (Z.mod_pos_bound (va / 2 ^ 13) (2 ^ k) ltac:(lia)).
  pose proof (Z.pow_le_mono_r 2 k 7 ltac:(lia) ltac:(lia)). lia.
Qed.

(** Translate registers are not match registers of any set. *)
Lemma tr_not_way va' q :
  in_ways (s (mmu M_nways)) (set_reg base 13 k va') q = true -> ways (q + 128) = false.
Proof.
  intros E. apply in_ways_iff in E as (i & Hi & ->). pose proof Hok as []. unfold ways.
  destruct (in_ways _ _ (_ + 128)) eqn:E; [|done]. apply in_ways_iff in E as (j & Hj & E).
  revert E. unfold set_reg. pose proof (Z.mod_pos_bound (va / 2 ^ 13) (2 ^ k) ltac:(lia)).
  pose proof (Z.mod_pos_bound (va' / 2 ^ 13) (2 ^ k) ltac:(lia)).
  pose proof (Z.pow_le_mono_r 2 k 7 ltac:(lia) ltac:(lia)). lia.
Qed.

Lemma ways_iff q :
  ways q = true -> 2048 <= q < 12288 - 128 /\ ways (q + 128) = false.
Proof.
  intros E. split; [|by apply (tr_not_way va)]. apply in_ways_iff in E as (i & Hi & ->).
  pose proof Hok as []. pose proof set_reg_range. lia.
Qed.

Lemma lookup_ways hit : tlb_lookup mmu base 13 k va s = Some hit -> ways hit = true.
Proof.
  intros Hl. apply lookup_way_some in Hl as (_ & i & Hi & ->). pose proof Hok as [].
  rewrite Z2Nat.id in Hi by lia. apply in_ways_iff. eauto.
Qed.

Lemma tlb_used_other hit s1 q :
  tlb_used mmu (Stat x) (G g) base 13 k va hit s s1 -> ways hit = true -> ways q = false ->
  s1 (SPR q) = s (SPR q).
Proof.
  intros (_ & _ & _ & Hq & _) Hh Hw. rewrite Hq. cbv zeta. fold (ways q). rewrite Hw.
  destruct (Z.eqb_spec q hit) as [->|]; [congruence | done].
Qed.

Lemma far_ways q : q < 2048 \/ 12288 - 128 <= q -> ways q = false.
Proof. intros Hq. destruct (ways q) eqn:E; [|done]. apply ways_iff in E. lia. Qed.


(** The assignments of a hit amount to [tlb_used]. *)
Lemma hit_update hit s1 :
  ways hit = true -> aged_state (s (mmu M_nways)) (set_reg base 13 k va) (upd (Stat x) (s (Stat x) + 1) s) s1 ->
  (forall f, s1 (mmu f) = s (mmu f)) /\
  tlb_used mmu (Stat x) (G g) base 13 k va hit s
    (upd Mem_cycles (s1 Mem_cycles + s1 (mmu M_hitdelay))
       (upd g (Z.land (s1 (SPR (hit + 128))) 2)
          (upd (SPR hit) (Z.lor (s1 (SPR hit)) (s (mmu M_lru_reload))) s1))).
Proof.
  intros Hhit (Hq & Hfr & Hl). pose proof (ways_iff hit Hhit) as [Hr Hr2].
  assert (Hgm : G g <> G Mem_cycles) by (destruct Hg as [->| ->]; done).
  assert (E1 : forall c, (forall q, c <> SPR q) -> s1 c = upd (Stat x) (s (Stat x) + 1) s c).
  { intros c Hc. apply Hfr. intros [q ->]. by apply (Hc q). }
  assert (Emmu : forall f, s1 (mmu f) = s (mmu f)).
  { intros f. destruct (mmu_cell_ne mmu x g f Hmmu) as (? & ? & ? & ?). rewrite E1 by done. by apply upd_ne. }
  split; [exact Emmu|]. unfold tlb_used. split_and!.
  - rewrite upd_ne, upd_eq, Hq by done. fold ways. rewrite Hr2, upd_ne by done. cbn [ctype]. apply wrap_small.
    pose proof (land_range_r 2 (s (SPR (hit + 128))) 2 ltac:(lia) ltac:(lia)).
    destruct Hg as [->| ->]; apply inty_I32; lia.
  - rewrite upd_eq, E1, upd_ne, Emmu by done. reflexivity.
  - rewrite !upd_ne, E1, upd_eq by done. reflexivity.
  - intros q. rewrite !(upd_ne _ (SPR q)) by done. rewrite upd_lookup. fold ways. cbv zeta.
    destruct (Z.eqb_spec q hit) as [->|]; case_decide; try congruence;
      rewrite ?Hq; fold ways; rewrite ?Hhit; by rewrite upd_ne by done.
  - repeat (apply frame_trans_upd; [tauto || eauto|]). intros c Hc.
    rewrite E1 by (intros q ->; apply Hc; eauto). apply upd_ne. intros <-. apply Hc. auto.
  - exact Hl.
Qed.

(** The hit: the page fault is raised after everything else, and the address is
    returned all the same. *)
Lemma hit_body_run hit exc fault (deny : Sim -> bool) :
  ways hit = true ->
  (forall s2, tlb_used mmu (Stat x) (G g) base 13 k va hit s s2 -> deny s2 = true -> ignored exc s = false) ->
  (forall s, fault s = Ok (deny s) s) ->
  wp (hit_body mmu (Stat x) (G g) exc va hit (set_reg base 13 k va) fault)
     (fun r s' => r = phys (s (SPR (hit + 128))) va /\ typed s' /\
        exists s1, tlb_used mmu (Stat x) (G g) base 13 k va hit s s1 /\
          if deny s1 then entered exc va s1 s' else s' = s1) s.
Proof.
  intros Hhit Hig Hf. pose proof (ways_iff hit Hhit) as [Hr Hr2]. pose proof Hok as [].
  assert (Hgm : G g <> G Mem_cycles) by (destruct Hg as [->| ->]; done).
  unfold hit_body. wps. rewrite upd_ne by (by apply not_eq_sym, (mmu_cell_ne mmu x g)).
  eapply wpx_mono; [apply age_lru_run; [by apply upd_typed | lia] | done |].
  intros _ s1 [Haged Ht1]. cbv beta. pose proof (hit_update hit s1 Hhit Haged) as [Emmu Hu].
  wps. rewrite !Emmu. rewrite !(upd_ne _ (mmu _)) by (apply not_eq_sym || idtac; by apply (mmu_cell_ne mmu x g)).
  rewrite ?Emmu in Hu |- *. revert Hu. set (s2 := upd Mem_cycles _ _).
  assert (Ht2 : typed s2) by by repeat apply upd_typed. clearbody s2. clear s1 Haged Ht1 Emmu. intros Hu.
  assert (Etr : s2 (SPR (hit + 128)) = s (SPR (hit + 128))) by by apply (tlb_used_other hit).
  assert (Eoff : s2 (mmu M_page_offset_mask) = 2 ^ 13 - 1).
  { rewrite <- ok_offset0. apply Hu. destruct (mmu_cell_ne mmu x g M_page_offset_mask Hmmu) as (N1 & N2 & N3 & N4).
    intros [?|[?|[?|[q ?]]]]; [by apply N1 | by apply N3 | by apply N2 | by apply (N4 q)]. }
  unfold wpx at 1. rewrite Hf. wps.
  - eapply wpx_mono; [apply except_handle_run; [exact Ht2|] | done |].
    { unfold ignored. rewrite (tlb_used_other hit) by (try done; apply far_ways; vm_compute; intuition congruence).
      by eapply Hig. }
    intros _ s3 [He Ht3]. cbv beta. wps.
    assert (s3 (mmu M_page_offset_mask) = s2 (mmu M_page_offset_mask)) as ->.
    { destruct He as (_ & _ & _ & _ & _ & _ & _ & _ & _ & _ & Hfr & _). apply (frame_get _ _ _ _ Hfr).
      destruct Hmmu as [->| ->]; reflexivity. }
    rewrite (entered_spr _ _ _ _ _ He) by lia. rewrite Etr, Eoff, phys_code by (lia || by apply typed_u32).
    split_and!; try done. exists s2. split; [exact Hu|]. by rewrite H.
  - rewrite Etr, Eoff, phys_code by (lia || by apply typed_u32).
    split_and!; try done. exists s2. split; [exact Hu|]. by rewrite H.
Qed.

(** The same with the permission test on the state before the access. *)
Lemma hit_refines hit exc fault (allow : bool -> Z -> bool) :
  tlb_lookup mmu base 13 k va s = Some hit ->
  (allow (Z.testbit (s (SPR SPR_SR)) 0) (s (SPR (hit + 128))) = false -> ignored exc s = false) ->
  (forall s : Sim, fault s = Ok (negb (allow (Z.testbit (s (SPR SPR_SR)) 0) (s (SPR (hit + 128))))) s) ->
  exists r s', hit_body mmu (Stat x) (G g) exc va hit (set_reg base 13 k va) fault s = Ok r s' /\
    r = phys (s (SPR (hit + 128))) va /\
    exists s1, tlb_used mmu (Stat x) (G g) base 13 k va hit s s1 /\
      if allow (Z.testbit (s (SPR SPR_SR)) 0) (s (SPR (hit + 128))) then s' = s1 else entered exc va s1 s'.
Proof.
  intros Hl Hig Hf. pose proof (lookup_ways hit Hl) as Hw. pose proof (ways_iff hit Hw) as [Hr Hw2].
  assert (Hig' : forall s2, tlb_used mmu (Stat x) (G g) base 13 k va hit s s2 ->
    negb (allow (Z.testbit (s2 (SPR SPR_SR)) 0) (s2 (SPR (hit + 128)))) = true -> ignored exc s = false).
  { intros s2 Hu. rewrite (tlb_used_other hit _ SPR_SR), (tlb_used_other hit _ (hit + 128))
      by (try done; apply far_ways; left; closed_Z). intros E%negb_true_iff. auto. }
  pose proof (hit_body_run hit exc fault _ Hw Hig' Hf) as Hwp.
  apply wp_ok in Hwp as (r & s' & E & -> & _ & s1 & Hu & Hd). exists (phys (s (SPR (hit + 128))) va), s'.
  split_and!; [exact E | done |]. exists s1. split; [exact Hu|].
  rewrite (tlb_used_other hit _ SPR_SR), (tlb_used_other hit _ (hit + 128)) in Hd
    by (try done; apply far_ways; left; closed_Z).
  revert Hd. by destruct (allow _ _).
Qed.

(** The miss. *)
Definition missed (s1 : Sim) : Prop :=
  s1 = upd Mem_cycles (s Mem_cycles + s (mmu M_missdelay)) (upd (Stat x) (s (Stat x) + 1) s).
Lemma miss_body_run exc event :
  ignored exc s = false ->
  wp (miss_body mmu (Stat x) exc event va)
     (fun r s' => r = 0 /\ typed s' /\
        exists s1 s2, missed s1 /\ entered exc va s1 s2 /\ frame pccr s2 s' /\ same_lists s2 s') s.
Proof.
  intros Hig. unfold miss_body. wps. rewrite upd_ne by (by apply not_eq_sym, (mmu_cell_ne mmu x Data_ci)).
  eapply wpx_mono; [apply except_handle_run; [by repeat apply upd_typed | exact Hig] | done |].
  intros _ s2 [He Ht2]. cbv beta. wps.
  - eapply wpx_mono; [by apply pcu_count_run | done |]. intros _ s3 (Hf & Hl & Ht3). cbv beta. wps.
    split_and!; try done. exists (upd Mem_cycles (s Mem_cycles + s (mmu M_missdelay)) (upd (Stat x) (s (Stat x) + 1) s)), s2. done.
  - split_and!; try done. exists (upd Mem_cycles (s Mem_cycles + s (mmu M_missdelay)) (upd (Stat x) (s (Stat x) + 1) s)), s2. done.
Qed.
End Bodies.

(** Translation is switched on. *)
Definition dmmu_on (s : Sim) : bool := Z.testbit (s (SPR SPR_SR)) 5 && Z.testbit (s (SPR SPR_UPR)) 3.
Definition immu_on (s : Sim) : bool := Z.testbit (s (SPR SPR_SR)) 6 && Z.testbit (s (SPR SPR_UPR)) 4.

Abbreviation dtlb := (tlb_lookup Dmmu (SPR_DTLBMR_BASE 0) 13).
Abbreviation itlb := (tlb_lookup Immu (SPR_ITLBMR_BASE 0) 13).
Definition supervisor (s : Sim) : bool := Z.testbit (s (SPR SPR_SR)) 0.

(** With translation off the address is physical; the upper half is not cached. *)
Lemma dmmu_off va write s :
  dmmu_on s = false -> dmmu_translate va write s = Ok va (upd Data_ci (b2z (0x80000000 <=? va)) s).
Proof.
  unfold dmmu_on. intros H. unfold dmmu_translate, bind, flag, rd, ret. unfold bind, rd. cbv beta iota.
  change SPR_SR_DME with (2 ^ 5). change SPR_UPR_DMP with (2 ^ 3). rewrite !nz_land_bit by lia.
  rewrite <- negb_andb, H. reflexivity.
Qed.
Lemma immu_off va s :
  immu_on s = false -> immu_translate va s = Ok va (upd Insn_ci (b2z (0x80000000 <=? va)) s).
Proof.
  unfold immu_on. intros H. unfold immu_translate, bind, flag, rd, ret. unfold bind, rd. cbv beta iota.
  change SPR_SR_IME with (2 ^ 6). change SPR_UPR_IMP with (2 ^ 4). rewrite !nz_land_bit by lia.
  rewrite <- negb_andb, H. reflexivity.
Qed.

(** With translation on, the bodies of the two functions. *)
Lemma dmmu_translate_on k va write s :
  typed s -> mmu_ok Dmmu 13 k s -> 0 <= va < 2 ^ 32 -> dmmu_on s = true ->
  dmmu_translate va write s =
    match dtlb k va s with
    | Some hit => hit_body Dmmu (Stat St_dmmu_tlbhit) Data_ci EXCEPT_DPF va hit
                    (set_reg (SPR_DTLBMR_BASE 0) 13 k va) (dtlb_page_fault (hit + 128) write) s
    | None => miss_body Dmmu (Stat St_dmmu_tlbmiss) EXCEPT_DTLBMISS SPR_PCMR_DTLBM va s
    end.
Proof.
  unfold dmmu_on. intros Hty Hok Hva Hon. unfold dmmu_translate. unfold flag at 1 2.
  unfold bind at 1 2 3 4. unfold rd at 1 2. unfold ret at 1 2.
  change SPR_SR_DME with (2 ^ 5). change SPR_UPR_DMP with (2 ^ 3). rewrite !nz_land_bit by lia.
  rewrite <- negb_andb, Hon. cbn [negb]. unfold bind at 1.
  rewrite (dmmu_find_run 13 k) by assumption. cbv beta iota.
  destruct (dtlb k va s); reflexivity.
Qed.
Lemma immu_translate_on k va s :
  typed s -> mmu_ok Immu 13 k s -> 0 <= va < 2 ^ 32 -> immu_on s = true ->
  immu_translate va s =
    match itlb k va s with
    | Some hit => hit_body Immu (Stat St_immu_tlbhit) Insn_ci EXCEPT_IPF va hit
                    (set_reg (SPR_ITLBMR_BASE 0) 13 k va) (itlb_page_fault (hit + 128)) s
    | None => miss_body Immu (Stat St_immu_tlbmiss) EXCEPT_ITLBMISS SPR_PCMR_ITLBM va s
    end.
Proof.
  unfold immu_on. intros Hty Hok Hva Hon. unfold immu_translate. unfold flag at 1 2.
  unfold bind at 1 2 3 4. unfold rd at 1 2. unfold ret at 1 2.
  change SPR_SR_IME with (2 ^ 6). change SPR_UPR_IMP with (2 ^ 4). rewrite !nz_land_bit by lia.
  rewrite <- negb_andb, Hon. cbn [negb]. unfold bind at 1.
  rewrite (immu_find_run 13 k) by assumption. cbv beta iota.
  destruct (itlb k va s); reflexivity.
Qed.

(** ** Properties *)

(** C11: translation of a data address with the MMU on refines the lookup in
    the TLB seen as a map from (set, page number) to translate registers: a
    match gives the page's physical address, the cache inhibit flag and an aged
    LRU field, and a page fault when the mode's permission for the access is
    missing; no match gives 0 and a TLB miss exception. *)
Theorem dmmu_translate_refines k va write s :
  typed s -> mmu_ok Dmmu 13 k s -> 0 <= va < 2 ^ 32 -> dmmu_on s = true ->
  ignored EXCEPT_DPF s = false -> ignored EXCEPT_DTLBMISS s = false ->
  exists r s', dmmu_translate va write s = Ok r s' /\
    match dtlb k va s with
    | Some hit =>
        r = phys (s (SPR (hit + 128))) va /\
        exists s1, tlb_used Dmmu (Stat St_dmmu_tlbhit) Data_ci (SPR_DTLBMR_BASE 0) 13 k va hit s s1 /\
          if dtlb_allows (supervisor s) write (s (SPR (hit + 128)))
          then s' = s1 else entered EXCEPT_DPF va s1 s'
    | None =>
        r = 0 /\ exists s1 s2, missed Dmmu St_dmmu_tlbmiss s s1 /\ entered EXCEPT_DTLBMISS va s1 s2 /\
          frame pccr s2 s' /\ same_lists s2 s'
    end.
Proof.
  intros Hty Hok Hva Hon Hig1 Hig2. rewrite (dmmu_translate_on k) by assumption.
  destruct (dtlb k va s) as [hit|] eqn:El.
  - apply (hit_refines Dmmu St_dmmu_tlbhit Data_ci) with (allow := fun sm => dtlb_allows sm write); auto; try closed_Z.
    intros s0. apply dtlb_page_fault_run.
  - pose proof (miss_body_run Dmmu St_dmmu_tlbmiss va s (or_intror eq_refl) Hty
      EXCEPT_DTLBMISS SPR_PCMR_DTLBM Hig2) as Hwp.
    apply wp_ok in Hwp as (r & s' & E & -> & _ & Hm). exists 0, s'. by split_and!.
Qed.

(** The same for the address of an instruction. *)
Theorem immu_translate_refines k va s :
  typed s -> mmu_ok Immu 13 k s -> 0 <= va < 2 ^ 32 -> immu_on s = true ->
  ignored EXCEPT_IPF s = false -> ignored EXCEPT_ITLBMISS s = false ->
  exists r s', immu_translate va s = Ok r s' /\
    match itlb k va s with
    | Some hit =>
        r = phys (s (SPR (hit + 128))) va /\
        exists s1, tlb_used Immu (Stat St_immu_tlbhit) Insn_ci (SPR_ITLBMR_BASE 0) 13 k va hit s s1 /\
          if itlb_allows (supervisor s) (s (SPR (hit + 128)))
          then s' = s1 else entered EXCEPT_IPF va s1 s'
    | None =>
        r = 0 /\ exists s1 s2, missed Immu St_immu_tlbmiss s s1 /\ entered EXCEPT_ITLBMISS va s1 s2 /\
          frame pccr s2 s' /\ same_lists s2 s'
    end.
Proof.
  intros Hty Hok Hva Hon Hig1 Hig2. rewrite (immu_translate_on k) by assumption.
  destruct (itlb k va s) as [hit|] eqn:El.
  - apply (hit_refines Immu St_immu_tlbhit Insn_ci) with (allow := itlb_allows); auto; try closed_Z.
    intros s0. apply itlb_page_fault_run.
  - pose proof (miss_body_run Immu St_immu_tlbmiss va s (or_introl eq_refl) Hty
      EXCEPT_ITLBMISS SPR_PCMR_ITLBM Hig2) as Hwp.
    apply wp_ok in Hwp as (r & s' & E & -> & _ & Hm). exists 0, s'. by split_and!.
Qed.

(** The fields that make up the map survive whatever a translation does. *)
Definition same_tlb (mmu : mmuvar -> cell) (base k : Z) (s s' : Sim) : Prop :=
  (forall va, 0 <= va < 2 ^ 32 ->
    tlb_lookup mmu base 13 k va s' = tlb_lookup mmu base 13 k va s) /\
  forall va hit, tlb_lookup mmu base 13 k va s = Some hit -> s' (SPR (hit + 128)) = s (SPR (hit + 128)).

Section Same_tlb.
Context (mmu : mmuvar -> cell) (x : statvar) (g : gvar) (base k : Z) (s : Sim).
Context (Hmmu : mmu = Immu \/ mmu = Dmmu) (Hg : g = Data_ci \/ g = Insn_ci).
Context (Hty : typed s) (Hok : mmu_ok mmu 13 k s) (Hbase : 2048 <= base <= 8192).

(** Entries that differ in the LRU fields make up the same map. *)
Lemma same_tlb_intro (s' : Sim) :
  s' (mmu M_nways) = s (mmu M_nways) -> (forall q, 2048 <= q < 12288 -> same_entry (s' (SPR q)) (s (SPR q))) ->
  (forall va hit, tlb_lookup mmu base 13 k va s = Some hit -> s' (SPR (hit + 128)) = s (SPR (hit + 128))) ->
  same_tlb mmu base k s s'.
Proof.
  intros Hn He Ht. split; [|exact Ht]. intros va Hva. unfold tlb_lookup. rewrite Hn.
  pose proof Hok as []. pose proof (set_reg_range mmu base k va s Hok).
  assert (H0 : forall w mr, 2048 <= mr -> mr + 256 * Z.of_nat w <= 12288 + 255 ->
    lookup_way (13 + k) va w mr s' = lookup_way (13 + k) va w mr s).
  { induction w as [|w IH]; intros mr H1 H2; [reflexivity|]. cbn [lookup_way].
    rewrite (same_entry_match (13 + k) va _ (s (SPR mr))), IH by (try lia; apply He; lia). reflexivity. }
  apply H0; rewrite ?Z2Nat.id by lia; lia.
Qed.

Lemma entered_nways exc ea s1 s2 : entered exc ea s1 s2 -> s2 (mmu M_nways) = s1 (mmu M_nways).
Proof.
  intros (_ & _ & _ & _ & _ & _ & _ & _ & _ & _ & Hfr & _). apply (frame_get _ _ _ _ Hfr).
  destruct Hmmu as [->| ->]; reflexivity.
Qed.

Lemma hit_same_tlb va hit exc s1 s2 :
  tlb_lookup mmu base 13 k va s = Some hit -> tlb_used mmu (Stat x) (G g) base 13 k va hit s s1 ->
  s2 = s1 \/ entered exc va s1 s2 -> same_tlb mmu base k s s2.
Proof.
  intros Hl Hu Hs. pose proof Hok as []. pose proof (lookup_ways mmu base k va s Hok hit Hl) as Hw.
  assert (Hn : s1 (mmu M_nways) = s (mmu M_nways)).
  { apply Hu. destruct (mmu_cell_ne mmu x g M_nways Hmmu) as (N1 & N2 & N3 & N4).
    intros [?|[?|[?|[q ?]]]]; [by apply N1 | by apply N3 | by apply N2 | by apply (N4 q)]. }
  assert (Hr : forall q, 2048 <= q < 12288 -> s2 (SPR q) = s1 (SPR q)).
  { intros q Hq. destruct Hs as [->|He]; [done | by rewrite (entered_spr _ _ _ _ _ He)]. }
  apply same_tlb_intro.
  - rewrite <- Hn. destruct Hs as [->|He]; [done | by apply (entered_nways _ _ _ _ He)].
  - intros q Hq. rewrite Hr by exact Hq. eapply tlb_used_entries; [eauto.. | exact Hu].
    rewrite ok_reload0. apply land_range_r; lia.
  - intros va' hit' Hl'. pose proof (lookup_ways mmu base k va' s Hok hit' Hl') as Hw'.
    assert (Hn' : in_ways (s (mmu M_nways)) (set_reg base 13 k va) (hit' + 128) = false)
      by (eapply tr_not_way; eauto).
    eapply ways_iff in Hw' as [Hr' _]; [|eauto..]. rewrite Hr by lia.
    by eapply tlb_used_other.
Qed.

Lemma miss_same_tlb exc va s1 s2 s3 :
  missed mmu x s s1 -> entered exc va s1 s2 -> frame pccr s2 s3 -> same_tlb mmu base k s s3.
Proof.
  intros -> He Hf. destruct (mmu_cell_ne mmu x g M_nways Hmmu) as (N1 & N2 & N3 & N4).
  assert (Hr : forall q, 2048 <= q < 12288 -> s3 (SPR q) = s (SPR q)).
  { intros q Hq. rewrite Hf, (entered_spr _ _ _ _ _ He), !upd_ne; try done.
    intros (i & Hi & [= ->]). revert Hq. unfold SPR_PCCR. change SPRGROUP_PC with (7 * 2048). lia. }
  apply same_tlb_intro.
  - rewrite Hf by (intros (i & _ & E); by apply (N4 _ E)).
    rewrite (entered_nways _ _ _ _ He), !upd_ne by congruence. done.
  - intros q Hq. rewrite Hr by exact Hq. by intros ? ? ? ?.
  - intros va' hit Hl. apply lookup_ways in Hl; [|exact Hok]. apply ways_iff in Hl as [? _]; [|assumption..].
    apply Hr. lia.
Qed.
End Same_tlb.

(** Whatever a translation does (hit, page fault or miss), the TLB maps
    every address as before: only LRU fields of match registers change. *)
Theorem dmmu_translate_keeps_tlb k va write s :
  typed s -> mmu_ok Dmmu 13 k s -> 0 <= va < 2 ^ 32 ->
  ignored EXCEPT_DPF s = false -> ignored EXCEPT_DTLBMISS s = false ->
  exists r s', dmmu_translate va write s = Ok r s' /\ same_tlb Dmmu (SPR_DTLBMR_BASE 0) k s s'.
Proof.
  intros Hty Hok Hva Hig1 Hig2. assert (Hb : 2048 <= SPR_DTLBMR_BASE 0 <= 8192) by closed_Z.
  destruct (dmmu_on s) eqn:Hon; [|rewrite dmmu_off by exact Hon; eexists _, _; split; [done|];
    apply same_tlb_intro; try assumption; [done | by intros ? ? ? ? | done]].
  rewrite (dmmu_translate_on k) by assumption. destruct (dtlb k va s) as [hit|] eqn:El.
  - destruct (hit_refines Dmmu St_dmmu_tlbhit Data_ci (SPR_DTLBMR_BASE 0) k va s) with (hit := hit)
      (exc := EXCEPT_DPF) (fault := dtlb_page_fault (hit + 128) write) (allow := fun sm => dtlb_allows sm write)
      as (r & s' & E & _ & s1 & Hu & Hd); auto; [intros s0; apply dtlb_page_fault_run|].
    exists r, s'. split; [exact E|]. eapply hit_same_tlb with (x := St_dmmu_tlbhit) (g := Data_ci); eauto.
    destruct (dtlb_allows _ _ _); eauto.
  - pose proof (miss_body_run Dmmu St_dmmu_tlbmiss va s (or_intror eq_refl) Hty
      EXCEPT_DTLBMISS SPR_PCMR_DTLBM Hig2) as Hwp.
    apply wp_ok in Hwp as (r & s' & E & _ & _ & s1 & s2 & Hm & He & Hf & _). exists r, s'.
    split; [exact E|]. eapply miss_same_tlb with (g := Data_ci); eauto.
Qed.

(** Looking an address up without raising exceptions gives the address the
    translation would return, or 0 where it would raise an exception; besides
    the cache inhibit flag it counts a TLB hit. *)
Theorem peek_into_dtlb_spec k va write through_dc s :
  typed s -> mmu_ok Dmmu 13 k s -> 0 <= va < 2 ^ 32 -> dmmu_on s = true ->
  peek_into_dtlb va write through_dc s =
    match dtlb k va s with
    | Some hit =>
        let tr := s (SPR (hit + 128)) in
        let s1 := upd (Stat St_dmmu_tlbhit) (s (Stat St_dmmu_tlbhit) + 1) s in
        if dtlb_allows (supervisor s) write tr
        then Ok (phys tr va) (if through_dc then upd Data_ci (Z.land tr 2) s1 else s1)
        else Ok 0 s1
    | None => Ok 0 s
    end.
Proof.
  intros Hty Hok Hva Hon. pose proof Hok as []. unfold peek_into_dtlb. unfold flag at 1 2.
  unfold bind at 1 2 3 4. unfold rd at 1 2. unfold ret at 1 2.
  change SPR_SR_DME with (2 ^ 5). change SPR_UPR_DMP with (2 ^ 3). rewrite !nz_land_bit by lia.
  unfold dmmu_on in Hon. rewrite <- negb_andb, Hon. cbn [negb]. unfold bind at 1.
  rewrite (dmmu_find_run 13 k) by assumption. cbn [fst]. destruct (dtlb k va s) as [hit|]; [|reflexivity].
  unfold bind at 1, adds at 1. unfold bind at 1, rd at 1, wr at 1. cbv zeta. unfold bind at 1.
  rewrite dtlb_page_fault_run. unfold supervisor. look.
  destruct (dtlb_allows _ _ _); [|reflexivity]. cbn [negb].
  rewrite <- phys_code, <- ok_offset0 by (lia || by apply typed_u32).
  by destruct through_dc.
Qed.

(** ** Refilling the TLB in software *)

Lemma lookup_way_none n va w mr (s : Sim) :
  lookup_way n va w mr s = None ->
  forall i, 0 <= i < Z.of_nat w -> tlb_match n va (s (SPR (mr + 256 * i))) = false.
Proof.
  revert mr. induction w as [|w IH]; intros mr H i Hi; [lia|]. cbn [lookup_way] in H.
  destruct (tlb_match n va (s (SPR mr))) eqn:E; [discriminate|].
  destruct (Z.eq_dec i 0) as [->|]; [by rewrite Z.mul_0_r, Z.add_0_r|].
  replace (mr + 256 * i) with (mr + 256 + 256 * (i - 1)) by lia. apply IH; [exact H | lia].
Qed.
Lemma lookup_way_only n va w mr (s : Sim) j :
  0 <= j < Z.of_nat w ->
  (forall i, 0 <= i < Z.of_nat w -> tlb_match n va (s (SPR (mr + 256 * i))) = (i =? j)) ->
  lookup_way n va w mr s = Some (mr + 256 * j).
Proof.
  revert mr j. induction w as [|w IH]; intros mr j Hj H; [lia|]. cbn [lookup_way].
  pose proof (H 0 ltac:(lia)) as H0. rewrite Z.mul_0_r, Z.add_0_r in H0. rewrite H0.
  destruct (Z.eqb_spec 0 j) as [<-|]; [f_equal; lia|].
  rewrite (IH (mr + 256) (j - 1)); [f_equal; lia | lia |]. intros i Hi.
  replace (mr + 256 + 256 * i) with (mr + 256 * (i + 1)) by lia. rewrite H by lia.
  destruct (Z.eqb_spec (i + 1) j), (Z.eqb_spec i (j - 1)); lia.
Qed.

(** The miss handler writes a match and a translate register of some way. *)
Definition refill (base k va way tr : Z) (s : Sim) : Sim :=
  let mr := set_reg base 13 k va + 256 * way in
  upd (SPR (mr + 128)) tr (upd (SPR mr) (va - va mod 2 ^ 13 + 1) s).

Lemma refill_lookup mmu base k va way tr s :
  (mmu = Immu \/ mmu = Dmmu) -> typed s -> mmu_ok mmu 13 k s -> 2048 <= base <= 8192 -> 0 <= va < 2 ^ 32 ->
  0 <= way < s (mmu M_nways) -> tlb_lookup mmu base 13 k va s = None ->
  tlb_lookup mmu base 13 k va (refill base k va way tr s) = Some (set_reg base 13 k va + 256 * way).
Proof.
  intros Hm Hty Hok Hb Hva Hw Hn. pose proof Hok as []. unfold tlb_lookup in *.
  assert (refill base k va way tr s (mmu M_nways) = s (mmu M_nways)) as ->.
  { unfold refill. cbv zeta. destruct Hm as [->| ->]; by rewrite !upd_ne by done. }
  apply lookup_way_only; [rewrite Z2Nat.id; lia|]. intros i Hi.
  pose proof (lookup_way_none _ _ _ _ _ Hn i Hi) as Hni. unfold refill. cbv zeta.
  rewrite upd_ne by (intros [=]; lia). rewrite upd_lookup. case_decide as E.
  - injection E as E. replace i with way by lia. rewrite Z.eqb_refl. cbn [ctype].
    pose proof (Z.div_mod va (2 ^ 13) ltac:(lia)). pose proof (Z.mod_pos_bound va (2 ^ 13) ltac:(lia)).
    assert (0 <= va / 2 ^ 13 < 2 ^ 19).
    { split; [apply Z.div_pos; lia | apply Z.div_lt_upper_bound; lia]. }
    replace (va - va mod 2 ^ 13 + 1) with (va / 2 ^ 13 * 2 ^ 13 + 1) by lia.
    rewrite u32_small by lia. unfold tlb_match.
    replace (va / 2 ^ 13 * 2 ^ 13 + 1) with (1 + 2 * (va / 2 ^ 13 * 2 ^ 12)) by lia.
    rewrite Z.bit0_odd, Z.odd_add_mul_2. cbn [Z.odd andb].
    rewrite !Z.pow_add_r, <- !Z.div_div by lia. apply Z.eqb_eq. f_equal.
    replace (1 + 2 * (va / 2 ^ 13 * 2 ^ 12)) with (1 + (va / 2 ^ 13) * 2 ^ 13) by lia.
    rewrite Z.div_add by lia. reflexivity.
  - rewrite Hni. symmetry. apply Z.eqb_neq. intros ->. by apply E.
Qed.

(** After a miss, writing the page number with the valid bit and a
    translate register to any way makes the next access to that page succeed
    with the physical page written, when its permission bit is set. *)
Theorem dtlb_refill k va way tr write s :
  typed s -> mmu_ok Dmmu 13 k s -> 0 <= va < 2 ^ 32 -> 0 <= tr < 2 ^ 32 -> dmmu_on s = true ->
  0 <= way < s (Dmmu M_nways) -> dtlb k va s = None -> dtlb_allows (supervisor s) write tr = true ->
  exists s', dmmu_translate va write (refill (SPR_DTLBMR_BASE 0) k va way tr s) = Ok (phys tr va) s' /\
    s' Data_ci = Z.land tr 2 /\ s' Except_pending = s Except_pending.
Proof.
  intros Hty Hok Hva Htr Hon Hw Hn Ha. set (s0 := refill _ _ _ _ _ s). pose proof Hok as [].
  pose proof (set_reg_range Dmmu (SPR_DTLBMR_BASE 0) k va s Hok) as Hr.
  change (SPR_DTLBMR_BASE 0) with 2560 in Hr.
  set (mr := set_reg (SPR_DTLBMR_BASE 0) 13 k va + 256 * way).
  assert (Hmr : 2560 <= mr < 12000) by (unfold mr; change (SPR_DTLBMR_BASE 0) with 2560; lia).
  assert (Hf : forall c, c <> SPR mr -> c <> SPR (mr + 128) -> s0 c = s c).
  { intros c ? ?. unfold s0, refill. cbv zeta. fold mr. by rewrite !upd_ne by congruence. }
  assert (Hspr : forall q, q < 2560 \/ 12288 <= q -> s0 (SPR q) = s (SPR q)).
  { intros q Hq. apply Hf; intros [=]; lia. }
  assert (Htr0 : s0 (SPR (mr + 128)) = tr).
  { unfold s0, refill. cbv zeta. fold mr. rewrite upd_eq. apply wrap_small, inty_U32. lia. }
  assert (Hok0 : mmu_ok Dmmu 13 k s0) by (split; rewrite ?Hf by done; assumption).
  assert (Hl0 : dtlb k va s0 = Some mr) by (apply refill_lookup; auto; closed_Z).
  assert (Hty0 : typed s0) by by repeat apply upd_typed.
  assert (Hbase : 2048 <= SPR_DTLBMR_BASE 0 <= 8192) by closed_Z.
  rewrite (dmmu_translate_on k); [| assumption.. |].
  2:{ unfold dmmu_on in *. by rewrite !Hspr by (left; closed_Z). }
  rewrite Hl0.
  destruct (hit_refines Dmmu St_dmmu_tlbhit Data_ci (SPR_DTLBMR_BASE 0) k va s0) with (hit := mr)
    (exc := EXCEPT_DPF) (fault := dtlb_page_fault (mr + 128) write) (allow := fun sm => dtlb_allows sm write)
    as (r & s' & E & Er & s1 & Hu & Hd); auto.
  - rewrite Htr0, Hspr by (left; closed_Z). unfold supervisor in Ha. congruence.
  - intros s2. apply dtlb_page_fault_run.
  - rewrite Htr0, (Hspr SPR_SR) in * by (left; closed_Z). change (Z.testbit (s (SPR SPR_SR)) 0) with (supervisor s) in Hd.
    rewrite Ha in Hd. subst r s'. exists s1. split; [exact E|]. destruct Hu as (Hci & _ & _ & _ & Hfr & _).
    split; [by rewrite Hci, Htr0|]. rewrite Hfr; [by apply Hf|]. intros [?|[?|[?|[q ?]]]]; discriminate.
Qed.

(** ** Configuration *)

Lemma log2_loop_spec fuel k c : (Z.to_nat k < fuel)%nat -> 0 <= k -> log2_loop fuel (2 ^ k) c = c + k.
Proof.
  revert k c. induction fuel as [|fuel IH]; intros k c Hf Hk; [lia|]. cbn [log2_loop].
  destruct (Z.eqb_spec (2 ^ k) 1) as [E|E].
  - assert (k = 0) as -> by (apply (Z.pow_inj_r 2); lia). lia.
  - assert (k <> 0) by (intros ->; by apply E).
    rewrite Z.shiftr_div_pow2 by lia. change (2 ^ 1) with 2.
    replace (2 ^ k) with (2 ^ (k - 1) * 2) by (rewrite Z.mul_comm, <- Z.pow_succ_r by lia; f_equal; lia).
    rewrite Z.div_mul, IH by lia. lia.
Qed.
Lemma log2_int_pow2 k : 0 <= k < 32 -> log2_int (2 ^ k) = k.
Proof.
  intros Hk. unfold log2_int. pose proof (Z.pow_le_mono_r 2 k 31 ltac:(lia) ltac:(lia)).
  assert (u64 (2 ^ k) = 2 ^ k) as -> by (apply wrap_small, inty_U64; lia).
  rewrite (proj2 (Z.eqb_neq (2 ^ k) 0)) by lia. rewrite log2_loop_spec by lia. lia.
Qed.

Lemma drop_zeros_spec fuel x : drop_zeros fuel x = 1 -> exists j, 0 <= j <= Z.of_nat fuel /\ x = 2 ^ j.
Proof.
  revert x. induction fuel as [|fuel IH]; intros x; cbn [drop_zeros].
  - intros ->. exists 0. lia.
  - change (Z.land x 1) with (Z.land x (2 ^ 0)). rewrite nz_land_bit, Z.bit0_odd by lia.
    destruct (Z.odd x) eqn:Ho; [intros ->; exists 0; lia|].
    intros H. apply IH in H as (j & Hj & E). exists (j + 1). split; [lia|].
    rewrite Z.pow_add_r by lia. rewrite <- E, Z.shiftr_div_pow2 by lia. change (2 ^ 1) with 2.
    pose proof (Z.div_mod x 2 ltac:(lia)). rewrite Zmod_odd, Ho in *. lia.
Qed.
Lemma is_power2_spec x : is_power2 x = true -> exists j, 0 <= j /\ x = 2 ^ j.
Proof.
  unfold is_power2. destruct (x =? 0); [discriminate|]. intros H%Z.eqb_eq%drop_zeros_spec.
  destruct H as (j & ? & ?). exists j. split; [lia | done].
Qed.

(** The parameters of the section "dmmu" of a configuration file. *)
Inductive dmmu_param :=
| Pm_enabled (v : Z) | Pm_nsets (v : Z) | Pm_nways (v : Z) | Pm_pagesize (v : Z) | Pm_entrysize (v : Z)
| Pm_ustates (v : Z) | Pm_missdelay (v : Z) | Pm_hitdelay (v : Z).
Definition dmmu_set (p : dmmu_param) : M unit :=
  match p with
  | Pm_enabled v => dmmu_enabled v | Pm_nsets v => dmmu_nsets v | Pm_nways v => dmmu_nways v
  | Pm_pagesize v => dmmu_pagesize v | Pm_entrysize v => dmmu_entrysize v | Pm_ustates v => dmmu_ustates v
  | Pm_missdelay v => dmmu_missdelay v | Pm_hitdelay v => dmmu_hitdelay v
  end.
Fixpoint dmmu_sets (ps : list dmmu_param) : M unit :=
  match ps with [] => ret tt | p :: ps => dmmu_set p;; dmmu_sets ps end.
Definition dmmu_section (ps : list dmmu_param) : M unit := dmmu_start_sec;; dmmu_sets ps;; dmmu_end_sec.

(** What the setters guarantee. *)
Definition dmmu_cfg (s : Sim) : Prop :=
  (exists p, 0 <= p <= 30 /\ s (Dmmu M_pagesize) = 2 ^ p) /\
  (exists k, 0 <= k <= 7 /\ s (Dmmu M_nsets) = 2 ^ k) /\ 1 <= s (Dmmu M_nways) <= 4.

Lemma dmmu_set_cfg p s :
  (forall v, p = Pm_pagesize v \/ p = Pm_nsets v -> inty I32 v) -> dmmu_cfg s ->
  wp (dmmu_set p) (fun _ => dmmu_cfg) s.
Proof.
  intros Hv ((pp & Hp & Ep) & (k & Hk & Ek) & Hw). unfold dmmu_cfg.
  destruct p as [v|v|v|v|v|v|v|v]; cbn [dmmu_set];
    unfold dmmu_enabled, dmmu_nsets, dmmu_nways, dmmu_pagesize, dmmu_entrysize, dmmu_ustates,
      dmmu_missdelay, dmmu_hitdelay; cbv zeta; wps; try (split_and!; eauto; lia).
  - apply andb_true_iff in H as [Hp2%is_power2_spec Hle%Z.leb_le]. destruct Hp2 as (j & Hj & ->).
    assert (j <= 7) by (apply (Z.pow_le_mono_r_iff 2); lia).
    rewrite s32_small by (pose proof (Z.pow_le_mono_r 2 j 7); lia). split_and!; eauto; lia.
  - apply andb_true_iff in H as [?%Z.leb_le ?%Z.leb_le]. rewrite s32_small by lia. split_and!; eauto; lia.
  - apply is_power2_spec in H as (j & Hj & ->). pose proof (Hv _ (or_introl eq_refl)) as Hr%inty_I32.
    assert (j < 31) by (apply (Z.pow_lt_mono_r_iff 2); lia). rewrite s32_small by lia.
    split_and!; eauto; try lia. exists j. split; [lia | done].
Qed.

Lemma dmmu_sets_cfg ps s :
  (forall v, Pm_pagesize v ∈ ps \/ Pm_nsets v ∈ ps -> inty I32 v) -> dmmu_cfg s ->
  wp (dmmu_sets ps) (fun _ => dmmu_cfg) s.
Proof.
  revert s. induction ps as [|p ps IH]; intros s Hv Hc; cbn [dmmu_sets]; [by apply wpx_ret|].
  apply wpx_bind. eapply wpx_mono; [apply dmmu_set_cfg; [|exact Hc] | done |].
  - intros v [->| ->]; apply Hv; [left | right]; apply list_elem_of_here.
  - intros u s' Hc'. apply IH; [|exact Hc']. intros v [Hin|Hin]; apply Hv; [left | right]; by apply list_elem_of_further.
Qed.

Lemma dmmu_start_cfg s : wp dmmu_start_sec (fun _ => dmmu_cfg) s.
Proof.
  unfold dmmu_start_sec. wps; unfold dmmu_cfg; look; split_and!; try done;
    [exists 13 | exists 0]; done.
Qed.

Lemma dmmu_end_ok p k (s : Sim) :
  0 <= p <= 30 -> 0 <= k <= 7 -> s (Dmmu M_pagesize) = 2 ^ p -> s (Dmmu M_nsets) = 2 ^ k ->
  1 <= s (Dmmu M_nways) <= 4 ->
  wpx dmmu_end_sec (fun w _ => w = Undefined /\ 31 <= p + k)
    (fun _ s' => p + k <= 30 /\ s' (Dmmu M_pagesize) = 2 ^ p /\ s' (Dmmu M_nsets) = 2 ^ k /\
       (8 <= p -> mmu_ok Dmmu p k s')) s.
Proof.
  intros Hp Hk Ep Ek Hw. unfold dmmu_end_sec. pose proof (Z.pow_le_mono_r 2 p 30 ltac:(lia) ltac:(lia)).
  pose proof (Z.pow_le_mono_r 2 k 7 ltac:(lia) ltac:(lia)).
  assert (Hpos : 0 < 2 ^ p /\ 0 < 2 ^ k) by lia. wps. rewrite Ep, Ek.
  unfold mul_int. rewrite <- Z.pow_add_r by lia.
  destruct (Z.lt_ge_cases (p + k) 31) as [Hs|Hs].
  - pose proof (Z.pow_lt_mono_r 2 (p + k) 31 ltac:(lia) ltac:(lia) Hs).
    rewrite (proj2 (Z.leb_le _ _)), (proj2 (Z.ltb_lt _ _)) by lia. cbn [andb]. wps.
    split; [lia|]. rewrite Ep, Ek. split; [done|]. split; [done|]. intros H8.
    split; look; try lia; rewrite ?log2_int_pow2 by lia; rewrite ?(s32_small p) by lia; try done.
    all: rewrite ?(u32_small (2 ^ p - 1)), ?(u32_small (2 ^ k - 1)) by lia.
    all: rewrite ?lnot_mask by lia; try (apply u32_small; lia); try lia.
    rewrite u32_small; [apply s32_small|].
    + pose proof (land_range_r 8 (Z.shiftl (2 ^ k - 1) 6) 0xc0 ltac:(lia) ltac:(lia)).
      change SPR_DTLBMR_LRU with 0xc0. lia.
    + rewrite Z.shiftl_mul_pow2 by lia. lia.
  - pose proof (Z.pow_le_mono_r 2 31 (p + k) ltac:(lia) Hs).
    rewrite (proj2 (Z.ltb_ge _ _)) by lia. rewrite andb_false_r. apply wpx_stop. split; [done | lia].
Qed.

(** Whatever sequence of parameters a configuration file gives, the data
    MMU ends up with masks for [2^k] sets of pages of [2^p] bytes and one to four
    ways (as the translation theorems assume), unless the sets span 2 GB or
    more, where the multiplication overflows [int]. *)
Theorem dmmu_section_ok ps s :
  (forall v, Pm_pagesize v ∈ ps \/ Pm_nsets v ∈ ps -> inty I32 v) ->
  exists p k, 0 <= p <= 30 /\ 0 <= k <= 7 /\
    match dmmu_section ps s with
    | Ok _ s' => p + k <= 30 /\ s' (Dmmu M_pagesize) = 2 ^ p /\ s' (Dmmu M_nsets) = 2 ^ k /\
                 (8 <= p -> mmu_ok Dmmu p k s')
    | Stop w _ => w = Undefined /\ 31 <= p + k
    end.
Proof.
  intros Hv. unfold dmmu_section.
  pose proof (dmmu_start_cfg s) as Hst. apply wp_ok in Hst as ([] & s1 & E1 & H1).
  pose proof (dmmu_sets_cfg ps s1 Hv H1) as Hse. apply wp_ok in Hse as ([] & s2 & E2 & H2).
  destruct H2 as ((p & Hp & Ep) & (k & Hk & Ek) & Hw). exists p, k. split; [exact Hp|]. split; [exact Hk|].
  unfold bind. rewrite E1, E2. exact (dmmu_end_ok p k s2 Hp Hk Ep Ek Hw).
Qed.

(** ** Witnesses *)

(** Both MMUs with 64 sets and 2 ways, translation on in supervisor mode; page
    0x4000 is mapped to 0x100000 in way 1 of both TLBs, not writable by users. *)
Definition ex_cfg : M unit :=
  dmmu_section [Pm_nsets 64; Pm_nsets 100; Pm_nways 2; Pm_enabled 1; Pm_hitdelay 0];;
  immu_start_sec;; immu_nsets 64;; immu_nways 2;; immu_enabled 1;; immu_hitdelay 0;; immu_end_sec;;
  wr (SPR SPR_SR) 0x8061.
Definition ex_mmu : Sim := state_of (ex_cfg zero_state).
Definition ex_tlb : Sim :=
  refill (SPR_DTLBMR_BASE 0) 6 0x4000 1 0x100342 (refill (SPR_ITLBMR_BASE 0) 6 0x4000 1 0x100042 ex_mmu).

Lemma ex_mmu_typed : typed ex_mmu.
Proof.
  assert (H : Respects keeps_typed ex_cfg).
  { unfold ex_cfg, dmmu_section, dmmu_start_sec, dmmu_end_sec, immu_start_sec, immu_end_sec, immu_nsets,
      immu_nways, immu_enabled, immu_hitdelay. cbn [dmmu_sets dmmu_set].
    unfold dmmu_nsets, dmmu_nways, dmmu_enabled, dmmu_hitdelay. respects. }
  exact (H zero_state zero_typed).
Qed.
Lemma ex_tlb_typed : typed ex_tlb.
Proof. unfold ex_tlb, refill. do 4 apply upd_typed. exact ex_mmu_typed. Qed.

Lemma ex_mmu_dok : mmu_ok Dmmu 13 6 ex_mmu.
Proof. split; closed_Z. Qed.
Lemma ex_tlb_dok : mmu_ok Dmmu 13 6 ex_tlb.
Proof. split; closed_Z. Qed.
Lemma ex_tlb_iok : mmu_ok Immu 13 6 ex_tlb.
Proof. split; closed_Z. Qed.

Lemma dmmu_translate_refines_witness :
  exists s', dmmu_translate 0x4008 true ex_tlb = Ok 0x100008 s' /\
    exists s1, tlb_used Dmmu (Stat St_dmmu_tlbhit) Data_ci (SPR_DTLBMR_BASE 0) 13 6 0x4008 2818 ex_tlb s1 /\ s' = s1.
Proof.
  destruct (dmmu_translate_refines 6 0x4008 true ex_tlb ex_tlb_typed ex_tlb_dok) as (r & s' & E & Hs);
    [lia | reflexivity | reflexivity | reflexivity |].
  change (dtlb 6 0x4008 ex_tlb) with (Some 2818) in Hs. cbv iota in Hs. destruct Hs as [-> Hs].
  exists s'. split; [exact E | exact Hs].
Defined.

Lemma immu_translate_refines_witness :
  exists s', immu_translate 0x6000 ex_tlb = Ok 0 s' /\
    exists s1 s2, missed Immu St_immu_tlbmiss ex_tlb s1 /\ entered EXCEPT_ITLBMISS 0x6000 s1 s2 /\
      frame pccr s2 s' /\ same_lists s2 s'.
Proof.
  destruct (immu_translate_refines 6 0x6000 ex_tlb ex_tlb_typed ex_tlb_iok) as (r & s' & E & Hs);
    [lia | reflexivity | reflexivity | reflexivity |].
  change (itlb 6 0x6000 ex_tlb) with (@None Z) in Hs. cbv iota in Hs. destruct Hs as [-> Hs].
  exists s'. split; [exact E | exact Hs].
Defined.

Lemma dmmu_translate_keeps_tlb_witness :
  exists r s', dmmu_translate 0x4008 true ex_tlb = Ok r s' /\ same_tlb Dmmu (SPR_DTLBMR_BASE 0) 6 ex_tlb s'.
Proof. apply (dmmu_translate_keeps_tlb 6 0x4008 true ex_tlb ex_tlb_typed ex_tlb_dok); first [reflexivity | lia]. Defined.

Lemma peek_into_dtlb_spec_witness :
  peek_into_dtlb 0x4008 false false ex_tlb = Ok 0x100008 (upd (Stat St_dmmu_tlbhit) 1 ex_tlb).
Proof.
  rewrite (peek_into_dtlb_spec 6 0x4008 false false ex_tlb ex_tlb_typed ex_tlb_dok) by first [lia | reflexivity].
  reflexivity.
Defined.

Lemma dtlb_refill_witness :
  exists s', dmmu_translate 0x6010 true (refill (SPR_DTLBMR_BASE 0) 6 0x6010 0 0x200200 ex_tlb) = Ok 0x200010 s' /\
    s' Data_ci = 0 /\ s' Except_pending = 0.
Proof.
  apply (dtlb_refill 6 0x6010 0 0x200200 true ex_tlb ex_tlb_typed ex_tlb_dok); first [reflexivity | closed_Z].
Defined.

Lemma dmmu_section_ok_witness :
  exists p k, 0 <= p <= 30 /\ 0 <= k <= 7 /\
    match dmmu_section [Pm_nsets 64; Pm_pagesize 4096] zero_state with
    | Ok _ s' => p + k <= 30 /\ s' (Dmmu M_pagesize) = 2 ^ p /\ s' (Dmmu M_nsets) = 2 ^ k /\
                 (8 <= p -> mmu_ok Dmmu p k s')
    | Stop w _ => w = Undefined /\ 31 <= p + k
    end.
Proof.
  apply (dmmu_section_ok [Pm_nsets 64; Pm_pagesize 4096] zero_state).
  intros v [H|H]; repeat (apply elem_of_cons in H as [H|H]; [inversion H; subst; closed_Z|]);
    by apply elem_of_nil in H.
Defined.

End Mmu.
