(* ===== verification/Dcache.v ===== *)
(** * The data cache (cache/dcache-model.c)

    A write-through cache with the words of each line kept in host order.  The
    main result is coherence: the cached words always are the memory's words, so
    an access through the cache has the effect of the access on memory. *)

From S2P Require Export Ram Mmu.

Module Dcache.
Import Except Tick Mem Ram Mmu.

Definition MAX_DC_SETS : Z := 1024.
Definition MAX_DC_WAYS : Z := 32.
Definition MIN_DC_BLOCK_SIZE : Z := 16.
Definition MAX_DC_BLOCK_SIZE : Z := 32.

(** Unsigned division: dividing by zero is undefined. *)
Definition udiv (a b : Z) : M Z := if u32 b =? 0 then stop_with Undefined else ret (a / u32 b).
Definition umod (a b : Z) : M Z := if u32 b =? 0 then stop_with Undefined else ret (a mod u32 b).

(** [fprintf (cur_area->log, ...)] when there is a log. *)
Definition log_read (addr v : Z) : M unit :=
  a ← gets (fun s => cur_area s ≫= (fun i => dev_list s !! i));
  match a with Some a => when (area_log a) (emit (Ev_log_read addr v)) | None => ret tt end.
Definition log_write (addr v : Z) : M unit :=
  a ← gets (fun s => cur_area s ≫= (fun i => dev_list s !! i));
  match a with Some a => when (area_log a) (emit (Ev_log_write addr v)) | None => ret tt end.

(** Set number and tag of an address. *)
Definition dc_set_of (dataaddr : Z) : M Z :=
  bs ← rd Dc_blocksize; ns ← rd Dc_nsets;
  q ← udiv dataaddr bs; r ← umod q ns; ret (s32 r).
Definition dc_tag_of (dataaddr : Z) : M Z :=
  bs ← rd Dc_blocksize; ns ← rd Dc_nsets;
  q ← udiv dataaddr bs; udiv q ns.

(** The scan for a matching way: the last match counts. *)
Fixpoint dc_find_way (set tagaddr : Z) (n : nat) (i way : Z) : M Z :=
  match n with
  | O => ret way
  | S n =>
      t ← rd (Dc_tagaddr set i);
      dc_find_way set tagaddr n (i + 1) (if t =? tagaddr then i else way)
  end.

(** A hit makes the way the most recently used one. *)
Definition dc_touch (set way : Z) : M unit :=
  nways ← rd Dc_nways;
  for_ (Z.to_nat nways) 0 1 (fun i =>
    a ← rd (Dc_lru set i); b ← rd (Dc_lru set way); when (b <? a) (adds (Dc_lru set i) (-1)));;
  ustates ← rd Dc_ustates;
  wr (Dc_lru set way) (ustates - 1).

(** The victim of a read miss, and of a write miss (which does not update
    [minlru] and so takes the last way below the maximum). *)
Fixpoint dc_min_way (set : Z) (n : nat) (i minlru minway : Z) : M Z :=
  match n with
  | O => ret minway
  | S n =>
      l ← rd (Dc_lru set i);
      if l <? minlru then dc_min_way set n (i + 1) l i else dc_min_way set n (i + 1) minlru minway
  end.
Fixpoint dc_last_way (set : Z) (n : nat) (i minlru minway : Z) : M Z :=
  match n with
  | O => ret minway
  | S n =>
      l ← rd (Dc_lru set i);
      dc_last_way set n (i + 1) minlru (if l <? minlru then i else minway)
  end.

(** The new line becomes the most recently used one. *)
Definition dc_age (set minway : Z) : M unit :=
  nways ← rd Dc_nways;
  for_ (Z.to_nat nways) 0 1 (fun i =>
    l ← rd (Dc_lru set i); when (nz l) (adds (Dc_lru set i) (-1)));;
  ustates ← rd Dc_ustates;
  wr (Dc_lru set minway) (ustates - 1).

(** Position of an address in its line. *)
Definition dc_word (dataaddr bs : Z) : Z := Z.shiftr (Z.land dataaddr (u32 (bs - 1))) 2.

(** The halfword or byte of a cached word, and a store into it. *)
Definition dc_extract (tmp dataaddr width : Z) : Z :=
  if width =? 4 then tmp
  else if width =? 2 then Z.land (Z.shiftr tmp (if nz (Z.land dataaddr 2) then 0 else 16)) 0xffff
  else if width =? 1 then Z.land (Z.shiftr tmp (8 * (3 - Z.land dataaddr 3))) 0xff
  else 0.
Definition dc_merge (tmp dataaddr data width : Z) : Z :=
  if width =? 4 then data
  else if width =? 2 then
    let tmp := Z.land tmp (u32 (Z.shiftl 0xffff (if nz (Z.land dataaddr 2) then 16 else 0))) in
    Z.lor tmp (u32 (Z.shiftl (Z.land data 0xffff) (if nz (Z.land dataaddr 2) then 0 else 16)))
  else if width =? 1 then
    let sh := 8 * (3 - Z.land dataaddr 3) in
    let tmp := Z.land tmp (u32 (Z.lnot (s32 (Z.shiftl 0xff sh)))) in
    Z.lor tmp (u32 (Z.shiftl (Z.land data 0xff) sh))
  else tmp.

Section Dcache.
Context `{Devices}.

(** The refill loops, from [i] on, [n] words; the result says that a word was
    outside all memory areas and the line was dropped. *)
Fixpoint dc_refill (log : bool) (dataaddr set minway bs : Z) (n : nat) (i : Z) : M bool :=
  match n with
  | O => ret false
  | S n =>
      tmp ← evalsim_mem32
        (u32 (Z.land dataaddr (u32 (Z.lnot (bs - 1))) +
              Z.land (u32 (Z.land dataaddr (u32 (Z.lnot 3)) + i)) (u32 (bs - 1)))) 0;
      wr (Dc_line set minway (dc_word (u32 (dataaddr + i)) bs)) tmp;;
      cur ← gets cur_area;
      match cur with
      | None => wr (Dc_tagaddr set minway) (-1);; wr (Dc_lru set minway) 0;; ret true
      | Some _ => when log (log_read dataaddr tmp);; dc_refill log dataaddr set minway bs n (i + 4)
      end
  end.
Definition refill_words (bs : Z) : nat := Z.to_nat ((bs + 3) / 4).

Definition dc_simulate_read (dataaddr virt_addr width : Z) : M Z :=
  dcp ← flag (SPR SPR_UPR) SPR_UPR_DCP;
  dce ← flag (SPR SPR_SR) SPR_SR_DCE;
  ci ← isset Data_ci;
  if negb dcp || negb dce || ci then
    tmp ← (if width =? 4 then evalsim_mem32 dataaddr virt_addr
           else if width =? 2 then evalsim_mem16 dataaddr virt_addr
           else if width =? 1 then evalsim_mem8 dataaddr virt_addr
           else ret 0);
    log_read dataaddr tmp;; ret tmp
  else
    set ← dc_set_of dataaddr;
    tagaddr ← dc_tag_of dataaddr;
    nways ← rd Dc_nways;
    way ← dc_find_way set tagaddr (Z.to_nat nways) 0 (-1);
    bs ← rd Dc_blocksize;
    if 0 <=? way then
      adds (Stat St_dc_readhit) 1;;
      dc_touch set way;;
      d ← rd Dc_load_hitdelay; adds Mem_cycles d;;
      tmp ← rd (Dc_line set way (dc_word dataaddr bs));
      ret (dc_extract tmp dataaddr width)
    else
      ustates ← rd Dc_ustates;
      adds (Stat St_dc_readmiss) 1;;
      minway ← dc_min_way set (Z.to_nat nways) 0 (ustates - 1) 0;
      dropped ← dc_refill true dataaddr set minway bs (refill_words bs) 0;
      if dropped : bool then ret 0
      else
        wr (Dc_tagaddr set minway) tagaddr;;
        dc_age set minway;;
        d ← rd Dc_load_missdelay; adds Mem_cycles d;;
        pcu ← isset Pcu_enabled;
        when pcu (pcu_count_event SPR_PCMR_DCM);;
        tmp ← rd (Dc_line set minway (dc_word dataaddr bs));
        ret (dc_extract tmp dataaddr width).

Definition dc_simulate_write (dataaddr virt_addr data width : Z) : M unit :=
  (if width =? 4 then setsim_mem32 dataaddr virt_addr data
   else if width =? 2 then setsim_mem16 dataaddr virt_addr data
   else if width =? 1 then setsim_mem8 dataaddr virt_addr data
   else ret tt);;
  dcp ← flag (SPR SPR_UPR) SPR_UPR_DCP;
  dce ← flag (SPR SPR_SR) SPR_SR_DCE;
  ci ← isset Data_ci;
  cur ← gets cur_area;
  if negb dcp || negb dce || ci || (match cur with None => true | Some _ => false end) then ret tt
  else
    set ← dc_set_of dataaddr;
    tagaddr ← dc_tag_of dataaddr;
    nways ← rd Dc_nways;
    way ← dc_find_way set tagaddr (Z.to_nat nways) 0 (-1);
    bs ← rd Dc_blocksize;
    if 0 <=? way then
      adds (Stat St_dc_writehit) 1;;
      dc_touch set way;;
      d ← rd Dc_store_hitdelay; adds Mem_cycles d;;
      tmp ← rd (Dc_line set way (dc_word dataaddr bs));
      wr (Dc_line set way (dc_word dataaddr bs)) (dc_merge tmp dataaddr data width)
    else
      ustates ← rd Dc_ustates;
      adds (Stat St_dc_writemiss) 1;;
      minway ← dc_last_way set (Z.to_nat nways) 0 (ustates - 1) 0;
      dropped ← dc_refill false dataaddr set minway bs (refill_words bs) 0;
      if dropped : bool then ret tt
      else
        wr (Dc_tagaddr set minway) tagaddr;;
        dc_age set minway;;
        d ← rd Dc_store_missdelay; adds Mem_cycles d;;
        pcu ← isset Pcu_enabled;
        when pcu (pcu_count_event SPR_PCMR_DCM).

Definition dc_inv (dataaddr : Z) : M unit :=
  dcp ← flag (SPR SPR_UPR) SPR_UPR_DCP;
  if negb dcp then ret tt
  else
    set ← dc_set_of dataaddr;
    tagaddr ← dc_tag_of dataaddr;
    dce ← flag (SPR SPR_SR) SPR_SR_DCE;
    nways ← rd Dc_nways;
    if negb dce then
      for_ (Z.to_nat nways) 0 1 (fun i => wr (Dc_tagaddr set i) (-1);; wr (Dc_lru set i) 0)
    else
      way ← dc_find_way set tagaddr (Z.to_nat nways) 0 (-1);
      when (0 <=? way) (wr (Dc_tagaddr set way) (-1);; wr (Dc_lru set way) 0).
End Dcache.

(** ** Configuration *)

Definition dc_enabled (val : Z) : M unit :=
  (if nz val then ors (SPR SPR_UPR) SPR_UPR_DCP else clr (SPR SPR_UPR) SPR_UPR_DCP);;
  wr Dc_enabled val.
Definition dc_nsets (val : Z) : M unit :=
  when (is_power2 val && (val <=? MAX_DC_SETS))
    (let set_bits := log2_int val in
     wr Dc_nsets val;;
     clr (SPR SPR_DCCFGR) SPR_DCCFGR_NCS;;
     ors (SPR SPR_DCCFGR) (Z.shiftl set_bits SPR_DCCFGR_NCS_OFF)).
Definition dc_nways (val : Z) : M unit :=
  when (is_power2 val && (val <=? MAX_DC_WAYS))
    (let way_bits := log2_int val in
     wr Dc_nways val;;
     clr (SPR SPR_DCCFGR) SPR_DCCFGR_NCW;;
     ors (SPR SPR_DCCFGR) (Z.shiftl way_bits SPR_DCCFGR_NCW_OFF)).
Definition dc_blocksize (val : Z) : M unit :=
  switch val
    [ ([MIN_DC_BLOCK_SIZE], wr Dc_blocksize val;; clr (SPR SPR_DCCFGR) SPR_DCCFGR_CBS);
      ([MAX_DC_BLOCK_SIZE], wr Dc_blocksize val;; ors (SPR SPR_DCCFGR) SPR_DCCFGR_CBS) ]
    (ret tt).
Definition dc_ustates (val : Z) : M unit :=
  when ((2 <=? val) && (val <=? 4)) (wr Dc_ustates val).
Definition dc_load_hitdelay (val : Z) : M unit := wr Dc_load_hitdelay val.
Definition dc_load_missdelay (val : Z) : M unit := wr Dc_load_missdelay val.
Definition dc_store_hitdelay (val : Z) : M unit := wr Dc_store_hitdelay val.
Definition dc_store_missdelay (val : Z) : M unit := wr Dc_store_missdelay val.

(** ** Bytes of a word *)

Definition be4 (b0 b1 b2 b3 : Z) : Z := b0 * 2 ^ 24 + b1 * 2 ^ 16 + b2 * 2 ^ 8 + b3.
Definition is_byte (b : Z) : Prop := 0 <= b < 2 ^ 8.

Lemma land_a2 a : Z.land a 2 = Z.land (a mod 4) 2.
Proof. change 4 with (2 ^ 2). rewrite <- land_low, <- Z.land_assoc by lia. reflexivity. Qed.
Lemma land_a3 a : Z.land a 3 = a mod 4.
Proof. change 3 with (2 ^ 2 - 1). by rewrite land_low by lia. Qed.

Lemma word_half b0 b1 b2 b3 a :
  is_byte b0 -> is_byte b1 -> is_byte b2 -> is_byte b3 -> a mod 4 = 0 \/ a mod 4 = 2 ->
  dc_extract (be4 b0 b1 b2 b3) a 2 = if a mod 4 =? 0 then b0 * 2 ^ 8 + b1 else b2 * 2 ^ 8 + b3.
Proof.
  unfold is_byte, dc_extract. intros H0 H1 H2 H3 Ha. cbn [Z.eqb Pos.eqb]. rewrite land_a2.
  change 0xffff with (2 ^ 16 - 1). rewrite land_low by lia.
  destruct Ha as [->| ->]; [change (nz (Z.land 0 2)) with false | change (nz (Z.land 2 2)) with true];
    cbv iota; cbn [Z.eqb]; rewrite Z.shiftr_div_pow2 by lia; unfold be4.
  - symmetry. replace (b0 * 2 ^ 24 + b1 * 2 ^ 16 + b2 * 2 ^ 8 + b3) with ((b2 * 2 ^ 8 + b3) + (b0 * 2 ^ 8 + b1) * 2 ^ 16) by lia.
    rewrite Z.div_add, (Z.div_small (b2 * 2 ^ 8 + b3)), Z.mod_small by lia. lia.
  - change (2 ^ 0) with 1. rewrite Z.div_1_r.
    replace (b0 * 2 ^ 24 + b1 * 2 ^ 16 + b2 * 2 ^ 8 + b3) with ((b2 * 2 ^ 8 + b3) + (b0 * 2 ^ 8 + b1) * 2 ^ 16) by lia.
    rewrite Z.mod_add, Z.mod_small by lia. reflexivity.
Qed.

Lemma word_byte b0 b1 b2 b3 a :
  is_byte b0 -> is_byte b1 -> is_byte b2 -> is_byte b3 ->
  dc_extract (be4 b0 b1 b2 b3) a 1 =
    if a mod 4 =? 0 then b0 else if a mod 4 =? 1 then b1 else if a mod 4 =? 2 then b2 else b3.
Proof.
  unfold is_byte, dc_extract. intros H0 H1 H2 H3. cbn [Z.eqb Pos.eqb]. rewrite land_a3.
  change 0xff with (2 ^ 8 - 1). rewrite land_low by lia. pose proof (Z.mod_pos_bound a 4 ltac:(lia)).
  rewrite Z.shiftr_div_pow2 by lia. unfold be4.
  assert (Hm : forall n hi lo b, 0 <= n -> 0 <= lo < 2 ^ n -> 0 <= b < 2 ^ 8 ->
    ((lo + (b + hi * 2 ^ 8) * 2 ^ n) / 2 ^ n) mod 2 ^ 8 = b).
  { intros n hi lo b Hn Hlo Hb. rewrite Z.div_add, (Z.div_small lo) by lia.
    rewrite Z.add_0_l, Z.mod_add by lia. apply Z.mod_small. lia. }
  assert (a mod 4 = 0 \/ a mod 4 = 1 \/ a mod 4 = 2 \/ a mod 4 = 3) as [->|[->|[->| ->]]] by lia; cbn [Z.eqb Pos.eqb].
  - change (8 * (3 - 0)) with 24. etransitivity; [|apply (Hm 24 0 (b1 * 2 ^ 16 + b2 * 2 ^ 8 + b3) b0); lia]. f_equal. f_equal. lia.
  - change (8 * (3 - 1)) with 16. etransitivity; [|apply (Hm 16 b0 (b2 * 2 ^ 8 + b3) b1); lia]. f_equal. f_equal. lia.
  - change (8 * (3 - 2)) with 8. etransitivity; [|apply (Hm 8 (b0 * 2 ^ 8 + b1) b3 b2); lia]. f_equal. f_equal. lia.
  - change (8 * (3 - 3)) with 0. etransitivity; [|apply (Hm 0 (b0 * 2 ^ 16 + b1 * 2 ^ 8 + b2) 0 b3); lia]. f_equal. f_equal. lia.
Qed.

(** Byte [k] of a word after a store of [w] bytes at offset [p]. *)
Definition new_byte (p data w k b : Z) : Z :=
  if (p <=? k) && (k <? p + w) then u8 (Z.shiftr data (8 * (w - 1 - (k - p)))) else b.

Lemma data_bytes data :
  0 <= data < 2 ^ 32 ->
  u8 (Z.shiftr data 0) = data mod 2 ^ 8 /\
  u8 (Z.shiftr data 8) * 2 ^ 8 + u8 (Z.shiftr data 0) = data mod 2 ^ 16 /\
  be4 (u8 (Z.shiftr data 24)) (u8 (Z.shiftr data 16)) (u8 (Z.shiftr data 8)) (u8 (Z.shiftr data 0)) = data.
Proof.
  intros Hd. destruct (bytes_val data) as (H1 & H2 & H3). rewrite Z.shiftr_0_r, !Z.shiftr_div_pow2 by lia.
  rewrite !Z.div_div in H3 by lia. change (256 * (256 * 256)) with (2 ^ 24) in H3. change (256 * 256 * 256) with (2 ^ 24) in H3.
  change (256 * 256) with (2 ^ 16) in H3. change 256 with (2 ^ 8) in H3.
  unfold be4. split_and!; [exact H1 | exact H2 |]. rewrite u32_small in H3 by lia. lia.
Qed.

(** A field of the word is replaced: [v] for the [m] bits at bit [n]. *)
Ltac field n m hi mid lo v :=
  let s := eval vm_compute in (n + m) in
  transitivity (Z.lor (Z.land (hi * 2 ^ s + mid * 2 ^ n + lo) (Z.ldiff (2 ^ 32 - 1) ((2 ^ m - 1) * 2 ^ n))) (v * 2 ^ n));
  [ f_equal; [ f_equal; first [vm_compute; reflexivity | unfold be4; lia]
             | change (nz (Z.land 0 2)) with false; change (nz (Z.land 2 2)) with true; cbv iota;
               rewrite ?Z.shiftl_mul_pow2 by lia; apply u32_small; lia ]
  | rewrite (set_field n m s) by lia;
    repeat match goal with |- context [8 * ?e] => let x := eval vm_compute in (8 * e) in change (8 * e) with x end;
    repeat match goal with |- context [?x <? ?y] => let b := eval vm_compute in (x <? y) in change (x <? y) with b end;
    cbv iota; unfold be4; lia ].

Lemma dc_merge_spec b0 b1 b2 b3 a data w :
  is_byte b0 -> is_byte b1 -> is_byte b2 -> is_byte b3 -> 0 <= data < 2 ^ 32 ->
  w = 1 \/ w = 2 \/ w = 4 -> a mod 4 mod w = 0 ->
  let nb := new_byte (a mod 4) data w in
  dc_merge (be4 b0 b1 b2 b3) a data w = be4 (nb 0 b0) (nb 1 b1) (nb 2 b2) (nb 3 b3).
Proof.
  intros H0 H1 H2 H3 Hd Hw Ha. cbv zeta. unfold is_byte in *.
  destruct (data_bytes data Hd) as (E8 & E16 & E32). pose proof (Z.mod_pos_bound a 4 ltac:(lia)).
  pose proof (Z.mod_pos_bound data (2 ^ 8) ltac:(lia)). pose proof (Z.mod_pos_bound data (2 ^ 16) ltac:(lia)).
  unfold dc_merge. rewrite land_a2, land_a3. change 0xffff with (2 ^ 16 - 1) at 2. change 0xff with (2 ^ 8 - 1) at 2.
  rewrite !land_low by lia. rewrite !(Z.shiftl_mul_pow2 (data mod _)) by (destruct (nz _); lia).
  assert (Hp : a mod 4 = 0 \/ a mod 4 = 1 \/ a mod 4 = 2 \/ a mod 4 = 3) by lia.
  destruct Hw as [->|[->| ->]], Hp as [Ep|[Ep|[Ep|Ep]]]; rewrite Ep in *; try discriminate Ha;
    unfold new_byte; cbn [Z.eqb Pos.eqb Z.leb Z.ltb Z.compare Pos.compare Pos.compare_cont andb].
  - field 24 8 0 b0 (b1 * 2 ^ 16 + b2 * 2 ^ 8 + b3) (data mod 2 ^ 8).
  - field 16 8 b0 b1 (b2 * 2 ^ 8 + b3) (data mod 2 ^ 8).
  - field 8 8 (b0 * 2 ^ 8 + b1) b2 b3 (data mod 2 ^ 8).
  - field 0 8 (b0 * 2 ^ 16 + b1 * 2 ^ 8 + b2) b3 0 (data mod 2 ^ 8).
  - field 16 16 0 (b0 * 2 ^ 8 + b1) (b2 * 2 ^ 8 + b3) (data mod 2 ^ 16).
  - field 0 16 (b0 * 2 ^ 8 + b1) (b2 * 2 ^ 8 + b3) 0 (data mod 2 ^ 16).
  - symmetry. exact E32.
Qed.

(** ** Typing *)

#[export] Hint Opaque udiv umod log_read log_write dc_set_of dc_tag_of dc_find_way dc_touch dc_min_way dc_last_way
  dc_age dc_refill dc_simulate_read dc_simulate_write dc_inv : typeclass_instances.
#[export] Instance udiv_typed R `{!Enters R} a b : Respects R (udiv a b).
Proof. unfold udiv. respects. Qed.
#[export] Instance umod_typed R `{!Enters R} a b : Respects R (umod a b).
Proof. unfold umod. respects. Qed.
#[export] Instance log_read_typed R `{!Enters R} a v : Respects R (log_read a v).
Proof. unfold log_read. respects. Qed.
#[export] Instance log_write_typed R `{!Enters R} a v : Respects R (log_write a v).
Proof. unfold log_write. respects. Qed.
#[export] Instance dc_set_of_typed R `{!Enters R} a : Respects R (dc_set_of a).
Proof. unfold dc_set_of. respects. Qed.
#[export] Instance dc_tag_of_typed R `{!Enters R} a : Respects R (dc_tag_of a).
Proof. unfold dc_tag_of. respects. Qed.
#[export] Instance dc_find_way_typed R `{!Enters R} set t n i way : Respects R (dc_find_way set t n i way).
Proof. revert i way. induction n as [|n IH]; intros i way; cbn [dc_find_way]; respects. Qed.
#[export] Instance dc_min_way_typed R `{!Enters R} set n i m w : Respects R (dc_min_way set n i m w).
Proof. revert i m w. induction n as [|n IH]; intros i m w; cbn [dc_min_way]; respects. Qed.
#[export] Instance dc_last_way_typed R `{!Enters R} set n i m w : Respects R (dc_last_way set n i m w).
Proof. revert i w. induction n as [|n IH]; intros i w; cbn [dc_last_way]; respects. Qed.
#[export] Instance dc_touch_typed R `{!Enters R} set w : Respects R (dc_touch set w).
Proof. unfold dc_touch. respects. Qed.
#[export] Instance dc_age_typed R `{!Enters R} set w : Respects R (dc_age set w).
Proof. unfold dc_age. respects. Qed.
#[export] Instance dc_refill_typed R `{!Enters R} `{Devices} l a set m bs n i : Respects R (dc_refill l a set m bs n i).
Proof. revert i. induction n as [|n IH]; intros i; cbn [dc_refill]; respects. Qed.
#[export] Instance dc_simulate_read_typed R `{!Enters R} `{Devices} a v w : Respects R (dc_simulate_read a v w).
Proof. unfold dc_simulate_read. respects. Qed.
#[export] Instance dc_simulate_write_typed R `{!Enters R} `{Devices} a v d w : Respects R (dc_simulate_write a v d w).
Proof. unfold dc_simulate_write. respects. Qed.
#[export] Instance dc_inv_typed R `{!Enters R} a : Respects R (dc_inv a).
Proof. unfold dc_inv. respects. Qed.

(** ** The cache's configuration and addresses *)

Record dc_cfg (bs ns : Z) (s : Sim) : Prop := {
  c_bs : s Dc_blocksize = bs; c_bs_val : bs = 16 \/ bs = 32;
  c_ns : s Dc_nsets = ns; c_ns_val : 1 <= ns <= 1024;
  c_nways : 1 <= s Dc_nways <= 32; c_ustates : 2 <= s Dc_ustates <= 4 }.

(** Set and tag of an address, and the first address of a cached line. *)
Definition set_of (bs ns a : Z) : Z := a / bs mod ns.
Definition tag_of (bs ns a : Z) : Z := a / bs / ns.
Definition line_addr (bs ns set tag : Z) : Z := (tag * ns + set) * bs.

Lemma dc_set_run bs ns a s :
  dc_cfg bs ns s -> 0 <= a < 2 ^ 32 -> dc_set_of a s = Ok (set_of bs ns a) s.
Proof.
  intros [] Ha. unfold dc_set_of, bind, rd, udiv, umod. rewrite c_bs0, c_ns0.
  rewrite !u32_small by lia. rewrite (proj2 (Z.eqb_neq bs 0)) by lia. unfold ret.
  rewrite (proj2 (Z.eqb_neq ns 0)) by lia. unfold set_of.
  pose proof (Z.mod_pos_bound (a / bs) ns ltac:(lia)). by rewrite s32_small by lia.
Qed.
Lemma dc_tag_run bs ns a s :
  dc_cfg bs ns s -> 0 <= a < 2 ^ 32 -> dc_tag_of a s = Ok (tag_of bs ns a) s.
Proof.
  intros [] Ha. unfold dc_tag_of, bind, rd, udiv. rewrite c_bs0, c_ns0.
  rewrite !u32_small by lia. rewrite (proj2 (Z.eqb_neq bs 0)) by lia. unfold ret.
  by rewrite (proj2 (Z.eqb_neq ns 0)) by lia.
Qed.

Lemma set_of_range bs ns a : 1 <= ns -> 0 <= set_of bs ns a < ns.
Proof. intros. apply Z.mod_pos_bound. lia. Qed.
Lemma tag_of_range bs ns a : 1 <= bs -> 1 <= ns -> 0 <= a < 2 ^ 32 -> 0 <= tag_of bs ns a < 2 ^ 32.
Proof.
  intros Hb Hn Ha. unfold tag_of. split; [apply Z.div_pos; [apply Z.div_pos|]; lia|].
  apply Z.div_lt_upper_bound; [lia|]. apply Z.div_lt_upper_bound; [lia|]. nia.
Qed.
Lemma line_addr_of bs ns a :
  1 <= bs -> 1 <= ns -> line_addr bs ns (set_of bs ns a) (tag_of bs ns a) = a - a mod bs.
Proof.
  intros. unfold line_addr, set_of, tag_of. pose proof (Z.div_mod (a / bs) ns ltac:(lia)).
  pose proof (Z.div_mod a bs ltac:(lia)). nia.
Qed.

(** Position of the word [m] words after [a]'s in [a]'s line, cyclically. *)
Definition word_at (bs a m : Z) : Z := (a / 4 + m) mod (bs / 4).

Lemma word_at_range bs a m : bs = 16 \/ bs = 32 -> 0 <= word_at bs a m < bs / 4.
Proof. intros [->| ->]; apply Z.mod_pos_bound; reflexivity. Qed.

Lemma dc_word_at bs a m :
  bs = 16 \/ bs = 32 -> 0 <= a -> 0 <= m -> dc_word (u32 (a + 4 * m)) bs = word_at bs a m.
Proof.
  intros Hb Ha Hm. unfold dc_word, word_at. rewrite Z.shiftr_div_pow2 by lia.
  assert (H : exists b, 2 <= b <= 32 /\ bs = 2 ^ b) by (destruct Hb as [->| ->]; [exists 4 | exists 5]; lia).
  destruct H as (b & Hbr & ->). pose proof (Z.pow_le_mono_r 2 2 b ltac:(lia) ltac:(lia)).
  assert (E4 : 2 ^ b = 4 * 2 ^ (b - 2)).
  { replace b with (2 + (b - 2)) at 1 by lia. rewrite Z.pow_add_r by lia. reflexivity. }
  rewrite (u32_small (2 ^ b - 1)) by (destruct Hb as [->| ->]; lia).
  rewrite land_low by lia. rewrite u32_eq.
  rewrite (Z.mod_mod_divide _ (2 ^ 32) (2 ^ b)) by (exists (2 ^ (32 - b)); rewrite <- Z.pow_add_r by lia; f_equal; lia).
  change (2 ^ 2) with 4. rewrite E4. rewrite (Z.mul_comm 4 (2 ^ (b - 2))) at 2. rewrite Z.div_mul by lia.
  rewrite Z.rem_mul_r, (Z.mul_comm 4 m), (Z.mul_comm 4 (_ mod _)) by lia.
  rewrite (Z.div_add _ ((a + m * 4) / 4 mod 2 ^ (b - 2)) 4) by lia.
  rewrite (Z.div_small ((a + m * 4) mod 4)) by (apply Z.mod_pos_bound; lia). rewrite Z.add_0_l.
  by rewrite Z.div_add by lia.
Qed.

(** The address the refill loop reads. *)
Lemma refill_addr bs a m :
  bs = 16 \/ bs = 32 -> 0 <= a < 2 ^ 32 -> 0 <= m <= 8 ->
  u32 (Z.land a (u32 (Z.lnot (bs - 1))) + Z.land (u32 (Z.land a (u32 (Z.lnot 3)) + 4 * m)) (u32 (bs - 1)))
    = a - a mod bs + 4 * word_at bs a m.
Proof.
  intros Hb Ha Hm. pose proof (word_at_range bs a m Hb) as Hw.
  assert (H : exists b, 2 <= b <= 31 /\ bs = 2 ^ b) by (destruct Hb as [->| ->]; [exists 4 | exists 5]; lia).
  destruct H as (b & Hbr & E). pose proof (Z.pow_le_mono_r 2 2 b ltac:(lia) ltac:(lia)).
  assert (E4 : 2 ^ b = 4 * 2 ^ (b - 2)).
  { replace b with (2 + (b - 2)) at 1 by lia. rewrite Z.pow_add_r by lia. reflexivity. }
  rewrite E in *. rewrite lnot_mask by lia. change (Z.lnot 3) with (Z.lnot (2 ^ 2 - 1)). rewrite lnot_mask by lia.
  rewrite !land_high by lia. rewrite (u32_small (2 ^ b - 1)) by (destruct Hb as [->| ->]; lia).
  rewrite land_low by lia. rewrite (u32_eq (a - a mod 2 ^ 2 + 4 * m)).
  rewrite (Z.mod_mod_divide _ (2 ^ 32) (2 ^ b)) by (exists (2 ^ (32 - b)); rewrite <- Z.pow_add_r by lia; f_equal; lia).
  assert (Em : (a - a mod 2 ^ 2 + 4 * m) mod 2 ^ b = 4 * word_at (2 ^ b) a m).
  { unfold word_at. rewrite E4 at 2. rewrite (Z.mul_comm 4 (2 ^ (b - 2))). rewrite Z.div_mul by lia.
    pose proof (Z.div_mod a 4 ltac:(lia)). change (2 ^ 2) with 4.
    replace (a - a mod 4 + 4 * m) with (4 * (a / 4 + m)) by lia. rewrite E4. apply Z.mul_mod_distr_l; lia. }
  rewrite Em. apply u32_small.
  assert (Hq : 2 ^ b / 4 * 4 = 2 ^ b) by (rewrite E4, (Z.mul_comm 4), Z.div_mul by lia; lia).
  pose proof (Z.div_mod a (2 ^ b) ltac:(lia)). pose proof (Z.mod_pos_bound a (2 ^ b) ltac:(lia)).
  assert (a / 2 ^ b < 2 ^ (32 - b)).
  { apply Z.div_lt_upper_bound; [lia|]. rewrite <- Z.pow_add_r by lia. replace (b + (32 - b)) with 32 by lia. lia. }
  assert (2 ^ b * 2 ^ (32 - b) = 2 ^ 32) by (rewrite <- Z.pow_add_r by lia; f_equal; lia). nia.
Qed.

(** Every word of the line is reached. *)
Lemma word_at_onto bs a j : bs = 16 \/ bs = 32 -> 0 <= j < bs / 4 -> exists m, 0 <= m < bs / 4 /\ word_at bs a m = j.
Proof.
  intros Hb Hj. exists ((j - a / 4) mod (bs / 4)). assert (0 < bs / 4) by (destruct Hb as [->| ->]; reflexivity).
  split; [apply Z.mod_pos_bound; lia|]. unfold word_at. rewrite Zplus_mod_idemp_r.
  replace (a / 4 + (j - a / 4)) with j by lia. apply Z.mod_small. lia.
Qed.

(** ** The loops over the ways *)

Lemma dc_find_run set t n i way (s : Sim) :
  exists r, dc_find_way set t n i way s = Ok r s /\
    ((i <= r < i + Z.of_nat n /\ s (Dc_tagaddr set r) = t) \/
     (r = way /\ forall j, i <= j < i + Z.of_nat n -> s (Dc_tagaddr set j) <> t)).
Proof.
  revert i way. induction n as [|n IH]; intros i way; cbn [dc_find_way].
  - exists way. split; [done|]. right. split; [done | lia].
  - unfold bind, rd. destruct (Z.eqb_spec (s (Dc_tagaddr set i)) t) as [E|E].
    + destruct (IH (i + 1) i) as (r & Er & [[Hr Ht]|[-> Hn]]).
      * exists r. split; [exact Er|]. left. split; [lia | done].
      * exists i. split; [exact Er|]. left. split; [lia | done].
    + destruct (IH (i + 1) way) as (r & Er & [[Hr Ht]|[-> Hn]]).
      * exists r. split; [exact Er|]. left. split; [lia | done].
      * exists way. split; [exact Er|]. right. split; [done|]. intros j Hj.
        destruct (Z.eq_dec j i) as [->|]; [done | apply Hn; lia].
Qed.
Lemma dc_min_run set n i minlru minway (s : Sim) :
  exists r, dc_min_way set n i minlru minway s = Ok r s /\ (r = minway \/ i <= r < i + Z.of_nat n).
Proof.
  revert i minlru minway. induction n as [|n IH]; intros i minlru minway; cbn [dc_min_way]; [eauto|].
  unfold bind, rd. destruct (_ <? _); [destruct (IH (i + 1) (s (Dc_lru set i)) i) as (r & E & Hr)
    | destruct (IH (i + 1) minlru minway) as (r & E & Hr)]; exists r; (split; [exact E | lia]).
Qed.
Lemma dc_last_run set n i minlru minway (s : Sim) :
  exists r, dc_last_way set n i minlru minway s = Ok r s /\ (r = minway \/ i <= r < i + Z.of_nat n).
Proof.
  revert i minway. induction n as [|n IH]; intros i minway; cbn [dc_last_way]; [eauto|].
  unfold bind, rd. destruct (IH (i + 1) (if s (Dc_lru set i) <? minlru then i else minway)) as (r & E & Hr).
  exists r. split; [exact E|]. destruct (_ <? _); lia.
Qed.

(** Cells that do not bear on what the cache holds. *)
Definition quiet (c : cell) : Prop :=
  match c with
  | Stat _ | Dc_lru _ _ | G (Mem_cycles | Cur_vadd | Breakpoint) => true
  | SPR q => 12288 <=? q
  | _ => false
  end = true.
Definition calm (s s' : Sim) : Prop := frame quiet s s' /\ same_lists s s' /\ (typed s -> typed s').

(** The cells an access through the cache may change besides memory. *)
Definition dc_cells (c : cell) : Prop :=
  quiet c \/ (exists i w j, c = Dc_line i w j) \/ (exists i w, c = Dc_tagaddr i w).
Lemma calm_cells s s' : calm s s' -> frame dc_cells s s'.
Proof. intros (Hf & _) c Hc. apply Hf. intros Hq. apply Hc. by left. Qed.

#[export] Instance calm_preorder : PreOrder calm.
Proof.
  split; [by intros s; split_and!; [reflexivity..|]|]. intros x y z (F1 & L1 & T1) (F2 & L2 & T2).
  split_and!; [by etransitivity | by etransitivity | auto].
Qed.
Lemma calm_respects {A} (m : M A) :
  Respects (frame quiet) m -> Respects same_lists m -> Respects keeps_typed m -> Respects calm m.
Proof. intros H1 H2 H3 s. split_and!; [apply H1 | apply H2 | apply H3]. Qed.

#[export] Instance dc_touch_calm set way : Respects calm (dc_touch set way).
Proof. apply calm_respects; unfold dc_touch; respects. Qed.
#[export] Instance dc_age_calm set way : Respects calm (dc_age set way).
Proof. apply calm_respects; unfold dc_age; respects. Qed.

Lemma dc_touch_run set way s : exists s', dc_touch set way s = Ok tt s' /\ calm s s'.
Proof.
  destruct (total_respects calm (dc_touch set way) s) as ([] & s' & H); [unfold dc_touch; total | apply _ | eauto].
Qed.
Lemma dc_age_run set way s : exists s', dc_age set way s = Ok tt s' /\ calm s s'.
Proof.
  destruct (total_respects calm (dc_age set way) s) as ([] & s' & H); [unfold dc_age; total | apply _ | eauto].
Qed.
Lemma pcu_calm e s : typed s -> exists s', pcu_count_event e s = Ok tt s' /\ calm s s'.
Proof.
  intros Hty. pose proof (pcu_count_run e s Hty) as Hwp. apply wp_ok in Hwp as ([] & s' & E & Hf & Hl & Ht).
  exists s'. split; [exact E|]. split_and!; [|exact Hl | auto]. intros c Hc. apply Hf. intros (i & Hi & ->).
  apply Hc. unfold quiet, SPR_PCCR. change SPRGROUP_PC with 14336. apply Z.leb_le. lia.
Qed.

Lemma calm_rest s s' : ram_ok s -> calm s s' -> mem_rest s s'.
Proof.
  intros Hok (Hf & Hl & _). destruct Hl as (_ & _ & H3 & H4 & H5 & H6 & _). split; try done.
  - intros b i. apply Hf. discriminate.
  - rewrite H5. by destruct Hok as [(_ & _ & _ & H) _ _].
Qed.

(** The cells the coherence of the cache is about. *)
Definition cache_cell (c : cell) : Prop :=
  match c with Cfg _ | Dc_line _ _ _ | Dc_tagaddr _ _ | Mem _ _ => true | _ => false end = true.
Lemma frame_cfg (W : cell -> Prop) bs ns s s' :
  frame W s s' -> (forall c, W c -> ~ cache_cell c) -> dc_cfg bs ns s -> dc_cfg bs ns s'.
Proof. intros Hf HW []. split; rewrite ?Hf by (intros Hw; by apply HW in Hw); assumption. Qed.
Lemma quiet_cache c : quiet c -> ~ cache_cell c.
Proof. by destruct c. Qed.
Lemma calm_cfg bs ns s s' : calm s s' -> dc_cfg bs ns s -> dc_cfg bs ns s'.
Proof. intros (Hf & _). apply (frame_cfg quiet); [exact Hf | apply quiet_cache]. Qed.

(** ** Coherence *)

(** A cached line holds what memory holds. *)
Definition line_ok (bs ns : Z) (s : Sim) (set way : Z) : Prop :=
  forall j, 0 <= j < bs / 4 ->
    let x := line_addr bs ns set (s (Dc_tagaddr set way)) + 4 * j in
    is_ram s x -> s (Dc_line set way j) = ram_val s x 4.

(** The cache is coherent, and no line is cached twice. *)
Record dc_good (bs ns : Z) (s : Sim) : Prop := {
  g_cfg : dc_cfg bs ns s; g_typed : typed s; g_ram : ram_ok s;
  g_lines : forall set way, 0 <= set < ns -> 0 <= way < s Dc_nways -> line_ok bs ns s set way;
  g_unique : forall set w w', 0 <= set < ns -> 0 <= w < s Dc_nways -> 0 <= w' < s Dc_nways ->
    s (Dc_tagaddr set w) = s (Dc_tagaddr set w') ->
    line_addr bs ns set (s (Dc_tagaddr set w)) < 2 ^ 32 -> w = w' }.

Lemma good_frame (W : cell -> Prop) bs ns s s' :
  dc_good bs ns s -> frame W s s' -> (forall c, W c -> ~ cache_cell c) -> mem_rest s s' -> typed s' -> dc_good bs ns s'.
Proof.
  intros [] Hf HW Hr Ht.
  assert (Hc : forall c, cache_cell c -> s' c = s c) by (intros c Hc; apply Hf; intros Hw; by apply HW in Hw).
  split; [by apply (frame_cfg W _ _ s) | exact Ht | by apply (mem_rest_ok s) | |].
  - intros set way Hs Hw j Hj. rewrite (Hc (Dc_tagaddr _ _)) by done. cbv zeta.
    rewrite (mem_rest_is_ram s s'), (mem_rest_val s s') by done.
    intros Hx. rewrite (Hc (Dc_line set way j)) by done. rewrite Hc in Hw by done. by apply g_lines0.
  - intros set w w'. rewrite !Hc by done. apply g_unique0.
Qed.
Lemma good_calm bs ns s s' : dc_good bs ns s -> calm s s' -> dc_good bs ns s'.
Proof.
  intros Hg Hc. pose proof (calm_rest s s' (g_ram _ _ _ Hg) Hc) as Hr. destruct Hc as (Hf & _ & Ht).
  apply (good_frame quiet bs ns s); try done; [apply quiet_cache | apply Ht, Hg].
Qed.

(** A line that was not cached is put in way [mw]. *)
Lemma good_install bs ns s s' set mw t :
  dc_good bs ns s -> 0 <= set < ns -> 0 <= mw < s Dc_nways ->
  (forall w, 0 <= w < s Dc_nways -> s (Dc_tagaddr set w) <> t) ->
  mem_rest s s' -> typed s' ->
  frame (fun c => c = Dc_tagaddr set mw \/ (exists j, c = Dc_line set mw j) \/ quiet c) s s' ->
  s' (Dc_tagaddr set mw) = t -> line_ok bs ns s' set mw -> dc_good bs ns s'.
Proof.
  intros [] Hset Hmw Hno Hr Hty Hf Ht Hline.
  assert (Ec : forall v, s' (Cfg v) = s (Cfg v)).
  { intros v. apply Hf. intros [?|[[j ?]|?]]; discriminate. }
  assert (Eo : forall set' w', (set', w') <> (set, mw) ->
    s' (Dc_tagaddr set' w') = s (Dc_tagaddr set' w') /\ forall j, s' (Dc_line set' w' j) = s (Dc_line set' w' j)).
  { intros set' w' Hne. split; [|intros j]; apply Hf; intros [?|[[j' ?]|?]]; congruence. }
  split; [|done|by apply (mem_rest_ok s)| |].
  - destruct g_cfg0. split; rewrite ?Ec; assumption.
  - intros set' way Hs Hw. destruct (decide ((set', way) = (set, mw))) as [[= -> ->]|Hne]; [exact Hline|].
    destruct (Eo _ _ Hne) as [Et El]. intros j Hj. rewrite Et, El. cbv zeta.
    rewrite (mem_rest_is_ram s s'), (mem_rest_val s s') by done. rewrite Ec in Hw. by apply g_lines0.
  - intros set' w w' Hs Hw Hw'. rewrite Ec in Hw, Hw'.
    destruct (Z.eq_dec set' set) as [->|Hss].
    + destruct (Z.eq_dec w mw) as [->|Hne], (Z.eq_dec w' mw) as [->|Hne']; [done| | |].
      * rewrite Ht, (proj1 (Eo set w' ltac:(congruence))). intros E. exfalso. by apply (Hno w').
      * rewrite Ht, (proj1 (Eo set w ltac:(congruence))). intros E. exfalso. by apply (Hno w).
      * rewrite (proj1 (Eo set w ltac:(congruence))), (proj1 (Eo set w' ltac:(congruence))). by apply g_unique0.
    + rewrite (proj1 (Eo set' w ltac:(congruence))), (proj1 (Eo set' w' ltac:(congruence))). by apply g_unique0.
Qed.

(** ** Refilling a line *)

Definition refilled (bs a set mw : Z) (s s' : Sim) (P : Z -> Prop) : Prop :=
  mem_rest s s' /\ typed s' /\ frame (fun c => c = G Mem_cycles \/ exists j, c = Dc_line set mw j) s s' /\
  forall j, P j -> s' (Dc_line set mw j) = ram_val s (a - a mod bs + 4 * j) 4.

(** Every word of [a]'s line is RAM. *)
Definition line_in_ram (bs a : Z) (s : Sim) : Prop :=
  forall j, 0 <= j < bs / 4 -> is_ram s (a - a mod bs + 4 * j).

Section Refill.
Context `{Devices} (log : bool) (bs a set mw : Z) (s : Sim).
Context (Hbs : bs = 16 \/ bs = 32) (Ha : 0 <= a < 2 ^ 32) (Hok : ram_ok s) (Hty : typed s).
Context (Hram : line_in_ram bs a s).

Lemma word_aligned j : (a - a mod bs + 4 * j) mod 4 = 0.
Proof.
  pose proof (Z.div_mod a bs). destruct Hbs as [->| ->].
  - replace (a - a mod 16 + 4 * j) with ((4 * (a / 16) + j) * 4) by lia. apply Z.mod_mul. lia.
  - replace (a - a mod 32 + 4 * j) with ((8 * (a / 32) + j) * 4) by lia. apply Z.mod_mul. lia.
Qed.


Lemma refill_step m s1 (P : Z -> Prop) :
  0 <= m <= 8 -> refilled bs a set mw s s1 P ->
  exists i s2, evalsim_mem32
      (u32 (Z.land a (u32 (Z.lnot (bs - 1))) + Z.land (u32 (Z.land a (u32 (Z.lnot 3)) + 4 * m)) (u32 (bs - 1)))) 0 s1
      = Ok (ram_val s (a - a mod bs + 4 * word_at bs a m) 4) s2 /\ cur_area s2 = Some i /\
    refilled bs a set mw s (upd (Dc_line set mw (word_at bs a m))
      (ram_val s (a - a mod bs + 4 * word_at bs a m) 4) s2) (fun j => P j \/ j = word_at bs a m).
Proof.
  intros Hm (Hr & Ht & Hf & HP). pose proof (word_at_range bs a m Hbs) as Hw.
  rewrite refill_addr by assumption. destruct (Hram _ Hw) as (i & ar & b & Hin).
  pose proof (mem_rest_in s s1 _ _ _ _ Hr Hin) as Hin1. pose proof (mem_rest_ok s s1 Hok Hr) as Hok1.
  eexists i, _. split; [|split].
  - rewrite (evalsim_mem32_ram s1 Hok1 _ _ i ar b Hin1) by apply word_aligned.
    by rewrite (mem_rest_val s s1).
  - reflexivity.
  - split; [|split; [|split]].
    + apply mem_rest_upd; [done|]. apply mem_rest_upd; [done|]. destruct Hr. split; try done. cbn.
      intros i' [= <-]. eapply lookup_lt_Some. apply Hin.
    + apply upd_typed, upd_typed. exact Ht.
    + apply frame_trans_upd; [eauto|]. apply frame_trans_upd; [auto|]. exact Hf.
    + intros j Hj. rewrite upd_lookup. case_decide as E.
      * injection E as <-. by apply wrap_small, inty_U32, ram_word_range.
      * unfold accessed. rewrite upd_ne by done. apply HP. destruct Hj as [?| ->]; [done | by exfalso].
Qed.

Lemma refill_loop n m s1 :
  0 <= m -> m + Z.of_nat n <= 8 -> refilled bs a set mw s s1 (fun j => exists q, 0 <= q < m /\ j = word_at bs a q) ->
  exists s2, dc_refill log a set mw bs n (4 * m) s1 = Ok false s2 /\
    refilled bs a set mw s s2 (fun j => exists q, 0 <= q < m + Z.of_nat n /\ j = word_at bs a q).
Proof.
  revert m s1. induction n as [|n IH]; intros m s1 Hm Hn Hre; cbn [dc_refill].
  - exists s1. split; [done|]. by rewrite Z.add_0_r.
  - destruct (refill_step m s1 _ ltac:(lia) Hre) as (i & s2 & E & Hc & Hre2).
    unfold bind at 1. rewrite E. unfold bind, wr, gets. rewrite dc_word_at by lia.
    set (s3 := upd _ _ s2) in *. change (cur_area s3) with (cur_area s2). rewrite Hc.
    assert (Hlog : exists s4, (when log (log_read a (ram_val s (a - a mod bs + 4 * word_at bs a m) 4))) s3 = Ok tt s4 /\
      (s4 = s3 \/ exists e, s4 = add_event e s3)).
    { destruct log; [|exists s3; auto]. unfold when, log_read, bind, gets.
      destruct (_ ≫= _) as [a0|]; [|exists s3; auto]. destruct (area_log a0); [|exists s3; auto].
      eexists. split; [reflexivity|]. eauto. }
    destruct Hlog as (s4 & -> & Hs4). replace (4 * m + 4) with (4 * (m + 1)) by lia.
    replace (m + Z.of_nat (S n)) with (m + 1 + Z.of_nat n) by lia. apply IH; [lia | lia |].
    assert (Hre4 : refilled bs a set mw s s4 (fun j => (exists q, 0 <= q < m /\ j = word_at bs a q) \/ j = word_at bs a m)).
    { destruct Hs4 as [->|[e ->]]; [exact Hre2|]. destruct Hre2 as ([] & ? & ? & ?). by split_and!. }
    destruct Hre4 as (? & ? & ? & HP). split_and!; try done. intros j (q & Hq & ->). apply HP.
    destruct (Z.eq_dec q m) as [->|]; [by right | left; exists q; split; [lia | done]].
Qed.

Lemma refill_run :
  exists s2, dc_refill log a set mw bs (refill_words bs) 0 s = Ok false s2 /\
    refilled bs a set mw s s2 (fun j => 0 <= j < bs / 4).
Proof.
  assert (En : Z.of_nat (refill_words bs) = bs / 4) by (destruct Hbs as [->| ->]; reflexivity).
  destruct (refill_loop (refill_words bs) 0 s) as (s2 & E & Hre).
  - lia.
  - rewrite En. destruct Hbs as [->| ->]; vm_compute; discriminate.
  - split_and!; [by apply mem_rest_refl | done | reflexivity | intros j (q & ? & _); lia].
  - exists s2. split; [exact E|]. destruct Hre as (? & ? & ? & HP). split_and!; try done.
    intros j Hj. apply HP. rewrite En. destruct (word_at_onto bs a j Hbs Hj) as (m & Hm & <-). eauto.
Qed.
End Refill.

(** ** Accesses through the cache *)

Definition dc_on (s : Sim) : Prop :=
  Z.testbit (s (SPR SPR_UPR)) 1 = true /\ Z.testbit (s (SPR SPR_SR)) 3 = true /\ s Data_ci = 0.

Lemma word_addr bs a : bs = 16 \/ bs = 32 -> 0 <= a -> a - a mod bs + 4 * word_at bs a 0 = a - a mod 4.
Proof.
  intros Hb Ha. unfold word_at. rewrite Z.add_0_r.
  destruct Hb as [->| ->]; [change (16 / 4) with 4; change 16 with (4 * 4) at 1
    | change (32 / 4) with 8; change 32 with (4 * 8) at 1]; rewrite Z.rem_mul_r by lia; lia.
Qed.

Lemma ram_val_be4 s a :
  ram_val s a 4 = be4 (ram_byte s a) (ram_byte s (a + 1)) (ram_byte s (a + 2)) (ram_byte s (a + 3)).
Proof.
  unfold be4. cbn [ram_val]. change (2 ^ (8 * Z.of_nat 3)) with (2 ^ 24). change (2 ^ (8 * Z.of_nat 2)) with (2 ^ 16).
  change (2 ^ (8 * Z.of_nat 1)) with (2 ^ 8). change (2 ^ (8 * Z.of_nat 0)) with 1.
  replace (a + 1 + 1 + 1) with (a + 3) by lia. replace (a + 1 + 1) with (a + 2) by lia. lia.
Qed.

(** The cached word gives the bytes addressed. *)
Lemma extract_ram s a w :
  typed s -> 0 <= a -> w = 1 \/ w = 2 \/ w = 4 -> a mod w = 0 ->
  dc_extract (ram_val s (a - a mod 4) 4) a w = ram_val s a (Z.to_nat w).
Proof.
  intros Hty Ha Hw Hm. rewrite ram_val_be4. pose proof (Z.mod_pos_bound a 4 ltac:(lia)).
  assert (Hb : forall x, is_byte (ram_byte s x)) by (intros; by apply ram_byte_range).
  destruct Hw as [->|[->| ->]].
  - rewrite word_byte by done. change (Z.to_nat 1) with 1%nat. cbn [ram_val].
    change (2 ^ (8 * Z.of_nat 0)) with 1. rewrite Z.mul_1_r, Z.add_0_r.
    assert (Hp : a mod 4 = 0 \/ a mod 4 = 1 \/ a mod 4 = 2 \/ a mod 4 = 3) by lia.
    destruct Hp as [E|[E|[E|E]]]; rewrite E; cbn [Z.eqb Pos.eqb]; f_equal; lia.
  - assert (Hp : a mod 4 = 0 \/ a mod 4 = 2).
    { pose proof (Z.div_mod a 4). pose proof (Z.div_mod a 2). lia. }
    rewrite word_half by done. change (Z.to_nat 2) with 2%nat. cbn [ram_val].
    change (2 ^ (8 * Z.of_nat 1)) with (2 ^ 8). change (2 ^ (8 * Z.of_nat 0)) with 1.
    destruct Hp as [E|E]; rewrite E; cbn [Z.eqb Pos.eqb].
    + rewrite Z.sub_0_r. lia.
    + replace (a - 2 + 2) with a by lia. replace (a - 2 + 3) with (a + 1) by lia. lia.
  - rewrite Hm, Z.sub_0_r. change (Z.to_nat 4) with 4%nat. by rewrite ram_val_be4.
Qed.

(** What the scan for [a] finds. *)
Lemma dc_lookup bs ns a s :
  dc_cfg bs ns s ->
  exists way, dc_find_way (set_of bs ns a) (tag_of bs ns a) (Z.to_nat (s Dc_nways)) 0 (-1) s = Ok way s /\
    ((0 <= way < s Dc_nways /\ s (Dc_tagaddr (set_of bs ns a) way) = tag_of bs ns a) \/
     (way = -1 /\ forall j, 0 <= j < s Dc_nways -> s (Dc_tagaddr (set_of bs ns a) j) <> tag_of bs ns a)).
Proof.
  intros []. destruct (dc_find_run (set_of bs ns a) (tag_of bs ns a) (Z.to_nat (s Dc_nways)) 0 (-1) s) as (way & E & Hw).
  exists way. split; [exact E|]. rewrite Z2Nat.id in Hw by lia. exact Hw.
Qed.

Section Access.
Context `{Devices} (bs ns a : Z) (s : Sim).
Context (Hgood : dc_good bs ns s) (Ha : 0 <= a < 2 ^ 32) (Hram : line_in_ram bs a s).

Lemma bs_val : bs = 16 \/ bs = 32.
Proof. apply (c_bs_val _ _ _ (g_cfg _ _ _ Hgood)). Qed.

Lemma set_range : 0 <= set_of bs ns a < ns.
Proof. apply set_of_range. apply (c_ns_val _ _ _ (g_cfg _ _ _ Hgood)). Qed.

Lemma tag_line way :
  s (Dc_tagaddr (set_of bs ns a) way) = tag_of bs ns a ->
  line_addr bs ns (set_of bs ns a) (s (Dc_tagaddr (set_of bs ns a) way)) = a - a mod bs.
Proof.
  intros ->. apply line_addr_of; [destruct bs_val as [->| ->]; lia | apply (c_ns_val _ _ _ (g_cfg _ _ _ Hgood))].
Qed.

(** The word of [a] in a line that matches. *)
Lemma hit_word way :
  0 <= way < s Dc_nways -> s (Dc_tagaddr (set_of bs ns a) way) = tag_of bs ns a ->
  s (Dc_line (set_of bs ns a) way (word_at bs a 0)) = ram_val s (a - a mod 4) 4.
Proof.
  intros Hw Ht. pose proof (g_lines _ _ _ Hgood _ way set_range Hw (word_at bs a 0) (word_at_range _ _ _ bs_val)) as Hl.
  cbv zeta in Hl. rewrite (tag_line way Ht) in Hl.
  rewrite <- (word_addr bs a bs_val) by lia. apply Hl, Hram, word_at_range, bs_val.
Qed.

Lemma dc_word_here : dc_word a bs = word_at bs a 0.
Proof.
  pose proof (dc_word_at bs a 0 bs_val ltac:(lia) ltac:(lia)) as E. rewrite Z.mul_0_r, Z.add_0_r, u32_small in E by lia.
  exact E.
Qed.

(** After a miss: refill, tag, LRU, delay. *)
Lemma miss_done log mw d :
  0 <= mw < s Dc_nways ->
  (forall j, 0 <= j < s Dc_nways -> s (Dc_tagaddr (set_of bs ns a) j) <> tag_of bs ns a) ->
  exists s1 s2 s3,
    dc_refill log a (set_of bs ns a) mw bs (refill_words bs) 0 s = Ok false s1 /\
    dc_age (set_of bs ns a) mw (upd (Dc_tagaddr (set_of bs ns a) mw) (tag_of bs ns a) s1) = Ok tt s2 /\
    (pcu ← isset Pcu_enabled; when pcu (pcu_count_event SPR_PCMR_DCM))
      (upd Mem_cycles (s2 Mem_cycles + s2 (Cfg d)) s2) = Ok tt s3 /\
    s2 (Cfg d) = s (Cfg d) /\ dc_good bs ns s3 /\ (mem_rest s s3 /\ frame dc_cells s s3) /\
    s3 (Dc_line (set_of bs ns a) mw (word_at bs a 0)) = ram_val s (a - a mod 4) 4.
Proof.
  intros Hmw Hno. destruct (refill_run log bs a (set_of bs ns a) mw s bs_val Ha (g_ram _ _ _ Hgood) (g_typed _ _ _ Hgood) Hram)
    as (s1 & E1 & Hr1 & Ht1 & Hf1 & HP).
  set (s1' := upd (Dc_tagaddr (set_of bs ns a) mw) (tag_of bs ns a) s1).
  assert (Ht : s1' (Dc_tagaddr (set_of bs ns a) mw) = tag_of bs ns a).
  { unfold s1'. rewrite upd_eq. apply wrap_small, inty_U32, tag_of_range; [|apply (c_ns_val _ _ _ (g_cfg _ _ _ Hgood)) | exact Ha].
    destruct bs_val as [->| ->]; lia. }
  assert (Hg1 : dc_good bs ns s1').
  { eapply (good_install bs ns s s1' (set_of bs ns a) mw (tag_of bs ns a)); try done.
    - apply set_range.
    - by apply mem_rest_upd.
    - by apply upd_typed.
    - unfold s1'. apply frame_trans_upd; [by left|]. intros c Hc. apply Hf1. intros [->|[j ->]]; apply Hc; [by right; right | right; left; eauto].
    - intros j Hj. cbv zeta. rewrite Ht. rewrite line_addr_of by (try apply (c_ns_val _ _ _ (g_cfg _ _ _ Hgood)); destruct bs_val as [->| ->]; lia).
      intros _. unfold s1' at 1. rewrite upd_ne by done. rewrite HP by done. symmetry. apply mem_rest_val. by apply mem_rest_upd. }
  destruct (dc_age_run (set_of bs ns a) mw s1') as (s2 & E2 & Hc2).
  assert (Hc3 : calm s2 (upd Mem_cycles (s2 Mem_cycles + s2 (Cfg d)) s2)).
  { split_and!; [by apply frame_upd | done | apply upd_typed]. }
  assert (Hp : exists s3, (pcu ← isset Pcu_enabled; when pcu (pcu_count_event SPR_PCMR_DCM))
      (upd Mem_cycles (s2 Mem_cycles + s2 (Cfg d)) s2) = Ok tt s3 /\ calm s1' s3).
  { assert (Hty3 : typed (upd Mem_cycles (s2 Mem_cycles + s2 (Cfg d)) s2)).
    { apply Hc3, Hc2. apply Hg1. }
    unfold isset, bind, rd, ret. destruct (nz _); cbn [when].
    - destruct (pcu_calm SPR_PCMR_DCM _ Hty3) as (s3 & E3 & Hc4). exists s3. split; [exact E3|].
      etransitivity; [exact Hc2|]. by etransitivity.
    - eexists. split; [reflexivity|]. by etransitivity. }
  destruct Hp as (s3 & E3 & Hc13). exists s1, s2, s3. split_and!; try done.
  - destruct Hc2 as (F & _). rewrite F by discriminate. unfold s1'. rewrite upd_ne by done. apply Hf1. intros [?|[j ?]]; discriminate.
  - by eapply good_calm.
  - eapply mem_rest_trans; [by apply (mem_rest_upd s s1 (Dc_tagaddr (set_of bs ns a) mw) (tag_of bs ns a))|].
    apply calm_rest; [|exact Hc13]. apply Hg1.
  - etransitivity; [|by apply calm_cells]. unfold s1'. apply frame_trans_upd; [right; right; by eauto|].
    intros c Hc. apply Hf1. intros [->|[j ->]]; apply Hc; [by left | right; left; by eauto].
  - destruct Hc13 as (F & _). rewrite F by discriminate. unfold s1'. rewrite upd_ne by done.
    rewrite HP by apply word_at_range, bs_val. by rewrite word_addr by (lia || apply bs_val).
Qed.
(** The LRU fields and delays of a hit. *)
Lemma hit_done way st d :
  exists s2, dc_touch (set_of bs ns a) way (upd (Stat st) (s (Stat st) + 1) s) = Ok tt s2 /\
    s2 (Cfg d) = s (Cfg d) /\ calm s (upd Mem_cycles (s2 Mem_cycles + s2 (Cfg d)) s2).
Proof.
  destruct (dc_touch_run (set_of bs ns a) way (upd (Stat st) (s (Stat st) + 1) s)) as (s2 & E & Hc).
  exists s2. split; [exact E|]. split.
  - destruct Hc as (F & _). rewrite F by discriminate. by apply upd_ne.
  - transitivity s2; [transitivity (upd (Stat st) (s (Stat st) + 1) s); [|exact Hc]|];
      (split_and!; [by apply frame_upd | done | apply upd_typed]).
Qed.
End Access.

(** ** Properties *)

(** The cache is bypassed or used. *)
Lemma dc_gate `{Devices} {A} (s : Sim) (m1 m2 : M A) :
  dc_on s ->
  (dcp ← flag (SPR SPR_UPR) SPR_UPR_DCP; dce ← flag (SPR SPR_SR) SPR_SR_DCE; ci ← isset Data_ci;
   if negb dcp || negb dce || ci then m1 else m2) s = m2 s.
Proof.
  intros (H1 & H2 & H3). unfold flag, isset, bind, rd, ret. change SPR_UPR_DCP with (2 ^ 1).
  change SPR_SR_DCE with (2 ^ 3). rewrite !nz_land_bit, H1, H2, H3 by lia. reflexivity.
Qed.

Lemma dc_gate_off `{Devices} {A} (s : Sim) (m1 m2 : M A) :
  ~ dc_on s ->
  (dcp ← flag (SPR SPR_UPR) SPR_UPR_DCP; dce ← flag (SPR SPR_SR) SPR_SR_DCE; ci ← isset Data_ci;
   if negb dcp || negb dce || ci then m1 else m2) s = m1 s.
Proof.
  intros Hn. unfold flag, isset, bind, rd, ret. change SPR_UPR_DCP with (2 ^ 1).
  change SPR_SR_DCE with (2 ^ 3). rewrite !nz_land_bit by lia.
  destruct (Z.testbit (s (SPR SPR_UPR)) 1) eqn:E1, (Z.testbit (s (SPR SPR_SR)) 3) eqn:E2; try reflexivity.
  unfold nz. destruct (Z.eqb_spec (s Data_ci) 0); [|reflexivity]. exfalso. by apply Hn.
Qed.

(** With the data cache on, a coherent cache returns for every aligned
    byte, halfword or word of RAM what memory holds, whether it hits, or misses
    and refills the line; the cache stays coherent, and memory is not changed. *)
Theorem dc_read_coherent `{Devices} bs ns a va w s :
  dc_good bs ns s -> dc_on s -> 0 <= a < 2 ^ 32 -> w = 1 \/ w = 2 \/ w = 4 -> a mod w = 0 -> line_in_ram bs a s ->
  exists s', dc_simulate_read a va w s = Ok (ram_val s a (Z.to_nat w)) s' /\ dc_good bs ns s' /\ mem_rest s s' /\
    frame dc_cells s s'.
Proof.
  intros Hg Hon Ha Hw Hm Hram. unfold dc_simulate_read.
  rewrite (dc_gate s _ _ Hon). unfold bind at 1. rewrite (dc_set_run bs ns) by (try apply Hg; lia).
  unfold bind at 1. rewrite (dc_tag_run bs ns) by (try apply Hg; lia). unfold bind at 1, rd at 1.
  destruct (dc_lookup bs ns a s (g_cfg _ _ _ Hg)) as (way & Ew & Hway). unfold bind at 1. rewrite Ew. unfold bind at 1, rd at 1.
  pose proof (dc_word_here bs ns a s Hg Ha) as Ed. rewrite (c_bs _ _ _ (g_cfg _ _ _ Hg)), Ed.
  destruct Hway as [[Hwr Ht]|[-> Hno]].
  - rewrite (proj2 (Z.leb_le 0 way)) by lia.
    destruct (hit_done bs ns a s way St_dc_readhit Dc_load_hitdelay) as (s2 & E2 & Hd & Hc).
    unfold adds, bind, rd, wr in *. rewrite E2. unfold ret. eexists. split; [|split; [|split]].
    + f_equal. rewrite (proj1 Hc) by discriminate.
      rewrite (hit_word bs ns a s Hg Ha Hram way Hwr Ht). apply extract_ram; [apply Hg | lia | done | done].
    + by eapply good_calm.
    + apply calm_rest; [apply Hg | done].
    + by apply calm_cells.
  - change (0 <=? -1) with false. cbv iota. unfold bind at 1, rd at 1. unfold bind at 1, adds, bind at 1, rd at 1, wr at 1.
    set (s0 := upd (Stat St_dc_readmiss) (s (Stat St_dc_readmiss) + 1) s).
    assert (Hc0 : calm s s0) by (split_and!; [by apply frame_upd | done | apply upd_typed]).
    pose proof (good_calm _ _ _ _ Hg Hc0) as Hg0. pose proof (calm_rest _ _ (g_ram _ _ _ Hg) Hc0) as Hr0.
    destruct (dc_min_run (set_of bs ns a) (Z.to_nat (s Dc_nways)) 0 (s Dc_ustates - 1) 0 s0) as (mw & Em & Hmw).
    unfold bind at 1. rewrite Em. pose proof (c_nways _ _ _ (g_cfg _ _ _ Hg)).
    destruct (miss_done bs ns a s0 Hg0 Ha) with (log := true) (mw := mw) (d := Dc_load_missdelay)
      as (s1 & s2 & s3 & E1 & E2 & E3 & Hd & Hg3 & [Hr3 Hf3] & Hl3).
    + intros j Hj. apply (mem_rest_is_ram s s0 _ Hr0), Hram, Hj.
    + change (s0 Dc_nways) with (s Dc_nways). rewrite Z2Nat.id in Hmw by lia. lia.
    + exact Hno.
    + unfold bind at 1. rewrite E1. unfold bind at 1, wr at 1. unfold bind at 1. rewrite E2.
      unfold bind at 1, rd at 1. unfold bind at 1, bind at 1, rd at 1, wr at 1.
      unfold isset, bind, rd, ret in E3 |- *. rewrite E3. eexists. split; [|split; [|split]].
      * f_equal. rewrite Hl3, (mem_rest_val _ _ _ _ Hr0). apply extract_ram; [apply Hg | lia | done | done].
      * exact Hg3.
      * by eapply mem_rest_trans.
      * etransitivity; [by apply calm_cells | exact Hf3].
Qed.

(** ** Stores through the cache *)

(** A word is in one line only. *)
Lemma same_line bs ns a set t j :
  bs = 16 \/ bs = 32 -> 1 <= ns -> 0 <= a -> 0 <= set < ns -> 0 <= j < bs / 4 ->
  line_addr bs ns set t + 4 * j = a - a mod 4 ->
  set = set_of bs ns a /\ t = tag_of bs ns a /\ j = word_at bs a 0.
Proof.
  intros Hb Hns Ha Hs Hj E. pose proof (word_addr bs a Hb Ha) as Ew.
  assert (Hbs : bs / 4 * 4 = bs) by (destruct Hb as [->| ->]; reflexivity).
  pose proof (word_at_range bs a 0 Hb). pose proof (Z.mod_pos_bound a bs ltac:(lia)).
  pose proof (Z.mod_pos_bound a 4 ltac:(lia)). pose proof (Z.div_mod a bs ltac:(lia)) as Hd.
  assert (Eq : a / bs = t * ns + set).
  { symmetry. apply Z.div_unique with (4 * j + a mod 4); [lia|]. unfold line_addr in E. lia. }
  unfold set_of, tag_of. rewrite Eq. split_and!.
  - rewrite Z.add_comm, Z.mod_add, Z.mod_small by lia. done.
  - rewrite Z.add_comm, Z.div_add, Z.div_small by lia. done.
  - unfold line_addr in E. rewrite <- Eq in E. lia.
Qed.

Section Store.
Context (bs ns a data w : Z) (s s1 : Sim).
Context (Hgood : dc_good bs ns s) (Ha : 0 <= a < 2 ^ 32) (Hw : w = 1 \/ w = 2 \/ w = 4) (Hm : a mod w = 0).
Context (Hd : 0 <= data < 2 ^ 32) (Hst : stored_at s a w data s1) (Hram : line_in_ram bs a s).

Let p := a mod 4.
Lemma offset_w : 0 <= p /\ p + w <= 4 /\ p mod w = 0.
Proof.
  unfold p. pose proof (Z.mod_pos_bound a 4 ltac:(lia)). pose proof (Z.div_mod a 4 ltac:(lia)).
  destruct Hw as [->|[->| ->]].
  - rewrite Z.mod_1_r. lia.
  - assert (a mod 4 mod 2 = a mod 2) as -> by (apply Z.mod_mod_divide; by exists 2).
    pose proof (Z.div_mod a 2 ltac:(lia)). lia.
  - rewrite Hm. by vm_compute.
Qed.

Lemma is_ram_word x k : is_ram s x -> x mod 4 = 0 -> 0 <= k < 4 -> is_ram s (x + k).
Proof.
  intros (i & ar & b & Hin) Hx Hk. exists i, ar, b. apply (in_ram_next s (g_ram _ _ _ Hgood) x i ar b 4); auto.
Qed.

(** Other words keep their value. *)
Lemma store_other x : is_ram s x -> x mod 4 = 0 -> x <> a - p -> ram_val s1 x 4 = ram_val s x 4.
Proof.
  intros Hx Hx4 Hne. pose proof offset_w. rewrite !ram_val_be4.
  assert (Hp4 : (a - p) mod 4 = 0).
  { unfold p. pose proof (Z.div_mod a 4 ltac:(lia)). replace (a - a mod 4) with (a / 4 * 4) by lia. apply Z.mod_mul. lia. }
  pose proof (Z.div_mod x 4 ltac:(lia)). pose proof (Z.div_mod (a - p) 4 ltac:(lia)).
  assert (H' : forall k, 0 <= k < 4 -> ram_byte s1 (x + k) = ram_byte s (x + k)).
  { intros k Hk. rewrite (proj1 Hst) by by apply is_ram_word.
    destruct (Z.leb_spec a (x + k)), (Z.ltb_spec (x + k) (a + w)); try done. exfalso. lia. }
  rewrite (H' 1), (H' 2), (H' 3) by lia. f_equal. pose proof (H' 0 ltac:(lia)) as Hb0. by rewrite Z.add_0_r in Hb0.
Qed.

(** The word stored to has the bytes merged in. *)
Lemma store_word : is_ram s (a - p) -> ram_val s1 (a - p) 4 = dc_merge (ram_val s (a - p) 4) a data w.
Proof.
  intros Hx. pose proof offset_w as (Hp0 & Hpw & Hpm).
  assert (Hp4 : (a - p) mod 4 = 0).
  { unfold p. pose proof (Z.div_mod a 4 ltac:(lia)). replace (a - a mod 4) with (a / 4 * 4) by lia. apply Z.mod_mul. lia. }
  assert (Hb : forall x, is_byte (ram_byte s x)) by (intros; apply ram_byte_range, Hgood).
  rewrite !ram_val_be4. rewrite dc_merge_spec by done. fold p.
  assert (H' : forall k, 0 <= k < 4 -> ram_byte s1 (a - p + k) = new_byte p data w k (ram_byte s (a - p + k))).
  { intros k Hk. rewrite (proj1 Hst) by by apply is_ram_word. unfold new_byte.
    replace (8 * (w - 1 - (a - p + k - a))) with (8 * (w - 1 - (k - p))) by lia.
    destruct (Z.leb_spec a (a - p + k)), (Z.leb_spec p k), (Z.ltb_spec (a - p + k) (a + w)), (Z.ltb_spec k (p + w));
      lia || done. }
  rewrite <- (H' 1), <- (H' 2), <- (H' 3) by lia. f_equal.
  pose proof (H' 0 ltac:(lia)) as H0. by rewrite Z.add_0_r in H0.
Qed.

Lemma stored_cell c : c <> G Mem_cycles -> c <> G Cur_vadd -> (forall b i, c <> Mem b i) -> s1 c = s c.
Proof. apply Hst. Qed.

(** What a cached word relates to after the store. *)
Lemma store_line set way j :
  0 <= set < ns -> 0 <= way < s Dc_nways -> 0 <= j < bs / 4 ->
  let x := line_addr bs ns set (s (Dc_tagaddr set way)) + 4 * j in
  is_ram s x ->
  (x = a - p /\ set = set_of bs ns a /\ s (Dc_tagaddr set way) = tag_of bs ns a /\ j = word_at bs a 0) \/
  (x <> a - p /\ s (Dc_line set way j) = ram_val s1 x 4).
Proof.
  intros Hs Hwy Hj x Hx. pose proof (bs_val bs ns s Hgood) as Hbs. pose proof (c_ns_val _ _ _ (g_cfg _ _ _ Hgood)).
  destruct (Z.eq_dec x (a - p)) as [E|E]; [left | right].
  - split; [exact E|]. apply (same_line bs ns a set _ j); try done; lia.
  - split; [exact E|]. rewrite store_other; [by apply (g_lines _ _ _ Hgood) | done | | done].
    unfold x, line_addr. destruct Hbs as [->| ->].
    + replace ((s (Dc_tagaddr set way) * ns + set) * 16 + 4 * j) with (((s (Dc_tagaddr set way) * ns + set) * 4 + j) * 4) by lia.
      apply Z.mod_mul. lia.
    + replace ((s (Dc_tagaddr set way) * ns + set) * 32 + 4 * j) with (((s (Dc_tagaddr set way) * ns + set) * 8 + j) * 4) by lia.
      apply Z.mod_mul. lia.
Qed.

Context (Hty1 : typed s1) (Hok1 : ram_ok s1).

Lemma stored_cfg : dc_cfg bs ns s1.
Proof. destruct (g_cfg _ _ _ Hgood). split; rewrite ?stored_cell by done; assumption. Qed.

(** With no line for [a] the store leaves the cache coherent. *)
Lemma store_miss_good :
  (forall j, 0 <= j < s Dc_nways -> s (Dc_tagaddr (set_of bs ns a) j) <> tag_of bs ns a) -> dc_good bs ns s1.
Proof.
  intros Hno. split; [apply stored_cfg | exact Hty1 | exact Hok1 | |].
  - intros set way Hs Hwy j Hj. rewrite !stored_cell by done. cbv zeta. rewrite (stored_is_ram _ _ _ _ _ _ Hst). intros Hx.
    rewrite stored_cell in Hwy by done.
    destruct (store_line set way j Hs Hwy Hj Hx) as [(_ & -> & Et & _)|[_ E]]; [by exfalso; apply (Hno way) | exact E].
  - intros set w0 w'. rewrite !stored_cell by done. apply Hgood.
Qed.

(** On a hit, updating the cached word keeps it coherent. *)
Lemma store_hit_good way s3 :
  0 <= way < s Dc_nways -> s (Dc_tagaddr (set_of bs ns a) way) = tag_of bs ns a -> calm s1 s3 ->
  dc_good bs ns (upd (Dc_line (set_of bs ns a) way (word_at bs a 0)) (dc_merge (ram_val s (a - p) 4) a data w) s3).
Proof.
  intros Hwy Ht Hc. pose proof (bs_val bs ns s Hgood) as Hbs. set (s4 := upd _ _ s3).
  pose proof (calm_rest s1 s3 Hok1 Hc) as Hr3. assert (Hr4 : mem_rest s1 s4) by by apply mem_rest_upd.
  destruct Hc as (Hf & _ & Hty3).
  assert (Hcell : forall c, ~ quiet c -> (forall i j k, c <> Dc_line i j k) -> (forall b i, c <> Mem b i) -> s4 c = s c).
  { intros c Hq Hl Hmm. unfold s4. rewrite upd_ne by congruence. rewrite Hf by first [done | discriminate]. apply stored_cell; try done; intros ->; by apply Hq. }
  assert (Hx0 : is_ram s (a - p)).
  { unfold p. rewrite <- (word_addr bs a Hbs) by lia. apply Hram, word_at_range, Hbs. }
  split.
  - destruct (g_cfg _ _ _ Hgood). split; rewrite ?Hcell by first [done | discriminate]; assumption.
  - apply upd_typed. auto.
  - by apply (mem_rest_ok s1).
  - intros set way' Hs Hwy' j Hj. rewrite !(Hcell (Dc_tagaddr _ _)) by first [done | discriminate]. cbv zeta.
    rewrite Hcell in Hwy' by first [done | discriminate].
    rewrite (mem_rest_is_ram s1 s4), (stored_is_ram _ _ _ _ _ _ Hst), (mem_rest_val s1 s4) by done. intros Hx.
    destruct (store_line set way' j Hs Hwy' Hj Hx) as [(Ex & -> & Et & ->)|[Ex El]].
    + assert (way' = way) as ->.
      { apply (g_unique _ _ _ Hgood (set_of bs ns a)); try done; [by rewrite Et, Ht|].
        rewrite (tag_line bs ns a s Hgood Hram way' Et). pose proof (Z.mod_pos_bound a bs ltac:(destruct Hbs as [->| ->]; lia)). lia. }
      rewrite Ex, store_word by done. unfold s4. rewrite upd_eq. apply wrap_small, inty_U32.
      rewrite <- store_word by done. by apply ram_word_range.
    + rewrite <- El. unfold s4. rewrite upd_ne.
      * rewrite Hf by first [done | discriminate]. by apply stored_cell.
      * intros [= <- <- <-]. apply Ex. rewrite (tag_line bs ns a s Hgood Hram way Ht). by apply word_addr; [|lia].
  - intros set w0 w'. rewrite !Hcell by first [done | discriminate]. apply Hgood.
Qed.
End Store.

(** The store to memory, whatever its width. *)
Definition setsim_mem `{Devices} (a va data w : Z) : M unit :=
  if w =? 4 then setsim_mem32 a va data
  else if w =? 2 then setsim_mem16 a va data
  else if w =? 1 then setsim_mem8 a va data
  else ret tt.

Lemma setsim_ram `{Devices} a va data w s :
  typed s -> ram_ok s -> is_ram s a -> w = 1 \/ w = 2 \/ w = 4 -> a mod w = 0 ->
  exists s1 i, setsim_mem a va data w s = Ok tt s1 /\ stored_at s a w data s1 /\ cur_area s1 = Some i /\
    typed s1 /\ ram_ok s1.
Proof.
  intros Hty Hok (i & ar & b & Hin) Hw Hm.
  assert (Hr : Respects keeps_typed (setsim_mem a va data w)) by (unfold setsim_mem; respects).
  assert (H' : exists s1, setsim_mem a va data w s = Ok tt s1 /\ stored_at s a w data s1 /\ cur_area s1 = Some i).
  { unfold setsim_mem. destruct Hw as [->|[->| ->]]; cbn [Z.eqb Pos.eqb].
    - by apply (setsim_mem8_ram s Hok a va data i ar b).
    - by apply (setsim_mem16_ram s Hok a va data i ar b).
    - by apply (setsim_mem32_ram s Hok a va data i ar b). }
  destruct H' as (s1 & E & Hst & Hc). exists s1, i. split_and!; try done.
  - specialize (Hr s Hty). by rewrite E in Hr.
  - eapply stored_ok; eauto. eapply lookup_lt_Some. apply Hin.
Qed.

(** C10: with the data cache on and coherent, a store of an aligned byte,
    halfword or word to RAM changes exactly those bytes of memory, whether it
    hits the cache, or misses and allocates a line, leaves the cache coherent,
    and touches nothing else but LRU fields, statistics and delays. *)
Theorem dc_write_coherent `{Devices} bs ns a va data w s :
  dc_good bs ns s -> dc_on s -> 0 <= a < 2 ^ 32 -> 0 <= data < 2 ^ 32 ->
  w = 1 \/ w = 2 \/ w = 4 -> a mod w = 0 -> line_in_ram bs a s ->
  exists s', dc_simulate_write a va data w s = Ok tt s' /\ dc_good bs ns s' /\
    frame (fun c => dc_cells c \/ exists b i, c = Mem b i) s s' /\
    dev_list s' = dev_list s /\ blocks s' = blocks s /\
    forall x, is_ram s x -> ram_byte s' x =
      if (a <=? x) && (x <? a + w) then u8 (Z.shiftr data (8 * (w - 1 - (x - a)))) else ram_byte s x.
Proof.
  intros Hg Hon Ha Hd Hw Hm Hram. pose proof (bs_val _ _ _ Hg) as Hbs.
  assert (Hx0 : is_ram s (a - a mod 4)).
  { rewrite <- (word_addr bs a Hbs) by lia. apply Hram, word_at_range, Hbs. }
  assert (Ha4 : (a - a mod 4) mod 4 = 0).
  { pose proof (Z.div_mod a 4 ltac:(lia)). replace (a - a mod 4) with (a / 4 * 4) by lia. apply Z.mod_mul. lia. }
  assert (Hxa : is_ram s a).
  { replace a with (a - a mod 4 + a mod 4) by lia.
    apply (is_ram_word bs ns s Hg); [done | done | apply Z.mod_pos_bound; lia]. }
  destruct (setsim_ram a va data w s (g_typed _ _ _ Hg) (g_ram _ _ _ Hg) Hxa Hw Hm) as (s1 & i & E1 & Hst & Hc & Hty1 & Hok1).
  unfold dc_simulate_write. fold (setsim_mem a va data w). unfold bind at 1. rewrite E1.
  assert (Hcell : forall c, c <> G Mem_cycles -> c <> G Cur_vadd -> (forall b i, c <> Mem b i) -> s1 c = s c) by apply Hst.
  assert (Hcfg1 : dc_cfg bs ns s1) by by eapply stored_cfg.
  destruct Hon as (H1 & H2 & H3). unfold flag, isset. unfold bind at 1 2 3 4 5 6 7, rd at 1 2 3, ret at 1 2 3, gets at 1.
  rewrite Hc. rewrite (Hcell (SPR SPR_UPR)), (Hcell (SPR SPR_SR)), (Hcell (G Data_ci)) by done.
  change SPR_UPR_DCP with (2 ^ 1). change SPR_SR_DCE with (2 ^ 3). rewrite !nz_land_bit, H1, H2, H3 by lia.
  cbn [negb orb nz Z.eqb].
  unfold bind at 1. rewrite (dc_set_run bs ns) by done.
  unfold bind at 1. rewrite (dc_tag_run bs ns) by done. unfold bind at 1, rd at 1.
  destruct (dc_lookup bs ns a s1 Hcfg1) as (way & Ew & Hway). unfold bind at 1. rewrite Ew. unfold bind at 1, rd at 1.
  rewrite (c_bs _ _ _ Hcfg1), (dc_word_here bs ns a s Hg Ha). rewrite (Hcell Dc_nways) in Hway by done.
  assert (Hfin : forall s', mem_rest s1 s' -> frame dc_cells s1 s' ->
    frame (fun c => dc_cells c \/ exists b i, c = Mem b i) s s' /\ dev_list s' = dev_list s /\ blocks s' = blocks s /\
    forall x, is_ram s x -> ram_byte s' x =
      if (a <=? x) && (x <? a + w) then u8 (Z.shiftr data (8 * (w - 1 - (x - a)))) else ram_byte s x).
  { intros s' Hr Hf. destruct Hst as (Hb & _ & Hdl & _ & Hbl & _). split; [|split; [|split]].
    - intros c Hx. rewrite Hf by tauto. apply Hcell; try (intros ->; apply Hx; by repeat left).
      intros b j ->. apply Hx. right. by eauto.
    - by rewrite (mr_dev _ _ Hr).
    - by rewrite (mr_blocks _ _ Hr).
    - intros x Hx. rewrite (mem_rest_byte s1) by done. by apply Hb. }
  destruct Hway as [[Hwr Ht]|[-> Hno]].
  - rewrite (proj2 (Z.leb_le 0 way)) by lia. rewrite Hcell in Ht by done.
    destruct (hit_done bs ns a s1 way St_dc_writehit Dc_store_hitdelay) as (s2 & E2 & _ & Hc2).
    unfold adds, bind, rd, wr in *. rewrite E2. set (s3 := upd Mem_cycles _ s2) in *.
    assert (El : s3 (Dc_line (set_of bs ns a) way (word_at bs a 0)) = ram_val s (a - a mod 4) 4).
    { rewrite (proj1 Hc2) by discriminate. rewrite Hcell by done. by apply (hit_word bs ns a s Hg Ha Hram). }
    rewrite El. eexists. split; [reflexivity|]. split; [by eapply store_hit_good|].
    apply Hfin; [apply mem_rest_upd; [done|]; by apply calm_rest|].
    apply frame_trans_upd; [right; left; by eauto | by apply calm_cells].
  - change (0 <=? -1) with false. cbv iota.
    assert (Hg1 : dc_good bs ns s1).
    { apply (store_miss_good bs ns a data w s s1); try assumption.
      intros j Hj. specialize (Hno j Hj). by rewrite Hcell in Hno by done. }
    unfold bind at 1, rd at 1. unfold bind at 1, adds, bind at 1, rd at 1, wr at 1.
    set (s0 := upd (Stat St_dc_writemiss) (s1 (Stat St_dc_writemiss) + 1) s1).
    assert (Hc0 : calm s1 s0) by (split_and!; [by apply frame_upd | done | apply upd_typed]).
    pose proof (good_calm _ _ _ _ Hg1 Hc0) as Hg0. pose proof (calm_rest _ _ Hok1 Hc0) as Hr0.
    destruct (dc_last_run (set_of bs ns a) (Z.to_nat (s1 Dc_nways)) 0 (s1 Dc_ustates - 1) 0 s0) as (mw & Em & Hmw).
    unfold bind at 1. rewrite Em. pose proof (c_nways _ _ _ Hcfg1).
    destruct (miss_done bs ns a s0 Hg0 Ha) with (log := false) (mw := mw) (d := Dc_store_missdelay)
      as (s2 & s3 & s4 & E2 & E3 & E4 & _ & Hg4 & [Hr4 Hf4] & _).
    + intros j Hj. apply (mem_rest_is_ram s1 s0 _ Hr0), (stored_is_ram _ _ _ _ _ _ Hst), Hram, Hj.
    + change (s0 Dc_nways) with (s1 Dc_nways). rewrite Z2Nat.id in Hmw by lia. lia.
    + intros j Hj. change (s1 (Dc_tagaddr (set_of bs ns a) j) <> tag_of bs ns a). apply Hno.
      by rewrite <- (Hcell Dc_nways) by done.
    + unfold bind at 1. rewrite E2. unfold bind at 1, wr at 1. unfold bind at 1. rewrite E3.
      unfold bind at 1, rd at 1. unfold bind at 1, bind at 1, rd at 1, wr at 1.
      unfold isset, bind, rd, ret in E4 |- *. rewrite E4. eexists. split; [reflexivity|]. split; [exact Hg4|].
      apply Hfin; [by eapply mem_rest_trans|]. etransitivity; [by apply calm_cells | exact Hf4].
Qed.

(** ** Invalidation *)

(** Software invalidates the cache before turning it on: one block of each set. *)
Definition invalidate_all (bs : Z) (ns : nat) : M unit := for_ ns 0 1 (fun i => dc_inv (i * bs)).

(** One [dc_inv] with the cache off empties a set. *)
Definition emptied (set : Z) (s s' : Sim) : Prop :=
  (forall w, 0 <= w < s Dc_nways -> s' (Dc_tagaddr set w) = 2 ^ 32 - 1) /\
  frame (fun c => exists w, c = Dc_tagaddr set w \/ c = Dc_lru set w) s s' /\ same_lists s s' /\ typed s'.

Lemma dc_inv_off bs ns a s :
  dc_cfg bs ns s -> typed s -> 0 <= a < 2 ^ 32 ->
  Z.testbit (s (SPR SPR_UPR)) 1 = true -> Z.testbit (s (SPR SPR_SR)) 3 = false ->
  wp (dc_inv a) (fun _ s' => emptied (set_of bs ns a) s s') s.
Proof.
  intros Hcfg Hty Ha H1 H2. unfold dc_inv. wp1. wp1. cbv beta. change SPR_UPR_DCP with (2 ^ 1).
  rewrite nz_land_bit, H1 by lia. cbn [negb].
  apply wpx_bind. unfold wpx at 1. rewrite (dc_set_run bs ns) by done.
  apply wpx_bind. unfold wpx at 1. rewrite (dc_tag_run bs ns) by done.
  wp1. wp1. cbv beta. change SPR_SR_DCE with (2 ^ 3). rewrite nz_land_bit, H2 by lia. cbn [negb]. wp1. wp1.
  pose proof (c_nways _ _ _ Hcfg) as Hn.
  apply (wpx_for _ _ _ _ _ (fun i s' =>
    (forall w, 0 <= w < Z.of_nat i -> s' (Dc_tagaddr (set_of bs ns a) w) = 2 ^ 32 - 1) /\
    frame (fun c => exists w, c = Dc_tagaddr (set_of bs ns a) w \/ c = Dc_lru (set_of bs ns a) w) s s' /\
    same_lists s s' /\ typed s')).
  - split_and!; try done. lia.
  - intros i s1 Hi (Ht & Hf & Hl & Hty1). wps. split_and!; try done.
    + intros w Hw. rewrite upd_ne by done. rewrite upd_lookup. case_decide as E; [done|]. apply Ht.
      assert (w <> Z.of_nat i) by (intros ->; apply E; f_equal; lia). lia.
    + repeat (apply frame_trans_upd; [eauto|]). exact Hf.
    + by repeat apply upd_typed.
  - intros s' (Ht & Hf & Hl & Hty'). split_and!; try done. intros w Hw. apply Ht. rewrite Z2Nat.id; lia.
Qed.

(** After software invalidates one block of every set with the cache off,
    the cache is coherent, whatever it held before. *)
Theorem invalidate_all_good bs ns s :
  dc_cfg bs ns s -> typed s -> ram_ok s ->
  Z.testbit (s (SPR SPR_UPR)) 1 = true -> Z.testbit (s (SPR SPR_SR)) 3 = false ->
  exists s', invalidate_all bs (Z.to_nat ns) s = Ok tt s' /\ dc_good bs ns s' /\ mem_rest s s'.
Proof.
  intros Hcfg Hty Hok H1 H2. pose proof Hcfg as [].
  assert (Hbs : 1 <= bs <= 32) by (destruct c_bs_val0 as [->| ->]; lia).
  assert (Hwp : wp (invalidate_all bs (Z.to_nat ns)) (fun _ s' =>
    (forall set w, 0 <= set < ns -> 0 <= w < s Dc_nways -> s' (Dc_tagaddr set w) = 2 ^ 32 - 1) /\
    frame (fun c => exists i w, c = Dc_tagaddr i w \/ c = Dc_lru i w) s s' /\ same_lists s s' /\ typed s') s).
  { unfold invalidate_all. apply (wpx_for _ _ _ _ _ (fun i s' =>
      (forall set w, 0 <= set < Z.of_nat i -> 0 <= w < s Dc_nways -> s' (Dc_tagaddr set w) = 2 ^ 32 - 1) /\
      frame (fun c => exists i w, c = Dc_tagaddr i w \/ c = Dc_lru i w) s s' /\ same_lists s s' /\ typed s')).
    - split_and!; try done. lia.
    - intros i s1 Hi (Ht & Hf & Hl & Hty1).
      assert (Hc : forall c, (forall i w, c <> Dc_tagaddr i w /\ c <> Dc_lru i w) -> s1 c = s c).
      { intros c Hc. apply Hf. intros (i' & w & [->| ->]); by destruct (Hc i' w). }
      assert (Hcfg1 : dc_cfg bs ns s1) by (split; rewrite ?Hc by done; assumption).
      assert (Ea : set_of bs ns ((0 + Z.of_nat i * 1) * bs) = Z.of_nat i).
      { unfold set_of. rewrite Z.div_mul by lia. rewrite Z.mod_small; lia. }
      eapply wpx_mono; [apply (dc_inv_off bs ns); [done | done | nia | by rewrite Hc | by rewrite Hc] | done |].
      rewrite Ea. intros u s2 (Hte & Hfe & Hle & Hty2). split_and!; [| |by etransitivity|done].
      + intros set w Hs Hw. destruct (Z.eq_dec set (Z.of_nat i)) as [->|Hne].
        * apply Hte. by rewrite Hc.
        * rewrite Hfe by (intros (w' & [[=]|?]); [lia | discriminate]). apply Ht; lia.
      + etransitivity; [exact Hf|]. intros c Hn. apply Hfe. intros (w & Hw). apply Hn. eauto.
    - rewrite Z2Nat.id by lia. auto. }
  apply wp_ok in Hwp as ([] & s' & E & Ht & Hf & Hl & Hty'). exists s'. split; [exact E|].
  assert (Hc : forall c, (forall i w, c <> Dc_tagaddr i w /\ c <> Dc_lru i w) -> s' c = s c).
  { intros c Hc. apply Hf. intros (i' & w & [->| ->]); by destruct (Hc i' w). }
  destruct Hl as (L1 & L2 & L3 & L4 & L5 & L6 & L7 & L8).
  assert (Hr : mem_rest s s').
  { split; try done. - intros b i. by rewrite Hc. - rewrite L5. by destruct Hok as [(_ & _ & _ & ?) _ _]. }
  split; [|exact Hr]. pose proof (mem_rest_ok _ _ Hok Hr) as Hok'. split; try done.
  - split; rewrite ?Hc by done; assumption.
  - intros set way Hs Hw j Hj. rewrite Hc in Hw by done. cbv zeta. rewrite Ht by done.
    intros (i & ar & b & Hin). apply (in_ram_wf s' Hok') in Hin as [_ ?]. unfold line_addr in *. nia.
  - intros set w w' Hs Hw Hw'. rewrite Hc in Hw by done. rewrite Ht by done. unfold line_addr. nia.
Qed.

(** The arrays of the cache start as zeros, and zero is a valid tag: turned
    on without being invalidated, the cache hits on address 0 and returns 0
    whatever memory holds there. *)
Theorem dc_power_up_stale `{Devices} bs ns va s :
  dc_cfg bs ns s -> dc_on s -> (forall w, s (Dc_tagaddr 0 w) = 0 /\ s (Dc_line 0 w 0) = 0) ->
  exists s', dc_simulate_read 0 va 4 s = Ok 0 s'.
Proof.
  intros Hcfg Hon Hz. pose proof Hcfg as []. unfold dc_simulate_read.
  rewrite (dc_gate s _ _ Hon). unfold bind at 1. rewrite (dc_set_run bs ns) by (done || lia).
  unfold bind at 1. rewrite (dc_tag_run bs ns) by (done || lia). unfold bind at 1, rd at 1.
  assert (E0 : set_of bs ns 0 = 0 /\ tag_of bs ns 0 = 0).
  { unfold set_of, tag_of. rewrite Z.div_0_l, Z.mod_0_l, Z.div_0_l by lia. done. }
  destruct (dc_lookup bs ns 0 s Hcfg) as (way & Ew & Hway). unfold bind at 1. rewrite Ew. unfold bind at 1, rd at 1.
  destruct E0 as [E0 E1]. rewrite E0, E1 in *.
  destruct Hway as [[Hwr Ht]|[-> Hno]]; [|exfalso; apply (Hno 0); [lia | apply Hz]].
  rewrite (proj2 (Z.leb_le 0 way)) by lia.
  destruct (hit_done bs ns 0 s way St_dc_readhit Dc_load_hitdelay) as (s2 & E2 & Hd & Hc). rewrite E0 in E2.
  unfold adds, bind, rd, wr in *. rewrite E2. unfold ret. eexists. f_equal.
  rewrite (proj1 Hc) by discriminate. rewrite c_bs0.
  assert (dc_word 0 bs = 0) as -> by (destruct c_bs_val0 as [->| ->]; reflexivity).
  by rewrite (proj2 (Hz way)).
Qed.

(** ** Witnesses *)

(** 1 MB of RAM at 0 with a word stored, and a cache of 4 sets, 2 ways and
    16-byte lines, off. *)
Definition ex_dc_cfg : M unit :=
  memory_sec_end (H := no_devices) (MemConfig (-1) 0 0 0x100000 1 1 0 (-1) MT_UNKNOWN false 0);;
  set_program32 (H := no_devices) 0x40 0x11223344;;
  dc_nsets 4;; dc_nways 2;; dc_blocksize 16;; dc_blocksize 8;; dc_ustates 2;; dc_enabled 1.
Definition ex_dc : Sim := state_of (ex_dc_cfg zero_state).

Lemma ex_dc_typed : typed ex_dc.
Proof.
  assert (Hr : Respects keeps_typed ex_dc_cfg).
  { unfold ex_dc_cfg, dc_nsets, dc_nways, dc_blocksize, dc_ustates, dc_enabled. respects. }
  exact (Hr zero_state zero_typed).
Qed.
Lemma ex_dc_conf : dc_cfg 16 4 ex_dc.
Proof. split; first [closed_Z | left; reflexivity]. Qed.
Lemma ex_dc_areas : dev_list ex_dc =
  [new_area 0 0x100000 (memory_ops (MemConfig (-1) 0 0 0x100000 1 1 0 (-1) MT_UNKNOWN false 0) 0)].
Proof. vm_compute. reflexivity. Qed.
Lemma ex_dc_ram : ram_ok ex_dc.
Proof.
  split.
  - unfold areas_ok. rewrite ex_dc_areas. split_and!.
    + constructor; [|constructor]. apply new_area_wf; closed_Z.
    + intros i j a b x Hi Hj. apply list_lookup_singleton_Some in Hi as [-> _], Hj as [-> _]. done.
    + intros i Hi. vm_compute in Hi. discriminate.
    + intros i Hi. vm_compute in Hi. injection Hi as <-. cbn. lia.
  - rewrite ex_dc_areas. by repeat constructor.
  - intros i j ar ar' b Hi Hj _ _. rewrite ex_dc_areas in Hi, Hj.
    apply list_lookup_singleton_Some in Hi as [-> _], Hj as [-> _]. done.
Qed.
Lemma ex_dc_is_ram x : 0 <= x < 0x100000 -> is_ram ex_dc x.
Proof.
  intros Hx. eexists 0%nat, _, 0. unfold in_ram. rewrite ex_dc_areas. split_and!; [reflexivity | |].
  - unfold in_area. vm_compute (addr_compare _). vm_compute (area_size _). lia.
  - split; try (vm_compute; reflexivity); [vm_compute; discriminate|].
    exists 0x100000. split; [split; vm_compute; reflexivity | vm_compute; discriminate].
Qed.

Lemma invalidate_all_good_witness :
  exists s', invalidate_all 16 4 ex_dc = Ok tt s' /\ dc_good 16 4 s' /\ mem_rest ex_dc s'.
Proof.
  apply (invalidate_all_good 16 4 ex_dc ex_dc_conf ex_dc_typed ex_dc_ram); vm_compute; reflexivity.
Defined.

(** The cache turned on. *)
Lemma good_upd_sr bs ns v s : dc_good bs ns s -> dc_good bs ns (upd (SPR SPR_SR) v s).
Proof.
  intros [].
  assert (Hr : mem_rest s (upd (SPR SPR_SR) v s)) by by apply mem_rest_upd, mem_rest_refl.
  split; [|by apply upd_typed|by apply (mem_rest_ok s)| |].
  - destruct g_cfg0. split; rewrite ?upd_ne by done; assumption.
  - intros set way Hs Hw j Hj. rewrite !upd_ne in * by done. cbv zeta.
    rewrite (mem_rest_is_ram s), (mem_rest_val s) by done. by apply g_lines0.
  - intros set w w'. rewrite !upd_ne by done. apply g_unique0.
Qed.
Definition ex_dc_on : Sim := upd (SPR SPR_SR) 9 (state_of (invalidate_all 16 4 ex_dc)).

Lemma ex_dc_on_good : dc_good 16 4 ex_dc_on /\ forall x, 0 <= x < 0x100000 -> is_ram ex_dc_on x.
Proof.
  destruct (invalidate_all_good 16 4 ex_dc ex_dc_conf ex_dc_typed ex_dc_ram) as (s' & E & Hg & Hr);
    [vm_compute; reflexivity..|].
  unfold ex_dc_on. change (Z.to_nat 4) with 4%nat in E. rewrite E. cbn [state_of]. split; [by apply good_upd_sr|].
  intros x Hx. apply (mem_rest_is_ram s'); [apply mem_rest_upd; [done | apply mem_rest_refl, Hg]|].
  apply (mem_rest_is_ram _ _ _ Hr), ex_dc_is_ram, Hx.
Qed.

Lemma dc_read_coherent_witness :
  exists s', dc_simulate_read (H := no_devices) 0x42 0x42 1 ex_dc_on = Ok 0x33 s' /\ dc_good 16 4 s'.
Proof.
  destruct (dc_read_coherent (H := no_devices) 16 4 0x42 0x42 1 ex_dc_on) as (s' & E & Hg & _).
  - apply ex_dc_on_good.
  - split_and!; vm_compute; reflexivity.
  - lia.
  - auto.
  - reflexivity.
  - intros j Hj. apply ex_dc_on_good. change (16 / 4) with 4 in Hj. change (0x42 - 0x42 mod 16) with 0x40. lia.
  - exists s'. split; [|exact Hg]. rewrite E. reflexivity.
Defined.

Lemma dc_write_coherent_witness :
  exists s', dc_simulate_write (H := no_devices) 0x40 0x40 0xabcd 2 ex_dc_on = Ok tt s' /\ dc_good 16 4 s' /\
    ram_byte s' 0x41 = 0xcd /\ ram_byte s' 0x42 = 0x33.
Proof.
  destruct (dc_write_coherent (H := no_devices) 16 4 0x40 0x40 0xabcd 2 ex_dc_on) as (s' & E & Hg & _ & _ & _ & Hb).
  - apply ex_dc_on_good.
  - split_and!; vm_compute; reflexivity.
  - lia.
  - lia.
  - auto.
  - reflexivity.
  - intros j Hj. apply ex_dc_on_good. change (16 / 4) with 4 in Hj. change (0x40 - 0x40 mod 16) with 0x40. lia.
  - exists s'. split; [exact E|]. split; [exact Hg|].
    split; (rewrite Hb by (apply ex_dc_on_good; lia); vm_compute; reflexivity).
Defined.

Lemma dc_power_up_stale_witness :
  exists s', dc_simulate_read (H := no_devices) 0 0 4
    (upd (SPR SPR_SR) 9 (state_of (set_program32 (H := no_devices) 0 0x11223344 ex_dc))) = Ok 0 s'.
Proof.
  apply (dc_power_up_stale (H := no_devices) 16 4).
  - split; first [closed_Z | left; reflexivity].
  - split_and!; vm_compute; reflexivity.
  - intros w. split; vm_compute; reflexivity.
Defined.

(** The default block size of 1 byte, which [dc_blocksize] would reject: a byte
    read through the cache is not the byte in memory. *)
Example dc_default_block_byte :
  match dc_simulate_read (H := no_devices) 0x41 0x41 1 (upd Dc_blocksize 1 ex_dc_on) with
  | Ok v s' => (v, ram_byte s' 0x41) = (0x11, 0x22)
  | Stop _ _ => False
  end.
Proof. vm_compute. reflexivity. Qed.

End Dcache.
