(* ===== verification/Icache.v ===== *)
(** * The instruction cache (cache/icache-model.c)

    The arrays are flat: line [n] of way [w] is entry [n + w * nsets], its data
    starts at byte [entry << blocksize_log2] of [mem]. *)

From S2P Require Export Dcache.

Module Icache.
Import Except Tick Mem Ram Mmu Dcache.

Definition MAX_IC_SETS : Z := 1024.
Definition MAX_IC_WAYS : Z := 32.
Definition MIN_IC_BLOCK_SIZE : Z := 16.
Definition MAX_IC_BLOCK_SIZE : Z := 32.

(** [for (way = set; way < ic->last_way; way += ic->nsets) body]; the fuel is
    the number of entries. *)
Fixpoint ic_for_ways (fuel : nat) (way : Z) (body : Z -> M unit) : M unit :=
  last_way ← rd (Ic I_last_way);
  if way <? last_way then
    match fuel with
    | O => stop_with Out_of_fuel
    | S fuel => body way;; nsets ← rd (Ic I_nsets); ic_for_ways fuel (u32 (way + nsets)) body
    end
  else ret tt.
Definition ic_ways (set : Z) (body : Z -> M unit) : M unit :=
  last_way ← rd (Ic I_last_way); ic_for_ways (Z.to_nat last_way) set body.

(** The scan for a matching entry. *)
Fixpoint ic_find_way (fuel : nat) (way tagaddr : Z) : M (option Z) :=
  last_way ← rd (Ic I_last_way);
  if way <? last_way then
    match fuel with
    | O => stop_with Out_of_fuel
    | S fuel =>
        t ← rd (Ic_tags way);
        if t =? tagaddr then ret (Some way)
        else nsets ← rd (Ic I_nsets); ic_find_way fuel (u32 (way + nsets)) tagaddr
    end
  else ret None.

(** The scan for the least recently used entry. *)
Fixpoint ic_min_way (fuel : nat) (lru_way minlru way : Z) : M Z :=
  last_way ← rd (Ic I_last_way);
  if lru_way <? last_way then
    match fuel with
    | O => stop_with Out_of_fuel
    | S fuel =>
        l ← rd (Ic_lrus lru_way);
        nsets ← rd (Ic I_nsets);
        if l <? minlru then ic_min_way fuel (u32 (lru_way + nsets)) l lru_way
        else ic_min_way fuel (u32 (lru_way + nsets)) minlru way
    end
  else ret way.

(** The host-order word at a byte offset of [mem]. *)
Definition ic_word (i : Z) : M Z :=
  b0 ← rd (Ic_mem i); b1 ← rd (Ic_mem (i + 1)); b2 ← rd (Ic_mem (i + 2)); b3 ← rd (Ic_mem (i + 3));
  ret (b0 + b1 * 2 ^ 8 + b2 * 2 ^ 16 + b3 * 2 ^ 24).
Definition ic_set_word (i v : Z) : M unit :=
  wr (Ic_mem i) v;; wr (Ic_mem (i + 1)) (Z.shiftr v 8);;
  wr (Ic_mem (i + 2)) (Z.shiftr v 16);; wr (Ic_mem (i + 3)) (Z.shiftr v 24).

Section Icache.
Context `{Devices}.

(** The refill loop; the result says that a word was outside all areas. *)
Fixpoint ic_refill (fuel : nat) (fetchaddr way reload_addr reload_end : Z) : M bool :=
  if reload_addr <? reload_end then
    match fuel with
    | O => stop_with Out_of_fuel
    | S fuel =>
        offset_mask ← rd (Ic I_block_offset_mask);
        let off := Z.land reload_addr offset_mask in
        tmp ← evalsim_mem32 (Z.lor fetchaddr off) 0;
        ic_set_word (Z.lor way off) tmp;;
        cur ← gets cur_area;
        match cur with
        | None =>
            log2 ← rd (Ic I_blocksize_log2);
            wr (Ic_tags (Z.shiftr way log2)) (-1);; wr (Ic_lrus (Z.shiftr way log2)) 0;; ret true
        | Some _ =>
            log_read fetchaddr tmp;; ic_refill fuel fetchaddr way (u32 (reload_addr + 4)) reload_end
        end
    end
  else ret false.

Definition ic_simulate_fetch (fetchaddr virt_addr : Z) : M Z :=
  icp ← flag (SPR SPR_UPR) SPR_UPR_ICP;
  ice ← flag (SPR SPR_SR) SPR_SR_ICE;
  ci ← isset Insn_ci;
  if negb icp || negb ice || ci then
    tmp ← evalsim_mem32 fetchaddr virt_addr;
    log_read fetchaddr tmp;; ret tmp
  else
    present ← isset Ic_state;
    (if present : bool then ret tt else stop_with Null_deref);;
    set_mask ← rd (Ic I_set_mask); log2 ← rd (Ic I_blocksize_log2);
    tagaddr_mask ← rd (Ic I_tagaddr_mask);
    let set := Z.shiftr (Z.land fetchaddr set_mask) log2 in
    let tagaddr := Z.land fetchaddr tagaddr_mask in
    last_way ← rd (Ic I_last_way);
    found ← ic_find_way (Z.to_nat last_way) set tagaddr;
    reload ← rd (Ic I_ustates_reload);
    offset_mask ← rd (Ic I_block_offset_mask);
    match found with
    | Some way =>
        adds (Stat St_ic_readhit) 1;;
        ic_ways set (fun lru_way =>
          a ← rd (Ic_lrus lru_way); b ← rd (Ic_lrus way); when (b <? a) (adds (Ic_lrus lru_way) (-1)));;
        wr (Ic_lrus way) reload;;
        d ← rd (Ic I_hitdelay); adds Mem_cycles d;;
        let way := u32 (Z.shiftl way log2) in
        ic_word (Z.lor way (Z.land fetchaddr offset_mask))
    | None =>
        adds (Stat St_ic_readmiss) 1;;
        way ← ic_min_way (Z.to_nat last_way) set reload set;
        wr (Ic_tags way) tagaddr;;
        ic_ways set (fun lru_way => l ← rd (Ic_lrus lru_way); when (nz l) (adds (Ic_lrus lru_way) (-1)));;
        wr (Ic_lrus way) reload;;
        let reload_addr := Z.land fetchaddr offset_mask in
        bs ← rd (Ic I_blocksize);
        let reload_end := u32 (reload_addr + bs) in
        block_mask ← rd (Ic I_block_mask);
        let fetchaddr := Z.land fetchaddr block_mask in
        let way := u32 (Z.shiftl way log2) in
        dropped ← ic_refill (refill_words bs) fetchaddr way reload_addr reload_end;
        if dropped : bool then ret 0
        else
          d ← rd (Ic I_missdelay); adds Mem_cycles d;;
          pcu ← isset Pcu_enabled;
          when pcu (pcu_count_event SPR_PCMR_ICM);;
          (* [reload_addr] is now [reload_end], the same offset modulo the block *)
          ic_word (Z.lor way (Z.land reload_end offset_mask))
    end.
End Icache.

Definition ic_inv (dataaddr : Z) : M unit :=
  icp ← flag (SPR SPR_UPR) SPR_UPR_ICP;
  if negb icp then ret tt
  else
    present ← isset Ic_state;
    (if present : bool then ret tt else stop_with Null_deref);;
    set_mask ← rd (Ic I_set_mask); log2 ← rd (Ic I_blocksize_log2);
    let set := Z.shiftr (Z.land dataaddr set_mask) log2 in
    ice ← flag (SPR SPR_SR) SPR_SR_ICE;
    if negb ice then ic_ways set (fun way => wr (Ic_tags way) (-1);; wr (Ic_lrus way) 0)
    else
      tagaddr_mask ← rd (Ic I_tagaddr_mask);
      let tagaddr := Z.land dataaddr tagaddr_mask in
      ic_ways set (fun way =>
        t ← rd (Ic_tags way);
        when (t =? tagaddr) (wr (Ic_tags way) (-1);; wr (Ic_lrus way) 0)).

(** ** Configuration *)

Definition ic_enabled (val : Z) : M unit :=
  wr (Ic I_enabled) val;;
  if nz val then ors (SPR SPR_UPR) SPR_UPR_ICP else clr (SPR SPR_UPR) SPR_UPR_ICP.
Definition ic_nsets (val : Z) : M unit :=
  when (is_power2 val && (val <=? MAX_IC_SETS))
    (let set_bits := log2_int val in
     wr (Ic I_nsets) val;;
     clr (SPR SPR_ICCFGR) SPR_ICCFGR_NCS;;
     ors (SPR SPR_ICCFGR) (Z.shiftl set_bits SPR_ICCFGR_NCS_OFF)).
Definition ic_nways (val : Z) : M unit :=
  when (is_power2 val && (val <=? MAX_IC_WAYS))
    (let way_bits := log2_int val in
     wr (Ic I_nways) val;;
     clr (SPR SPR_ICCFGR) SPR_ICCFGR_NCW;;
     ors (SPR SPR_ICCFGR) (Z.shiftl way_bits SPR_ICCFGR_NCW_OFF)).
Definition ic_blocksize (val : Z) : M unit :=
  switch val
    [ ([MIN_IC_BLOCK_SIZE], wr (Ic I_blocksize) val;; clr (SPR SPR_ICCFGR) SPR_ICCFGR_CBS);
      ([MAX_IC_BLOCK_SIZE], wr (Ic I_blocksize) val;; ors (SPR SPR_ICCFGR) SPR_ICCFGR_CBS) ]
    (ret tt).
Definition ic_ustates (val : Z) : M unit :=
  when ((2 <=? val) && (val <=? 4)) (wr (Ic I_ustates) val).
Definition ic_hitdelay (val : Z) : M unit := wr (Ic I_hitdelay) val.
Definition ic_missdelay (val : Z) : M unit := wr (Ic I_missdelay) val.

Definition ic_start_sec : M unit :=
  wr (Ic I_enabled) 0;; wr (Ic I_nsets) 1;; wr (Ic I_nways) 1;; wr (Ic I_blocksize) MIN_IC_BLOCK_SIZE;;
  wr (Ic I_ustates) 2;; wr (Ic I_hitdelay) 1;; wr (Ic I_missdelay) 1;;
  enabled ← isset (Ic I_enabled);
  (if enabled : bool then ors (SPR SPR_UPR) SPR_UPR_ICP else clr (SPR SPR_UPR) SPR_UPR_ICP);;
  nsets ← rd (Ic I_nsets);
  let set_bits := log2_int nsets in
  clr (SPR SPR_ICCFGR) SPR_ICCFGR_NCS;;
  ors (SPR SPR_ICCFGR) (Z.shiftl set_bits SPR_ICCFGR_NCS_OFF);;
  nways ← rd (Ic I_nways);
  let way_bits := log2_int nways in
  clr (SPR SPR_ICCFGR) SPR_ICCFGR_NCW;;
  ors (SPR SPR_ICCFGR) (Z.shiftl way_bits SPR_ICCFGR_NCW_OFF);;
  bs ← rd (Ic I_blocksize);
  (if MIN_IC_BLOCK_SIZE =? bs then clr (SPR SPR_ICCFGR) SPR_ICCFGR_CBS else ors (SPR SPR_ICCFGR) SPR_ICCFGR_CBS);;
  wr Ic_state 1.

(** The arrays are allocated and filled: data and LRU with 0, tags with -1. *)
Definition ic_end_sec : M unit :=
  nways ← rd (Ic I_nways); nsets ← rd (Ic I_nsets); bs ← rd (Ic I_blocksize);
  let size := u32 (nways * nsets * bs) in
  (if nz size then
     for_ (Z.to_nat size) 0 1 (fun i => wr (Ic_mem i) 0);;
     for_ (Z.to_nat (u32 (nsets * nways))) 0 1 (fun i => wr (Ic_lrus i) 0);;
     for_ (Z.to_nat (u32 (nsets * nways))) 0 1 (fun i => wr (Ic_tags i) (-1))
   else wr (Ic I_enabled) 0);;
  wr (Ic I_blocksize_log2) (log2_int bs);;
  log2 ← rd (Ic I_blocksize_log2);
  wr (Ic I_set_mask) (Z.shiftl (u32 (nsets - 1)) log2);;
  wr (Ic I_tagaddr_mask) (Z.lnot (u32 (nsets * bs) - 1));;
  wr (Ic I_last_way) (nsets * nways);;
  wr (Ic I_block_offset_mask) (bs - 1);;
  offset_mask ← rd (Ic I_block_offset_mask);
  wr (Ic I_block_mask) (Z.lnot offset_mask);;
  ustates ← rd (Ic I_ustates);
  wr (Ic I_ustates_reload) (ustates - 1).

(** ** Typing *)

#[export] Hint Opaque ic_for_ways ic_ways ic_find_way ic_min_way ic_word ic_set_word ic_refill ic_simulate_fetch ic_inv
  : typeclass_instances.
#[export] Instance ic_for_ways_typed R `{!Enters R} n w b :
  (forall i, Respects R (b i)) -> Respects R (ic_for_ways n w b).
Proof. intros Hb. revert w. induction n as [|n IH]; intros w; cbn [ic_for_ways]; respects. Qed.
#[export] Instance ic_ways_typed R `{!Enters R} w b :
  (forall i, Respects R (b i)) -> Respects R (ic_ways w b).
Proof. intros Hb. unfold ic_ways. respects. Qed.
#[export] Instance ic_find_way_typed R `{!Enters R} n w t : Respects R (ic_find_way n w t).
Proof. revert w. induction n as [|n IH]; intros w; cbn [ic_find_way]; respects. Qed.
#[export] Instance ic_min_way_typed R `{!Enters R} n l m w : Respects R (ic_min_way n l m w).
Proof. revert l m w. induction n as [|n IH]; intros l m w; cbn [ic_min_way]; respects. Qed.
#[export] Instance ic_word_typed R `{!Enters R} i : Respects R (ic_word i).
Proof. unfold ic_word. respects. Qed.
#[export] Instance ic_set_word_typed R `{!Enters R} i v : Respects R (ic_set_word i v).
Proof. unfold ic_set_word. respects. Qed.
#[export] Instance ic_refill_typed R `{!Enters R} `{Devices} n f w a e : Respects R (ic_refill n f w a e).
Proof. revert a. induction n as [|n IH]; intros a; cbn [ic_refill]; respects. Qed.
#[export] Instance ic_simulate_fetch_typed R `{!Enters R} `{Devices} a v : Respects R (ic_simulate_fetch a v).
Proof. unfold ic_simulate_fetch. respects; (apply ic_ways_typed; [assumption|]; intros; respects). Qed.
#[export] Instance ic_inv_typed R `{!Enters R} a : Respects R (ic_inv a).
Proof. unfold ic_inv. respects; (apply ic_ways_typed; [assumption|]; intros; respects). Qed.

End Icache.
