(* ===== verification/Abstract.v ===== *)
(** * Loads, stores and instruction fetches (cpu/common/abstract.c)

    The functions the instructions call to access memory ([eval_mem*],
    [set_mem*], [eval_insn]): alignment, address translation, the reservation
    of [l.lwa], the performance counters and watchpoints, and the access through
    the caches; and the direct accesses of the debugger and the monitor
    ([eval_direct*], [set_direct*]), which raise no exceptions. *)

From S2P Require Export Debug Mmu Dcache Icache.

Module Abstract.
Import Sched Debug Except Tick Mem Ram Mmu Dcache Icache.

(** support/profile.h *)
Definition MPROF_READ : Z := 1.
Definition MPROF_WRITE : Z := 2.
Definition MPROF_FETCH : Z := 4.
Definition MPROF_8 : Z := 8.
Definition MPROF_16 : Z := 16.
Definition MPROF_32 : Z := 32.

(** The memory profile: a line of the profile file. *)
Definition mprofile (memaddr type : Z) : M unit :=
  m ← isset Sim_mprofile; when m (emit (Ev_mprofile memaddr type)).

(** [if (config.pcu.enabled) pcu_count_event (event)]. *)
Definition count (event : Z) : M unit := pcu ← isset Pcu_enabled; when pcu (pcu_count_event event).

(** [if (config.debug.enabled) *breakpoint += check_debug_unit (action, udata)]. *)
Definition watch (breakpoint : cell) (action : debug_unit_action) (udata : Z) : M unit :=
  debug ← isset Debug_enabled;
  when debug (b ← check_debug_unit action udata; adds breakpoint (b2z b)).

(** [if ((phys_memaddr & ~3) == loadlock_addr) loadlock_active = 0]. *)
Definition break_reservation (phys_memaddr : Z) : M unit :=
  l ← rd Loadlock_addr;
  when (Z.land phys_memaddr (u32 (Z.lnot 3)) =? l) (wr Loadlock_active 0).

Section Abstract.
Context `{Devices}.

(** ** Loads *)

Definition eval_mem32 (memaddr : Z) (breakpoint : cell) : M Z :=
  mprofile memaddr (Z.lor MPROF_32 MPROF_READ);;
  if nz (Z.land memaddr 3) then except_handle EXCEPT_ALIGN memaddr;; ret 0
  else
    phys_memaddr ← dmmu_translate memaddr false;
    pending ← isset Except_pending;
    if pending then ret 0
    else
      count SPR_PCMR_LA;;
      watch breakpoint DebugLoadAddress memaddr;;
      dc ← isset Dc_enabled;
      temp ← (if dc then dc_simulate_read phys_memaddr memaddr 4 else evalsim_mem32 phys_memaddr memaddr);
      watch breakpoint DebugLoadData temp;;
      ret temp.

Definition eval_mem16 (memaddr : Z) (breakpoint : cell) : M Z :=
  mprofile memaddr (Z.lor MPROF_16 MPROF_READ);;
  if nz (Z.land memaddr 1) then except_handle EXCEPT_ALIGN memaddr;; ret 0
  else
    phys_memaddr ← dmmu_translate memaddr false;
    pending ← isset Except_pending;
    if pending then ret 0
    else
      count SPR_PCMR_LA;;
      watch breakpoint DebugLoadAddress memaddr;;
      dc ← isset Dc_enabled;
      temp ← (if dc then dc_simulate_read phys_memaddr memaddr 2 else evalsim_mem16 phys_memaddr memaddr);
      let temp := u16 temp in
      watch breakpoint DebugLoadData temp;;
      ret temp.

Definition eval_mem8 (memaddr : Z) (breakpoint : cell) : M Z :=
  mprofile memaddr (Z.lor MPROF_8 MPROF_READ);;
  phys_memaddr ← dmmu_translate memaddr false;
  pending ← isset Except_pending;
  if pending then ret 0
  else
    count SPR_PCMR_LA;;
    watch breakpoint DebugLoadAddress memaddr;;
    dc ← isset Dc_enabled;
    temp ← (if dc then dc_simulate_read phys_memaddr memaddr 1 else evalsim_mem8 phys_memaddr memaddr);
    let temp := u8 temp in
    watch breakpoint DebugLoadData temp;;
    ret temp.

(** ** Instruction fetches *)

Definition eval_insn (memaddr : Z) (breakpoint : cell) : M Z :=
  mprofile memaddr (Z.lor MPROF_32 MPROF_FETCH);;
  phys_memaddr ← immu_translate memaddr;
  pending ← isset Except_pending;
  if pending then ret 0
  else
    watch breakpoint DebugInstructionFetch memaddr;;
    count SPR_PCMR_IF;;
    state ← isset Ic_state;
    enabled ← isset (Ic I_enabled);
    temp ← (if state && enabled then ic_simulate_fetch phys_memaddr memaddr
            else evalsim_mem32 phys_memaddr memaddr);
    watch breakpoint DebugLoadData temp;;
    ret temp.

(** ** Stores *)

Definition set_mem32 (memaddr value : Z) (breakpoint : cell) : M unit :=
  mprofile memaddr (Z.lor MPROF_32 MPROF_WRITE);;
  if nz (Z.land memaddr 3) then except_handle EXCEPT_ALIGN memaddr
  else
    phys_memaddr ← dmmu_translate memaddr true;
    break_reservation phys_memaddr;;
    pending ← isset Except_pending;
    if pending then ret tt
    else
      count SPR_PCMR_SA;;
      watch breakpoint DebugStoreAddress memaddr;;
      watch breakpoint DebugStoreData value;;
      dc ← isset Dc_enabled;
      (if dc then dc_simulate_write phys_memaddr memaddr value 4 else setsim_mem32 phys_memaddr memaddr value);;
      log_write memaddr value.

Definition set_mem16 (memaddr value : Z) (breakpoint : cell) : M unit :=
  let value := u16 value in
  mprofile memaddr (Z.lor MPROF_16 MPROF_WRITE);;
  if nz (Z.land memaddr 1) then except_handle EXCEPT_ALIGN memaddr
  else
    phys_memaddr ← dmmu_translate memaddr true;
    break_reservation phys_memaddr;;
    pending ← isset Except_pending;
    if pending then ret tt
    else
      count SPR_PCMR_SA;;
      watch breakpoint DebugStoreAddress memaddr;;
      watch breakpoint DebugStoreData value;;
      dc ← isset Dc_enabled;
      (if dc then dc_simulate_write phys_memaddr memaddr value 2 else setsim_mem16 phys_memaddr memaddr value);;
      log_write memaddr value.

Definition set_mem8 (memaddr value : Z) (breakpoint : cell) : M unit :=
  let value := u8 value in
  mprofile memaddr (Z.lor MPROF_8 MPROF_WRITE);;
  phys_memaddr ← dmmu_translate memaddr true;
  break_reservation phys_memaddr;;
  pending ← isset Except_pending;
  if pending then ret tt
  else
    count SPR_PCMR_SA;;
    watch breakpoint DebugStoreAddress memaddr;;
    watch breakpoint DebugStoreData value;;
    dc ← isset Dc_enabled;
    (if dc then dc_simulate_write phys_memaddr memaddr value 1 else setsim_mem8 phys_memaddr memaddr value);;
    log_write memaddr value.

(** ** Direct accesses *)

Definition eval_direct32 (memaddr : Z) (through_mmu through_dc : bool) : M Z :=
  if nz (Z.land memaddr 3) then ret 0
  else
    phys_memaddr ← (if through_mmu then peek_into_dtlb memaddr false through_dc else ret memaddr);
    if through_dc then dc_simulate_read phys_memaddr memaddr 4
    else
      mem ← verify_memoryarea phys_memaddr;
      match mem with
      | Some i =>
          a ← area_at i;
          call_read32 (readfunc32 (direct_ops a)) (Z.land phys_memaddr (size_mask a))
      | None => ret 0
      end.
Definition eval_direct16 (memaddr : Z) (through_mmu through_dc : bool) : M Z :=
  if nz (Z.land memaddr 1) then ret 0
  else
    phys_memaddr ← (if through_mmu then peek_into_dtlb memaddr false through_dc else ret memaddr);
    if through_dc then temp ← dc_simulate_read phys_memaddr memaddr 2; ret (u16 temp)
    else
      mem ← verify_memoryarea phys_memaddr;
      match mem with
      | Some i =>
          a ← area_at i;
          call_read16 (readfunc16 (direct_ops a)) (Z.land phys_memaddr (size_mask a))
      | None => ret 0
      end.
Definition eval_direct8 (memaddr : Z) (through_mmu through_dc : bool) : M Z :=
  phys_memaddr ← (if through_mmu then peek_into_dtlb memaddr false through_dc else ret memaddr);
  if through_dc then temp ← dc_simulate_read phys_memaddr memaddr 1; ret (u8 temp)
  else
    mem ← verify_memoryarea phys_memaddr;
    match mem with
    | Some i =>
        a ← area_at i;
        call_read8 (readfunc8 (direct_ops a)) (Z.land phys_memaddr (size_mask a))
    | None => ret 0
    end.

(** The stores through the cache of 32 and 16 bits do not use the translated
    address, and those of 16 and 8 bits look it up as a load. *)
Definition set_direct32 (memaddr value : Z) (through_mmu through_dc : bool) : M unit :=
  if nz (Z.land memaddr 3) then ret tt
  else
    phys_memaddr ← (if through_mmu then peek_into_dtlb memaddr true through_dc else ret memaddr);
    (if through_dc then dc_simulate_write memaddr memaddr value 4
     else
       mem ← verify_memoryarea phys_memaddr;
       match mem with
       | Some i =>
           a ← area_at i;
           call_write32 (writefunc32 (direct_ops a)) (Z.land phys_memaddr (size_mask a)) value
       | None => ret tt
       end);;
    log_write memaddr value.
Definition set_direct16 (memaddr value : Z) (through_mmu through_dc : bool) : M unit :=
  let value := u16 value in
  if nz (Z.land memaddr 1) then ret tt
  else
    phys_memaddr ← (if through_mmu then peek_into_dtlb memaddr false through_dc else ret memaddr);
    (if through_dc then dc_simulate_write memaddr memaddr value 2
     else
       mem ← verify_memoryarea phys_memaddr;
       match mem with
       | Some i =>
           a ← area_at i;
           call_write16 (writefunc16 (direct_ops a)) (Z.land phys_memaddr (size_mask a)) value
       | None => ret tt
       end);;
    log_write memaddr value.
Definition set_direct8 (memaddr value : Z) (through_mmu through_dc : bool) : M unit :=
  let value := u8 value in
  phys_memaddr ← (if through_mmu then peek_into_dtlb memaddr false through_dc else ret memaddr);
  (if through_dc then dc_simulate_write phys_memaddr memaddr value 1
   else
     mem ← verify_memoryarea phys_memaddr;
     match mem with
     | Some i =>
         a ← area_at i;
         call_write8 (writefunc8 (direct_ops a)) (Z.land phys_memaddr (size_mask a)) value
     | None => ret tt
     end);;
  log_write memaddr value.

(** ** Typing *)

#[export] Instance eval_mem32_typed R `{!Enters R} a : Respects R (eval_mem32 a Breakpoint).
Proof. unfold eval_mem32, mprofile, count, watch. respects. Qed.
#[export] Instance eval_mem16_typed R `{!Enters R} a : Respects R (eval_mem16 a Breakpoint).
Proof. unfold eval_mem16, mprofile, count, watch. respects. Qed.
#[export] Instance eval_mem8_typed R `{!Enters R} a : Respects R (eval_mem8 a Breakpoint).
Proof. unfold eval_mem8, mprofile, count, watch. respects. Qed.
#[export] Instance eval_insn_typed R `{!Enters R} a : Respects R (eval_insn a Breakpoint).
Proof. unfold eval_insn, mprofile, count, watch. respects. Qed.
#[export] Instance set_mem32_typed R `{!Enters R} a v : Respects R (set_mem32 a v Breakpoint).
Proof. unfold set_mem32, mprofile, count, watch, break_reservation. respects. Qed.
#[export] Instance set_mem16_typed R `{!Enters R} a v : Respects R (set_mem16 a v Breakpoint).
Proof. unfold set_mem16, mprofile, count, watch, break_reservation. respects. Qed.
#[export] Instance set_mem8_typed R `{!Enters R} a v : Respects R (set_mem8 a v Breakpoint).
Proof. unfold set_mem8, mprofile, count, watch, break_reservation. respects. Qed.
#[export] Instance eval_direct32_typed R `{!Enters R} a m d : Respects R (eval_direct32 a m d).
Proof. unfold eval_direct32. respects. Qed.
#[export] Instance eval_direct16_typed R `{!Enters R} a m d : Respects R (eval_direct16 a m d).
Proof. unfold eval_direct16. respects. Qed.
#[export] Instance eval_direct8_typed R `{!Enters R} a m d : Respects R (eval_direct8 a m d).
Proof. unfold eval_direct8. respects. Qed.
#[export] Instance set_direct32_typed R `{!Enters R} a v m d : Respects R (set_direct32 a v m d).
Proof. unfold set_direct32. respects. Qed.
#[export] Instance set_direct16_typed R `{!Enters R} a v m d : Respects R (set_direct16 a v m d).
Proof. unfold set_direct16. respects. Qed.
#[export] Instance set_direct8_typed R `{!Enters R} a v m d : Respects R (set_direct8 a v m d).
Proof. unfold set_direct8. respects. Qed.
End Abstract.

(** ** Around the access *)

(** The performance counters and the watchpoints do not bear on the access. *)
#[export] Instance check_debug_unit_calm a u : Respects calm (check_debug_unit a u).
Proof.
  apply calm_respects; [| |apply _]; unfold check_debug_unit, calculate_watchpoints, update_counters; respects.
Qed.
Lemma watch_run a u s : exists s', watch Breakpoint a u s = Ok tt s' /\ calm s s'.
Proof.
  assert (Hc : Respects calm (watch Breakpoint a u)).
  { apply calm_respects; unfold watch, check_debug_unit, calculate_watchpoints, update_counters; respects. }
  destruct (total_respects calm (watch Breakpoint a u) s) as ([] & s' & H); [|apply _ | eauto].
  unfold watch, check_debug_unit, calculate_watchpoints, update_counters. total.
Qed.
Lemma count_run e s : typed s -> exists s', count e s = Ok tt s' /\ calm s s'.
Proof.
  intros Hty. unfold count, isset, bind, rd, ret. destruct (nz _); cbn [when].
  - by apply pcu_calm.
  - by exists s.
Qed.

(** What a data address translates to: the physical address and whether the
    cache is inhibited; [None] when the access raises an exception. *)
Definition translated (k va : Z) (write : bool) (s : Sim) : option (Z * Z) :=
  if dmmu_on s then
    match dtlb k va s with
    | Some hit =>
        let tr := s (SPR (hit + 128)) in
        if dtlb_allows (supervisor s) write tr then Some (phys tr va, Z.land tr 2) else None
    | None => None
    end
  else Some (va, b2z (0x80000000 <=? va)).

(** The state loads and stores start from and leave: no exception is pending,
    the MMU is configured, and a cache that is configured is coherent. *)
Record lsu_ok (bs ns k : Z) (s : Sim) : Prop := {
  l_typed : typed s; l_ram : ram_ok s; l_mmu : mmu_ok Dmmu 13 k s; l_none : s Except_pending = 0;
  l_dc : nz (s Dc_enabled) = true -> dc_good bs ns s }.

(** The cells a load may change. *)
Definition load_cell (c : cell) : Prop :=
  match c with
  | Stat _ | Dc_lru _ _ | Dc_line _ _ _ | Dc_tagaddr _ _
  | G (Mem_cycles | Cur_vadd | Breakpoint | Data_ci) => true
  | SPR q => 2048 <=? q
  | _ => false
  end = true.
(** And a store. *)
Definition store_cell (c : cell) : Prop := load_cell c \/ c = G Loadlock_active \/ exists b i, c = Mem b i.

Lemma quiet_load c : quiet c -> load_cell c.
Proof.
  unfold quiet, load_cell. destruct c; try done; [rewrite !Z.leb_le; lia | by destruct g].
Qed.
Lemma dc_cells_load c : dc_cells c -> load_cell c.
Proof. by intros [?%quiet_load|[(? & ? & ? & ->)|(? & ? & ->)]]. Qed.

(** What one step of an access leaves alone. *)
Record lsu_step (bs ns k : Z) (s s' : Sim) : Prop := {
  st_ok : lsu_ok bs ns k s';
  st_tr : forall va w, 0 <= va < 2 ^ 32 -> translated k va w s' = translated k va w s;
  st_dev : dev_list s' = dev_list s; st_blocks : blocks s' = blocks s }.

Lemma lsu_step_trans bs ns k s1 s2 s3 : lsu_step bs ns k s1 s2 -> lsu_step bs ns k s2 s3 -> lsu_step bs ns k s1 s3.
Proof. intros [] []. split; try congruence; try assumption. intros va w Hva. by rewrite st_tr1, st_tr0. Qed.

Section Steps.
Context (bs ns k : Z) (s : Sim) (Hok : lsu_ok bs ns k s).

Lemma same_tlb_translated s' va w :
  same_tlb Dmmu (SPR_DTLBMR_BASE 0) k s s' -> s' (SPR SPR_SR) = s (SPR SPR_SR) -> s' (SPR SPR_UPR) = s (SPR SPR_UPR) ->
  0 <= va < 2 ^ 32 -> translated k va w s' = translated k va w s.
Proof.
  intros [Hl Ht] E1 E2 Hva. unfold translated, dmmu_on, supervisor. rewrite E1, E2, Hl by exact Hva.
  destruct (dtlb k va s) as [hit|] eqn:E; [|done]. by rewrite (Ht va hit E).
Qed.

(** The registers of the TLB are below those of the debug unit. *)
Lemma low_spr_tlb (s' : Sim) :
  (forall q, q < 12288 -> s' (SPR q) = s (SPR q)) -> s' (Dmmu M_nways) = s (Dmmu M_nways) ->
  same_tlb Dmmu (SPR_DTLBMR_BASE 0) k s s'.
Proof.
  intros Hq Hn. apply same_tlb_intro; [apply Hok | closed_Z | exact Hn | |].
  - intros q Hr'. rewrite Hq by lia. by intros ? ?.
  - intros va hit Hl. apply Hq. apply lookup_ways in Hl; [|apply Hok].
    apply ways_iff in Hl as [? _]; [lia | apply Hok | closed_Z].
Qed.

(** A step that changes what a load or store may change and keeps the page
    tables. *)
Lemma step_cells (s' : Sim) :
  frame store_cell s s' -> dev_list s' = dev_list s -> blocks s' = blocks s -> typed s' -> ram_ok s' ->
  (nz (s Dc_enabled) = true -> dc_good bs ns s') -> same_tlb Dmmu (SPR_DTLBMR_BASE 0) k s s' -> lsu_step bs ns k s s'.
Proof.
  intros Hf Hd Hb Ht Hr Hg Hs. destruct Hok.
  assert (Hc : forall c, ~ load_cell c -> c <> G Loadlock_active -> (forall b i, c <> Mem b i) -> s' c = s c).
  { intros c H1 H2 H3. apply Hf. intros [?|[?|(b & i & ?)]]; [done | done | by eapply H3]. }
  split; [split| |done|done]; try assumption.
  - destruct l_mmu0. split; rewrite ?Hc by done; assumption.
  - by rewrite Hc.
  - by rewrite Hc.
  - intros va w Hva. apply same_tlb_translated; try done; apply Hc; try done; unfold load_cell; by vm_compute.
Qed.

(** A step that leaves the page tables, the caches and memory alone. *)
Lemma step_frame (W : cell -> Prop) s' :
  frame W s s' -> (forall c, W c -> ~ cache_cell c /\ load_cell c) -> mem_rest s s' -> typed s' ->
  same_tlb Dmmu (SPR_DTLBMR_BASE 0) k s s' -> lsu_step bs ns k s s'.
Proof.
  intros Hf HW Hr Ht Hs. apply step_cells; try done; try apply Hr.
  - intros c Hc. apply Hf. intros [_ Hw]%HW. apply Hc. by left.
  - by apply (mem_rest_ok s); [apply Hok|].
  - intros He. apply (good_frame W bs ns s); auto; [by apply Hok|]. by intros c [? _]%HW.
Qed.
Lemma calm_step s' : calm s s' -> lsu_step bs ns k s s' /\ mem_rest s s'.
Proof.
  intros Hc. pose proof (calm_rest s s' (l_ram _ _ _ _ Hok) Hc) as Hr. split; [|exact Hr]. destruct Hc as (Hf & _ & Ht).
  apply (step_frame quiet); try done.
  - intros c Hc. split; [by apply quiet_cache | by apply quiet_load].
  - apply Ht, Hok.
  - apply low_spr_tlb; [|by apply Hf]. intros q Hq. apply Hf. unfold quiet. rewrite Z.leb_le. lia.
Qed.

(** The translation of an address that is mapped. *)
Lemma translate_run va write pa ci :
  0 <= va < 2 ^ 32 -> translated k va write s = Some (pa, ci) ->
  exists s1, dmmu_translate va write s = Ok pa s1 /\ s1 Data_ci = ci /\ lsu_step bs ns k s s1 /\ mem_rest s s1 /\
    frame load_cell s s1.
Proof.
  intros Hva Htr. destruct Hok. unfold translated in Htr. destruct (dmmu_on s) eqn:Hon.
  - destruct (dtlb k va s) as [hit|] eqn:El; [|done].
    destruct (dtlb_allows (supervisor s) write (s (SPR (hit + 128)))) eqn:Ea; [|done]. injection Htr as <- <-.
    rewrite (dmmu_translate_on k) by assumption. rewrite El. unfold supervisor in Ea.
    destruct (hit_refines Dmmu St_dmmu_tlbhit Data_ci (SPR_DTLBMR_BASE 0) k va s) with (hit := hit)
      (exc := EXCEPT_DPF) (fault := dtlb_page_fault (hit + 128) write) (allow := fun sm => dtlb_allows sm write)
      as (r & s' & E & -> & s1 & Hu & Hd); auto; [closed_Z | congruence | intros s0; apply dtlb_page_fault_run |].
    rewrite Ea in Hd. subst s'. exists s1. split; [exact E|].
    assert (Hs : same_tlb Dmmu (SPR_DTLBMR_BASE 0) k s s1).
    { eapply hit_same_tlb with (x := St_dmmu_tlbhit) (g := Data_ci) (exc := 0) (va := va); eauto; closed_Z. }
    destruct Hu as (Hci & _ & _ & Hq & Hf & Hl).
    assert (Hr : mem_rest s s1).
    { destruct Hl as (_ & _ & H3 & H4 & H5 & H6 & _). split; try done.
      - intros b i. apply Hf. intros [?|[?|[?|[q ?]]]]; discriminate.
      - rewrite H5. apply l_ram0. }
    assert (Hty1 : typed s1).
    { pose proof (dmmu_translate_typed keeps_typed va write s l_typed0) as Ht.
      rewrite (dmmu_translate_on k), El in Ht by assumption. by rewrite E in Ht. }
    assert (Hf' : frame (fun c => c = G Data_ci \/ c = G Mem_cycles \/ c = Stat St_dmmu_tlbhit \/
                                  exists q, c = SPR q /\ 2048 <= q) s s1).
    { intros c Hc. destruct c; try (apply Hf; intros [E'|[E'|[E'|[? E']]]]; first [discriminate E' | apply Hc; tauto]).
      rename n into q. rewrite Hq. cbv zeta. assert (q < 2048).
      { destruct (Z.lt_ge_cases q 2048); [done|]. exfalso. apply Hc. eauto 10. }
      rewrite (far_ways Dmmu (SPR_DTLBMR_BASE 0) k va s) by (auto; closed_Z).
      pose proof (lookup_ways Dmmu _ k va s l_mmu0 hit El) as Hw. apply ways_iff in Hw as [? _]; [|done|closed_Z].
      destruct (Z.eqb_spec q hit); [lia | done]. }
    split_and!; try done; [|intros c Hc; apply Hf'; intros Hx; apply Hc].
    + apply (step_frame _ s1 Hf'); try done.
      intros c [->|[->|[->|[q [-> Hq']]]]]; try done. split; [done|]. by apply Z.leb_le.
    + destruct Hx as [->|[->|[->|[q [-> Hq']]]]]; try done. by apply Z.leb_le.
  - injection Htr as <- <-. rewrite dmmu_off by exact Hon. eexists. split; [done|].
    assert (Hr : mem_rest s (upd Data_ci (b2z (2147483648 <=? va)) s)) by by apply mem_rest_upd, mem_rest_refl.
    split_and!; [rewrite upd_eq; by destruct (_ <=? _) | | exact Hr | by apply frame_upd].
    apply (step_frame (fun c => c = G Data_ci)); try done.
    + by apply frame_upd.
    + by intros c ->.
    + by apply upd_typed.
    + apply same_tlb_intro; [done | closed_Z | done | by intros ? ? ? ? | done].
Qed.

(** Logging. *)
Lemma event_step e : lsu_step bs ns k s (add_event e s) /\ mem_rest s (add_event e s).
Proof.
  assert (Hr : mem_rest s (add_event e s)) by (split; try done; apply Hok).
  split; [|exact Hr]. apply (step_frame (fun _ => False)); [intros c _; reflexivity | by intros c | exact Hr | apply Hok | apply same_tlb_intro; [apply Hok | closed_Z | done | by intros ? ? ? ? | done]].
Qed.
Lemma log_read_run a v : exists s', log_read a v s = Ok tt s' /\ lsu_step bs ns k s s' /\ mem_rest s s' /\ frame load_cell s s'.
Proof.
  pose proof (event_step (Ev_log_read a v)) as [? ?].
  assert (lsu_step bs ns k s s) by by split. pose proof (mem_rest_refl s (l_ram _ _ _ _ Hok)).
  unfold log_read, bind, gets. destruct (cur_area s ≫= _) as [ar|]; [|by exists s].
  destruct (area_log ar); [by eexists | by exists s].
Qed.
Lemma log_write_run a v : exists s', log_write a v s = Ok tt s' /\ lsu_step bs ns k s s' /\ mem_rest s s' /\ frame load_cell s s'.
Proof.
  pose proof (event_step (Ev_log_write a v)) as [? ?].
  assert (lsu_step bs ns k s s) by by split. pose proof (mem_rest_refl s (l_ram _ _ _ _ Hok)).
  unfold log_write, bind, gets. destruct (cur_area s ≫= _) as [ar|]; [|by exists s].
  destruct (area_log ar); [by eexists | by exists s].
Qed.
Lemma mprofile_run a m : exists s', mprofile a m s = Ok tt s' /\ lsu_step bs ns k s s' /\ mem_rest s s' /\ frame load_cell s s'.
Proof.
  pose proof (event_step (Ev_mprofile a m)) as [? ?].
  assert (lsu_step bs ns k s s) by by split. pose proof (mem_rest_refl s (l_ram _ _ _ _ Hok)).
  unfold mprofile, isset, bind, rd, ret. destruct (nz _); [by eexists | by exists s].
Qed.
End Steps.

(** ** The bodies of the loads and stores, by width *)

Definition cut (w v : Z) : Z := if w =? 4 then v else if w =? 2 then u16 v else u8 v.
Definition misaligned (w a : Z) : bool := if w =? 1 then false else nz (Z.land a (w - 1)).

Section Widths.
Context `{Devices}.

Definition evalsim_mem (w pa va : Z) : M Z :=
  if w =? 4 then evalsim_mem32 pa va else if w =? 2 then evalsim_mem16 pa va else evalsim_mem8 pa va.
Definition eval_mem (w va : Z) (bp : cell) : M Z :=
  if w =? 4 then eval_mem32 va bp else if w =? 2 then eval_mem16 va bp else eval_mem8 va bp.
Definition set_mem (w va v : Z) (bp : cell) : M unit :=
  if w =? 4 then set_mem32 va v bp else if w =? 2 then set_mem16 va v bp else set_mem8 va v bp.

Definition load_body (w va : Z) (bp : cell) : M Z :=
  pa ← dmmu_translate va false;
  pending ← isset Except_pending;
  if pending then ret 0
  else
    count SPR_PCMR_LA;;
    watch bp DebugLoadAddress va;;
    dc ← isset Dc_enabled;
    temp ← (if dc then dc_simulate_read pa va w else evalsim_mem w pa va);
    watch bp DebugLoadData (cut w temp);;
    ret (cut w temp).
Definition store_body (w va v : Z) (bp : cell) : M unit :=
  pa ← dmmu_translate va true;
  break_reservation pa;;
  pending ← isset Except_pending;
  if pending then ret tt
  else
    count SPR_PCMR_SA;;
    watch bp DebugStoreAddress va;;
    watch bp DebugStoreData v;;
    dc ← isset Dc_enabled;
    (if dc then dc_simulate_write pa va v w else setsim_mem pa va v w);;
    log_write va v.

Lemma eval_mem_eq w va bp :
  w = 1 \/ w = 2 \/ w = 4 -> exists m, eval_mem w va bp =
    (mprofile va m;; if misaligned w va then except_handle EXCEPT_ALIGN va;; ret 0 else load_body w va bp).
Proof. intros [->|[->| ->]]; eexists; reflexivity. Qed.
Lemma set_mem_eq w va v bp :
  w = 1 \/ w = 2 \/ w = 4 -> exists m, set_mem w va v bp =
    (mprofile va m;; if misaligned w va then except_handle EXCEPT_ALIGN va else store_body w va (cut w v) bp).
Proof. intros [->|[->| ->]]; eexists; reflexivity. Qed.

Lemma aligned_spec w a : w = 1 \/ w = 2 \/ w = 4 -> misaligned w a = negb (a mod w =? 0).
Proof.
  intros [->|[->| ->]]; unfold misaligned; cbn [Z.eqb Pos.eqb].
  - by rewrite Z.mod_1_r.
  - change (2 - 1) with (2 ^ 1 - 1). by rewrite land_low by lia.
  - change (4 - 1) with (2 ^ 2 - 1). by rewrite land_low by lia.
Qed.

(** The 32 bytes around an address are RAM (a line has 16 or 32 bytes). *)
Definition ram_around (s : Sim) (pa : Z) : Prop := forall x, x / 32 = pa / 32 -> is_ram s x.

Lemma around_line bs s pa : bs = 16 \/ bs = 32 -> 0 <= pa -> ram_around s pa -> line_in_ram bs pa s.
Proof.
  intros Hb Hp Hr j Hj. apply Hr.
  destruct Hb as [->| ->]; Z.to_euclidean_division_equations; lia.
Qed.
Lemma mem_rest_around s s' pa : mem_rest s s' -> ram_around s pa -> ram_around s' pa.
Proof. intros Hr Ha x Hx. apply (mem_rest_is_ram s s' x Hr). auto. Qed.

Section Access.
Context (bs ns k w va pa : Z) (Hw : w = 1 \/ w = 2 \/ w = 4) (Hpa : 0 <= pa < 2 ^ 32) (Hm : pa mod w = 0).

(** The read itself. *)
Lemma evalsim_run s :
  lsu_ok bs ns k s -> is_ram s pa ->
  exists s', evalsim_mem w pa va s = Ok (ram_val s pa (Z.to_nat w)) s' /\ lsu_step bs ns k s s' /\ mem_rest s s' /\
    frame load_cell s s'.
Proof.
  intros Hok (i & ar & b & Hin). pose proof (l_ram _ _ _ _ Hok) as Hro.
  exists (accessed s i (delayr (ops ar))).
  assert (Hr : mem_rest s (accessed s i (delayr (ops ar)))).
  { apply mem_rest_upd; [done|]. split; try done. intros j [= <-]. by eapply lookup_lt_Some, Hin. }
  assert (Hf : forall W : cell -> Prop, W (G Mem_cycles) -> frame W s (accessed s i (delayr (ops ar)))).
  { intros W HW c Hc. unfold accessed. rewrite upd_ne by (intros <-; done). reflexivity. }
  split_and!; [| |exact Hr|by apply Hf].
  - unfold evalsim_mem. destruct Hw as [->|[->| ->]]; cbn [Z.eqb Pos.eqb].
    + by eapply evalsim_mem8_ram.
    + by eapply evalsim_mem16_ram.
    + by eapply evalsim_mem32_ram.
  - apply (step_frame bs ns k s Hok (fun c => c = G Mem_cycles)); [by apply Hf | by intros c -> | exact Hr | |].
    + apply upd_typed. exact (l_typed _ _ _ _ Hok).
    + apply same_tlb_intro; [apply Hok | closed_Z | done | by intros ? ? ? ? | done].
Qed.

Lemma read_run s :
  lsu_ok bs ns k s -> ram_around s pa ->
  exists s', (dc ← isset Dc_enabled; if dc then dc_simulate_read pa va w else evalsim_mem w pa va) s
      = Ok (ram_val s pa (Z.to_nat w)) s' /\
    lsu_step bs ns k s s' /\ mem_rest s s' /\ frame load_cell s s'.
Proof.
  intros Hok Har. assert (Hpr : is_ram s pa) by by apply Har.
  unfold isset at 1, bind at 1 2, rd at 1, ret at 1. destruct (nz (s Dc_enabled)) eqn:He; [|by apply evalsim_run].
  pose proof (l_dc _ _ _ _ Hok He) as Hg. destruct (decide (dc_on s)) as [Hon|Hoff].
  - destruct (dc_read_coherent bs ns pa va w s Hg Hon Hpa Hw Hm) as (s' & E & Hg' & Hr & Hf).
    { apply around_line; [by eapply bs_val | lia | done]. }
    assert (Hf' : frame load_cell s s') by (intros c Hc; apply Hf; intros Hx; by apply Hc, dc_cells_load).
    exists s'. split_and!; try done. apply (step_cells bs ns k s Hok); try done; try apply Hr; try apply Hg'.
    + intros c Hc. apply Hf'. intros Hx. apply Hc. by left.
    + apply (low_spr_tlb bs ns k s Hok); [intros q Hq|]; apply Hf; intros [Hx|[(?&?&?&?)|(?&?&?)]]; try done.
      unfold quiet in Hx. rewrite Z.leb_le in Hx. lia.
  - unfold dc_simulate_read. rewrite (dc_gate_off s) by done. unfold bind.
    destruct (evalsim_run s Hok Hpr) as (s1 & E1 & H1 & Hr1 & Hf1). unfold evalsim_mem in E1.
    destruct (log_read_run bs ns k s1 (st_ok _ _ _ _ _ H1) pa (ram_val s pa (Z.to_nat w))) as (s2 & E2 & H2 & Hr2 & Hf2).
    exists s2. split_and!; [|by eapply lsu_step_trans | by eapply mem_rest_trans | by etransitivity].
    destruct Hw as [->|[->| ->]]; cbn [Z.eqb Pos.eqb] in E1 |- *; rewrite E1, E2; reflexivity.
Qed.

(** A store to memory, with the cache used for it when there is one. *)
Definition store_cached (ci : Z) (s : Sim) : Prop :=
  nz (s Dc_enabled) = true ->
  Z.testbit (s (SPR SPR_UPR)) 1 = true /\ Z.testbit (s (SPR SPR_SR)) 3 = true /\ ci = 0.

(** The [w] bytes at [pa] are those of [v], the others stay. *)
Definition ram_stored (v : Z) (s s' : Sim) : Prop :=
  forall x, is_ram s x -> ram_byte s' x =
    if (pa <=? x) && (x <? pa + w) then u8 (Z.shiftr v (8 * (w - 1 - (x - pa)))) else ram_byte s x.

Lemma write_run v s :
  lsu_ok bs ns k s -> ram_around s pa -> store_cached (s Data_ci) s -> 0 <= v < 2 ^ 32 ->
  exists s', (dc ← isset Dc_enabled; if dc then dc_simulate_write pa va v w else setsim_mem pa va v w) s = Ok tt s' /\
    lsu_step bs ns k s s' /\ ram_stored v s s' /\ s' Loadlock_active = s Loadlock_active.
Proof.
  intros Hok Har Hci Hv. assert (Hpr : is_ram s pa) by by apply Har.
  assert (Hfin : forall s' (W : cell -> Prop), frame W s s' -> (forall c, W c -> dc_cells c \/ exists b i, c = Mem b i) ->
    dev_list s' = dev_list s -> blocks s' = blocks s -> typed s' -> ram_ok s' ->
    (nz (s Dc_enabled) = true -> dc_good bs ns s') ->
    lsu_step bs ns k s s' /\ s' Loadlock_active = s Loadlock_active).
  { intros s' W Hf HW Hd Hb Ht Hr Hg. split.
    - apply (step_cells bs ns k s Hok); try assumption.
      + intros c Hc. apply Hf. intros [Hx|Hx]%HW; apply Hc; [left; by apply dc_cells_load | by right; right].
      + apply (low_spr_tlb bs ns k s Hok); [intros q Hq|]; apply Hf;
          intros [[Hx|[(?&?&?&?)|(?&?&?)]]|(?&?&?)]%HW; try done.
        unfold quiet in Hx. rewrite Z.leb_le in Hx. lia.
    - apply Hf. intros [[Hx|[(?&?&?&?)|(?&?&?)]]|(?&?&?)]%HW; done. }
  unfold isset at 1, bind at 1 2, rd at 1, ret at 1. destruct (nz (s Dc_enabled)) eqn:He.
  - destruct (Hci He) as (H1 & H2 & H3). pose proof (l_dc _ _ _ _ Hok He) as Hg.
    destruct (dc_write_coherent bs ns pa va v w s Hg) as (s' & E & Hg' & Hf & Hd & Hb & Hx); try done.
    { apply around_line; [by eapply bs_val | lia | done]. }
    exists s'. split; [exact E|]. destruct (Hfin s' _ Hf) as [? ?]; try done; try apply Hg'.
  - destruct (setsim_ram pa va v w s) as (s1 & i & E & Hst & Hc & Hty & Hro); try done; try apply Hok.
    exists s1. split; [exact E|]. destruct Hst as (Hx & Hcell & Hd & Hm' & Hb & Hl).
    destruct (Hfin s1 (fun c => dc_cells c \/ exists b i, c = Mem b i)) as [? ?]; try done.
    + intros c Hn. apply Hcell.
      * intros ->. apply Hn. by left; left.
      * intros ->. apply Hn. by left; left.
      * intros b j ->. apply Hn. right. by eauto.
Qed.
End Access.

(** A translated address has the alignment of the virtual one. *)
Lemma translated_range bs ns k va write s pa ci w :
  lsu_ok bs ns k s -> 0 <= va < 2 ^ 32 -> w = 1 \/ w = 2 \/ w = 4 ->
  translated k va write s = Some (pa, ci) -> 0 <= pa < 2 ^ 32 /\ pa mod w = va mod w.
Proof.
  intros Hok Hva Hw Htr. unfold translated in Htr.
  destruct (dmmu_on s); [|injection Htr as <- <-; done]. destruct (dtlb k va s) as [hit|]; [|done].
  destruct (dtlb_allows _ _ _); [|done]. injection Htr as <- <-.
  pose proof (typed_u32 s (SPR (hit + 128)) (l_typed _ _ _ _ Hok) eq_refl). unfold phys.
  set (tr := s (SPR (hit + 128))) in *. clearbody tr. clear Hok. change (2 ^ 13) with 8192. change (2 ^ 32) with 4294967296 in *.
  split; [Z.to_euclidean_division_equations; lia|].
  destruct Hw as [->|[->| ->]]; Z.to_euclidean_division_equations; lia.
Qed.

(** A step that stores nothing. *)
Definition load_step (bs ns k : Z) (s s' : Sim) : Prop :=
  lsu_step bs ns k s s' /\ mem_rest s s' /\ frame load_cell s s'.
Lemma load_step_trans bs ns k s1 s2 s3 : load_step bs ns k s1 s2 -> load_step bs ns k s2 s3 -> load_step bs ns k s1 s3.
Proof.
  intros (H1 & H2 & H3) (H4 & H5 & H6).
  split_and!; [by eapply lsu_step_trans | by eapply mem_rest_trans | by etransitivity].
Qed.
Lemma calm_load_step bs ns k s s' : lsu_ok bs ns k s -> calm s s' -> load_step bs ns k s s'.
Proof.
  intros Hok Hc. destruct (calm_step bs ns k s Hok s' Hc). split_and!; try done.
  intros c Hn. apply Hc. intros Hq. by apply Hn, quiet_load.
Qed.

(** The steps before a load and after a store's address is known. *)
Lemma observe_run bs ns k e a u s :
  lsu_ok bs ns k s -> exists s', (count e;; watch Breakpoint a u) s = Ok tt s' /\ load_step bs ns k s s' /\
    s' Data_ci = s Data_ci.
Proof.
  intros Hok. unfold bind. destruct (count_run e s (l_typed _ _ _ _ Hok)) as (s1 & -> & H1).
  destruct (watch_run a u s1) as (s2 & -> & H2). exists s2. split; [done|].
  assert (Hc : calm s s2) by by etransitivity. split; [by apply calm_load_step | by apply Hc].
Qed.
Lemma watch_step bs ns k a u s :
  lsu_ok bs ns k s -> exists s', watch Breakpoint a u s = Ok tt s' /\ load_step bs ns k s s' /\
    s' Data_ci = s Data_ci.
Proof.
  intros Hok. destruct (watch_run a u s) as (s2 & -> & H2). exists s2.
  split; [done|]. split; [by apply calm_load_step | by apply H2].
Qed.
Lemma break_run bs ns k pa s :
  lsu_ok bs ns k s -> 0 <= pa < 2 ^ 32 ->
  exists s', break_reservation pa s = Ok tt s' /\ lsu_step bs ns k s s' /\ mem_rest s s' /\
    frame (fun c => c = G Loadlock_active) s s' /\
    s' Loadlock_active = if pa - pa mod 4 =? s Loadlock_addr then 0 else s Loadlock_active.
Proof.
  intros Hok Hpa. unfold break_reservation, bind, rd. change (u32 (Z.lnot 3)) with (2 ^ 32 - 2 ^ 2).
  rewrite land_high by lia. change (2 ^ 2) with 4. pose proof (mem_rest_refl s (l_ram _ _ _ _ Hok)) as Hr.
  destruct (_ =? _); cbn [when]; [|by exists s].
  eexists. split; [done|]. pose proof (mem_rest_upd s s (G Loadlock_active) 0 ltac:(done) Hr) as Hr'.
  split_and!; [| exact Hr' | by apply frame_upd | by rewrite upd_eq].
  apply (step_cells bs ns k s Hok); try done.
  - apply frame_upd. by right; left.
  - apply upd_typed, Hok.
  - apply (mem_rest_ok s); [apply Hok | exact Hr'].
  - intros He. apply (good_frame (fun c => c = G Loadlock_active) bs ns s); try done.
    + by apply Hok.
    + by apply frame_upd.
    + by intros c ->.
    + apply upd_typed, Hok.
  - apply (low_spr_tlb bs ns k s Hok); [intros q Hq|]; by apply upd_ne.
Qed.

Lemma cut_ram w s a : typed s -> w = 1 \/ w = 2 \/ w = 4 -> cut w (ram_val s a (Z.to_nat w)) = ram_val s a (Z.to_nat w).
Proof.
  intros Hty Hw. pose proof (ram_byte_range s a Hty). pose proof (ram_byte_range s (a + 1) Hty).
  destruct Hw as [->|[->| ->]]; [| |done]; unfold cut; cbn [Z.eqb Pos.eqb].
  - change (Z.to_nat 1) with 1%nat. cbn [ram_val]. change (2 ^ (8 * Z.of_nat 0)) with 1.
    apply wrap_small, inty_U8. lia.
  - change (Z.to_nat 2) with 2%nat. cbn [ram_val]. change (2 ^ (8 * Z.of_nat 1)) with 256.
    change (2 ^ (8 * Z.of_nat 0)) with 1. apply wrap_small. unfold inty, cmin, cmax. cbn. lia.
Qed.

(** C9: a load from an address that is mapped and readable returns the
    big-endian value memory holds at the physical address, through the data
    cache or around it; it raises no exception, keeps the cache coherent and
    the address map, and changes no byte of memory. *)
Theorem eval_mem_coherent bs ns k w va pa ci s :
  lsu_ok bs ns k s -> w = 1 \/ w = 2 \/ w = 4 -> 0 <= va < 2 ^ 32 -> va mod w = 0 ->
  translated k va false s = Some (pa, ci) -> ram_around s pa ->
  exists s', eval_mem w va Breakpoint s = Ok (ram_val s pa (Z.to_nat w)) s' /\ load_step bs ns k s s'.
Proof.
  intros Hok Hw Hva Hm Htr Har. destruct (translated_range bs ns k va false s pa ci w) as [Hpa Hpm]; try done. rewrite Hm in Hpm.
  destruct (eval_mem_eq w va Breakpoint Hw) as (m & ->). unfold bind at 1.
  destruct (mprofile_run bs ns k s Hok va m) as (s1 & -> & H1). pose proof (st_ok _ _ _ _ _ (proj1 H1)) as Hok1.
  rewrite aligned_spec, Hm by done. cbn [negb Z.eqb]. unfold load_body, bind at 1.
  destruct (translate_run bs ns k s1 Hok1 va false pa ci Hva) as (s2 & -> & _ & H2).
  { rewrite <- Htr. by apply (st_tr _ _ _ _ _ (proj1 H1)). }
  pose proof (st_ok _ _ _ _ _ (proj1 H2)) as Hok2.
  unfold isset at 1, bind at 1 2, rd at 1, ret at 1. rewrite (l_none _ _ _ _ Hok2). cbn [nz Z.eqb negb].
  destruct (observe_run bs ns k SPR_PCMR_LA DebugLoadAddress va s2 Hok2) as (s3 & E3 & H3 & _).
  pose proof (st_ok _ _ _ _ _ (proj1 H3)) as Hok3. unfold bind in E3 |- *.
  destruct (count SPR_PCMR_LA s2) as [[] s2'|]; [|done]. rewrite E3.
  assert (H03 : load_step bs ns k s s3) by (do 2 (eapply load_step_trans; [eassumption|]); done).
  destruct (read_run bs ns k w va pa Hw Hpa Hpm s3 Hok3) as (s4 & E4 & H4).
  { by apply (mem_rest_around s), Har; apply H03. }
  unfold bind in E4. destruct (isset Dc_enabled s3) as [dc s3'|]; [|done]. rewrite E4.
  destruct (watch_step bs ns k DebugLoadData (cut w (ram_val s3 pa (Z.to_nat w))) s4) as (s5 & -> & H5 & _).
  { apply H4. }
  exists s5. split; [|do 2 (eapply load_step_trans; [eassumption|]); done].
  unfold ret. f_equal. rewrite cut_ram by (done || apply Hok3). apply mem_rest_val, H03.
Qed.

(** C8: a store to an address that is mapped and writable changes exactly the
    bytes addressed, in big-endian order, through the data cache or around it;
    it raises no exception, keeps the cache coherent and the address map, and
    ends the reservation of [l.lwa] exactly when it hits the reserved word. *)
Theorem set_mem_coherent bs ns k w va pa ci v s :
  lsu_ok bs ns k s -> w = 1 \/ w = 2 \/ w = 4 -> 0 <= va < 2 ^ 32 -> va mod w = 0 -> 0 <= v < 2 ^ 32 ->
  translated k va true s = Some (pa, ci) -> ram_around s pa -> store_cached ci s ->
  exists s', set_mem w va v Breakpoint s = Ok tt s' /\ lsu_step bs ns k s s' /\ ram_stored w pa v s s' /\
    s' Loadlock_active = if pa - pa mod 4 =? s Loadlock_addr then 0 else s Loadlock_active.
Proof.
  intros Hok Hw Hva Hm Hv Htr Har Hsc. destruct (translated_range bs ns k va true s pa ci w) as [Hpa Hpm]; try done. rewrite Hm in Hpm.
  destruct (set_mem_eq w va v Breakpoint Hw) as (m & ->). unfold bind at 1.
  destruct (mprofile_run bs ns k s Hok va m) as (s1 & -> & H1). pose proof (st_ok _ _ _ _ _ (proj1 H1)) as Hok1.
  rewrite aligned_spec, Hm by done. cbn [negb Z.eqb]. unfold store_body, bind at 1.
  destruct (translate_run bs ns k s1 Hok1 va true pa ci Hva) as (s2 & -> & Hci & H2).
  { rewrite <- Htr. by apply (st_tr _ _ _ _ _ (proj1 H1)). }
  assert (H02 : load_step bs ns k s s2) by by eapply load_step_trans.
  destruct (break_run bs ns k pa s2 (st_ok _ _ _ _ _ (proj1 H2)) Hpa) as (s3 & E3 & H3 & Hr3 & Hf3 & Hl3).
  unfold bind at 1. rewrite E3. pose proof (st_ok _ _ _ _ _ H3) as Hok3.
  unfold isset at 1, bind at 1 2, rd at 1, ret at 1. rewrite (l_none _ _ _ _ Hok3). cbn [nz Z.eqb negb].
  destruct (observe_run bs ns k SPR_PCMR_SA DebugStoreAddress va s3 Hok3) as (s4 & E4 & H4 & Hd4).
  unfold bind in E4 |- *. destruct (count SPR_PCMR_SA s3) as [[] s3'|]; [|done]. rewrite E4.
  destruct (watch_step bs ns k DebugStoreData (cut w v) s4 (st_ok _ _ _ _ _ (proj1 H4))) as (s5 & -> & H5 & Hd5).
  assert (H35 : load_step bs ns k s3 s5) by by eapply load_step_trans.
  assert (Hr : mem_rest s s5) by (eapply mem_rest_trans; [|apply H35]; eapply mem_rest_trans; [apply H02 | exact Hr3]).
  assert (Hc : forall c, ~ load_cell c -> c <> G Loadlock_active -> s5 c = s c).
  { intros c Hn Hne. rewrite (proj2 (proj2 H35)), Hf3, (proj2 (proj2 H02)) by done. done. }
  destruct (write_run bs ns k w va pa Hw Hpa Hpm (cut w v) s5) as (s6 & E6 & H6 & Hst & Hl6).
  - apply H35.
  - by apply (mem_rest_around s).
  - rewrite Hd5, Hd4, (Hf3 (G Data_ci)), Hci by done. intros He.
    rewrite !Hc by (try done; unfold load_cell; by vm_compute). apply Hsc. by rewrite Hc in He.
  - unfold cut. destruct Hw as [->|[->| ->]]; cbn [Z.eqb Pos.eqb]; [| |done];
      unfold wrap; cbn [is_signed width]; split; try apply Z.mod_pos_bound; try lia;
      (eapply Z.lt_trans; [apply Z.mod_pos_bound|]; lia).
  - unfold bind in E6. destruct (isset Dc_enabled s5) as [dc s5'|]; [|done]. rewrite E6.
    destruct (log_write_run bs ns k s6 (st_ok _ _ _ _ _ H6) va (cut w v)) as (s7 & -> & H7 & Hr7 & Hf7).
    exists s7. split; [done|]. split; [|split].
    + eapply lsu_step_trans; [apply H02|]. eapply lsu_step_trans; [exact H3|].
      eapply lsu_step_trans; [apply H35|]. by eapply lsu_step_trans.
    + intros x Hx. rewrite (mem_rest_byte s6 s7) by done. rewrite Hst by by apply (mem_rest_is_ram s s5 x Hr).
      rewrite (mem_rest_byte s s5 _ Hr). destruct (Z.leb_spec pa x), (Z.ltb_spec x (pa + w)); try done. cbn [andb].
      unfold cut. destruct Hw as [->|[->| ->]]; cbn [Z.eqb Pos.eqb]; [| |done].
      * apply (u8_shiftr_mod 8); lia.
      * apply (u8_shiftr_mod 16); lia.
    + rewrite Hf7, Hl6, (proj2 (proj2 H35)), Hl3 by done. by rewrite !(proj2 (proj2 H02)) by done.
Qed.

(** The value stored is the value of the bytes. *)
Lemma stored_val bs ns k w pa v s s' :
  lsu_ok bs ns k s -> w = 1 \/ w = 2 \/ w = 4 -> 0 <= pa -> pa mod w = 0 -> ram_around s pa -> 0 <= v ->
  ram_stored w pa v s s' -> ram_val s' pa (Z.to_nat w) = v mod 2 ^ (8 * w).
Proof.
  intros Hok Hw Hpa Hm Har Hv Hst.
  assert (Hb : forall j, 0 <= j < w -> ram_byte s' (pa + j) = v / 2 ^ (8 * (w - 1 - j)) mod 256).
  { intros j Hj. rewrite Hst.
    - rewrite (proj2 (Z.leb_le _ _)), (proj2 (Z.ltb_lt _ _)) by lia. cbn [andb].
      replace (w - 1 - (pa + j - pa)) with (w - 1 - j) by lia. by rewrite Z.shiftr_div_pow2 by lia.
    - apply Har. destruct Hw as [->|[->| ->]]; Z.to_euclidean_division_equations; lia. }
  destruct Hw as [->|[->| ->]]; [change (Z.to_nat 1) with 1%nat | change (Z.to_nat 2) with 2%nat | change (Z.to_nat 4) with 4%nat];
    cbn [ram_val]; rewrite <- ?Z.add_assoc; cbn [Z.add Pos.add]; rewrite ?Hb by lia.
  all: rewrite <- (Z.add_0_r pa) at 1; rewrite Hb by lia; cbn -[Z.modulo Z.div Z.mul Z.add Z.pow]; revert Hv; clear.
  all: change (2 ^ (8 * Z.of_nat 0)) with 1; change (2 ^ (8 * Z.of_nat 1)) with 256;
    change (2 ^ (8 * Z.of_nat 2)) with 65536; change (2 ^ (8 * Z.of_nat 3)) with 16777216;
    change (2 ^ (8 * 1)) with 256; change (2 ^ (8 * 2)) with 65536; change (2 ^ (8 * 4)) with 4294967296.
  all: intros Hv; pose proof (Z.rem_mul_r v 16777216 256) as H3; pose proof (Z.rem_mul_r v 65536 256) as H2;
    pose proof (Z.rem_mul_r v 256 256) as H1; change (16777216 * 256) with 4294967296 in H3;
    change (65536 * 256) with 16777216 in H2; change (256 * 256) with 65536 in H1.
  - change (2 ^ (8 * (1 - 1 - 0))) with 1. rewrite Z.div_1_r. lia.
  - change (2 ^ (8 * (2 - 1 - 0))) with 256. change (2 ^ (8 * (2 - 1 - 1))) with 1. rewrite Z.div_1_r. lia.
  - change (2 ^ (8 * (4 - 1 - 0))) with 16777216. change (2 ^ (8 * (4 - 1 - 1))) with 65536.
    change (2 ^ (8 * (4 - 1 - (1 + 1)))) with 256. change (2 ^ (8 * (4 - 1 - (1 + (1 + 1))))) with 1.
    rewrite Z.div_1_r. lia.
Qed.

(** C7: a store is seen by a later load through any other mapping of the same
    physical address, whatever the TLB and the cache do in between: the load
    returns the low bits of the value stored. *)
Theorem store_load bs ns k w va va' pa ci ci' v s :
  lsu_ok bs ns k s -> w = 1 \/ w = 2 \/ w = 4 -> 0 <= va < 2 ^ 32 -> 0 <= va' < 2 ^ 32 -> va mod w = 0 ->
  0 <= v < 2 ^ 32 -> translated k va true s = Some (pa, ci) -> translated k va' false s = Some (pa, ci') ->
  ram_around s pa -> store_cached ci s ->
  exists s1 s2, set_mem w va v Breakpoint s = Ok tt s1 /\
    eval_mem w va' Breakpoint s1 = Ok (v mod 2 ^ (8 * w)) s2 /\ lsu_step bs ns k s s2.
Proof.
  intros Hok Hw Hva Hva' Hm Hv Htr Htr' Har Hsc.
  destruct (translated_range bs ns k va true s pa ci w) as [Hpa Hpm]; try done. rewrite Hm in Hpm.
  destruct (translated_range bs ns k va' false s pa ci' w) as [_ Hpm']; try done. rewrite Hpm in Hpm'.
  destruct (set_mem_coherent bs ns k w va pa ci v s) as (s1 & E1 & H1 & Hst & _); try done.
  destruct (eval_mem_coherent bs ns k w va' pa ci' s1) as (s2 & E2 & H2); try done.
  - apply H1.
  - by rewrite (st_tr _ _ _ _ _ H1).
  - intros x Hx. destruct (Har x Hx) as (i & ar & b & Hin). exists i, ar, b. by apply (lists_in_ram s); [apply H1..|].
  - exists s1, s2. split; [exact E1|]. split; [|eapply lsu_step_trans; [exact H1 | apply H2]].
    rewrite E2. f_equal. by apply (stored_val bs ns k w pa v s s1); try done; lia.
Qed.

(** ** Accesses that fault *)

(** The exception an access raises before it gets to memory. *)
Definition fault_of (k w va : Z) (write : bool) (s : Sim) : option Z :=
  if negb (va mod w =? 0) then Some EXCEPT_ALIGN
  else if dmmu_on s then
    match dtlb k va s with
    | Some hit => if dtlb_allows (supervisor s) write (s (SPR (hit + 128))) then None else Some EXCEPT_DPF
    | None => Some EXCEPT_DTLBMISS
    end
  else None.

Definition access (write : bool) (w va v : Z) (bp : cell) : M Z :=
  if write then set_mem w va v bp;; ret 0 else eval_mem w va bp.

(** The exception is entered at the access, and nothing was accessed. *)
Record faulted (exc va : Z) (s s' : Sim) : Prop := {
  f_pending : s' Except_pending = 1; f_eear : s' (SPR SPR_EEAR_BASE) = va;
  f_epcr : s' (SPR SPR_EPCR_BASE) = u32 (s Pc - if nz (s Delay_insn) then 4 else 0);
  f_esr : s' (SPR SPR_ESR_BASE) = s (SPR SPR_SR); f_sr : s' (SPR SPR_SR) = entry_sr (s (SPR SPR_SR));
  f_next : s' Pcnext = handler_addr exc s; f_delay : s' Delay_insn = 0;
  f_lock : s' Loadlock_active = 0;
  f_cells : forall c, cache_cell c -> s' c = s c;
  f_dev : dev_list s' = dev_list s; f_blocks : blocks s' = blocks s }.

(** The cells that a step before the exception leaves alone. *)
Lemma entered_faulted exc va s s1 s2 s3 :
  exc = EXCEPT_ALIGN \/ exc = EXCEPT_DPF \/ exc = EXCEPT_DTLBMISS -> 0 <= va < 2 ^ 32 ->
  frame load_cell s s1 -> (forall c, cache_cell c -> s1 c = s c) -> dev_list s1 = dev_list s -> blocks s1 = blocks s ->
  entered exc va s1 s2 -> frame pccr s2 s3 -> same_lists s2 s3 -> faulted exc va s s3.
Proof.
  intros He Hva Hf Hcc Hd Hb (H1 & H2 & H3 & H4 & H5 & H6 & H7 & H8 & H9 & _ & Hfr & (_ & _ & L1 & _ & _ & L2 & _)) Hp
    (_ & _ & M1 & _ & _ & M2 & _).
  assert (Hs : forall q, q < 14336 -> s3 (SPR q) = s2 (SPR q)).
  { intros q Hq. apply Hp. intros (i & Hi & [= ->]). revert Hq. unfold SPR_PCCR. change SPRGROUP_PC with 14336. lia. }
  assert (Hg : forall g, s3 (G g) = s2 (G g)) by (intros g; apply Hp; intros (i & _ & [=])).
  assert (Hc : forall c, ~ load_cell c -> s1 c = s c) by (intros c Hc; by apply Hf).
  assert (E1 : s1 (SPR SPR_SR) = s (SPR SPR_SR)) by (apply Hc; unfold load_cell; by vm_compute).
  assert (E2 : s1 Pc = s Pc) by by apply Hc.
  assert (E3 : s1 Delay_insn = s Delay_insn) by by apply Hc.
  split; rewrite ?Hg, ?Hs by (vm_compute; done); try congruence.
  - rewrite H3. apply wrap_small, inty_U32. lia.
  - rewrite H4. unfold return_addr. rewrite E2, E3. by destruct He as [->|[->| ->]].
  - rewrite H6. unfold handler_addr. rewrite E1. by destruct He as [->|[->| ->]].
  - intros c Hcell. rewrite Hp by (intros (i & _ & ->); done).
    rewrite Hfr; [by apply Hcc|]. intros Hin. apply existsb_exists in Hin as (c' & Hin & Eq).
    apply bool_decide_eq_true in Eq as <-. unfold entry_cells, stall_cells in Hin. cbn [app In] in Hin.
    repeat destruct Hin as [<-|Hin]; done.
Qed.

Lemma align_faults va s :
  typed s -> 0 <= va < 2 ^ 32 -> ignored EXCEPT_ALIGN s = false ->
  exists s', except_handle EXCEPT_ALIGN va s = Ok tt s' /\ faulted EXCEPT_ALIGN va s s'.
Proof.
  intros Hty Hva Hig. pose proof (except_handle_run EXCEPT_ALIGN va s Hty Hig) as Hwp.
  apply wp_ok in Hwp as ([] & s' & E & He & _). exists s'. split; [exact E|].
  by apply (entered_faulted _ _ s s s' s'); auto.
Qed.
Lemma translate_faults k w va write exc s :
  typed s -> mmu_ok Dmmu 13 k s -> 0 <= va < 2 ^ 32 -> va mod w = 0 -> fault_of k w va write s = Some exc ->
  ignored exc s = false ->
  exists r s', dmmu_translate va write s = Ok r s' /\ faulted exc va s s'.
Proof.
  intros Hty Hok Hva Hm Hfa Hig. unfold fault_of in Hfa. rewrite Hm in Hfa. cbn [negb Z.eqb] in Hfa.
  destruct (dmmu_on s) eqn:Hon; [|done]. rewrite (dmmu_translate_on k) by assumption.
  destruct (dtlb k va s) as [hit|] eqn:El.
  - destruct (dtlb_allows _ _ _) eqn:Ea; [done|]. injection Hfa as <-.
    destruct (hit_refines Dmmu St_dmmu_tlbhit Data_ci (SPR_DTLBMR_BASE 0) k va s) with (hit := hit)
      (exc := EXCEPT_DPF) (fault := dtlb_page_fault (hit + 128) write) (allow := fun sm => dtlb_allows sm write)
      as (r & s' & E & _ & s1 & Hu & Hd); auto; [closed_Z | intros s0; apply dtlb_page_fault_run |].
    unfold supervisor in Ea. rewrite Ea in Hd. exists r, s'. split; [exact E|].
    pose proof (lookup_ways Dmmu _ k va s Hok hit El) as Hw. apply ways_iff in Hw as [Hr _]; [|done|closed_Z].
    destruct Hu as (_ & _ & _ & Hq & Hf & (_ & _ & L1 & _ & _ & L2 & _)).
    apply (entered_faulted EXCEPT_DPF va s s1 s' s'); auto.
    + intros c Hc. destruct c; try (apply Hf; intros [E'|[E'|[E'|[? E']]]]; first [discriminate E' | by apply Hc; rewrite E']).
      rewrite Hq. cbv zeta. unfold load_cell in Hc. rewrite Z.leb_le in Hc.
      rewrite (far_ways Dmmu (SPR_DTLBMR_BASE 0) k va s) by (auto; closed_Z || (left; lia)).
      destruct (Z.eqb_spec n hit); [lia | done].
    + intros c Hc. apply Hf. intros [->|[->|[->|[q ->]]]]; done.
    + reflexivity.
  - injection Hfa as <-.
    pose proof (miss_body_run Dmmu St_dmmu_tlbmiss va s (or_intror eq_refl) Hty EXCEPT_DTLBMISS SPR_PCMR_DTLBM Hig) as Hwp.
    apply wp_ok in Hwp as (r & s' & E & _ & _ & s1 & s2 & -> & He & Hf & Hl). exists r, s'. split; [exact E|].
    eapply entered_faulted; [by auto | done | | | | | exact He | exact Hf | exact Hl]; try done.
    + by do 2 (apply frame_trans_upd; [done|]).
    + intros c Hc. rewrite !upd_ne; try done; by intros <-.
Qed.

Lemma lookup_way_event e n va w mr s : lookup_way n va w mr (add_event e s) = lookup_way n va w mr s.
Proof. revert mr. induction w as [|w IH]; intros mr; [done|]. cbn [lookup_way]. by rewrite IH. Qed.
Lemma mprofile_faults k w va write m s :
  mmu_ok Dmmu 13 k s -> typed s ->
  exists s', mprofile va m s = Ok tt s' /\ fault_of k w va write s' = fault_of k w va write s /\ typed s' /\
    mmu_ok Dmmu 13 k s' /\ (forall exc, ignored exc s' = ignored exc s) /\
    forall exc s2, faulted exc va s' s2 -> faulted exc va s s2.
Proof.
  intros Hok Hty. unfold mprofile, isset, bind, rd, ret. destruct (nz _); cbn [when]; [|by exists s].
  exists (add_event (Ev_mprofile va m) s). split_and!; try done.
  - unfold fault_of, tlb_lookup. by rewrite lookup_way_event.
  - by destruct Hok.
  - intros exc s2 []. by split.
Qed.

(** C13: a misaligned access, an access without a matching TLB entry and one
    without the permission raise the exception with the address and the return
    address of the access; a load then gives 0, and a store changes neither
    memory nor the cache. *)
Theorem access_faults k w va v write exc s :
  typed s -> mmu_ok Dmmu 13 k s -> w = 1 \/ w = 2 \/ w = 4 -> 0 <= va < 2 ^ 32 ->
  fault_of k w va write s = Some exc -> ignored exc s = false ->
  exists s', access write w va v Breakpoint s = Ok 0 s' /\ faulted exc va s s'.
Proof.
  intros Hty Hok Hw Hva Hfa Hig. unfold access.
  destruct (eval_mem_eq w va Breakpoint Hw) as (m1 & E1), (set_mem_eq w va v Breakpoint Hw) as (m2 & E2).
  rewrite E1, E2. clear E1 E2. rewrite aligned_spec by exact Hw.
  destruct (mprofile_faults k w va write (if write then m2 else m1) s Hok Hty) as (s1 & E & Ef & Ht1 & Ho1 & Hi1 & Hs1).
  rewrite <- Ef in Hfa. rewrite <- Hi1 in Hig. destruct (Z.eqb_spec (va mod w) 0) as [Hm|Hm]; cbn [negb].
  - destruct (translate_faults k w va write exc s1) as (r & s2 & E2 & Hf2); try done.
    destruct write; unfold bind at 1; [unfold bind at 1|]; rewrite E.
    + unfold store_body, bind at 1. rewrite E2. unfold break_reservation, isset, bind, rd, ret.
      destruct (Z.land r _ =? _); cbn [when]; unfold wr, ret; cbv beta iota; rewrite ?upd_ne by done; rewrite (f_pending _ _ _ _ Hf2).
      * eexists. split; [done|]. apply Hs1. destruct Hf2. split; rewrite ?upd_ne by done; try done.
        intros c Hc. rewrite upd_ne by (by intros <-). by apply f_cells0.
      * eexists. split; [done|]. by apply Hs1.
    + unfold load_body, bind at 1. rewrite E2. unfold isset, bind, rd, ret. rewrite (f_pending _ _ _ _ Hf2).
      eexists. split; [done|]. by apply Hs1.
  - unfold fault_of in Hfa. rewrite (proj2 (Z.eqb_neq _ _) Hm) in Hfa. cbn [negb] in Hfa. injection Hfa as <-.
    destruct (align_faults va s1 Ht1 Hva Hig) as (s2 & E2 & Hf2). exists s2. split; [|by apply Hs1].
    destruct write; unfold bind at 1; [unfold bind at 1|]; rewrite E; [by rewrite E2|].
    unfold bind. by rewrite E2.
Qed.
End Widths.

(** ** Witnesses *)

(** One megabyte of RAM at 0, a cache of four sets and two ways, a data MMU of
    64 sets and two ways. *)
Definition ex_lsu_cfg : M unit :=
  ex_dc_cfg;; dmmu_section [Pm_nsets 64; Pm_nways 2; Pm_enabled 1; Pm_hitdelay 0].
Definition ex_lsu0 : Sim := state_of (ex_lsu_cfg zero_state).
(** The cache invalidated; then the virtual pages 0x4000 and 0x8000 mapped to
    the page 0x2000, the second read-only, and cache and MMU turned on in
    supervisor mode, with a reservation of the word at 0x2008. *)
Definition ex_lsu1 : Sim := state_of (invalidate_all 16 4 ex_lsu0).
Definition ex_map (s : Sim) : Sim :=
  upd Loadlock_addr 0x2008 (upd Loadlock_active 1 (upd (SPR SPR_SR) 0x8029
    (refill (SPR_DTLBMR_BASE 0) 6 0x4000 1 0x2300 (refill (SPR_DTLBMR_BASE 0) 6 0x8000 0 0x2100 s)))).
Definition ex_lsu : Sim := ex_map ex_lsu1.

Lemma ex_lsu0_typed : typed ex_lsu0.
Proof.
  assert (H : Respects keeps_typed ex_lsu_cfg).
  { unfold ex_lsu_cfg, ex_dc_cfg, dc_nsets, dc_nways, dc_blocksize, dc_ustates, dc_enabled, dmmu_section,
      dmmu_start_sec, dmmu_end_sec. cbn [dmmu_sets dmmu_set].
    unfold dmmu_nsets, dmmu_nways, dmmu_enabled, dmmu_hitdelay. respects. }
  exact (H zero_state zero_typed).
Qed.
Lemma ex_lsu0_areas : dev_list ex_lsu0 = dev_list ex_dc /\ mc_area ex_lsu0 = None /\ cur_area ex_lsu0 = cur_area ex_dc /\
  blocks ex_lsu0 = blocks ex_dc.
Proof. vm_compute. done. Qed.
Lemma ex_lsu0_ram : ram_ok ex_lsu0.
Proof.
  destruct ex_lsu0_areas as (E1 & E2 & E3 & _). apply (lists_ram_ok ex_dc); [apply ex_dc_ram | done | |].
  - rewrite E2. vm_compute. done.
  - rewrite E3. apply ex_dc_ram.
Qed.

(** The cells [ex_map] sets. *)
Definition map_cell (c : cell) : Prop := c = G Loadlock_addr \/ c = G Loadlock_active \/ exists q, c = SPR q.
Lemma ex_map_frame s : frame map_cell s (ex_map s).
Proof. unfold ex_map, refill. cbv zeta. repeat (apply frame_trans_upd; [unfold map_cell; eauto|]). reflexivity. Qed.
Lemma ex_map_rest s : ram_ok s -> mem_rest s (ex_map s).
Proof. intros Hok. unfold ex_map, refill. cbv zeta. repeat (apply mem_rest_upd; [done|]). by apply mem_rest_refl. Qed.
Lemma ex_map_typed s : typed s -> typed (ex_map s).
Proof. intros Hty. unfold ex_map, refill. cbv zeta. by repeat apply upd_typed. Qed.

Lemma ex_lsu1_run :
  dc_good 16 4 ex_lsu1 /\ mem_rest ex_lsu0 ex_lsu1.
Proof.
  destruct (invalidate_all_good 16 4 ex_lsu0) as (s' & E & Hg & Hr);
    [split; first [closed_Z | left; reflexivity] | apply ex_lsu0_typed | apply ex_lsu0_ram | vm_compute; reflexivity.. |].
  unfold ex_lsu1. change (Z.to_nat 4) with 4%nat in E. rewrite E. exact (conj Hg Hr).
Qed.
Lemma ex_lsu1_is_ram x : 0 <= x < 0x100000 -> is_ram ex_lsu1 x.
Proof.
  intros Hx. apply (mem_rest_is_ram _ _ _ (proj2 ex_lsu1_run)).
  destruct ex_lsu0_areas as (E1 & _ & _ & E4). destruct (ex_dc_is_ram x Hx) as (i & ar & b & Hin).
  exists i, ar, b. exact (lists_in_ram ex_dc ex_lsu0 x i ar b E1 E4 Hin).
Qed.
Lemma ex_lsu_good : lsu_ok 16 4 6 ex_lsu.
Proof.
  pose proof ex_lsu1_run as [Hg _]. pose proof (ex_map_rest ex_lsu1 (g_ram _ _ _ Hg)) as Hr.
  pose proof (ex_map_typed ex_lsu1 (g_typed _ _ _ Hg)) as Ht. fold ex_lsu in Hr, Ht. split.
  - exact Ht.
  - exact (mem_rest_ok ex_lsu1 ex_lsu (g_ram _ _ _ Hg) Hr).
  - split; closed_Z.
  - vm_compute. reflexivity.
  - intros _. apply (good_frame map_cell 16 4 ex_lsu1 ex_lsu Hg (ex_map_frame ex_lsu1)); [|exact Hr | exact Ht].
    by intros c [->|[->|[q ->]]].
Qed.
Lemma ex_lsu_is_ram x : 0 <= x < 0x100000 -> is_ram ex_lsu x.
Proof.
  intros Hx. apply (mem_rest_is_ram ex_lsu1 ex_lsu x (ex_map_rest ex_lsu1 (g_ram _ _ _ (proj1 ex_lsu1_run)))).
  exact (ex_lsu1_is_ram x Hx).
Qed.

Lemma ex_lsu_around pa : 0 <= pa < 0x100000 -> ram_around ex_lsu pa.
Proof. intros Hpa x Hx. apply ex_lsu_is_ram. Z.to_euclidean_division_equations; lia. Qed.

Lemma eval_mem_coherent_witness :
  exists s', eval_mem (H := no_devices) 4 0x8044 Breakpoint ex_lsu = Ok (ram_val ex_lsu 0x2044 4) s' /\
    load_step 16 4 6 ex_lsu s'.
Proof.
  apply (eval_mem_coherent (H := no_devices) 16 4 6 4 0x8044 0x2044 0 ex_lsu);
    [exact ex_lsu_good | auto | lia | reflexivity | vm_compute; reflexivity | apply ex_lsu_around; lia].
Defined.

Lemma set_mem_coherent_witness :
  exists s', set_mem (H := no_devices) 2 0x400a 0xbeef Breakpoint ex_lsu = Ok tt s' /\ s' Loadlock_active = 0 /\
    ram_byte s' 0x200b = 0xef.
Proof.
  destruct (set_mem_coherent (H := no_devices) 16 4 6 2 0x400a 0x200a 0 0xbeef ex_lsu) as (s' & E & _ & Hst & Hl);
    [exact ex_lsu_good | auto | lia | reflexivity | lia | vm_compute; reflexivity | apply ex_lsu_around; lia
    | intros _; split_and!; vm_compute; reflexivity |].
  exists s'. split_and!; [exact E | rewrite Hl; vm_compute; reflexivity |].
  rewrite Hst by (apply ex_lsu_is_ram; lia). vm_compute. reflexivity.
Defined.

Lemma store_load_witness :
  exists s1 s2, set_mem (H := no_devices) 4 0x4010 0x12345678 Breakpoint ex_lsu = Ok tt s1 /\
    eval_mem (H := no_devices) 4 0x8010 Breakpoint s1 = Ok 0x12345678 s2.
Proof.
  destruct (store_load (H := no_devices) 16 4 6 4 0x4010 0x8010 0x2010 0 0 0x12345678 ex_lsu) as (s1 & s2 & E1 & E2 & _);
    [exact ex_lsu_good | auto | lia | lia | reflexivity | lia | vm_compute; reflexivity | vm_compute; reflexivity
    | apply ex_lsu_around; lia | intros _; split_and!; vm_compute; reflexivity |].
  exists s1, s2. split; [exact E1 | exact E2].
Defined.

(** A store to the read-only page. *)
Lemma access_faults_witness :
  exists s', access (H := no_devices) true 4 0x8010 7 Breakpoint ex_lsu = Ok 0 s' /\
    faulted EXCEPT_DPF 0x8010 ex_lsu s'.
Proof.
  apply (access_faults (H := no_devices) 6 4 0x8010 7 true EXCEPT_DPF ex_lsu);
    [apply (l_typed _ _ _ _ ex_lsu_good) | apply (l_mmu _ _ _ _ ex_lsu_good) | auto | lia | vm_compute; reflexivity | vm_compute; reflexivity].
Defined.

End Abstract.
