(* ===== verification/Direct.v ===== *)
(** * Direct accesses to RAM

    The accesses of the debugger and of the DMA controller ([eval_direct*],
    [set_direct*], [set_program*] of cpu/common/abstract.c) to memory blocks, as
    reads and writes of the bytes of [Ram]. *)

From S2P Require Export Abstract.

Module Direct.
Import Mem Ram Dcache Abstract.

Lemma ram_val_byte (s : Sim) a k : typed s -> 0 <= k < 4 -> u8 (Z.shiftr (ram_val s a 4) (8 * (4 - 1 - k))) = ram_byte s (a + k).
Proof.
  intros Hty Hk. cbn [ram_val]. change (2 ^ (8 * Z.of_nat 3)) with 16777216. change (2 ^ (8 * Z.of_nat 2)) with 65536.
  change (2 ^ (8 * Z.of_nat 1)) with 256. change (2 ^ (8 * Z.of_nat 0)) with 1. pose proof (ram_byte_range s a Hty). pose proof (ram_byte_range s (a + 1) Hty).
  pose proof (ram_byte_range s (a + 1 + 1) Hty). pose proof (ram_byte_range s (a + 1 + 1 + 1) Hty).
  rewrite Z.shiftr_div_pow2 by lia. unfold wrap. cbn [is_signed width].
  replace (a + 3) with (a + 1 + 1 + 1) by lia.
  assert (k = 0 \/ k = 1 \/ k = 2 \/ k = 3) as [->|[->|[->| ->]]] by lia; cbn -[Z.div Z.modulo];
    rewrite ?Z.add_0_r; try (replace (a + 2) with (a + 1 + 1) by lia); try (replace (a + 3) with (a + 1 + 1 + 1) by lia);
    symmetry; Z.to_euclidean_division_equations; lia.
Qed.

(** ** Words *)

(** Address [a] is a word of a memory block, for direct accesses too, without a
    log. *)
Definition dma_ram (s : Sim) (a : Z) : Prop :=
  a mod 4 = 0 /\ exists i ar b, in_ram s a i ar b /\ readfunc32 (direct_ops ar) = Fn_simmem b /\
    writefunc32 (direct_ops ar) = Fn_simmem b /\ area_log ar = false.

Lemma dma_ram_lists s s' a : dev_list s' = dev_list s -> blocks s' = blocks s -> dma_ram s a -> dma_ram s' a.
Proof.
  intros Hd Hb (Hm & i & ar & b & Hin & H). split; [done|]. exists i, ar, b. split; [|done]. by apply (lists_in_ram s).
Qed.

Section Direct.
Context `{Devices}.
Lemma aligned_low a : a mod 4 = 0 -> nz (Z.land a 3) = false.
Proof. intros Hm. change 3 with (Z.ones 2). rewrite Z.land_ones by lia. change (2 ^ 2) with 4. by rewrite Hm. Qed.

Lemma eval_direct32_ram s a :
  ram_ok s -> dma_ram s a -> exists i, eval_direct32 a false false s = Ok (ram_val s a 4) (set_cur_area (Some i) s) /\
    (i < length (dev_list s))%nat.
Proof.
  intros Hok (Hm & i & ar & b & Hin & Hr & _). exists i.
  destruct (in_ram_off s Hok a i ar b 4 Hin ltac:(auto) Hm) as (E & Eo & m & Hb & H0 & H1).
  split; [|eapply lookup_lt_Some; apply Hin]. unfold eval_direct32. rewrite aligned_low by done.
  cbv beta iota. unfold bind at 1, ret at 1. unfold bind at 1. rewrite (verify_ram s Hok a i ar b Hin).
  unfold area_at, bind, gets, ret. cbn [dev_list set_cur_area]. rewrite (proj1 Hin). cbv beta iota. rewrite Hr, E.
  cbn [call_read32]. rewrite (in_ram_val s Hok a i ar b) by (intros; by apply (in_ram_next s Hok a i ar b 4); auto).
  by rewrite (simmem_read32_be (set_cur_area (Some i) s) b m Hb) by lia.
Qed.

Lemma set_direct32_ram s a v :
  ram_ok s -> dma_ram s a -> 0 <= v < 2 ^ 32 ->
  exists s' i, set_direct32 a v false false s = Ok tt s' /\ stored_at s a 4 v s' /\ cur_area s' = Some i /\
    (i < length (dev_list s))%nat.
Proof.
  intros Hok (Hm & i & ar & b & Hin & _ & Hw & Hl) Hv.
  destruct (in_ram_off s Hok a i ar b 4 Hin ltac:(auto) Hm) as (E & Eo & m & Hb & H0 & H1).
  destruct (simmem_write32_be (set_cur_area (Some i) s) b m Hb (a - addr_compare ar) v) as (s' & Ew & Hbw); [lia..|].
  assert (Hst : stored_at s a 4 v s' /\ cur_area s' = Some i).
  { eapply (be_write_stored s Hok a i ar b 4 v v (set_cur_area (Some i) s)); [exact Hin | auto | exact Hm | done | done | done | exact Hbw]. }
  exists s', i. split_and!; [| apply Hst | apply Hst | eapply lookup_lt_Some; apply Hin].
  unfold set_direct32. rewrite aligned_low by done.
  cbv beta iota. unfold bind at 1, ret at 1. unfold bind at 1, bind at 1. rewrite (verify_ram s Hok a i ar b Hin).
  unfold area_at, bind, gets, ret. cbn [dev_list set_cur_area]. rewrite (proj1 Hin). cbv beta iota. rewrite Hw, E.
  cbn [call_write32]. rewrite Ew. unfold log_write, bind, gets. destruct Hst as [Hst ->].
  cbn. rewrite (proj1 (proj2 (proj2 Hst))), (proj1 Hin). by rewrite Hl.
Qed.
End Direct.
Lemma dma_ram_bytes s a k : ram_ok s -> dma_ram s a -> 0 <= k < 4 -> is_ram s (a + k).
Proof.
  intros Hok (Hm & i & ar & b & Hin & _) Hk. exists i, ar, b. by apply (in_ram_next s Hok a i ar b 4); auto.
Qed.


(** ** The accesses of the debugger *)

(** Address [a] is in a memory block that the debugger reads and writes
    directly. *)
Record direct_area (ar : dev_memarea) (b : Z) : Prop := {
  da_r32 : readfunc32 (direct_ops ar) = Fn_simmem b; da_r8 : readfunc8 (direct_ops ar) = Fn_simmem b;
  da_w32 : writefunc32 (direct_ops ar) = Fn_simmem b; da_log : area_log ar = false;
  da_p32 : writeprog32 (ops ar) = Fn_simmem b; da_p8 : writeprog8 (ops ar) = Fn_simmem b }.
Definition debug_ram (s : Sim) (a : Z) : Prop := exists i ar b, in_ram s a i ar b /\ direct_area ar b.

Lemma debug_ram_word s a : debug_ram s a -> a mod 4 = 0 -> dma_ram s a.
Proof. intros (i & ar & b & Hin & []) Hm. split; [done|]. by exists i, ar, b. Qed.
Lemma debug_ram_lists s s' a : dev_list s' = dev_list s -> blocks s' = blocks s -> debug_ram s a -> debug_ram s' a.
Proof. intros Hd Hb (i & ar & b & Hin & H). exists i, ar, b. split; [by apply (lists_in_ram s) | done]. Qed.

Section Debugger.
Context `{Devices}.

Lemma eval_direct8_ram s a :
  ram_ok s -> debug_ram s a -> exists i, verify_memoryarea a s = Ok (Some i) (set_cur_area (Some i) s) /\
    eval_direct8 a false false s = Ok (ram_byte s a) (set_cur_area (Some i) s) /\ (i < length (dev_list s))%nat.
Proof.
  intros Hok (i & ar & b & Hin & Hd). exists i.
  destruct (in_ram_off s Hok a i ar b 1 Hin ltac:(auto) (Z.mod_1_r a)) as (E & Eo & m & Hb & H0 & H1).
  split; [by apply (verify_ram s Hok a i ar b)|]. split; [|eapply lookup_lt_Some; apply Hin]. unfold eval_direct8.
  unfold bind at 1, ret at 1. unfold bind at 1. rewrite (verify_ram s Hok a i ar b Hin).
  unfold area_at, bind, gets, ret. cbn [dev_list set_cur_area]. rewrite (proj1 Hin). cbv beta iota. rewrite (da_r8 _ _ Hd), E.
  cbn [call_read8]. rewrite (in_ram_byte s Hok s a i ar b) by done.
  rewrite (simmem_read8_be (set_cur_area (Some i) s) b m Hb) by lia. cbn [be_val]. f_equal. unfold be_byte. cbn [glob set_cur_area].
  cbn. lia.
Qed.

Lemma set_program32_ram s a v :
  ram_ok s -> debug_ram s a -> a mod 4 = 0 ->
  exists s' i, set_program32 a v s = Ok tt s' /\ stored_at s a 4 v s' /\ cur_area s' = Some i /\
    (i < length (dev_list s))%nat.
Proof.
  intros Hok (i & ar & b & Hin & Hd) Hm.
  destruct (in_ram_off s Hok a i ar b 4 Hin ltac:(auto) Hm) as (E & Eo & m & Hb & H0 & H1).
  destruct (simmem_write32_be (set_cur_area (Some i) s) b m Hb (a - addr_compare ar) (u32 v)) as (s' & Ew & Hbw); [lia..|].
  assert (Hst : stored_at s a 4 v s' /\ cur_area s' = Some i).
  { eapply (be_write_stored s Hok a i ar b 4 v (u32 v) (set_cur_area (Some i) s));
      [exact Hin | auto | exact Hm | intros k Hk; apply (u8_shiftr_mod 32); lia | done | done | exact Hbw]. }
  exists s', i. split_and!; [| apply Hst | apply Hst | eapply lookup_lt_Some; apply Hin].
  unfold set_program32. rewrite aligned_low by done. unfold bind at 1. rewrite (verify_ram s Hok a i ar b Hin).
  unfold area_at, bind, gets, ret. cbn [dev_list set_cur_area]. rewrite (proj1 Hin). cbv beta iota.
  by rewrite (da_p32 _ _ Hd), E.
Qed.

Lemma set_program8_ram s a v :
  ram_ok s -> debug_ram s a ->
  exists s' i, set_program8 a v s = Ok tt s' /\ stored_at s a 1 v s' /\ cur_area s' = Some i /\
    (i < length (dev_list s))%nat.
Proof.
  intros Hok (i & ar & b & Hin & Hd).
  destruct (in_ram_off s Hok a i ar b 1 Hin ltac:(auto) (Z.mod_1_r a)) as (E & Eo & m & Hb & H0 & H1).
  destruct (simmem_write8_be (set_cur_area (Some i) s) b m Hb (a - addr_compare ar) (u8 v)) as (s' & Ew & Hbw); [lia..|].
  assert (Hst : stored_at s a 1 v s' /\ cur_area s' = Some i).
  { eapply (be_write_stored s Hok a i ar b 1 v (u8 v) (set_cur_area (Some i) s));
      [exact Hin | auto | apply Z.mod_1_r | intros k Hk; apply (u8_shiftr_mod 8); lia | done | done | exact Hbw]. }
  exists s', i. split_and!; [| apply Hst | apply Hst | eapply lookup_lt_Some; apply Hin].
  unfold set_program8. unfold bind at 1. rewrite (verify_ram s Hok a i ar b Hin).
  unfold area_at, bind, gets, ret. cbn [dev_list set_cur_area]. rewrite (proj1 Hin). cbv beta iota.
  by rewrite (da_p8 _ _ Hd), E.
Qed.
End Debugger.
End Direct.
