(* ===== verification/Dma.v ===== *)
(** * The DMA controller (peripheral/dma.c)

    The parameter [n] of the functions is the number of the controller; a
    channel is the pair of it and the number of the channel, and the parameter
    of the channel's job is both in one number. *)

From S2P Require Export Pic Abstract.

Module Dma.
Import Sched Except Pic Mem Ram Mmu Dcache Abstract.

Definition DMA_NUM_CHANNELS := 31.
Definition DMA_ADDR_SPACE := 0x400.
Definition DMA_CSR := 0x00.
Definition DMA_INT_MSK_A := 0x04.
Definition DMA_INT_MSK_B := 0x08.
Definition DMA_INT_SRC_A := 0x0C.
Definition DMA_INT_SRC_B := 0x10.
Definition DMA_CH_BASE := 0x20.
Definition DMA_CH_SIZE := 0x20.
Definition DMA_CH_CSR := 0x00.
Definition DMA_CH_SZ := 0x04.
Definition DMA_CH_A0 := 0x08.
Definition DMA_CH_AM0 := 0x0C.
Definition DMA_CH_A1 := 0x10.
Definition DMA_CH_AM1 := 0x14.
Definition DMA_CH_DESC := 0x18.
Definition DMA_CH_SWPTR := 0x1C.

Definition DMA_CSR_PAUSE_OFFSET := 0.
Definition DMA_CH_CSR_CH_EN_OFFSET := 0.
Definition DMA_CH_CSR_DST_SEL_OFFSET := 1.
Definition DMA_CH_CSR_SRC_SEL_OFFSET := 2.
Definition DMA_CH_CSR_INC_DST_OFFSET := 3.
Definition DMA_CH_CSR_INC_SRC_OFFSET := 4.
Definition DMA_CH_CSR_MODE_OFFSET := 5.
Definition DMA_CH_CSR_ARS_OFFSET := 6.
Definition DMA_CH_CSR_USE_ED_OFFSET := 7.
Definition DMA_CH_CSR_SZ_WB_OFFSET := 8.
Definition DMA_CH_CSR_STOP_OFFSET := 9.
Definition DMA_CH_CSR_BUSY_OFFSET := 10.
Definition DMA_CH_CSR_DONE_OFFSET := 11.
Definition DMA_CH_CSR_ERR_OFFSET := 12.
Definition DMA_CH_CSR_INE_ERR_OFFSET := 17.
Definition DMA_CH_CSR_INE_DONE_OFFSET := 18.
Definition DMA_CH_CSR_INT_ERR_OFFSET := 20.
Definition DMA_CH_CSR_INT_DONE_OFFSET := 21.
Definition DMA_CH_CSR_INT_CHUNK_DONE_OFFSET := 22.
Definition DMA_CH_CSR_WRITE_MASK := 0x000FE3FF.
Definition DMA_CH_SZ_TOT_SZ_OFFSET := 0.
Definition DMA_CH_SZ_TOT_SZ_WIDTH := 12.
Definition DMA_CH_SZ_CHK_SZ_OFFSET := 16.
Definition DMA_CH_SZ_CHK_SZ_WIDTH := 9.
Definition DMA_DESC_CSR := 0x00.
Definition DMA_DESC_ADR0 := 0x04.
Definition DMA_DESC_ADR1 := 0x08.
Definition DMA_DESC_NEXT := 0x0C.
Definition DMA_DESC_CSR_EOL_OFFSET := 20.
Definition DMA_DESC_CSR_INC_SRC_OFFSET := 19.
Definition DMA_DESC_CSR_INC_DST_OFFSET := 18.
Definition DMA_DESC_CSR_SRC_SEL_OFFSET := 17.
Definition DMA_DESC_CSR_DST_SEL_OFFSET := 16.
Definition DMA_DESC_CSR_TOT_SZ_OFFSET := 0.
Definition DMA_DESC_CSR_TOT_SZ_WIDTH := 12.

(** ** The macros of peripheral/fields.h *)

Definition TEST_FLAG (v off : Z) : bool := nz (Z.land (Z.shiftr v off) 1).
Definition SET_FLAG (c : cell) (off : Z) : M unit := ors c (Z.shiftl 1 off).
Definition CLEAR_FLAG (c : cell) (off : Z) : M unit := clr c (Z.shiftl 1 off).
Definition ASSIGN_FLAG (c : cell) (off : Z) (v : bool) : M unit := if v then SET_FLAG c off else CLEAR_FLAG c off.
Definition GET_FIELD (v off width : Z) : Z := Z.land (Z.shiftr v off) (Z.ones width).
Definition SET_FIELD (c : cell) (off width v : Z) : M unit :=
  x ← rd c; wr c (Z.lor (Z.land x (Z.lnot (Z.shiftl (Z.ones width) off))) (u64 (Z.shiftl v off))).

(** A flag of the channel's status register. *)
Definition csr_flag (n ch off : Z) : M bool := csr ← rd (Dma_ch n ch Ch_csr); ret (TEST_FLAG csr off).

(** The number of a channel, and the pair it stands for. *)
Definition channel_of (n ch : Z) : Z := n * DMA_NUM_CHANNELS + ch.
Definition on_channel {A} (f : Z -> Z -> A) (p : Z) : A := f (p / DMA_NUM_CHANNELS) (p mod DMA_NUM_CHANNELS).

(** ** Reset *)

Fixpoint dma_zero (n ch : Z) (l : list dmachvar) : M unit :=
  match l with [] => ret tt | f :: l => wr (Dma_ch n ch f) 0;; dma_zero n ch l end.
Definition dma_reset (n : Z) : M unit :=
  for_ (Z.to_nat DMA_NUM_CHANNELS) 0 1 (fun ch =>
    dma_zero n ch [Ch_channel_mask; Ch_referenced; Ch_load_next; Ch_current_descriptor; Ch_source; Ch_destination;
      Ch_source_mask; Ch_destination_mask; Ch_chunk_size; Ch_total_size; Ch_words_transferred; Ch_csr; Ch_sz;
      Ch_a0; Ch_am0; Ch_a1; Ch_am1; Ch_desc; Ch_swptr; Ch_dma_req_i; Ch_dma_ack_o; Ch_dma_nd_i]);;
  wr (Dma n Dm_csr) 0;;
  wr (Dma n Dm_int_msk_a) 0;; wr (Dma n Dm_int_msk_b) 0;;
  wr (Dma n Dm_int_src_a) 0;; wr (Dma n Dm_int_src_b) 0;;
  for_ (Z.to_nat DMA_NUM_CHANNELS) 0 1 (fun ch =>
    wr (Dma_ch n ch Ch_channel_mask) (Z.shiftl 1 ch);;
    wr (Dma_ch n ch Ch_am1) 0xFFFFFFFC;;
    wr (Dma_ch n ch Ch_am0) 0xFFFFFFFC).

(** ** The registers *)

Definition dma_read_ch_csr (n ch : Z) : M Z :=
  result ← rd (Dma_ch n ch Ch_csr);
  CLEAR_FLAG (Dma_ch n ch Ch_csr) DMA_CH_CSR_INT_CHUNK_DONE_OFFSET;;
  CLEAR_FLAG (Dma_ch n ch Ch_csr) DMA_CH_CSR_INT_DONE_OFFSET;;
  CLEAR_FLAG (Dma_ch n ch Ch_csr) DMA_CH_CSR_INT_ERR_OFFSET;;
  CLEAR_FLAG (Dma_ch n ch Ch_csr) DMA_CH_CSR_ERR_OFFSET;;
  ret result.

Definition dma_read32 (addr n : Z) : M Z :=
  v ← (if addr <? DMA_CH_BASE then
         switch addr
           [([DMA_CSR], rd (Dma n Dm_csr));
            ([DMA_INT_MSK_A], rd (Dma n Dm_int_msk_a));
            ([DMA_INT_MSK_B], rd (Dma n Dm_int_msk_b));
            ([DMA_INT_SRC_A],
               src ← isset (Dma n Dm_int_src_a);
               when src (irq ← rd (Dma n Dm_irq); clear_interrupt irq);;
               v ← rd (Dma n Dm_int_src_a);
               wr (Dma n Dm_int_src_a) 0;;
               ret v);
            ([DMA_INT_SRC_B], rd (Dma n Dm_int_src_b))]
           (emit Ev_warning;; ret 0)
       else
         let ch := (addr - DMA_CH_BASE) / DMA_CH_SIZE in
         switch ((addr - DMA_CH_BASE) mod DMA_CH_SIZE)
           [([DMA_CH_CSR], dma_read_ch_csr n ch);
            ([DMA_CH_SZ], rd (Dma_ch n ch Ch_sz));
            ([DMA_CH_A0], rd (Dma_ch n ch Ch_a0));
            ([DMA_CH_AM0], rd (Dma_ch n ch Ch_am0));
            ([DMA_CH_A1], rd (Dma_ch n ch Ch_a1));
            ([DMA_CH_AM1], rd (Dma_ch n ch Ch_am1));
            ([DMA_CH_DESC], rd (Dma_ch n ch Ch_desc));
            ([DMA_CH_SWPTR], rd (Dma_ch n ch Ch_swptr))] (ret 0));
  ret (u32 v).

Definition dma_write_ch_csr (n ch value : Z) : M unit :=
  enabled ← csr_flag n ch DMA_CH_CSR_CH_EN_OFFSET;
  (if negb enabled && TEST_FLAG value DMA_CH_CSR_CH_EN_OFFSET then
     sched_add J_dma_channel_clock (channel_of n ch) 1
   else
     when (negb (TEST_FLAG value DMA_CH_CSR_CH_EN_OFFSET))
       (sched_find_remove J_dma_channel_clock (channel_of n ch)));;
  clr (Dma_ch n ch Ch_csr) DMA_CH_CSR_WRITE_MASK;;
  ors (Dma_ch n ch Ch_csr) (Z.land value DMA_CH_CSR_WRITE_MASK).

Definition dma_write32 (addr value n : Z) : M unit :=
  if addr <? DMA_CH_BASE then
    switch addr
      [([DMA_CSR], when (TEST_FLAG value DMA_CSR_PAUSE_OFFSET) (emit Ev_warning));
       ([DMA_INT_MSK_A], wr (Dma n Dm_int_msk_a) value);
       ([DMA_INT_MSK_B], wr (Dma n Dm_int_msk_b) value);
       ([DMA_INT_SRC_A], wr (Dma n Dm_int_src_a) value);
       ([DMA_INT_SRC_B], wr (Dma n Dm_int_src_b) value)] (emit Ev_warning)
  else
    let ch := (addr - DMA_CH_BASE) / DMA_CH_SIZE in
    wr (Dma_ch n ch Ch_referenced) 1;;
    switch ((addr - DMA_CH_BASE) mod DMA_CH_SIZE)
      [([DMA_CSR], dma_write_ch_csr n ch value);
       ([DMA_CH_SZ], wr (Dma_ch n ch Ch_sz) value);
       ([DMA_CH_A0], wr (Dma_ch n ch Ch_a0) value);
       ([DMA_CH_AM0], wr (Dma_ch n ch Ch_am0) value);
       ([DMA_CH_A1], wr (Dma_ch n ch Ch_a1) value);
       ([DMA_CH_AM1], wr (Dma_ch n ch Ch_am1) value);
       ([DMA_CH_DESC], wr (Dma_ch n ch Ch_desc) value);
       ([DMA_CH_SWPTR], wr (Dma_ch n ch Ch_swptr) value)] (ret tt).

(** ** The transfers *)

(** [masked_increase (value, mask)] for the pointer to the variable [value]. *)
Definition masked_increase (value : cell) (mask : Z) : M unit :=
  v ← rd value; wr value (Z.lor (Z.land v (Z.lnot mask)) (Z.land (u32 (v + 4)) mask)).

Definition dma_init_transfer (n ch : Z) : M unit :=
  a0 ← rd (Dma_ch n ch Ch_a0); wr (Dma_ch n ch Ch_source) a0;;
  a1 ← rd (Dma_ch n ch Ch_a1); wr (Dma_ch n ch Ch_destination) a1;;
  inc_src ← csr_flag n ch DMA_CH_CSR_INC_SRC_OFFSET; am0 ← rd (Dma_ch n ch Ch_am0);
  wr (Dma_ch n ch Ch_source_mask) (if inc_src : bool then am0 else 0);;
  inc_dst ← csr_flag n ch DMA_CH_CSR_INC_DST_OFFSET; am1 ← rd (Dma_ch n ch Ch_am1);
  wr (Dma_ch n ch Ch_destination_mask) (if inc_dst : bool then am1 else 0);;
  sz ← rd (Dma_ch n ch Ch_sz);
  wr (Dma_ch n ch Ch_total_size) (GET_FIELD sz DMA_CH_SZ_TOT_SZ_OFFSET DMA_CH_SZ_TOT_SZ_WIDTH);;
  wr (Dma_ch n ch Ch_chunk_size) (GET_FIELD sz DMA_CH_SZ_CHK_SZ_OFFSET DMA_CH_SZ_CHK_SZ_WIDTH);;
  chunk ← rd (Dma_ch n ch Ch_chunk_size); total ← rd (Dma_ch n ch Ch_total_size);
  when (negb (nz chunk) || (total <? chunk)) (wr (Dma_ch n ch Ch_chunk_size) total);;
  wr (Dma_ch n ch Ch_words_transferred) 0.

(** [CHANNEL_ND_I] *)
Definition channel_nd_i (n ch : Z) : M bool :=
  mode ← csr_flag n ch DMA_CH_CSR_MODE_OFFSET; use_ed ← csr_flag n ch DMA_CH_CSR_USE_ED_OFFSET;
  nd_i ← isset (Dma_ch n ch Ch_dma_nd_i);
  ret ((mode : bool) && use_ed && nd_i).

(** The interrupt [intr] when its enabling flag and the mask allow it. *)
Definition dma_interrupt (n ch enable intr : Z) : M unit :=
  enabled ← csr_flag n ch enable;
  msk ← rd (Dma n Dm_int_msk_a); mask ← rd (Dma_ch n ch Ch_channel_mask);
  when ((enabled : bool) && nz (Z.land msk mask))
    (SET_FLAG (Dma_ch n ch Ch_csr) intr;;
     wr (Dma n Dm_int_src_a) mask;;
     irq ← rd (Dma n Dm_irq); report_interrupt irq).

Section Transfer.
Context `{Devices}.

Definition dma_load_descriptor (n ch : Z) : M unit :=
  desc ← rd (Dma_ch n ch Ch_desc);
  desc_csr ← eval_direct32 (u32 (desc + DMA_DESC_CSR)) false false;
  wr (Dma_ch n ch Ch_load_next) (b2z (negb (TEST_FLAG desc_csr DMA_DESC_CSR_EOL_OFFSET)));;
  ASSIGN_FLAG (Dma_ch n ch Ch_csr) DMA_CH_CSR_INC_SRC_OFFSET (TEST_FLAG desc_csr DMA_DESC_CSR_INC_SRC_OFFSET);;
  ASSIGN_FLAG (Dma_ch n ch Ch_csr) DMA_CH_CSR_INC_DST_OFFSET (TEST_FLAG desc_csr DMA_DESC_CSR_INC_DST_OFFSET);;
  ASSIGN_FLAG (Dma_ch n ch Ch_csr) DMA_CH_CSR_SRC_SEL_OFFSET (TEST_FLAG desc_csr DMA_DESC_CSR_SRC_SEL_OFFSET);;
  ASSIGN_FLAG (Dma_ch n ch Ch_csr) DMA_CH_CSR_DST_SEL_OFFSET (TEST_FLAG desc_csr DMA_DESC_CSR_DST_SEL_OFFSET);;
  SET_FIELD (Dma_ch n ch Ch_sz) DMA_CH_SZ_TOT_SZ_OFFSET DMA_CH_SZ_TOT_SZ_WIDTH
    (GET_FIELD desc_csr DMA_DESC_CSR_TOT_SZ_OFFSET DMA_DESC_CSR_TOT_SZ_WIDTH);;
  adr0 ← eval_direct32 (u32 (desc + DMA_DESC_ADR0)) false false; wr (Dma_ch n ch Ch_a0) adr0;;
  adr1 ← eval_direct32 (u32 (desc + DMA_DESC_ADR1)) false false; wr (Dma_ch n ch Ch_a1) adr1;;
  desc ← rd (Dma_ch n ch Ch_desc);
  wr (Dma_ch n ch Ch_current_descriptor) desc;;
  next ← eval_direct32 (u32 (desc + DMA_DESC_NEXT)) false false;
  wr (Dma_ch n ch Ch_desc) next.

Definition dma_channel_terminate_transfer (n ch : Z) (generate_interrupt : bool) : M unit :=
  load_next ← isset (Dma_ch n ch Ch_load_next);
  if load_next : bool then
    dma_load_descriptor n ch;;
    dma_init_transfer n ch;;
    sched_add J_dma_channel_clock (channel_of n ch) 1
  else
    ars ← csr_flag n ch DMA_CH_CSR_ARS_OFFSET;
    if ars : bool then dma_init_transfer n ch
    else
      sz_wb ← csr_flag n ch DMA_CH_CSR_SZ_WB_OFFSET; use_ed ← csr_flag n ch DMA_CH_CSR_USE_ED_OFFSET;
      when ((sz_wb : bool) && use_ed)
        (total ← rd (Dma_ch n ch Ch_total_size); words ← rd (Dma_ch n ch Ch_words_transferred);
         SET_FIELD (Dma_ch n ch Ch_sz) DMA_DESC_CSR_TOT_SZ_OFFSET DMA_DESC_CSR_TOT_SZ_WIDTH (u64 (total - words)));;
      CLEAR_FLAG (Dma_ch n ch Ch_csr) DMA_CH_CSR_CH_EN_OFFSET;;
      SET_FLAG (Dma_ch n ch Ch_csr) DMA_CH_CSR_DONE_OFFSET;;
      CLEAR_FLAG (Dma_ch n ch Ch_csr) DMA_CH_CSR_ERR_OFFSET;;
      CLEAR_FLAG (Dma_ch n ch Ch_csr) DMA_CH_CSR_BUSY_OFFSET;;
      when generate_interrupt (dma_interrupt n ch DMA_CH_CSR_INE_DONE_OFFSET DMA_CH_CSR_INT_DONE_OFFSET).

(** The first cycle of a transfer; [true] when the descriptor is skipped. *)
Definition dma_start (n ch : Z) : M bool :=
  CLEAR_FLAG (Dma_ch n ch Ch_csr) DMA_CH_CSR_DONE_OFFSET;;
  CLEAR_FLAG (Dma_ch n ch Ch_csr) DMA_CH_CSR_ERR_OFFSET;;
  SET_FLAG (Dma_ch n ch Ch_csr) DMA_CH_CSR_BUSY_OFFSET;;
  use_ed ← csr_flag n ch DMA_CH_CSR_USE_ED_OFFSET;
  (if use_ed : bool then dma_load_descriptor n ch else wr (Dma_ch n ch Ch_load_next) 0);;
  dma_init_transfer n ch;;
  channel_nd_i n ch.

(** One word. *)
Definition dma_word (n ch : Z) : M unit :=
  src ← rd (Dma_ch n ch Ch_source);
  v ← eval_direct32 src false false;
  dst ← rd (Dma_ch n ch Ch_destination);
  set_direct32 dst v false false;;
  src_mask ← rd (Dma_ch n ch Ch_source_mask);
  masked_increase (Dma_ch n ch Ch_source) src_mask;;
  dst_mask ← rd (Dma_ch n ch Ch_destination_mask);
  masked_increase (Dma_ch n ch Ch_destination) dst_mask;;
  adds (Dma_ch n ch Ch_words_transferred) 1;;
  words ← rd (Dma_ch n ch Ch_words_transferred); chunk ← rd (Dma_ch n ch Ch_chunk_size);
  if nz chunk then wr (Dma_ch n ch Ch_dma_ack_o) (b2z (words mod chunk =? 0)) else stop_with Undefined.

Definition dma_channel_clock (n ch : Z) : M unit :=
  stop ← csr_flag n ch DMA_CH_CSR_STOP_OFFSET;
  if stop : bool then
    CLEAR_FLAG (Dma_ch n ch Ch_csr) DMA_CH_CSR_CH_EN_OFFSET;;
    CLEAR_FLAG (Dma_ch n ch Ch_csr) DMA_CH_CSR_BUSY_OFFSET;;
    SET_FLAG (Dma_ch n ch Ch_csr) DMA_CH_CSR_ERR_OFFSET;;
    dma_interrupt n ch DMA_CH_CSR_INE_ERR_OFFSET DMA_CH_CSR_INT_ERR_OFFSET
  else
    mode ← csr_flag n ch DMA_CH_CSR_MODE_OFFSET; req ← isset (Dma_ch n ch Ch_dma_req_i);
    if (mode : bool) && negb req then sched_add J_dma_channel_clock (channel_of n ch) 1
    else
      busy ← csr_flag n ch DMA_CH_CSR_BUSY_OFFSET;
      skip ← (if negb busy then dma_start n ch else ret false);
      if skip : bool then dma_channel_terminate_transfer n ch false
      else
        dma_word n ch;;
        nd_i ← channel_nd_i n ch;
        if nd_i : bool then dma_channel_terminate_transfer n ch false
        else
          words ← rd (Dma_ch n ch Ch_words_transferred); total ← rd (Dma_ch n ch Ch_total_size);
          if total <=? words then dma_channel_terminate_transfer n ch true
          else sched_add J_dma_channel_clock (channel_of n ch) 1.
End Transfer.

(** ** The interface to other peripherals *)

Definition set_dma_req_i (n ch : Z) : M unit := wr (Dma_ch n ch Ch_dma_req_i) 1.
Definition clear_dma_req_i (n ch : Z) : M unit := wr (Dma_ch n ch Ch_dma_req_i) 0.
Definition set_dma_nd_i (n ch : Z) : M unit := wr (Dma_ch n ch Ch_dma_nd_i) 1.
Definition clear_dma_nd_i (n ch : Z) : M unit := wr (Dma_ch n ch Ch_dma_nd_i) 0.
Definition check_dma_ack_o (n ch : Z) : M Z := rd (Dma_ch n ch Ch_dma_ack_o).

(** The walk along the list of controllers; a controller is its number plus
    one. *)
Fixpoint find_dma (k : nat) (cur : Z) : M Z :=
  match k with
  | O => ret cur
  | S k => if nz cur then cur ← rd (Dma (cur - 1) Dm_next); find_dma k cur else ret cur
  end.
Definition find_dma_controller_ch (controller channel : Z) : M (option (Z * Z)) :=
  cur ← rd Dmas;
  cur ← find_dma (Z.to_nat controller) cur;
  ret (if nz cur then Some (cur - 1, channel) else None).

(** ** Configuration *)

Definition dma_baseaddr (val n : Z) : M unit := wr (Dma n Dm_baseaddr) val.
Definition dma_irq (val n : Z) : M unit := wr (Dma n Dm_irq) val.
Definition dma_vapi_id (val n : Z) : M unit := wr (Dma n Dm_vapi_id) val.
Definition dma_enabled (val n : Z) : M unit := wr (Dma n Dm_enabled) val.
Definition dma_sec_start (n : Z) : M unit :=
  wr (Dma n Dm_next) 0;;
  wr (Dma n Dm_enabled) 1;; wr (Dma n Dm_baseaddr) 0;; wr (Dma n Dm_irq) 0;; wr (Dma n Dm_vapi_id) 0.
Definition dma_ops (n : Z) : mem_ops :=
  let f := Fn_device (D_dma n) in
  MemOps f Fn_null Fn_null f Fn_null Fn_null Fn_null Fn_null 2 2 false.
(** [for (cur = dmas; cur->next; cur = cur->next);] *)
Fixpoint last_dma (fuel : nat) (cur : Z) : M Z :=
  match fuel with
  | O => stop_with Out_of_fuel
  | S fuel => next ← rd (Dma (cur - 1) Dm_next); if nz next then last_dma fuel next else ret cur
  end.
(** Controllers are numbered in the order of their sections. *)
Definition dma_sec_end (n : Z) : M unit :=
  enabled ← isset (Dma n Dm_enabled);
  if negb enabled then ret tt
  else
    base ← rd (Dma n Dm_baseaddr);
    _ ← reg_mem_area base DMA_ADDR_SPACE false (dma_ops n);
    h ← gets reset_hooks;
    modify (set_hooks (R_device (D_dma n) :: h));;
    head ← rd Dmas;
    if nz head then cur ← last_dma (S (Z.to_nat n)) head; wr (Dma (cur - 1) Dm_next) (n + 1)
    else wr Dmas (n + 1).

(** ** What the functions leave alone *)

#[export] Hint Opaque SET_FLAG CLEAR_FLAG ASSIGN_FLAG SET_FIELD csr_flag dma_zero dma_reset dma_read_ch_csr
  dma_read32 dma_write_ch_csr dma_write32 masked_increase dma_init_transfer channel_nd_i dma_interrupt
  dma_load_descriptor dma_channel_terminate_transfer dma_start dma_word dma_channel_clock : typeclass_instances.
Section Typed.
Context R `{!Enters R}.
#[export] Instance csr_flag_typed n ch o : Respects R (csr_flag n ch o).
Proof. unfold csr_flag. respects. Qed.
#[export] Instance set_flag_typed n ch f o : Respects R (SET_FLAG (Dma_ch n ch f) o).
Proof. unfold SET_FLAG. respects. Qed.
#[export] Instance clear_flag_typed n ch f o : Respects R (CLEAR_FLAG (Dma_ch n ch f) o).
Proof. unfold CLEAR_FLAG. respects. Qed.
#[export] Instance assign_flag_typed n ch f o v : Respects R (ASSIGN_FLAG (Dma_ch n ch f) o v).
Proof. unfold ASSIGN_FLAG. respects. Qed.
#[export] Instance set_field_typed n ch f o w v : Respects R (SET_FIELD (Dma_ch n ch f) o w v).
Proof. unfold SET_FIELD. respects. Qed.
#[export] Instance dma_zero_typed n ch l : Respects R (dma_zero n ch l).
Proof. induction l; cbn [dma_zero]; respects. Qed.
#[export] Instance dma_reset_typed n : Respects R (dma_reset n).
Proof. unfold dma_reset. respects. Qed.
#[export] Instance dma_read_ch_csr_typed n ch : Respects R (dma_read_ch_csr n ch).
Proof. unfold dma_read_ch_csr. respects. Qed.
#[export] Instance dma_read32_typed a n : Respects R (dma_read32 a n).
Proof. unfold dma_read32. respects. Qed.
#[export] Instance dma_write_ch_csr_typed n ch v : Respects R (dma_write_ch_csr n ch v).
Proof. unfold dma_write_ch_csr. respects. Qed.
#[export] Instance dma_write32_typed a v n : Respects R (dma_write32 a v n).
Proof. unfold dma_write32. respects. Qed.
#[export] Instance masked_increase_typed n ch f m : Respects R (masked_increase (Dma_ch n ch f) m).
Proof. unfold masked_increase. respects. Qed.
#[export] Instance dma_init_transfer_typed n ch : Respects R (dma_init_transfer n ch).
Proof. unfold dma_init_transfer. respects. Qed.
#[export] Instance channel_nd_i_typed n ch : Respects R (channel_nd_i n ch).
Proof. unfold channel_nd_i. respects. Qed.
#[export] Instance dma_interrupt_typed n ch e i : Respects R (dma_interrupt n ch e i).
Proof. unfold dma_interrupt. respects. Qed.
Context `{Devices}.
#[export] Instance dma_load_descriptor_typed n ch : Respects R (dma_load_descriptor n ch).
Proof. unfold dma_load_descriptor. respects. Qed.
#[export] Instance dma_terminate_typed n ch g : Respects R (dma_channel_terminate_transfer n ch g).
Proof. unfold dma_channel_terminate_transfer. respects. Qed.
#[export] Instance dma_start_typed n ch : Respects R (dma_start n ch).
Proof. unfold dma_start. respects. Qed.
#[export] Instance dma_word_typed n ch : Respects R (dma_word n ch).
Proof. unfold dma_word. respects. Qed.
#[export] Instance dma_channel_clock_typed n ch : Respects R (dma_channel_clock n ch).
Proof. unfold dma_channel_clock. respects. Qed.
End Typed.
End Dma.
