(* ===== verification/DmaCopy.v ===== *)
(** * The DMA controller copies memory (peripheral/dma.c)

    A transfer that software starts runs to its end: the scheduler runs the job
    of the channel once a cycle, each run copies a word of RAM, and after as
    many cycles as the transfer has words the channel is done. *)

From S2P Require Export Direct Dma.

Module DmaCopy.
Import Sched Except Pic Mem Ram Mmu Dcache Abstract Direct Dma.

(** ** Flags *)

Lemma test_flag_bit v o : TEST_FLAG v o = Z.testbit v o.
Proof.
  unfold TEST_FLAG. change 1 with (Z.ones 1). rewrite Z.land_ones by lia. rewrite Z.testbit_odd.
  change (2 ^ 1) with 2. rewrite Zmod_odd. by destruct (Z.odd _).
Qed.
Lemma flag_set v o p : 0 <= o < 64 -> 0 <= p < 64 -> TEST_FLAG (u64 (Z.lor v (Z.shiftl 1 o))) p = (o =? p) || TEST_FLAG v p.
Proof.
  intros Ho Hp. rewrite !test_flag_bit, testbit_u64, Z.lor_spec, Z.shiftl_1_l, testbit_pow2 by lia.
  rewrite (proj2 (Z.ltb_lt p 64)) by lia. by rewrite andb_true_r, orb_comm.
Qed.
Lemma flag_clear v o p :
  0 <= o < 64 -> 0 <= p < 64 -> TEST_FLAG (u64 (Z.land v (Z.lnot (Z.shiftl 1 o)))) p = negb (o =? p) && TEST_FLAG v p.
Proof.
  intros Ho Hp. rewrite !test_flag_bit, testbit_u64, Z.land_spec, Z.lnot_spec, Z.shiftl_1_l, testbit_pow2 by lia.
  rewrite (proj2 (Z.ltb_lt p 64)) by lia. by rewrite andb_true_r, andb_comm.
Qed.

(** ** The copy *)

(** [m] with the four bytes at [b] replaced by those at [a]. *)
Definition move (m : Z -> Z) (a b x : Z) : Z := if (b <=? x) && (x <? b + 4) then m (a + (x - b)) else m x.
Fixpoint copied (m : Z -> Z) (src dst : nat -> Z) (k : nat) : Z -> Z :=
  match k with O => m | S k => move (copied m src dst k) (src k) (dst k) end.
(** The address after [a]. *)
Definition masked (mask a : Z) : Z := Z.lor (Z.land a (Z.lnot mask)) (Z.land (u32 (a + 4)) mask).
Definition step_addr (mask a : Z) : Z := u32 (masked mask a).
Definition walk (mask a : Z) (k : nat) : Z := Nat.iter k (step_addr mask) a.

(** The copying of one word, as the bytes of RAM see it. *)
Lemma stored_move (s s' : Sim) a b :
  typed s -> stored_at s b 4 (ram_val s a 4) s' ->
  forall x, is_ram s x -> ram_byte s' x = move (ram_byte s) a b x.
Proof.
  intros Hty (Hb & _) x Hx. rewrite Hb by done. unfold move. destruct (_ && _) eqn:E; [|done].
  apply andb_true_iff in E as [?%Z.leb_le ?%Z.ltb_lt]. by rewrite ram_val_byte by (done || lia).
Qed.
Lemma move_ext (P : Z -> Prop) m m' a b :
  (forall x, P x -> m x = m' x) -> (forall k, 0 <= k < 4 -> P (a + k)) -> forall x, P x -> move m a b x = move m' a b x.
Proof.
  intros Hm Ha x Hx. unfold move. destruct (_ && _) eqn:E; [|auto].
  apply andb_true_iff in E as [?%Z.leb_le ?%Z.ltb_lt]. apply Hm, Ha. lia.
Qed.
Lemma bind_eq {A B} (m : M A) (f : A -> M B) a s s' : m s = Ok a s' -> bind m f s = f a s'.
Proof. unfold bind. by intros ->. Qed.

Section Word.
Context (n ch : Z) `{Devices}.

(** The cells a word changes. *)
Definition word_cell (c : cell) : Prop :=
  match c with
  | G (Mem_cycles | Cur_vadd) | Mem _ _ => True
  | Dma_ch n' ch' (Ch_source | Ch_destination | Ch_words_transferred | Ch_dma_ack_o) => n' = n /\ ch' = ch
  | _ => False
  end.

Lemma dma_word_run s :
  typed s -> ram_ok s -> s (Dma_ch n ch Ch_chunk_size) <> 0 -> 0 <= s (Dma_ch n ch Ch_words_transferred) < 2 ^ 63 ->
  let src := s (Dma_ch n ch Ch_source) in let dst := s (Dma_ch n ch Ch_destination) in
  dma_ram s src -> dma_ram s dst ->
  exists s', dma_word n ch s = Ok tt s' /\ frame word_cell s s' /\ ram_ok s' /\
    s' (Dma_ch n ch Ch_source) = step_addr (s (Dma_ch n ch Ch_source_mask)) src /\
    s' (Dma_ch n ch Ch_destination) = step_addr (s (Dma_ch n ch Ch_destination_mask)) dst /\
    s' (Dma_ch n ch Ch_words_transferred) = s (Dma_ch n ch Ch_words_transferred) + 1 /\
    (forall x, is_ram s x -> ram_byte s' x = move (ram_byte s) src dst x) /\
    dev_list s' = dev_list s /\ blocks s' = blocks s /\ job_queue s' = job_queue s /\ free_jobs s' = free_jobs s.
Proof.
  intros Hty Hok Hc Hw src dst Hs Hd.
  destruct (eval_direct32_ram s src Hok Hs) as (i & E1 & Hi). set (s1 := set_cur_area (Some i) s) in *.
  assert (Hok1 : ram_ok s1) by (apply (lists_ram_ok s); try done; by intros ? [= <-]).
  assert (Hd1 : dma_ram s1 dst) by (by apply (dma_ram_lists s)).
  destruct (set_direct32_ram s1 dst (ram_val s src 4) Hok1 Hd1 (ram_word_range s src Hty)) as (s2 & j & E2 & Hst & Hcur & Hj).
  assert (Hok2 : ram_ok s2) by (by eapply stored_ok).
  pose proof (stored_move s1 s2 src dst Hty Hst) as Hmv. destruct Hst as (_ & Hcells & D1 & D2 & D3 & D4 & D5 & D6 & D7 & D8).
  assert (Hch : forall f, s2 (Dma_ch n ch f) = s (Dma_ch n ch f)) by (intros f; by apply Hcells).
  set (w := s (Dma_ch n ch Ch_words_transferred)) in *. set (c := s (Dma_ch n ch Ch_chunk_size)) in *.
  pose (s3 := upd (Dma_ch n ch Ch_dma_ack_o) (b2z ((w + 1) mod c =? 0))
          (upd (Dma_ch n ch Ch_words_transferred) (w + 1)
          (upd (Dma_ch n ch Ch_destination) (masked (s (Dma_ch n ch Ch_destination_mask)) dst)
          (upd (Dma_ch n ch Ch_source) (masked (s (Dma_ch n ch Ch_source_mask)) src) s2)))).
  assert (Hrun : wp (dma_word n ch) (fun _ s' => s' = s3) s).
  { unfold dma_word. do 3 wp1. cbv beta. eapply wpx_eq; [exact E1|]. do 3 wp1. cbv beta.
    change (set_cur_area (Some i) s (Dma_ch n ch Ch_destination)) with dst.
    eapply wpx_eq; [exact E2|]. unfold masked_increase. do 18 (wp1; cbv beta; look). rewrite !Hch. fold w c.
    rewrite (wrap_small U64) by (apply inty_U64; lia). rewrite (proj2 (nz_spec c)) by exact Hc. wp1. reflexivity. }
  apply wp_unit in Hrun as (s3' & Hrun & ->). exists s3. split; [exact Hrun|]. clear E1 E2 Hrun.
  assert (Hm3 : forall b i, s3 (Mem b i) = s2 (Mem b i)) by (intros; subst s3; by look).
  assert (Hr3 : mem_rest s2 s3).
  { split; try done. intros k Hk. change (cur_area s3) with (cur_area s2) in Hk. rewrite Hcur in Hk. injection Hk as <-. by rewrite D1. }
  split_and!.
  - intros c' Hc'. subst s3. rewrite !upd_ne by (intros <-; by apply Hc'). apply Hcells; try (intros ->; by apply Hc').
    intros b k ->. by apply Hc'.
  - exact (mem_rest_ok s2 s3 Hok2 Hr3).
  - subst s3. by look.
  - subst s3. by look.
  - subst s3. look. apply wrap_small, inty_U64. lia.
  - intros x Hx. rewrite (mem_rest_byte s2 s3 x Hr3). apply (Hmv x). destruct Hx as (i' & ar & b & Hin).
    exists i', ar, b. by apply (lists_in_ram s).
  - exact D1.
  - exact D3.
  - exact D4.
  - exact D5.
Qed.
End Word.
(** ** A transfer *)

Section Transfer.
Context (n ch : Z) `{Devices}.

Definition flag_of (s : Sim) (off : Z) : bool := TEST_FLAG (s (Dma_ch n ch Ch_csr)) off.
(** The flags of a transfer by software, once through, without an interrupt. *)
Definition simple_flags : list Z :=
  [DMA_CH_CSR_STOP_OFFSET; DMA_CH_CSR_MODE_OFFSET; DMA_CH_CSR_ARS_OFFSET; DMA_CH_CSR_USE_ED_OFFSET;
   DMA_CH_CSR_INE_DONE_OFFSET].
Definition simple (s : Sim) : Prop := Forall (fun off => flag_of s off = false) simple_flags.

(** What the channel's registers say of the transfer: how many words, and the
    addresses of the [k]-th. *)
Definition tot_sz (s : Sim) : Z := GET_FIELD (s (Dma_ch n ch Ch_sz)) DMA_CH_SZ_TOT_SZ_OFFSET DMA_CH_SZ_TOT_SZ_WIDTH.
Definition src_mask (s : Sim) : Z := if flag_of s DMA_CH_CSR_INC_SRC_OFFSET then u32 (s (Dma_ch n ch Ch_am0)) else 0.
Definition dst_mask (s : Sim) : Z := if flag_of s DMA_CH_CSR_INC_DST_OFFSET then u32 (s (Dma_ch n ch Ch_am1)) else 0.
Definition src_at (s : Sim) (k : nat) : Z := walk (src_mask s) (u32 (s (Dma_ch n ch Ch_a0))) k.
Definition dst_at (s : Sim) (k : nat) : Z := walk (dst_mask s) (u32 (s (Dma_ch n ch Ch_a1))) k.

(** [k] words of the transfer that the state [s0] describes are copied. *)
Record midway (s0 : Sim) (k : nat) (s : Sim) : Prop := {
  w_typed : typed s; w_ram : ram_ok s; w_dev : dev_list s = dev_list s0; w_blocks : blocks s = blocks s0;
  w_simple : simple s; w_busy : flag_of s DMA_CH_CSR_BUSY_OFFSET = true;
  w_next : s (Dma_ch n ch Ch_load_next) = 0;
  w_src : s (Dma_ch n ch Ch_source) = src_at s0 k; w_dst : s (Dma_ch n ch Ch_destination) = dst_at s0 k;
  w_smask : s (Dma_ch n ch Ch_source_mask) = src_mask s0; w_dmask : s (Dma_ch n ch Ch_destination_mask) = dst_mask s0;
  w_total : s (Dma_ch n ch Ch_total_size) = tot_sz s0; w_chunk : s (Dma_ch n ch Ch_chunk_size) <> 0;
  w_words : s (Dma_ch n ch Ch_words_transferred) = Z.of_nat k;
  w_mem : forall x, is_ram s0 x -> ram_byte s x = copied (ram_byte s0) (src_at s0) (dst_at s0) k x }.

Definition same_queue (s s' : Sim) : Prop := job_queue s' = job_queue s /\ free_jobs s' = free_jobs s.

Lemma word_midway s0 k s :
  ram_ok s0 -> midway s0 k s -> dma_ram s0 (src_at s0 k) -> dma_ram s0 (dst_at s0 k) -> Z.of_nat k < 2 ^ 62 ->
  exists s', dma_word n ch s = Ok tt s' /\ midway s0 (S k) s' /\ same_queue s s'.
Proof.
  intros Hok0 [] Hs Hd Hk.
  destruct (dma_word_run n ch s) as (s' & E & Hf & Hok & Es & Ed & Ew & Hm & D1 & D2 & D3 & D4); try done.
  { rewrite w_words0. lia. }
  { rewrite w_src0. by apply (dma_ram_lists s0). }
  { rewrite w_dst0. by apply (dma_ram_lists s0). }
  assert (Hc : forall f, match f with Ch_source | Ch_destination | Ch_words_transferred | Ch_dma_ack_o => False | _ => True end ->
    s' (Dma_ch n ch f) = s (Dma_ch n ch f)).
  { intros f Hfr. apply Hf. destruct f; first [by destruct Hfr | by intros []]. }
  exists s'. split; [exact E|]. split; [|done]. split; unfold simple, flag_of in *; rewrite ?Hc by done; try congruence; try done.
  - pose proof (dma_word_typed keeps_typed n ch s w_typed0) as Ht. by rewrite E in Ht.
  - by rewrite Es, w_smask0, w_src0.
  - by rewrite Ed, w_dmask0, w_dst0.
  - rewrite Ew, w_words0. lia.
  - intros x Hx. rewrite Hm by (by apply (lists_is_ram s0)). rewrite w_src0, w_dst0. cbn [copied].
    apply (move_ext (is_ram s0)); [done | | done]. intros j Hj. by apply dma_ram_bytes.
Qed.

Lemma bind_flag {B} (f : bool -> M B) off s : bind (csr_flag n ch off) f s = f (flag_of s off) s.
Proof. reflexivity. Qed.

(** A state that differs from [s] in the channel's status only. *)
Definition csr_only (s s' : Sim) : Prop :=
  frame (fun c => c = Dma_ch n ch Ch_csr) s s' /\ same_lists s s' /\ (typed s -> typed s').
Lemma csr_upd s v : csr_only s (upd (Dma_ch n ch Ch_csr) v s).
Proof. split_and!; [by apply frame_upd | done | by apply upd_typed]. Qed.
Lemma csr_trans s1 s2 s3 : csr_only s1 s2 -> csr_only s2 s3 -> csr_only s1 s3.
Proof. intros (F1 & L1 & T1) (F2 & L2 & T2). split_and!; [by etransitivity | by etransitivity | auto]. Qed.
Lemma set_flag_run off s : 0 <= off < 64 -> exists s', SET_FLAG (Dma_ch n ch Ch_csr) off s = Ok tt s' /\ csr_only s s' /\
  forall p, 0 <= p < 64 -> flag_of s' p = (off =? p) || flag_of s p.
Proof.
  intros Ho. eexists. split; [reflexivity|]. split; [apply csr_upd|]. intros p Hp. unfold flag_of. rewrite upd_eq. by apply flag_set.
Qed.
Lemma clear_flag_run off s : 0 <= off < 64 -> exists s', CLEAR_FLAG (Dma_ch n ch Ch_csr) off s = Ok tt s' /\ csr_only s s' /\
  forall p, 0 <= p < 64 -> flag_of s' p = negb (off =? p) && flag_of s p.
Proof.
  intros Ho. eexists. split; [reflexivity|]. split; [apply csr_upd|]. intros p Hp. unfold flag_of. rewrite upd_eq. by apply flag_clear.
Qed.

Lemma simple_get s off : simple s -> In off simple_flags -> flag_of s off = false.
Proof. intros Hs Hi. unfold simple in Hs. rewrite List.Forall_forall in Hs. by apply Hs. Qed.
Ltac in_flags := vm_compute; tauto.

Lemma get_field_range v off w : 0 <= w -> 0 <= GET_FIELD v off w < 2 ^ w.
Proof. intros Hw. unfold GET_FIELD. rewrite Z.land_ones by lia. apply Z.mod_pos_bound. lia. Qed.

Lemma init_transfer_run s :
  1 <= tot_sz s -> wp (dma_init_transfer n ch) (fun _ s' =>
    same_lists s s' /\ (typed s -> typed s') /\
    (forall f, match f with Ch_source | Ch_destination | Ch_source_mask | Ch_destination_mask | Ch_total_size
       | Ch_chunk_size | Ch_words_transferred => False | _ => True end -> s' (Dma_ch n ch f) = s (Dma_ch n ch f)) /\
    (forall b i, s' (Mem b i) = s (Mem b i)) /\
    s' (Dma_ch n ch Ch_source) = src_at s 0 /\ s' (Dma_ch n ch Ch_destination) = dst_at s 0 /\
    s' (Dma_ch n ch Ch_source_mask) = src_mask s /\ s' (Dma_ch n ch Ch_destination_mask) = dst_mask s /\
    s' (Dma_ch n ch Ch_total_size) = tot_sz s /\ s' (Dma_ch n ch Ch_chunk_size) <> 0 /\
    s' (Dma_ch n ch Ch_words_transferred) = 0) s.
Proof.
  intros Htot. pose proof (get_field_range (s (Dma_ch n ch Ch_sz)) DMA_CH_SZ_TOT_SZ_OFFSET 12 ltac:(lia)) as Hr.
  change (GET_FIELD _ _ 12) with (tot_sz s) in Hr.
  unfold dma_init_transfer, csr_flag. do 34 (wp1; cbv beta; look).
  pose proof (get_field_range (s (Dma_ch n ch Ch_sz)) DMA_CH_SZ_CHK_SZ_OFFSET 9 ltac:(lia)) as Hc.
  change DMA_CH_SZ_CHK_SZ_WIDTH with 9. set (chk := GET_FIELD _ _ 9) in *.
  change (GET_FIELD (s (Dma_ch n ch Ch_sz)) DMA_CH_SZ_TOT_SZ_OFFSET DMA_CH_SZ_TOT_SZ_WIDTH) with (tot_sz s).
  change (TEST_FLAG (s (Dma_ch n ch Ch_csr)) ?o) with (flag_of s o).
  rewrite !(wrap_small U64) by (apply inty_U64; lia).
  assert (Hmask : forall (b : bool) x, u32 (if b then x else 0) = if b then u32 x else 0) by (by intros []).
  do 2 wp1; repeat wp1; (split_and!; [done | intros Hty; by repeat apply upd_typed | | intros b i; by look | ..]);
    try (intros f Hf; rewrite !upd_ne by (intros [= <-]; exact Hf); done);
    look; rewrite ?Hmask, ?(wrap_small U64) by (apply inty_U64; lia); try done.
  - lia.
  - apply orb_false_iff in H0 as [H0 _]. apply negb_false_iff, nz_spec in H0. exact H0.
Qed.

Lemma start_midway s :
  typed s -> ram_ok s -> simple s -> 1 <= tot_sz s ->
  exists s', dma_start n ch s = Ok false s' /\ midway s 0 s' /\ same_queue s s'.
Proof.
  intros Hty Hok Hsi Htot.
  destruct (clear_flag_run DMA_CH_CSR_DONE_OFFSET s ltac:(closed_Z)) as (s1 & E1 & C1 & B1).
  destruct (clear_flag_run DMA_CH_CSR_ERR_OFFSET s1 ltac:(closed_Z)) as (s2 & E2 & C2 & B2).
  destruct (set_flag_run DMA_CH_CSR_BUSY_OFFSET s2 ltac:(closed_Z)) as (s3 & E3 & C3 & B3).
  pose proof (csr_trans _ _ _ (csr_trans _ _ _ C1 C2) C3) as (F & L & T). specialize (T Hty).
  assert (Hb : forall p, 0 <= p < 64 -> p <> DMA_CH_CSR_DONE_OFFSET -> p <> DMA_CH_CSR_ERR_OFFSET ->
    p <> DMA_CH_CSR_BUSY_OFFSET -> flag_of s3 p = flag_of s p).
  { intros p Hp N1 N2 N3. rewrite B3, B2, B1 by done.
    rewrite (proj2 (Z.eqb_neq _ _)), (proj2 (Z.eqb_neq _ _)), (proj2 (Z.eqb_neq _ _)) by congruence. done. }
  assert (Hf3 : forall f, f <> Ch_csr -> s3 (Dma_ch n ch f) = s (Dma_ch n ch f)) by (intros f Hf; apply F; congruence).
  assert (Hsi3 : simple s3).
  { unfold simple in *. rewrite List.Forall_forall in *. intros off Hin. rewrite <- (Hsi off Hin).
    repeat destruct Hin as [<-|Hin]; try done; apply Hb; by first [closed_Z | vm_compute]. }
  set (s4 := upd (Dma_ch n ch Ch_load_next) 0 s3).
  assert (Hf4 : forall f, f <> Ch_csr -> f <> Ch_load_next -> s4 (Dma_ch n ch f) = s (Dma_ch n ch f)).
  { intros f N1 N2. subst s4. rewrite upd_ne by congruence. auto. }
  assert (Hfl4 : forall o, flag_of s4 o = flag_of s3 o) by (intros o; unfold flag_of, s4; by look).
  assert (Et : tot_sz s4 = tot_sz s) by (unfold tot_sz; rewrite Hf4 by done; done).
  assert (Es : src_mask s4 = src_mask s) by (unfold src_mask; rewrite Hfl4, Hb, Hf4 by first [done | closed_Z]; done).
  assert (Ed : dst_mask s4 = dst_mask s) by (unfold dst_mask; rewrite Hfl4, Hb, Hf4 by first [done | closed_Z]; done).
  assert (Hin : wp (dma_init_transfer n ch) (fun _ s' => midway s 0 s' /\ same_queue s s') s4).
  { eapply wpx_mono; [apply (init_transfer_run s4); by rewrite Et | done |].
    intros [] s5 (L5 & T5 & K5 & M5 & H1 & H2 & H3 & H4 & H5 & H6 & H7).
    assert (Lall : same_lists s s5) by (etransitivity; [exact L | exact L5]).
    assert (Hfl5 : forall o, flag_of s5 o = flag_of s3 o) by (intros o; rewrite <- Hfl4; unfold flag_of; by rewrite K5).
    assert (Mall : forall b i, s5 (Mem b i) = s (Mem b i)) by (intros b i; rewrite M5; unfold s4; rewrite upd_ne by done; by apply F).
    destruct Lall as (Q1 & Q2 & Q3 & Q4 & Q5 & Q6 & _).
    assert (Hr : mem_rest s s5).
    { split; try done. intros k Hk. rewrite Q5 in Hk. destruct (ro_areas s Hok) as (_ & _ & _ & Hcur). auto. }
    split; [|split; congruence]. split; try congruence.
    - apply T5. unfold s4. by apply upd_typed.
    - exact (mem_rest_ok s s5 Hok Hr).
    - unfold simple in *. eapply List.Forall_impl; [|exact Hsi3]. intros o Ho. by rewrite Hfl5.
    - rewrite Hfl5. by rewrite B3.
    - rewrite K5 by done. unfold s4. by look.
    - rewrite H1. unfold src_at. rewrite Es, Hf4 by done. done.
    - rewrite H2. unfold dst_at. rewrite Ed, Hf4 by done. done.
    - exact H7.
    - intros x _. exact (mem_rest_byte s s5 x Hr). }
  apply wp_unit in Hin as (s5 & E5 & Hm & Hq). exists s5. split; [|done].
  unfold dma_start, bind. rewrite E1, E2, E3. unfold csr_flag, bind, rd, ret, wr. change (TEST_FLAG _ _) with (flag_of s3 DMA_CH_CSR_USE_ED_OFFSET).
  rewrite (simple_get s3) by (done || in_flags). cbv iota. fold s4. rewrite E5.
  unfold channel_nd_i, csr_flag, isset, bind, rd, ret.
  change (TEST_FLAG (s5 (Dma_ch n ch Ch_csr)) DMA_CH_CSR_MODE_OFFSET) with (flag_of s5 DMA_CH_CSR_MODE_OFFSET).
  by rewrite (simple_get s5) by (apply Hm || in_flags).
Qed.

(** A transfer that is over. *)
Record finished (s0 s : Sim) : Prop := {
  f_done : flag_of s DMA_CH_CSR_DONE_OFFSET = true; f_busy : flag_of s DMA_CH_CSR_BUSY_OFFSET = false;
  f_enable : flag_of s DMA_CH_CSR_CH_EN_OFFSET = false; f_err : flag_of s DMA_CH_CSR_ERR_OFFSET = false;
  f_mem : forall x, is_ram s0 x ->
    ram_byte s x = copied (ram_byte s0) (src_at s0) (dst_at s0) (Z.to_nat (tot_sz s0)) x }.

Lemma terminate_run s0 s :
  midway s0 (Z.to_nat (tot_sz s0)) s ->
  exists s', dma_channel_terminate_transfer n ch true s = Ok tt s' /\ finished s0 s' /\ same_queue s s'.
Proof.
  intros Hm.
  destruct (clear_flag_run DMA_CH_CSR_CH_EN_OFFSET s ltac:(closed_Z)) as (s1 & E1 & C1 & B1).
  destruct (set_flag_run DMA_CH_CSR_DONE_OFFSET s1 ltac:(closed_Z)) as (s2 & E2 & C2 & B2).
  destruct (clear_flag_run DMA_CH_CSR_ERR_OFFSET s2 ltac:(closed_Z)) as (s3 & E3 & C3 & B3).
  destruct (clear_flag_run DMA_CH_CSR_BUSY_OFFSET s3 ltac:(closed_Z)) as (s4 & E4 & C4 & B4).
  pose proof (csr_trans _ _ _ (csr_trans _ _ _ (csr_trans _ _ _ C1 C2) C3) C4) as (F & L & T).
  destruct L as (Q1 & Q2 & Q3 & Q4 & Q5 & Q6 & _).
  assert (Hine : flag_of s4 DMA_CH_CSR_INE_DONE_OFFSET = false).
  { rewrite B4, B3, B2, B1 by closed_Z. cbn. apply simple_get; [apply Hm | in_flags]. }
  exists s4. split; [|split; [|done]].
  - unfold dma_channel_terminate_transfer. rewrite (bind_eq (isset _) _ (nz (s (Dma_ch n ch Ch_load_next))) s s) by done.
    rewrite (w_next _ _ _ Hm). change (nz 0) with false.
    cbv iota. rewrite !bind_flag, (simple_get s DMA_CH_CSR_ARS_OFFSET) by (apply Hm || in_flags). cbv iota.
    rewrite !bind_flag, (simple_get s DMA_CH_CSR_USE_ED_OFFSET) by (apply Hm || in_flags). rewrite andb_false_r. cbn [when].
    rewrite (bind_eq (ret tt) _ tt s s) by done.
    rewrite (bind_eq _ _ _ _ _ E1), (bind_eq _ _ _ _ _ E2), (bind_eq _ _ _ _ _ E3), (bind_eq _ _ _ _ _ E4).
    unfold dma_interrupt. by rewrite bind_flag, Hine.
  - split; try (rewrite B4, ?B3, ?B2, ?B1 by closed_Z; done). intros x Hx. rewrite <- (w_mem _ _ _ Hm x Hx).
    apply mem_rest_byte. split; try done; [intros b i; by apply F|]. intros k Hk. rewrite Q5 in Hk.
    destruct (ro_areas s (w_ram _ _ _ Hm)) as (_ & _ & _ & Hcur). auto.
Qed.

(** A clock: a word, and either the end or another clock. *)
Lemma clock_run s0 k s s1 :
  ram_ok s0 -> simple s -> midway s0 k s1 -> same_queue s s1 ->
  (if flag_of s DMA_CH_CSR_BUSY_OFFSET then ret false else dma_start n ch) s = Ok false s1 ->
  Z.of_nat k < tot_sz s0 -> dma_ram s0 (src_at s0 k) -> dma_ram s0 (dst_at s0 k) ->
  exists s2, midway s0 (S k) s2 /\ same_queue s s2 /\
    dma_channel_clock n ch s =
      (if tot_sz s0 <=? Z.of_nat (S k) then dma_channel_terminate_transfer n ch true
       else sched_add J_dma_channel_clock (channel_of n ch) 1) s2.
Proof.
  intros Hok0 Hsi Hm1 [Q1 Q2] Hst Hk Hs Hd.
  assert (Hr : 0 <= tot_sz s0 < 2 ^ 12) by (apply get_field_range; done).
  destruct (word_midway s0 k s1 Hok0 Hm1 Hs Hd) as (s2 & E & Hm2 & [Q3 Q4]); [lia|].
  exists s2. split; [done|]. split; [split; congruence|].
  unfold dma_channel_clock. rewrite bind_flag, (simple_get s DMA_CH_CSR_STOP_OFFSET) by (done || in_flags). cbv iota.
  rewrite bind_flag, (simple_get s DMA_CH_CSR_MODE_OFFSET) by (done || in_flags).
  rewrite (bind_eq (isset _) _ (nz (s (Dma_ch n ch Ch_dma_req_i))) s s) by done. cbn [andb]. rewrite bind_flag.
  rewrite (bind_eq _ _ false s s1) by (rewrite <- Hst; by destruct (flag_of s DMA_CH_CSR_BUSY_OFFSET)). cbv iota.
  rewrite (bind_eq _ _ _ _ _ E). unfold channel_nd_i.
  rewrite (bind_eq _ _ false s2 s2).
  - cbv iota. rewrite (bind_eq (rd _) _ (Z.of_nat (S k)) s2 s2) by (unfold rd; by rewrite (w_words _ _ _ Hm2)).
    rewrite (bind_eq (rd _) _ (tot_sz s0) s2 s2) by (unfold rd; by rewrite (w_total _ _ _ Hm2)). done.
  - rewrite bind_flag, (simple_get s2 DMA_CH_CSR_MODE_OFFSET) by (apply Hm2 || in_flags). done.
Qed.

(** ** With the scheduler *)

Lemma ram_ok_queue q f s : ram_ok s -> ram_ok (set_queue q f s).
Proof. intros Hok. apply (lists_ram_ok s); try done. apply (ro_areas s Hok). Qed.
Lemma midway_queue s0 k q f s : midway s0 k s -> midway s0 k (set_queue q f s).
Proof. intros []. split; try done. by apply ram_ok_queue. Qed.

Context (run_job : job_fn -> Z -> M unit) (fuel : nat).
Hypothesis run_channel : forall p, run_job J_dma_channel_clock p = on_channel dma_channel_clock p.
Hypothesis channel : 0 <= ch < DMA_NUM_CHANNELS.

Fixpoint cycles (k : nat) : M unit := match k with O => ret tt | S k => cycles k;; elapse run_job (S fuel) 1 end.

Definition job (t : Z) : sched_entry := SchedEntry t (channel_of n ch) J_dma_channel_clock.
Definition guard (p t : Z) : sched_entry := SchedEntry t p J_sched_guard.

Lemma channel_run : run_job J_dma_channel_clock (channel_of n ch) = dma_channel_clock n ch.
Proof.
  rewrite run_channel. unfold on_channel, channel_of, DMA_NUM_CHANNELS in *.
  replace ((n * 31 + ch) / 31) with n by (Z.to_euclidean_division_equations; lia).
  replace ((n * 31 + ch) mod 31) with ch by (Z.to_euclidean_division_equations; lia). done.
Qed.

(** A cycle in which the channel's job is due. *)
Lemma elapse_run s fr p t :
  job_queue s = [job 1; guard p t] -> free_jobs s = fr -> 1 <= t < 2 ^ 31 ->
  elapse run_job (S fuel) 1 s =
    bind (dma_channel_clock n ch) (fun _ => q ← gets job_queue;
      match q with [] => stop_with Null_deref | h :: _ => if time h <=? 0 then do_scheduler fuel run_job else ret tt end)
      (set_queue [guard p t] (job 0 :: fr) s).
Proof.
  intros Hq Hf Ht. unfold elapse. unfold bind at 1, gets at 1. rewrite Hq. unfold bind at 1, gets at 1. rewrite Hf.
  unfold bind at 1, modify at 1. cbn [head_plus job guard time param func].
  change (s32 (1 - 1) <=? 0) with true. cbv iota. cbn [do_scheduler].
  unfold bind at 1, gets at 1. cbn [job_queue set_queue]. unfold bind at 1, gets at 1. cbn [free_jobs set_queue].
  unfold bind at 1, modify at 1. cbn [head_plus guard time param func].
  change (s32 (1 + - (1))) with 0. rewrite Z.add_0_r, (s32_small t) by lia.
  change (SchedEntry 0 (channel_of n ch) J_dma_channel_clock) with (job 0).
  change (SchedEntry t p J_sched_guard) with (guard p t). by rewrite channel_run.
Qed.

Lemma again_run s fr p t :
  job_queue s = [guard p t] -> free_jobs s = job 0 :: fr -> 1 <= t < 2 ^ 31 ->
  sched_add J_dma_channel_clock (channel_of n ch) 1 s = Ok tt (set_queue [job 1; guard p (t - 1)] fr s).
Proof.
  intros Hq Hf Ht. unfold sched_add, bind, gets, modify. rewrite Hq. cbn [sched_walk guard time].
  rewrite (proj2 (Z.ltb_ge t 1)) by lia. rewrite Hf. cbn [head_plus app time param func].
  change (0 <=? 1) with true. cbv iota. cbn [guard time param func]. rewrite s32_small by lia. done.
Qed.

Section Cycles.
Context (s0 : Sim) (fr : list sched_entry) (p t : Z).
Hypothesis Hty : typed s0.
Hypothesis Hok : ram_ok s0.
Hypothesis Hsi : simple s0.
Hypothesis Hidle : flag_of s0 DMA_CH_CSR_BUSY_OFFSET = false.
Hypothesis Htot : 1 <= tot_sz s0.
Hypothesis Hqueue : job_queue s0 = [job 1; guard p t].
Hypothesis Hfree : free_jobs s0 = fr.
Hypothesis Ht : tot_sz s0 <= t < 2 ^ 31.
Hypothesis Hwords : forall k, Z.of_nat k < tot_sz s0 -> dma_ram s0 (src_at s0 k) /\ dma_ram s0 (dst_at s0 k).

(** Before the [k]-th word. *)
Record before (k : nat) (s : Sim) : Prop := {
  b_queue : job_queue s = [job 1; guard p (t - Z.of_nat k)]; b_free : free_jobs s = fr;
  b_state : (k = 0%nat /\ s = s0) \/ ((0 < k)%nat /\ midway s0 k s) }.

(** The first cycle of the channel, or a later one. *)
Lemma before_start k s q f :
  before k s -> exists s1, midway s0 k s1 /\ simple (set_queue q f s) /\ same_queue (set_queue q f s) s1 /\
    (if flag_of (set_queue q f s) DMA_CH_CSR_BUSY_OFFSET then ret false else dma_start n ch) (set_queue q f s) = Ok false s1.
Proof.
  intros [_ _ [[-> ->]|[Hk Hm]]].
  - change (flag_of (set_queue q f s0) ?o) with (flag_of s0 o). rewrite Hidle.
    destruct (start_midway (set_queue q f s0)) as (s1 & E & Hm & Hsame); [done | by apply ram_ok_queue | done | done |].
    exists s1. split_and!; [|done|apply Hsame..|exact E]. destruct Hm. split; try done.
    intros x Hx. apply (w_mem0 x). by apply (lists_is_ram s0).
  - exists (set_queue q f s). change (flag_of (set_queue q f s) ?o) with (flag_of s o). rewrite (w_busy _ _ _ Hm).
    split_and!; try done; [by apply midway_queue | apply Hm].
Qed.

Lemma cycle_run k s :
  before k s -> Z.of_nat k < tot_sz s0 ->
  exists s', elapse run_job (S fuel) 1 s = Ok tt s' /\
    (Z.of_nat (S k) < tot_sz s0 -> before (S k) s') /\
    (Z.of_nat (S k) = tot_sz s0 -> finished s0 s' /\ job_queue s' = [guard p (t - Z.of_nat k)]).
Proof.
  intros Hb Hk. rewrite (elapse_run s fr p (t - Z.of_nat k)) by (apply Hb || lia).
  destruct (before_start k s [guard p (t - Z.of_nat k)] (job 0 :: fr) Hb) as (s1 & Hm1 & Hs1 & Hsame & E1).
  destruct (clock_run s0 k _ s1 Hok Hs1 Hm1 Hsame E1 Hk) as (s2 & Hm2 & [Q2 F2] & E2); [by apply Hwords..|].
  cbn [job_queue free_jobs set_queue] in Q2, F2. unfold bind at 1. rewrite E2.
  destruct (Z.leb_spec (tot_sz s0) (Z.of_nat (S k))) as [Hle|Hlt].
  - assert (Ek : S k = Z.to_nat (tot_sz s0)) by lia. rewrite Ek in Hm2.
    destruct (terminate_run s0 s2 Hm2) as (s3 & E3 & Hf & [Q3 F3]). rewrite E3.
    unfold bind, gets. rewrite Q3, Q2. cbn [guard time]. rewrite (proj2 (Z.leb_gt _ 0)) by lia.
    exists s3. split; [done|]. split; [lia|]. intros _. split; [done|]. by rewrite Q3.
  - rewrite (again_run s2 fr p (t - Z.of_nat k)) by (done || lia). unfold bind, gets. cbn [job_queue set_queue job time].
    change (1 <=? 0) with false. cbv iota. eexists. split; [reflexivity|]. split; [|lia]. intros _. split.
    + cbn [job_queue set_queue]. by replace (t - Z.of_nat (S k)) with (t - Z.of_nat k - 1) by lia.
    + done.
    + right. split; [lia | by apply midway_queue].
Qed.

Lemma cycles_run k : Z.of_nat k < tot_sz s0 -> exists s, cycles k s0 = Ok tt s /\ before k s.
Proof.
  induction k as [|k IH]; intros Hk.
  - exists s0. split; [done|]. split; [by rewrite Z.sub_0_r | done | auto].
  - destruct IH as (s & E & Hb); [lia|]. destruct (cycle_run k s Hb) as (s' & E' & Hn & _); [lia|].
    exists s'. split; [|by apply Hn]. cbn [cycles]. by rewrite (bind_eq _ _ _ _ _ E).
Qed.
End Cycles.
End Transfer.

(** C31: A transfer that software starts runs to its end.  With the channel's job
    on the scheduler's queue before the guard, source and destination in RAM, and
    neither linked descriptors, handshakes, auto-restart nor an interrupt asked
    for, the channel is busy with [k] words copied after [k] cycles, for each [k]
    from one to the number of words; after as many cycles as there are words it is
    done, disabled and off the queue, and RAM is what copying the words one after
    the other makes of it, overlaps included.  It is one word a cycle for every
    chunk size (CHK_SZ): the comment above [dma_channel_clock] says that a cycle
    transfers a chunk, but the function has no loop over one. *)
Theorem dma_transfer_completes n ch `{Devices} run_job fuel p t (s : Sim) :
  (forall p, run_job J_dma_channel_clock p = on_channel dma_channel_clock p) -> 0 <= ch < DMA_NUM_CHANNELS ->
  typed s -> ram_ok s -> simple n ch s -> flag_of n ch s DMA_CH_CSR_BUSY_OFFSET = false -> 1 <= tot_sz n ch s ->
  job_queue s = [job n ch 1; guard p t] -> tot_sz n ch s <= t < 2 ^ 31 ->
  (forall k, Z.of_nat k < tot_sz n ch s -> dma_ram s (src_at n ch s k) /\ dma_ram s (dst_at n ch s k)) ->
  (forall k, 0 < Z.of_nat k < tot_sz n ch s -> exists s', cycles run_job fuel k s = Ok tt s' /\ midway n ch s k s') /\
  exists s', cycles run_job fuel (Z.to_nat (tot_sz n ch s)) s = Ok tt s' /\ finished n ch s s' /\
    job_queue s' = [guard p (t - (tot_sz n ch s - 1))].
Proof.
  intros Hrun Hch Hty Hok Hsi Hidle Htot Hq Ht Hw.
  pose proof (cycles_run n ch run_job fuel Hrun Hch s (free_jobs s) p t Hty Hok Hsi Hidle Htot Hq eq_refl Ht Hw) as Hall.
  split.
  - intros k Hk. destruct (Hall k) as (s' & E & [_ _ [[-> _]|[_ Hm]]]); [lia | cbn in Hk; lia | by exists s'].
  - set (m := Z.to_nat (tot_sz n ch s - 1)). destruct (Hall m) as (s1 & E & Hb); [lia|].
    destruct (cycle_run n ch run_job fuel Hrun Hch s (free_jobs s) p t Hty Hok Hsi Hidle Htot Ht Hw m s1 Hb)
      as (s' & E' & _ & Hf); [lia|].
    destruct Hf as [Hf Hq']; [lia|]. exists s'. split; [|split; [exact Hf|]].
    + replace (Z.to_nat (tot_sz n ch s)) with (S m) by lia. cbn [cycles]. by rewrite (bind_eq _ _ _ _ _ E).
    + by replace (tot_sz n ch s - 1) with (Z.of_nat m) by lia.
Qed.
(** Two words of the RAM of [ex_dc], from 0x40 to 0x80, by channel 3. *)
Definition ex_channel (s : Sim) : Sim :=
  upd (Dma_ch 0 3 Ch_sz) 2 (upd (Dma_ch 0 3 Ch_csr) 0x19
    (upd (Dma_ch 0 3 Ch_a0) 0x40 (upd (Dma_ch 0 3 Ch_am0) 0xFFFFFFFC
      (upd (Dma_ch 0 3 Ch_a1) 0x80 (upd (Dma_ch 0 3 Ch_am1) 0xFFFFFFFC s))))).
Definition ex_dma : Sim := set_queue [job 0 3 1; guard 0 100] [] (ex_channel ex_dc).
Lemma ex_channel_typed s : typed s -> typed (ex_channel s).
Proof. intros Hs. do 6 apply upd_typed. exact Hs. Qed.
Lemma ex_channel_ram s : ram_ok s -> ram_ok (ex_channel s).
Proof. intros Hs. apply (mem_rest_ok s); [exact Hs|]. do 6 (apply mem_rest_upd; [done|]). by apply mem_rest_refl. Qed.
Lemma typed_queue q f s : typed s -> typed (set_queue q f s).
Proof. exact id. Qed.
Lemma ex_channel_lists q f s : dev_list (set_queue q f (ex_channel s)) = dev_list s /\ blocks (set_queue q f (ex_channel s)) = blocks s.
Proof. done. Qed.
Lemma ex_dma_lists : dev_list ex_dma = dev_list ex_dc /\ blocks ex_dma = blocks ex_dc.
Proof. exact (ex_channel_lists _ _ ex_dc). Qed.
Definition ex_run (f : job_fn) (p : Z) : M unit :=
  match f with J_dma_channel_clock => on_channel (dma_channel_clock (H := no_devices)) p | _ => stop_with Undefined end.

Lemma ex_dma_word a : 0 <= a < 0x100000 -> a mod 4 = 0 -> dma_ram ex_dma a.
Proof.
  intros Ha Hm. apply (dma_ram_lists ex_dc _ a (proj1 ex_dma_lists) (proj2 ex_dma_lists)). split; [done|].
  eexists 0%nat, _, 0. split; [|split_and!; [..|]]; [unfold in_ram; rewrite ex_dc_areas; split_and!; [reflexivity | |]|..].
  - unfold in_area. vm_compute (addr_compare _). vm_compute (area_size _). lia.
  - split; try (vm_compute; reflexivity); [vm_compute; discriminate|].
    exists 0x100000. split; [split; vm_compute; reflexivity | vm_compute; discriminate].
  - vm_compute. reflexivity.
  - vm_compute. reflexivity.
  - vm_compute. reflexivity.
Qed.
Lemma ex_dma_addrs k : Z.of_nat k < 2 -> src_at 0 3 ex_dma k = 0x40 + 4 * Z.of_nat k /\ dst_at 0 3 ex_dma k = 0x80 + 4 * Z.of_nat k.
Proof. intros Hk. assert (k = 0%nat \/ k = 1%nat) as [-> | ->] by lia; vm_compute; done. Qed.

Lemma dma_transfer_completes_witness : exists s', cycles ex_run 0 2 ex_dma = Ok tt s' /\
  job_queue s' = [guard 0 99] /\ flag_of 0 3 s' DMA_CH_CSR_DONE_OFFSET = true /\ ram_byte s' 0x83 = 0x44.
Proof.
  destruct (dma_transfer_completes 0 3 (H := no_devices) ex_run 0 0 100 ex_dma) as [_ (s' & E & Hf & Hq)].
  - reflexivity.
  - vm_compute. split; congruence.
  - exact (typed_queue _ _ _ (ex_channel_typed _ ex_dc_typed)).
  - exact (ram_ok_queue _ _ _ (ex_channel_ram _ ex_dc_ram)).
  - repeat constructor; vm_compute; reflexivity.
  - vm_compute. reflexivity.
  - vm_compute. congruence.
  - reflexivity.
  - vm_compute. split; congruence.
  - intros k Hk. change (tot_sz 0 3 ex_dma) with 2 in Hk. destruct (ex_dma_addrs k Hk) as [-> ->].
    split; apply ex_dma_word; try lia; Z.to_euclidean_division_equations; lia.
  - exists s'. split; [exact E|]. split; [exact Hq|]. split; [apply Hf|].
    rewrite (f_mem _ _ _ _ Hf); [vm_compute; reflexivity|].
    apply (lists_is_ram ex_dc _ _ (proj1 ex_dma_lists) (proj2 ex_dma_lists)), ex_dc_is_ram. lia.
Defined.
End DmaCopy.
