(* ===== verification/Bus.v ===== *)
(** * The peripherals on the bus

    The implementation of the interface [Devices] by the peripherals that are
    modelled, and what the loads and stores of the memory areas they register
    do: the composition of cpu/common/abstract.c with the files of
    peripheral/. *)

From S2P Require Export Gpio Mc Uart Dma.

Module Bus.
Import Sched Except Pic Mem Ram Mmu Dcache Abstract Gpio Mc Uart Dma.

(** The functions behind the function pointers; those of the other peripherals
    are the ones of [D]. *)
Definition bus_read (D : Devices) (d : device) (width addr : Z) : M Z :=
  match d with
  | D_gpio n => Gpio.gpio_read32 addr n
  | D_mc n => Mc.mc_read_word addr n
  | D_dma n => Dma.dma_read32 addr n
  | D_uart n => Uart.uart_read_byte addr n
  | D_other n => dev_read (D_other n) width addr
  end.
Definition bus_write (D : Devices) (d : device) (width addr value : Z) : M unit :=
  match d with
  | D_gpio n => Gpio.gpio_write32 addr value n
  | D_mc n => Mc.mc_write_word addr value n
  | D_dma n => Dma.dma_write32 addr value n
  | D_uart n => Uart.uart_write_byte addr value n
  | D_other n => dev_write (D_other n) width addr value
  end.
(** The functions that [reg_sim_reset] registers. *)
Definition bus_reset (D : Devices) (d : device) : M unit :=
  match d with
  | D_gpio n => Gpio.gpio_reset n
  | D_mc n => Mc.mc_reset n
  | D_dma n => Dma.dma_reset n
  | D_uart n => Uart.uart_reset n
  | D_other n => dev_reset (D_other n)
  end.

Definition bus (D : Devices) : Devices.
Proof.
  refine (Build_Devices (bus_read D) (bus_write D) (bus_reset D) Mc.mc_reg_mem_area _ _ _ _); intros R HR *.
  - unfold bus_read. destruct d; apply _.
  - unfold bus_write. destruct d; apply _.
  - unfold bus_reset. destruct d; apply _.
Defined.

(** ** The areas of the peripherals *)

Definition device_ops (d : device) : mem_ops :=
  match d with
  | D_gpio n => Gpio.gpio_ops n | D_mc n => Mc.mc_ops n | D_dma n => Dma.dma_ops n | D_uart n => Uart.uart_ops n
  | D_other _ => empty_ops
  end.
Definition device_space (d : device) : Z :=
  match d with
  | D_gpio _ => Gpio.GPIO_ADDR_SPACE | D_mc _ => Mc.MC_ADDR_SPACE | D_dma _ => Dma.DMA_ADDR_SPACE
  | D_uart _ => Uart.UART_ADDR_SPACE | D_other _ => 1
  end.
(** The widths that have a function: bytes for the serial port, words for the
    others. *)
Definition serves (d : device) (w : Z) : bool :=
  match d with D_uart _ => w =? 1 | D_other _ => false | _ => w =? 4 end.
Definition cut_to (w v : Z) : Z := if w =? 4 then u32 v else if w =? 2 then u16 v else u8 v.

(** What a load and a store of the width [w] at the offset [off] of the device
    [d] do. *)
Definition device_load (D : Devices) (d : device) (w off : Z) : M Z :=
  if serves d w then v ← bus_read D d w off; ret (cut_to w v) else eval_mem_inv.
Definition device_store (D : Devices) (d : device) (w off v : Z) : M unit :=
  if serves d w then bus_write D d w off (cut_to w v) else set_mem_inv.

Section Access.
Context (D : Devices) (d : device) (s : Sim) (addr va base : Z) (i : nat).
Let ar := new_area base (device_space d) (device_ops d).
Context (Hok : areas_ok s) (Hv : Forall (fun a => nz (valid a) = true) (dev_list s)).
Context (Hi : dev_list s !! i = Some ar) (Hin : in_area addr ar).
Context (Hd : match d with D_other _ => False | _ => True end).

Lemma device_find : verify_memoryarea addr s = Ok (Some i) (set_cur_area (Some i) s) /\
  Z.land addr (size_mask ar) = addr - addr_compare ar.
Proof.
  pose proof Hok as (Hwf & _). pose proof (Forall_lookup_1 _ _ _ _ Hwf Hi) as Ha.
  pose proof (area_range ar addr Ha Hin) as Hr. split; [|by apply area_offset].
  rewrite verify_run by assumption. rewrite (find_area_unique addr s i ar); try done. by apply area_hit_spec.
Qed.

Lemma evalsim_device w : w = 1 \/ w = 2 \/ w = 4 ->
  evalsim_mem (H := bus D) w addr va s =
  device_load D d w (addr - addr_compare ar) (upd Mem_cycles (s Mem_cycles + 2) (set_cur_area (Some i) s)).
Proof.
  intros Hw. destruct device_find as [E Eo].
  destruct Hw as [->|[->| ->]]; cbn [evalsim_mem Z.eqb Pos.eqb];
    [unfold evalsim_mem8 | unfold evalsim_mem16 | unfold evalsim_mem32];
    unfold bind at 1; rewrite E; unfold area_at, bind at 1, bind at 1, gets, ret;
    cbn [dev_list set_cur_area]; rewrite Hi, Eo; by destruct d.
Qed.
Lemma setsim_device w v : w = 1 \/ w = 2 \/ w = 4 ->
  setsim_mem (H := bus D) addr va v w s =
  device_store D d w (addr - addr_compare ar) v
    (upd Mem_cycles (s Mem_cycles + 2) (upd Cur_vadd va (set_cur_area (Some i) s))).
Proof.
  intros Hw. destruct device_find as [E Eo].
  destruct Hw as [->|[->| ->]]; cbn [setsim_mem Z.eqb Pos.eqb];
    [unfold setsim_mem8 | unfold setsim_mem16 | unfold setsim_mem32];
    unfold bind at 1; rewrite E; unfold area_at, bind at 1, bind at 1, gets, ret;
    cbn [dev_list set_cur_area]; rewrite Hi, Eo; by destruct d.
Qed.
End Access.
(** ** Configuration *)

Definition device_sec_end (d : device) : M unit :=
  match d with
  | D_gpio n => Gpio.gpio_sec_end n | D_mc n => Mc.mc_sec_end n | D_dma n => Dma.dma_sec_end n
  | D_uart n => Uart.uart_sec_end n
  | D_other _ => ret tt
  end.
Definition device_enabled (d : device) : cell :=
  match d with
  | D_gpio n => Gpio n Gp_enabled | D_mc n => Mc n Mc_enabled | D_dma n => Dma n Dm_enabled
  | D_uart n => Uart n Ua_enabled | D_other n => Uart n Ua_enabled
  end.
Definition device_base (d : device) : cell :=
  match d with
  | D_gpio n => Gpio n Gp_baseaddr | D_mc n => Mc n Mc_baseaddr | D_dma n => Dma n Dm_baseaddr
  | D_uart n => Uart n Ua_baseaddr | D_other n => Uart n Ua_baseaddr
  end.
(** The area of a device, at its configured address. *)
Definition device_area (d : device) (s : Sim) : dev_memarea := new_area (s (device_base d)) (device_space d) (device_ops d).

(** C32: A peripheral whose configuration section ends is on the bus.  The
    simulator exits when its address range overlaps another; otherwise the list
    of areas stays in order, the peripheral's reset function is registered, and
    for every address of its area a load or store of the width the peripheral
    serves calls its read or write function with the offset and the value cut to
    the width, while one of another width calls the function that raises a bus
    error: for the GPIO, the memory controller, the first DMA controller and the
    serial port. *)
Theorem device_on_bus (D : Devices) d (s : Sim) :
  match d with D_other _ => False | D_dma _ => s Dmas = 0 | _ => True end ->
  areas_ok s -> Forall (fun a => nz (valid a) = true) (dev_list s) ->
  s (device_enabled d) = 1 -> 0 <= s (device_base d) < 2 ^ 32 ->
  addr_compare (device_area d s) + area_size (device_area d s) < 2 ^ 32 ->
  device_sec_end d s = Stop Exited s \/
  exists s1, device_sec_end d s = Ok tt s1 /\ areas_ok s1 /\ reset_hooks s1 = R_device d :: reset_hooks s /\
    dev_list s1 = dev_list s ++ [device_area d s] /\ in_area (s (device_base d)) (device_area d s) /\
    forall w addr va v, w = 1 \/ w = 2 \/ w = 4 -> in_area addr (device_area d s) ->
      let off := addr - addr_compare (device_area d s) in
      let found := set_cur_area (Some (length (dev_list s))) s1 in
      evalsim_mem (H := bus D) w addr va s1 =
        device_load D d w off (upd Mem_cycles (s1 Mem_cycles + 2) found) /\
      setsim_mem (H := bus D) addr va v w s1 =
        device_store D d w off v (upd Mem_cycles (s1 Mem_cycles + 2) (upd Cur_vadd va found)).
Proof.
  intros Hd Hok Hv He Hb Hend.
  destruct (reg_mem_area_disjoint (s (device_base d)) (device_space d)
    (match d with D_mc _ => true | _ => false end) (device_ops d) s Hok) as [[E _]|(s0 & E & Hl & Hok0 & Hin)]; try done.
  { by destruct d; vm_compute. }
  - left. destruct d; try done; clear Hend; cbn [device_sec_end device_enabled device_base device_space device_ops] in He, E |- *;
      [unfold Gpio.gpio_sec_end | unfold Mc.mc_sec_end | unfold Dma.dma_sec_end | unfold Uart.uart_sec_end];
      unfold isset, bind, rd, ret; cbv beta iota; rewrite He; change (nz 1) with true; cbn [negb]; by rewrite E.
  - right. pose proof E as E'. rewrite reg_mem_area_run in E' by first [exact Hb | by destruct d; vm_compute].
    assert (H0 : s0 Dmas = s Dmas /\ reset_hooks s0 = reset_hooks s).
    { destruct (existsb _ _) in E'; [discriminate E'|]. injection E' as <-. destruct d; split; reflexivity. }
    destruct H0 as [Hdm Hh]. clear E'.
    assert (Hrun : exists s1, device_sec_end d s = Ok tt s1 /\ dev_list s1 = dev_list s0 /\ mc_area s1 = mc_area s0 /\
      cur_area s1 = cur_area s0 /\ reset_hooks s1 = R_device d :: reset_hooks s).
    { rewrite <- Hh. clear Hh Hin Hl Hok0 Hend Hv Hok Hb.
      destruct d; try done; cbn [device_sec_end device_enabled device_base device_space device_ops] in He, E |- *;
        [unfold Gpio.gpio_sec_end | unfold Mc.mc_sec_end | unfold Dma.dma_sec_end | unfold Uart.uart_sec_end];
        unfold isset, bind, rd, ret; cbv beta iota; rewrite He; change (nz 1) with true; cbn [negb]; rewrite E;
        unfold gets, modify, wr; [| |cbn [glob set_hooks]; rewrite Hdm, Hd; change (nz 0) with false|];
        (eexists; split; [reflexivity|]; repeat split; reflexivity). }
    destruct Hrun as (s1 & Er & L1 & L2 & L3 & L4). exists s1.
    assert (Hok1 : areas_ok s1) by (unfold areas_ok in *; by rewrite L1, L2, L3).
    split_and!; try done; [by rewrite L1|]. intros w addr va v Hw Hin' off found.
    assert (Hv1 : Forall (fun a => nz (valid a) = true) (dev_list s1)).
    { rewrite L1, Hl. apply Forall_app_2; [done|]. by repeat constructor. }
    assert (Hi1 : dev_list s1 !! length (dev_list s) = Some (device_area d s)).
    { rewrite L1, Hl, lookup_app_r, Nat.sub_diag by lia. done. }
    assert (Hd' : match d with D_other _ => False | _ => True end) by by destruct d.
    split; [by apply (evalsim_device D d s1 addr va (s (device_base d))) |
            by apply (setsim_device D d s1 addr va (s (device_base d)))].
Qed.
(** A serial port at 0x90000000: a store of a byte to its first register is a
    character to send, and a word there is a bus error. *)
Definition ex_bus : Sim := upd (Uart 0 Ua_enabled) 1 (upd (Uart 0 Ua_baseaddr) 0x90000000 zero_state).
Lemma device_on_bus_witness : exists s1,
  device_sec_end (D_uart 0) ex_bus = Ok tt s1 /\
  (forall v, setsim_mem (H := bus no_devices) 0x90000000 0x90000000 v 1 s1 =
     uart_write_byte 0 (u8 v) 0 (upd Mem_cycles (s1 Mem_cycles + 2)
       (upd Cur_vadd 0x90000000 (set_cur_area (Some 0%nat) s1)))).
Proof.
  destruct (device_on_bus no_devices (D_uart 0) ex_bus) as [E|(s1 & E & _ & _ & _ & _ & Hacc)].
  - exact I.
  - split_and!; [constructor | intros i j a b addr Hi; discriminate Hi | intros i Hi; discriminate Hi..].
  - constructor.
  - vm_compute. reflexivity.
  - vm_compute. split; congruence.
  - vm_compute. reflexivity.
  - vm_compute in E. discriminate E.
  - exists s1. split; [exact E|]. intros v.
    refine (proj2 (Hacc 1 0x90000000 0x90000000 v ltac:(auto) _)). unfold in_area. vm_compute (addr_compare _).
    vm_compute (area_size _). lia.
Defined.
End Bus.
