(* ===== verification/OpTable.v ===== *)
(** * The opcode table

    [or1ksim_or32_opcodes] of cpu/or32/or32.c, row by row, with the types of
    cpu/or1k/opcode/or32.h.  The build is the default one of configure.ac:
    the generated ("complex") execution engine, where a row names the function
    of insnset.c that executes it ([EF (f)] is the string "f", [EFI] is
    "l_invalid", [EFN] is "l_none"), and [HAVE_UNSIGNED_XORI] and [HAS_CUST]
    unset. *)

From S2P Require Export Prelude.
From Stdlib Require Export Ascii.
From stdpp Require Export strings gmap.

#[global] Open Scope Z_scope.

Definition OR32_IF_DELAY := 1.
Definition OR32_W_FLAG := 2.
Definition OR32_R_FLAG := 4.

Inductive insn_type :=
| it_unknown | it_exception | it_arith | it_shift | it_compare | it_branch | it_jump
| it_load | it_store | it_movimm | it_move | it_extend | it_nop | it_mac | it_float.

#[export] Instance insn_type_eq_dec : EqDecision insn_type.
Proof. solve_decision. Defined.

Record or32_opcode := Or32Opcode {
  name : string;
  args : string;
  encoding : string;
  function_name : string;
  flags : Z;
  func_unit : insn_type }.

#[local] Open Scope string_scope.
#[local] Open Scope Z_scope.

Definition opcodes_control : list or32_opcode := [
  Or32Opcode "l.j" "N" "00 0x0  NNNNN NNNNN NNNN NNNN NNNN NNNN" "l_j" OR32_IF_DELAY it_jump;
  Or32Opcode "l.jal" "N" "00 0x1  NNNNN NNNNN NNNN NNNN NNNN NNNN" "l_jal" OR32_IF_DELAY it_jump;
  Or32Opcode "l.bnf" "N" "00 0x3  NNNNN NNNNN NNNN NNNN NNNN NNNN" "l_bnf" (Z.lor OR32_IF_DELAY OR32_R_FLAG) it_branch;
  Or32Opcode "l.bf" "N" "00 0x4  NNNNN NNNNN NNNN NNNN NNNN NNNN" "l_bf" (Z.lor OR32_IF_DELAY OR32_R_FLAG) it_branch;
  Or32Opcode "l.nop" "K" "00 0x5  01--- ----- KKKK KKKK KKKK KKKK" "l_nop" 0 it_nop;
  Or32Opcode "l.movhi" "rD,K" "00 0x6  DDDDD ----0 KKKK KKKK KKKK KKKK" "l_movhi" 0 it_movimm;
  Or32Opcode "l.macrc" "rD" "00 0x6  DDDDD ----1 0000 0000 0000 0000" "l_macrc" 0 it_mac;
  Or32Opcode "l.sys" "K" "00 0x8  00000 00000 KKKK KKKK KKKK KKKK" "l_sys" 0 it_exception;
  Or32Opcode "l.trap" "K" "00 0x8  01000 00000 KKKK KKKK KKKK KKKK" "l_trap" 0 it_exception;
  Or32Opcode "l.msync" EmptyString "00 0x8  10000 00000 0000 0000 0000 0000" "l_none" 0 it_unknown;
  Or32Opcode "l.psync" EmptyString "00 0x8  10100 00000 0000 0000 0000 0000" "l_none" 0 it_unknown;
  Or32Opcode "l.csync" EmptyString "00 0x8  11000 00000 0000 0000 0000 0000" "l_none" 0 it_unknown;
  Or32Opcode "l.rfe" EmptyString "00 0x9  ----- ----- ---- ---- ---- ----" "l_rfe" 0 it_exception].

Definition opcodes_vector_cmp : list or32_opcode := [
  Or32Opcode "lv.all_eq.b" "rD,rA,rB" "00 0xA  DDDDD AAAAA BBBB B--- 0x1 0x0" "l_invalid" 0 it_unknown;
  Or32Opcode "lv.all_eq.h" "rD,rA,rB" "00 0xA  DDDDD AAAAA BBBB B--- 0x1 0x1" "l_invalid" 0 it_unknown;
  Or32Opcode "lv.all_ge.b" "rD,rA,rB" "00 0xA  DDDDD AAAAA BBBB B--- 0x1 0x2" "l_invalid" 0 it_unknown;
  Or32Opcode "lv.all_ge.h" "rD,rA,rB" "00 0xA  DDDDD AAAAA BBBB B--- 0x1 0x3" "l_invalid" 0 it_unknown;
  Or32Opcode "lv.all_gt.b" "rD,rA,rB" "00 0xA  DDDDD AAAAA BBBB B--- 0x1 0x4" "l_invalid" 0 it_unknown;
  Or32Opcode "lv.all_gt.h" "rD,rA,rB" "00 0xA  DDDDD AAAAA BBBB B--- 0x1 0x5" "l_invalid" 0 it_unknown;
  Or32Opcode "lv.all_le.b" "rD,rA,rB" "00 0xA  DDDDD AAAAA BBBB B--- 0x1 0x6" "l_invalid" 0 it_unknown;
  Or32Opcode "lv.all_le.h" "rD,rA,rB" "00 0xA  DDDDD AAAAA BBBB B--- 0x1 0x7" "l_invalid" 0 it_unknown;
  Or32Opcode "lv.all_lt.b" "rD,rA,rB" "00 0xA  DDDDD AAAAA BBBB B--- 0x1 0x8" "l_invalid" 0 it_unknown;
  Or32Opcode "lv.all_lt.h" "rD,rA,rB" "00 0xA  DDDDD AAAAA BBBB B--- 0x1 0x9" "l_invalid" 0 it_unknown;
  Or32Opcode "lv.all_ne.b" "rD,rA,rB" "00 0xA  DDDDD AAAAA BBBB B--- 0x1 0xA" "l_invalid" 0 it_unknown;
  Or32Opcode "lv.all_ne.h" "rD,rA,rB" "00 0xA  DDDDD AAAAA BBBB B--- 0x1 0xB" "l_invalid" 0 it_unknown;
  Or32Opcode "lv.any_eq.b" "rD,rA,rB" "00 0xA  DDDDD AAAAA BBBB B--- 0x2 0x0" "l_invalid" 0 it_unknown;
  Or32Opcode "lv.any_eq.h" "rD,rA,rB" "00 0xA  DDDDD AAAAA BBBB B--- 0x2 0x1" "l_invalid" 0 it_unknown;
  Or32Opcode "lv.any_ge.b" "rD,rA,rB" "00 0xA  DDDDD AAAAA BBBB B--- 0x2 0x2" "l_invalid" 0 it_unknown;
  Or32Opcode "lv.any_ge.h" "rD,rA,rB" "00 0xA  DDDDD AAAAA BBBB B--- 0x2 0x3" "l_invalid" 0 it_unknown;
  Or32Opcode "lv.any_gt.b" "rD,rA,rB" "00 0xA  DDDDD AAAAA BBBB B--- 0x2 0x4" "l_invalid" 0 it_unknown;
  Or32Opcode "lv.any_gt.h" "rD,rA,rB" "00 0xA  DDDDD AAAAA BBBB B--- 0x2 0x5" "l_invalid" 0 it_unknown;
  Or32Opcode "lv.any_le.b" "rD,rA,rB" "00 0xA  DDDDD AAAAA BBBB B--- 0x2 0x6" "l_invalid" 0 it_unknown;
  Or32Opcode "lv.any_le.h" "rD,rA,rB" "00 0xA  DDDDD AAAAA BBBB B--- 0x2 0x7" "l_invalid" 0 it_unknown;
  Or32Opcode "lv.any_lt.b" "rD,rA,rB" "00 0xA  DDDDD AAAAA BBBB B--- 0x2 0x8" "l_invalid" 0 it_unknown;
  Or32Opcode "lv.any_lt.h" "rD,rA,rB" "00 0xA  DDDDD AAAAA BBBB B--- 0x2 0x9" "l_invalid" 0 it_unknown;
  Or32Opcode "lv.any_ne.b" "rD,rA,rB" "00 0xA  DDDDD AAAAA BBBB B--- 0x2 0xA" "l_invalid" 0 it_unknown;
  Or32Opcode "lv.any_ne.h" "rD,rA,rB" "00 0xA  DDDDD AAAAA BBBB B--- 0x2 0xB" "l_invalid" 0 it_unknown].

Definition opcodes_vector_arith : list or32_opcode := [
  Or32Opcode "lv.add.b" "rD,rA,rB" "00 0xA  DDDDD AAAAA BBBB B--- 0x3 0x0" "l_invalid" 0 it_unknown;
  Or32Opcode "lv.add.h" "rD,rA,rB" "00 0xA  DDDDD AAAAA BBBB B--- 0x3 0x1" "l_invalid" 0 it_unknown;
  Or32Opcode "lv.adds.b" "rD,rA,rB" "00 0xA  DDDDD AAAAA BBBB B--- 0x3 0x2" "l_invalid" 0 it_unknown;
  Or32Opcode "lv.adds.h" "rD,rA,rB" "00 0xA  DDDDD AAAAA BBBB B--- 0x3 0x3" "l_invalid" 0 it_unknown;
  Or32Opcode "lv.addu.b" "rD,rA,rB" "00 0xA  DDDDD AAAAA BBBB B--- 0x3 0x4" "l_invalid" 0 it_unknown;
  Or32Opcode "lv.addu.h" "rD,rA,rB" "00 0xA  DDDDD AAAAA BBBB B--- 0x3 0x5" "l_invalid" 0 it_unknown;
  Or32Opcode "lv.addus.b" "rD,rA,rB" "00 0xA  DDDDD AAAAA BBBB B--- 0x3 0x6" "l_invalid" 0 it_unknown;
  Or32Opcode "lv.addus.h" "rD,rA,rB" "00 0xA  DDDDD AAAAA BBBB B--- 0x3 0x7" "l_invalid" 0 it_unknown;
  Or32Opcode "lv.and" "rD,rA,rB" "00 0xA  DDDDD AAAAA BBBB B--- 0x3 0x8" "l_invalid" 0 it_unknown;
  Or32Opcode "lv.avg.b" "rD,rA,rB" "00 0xA  DDDDD AAAAA BBBB B--- 0x3 0x9" "l_invalid" 0 it_unknown;
  Or32Opcode "lv.avg.h" "rD,rA,rB" "00 0xA  DDDDD AAAAA BBBB B--- 0x3 0xA" "l_invalid" 0 it_unknown;
  Or32Opcode "lv.cmp_eq.b" "rD,rA,rB" "00 0xA  DDDDD AAAAA BBBB B--- 0x4 0x0" "l_invalid" 0 it_unknown;
  Or32Opcode "lv.cmp_eq.h" "rD,rA,rB" "00 0xA  DDDDD AAAAA BBBB B--- 0x4 0x1" "l_invalid" 0 it_unknown;
  Or32Opcode "lv.cmp_ge.b" "rD,rA,rB" "00 0xA  DDDDD AAAAA BBBB B--- 0x4 0x2" "l_invalid" 0 it_unknown;
  Or32Opcode "lv.cmp_ge.h" "rD,rA,rB" "00 0xA  DDDDD AAAAA BBBB B--- 0x4 0x3" "l_invalid" 0 it_unknown;
  Or32Opcode "lv.cmp_gt.b" "rD,rA,rB" "00 0xA  DDDDD AAAAA BBBB B--- 0x4 0x4" "l_invalid" 0 it_unknown;
  Or32Opcode "lv.cmp_gt.h" "rD,rA,rB" "00 0xA  DDDDD AAAAA BBBB B--- 0x4 0x5" "l_invalid" 0 it_unknown;
  Or32Opcode "lv.cmp_le.b" "rD,rA,rB" "00 0xA  DDDDD AAAAA BBBB B--- 0x4 0x6" "l_invalid" 0 it_unknown;
  Or32Opcode "lv.cmp_le.h" "rD,rA,rB" "00 0xA  DDDDD AAAAA BBBB B--- 0x4 0x7" "l_invalid" 0 it_unknown;
  Or32Opcode "lv.cmp_lt.b" "rD,rA,rB" "00 0xA  DDDDD AAAAA BBBB B--- 0x4 0x8" "l_invalid" 0 it_unknown;
  Or32Opcode "lv.cmp_lt.h" "rD,rA,rB" "00 0xA  DDDDD AAAAA BBBB B--- 0x4 0x9" "l_invalid" 0 it_unknown;
  Or32Opcode "lv.cmp_ne.b" "rD,rA,rB" "00 0xA  DDDDD AAAAA BBBB B--- 0x4 0xA" "l_invalid" 0 it_unknown;
  Or32Opcode "lv.cmp_ne.h" "rD,rA,rB" "00 0xA  DDDDD AAAAA BBBB B--- 0x4 0xB" "l_invalid" 0 it_unknown;
  Or32Opcode "lv.madds.h" "rD,rA,rB" "00 0xA  DDDDD AAAAA BBBB B--- 0x5 0x4" "l_invalid" 0 it_unknown;
  Or32Opcode "lv.max.b" "rD,rA,rB" "00 0xA  DDDDD AAAAA BBBB B--- 0x5 0x5" "l_invalid" 0 it_unknown;
  Or32Opcode "lv.max.h" "rD,rA,rB" "00 0xA  DDDDD AAAAA BBBB B--- 0x5 0x6" "l_invalid" 0 it_unknown;
  Or32Opcode "lv.merge.b" "rD,rA,rB" "00 0xA  DDDDD AAAAA BBBB B--- 0x5 0x7" "l_invalid" 0 it_unknown;
  Or32Opcode "lv.merge.h" "rD,rA,rB" "00 0xA  DDDDD AAAAA BBBB B--- 0x5 0x8" "l_invalid" 0 it_unknown;
  Or32Opcode "lv.min.b" "rD,rA,rB" "00 0xA  DDDDD AAAAA BBBB B--- 0x5 0x9" "l_invalid" 0 it_unknown;
  Or32Opcode "lv.min.h" "rD,rA,rB" "00 0xA  DDDDD AAAAA BBBB B--- 0x5 0xA" "l_invalid" 0 it_unknown;
  Or32Opcode "lv.msubs.h" "rD,rA,rB" "00 0xA  DDDDD AAAAA BBBB B--- 0x5 0xB" "l_invalid" 0 it_unknown;
  Or32Opcode "lv.muls.h" "rD,rA,rB" "00 0xA  DDDDD AAAAA BBBB B--- 0x5 0xC" "l_invalid" 0 it_unknown;
  Or32Opcode "lv.nand" "rD,rA,rB" "00 0xA  DDDDD AAAAA BBBB B--- 0x5 0xD" "l_invalid" 0 it_unknown;
  Or32Opcode "lv.nor" "rD,rA,rB" "00 0xA  DDDDD AAAAA BBBB B--- 0x5 0xE" "l_invalid" 0 it_unknown;
  Or32Opcode "lv.or" "rD,rA,rB" "00 0xA  DDDDD AAAAA BBBB B--- 0x5 0xF" "l_invalid" 0 it_unknown].

Definition opcodes_vector_pack : list or32_opcode := [
  Or32Opcode "lv.pack.b" "rD,rA,rB" "00 0xA  DDDDD AAAAA BBBB B--- 0x6 0x0" "l_invalid" 0 it_unknown;
  Or32Opcode "lv.pack.h" "rD,rA,rB" "00 0xA  DDDDD AAAAA BBBB B--- 0x6 0x1" "l_invalid" 0 it_unknown;
  Or32Opcode "lv.packs.b" "rD,rA,rB" "00 0xA  DDDDD AAAAA BBBB B--- 0x6 0x2" "l_invalid" 0 it_unknown;
  Or32Opcode "lv.packs.h" "rD,rA,rB" "00 0xA  DDDDD AAAAA BBBB B--- 0x6 0x3" "l_invalid" 0 it_unknown;
  Or32Opcode "lv.packus.b" "rD,rA,rB" "00 0xA  DDDDD AAAAA BBBB B--- 0x6 0x4" "l_invalid" 0 it_unknown;
  Or32Opcode "lv.packus.h" "rD,rA,rB" "00 0xA  DDDDD AAAAA BBBB B--- 0x6 0x5" "l_invalid" 0 it_unknown;
  Or32Opcode "lv.perm.n" "rD,rA,rB" "00 0xA  DDDDD AAAAA BBBB B--- 0x6 0x6" "l_invalid" 0 it_unknown;
  Or32Opcode "lv.rl.b" "rD,rA,rB" "00 0xA  DDDDD AAAAA BBBB B--- 0x6 0x7" "l_invalid" 0 it_unknown;
  Or32Opcode "lv.rl.h" "rD,rA,rB" "00 0xA  DDDDD AAAAA BBBB B--- 0x6 0x8" "l_invalid" 0 it_unknown;
  Or32Opcode "lv.sll.b" "rD,rA,rB" "00 0xA  DDDDD AAAAA BBBB B--- 0x6 0x9" "l_invalid" 0 it_unknown;
  Or32Opcode "lv.sll.h" "rD,rA,rB" "00 0xA  DDDDD AAAAA BBBB B--- 0x6 0xA" "l_invalid" 0 it_unknown;
  Or32Opcode "lv.sll" "rD,rA,rB" "00 0xA  DDDDD AAAAA BBBB B--- 0x6 0xB" "l_invalid" 0 it_unknown;
  Or32Opcode "lv.srl.b" "rD,rA,rB" "00 0xA  DDDDD AAAAA BBBB B--- 0x6 0xC" "l_invalid" 0 it_unknown;
  Or32Opcode "lv.srl.h" "rD,rA,rB" "00 0xA  DDDDD AAAAA BBBB B--- 0x6 0xD" "l_invalid" 0 it_unknown;
  Or32Opcode "lv.sra.b" "rD,rA,rB" "00 0xA  DDDDD AAAAA BBBB B--- 0x6 0xE" "l_invalid" 0 it_unknown;
  Or32Opcode "lv.sra.h" "rD,rA,rB" "00 0xA  DDDDD AAAAA BBBB B--- 0x6 0xF" "l_invalid" 0 it_unknown;
  Or32Opcode "lv.srl" "rD,rA,rB" "00 0xA  DDDDD AAAAA BBBB B--- 0x7 0x0" "l_invalid" 0 it_unknown;
  Or32Opcode "lv.sub.b" "rD,rA,rB" "00 0xA  DDDDD AAAAA BBBB B--- 0x7 0x1" "l_invalid" 0 it_unknown;
  Or32Opcode "lv.sub.h" "rD,rA,rB" "00 0xA  DDDDD AAAAA BBBB B--- 0x7 0x2" "l_invalid" 0 it_unknown;
  Or32Opcode "lv.subs.b" "rD,rA,rB" "00 0xA  DDDDD AAAAA BBBB B--- 0x7 0x3" "l_invalid" 0 it_unknown;
  Or32Opcode "lv.subs.h" "rD,rA,rB" "00 0xA  DDDDD AAAAA BBBB B--- 0x7 0x4" "l_invalid" 0 it_unknown;
  Or32Opcode "lv.subu.b" "rD,rA,rB" "00 0xA  DDDDD AAAAA BBBB B--- 0x7 0x5" "l_invalid" 0 it_unknown;
  Or32Opcode "lv.subu.h" "rD,rA,rB" "00 0xA  DDDDD AAAAA BBBB B--- 0x7 0x6" "l_invalid" 0 it_unknown;
  Or32Opcode "lv.subus.b" "rD,rA,rB" "00 0xA  DDDDD AAAAA BBBB B--- 0x7 0x7" "l_invalid" 0 it_unknown;
  Or32Opcode "lv.subus.h" "rD,rA,rB" "00 0xA  DDDDD AAAAA BBBB B--- 0x7 0x8" "l_invalid" 0 it_unknown;
  Or32Opcode "lv.unpack.b" "rD,rA,rB" "00 0xA  DDDDD AAAAA BBBB B--- 0x7 0x9" "l_invalid" 0 it_unknown;
  Or32Opcode "lv.unpack.h" "rD,rA,rB" "00 0xA  DDDDD AAAAA BBBB B--- 0x7 0xA" "l_invalid" 0 it_unknown;
  Or32Opcode "lv.xor" "rD,rA,rB" "00 0xA  DDDDD AAAAA BBBB B--- 0x7 0xB" "l_invalid" 0 it_unknown;
  Or32Opcode "lv.cust1" EmptyString "00 0xA  ----- ----- ---- ---- 0xC ----" "l_invalid" 0 it_unknown;
  Or32Opcode "lv.cust2" EmptyString "00 0xA  ----- ----- ---- ---- 0xD ----" "l_invalid" 0 it_unknown;
  Or32Opcode "lv.cust3" EmptyString "00 0xA  ----- ----- ---- ---- 0xE ----" "l_invalid" 0 it_unknown;
  Or32Opcode "lv.cust4" EmptyString "00 0xA  ----- ----- ---- ---- 0xF ----" "l_invalid" 0 it_unknown].

Definition opcodes_jump_reg : list or32_opcode := [
  Or32Opcode "l.jr" "rB" "01 0x1  ----- ----- BBBB B--- ---- ----" "l_jr" OR32_IF_DELAY it_jump;
  Or32Opcode "l.jalr" "rB" "01 0x2  ----- ----- BBBB B--- ---- ----" "l_jalr" OR32_IF_DELAY it_jump;
  Or32Opcode "l.maci" "rA,I" "01 0x3  ----- AAAAA IIII IIII IIII IIII" "l_mac" 0 it_mac;
  Or32Opcode "l.lwa" "rD,I(rA)" "01 0xB  DDDDD AAAAA IIII IIII IIII IIII" "l_lwa" 0 it_load;
  Or32Opcode "l.cust1" EmptyString "01 0xC  ----- ----- ---- ---- ---- ----" "l_cust1" 0 it_unknown;
  Or32Opcode "l.cust2" EmptyString "01 0xD  ----- ----- ---- ---- ---- ----" "l_cust2" 0 it_unknown;
  Or32Opcode "l.cust3" EmptyString "01 0xE  ----- ----- ---- ---- ---- ----" "l_cust3" 0 it_unknown;
  Or32Opcode "l.cust4" EmptyString "01 0xF  ----- ----- ---- ---- ---- ----" "l_cust4" 0 it_unknown].

Definition opcodes_load_imm : list or32_opcode := [
  Or32Opcode "l.ld" "rD,I(rA)" "10 0x0  DDDDD AAAAA IIII IIII IIII IIII" "l_invalid" 0 it_load;
  Or32Opcode "l.lwz" "rD,I(rA)" "10 0x1  DDDDD AAAAA IIII IIII IIII IIII" "l_lwz" 0 it_load;
  Or32Opcode "l.lws" "rD,I(rA)" "10 0x2  DDDDD AAAAA IIII IIII IIII IIII" "l_lws" 0 it_load;
  Or32Opcode "l.lbz" "rD,I(rA)" "10 0x3  DDDDD AAAAA IIII IIII IIII IIII" "l_lbz" 0 it_load;
  Or32Opcode "l.lbs" "rD,I(rA)" "10 0x4  DDDDD AAAAA IIII IIII IIII IIII" "l_lbs" 0 it_load;
  Or32Opcode "l.lhz" "rD,I(rA)" "10 0x5  DDDDD AAAAA IIII IIII IIII IIII" "l_lhz" 0 it_load;
  Or32Opcode "l.lhs" "rD,I(rA)" "10 0x6  DDDDD AAAAA IIII IIII IIII IIII" "l_lhs" 0 it_load;
  Or32Opcode "l.addi" "rD,rA,I" "10 0x7  DDDDD AAAAA IIII IIII IIII IIII" "l_add" OR32_W_FLAG it_arith;
  Or32Opcode "l.addic" "rD,rA,I" "10 0x8  DDDDD AAAAA IIII IIII IIII IIII" "l_addc" OR32_W_FLAG it_arith;
  Or32Opcode "l.andi" "rD,rA,K" "10 0x9  DDDDD AAAAA KKKK KKKK KKKK KKKK" "l_and" OR32_W_FLAG it_arith;
  Or32Opcode "l.ori" "rD,rA,K" "10 0xA  DDDDD AAAAA KKKK KKKK KKKK KKKK" "l_or" 0 it_arith;
  Or32Opcode "l.xori" "rD,rA,I" "10 0xB  DDDDD AAAAA IIII IIII IIII IIII" "l_xor" 0 it_arith;
  Or32Opcode "l.muli" "rD,rA,I" "10 0xC  DDDDD AAAAA IIII IIII IIII IIII" "l_mul" 0 it_arith;
  Or32Opcode "l.mfspr" "rD,rA,K" "10 0xD  DDDDD AAAAA KKKK KKKK KKKK KKKK" "l_mfspr" 0 it_move;
  Or32Opcode "l.slli" "rD,rA,L" "10 0xE  DDDDD AAAAA ---- ---- 00LL LLLL" "l_sll" 0 it_shift;
  Or32Opcode "l.srli" "rD,rA,L" "10 0xE  DDDDD AAAAA ---- ---- 01LL LLLL" "l_srl" 0 it_shift;
  Or32Opcode "l.srai" "rD,rA,L" "10 0xE  DDDDD AAAAA ---- ---- 10LL LLLL" "l_sra" 0 it_shift;
  Or32Opcode "l.rori" "rD,rA,L" "10 0xE  DDDDD AAAAA ---- ---- 11LL LLLL" "l_ror" 0 it_shift].

Definition opcodes_sfi : list or32_opcode := [
  Or32Opcode "l.sfeqi" "rA,I" "10 0xF  00000 AAAAA IIII IIII IIII IIII" "l_sfeq" OR32_W_FLAG it_compare;
  Or32Opcode "l.sfnei" "rA,I" "10 0xF  00001 AAAAA IIII IIII IIII IIII" "l_sfne" OR32_W_FLAG it_compare;
  Or32Opcode "l.sfgtui" "rA,I" "10 0xF  00010 AAAAA IIII IIII IIII IIII" "l_sfgtu" OR32_W_FLAG it_compare;
  Or32Opcode "l.sfgeui" "rA,I" "10 0xF  00011 AAAAA IIII IIII IIII IIII" "l_sfgeu" OR32_W_FLAG it_compare;
  Or32Opcode "l.sfltui" "rA,I" "10 0xF  00100 AAAAA IIII IIII IIII IIII" "l_sfltu" OR32_W_FLAG it_compare;
  Or32Opcode "l.sfleui" "rA,I" "10 0xF  00101 AAAAA IIII IIII IIII IIII" "l_sfleu" OR32_W_FLAG it_compare;
  Or32Opcode "l.sfgtsi" "rA,I" "10 0xF  01010 AAAAA IIII IIII IIII IIII" "l_sfgts" OR32_W_FLAG it_compare;
  Or32Opcode "l.sfgesi" "rA,I" "10 0xF  01011 AAAAA IIII IIII IIII IIII" "l_sfges" OR32_W_FLAG it_compare;
  Or32Opcode "l.sfltsi" "rA,I" "10 0xF  01100 AAAAA IIII IIII IIII IIII" "l_sflts" OR32_W_FLAG it_compare;
  Or32Opcode "l.sflesi" "rA,I" "10 0xF  01101 AAAAA IIII IIII IIII IIII" "l_sfles" OR32_W_FLAG it_compare].

Definition opcodes_mac_float : list or32_opcode := [
  Or32Opcode "l.mtspr" "rA,rB,K" "11 0x0  KKKKK AAAAA BBBB BKKK KKKK KKKK" "l_mtspr" 0 it_move;
  Or32Opcode "l.mac" "rA,rB" "11 0x1  ----- AAAAA BBBB B--- ---- 0x1" "l_mac" 0 it_mac;
  Or32Opcode "l.msb" "rA,rB" "11 0x1  ----- AAAAA BBBB B--- ---- 0x2" "l_msb" 0 it_mac;
  Or32Opcode "lf.add.s" "rD,rA,rB" "11 0x2  DDDDD AAAAA BBBB B--- 0x0 0x0" "lf_add_s" 0 it_float;
  Or32Opcode "lf.sub.s" "rD,rA,rB" "11 0x2  DDDDD AAAAA BBBB B--- 0x0 0x1" "lf_sub_s" 0 it_float;
  Or32Opcode "lf.mul.s" "rD,rA,rB" "11 0x2  DDDDD AAAAA BBBB B--- 0x0 0x2" "lf_mul_s" 0 it_float;
  Or32Opcode "lf.div.s" "rD,rA,rB" "11 0x2  DDDDD AAAAA BBBB B--- 0x0 0x3" "lf_div_s" 0 it_float;
  Or32Opcode "lf.itof.s" "rD,rA" "11 0x2  DDDDD AAAAA 0000 0--- 0x0 0x4" "lf_itof_s" 0 it_float;
  Or32Opcode "lf.ftoi.s" "rD,rA" "11 0x2  DDDDD AAAAA 0000 0--- 0x0 0x5" "lf_ftoi_s" 0 it_float;
  Or32Opcode "lf.rem.s" "rD,rA,rB" "11 0x2  DDDDD AAAAA BBBB B--- 0x0 0x6" "lf_rem_s" 0 it_float;
  Or32Opcode "lf.madd.s" "rD,rA,rB" "11 0x2  DDDDD AAAAA BBBB B--- 0x0 0x7" "lf_madd_s" 0 it_float;
  Or32Opcode "lf.sfeq.s" "rA,rB" "11 0x2  ----- AAAAA BBBB B--- 0x0 0x8" "lf_sfeq_s" 0 it_float;
  Or32Opcode "lf.sfne.s" "rA,rB" "11 0x2  ----- AAAAA BBBB B--- 0x0 0x9" "lf_sfne_s" 0 it_float;
  Or32Opcode "lf.sfgt.s" "rA,rB" "11 0x2  ----- AAAAA BBBB B--- 0x0 0xA" "lf_sfgt_s" 0 it_float;
  Or32Opcode "lf.sfge.s" "rA,rB" "11 0x2  ----- AAAAA BBBB B--- 0x0 0xB" "lf_sfge_s" 0 it_float;
  Or32Opcode "lf.sflt.s" "rA,rB" "11 0x2  ----- AAAAA BBBB B--- 0x0 0xC" "lf_sflt_s" 0 it_float;
  Or32Opcode "lf.sfle.s" "rA,rB" "11 0x2  ----- AAAAA BBBB B--- 0x0 0xD" "lf_sfle_s" 0 it_float;
  Or32Opcode "lf.cust1.s" "rA,rB" "11 0x2  ----- AAAAA BBBB B--- 0xD ----" "l_invalid" 0 it_float].

Definition opcodes_double : list or32_opcode := [
  Or32Opcode "lf.add.d" "rD,rA,rB" "11 0x2  DDDDD AAAAA BBBB B--- 0x1 0x0" "l_invalid" 0 it_float;
  Or32Opcode "lf.sub.d" "rD,rA,rB" "11 0x2  DDDDD AAAAA BBBB B--- 0x1 0x1" "l_invalid" 0 it_float;
  Or32Opcode "lf.mul.d" "rD,rA,rB" "11 0x2  DDDDD AAAAA BBBB B--- 0x1 0x2" "l_invalid" 0 it_float;
  Or32Opcode "lf.div.d" "rD,rA,rB" "11 0x2  DDDDD AAAAA BBBB B--- 0x1 0x3" "l_invalid" 0 it_float;
  Or32Opcode "lf.itof.d" "rD,rA" "11 0x2  DDDDD AAAAA 0000 0--- 0x1 0x4" "l_invalid" 0 it_float;
  Or32Opcode "lf.ftoi.d" "rD,rA" "11 0x2  DDDDD AAAAA 0000 0--- 0x1 0x5" "l_invalid" 0 it_float;
  Or32Opcode "lf.rem.d" "rD,rA,rB" "11 0x2  DDDDD AAAAA BBBB B--- 0x1 0x6" "l_invalid" 0 it_float;
  Or32Opcode "lf.madd.d" "rD,rA,rB" "11 0x2  DDDDD AAAAA BBBB B--- 0x1 0x7" "l_invalid" 0 it_float;
  Or32Opcode "lf.sfeq.d" "rA,rB" "11 0x2  ----- AAAAA BBBB B--- 0x1 0x8" "l_invalid" 0 it_float;
  Or32Opcode "lf.sfne.d" "rA,rB" "11 0x2  ----- AAAAA BBBB B--- 0x1 0x9" "l_invalid" 0 it_float;
  Or32Opcode "lf.sfgt.d" "rA,rB" "11 0x2  ----- AAAAA BBBB B--- 0x1 0xA" "l_invalid" 0 it_float;
  Or32Opcode "lf.sfge.d" "rA,rB" "11 0x2  ----- AAAAA BBBB B--- 0x1 0xB" "l_invalid" 0 it_float;
  Or32Opcode "lf.sflt.d" "rA,rB" "11 0x2  ----- AAAAA BBBB B--- 0x1 0xC" "l_invalid" 0 it_float;
  Or32Opcode "lf.sfle.d" "rA,rB" "11 0x2  ----- AAAAA BBBB B--- 0x1 0xD" "l_invalid" 0 it_float;
  Or32Opcode "lf.cust1.d" "rA,rB" "11 0x2  ----- AAAAA BBBB B--- 0xE ----" "l_invalid" 0 it_float].

Definition opcodes_store_arith : list or32_opcode := [
  Or32Opcode "l.swa" "I(rA),rB" "11 0x3  IIIII AAAAA BBBB BIII IIII IIII" "l_swa" 0 it_store;
  Or32Opcode "l.sd" "I(rA),rB" "11 0x4  IIIII AAAAA BBBB BIII IIII IIII" "l_invalid" 0 it_store;
  Or32Opcode "l.sw" "I(rA),rB" "11 0x5  IIIII AAAAA BBBB BIII IIII IIII" "l_sw" 0 it_store;
  Or32Opcode "l.sb" "I(rA),rB" "11 0x6  IIIII AAAAA BBBB BIII IIII IIII" "l_sb" 0 it_store;
  Or32Opcode "l.sh" "I(rA),rB" "11 0x7  IIIII AAAAA BBBB BIII IIII IIII" "l_sh" 0 it_store;
  Or32Opcode "l.add" "rD,rA,rB" "11 0x8  DDDDD AAAAA BBBB B-00 ---- 0x0" "l_add" OR32_W_FLAG it_arith;
  Or32Opcode "l.addc" "rD,rA,rB" "11 0x8  DDDDD AAAAA BBBB B-00 ---- 0x1" "l_addc" OR32_W_FLAG it_arith;
  Or32Opcode "l.sub" "rD,rA,rB" "11 0x8  DDDDD AAAAA BBBB B-00 ---- 0x2" "l_sub" 0 it_arith;
  Or32Opcode "l.and" "rD,rA,rB" "11 0x8  DDDDD AAAAA BBBB B-00 ---- 0x3" "l_and" OR32_W_FLAG it_arith;
  Or32Opcode "l.or" "rD,rA,rB" "11 0x8  DDDDD AAAAA BBBB B-00 ---- 0x4" "l_or" 0 it_arith;
  Or32Opcode "l.xor" "rD,rA,rB" "11 0x8  DDDDD AAAAA BBBB B-00 ---- 0x5" "l_xor" 0 it_arith;
  Or32Opcode "l.mul" "rD,rA,rB" "11 0x8  DDDDD AAAAA BBBB B-11 ---- 0x6" "l_mul" 0 it_arith;
  Or32Opcode "l.sll" "rD,rA,rB" "11 0x8  DDDDD AAAAA BBBB B-00 00-- 0x8" "l_sll" 0 it_shift;
  Or32Opcode "l.srl" "rD,rA,rB" "11 0x8  DDDDD AAAAA BBBB B-00 01-- 0x8" "l_srl" 0 it_shift;
  Or32Opcode "l.sra" "rD,rA,rB" "11 0x8  DDDDD AAAAA BBBB B-00 10-- 0x8" "l_sra" 0 it_shift;
  Or32Opcode "l.ror" "rD,rA,rB" "11 0x8  DDDDD AAAAA BBBB B-00 11-- 0x8" "l_ror" 0 it_shift;
  Or32Opcode "l.div" "rD,rA,rB" "11 0x8  DDDDD AAAAA BBBB B-11 ---- 0x9" "l_div" 0 it_arith;
  Or32Opcode "l.divu" "rD,rA,rB" "11 0x8  DDDDD AAAAA BBBB B-11 ---- 0xA" "l_divu" 0 it_arith;
  Or32Opcode "l.mulu" "rD,rA,rB" "11 0x8  DDDDD AAAAA BBBB B-11 ---- 0xB" "l_mulu" 0 it_arith;
  Or32Opcode "l.extbs" "rD,rA" "11 0x8  DDDDD AAAAA ---- --00 01-- 0xC" "l_extbs" 0 it_move;
  Or32Opcode "l.exths" "rD,rA" "11 0x8  DDDDD AAAAA ---- --00 00-- 0xC" "l_exths" 0 it_move;
  Or32Opcode "l.extws" "rD,rA" "11 0x8  DDDDD AAAAA ---- --00 00-- 0xD" "l_extws" 0 it_move;
  Or32Opcode "l.extbz" "rD,rA" "11 0x8  DDDDD AAAAA ---- --00 11-- 0xC" "l_extbz" 0 it_move;
  Or32Opcode "l.exthz" "rD,rA" "11 0x8  DDDDD AAAAA ---- --00 10-- 0xC" "l_exthz" 0 it_move;
  Or32Opcode "l.extwz" "rD,rA" "11 0x8  DDDDD AAAAA ---- --00 01-- 0xD" "l_extwz" 0 it_move;
  Or32Opcode "l.cmov" "rD,rA,rB" "11 0x8  DDDDD AAAAA BBBB B-00 ---- 0xE" "l_cmov" OR32_R_FLAG it_move;
  Or32Opcode "l.ff1" "rD,rA" "11 0x8  DDDDD AAAAA ---- --00 ---- 0xF" "l_ff1" 0 it_arith;
  Or32Opcode "l.fl1" "rD,rA" "11 0x8  DDDDD AAAAA ---- --01 ---- 0xF" "l_fl1" 0 it_arith].

Definition opcodes_compare : list or32_opcode := [
  Or32Opcode "l.sfeq" "rA,rB" "11 0x9  00000 AAAAA BBBB B--- ---- ----" "l_sfeq" OR32_W_FLAG it_compare;
  Or32Opcode "l.sfne" "rA,rB" "11 0x9  00001 AAAAA BBBB B--- ---- ----" "l_sfne" OR32_W_FLAG it_compare;
  Or32Opcode "l.sfgtu" "rA,rB" "11 0x9  00010 AAAAA BBBB B--- ---- ----" "l_sfgtu" OR32_W_FLAG it_compare;
  Or32Opcode "l.sfgeu" "rA,rB" "11 0x9  00011 AAAAA BBBB B--- ---- ----" "l_sfgeu" OR32_W_FLAG it_compare;
  Or32Opcode "l.sfltu" "rA,rB" "11 0x9  00100 AAAAA BBBB B--- ---- ----" "l_sfltu" OR32_W_FLAG it_compare;
  Or32Opcode "l.sfleu" "rA,rB" "11 0x9  00101 AAAAA BBBB B--- ---- ----" "l_sfleu" OR32_W_FLAG it_compare;
  Or32Opcode "l.sfgts" "rA,rB" "11 0x9  01010 AAAAA BBBB B--- ---- ----" "l_sfgts" OR32_W_FLAG it_compare;
  Or32Opcode "l.sfges" "rA,rB" "11 0x9  01011 AAAAA BBBB B--- ---- ----" "l_sfges" OR32_W_FLAG it_compare;
  Or32Opcode "l.sflts" "rA,rB" "11 0x9  01100 AAAAA BBBB B--- ---- ----" "l_sflts" OR32_W_FLAG it_compare;
  Or32Opcode "l.sfles" "rA,rB" "11 0x9  01101 AAAAA BBBB B--- ---- ----" "l_sfles" OR32_W_FLAG it_compare;
  Or32Opcode "l.cust5" "rD,rA,rB,L,K" "11 0xC  DDDDD AAAAA BBBB BLLL LLLK KKKK" "l_invalid" 0 it_unknown;
  Or32Opcode "l.cust6" EmptyString "11 0xD  ----- ----- ---- ---- ---- ----" "l_invalid" 0 it_unknown;
  Or32Opcode "l.cust7" EmptyString "11 0xE  ----- ----- ---- ---- ---- ----" "l_invalid" 0 it_unknown;
  Or32Opcode "l.cust8" EmptyString "11 0xF  ----- ----- ---- ---- ---- ----" "l_invalid" 0 it_unknown].

Definition or1ksim_or32_opcodes : list or32_opcode :=
  opcodes_control ++ opcodes_vector_cmp ++ opcodes_vector_arith ++ opcodes_vector_pack ++ opcodes_jump_reg ++ opcodes_load_imm ++ opcodes_sfi ++ opcodes_mac_float ++ opcodes_double ++ opcodes_store_arith ++ opcodes_compare.
