(* ===== verification/Or32.v ===== *)
(** * The instruction decoder

    cpu/or32/or32.c: the automaton [or1ksim_build_automata] builds from the
    encodings of the opcode table, the table of operand descriptors it parses
    from the argument strings, and their readers [or1ksim_insn_decode]
    (or32.c), [eval_operand_val] (cpu/or32/execute.c), [generate_body]
    (cpu/or32/generate.c) and the disassembler.

    The arrays the C code [malloc]s hold no value until they are written: the
    automaton is a finite map from indices to words, and reading an index that
    was not written gives [None], as do [exit (1)] and running out of fuel. *)

From S2P Require Export OpTable.

(** [foldM f a [x1; ...; xn]]: a loop that threads its state and may stop. *)
Fixpoint foldM {A B} (f : A -> B -> option A) (a : A) (l : list B) : option A :=
  match l with
  | [] => Some a
  | x :: l => a' ← f a x; foldM f a' l
  end.

Module Or32.

(** ** Characters and encodings *)

Definition NUM_UNSIGNED := 0.
Definition NUM_SIGNED := 1.

Definition or32_letters : list (ascii * Z) :=
  [("A", NUM_UNSIGNED); ("B", NUM_UNSIGNED); ("D", NUM_UNSIGNED); ("I", NUM_SIGNED);
   ("K", NUM_UNSIGNED); ("L", NUM_UNSIGNED); ("N", NUM_SIGNED); ("0", NUM_UNSIGNED)]%char.

Definition char_code (c : ascii) : Z := Z.of_N (N_of_ascii c).
Definition islower (c : ascii) : bool := (97 <=? char_code c) && (char_code c <=? 122).
Definition isupper (c : ascii) : bool := (65 <=? char_code c) && (char_code c <=? 90).
Definition isalpha (c : ascii) : bool := islower c || isupper c.

(** [enc[0] == '0' && enc[1] == 'x']. *)
Definition is_0x (enc : string) : bool := String.prefix "0x" enc.

Fixpoint strchr (s : string) (l : ascii) : bool :=
  match s with
  | EmptyString => false
  | String c s => (c =? l)%char || strchr s l
  end.

(** The hexadecimal digits of [strtol (s, NULL, 16)]: white space is skipped,
    the digits are read up to the first other character.  ([strtol] accepts a
    sign and a "0x" prefix too.) *)
Definition hex_digit (c : ascii) : option Z :=
  let n := char_code c in
  if (48 <=? n) && (n <=? 57) then Some (n - 48)
  else if (65 <=? n) && (n <=? 70) then Some (n - 55)
  else if (97 <=? n) && (n <=? 102) then Some (n - 87)
  else None.
Fixpoint hex_digits (s : string) (acc : Z) : Z :=
  match s with
  | EmptyString => acc
  | String c t => match hex_digit c with Some d => hex_digits t (16 * acc + d) | None => acc end
  end.
Fixpoint strtol16 (s : string) : Z :=
  match s with
  | EmptyString => 0
  | String c t =>
      if (c =? " ")%char then strtol16 t
      else if (c =? "-")%char then - hex_digits t 0
      else if (c =? "+")%char then hex_digits t 0
      else if is_0x s then match t with String _ digits => hex_digits digits 0 | _ => 0 end
      else hex_digits s 0
  end.

(** ** Letters *)

Definition letter_signed (l : ascii) : bool :=
  match list_find (fun p => fst p = l) or32_letters with
  | Some (_, (_, sign)) => nz sign
  | None => false
  end.

(** The occurrences of [l] in an encoding, skipping the digits after "0x". *)
Fixpoint count_letter (l : ascii) (enc : string) : Z :=
  match enc with
  | EmptyString => 0
  | String c t =>
      if is_0x enc then match t with String _ (String _ t) => count_letter l t | _ => 0 end
      else b2z (c =? l)%char + count_letter l t
  end.

(** [letter_range]: the first opcode that has the letter gives its width
    ([exit (1)] when there is none; the cache only saves the search). *)
Definition letter_range (l : ascii) : option Z :=
  match list_find (fun o => strchr (encoding o) l = true) or1ksim_or32_opcodes with
  | Some (_, o) => Some (count_letter l (encoding o))
  | None => None
  end.

Definition NUM_OPCODES : Z := Z.of_nat (length or1ksim_or32_opcodes).

Definition or1ksim_insn_len (insn_index : Z) : Z := 4.

Definition or1ksim_insn_name (index : Z) : string :=
  match (if (0 <=? index) && (index <? NUM_OPCODES)
         then or1ksim_or32_opcodes !! Z.to_nat index else None) with
  | Some o => name o
  | None => "???"
  end.

(** [insn_extract]: the bits of the instruction word that the encoding marks
    with [param_ch]; for '0' and '1' also those of the hexadecimal digits. *)
Fixpoint insn_extract_from (param_ch : ascii) (enc : string) (opc_pos ret : Z) : Z :=
  match enc with
  | EmptyString => ret
  | String c t =>
      if is_0x enc then
        match t with
        | String _ (String _ t' as digits) =>
            let tmp := u64 (strtol16 digits) in
            let opc_pos := u32 (opc_pos - 4) in
            let ret :=
              if (param_ch =? "0")%char || (param_ch =? "1")%char then
                let tmp := if (param_ch =? "0")%char then u64 (15 - tmp) else tmp in
                Z.lor ret (u64 (Z.shiftl tmp opc_pos))
              else ret in
            insn_extract_from param_ch t' opc_pos ret
        | _ => ret
        end
      else if (c =? "0")%char || (c =? "1")%char || (c =? "-")%char || isalpha c then
        let opc_pos := u32 (opc_pos - 1) in
        insn_extract_from param_ch t opc_pos
          (if (param_ch =? c)%char then Z.lor ret (u32 (Z.shiftl 1 opc_pos)) else ret)
      else insn_extract_from param_ch t opc_pos ret
  end.
Definition insn_extract (param_ch : ascii) (enc_initial : string) : Z :=
  insn_extract_from param_ch enc_initial 32 0.

(** ** Building the automaton *)

Definition LEAF_FLAG := 0x80000000.
Definition MAX_AUTOMATA_SIZE := 1200.
Definition MAX_OP_TABLE_SIZE := 1200.
Definition MAX_LEN := 8.

Record temp_insn_struct := TempInsn { insn : Z; insn_mask : Z; in_pass : Z }.

(** The globals [cover_insn] works on. *)
Record builder := Builder {
  automata : gmap Z Z;             (* or1ksim_automata *)
  ti : list temp_insn_struct;      (* or1ksim_ti *)
  nuncovered : Z;
  curpass : Z }.

Definition put (i v : Z) (b : builder) : builder :=
  Builder (<[i := v]> (automata b)) (ti b) (nuncovered b) (curpass b).

(** The first loop: the bits all instructions of this pass fix, how many there
    are and the index of the last. *)
Definition cover_scan (l : list temp_insn_struct) (pass mask : Z) : Z * Z * Z :=
  fst (foldl (fun '(cur_mask, ninstr, last_match, i) t =>
         if in_pass t =? pass
         then (Z.land cur_mask (insn_mask t), ninstr + 1, i, i + 1)
         else (cur_mask, ninstr, last_match, i + 1))
       (mask, 0, -1, 0) l).

(** "Find longest match": the longest run of set bits of [cur_mask], shorter
    than [MAX_LEN]; the lowest such run. *)
Fixpoint longest_at (fuel : nat) (cur_mask i len best_len best_first : Z) : Z * Z :=
  match fuel with
  | O => (best_len, best_first)
  | S fuel =>
      if len <? Z.min MAX_LEN (33 - i) then
        let m := Z.shiftl 1 len - 1 in
        if Z.land m (Z.shiftr cur_mask i) =? m
        then longest_at fuel cur_mask i (len + 1) len i
        else (best_len, best_first)
      else (best_len, best_first)
  end.
Definition longest_match (cur_mask : Z) : Z * Z :=
  foldl (fun '(best_len, best_first) i =>
           longest_at (Z.to_nat MAX_LEN) cur_mask i (best_len + 1) best_len best_first)
        (0, 0) (seqZ 0 32).

(** The instructions of [pass] whose field at [best_first] is [i] get the new
    pass number. *)
Definition mark_pass (pass best_first cur_mask i newpass : Z) (t : temp_insn_struct) : temp_insn_struct :=
  if (in_pass t =? pass) && (Z.land (Z.shiftr (insn t) best_first) cur_mask =? i)
     && (Z.land (Z.shiftr (insn_mask t) best_first) cur_mask =? cur_mask)
  then TempInsn (insn t) (insn_mask t) newpass else t.

(** [cover_insn]: the result is the end of what was written, [None] for the
    NULL pointer of an empty class. *)
Fixpoint cover_insn (fuel : nat) (cur pass mask : Z) (b : builder) : option (option Z * builder) :=
  match fuel with
  | O => None
  | S fuel =>
      let '(cur_mask, ninstr, last_match) := cover_scan (ti b) pass mask in
      if ninstr =? 0 then Some (None, b)
      else if ninstr =? 1 then
        let b := put cur (Z.lor LEAF_FLAG last_match) b in
        Some (Some (cur + 1), Builder (automata b) (ti b) (nuncovered b - 1) (curpass b))
      else
        let '(best_len, best_first) := longest_match cur_mask in
        if best_len =? 0 then None
        else
          let b := put (cur + 1) (Z.shiftl 1 best_len - 1) (put cur best_first b) in
          let cur_mask := Z.shiftl 1 best_len - 1 in
          let n := Z.shiftl 1 best_len in
          let next := cur + 2 in
          '(cur, b) ← foldM (fun '(cur, b) i =>
              let newpass := curpass b + 1 in
              let b := Builder (automata b)
                         (map (mark_pass pass best_first cur_mask i newpass) (ti b))
                         (nuncovered b) newpass in
              '(c, b) ← cover_insn fuel cur newpass
                          (u32 (Z.land mask (Z.lnot (Z.shiftl cur_mask best_first)))) b;
              match c with
              | Some c => Some (c, put (next + i) cur b)
              | None => Some (cur, put (next + i) 0 b)
              end)
            (next + n, b) (seqZ 0 n);
          Some (Some cur, b)
  end.

(** ** Operand descriptors *)

Definition OPTYPE_LAST := 0x80000000.
Definition OPTYPE_OP := 0x40000000.
Definition OPTYPE_REG := 0x20000000.
Definition OPTYPE_SIG := 0x10000000.
Definition OPTYPE_DIS := 0x08000000.
Definition OPTYPE_DST := 0x04000000.
Definition OPTYPE_SBIT := 0x00001F00.
Definition OPTYPE_SHR := 0x0000001F.
Definition OPTYPE_SBIT_SHR := 8.

Record insn_op_struct := InsnOp { type : Z; data : Z }.

(** [num_ones], on a 64-bit [unsigned long]. *)
Fixpoint num_ones_from (fuel : nat) (value c : Z) : Z :=
  match fuel with
  | O => c
  | S fuel =>
      if nz value
      then num_ones_from fuel (Z.shiftr value 1) (if nz (Z.land value 1) then c + 1 else c)
      else c
  end.
Definition num_ones (value : Z) : Z := num_ones_from 64 value 0.

(** The two inner loops of "Split argument to sequences of consecutive ones":
    skip the low zeros, count the ones. *)
Fixpoint skip_zeros (fuel : nat) (tmp shr : Z) : Z * Z :=
  match fuel with
  | O => (tmp, shr)
  | S fuel => if Z.land tmp 1 =? 0 then skip_zeros fuel (Z.shiftr tmp 1) (shr + 1) else (tmp, shr)
  end.
Fixpoint count_ones (fuel : nat) (tmp mask : Z) : Z :=
  match fuel with
  | O => mask
  | S fuel => if nz (Z.land tmp 1) then count_ones fuel (Z.shiftr tmp 1) (mask + 1) else mask
  end.

Fixpoint split_arg (fuel : nat) (ty arg : Z) : list insn_op_struct :=
  match fuel with
  | O => []
  | S fuel =>
      if nz arg then
        let '(tmp, shr) := skip_zeros 64 arg 0 in
        let mask := count_ones 64 tmp 0 in
        InsnOp (Z.lor ty shr) mask
          :: split_arg fuel ty
               (Z.land arg (Z.lnot (s32 (Z.shiftl (s32 (s32 (Z.shiftl 1 mask) - 1)) shr))))
      else []
  end.

(** [cur[-k].type |= v]. *)
Definition or_type_back (k : nat) (v : Z) (ops : list insn_op_struct) : option (list insn_op_struct) :=
  if (k <=? length ops)%nat
  then Some (alter (fun o => InsnOp (Z.lor (type o) v) (data o)) (length ops - k)%nat ops)
  else None.

(** The loop of [parse_params] over the argument string; [ops] is the operand
    table written so far, up to [cur]. *)
Fixpoint parse_args (enc args : string) (ty : Z) (num_cur_op : nat) (ops : list insn_op_struct)
  : option (Z * list insn_op_struct) :=
  match args with
  | EmptyString => Some (ty, ops)
  | String c t =>
      if (c =? "r")%char then
        let ty := Z.lor ty OPTYPE_REG in
        parse_args enc t (if String.prefix "D" t then Z.lor ty OPTYPE_DST else ty) num_cur_op ops
      else if isalpha c then
        let arg := insn_extract c enc in
        let ty :=
          if letter_signed c then
            Z.lor (Z.lor ty OPTYPE_SIG)
              (Z.land (Z.shiftl (num_ones arg - 1) OPTYPE_SBIT_SHR) OPTYPE_SBIT)
          else ty in
        let fields := split_arg 64 ty arg in
        parse_args enc t ty (length fields) (ops ++ fields)
      else if (c =? "(")%char then
        ops ← foldM (fun ops k => or_type_back k (Z.lor ty OPTYPE_DIS) ops) ops
                    (rev (seq 1 num_cur_op));
        ops ← or_type_back 1 OPTYPE_OP ops;
        parse_args enc t 0 0 ops
      else if (c =? ",")%char then
        ops ← or_type_back 1 (Z.lor ty OPTYPE_OP) ops;
        parse_args enc t 0 num_cur_op ops
      else if (c =? "0")%char then
        parse_args enc t 0 num_cur_op (ops ++ [InsnOp ty 0])
      else if (c =? ")")%char then parse_args enc t ty num_cur_op ops
      else None
  end.
Definition parse_params (opcode : or32_opcode) (ops : list insn_op_struct)
  : option (list insn_op_struct) :=
  match args opcode with
  | EmptyString => Some (ops ++ [InsnOp (Z.lor (Z.lor OPTYPE_REG OPTYPE_OP) OPTYPE_LAST) 0])
  | _ =>
      '(ty, ops) ← parse_args (encoding opcode) (args opcode) 0 0 ops;
      or_type_back 1 (Z.lor ty (Z.lor OPTYPE_OP OPTYPE_LAST)) ops
  end.

(** ** [or1ksim_build_automata] *)

Record tables := Tables {
  or1ksim_automata : gmap Z Z;
  or1ksim_ti : list temp_insn_struct;
  op_data : list insn_op_struct;
  or1ksim_op_start : list Z }.

Definition temp_insn (o : or32_opcode) : temp_insn_struct :=
  let ones := insn_extract "1" (encoding o) in
  let zeros := insn_extract "0" (encoding o) in
  TempInsn ones (Z.lor ones zeros) 0.

(** 33 levels of recursion are enough: every level takes a bit from the mask. *)
Definition or1ksim_build_automata : option tables :=
  let b := Builder ∅ (map temp_insn or1ksim_or32_opcodes) NUM_OPCODES 0 in
  '(e, b) ← cover_insn 33 0 (curpass b) 0xFFFFFFFF b;
  if (default 0 e >? MAX_AUTOMATA_SIZE) then None
  else
    '(ops, starts) ← foldM (fun '(ops, starts) o =>
        ops' ← parse_params o ops;
        if Z.of_nat (length ops') >? MAX_OP_TABLE_SIZE then None
        else Some (ops', starts ++ [Z.of_nat (length ops)]))
      ([], []) or1ksim_or32_opcodes;
    Some (Tables (automata b) (ti b) ops starts).

(** ** Decoding *)

Fixpoint decode_from (t : tables) (fuel : nat) (a insn : Z) : option Z :=
  match fuel with
  | O => None
  | S fuel =>
      w ← or1ksim_automata t !! a;
      if negb (nz (Z.land w LEAF_FLAG)) then
        m ← or1ksim_automata t !! (a + 1);
        let i := Z.land (Z.shiftr insn w) m in
        c ← or1ksim_automata t !! (a + 2 + i);
        if c =? 0 then Some (-1) else decode_from t fuel c insn
      else
        let i := Z.land w (u32 (Z.lnot LEAF_FLAG)) in
        e ← or1ksim_ti t !! Z.to_nat i;
        if Z.land (insn_mask e) insn =? Or32.insn e then Some i else Some (-1)
  end.
Definition or1ksim_insn_decode (t : tables) (insn : Z) : option Z := decode_from t 33 0 insn.

(** ** Operands *)

(** [eval_operand_val] (cpu/or32/execute.c): [opds] is the operand table from
    the descriptor [opd] on. *)
Fixpoint operand_fields (insn : Z) (opds : list insn_op_struct) (operand nbits : Z)
  : option (insn_op_struct * Z) :=
  match opds with
  | [] => None
  | opd :: rest =>
      let operand :=
        Z.lor operand
          (u32 (Z.shiftl (Z.land (Z.shiftr insn (Z.land (type opd) OPTYPE_SHR))
                                 (u32 (s32 (s32 (Z.shiftl 1 (data opd)) - 1)))) nbits)) in
      if nz (Z.land (type opd) OPTYPE_OP) then Some (opd, operand)
      else operand_fields insn rest operand (u32 (nbits + data opd))
  end.
Definition sign_operand (opd : insn_op_struct) (operand : Z) : Z :=
  if nz (Z.land (type opd) OPTYPE_SIG) then
    let sbit := Z.shiftr (Z.land (type opd) OPTYPE_SBIT) OPTYPE_SBIT_SHR in
    if nz (Z.land operand (u64 (s32 (Z.shiftl 1 sbit))))
    then Z.lor operand (u32 (Z.shiftl (u32 (Z.lnot 0)) sbit)) else operand
  else operand.
Definition eval_operand_val (insn : Z) (opds : list insn_op_struct) : option Z :=
  '(opd, operand) ← operand_fields insn opds 0 0;
  Some (u32 (sign_operand opd operand)).

(** ** The disassembler's view of the operands *)

(** The first loop of [or1ksim_or32_extract] counts the letters that do not
    follow "0x". *)
Fixpoint count_param (param_ch : ascii) (before enc : string) : Z :=
  match enc with
  | EmptyString => 0
  | String c t =>
      b2z ((c =? param_ch)%char && negb (before =? "0x")%string)
      + count_param param_ch
          match before with
          | String _ (String y _) => String y (String c EmptyString)
          | _ => String.append before (String c EmptyString)
          end t
  end.

Fixpoint extract_from (param_ch : ascii) (insn : Z) (enc : string) (opc_pos param_pos ret : Z) : Z :=
  match enc with
  | EmptyString => ret
  | String c t =>
      if is_0x enc then
        match t with
        | String _ (String _ t') =>
            let opc_pos := opc_pos - 4 in
            let ret :=
              if (param_ch =? "0")%char || (param_ch =? "1")%char then
                let tmp := u64 (strtol16 enc) in
                let tmp := if (param_ch =? "0")%char then u64 (15 - tmp) else tmp in
                Z.lor ret (u64 (Z.shiftl tmp opc_pos))
              else ret in
            extract_from param_ch insn t' opc_pos param_pos ret
        | _ => ret
        end
      else if (c =? "0")%char || (c =? "1")%char then
        let opc_pos := opc_pos - 1 in
        extract_from param_ch insn t opc_pos param_pos
          (if (param_ch =? c)%char then Z.lor ret (u64 (s32 (Z.shiftl 1 opc_pos))) else ret)
      else if (c =? param_ch)%char then
        let opc_pos := opc_pos - 1 in
        let param_pos := param_pos - 1 in
        let bit := u64 (Z.shiftl (Z.land (Z.shiftr insn opc_pos) 1) param_pos) in
        extract_from param_ch insn t opc_pos param_pos
          (if islower param_ch then u64 (ret - bit) else u64 (ret + bit))
      else if isalpha c then extract_from param_ch insn t (opc_pos - 1) param_pos ret
      else if (c =? "-")%char then extract_from param_ch insn t (opc_pos - 1) param_pos ret
      else extract_from param_ch insn t opc_pos param_pos ret
  end.
Definition or1ksim_or32_extract (param_ch : ascii) (enc_initial : string) (insn : Z) : Z :=
  extract_from param_ch insn enc_initial 32 (count_param param_ch EmptyString enc_initial) 0.

(** [or1ksim_extend_imm]; [unsigned long] is 64 bits wide. *)
Definition or1ksim_extend_imm (imm : Z) (l : ascii) : option Z :=
  letter_bits ← letter_range l;
  let mask := u64 (s32 (s32 (Z.shiftl 1 letter_bits) - 1)) in
  let imm := Z.land imm mask in
  Some (if letter_signed l && nz (Z.shiftr imm (letter_bits - 1))
        then Z.lor imm (u64 (Z.lnot mask)) else imm).

End Or32.
