(* ===== verification/Decode.v ===== *)
(** * Correctness of the decoder

    What an encoding string means is defined here bit by bit, without
    reference to the code that reads it; the automaton and the operand table
    are then checked against that meaning by functions that are proved sound
    for every instruction word and run once, on the tables the code builds. *)

From S2P Require Export Or32.

Module Decode.
Import Or32.

(** ** The meaning of an encoding *)

Definition bits_of_hex (d : Z) : list (option bool) :=
  map (fun k => Some (Z.testbit d k)) [3; 2; 1; 0].

(** The bits of the instruction word from bit 31 down: fixed, or free. *)
Fixpoint enc_bits (enc : string) : list (option bool) :=
  match enc with
  | EmptyString => []
  | String c t =>
      if is_0x enc then
        match t with
        | String _ (String d t') => bits_of_hex (default 0 (hex_digit d)) ++ enc_bits t'
        | _ => []
        end
      else if (c =? "0")%char then Some false :: enc_bits t
      else if (c =? "1")%char then Some true :: enc_bits t
      else if (c =? " ")%char then enc_bits t
      else None :: enc_bits t
  end.

(** [w] is an instance of the encoding. *)
Definition matches (enc : string) (w : Z) : Prop :=
  forall k b, enc_bits enc !! k = Some (Some b) -> Z.testbit w (31 - Z.of_nat k) = b.

(** ** Masks *)

Definition check_bit (e : temp_insn_struct) (k : nat) (ob : option bool) : bool :=
  let i := 31 - Z.of_nat k in
  bool_decide (Z.testbit (insn_mask e) i = bool_decide (is_Some ob) /\
               Z.testbit (insn e) i = default false ob).
Definition check_mask (e : temp_insn_struct) (enc : string) : bool :=
  (length (enc_bits enc) =? 32)%nat && (0 <=? insn_mask e) && (insn_mask e <? 2 ^ 32)
  && (0 <=? insn e) && (insn e <? 2 ^ 32)
  && forallb id (imap (check_bit e) (enc_bits enc)).

Lemma check_mask_sound e enc w :
  check_mask e enc = true -> (Z.land (insn_mask e) w =? insn e) = true <-> matches enc w.
Proof.
  unfold check_mask. rewrite !andb_true_iff, forallb_forall. intros (((((Hl & ?) & ?) & ?) & ?) & Hb).
  apply Nat.eqb_eq in Hl. rewrite Z.eqb_eq.
  assert (Hk : forall k ob, enc_bits enc !! k = Some ob ->
    Z.testbit (insn_mask e) (31 - Z.of_nat k) = bool_decide (is_Some ob) /\
    Z.testbit (insn e) (31 - Z.of_nat k) = default false ob).
  { intros k ob Hk. specialize (Hb (check_bit e k ob)).
    apply (bool_decide_eq_true_1 _), Hb, list_elem_of_In, elem_of_lookup_imap. eauto. }
  split.
  - intros E k b Hkb. destruct (Hk _ _ Hkb) as [Hm Hi].
    rewrite <- E, Z.land_spec, Hm in Hi. exact Hi.
  - intros Hw. apply Z.bits_inj'. intros i Hi. rewrite Z.land_spec.
    destruct (Z.lt_ge_cases i 32).
    + assert (E : i = 31 - Z.of_nat (Z.to_nat (31 - i))) by lia.
      destruct (lookup_lt_is_Some_2 (enc_bits enc) (Z.to_nat (31 - i))) as [ob Hob]; [lia|].
      rewrite E. destruct (Hk _ _ Hob) as [-> ->]. destruct ob as [b|]; [|reflexivity].
      cbn. exact (Hw _ _ Hob).
    + rewrite (testbit_above 32 (insn_mask e)), (testbit_above 32 (insn e)) by lia. reflexivity.
Qed.

(** ** Checking the automaton *)

(** [cands] are the opcodes not ruled out on the way to node [a]. *)
Definition agrees (w m v : Z) (c : Z * temp_insn_struct) : bool :=
  negb (Z.land (Z.shiftr (insn_mask (snd c)) w) m =? m)
  || (Z.land (Z.shiftr (insn (snd c)) w) m =? v).

Fixpoint check_node (t : tables) (fuel : nat) (a : Z) (cands : list (Z * temp_insn_struct)) : bool :=
  match fuel with
  | O => false
  | S fuel =>
      match or1ksim_automata t !! a with
      | None => false
      | Some w =>
          if nz (Z.land w LEAF_FLAG) then
            let i := Z.land w (u32 (Z.lnot LEAF_FLAG)) in
            match or1ksim_ti t !! Z.to_nat i with
            | None => false
            | Some e => (0 <=? i) && forallb (fun c =>
                (fst c =? i) && (insn (snd c) =? insn e) && (insn_mask (snd c) =? insn_mask e)) cands
            end
          else
            match or1ksim_automata t !! (a + 1) with
            | None => false
            | Some m =>
                (0 <=? w) && (0 <=? m) && forallb (fun v =>
                  let cands := List.filter (agrees w m v) cands in
                  match or1ksim_automata t !! (a + 2 + v) with
                  | None => false
                  | Some c => if c =? 0 then bool_decide (cands = [])
                              else check_node t fuel c cands
                  end) (seqZ 0 (m + 1))
            end
      end
  end.

Lemma land_le x m : 0 <= m -> 0 <= Z.land x m <= m.
Proof.
  intros Hm. split; [apply Z.land_nonneg; lia|].
  apply Z.ldiff_le; [lia|]. apply Z.bits_inj'. intros i Hi.
  rewrite Z.ldiff_spec, Z.land_spec, Z.bits_0. by destruct (Z.testbit x i), (Z.testbit m i).
Qed.

(** An instance of a candidate takes the branch the candidate is kept on. *)
Lemma instance_agrees w m x c :
  0 <= w -> Z.land (insn_mask (snd c)) x = insn (snd c) ->
  agrees w m (Z.land (Z.shiftr x w) m) c = true.
Proof.
  intros Hw E. unfold agrees. rewrite <- E.
  destruct (Z.eqb_spec (Z.land (Z.shiftr (insn_mask (snd c)) w) m) m) as [Em|]; [|reflexivity].
  cbn. apply Z.eqb_eq. rewrite Z.shiftr_land, (Z.land_comm (Z.shiftr _ w)), <- Z.land_assoc.
  rewrite Em. reflexivity.
Qed.

Definition instance (x : Z) (e : temp_insn_struct) : Prop := Z.land (insn_mask e) x = insn e.

Lemma check_node_sound t x fuel a cands :
  check_node t fuel a cands = true ->
  exists r, decode_from t fuel a x = Some r /\
    (forall c, In c cands -> instance x (snd c) -> r = fst c) /\
    (r <> -1 -> 0 <= r /\ exists e, or1ksim_ti t !! Z.to_nat r = Some e /\ instance x e).
Proof.
  revert a cands. induction fuel as [|fuel IH]; intros a cands; cbn; [discriminate|].
  destruct (or1ksim_automata t !! a) as [w|] eqn:Ea; cbn; [|discriminate].
  destruct (nz (Z.land w LEAF_FLAG)); cbn.
  - destruct (or1ksim_ti t !! _) as [e|] eqn:He; cbn; [|discriminate].
    rewrite andb_true_iff, forallb_forall. intros [Hi Hc]. apply Z.leb_le in Hi.
    assert (Hc' : forall c, In c cands -> instance x (snd c) ->
      Z.land w (u32 (Z.lnot LEAF_FLAG)) = fst c /\ instance x e).
    { intros c Hin Hx. specialize (Hc _ Hin). unfold instance in *.
      rewrite !andb_true_iff, !Z.eqb_eq in Hc. destruct Hc as ((-> & Ei) & Em).
      by rewrite <- Ei, <- Em. }
    destruct (Z.eqb_spec (Z.land (insn_mask e) x) (insn e)) as [Em|Em].
    + eexists. split; [reflexivity|]. split; [|eauto]. intros c Hin Hx. by apply Hc'.
    + eexists. split; [reflexivity|]. split; [|congruence].
      intros c Hin Hx. by destruct (Hc' c Hin Hx).
  - destruct (or1ksim_automata t !! (a + 1)) as [m|] eqn:Em; cbn; [|discriminate].
    rewrite !andb_true_iff, forallb_forall. intros ((Hw & Hm) & Hv).
    apply Z.leb_le in Hw, Hm. set (v := Z.land (Z.shiftr x w) m).
    assert (Hr : 0 <= v <= m) by (apply land_le; lia).
    specialize (Hv v ltac:(apply list_elem_of_In, elem_of_seqZ; lia)).
    destruct (or1ksim_automata t !! (a + 2 + v)) as [c|] eqn:Ec; [|discriminate]. cbn.
    assert (Hin : forall c, In c cands -> instance x (snd c) -> In c (List.filter (agrees w m v) cands)).
    { intros c' Hc' Hx. apply filter_In. split; [exact Hc'|]. by apply instance_agrees. }
    destruct (c =? 0).
    + apply bool_decide_eq_true_1 in Hv. eexists. split; [reflexivity|]. split; [|congruence].
      intros c' Hc' Hx. specialize (Hin c' Hc' Hx). rewrite Hv in Hin. destruct Hin.
    + destruct (IH _ _ Hv) as (r & Er & H1 & H2). exists r. split; [exact Er|]. split; [|exact H2].
      intros c' Hc' Hx. by apply H1, Hx; apply Hin.
Qed.

(** ** The tables the code builds *)

Definition check_tables (t : tables) : bool :=
  check_node t 33 0 (imap (fun k e => (Z.of_nat k, e)) (or1ksim_ti t))
  && (length (or1ksim_ti t) =? length or1ksim_or32_opcodes)%nat
  && forallb id (zip_with (fun e o => check_mask e (encoding o)) (or1ksim_ti t) or1ksim_or32_opcodes).

Lemma tables_built : exists t, or1ksim_build_automata = Some t /\ check_tables t = true.
Proof.
  destruct (option_map check_tables or1ksim_build_automata) as [b|] eqn:E.
  2:{ exfalso. revert E. vm_compute. discriminate. }
  assert (b = true) as -> by (apply (inj Some); rewrite <- E; vm_compute; reflexivity).
  destruct or1ksim_build_automata as [t|]; [|discriminate]. injection E as E. eauto.
Qed.

Lemma check_tables_entry t i o :
  check_tables t = true -> or1ksim_or32_opcodes !! i = Some o ->
  exists e, or1ksim_ti t !! i = Some e /\ check_mask e (encoding o) = true.
Proof.
  unfold check_tables. rewrite !andb_true_iff, Nat.eqb_eq, forallb_forall. intros ((_ & Hl) & Hm) Ho.
  destruct (lookup_lt_is_Some_2 (or1ksim_ti t) i) as [e He].
  { rewrite Hl. by eapply lookup_lt_Some. }
  exists e. split; [exact He|]. apply (Hm (check_mask e (encoding o))), list_elem_of_In.
  apply list_elem_of_lookup. exists i. by rewrite lookup_zip_with, He, Ho.
Qed.

Lemma decode_word t w :
  or1ksim_build_automata = Some t -> exists r, or1ksim_insn_decode t w = Some r /\
    (forall i o, or1ksim_or32_opcodes !! i = Some o -> matches (encoding o) w <-> r = Z.of_nat i) /\
    (r = -1 \/ exists i, r = Z.of_nat i /\ is_Some (or1ksim_or32_opcodes !! i)).
Proof.
  intros Et. destruct tables_built as (t' & Et' & Hc). rewrite Et in Et'. injection Et' as <-.
  pose proof Hc as Hn. unfold check_tables in Hn. rewrite !andb_true_iff, Nat.eqb_eq in Hn.
  destruct Hn as ((Hn & Hl) & _).
  destruct (check_node_sound t w _ _ _ Hn) as (r & Er & H1 & H2).
  exists r. split; [exact Er|]. split.
  - intros i o Ho. destruct (check_tables_entry t i o Hc Ho) as (e & He & Hm).
    rewrite <- (check_mask_sound e _ w Hm), Z.eqb_eq. split.
    + intros Hx. apply (H1 (Z.of_nat i, e)); [|exact Hx].
      apply list_elem_of_In, elem_of_lookup_imap. eauto.
    + intros ->. destruct H2 as (_ & e' & He' & Hx); [lia|]. rewrite Nat2Z.id in He'. congruence.
  - destruct (Z.eq_dec r (-1)) as [|Hr]; [by left|right].
    destruct (H2 Hr) as (Hr0 & e & He & _). exists (Z.to_nat r). split; [lia|].
    apply lookup_lt_is_Some. rewrite <- Hl. by eapply lookup_lt_Some.
Qed.

(** C1: for every 32-bit word the automaton [or1ksim_build_automata] builds is
    defined and [or1ksim_insn_decode] returns the index of the opcode whose
    encoding the word is an instance of, and -1 exactly when there is none (so
    no word is an instance of two encodings). *)
Theorem decode_correct :
  exists t, or1ksim_build_automata = Some t /\ forall w, 0 <= w < 2 ^ 32 ->
    exists r, or1ksim_insn_decode t w = Some r /\
      (forall i o, or1ksim_or32_opcodes !! i = Some o -> matches (encoding o) w <-> r = Z.of_nat i) /\
      (r = -1 \/ exists i, r = Z.of_nat i /\ is_Some (or1ksim_or32_opcodes !! i)).
Proof.
  destruct tables_built as (t & Et & _). exists t. split; [exact Et|]. intros w _. by apply decode_word.
Qed.

End Decode.
