(* ===== verification/Operands.v ===== *)
(** * Operands: execution and disassembly agree

    The simulator reads the operands of an instruction in two ways: execution
    ([eval_operand_val]) gathers the bit fields of the descriptors that
    [parse_params] made at start-up, and the disassembler scans the encoding
    string again ([or1ksim_or32_extract], [or1ksim_extend_imm]).  Both are
    reduced to a list of bit positions of the instruction word, and the lists
    are compared for every operand of every opcode. *)

From S2P Require Export Decode.

Module Operands.
Import Or32 Decode.

(** ** Gathering bits *)

(** The number whose binary digits, lowest first, are the bits of [w] at [ps]. *)
Fixpoint sel (w : Z) (ps : list Z) : Z :=
  match ps with
  | [] => 0
  | p :: ps => b2z (Z.testbit w p) + 2 * sel w ps
  end.

Lemma sel_range w ps : 0 <= sel w ps < 2 ^ Z.of_nat (length ps).
Proof.
  induction ps as [|p ps IH]; [cbn; lia|]. cbn [sel length].
  rewrite Nat2Z.inj_succ, Z.pow_succ_r by lia. destruct (Z.testbit w p); cbn; lia.
Qed.

Lemma sel_app w ps qs : sel w (ps ++ qs) = sel w ps + 2 ^ Z.of_nat (length ps) * sel w qs.
Proof.
  induction ps as [|p ps IH]; [cbn; lia|]. cbn [sel length app].
  rewrite IH, Nat2Z.inj_succ, Z.pow_succ_r by lia. lia.
Qed.

Lemma field_sel w shr n :
  0 <= shr -> 0 <= n -> Z.land (Z.shiftr w shr) (2 ^ n - 1) = sel w (seqZ shr n).
Proof.
  intros Hs Hn. rewrite land_low by lia. revert shr Hs.
  pattern n; apply natlike_ind; [|clear n Hn|exact Hn].
  - intros. rewrite Z.mod_1_r. reflexivity.
  - intros n Hn IH shr Hs. rewrite seqZ_cons by lia. cbn [sel].
    rewrite Z.pred_succ, <- IH by lia. replace (Z.succ shr) with (shr + 1) by lia.
    rewrite <- Z.shiftr_shiftr, Z.pow_succ_r by lia. set (x := Z.shiftr w shr).
    replace (Z.testbit w shr) with (Z.odd x) by (unfold x; by rewrite <- Z.bit0_odd, Z.shiftr_spec by lia).
    rewrite (Z.shiftr_div_pow2 x 1), Z.rem_mul_r by lia. change (2 ^ 1) with 2.
    rewrite Zmod_odd. destruct (Z.odd x); reflexivity.
Qed.

(** ** The descriptors *)

(** The bit positions of the operand that starts at the first descriptor. *)
Fixpoint field_positions (opds : list insn_op_struct) (nbits : Z) : option (insn_op_struct * list Z) :=
  match opds with
  | [] => None
  | opd :: rest =>
      if (0 <=? data opd) && (nbits + data opd <=? 31) then
        let ps := seqZ (Z.land (type opd) OPTYPE_SHR) (data opd) in
        if nz (Z.land (type opd) OPTYPE_OP) then Some (opd, ps)
        else '(o, qs) ← field_positions rest (nbits + data opd); Some (o, ps ++ qs)
      else None
  end.

Lemma field_value w shr d :
  0 <= shr -> 0 <= d <= 31 ->
  Z.land (Z.shiftr w shr) (u32 (s32 (s32 (Z.shiftl 1 d) - 1))) = sel w (seqZ shr d).
Proof.
  intros Hs Hd. rewrite <- field_sel by lia. f_equal.
  rewrite u32_s32, Z.shiftl_1_l. rewrite u32_eq, s32_eq.
  pose proof (Z.pow_le_mono_r 2 d 31 ltac:(lia) ltac:(lia)). pose proof (Z.pow_pos_nonneg 2 d).
  replace ((2 ^ d + 2 ^ 31) mod 2 ^ 32 - 2 ^ 31 - 1) with ((2 ^ d + 2 ^ 31) mod 2 ^ 32 - (2 ^ 31 + 1)) by lia.
  rewrite Zminus_mod_idemp_l. replace (2 ^ d + 2 ^ 31 - (2 ^ 31 + 1)) with (2 ^ d - 1) by lia.
  apply Z.mod_small. lia.
Qed.

Lemma shr_nonneg opd : 0 <= Z.land (type opd) OPTYPE_SHR.
Proof. apply land_le. vm_compute. discriminate. Qed.

Lemma operand_fields_sel w opds operand nbits opd ps :
  field_positions opds nbits = Some (opd, ps) -> 0 <= nbits -> 0 <= operand < 2 ^ nbits ->
  operand_fields w opds operand nbits = Some (opd, operand + 2 ^ nbits * sel w ps).
Proof.
  revert operand nbits ps. induction opds as [|o rest IH]; [discriminate|].
  intros operand nbits ps; cbn [field_positions operand_fields].
  destruct ((0 <=? data o) && (nbits + data o <=? 31)) eqn:Hd; [|discriminate].
  rewrite andb_true_iff in Hd. destruct Hd as [Hd0 Hd1]. apply Z.leb_le in Hd0, Hd1.
  intros E Hn Ho. rewrite field_value by (try apply shr_nonneg; lia).
  set (qs := seqZ _ (data o)) in *. pose proof (sel_range w qs) as Hq.
  assert (El : Z.of_nat (length qs) = data o) by (unfold qs; rewrite length_seqZ; lia).
  rewrite El in Hq. assert (Hp : 2 ^ nbits * 2 ^ data o <= 2 ^ 31).
  { rewrite <- Z.pow_add_r by lia. apply Z.pow_le_mono_r; lia. }
  rewrite Z.shiftl_mul_pow2 by lia. rewrite u32_small by nia.
  assert (Es : Z.lor operand (sel w qs * 2 ^ nbits) = operand + 2 ^ nbits * sel w qs).
  { rewrite Z.lor_comm, lor_low by lia. lia. }
  rewrite Es. destruct (nz (Z.land (type o) OPTYPE_OP)); [by simplify_eq|].
  destruct (field_positions rest (nbits + data o)) as [[o' qs']|] eqn:Er; [|discriminate].
  cbn in E. simplify_eq. rewrite u32_small by lia. rewrite (IH _ _ _ Er); [|lia|].
  - do 2 f_equal. rewrite sel_app, El, Z.pow_add_r by lia. lia.
  - rewrite Z.pow_add_r by lia. nia.
Qed.

(** ** The encoding string *)

Fixpoint extract_positions (l : ascii) (enc : string) (opc_pos param_pos : Z) : option (list Z) :=
  match enc with
  | EmptyString => if param_pos =? 0 then Some [] else None
  | String c t =>
      if is_0x enc then
        match t with
        | String _ (String _ t') => extract_positions l t' (opc_pos - 4) param_pos
        | _ => None
        end
      else if (c =? "0")%char || (c =? "1")%char then extract_positions l t (opc_pos - 1) param_pos
      else if (c =? l)%char then
        if (0 <=? opc_pos - 1) && (1 <=? param_pos) then
          ps ← extract_positions l t (opc_pos - 1) (param_pos - 1); Some ((opc_pos - 1) :: ps)
        else None
      else if isalpha c then extract_positions l t (opc_pos - 1) param_pos
      else if (c =? "-")%char then extract_positions l t (opc_pos - 1) param_pos
      else extract_positions l t opc_pos param_pos
  end.

(** Letters whose bits are added, most significant first. *)
Definition plain_letter (l : ascii) : bool :=
  negb (islower l) && negb (l =? "0")%char && negb (l =? "1")%char.

Lemma bit_sel w p : 0 <= p -> Z.land (Z.shiftr w p) 1 = sel w [p].
Proof. intros. change 1 with (2 ^ 1 - 1). rewrite field_sel by lia. reflexivity. Qed.

(** By induction on the length: the digits after "0x" are read three at a time. *)
Lemma extract_from_sel l w n enc opc_pos param_pos ret ps :
  plain_letter l = true -> (String.length enc <= n)%nat -> 0 <= param_pos ->
  extract_positions l enc opc_pos param_pos = Some ps ->
  0 <= ret -> ret + 2 ^ param_pos <= 2 ^ 64 ->
  Z.of_nat (length ps) = param_pos /\
  extract_from l w enc opc_pos param_pos ret = ret + sel w (rev ps).
Proof.
  unfold plain_letter. rewrite !andb_true_iff, !negb_true_iff. intros ((Hl & H0) & H1).
  revert enc opc_pos param_pos ret ps. induction n as [|n IH]; intros enc opc param ret ps Hn Hp E Hr Hb.
  { destruct enc; cbn in Hn; [|lia]. cbn in *. destruct (Z.eqb_spec param 0); simplify_eq. cbn. lia. }
  destruct enc as [|c t].
  { cbn in *. destruct (Z.eqb_spec param 0); simplify_eq. cbn. lia. }
  cbn [extract_positions extract_from] in *. cbn [String.length] in Hn.
  destruct (is_0x (String c t)).
  { destruct t as [|c1 [|c2 t']]; try discriminate. rewrite H0, H1. cbn [orb String.length] in *.
    apply IH; try lia; exact E. }
  destruct ((c =? "0")%char || (c =? "1")%char) eqn:Ed.
  { replace (l =? c)%char with false.
    - apply IH; try lia; exact E.
    - symmetry. destruct (Ascii.eqb_spec l c) as [->|]; [|reflexivity]. rewrite H0, H1 in Ed. discriminate. }
  destruct (c =? l)%char; [|destruct (isalpha c); [|destruct (c =? "-")%char]; apply IH; try lia; exact E].
  destruct ((0 <=? opc - 1) && (1 <=? param)) eqn:Hc; [|discriminate].
  rewrite andb_true_iff in Hc. destruct Hc as [Hc0 Hc1]. apply Z.leb_le in Hc0, Hc1.
  destruct (extract_positions l t (opc - 1) (param - 1)) as [qs|] eqn:Eq; [|discriminate]. cbn in E.
  injection E as <-. rewrite Hl, bit_sel by lia. cbn [sel]. set (b := b2z _ + 2 * 0).
  assert (Hbit : 0 <= b <= 1) by (unfold b; destruct (Z.testbit w (opc - 1)); cbn; lia).
  assert (E2 : 2 ^ param = 2 * 2 ^ (param - 1)) by (rewrite <- Z.pow_succ_r by lia; f_equal; lia).
  assert (Eb : u64 (Z.shiftl b (param - 1)) = b * 2 ^ (param - 1)).
  { rewrite Z.shiftl_mul_pow2 by lia. apply wrap_small, inty_U64. nia. }
  rewrite Eb. assert (Er : u64 (ret + b * 2 ^ (param - 1)) = ret + b * 2 ^ (param - 1)).
  { apply wrap_small, inty_U64. nia. }
  rewrite Er. destruct (IH t (opc - 1) (param - 1) (ret + b * 2 ^ (param - 1)) qs) as [El ->];
    try first [lia | exact Eq | nia].
  split; [cbn; lia|]. cbn [rev]. rewrite sel_app, length_rev, El. cbn [sel]. unfold b. lia.
Qed.

Lemma extract_sel l w enc ps :
  plain_letter l = true -> 0 <= count_param l EmptyString enc <= 32 ->
  extract_positions l enc 32 (count_param l EmptyString enc) = Some ps ->
  or1ksim_or32_extract l enc w = sel w (rev ps) /\ (length ps <= 32)%nat.
Proof.
  intros Hl Hc E. unfold or1ksim_or32_extract.
  pose proof (Z.pow_le_mono_r 2 (count_param l EmptyString enc) 32 ltac:(lia) ltac:(lia)).
  edestruct (extract_from_sel l w (String.length enc)) as [El ->]; try exact E; try lia; try assumption.
Qed.

(** ** Extension *)

(** The value of [n] bits, by the sign bit when [sg]. *)
Definition extended (sg : bool) (n v : Z) : Z := if sg && Z.testbit v (n - 1) then v - 2 ^ n else v.

Lemma lor_neg n v : 0 <= n -> 0 <= v < 2 ^ n -> Z.lor v (- 2 ^ n) = v - 2 ^ n.
Proof. intros. replace (- 2 ^ n) with ((-1) * 2 ^ n) by lia. rewrite Z.lor_comm, lor_low by lia. lia. Qed.

(** Or-ing a mask of high bits, truncated to 32 bits. *)
Lemma u32_lor_high a b c : u32 b = u32 c -> u32 (Z.lor a b) = u32 (Z.lor a c).
Proof.
  intros E. apply Z.bits_inj'. intros i Hi. rewrite !testbit_u32, !Z.lor_spec by lia.
  pose proof (f_equal (fun z => Z.testbit z i) E) as Hb. cbv beta in Hb. rewrite !testbit_u32 in Hb by lia.
  destruct (i <? 32); rewrite ?andb_true_r, ?andb_false_r in *; congruence.
Qed.

Lemma lor_shift_sign n v :
  1 <= n -> 0 <= v < 2 ^ n -> Z.testbit v (n - 1) = true -> Z.lor v (- 2 ^ (n - 1)) = Z.lor v (- 2 ^ n).
Proof.
  intros Hn Hv Hb. apply Z.bits_inj'. intros i Hi. rewrite !Z.lor_spec.
  replace (- 2 ^ (n - 1)) with (Z.lnot (2 ^ (n - 1) - 1)) by (unfold Z.lnot; lia).
  replace (- 2 ^ n) with (Z.lnot (2 ^ n - 1)) by (unfold Z.lnot; lia).
  rewrite !Z.lnot_spec by lia.
  replace (2 ^ (n - 1) - 1) with (Z.ones (n - 1)) by (rewrite Z.ones_equiv; lia).
  replace (2 ^ n - 1) with (Z.ones n) by (rewrite Z.ones_equiv; lia).
  destruct (Z.lt_ge_cases i (n - 1)); [by rewrite !Z.ones_spec_low by lia|].
  destruct (Z.eq_dec i (n - 1)) as [->|]; [by rewrite Hb|]. by rewrite !Z.ones_spec_high by lia.
Qed.

Lemma sign_operand_extended sg n v o :
  nz (Z.land (type o) OPTYPE_SIG) = sg ->
  (sg = true -> Z.shiftr (Z.land (type o) OPTYPE_SBIT) OPTYPE_SBIT_SHR = n - 1) ->
  1 <= n <= 31 -> 0 <= v < 2 ^ n -> u32 (sign_operand o v) = u32 (extended sg n v).
Proof.
  intros Es Hb Hn Hv. unfold sign_operand, extended. rewrite Es. destruct sg; [|reflexivity].
  rewrite Hb by reflexivity. cbn [andb]. rewrite Z.shiftl_1_l.
  pose proof (Z.pow_le_mono_r 2 (n - 1) 30 ltac:(lia) ltac:(lia)). pose proof (Z.pow_pos_nonneg 2 (n - 1)).
  rewrite s32_small, (wrap_small U64), nz_land_bit by (try apply inty_U64; lia).
  destruct (Z.testbit v (n - 1)) eqn:Et; [|reflexivity].
  transitivity (u32 (Z.lor v (- 2 ^ n))); [|by rewrite lor_neg by lia].
  rewrite <- lor_shift_sign by (auto; lia). apply u32_lor_high.
  change (u32 (Z.lnot 0)) with (2 ^ 32 - 1). rewrite Z.shiftl_mul_pow2 by lia. rewrite wrap_wrap.
  rewrite !u32_eq. replace ((2 ^ 32 - 1) * 2 ^ (n - 1)) with (- 2 ^ (n - 1) + 2 ^ (n - 1) * 2 ^ 32) by lia.
  apply Z.mod_add. lia.
Qed.

Lemma extend_imm_extended l n m v :
  letter_range l = Some m -> 1 <= n <= m -> m <= 31 -> (letter_signed l = true -> n = m) ->
  0 <= v < 2 ^ n ->
  exists r, or1ksim_extend_imm v l = Some r /\ u32 r = u32 (extended (letter_signed l) n v).
Proof.
  intros Hm Hn Hm31 Hs Hv. unfold or1ksim_extend_imm. rewrite Hm. cbn.
  eexists. split; [reflexivity|].
  pose proof (Z.pow_le_mono_r 2 m 31 ltac:(lia) ltac:(lia)). pose proof (Z.pow_pos_nonneg 2 m).
  pose proof (Z.pow_le_mono_r 2 n m ltac:(lia) ltac:(lia)).
  assert (Em : u64 (s32 (s32 (Z.shiftl 1 m) - 1)) = 2 ^ m - 1).
  { destruct (Z.eq_dec m 31) as [->|]; [reflexivity|].
    pose proof (Z.pow_le_mono_r 2 m 30 ltac:(lia) ltac:(lia)).
    rewrite Z.shiftl_1_l, (s32_small (2 ^ m)), s32_small by lia. apply wrap_small, inty_U64. lia. }
  rewrite Em, land_low by lia. rewrite Z.mod_small by lia. unfold extended.
  destruct (letter_signed l) eqn:El; [|reflexivity]. rewrite (Hs eq_refl) in *. cbn [andb].
  replace (nz (Z.shiftr v (m - 1))) with (Z.testbit v (m - 1)).
  2:{ assert (Hx : 0 <= Z.shiftr v (m - 1) < 2 ^ 1).
      { replace (2 ^ m) with (2 ^ 1 * 2 ^ (m - 1)) in Hv by (rewrite <- Z.pow_add_r by lia; f_equal; lia).
        rewrite Z.shiftr_div_pow2 by lia. split; [apply Z.div_pos; lia|].
        apply Z.div_lt_upper_bound; lia. }
      replace (Z.testbit v (m - 1)) with (Z.testbit (Z.shiftr v (m - 1)) 0)
        by (rewrite Z.shiftr_spec; [f_equal; lia|lia]).
      assert (Z.shiftr v (m - 1) = 0 \/ Z.shiftr v (m - 1) = 1) as [-> | ->] by lia; reflexivity. }
  destruct (Z.testbit v (m - 1)); [|reflexivity].
  transitivity (u32 (Z.lor v (- 2 ^ m))); [|by rewrite lor_neg by lia].
  apply u32_lor_high. replace (Z.lnot (2 ^ m - 1)) with (- 2 ^ m) by (unfold Z.lnot; lia).
  unfold wrap; cbn -[Z.pow]. apply Z.mod_mod_divide. exists (2 ^ 32). reflexivity.
Qed.

(** ** Comparing the two readings *)

(** The operands of an argument string: a register ("rD") or an immediate. *)
Fixpoint operand_letters (args : string) : list (bool * ascii) :=
  match args with
  | EmptyString => []
  | String c t =>
      if (c =? "r")%char then
        match t with String l t => (true, l) :: operand_letters t | EmptyString => [] end
      else if isalpha c then (false, c) :: operand_letters t
      else operand_letters t
  end.

(** The operand as the disassembler prints it: a register number, or an
    extended immediate. *)
Definition disassembled_operand (enc : string) (w : Z) (op : bool * ascii) : option Z :=
  let v := or1ksim_or32_extract (snd op) enc w in
  if fst op then Some (u32 v) else u32 <$> or1ksim_extend_imm v (snd op).

(** The descriptors after the operand, and whether it was the last. *)
Fixpoint after_operand (opds : list insn_op_struct) : option (bool * list insn_op_struct) :=
  match opds with
  | [] => None
  | opd :: rest =>
      if nz (Z.land (type opd) OPTYPE_OP) then Some (nz (Z.land (type opd) OPTYPE_LAST), rest)
      else after_operand rest
  end.

(** All operands of the instruction, as [dump_exe_log] walks them. *)
Fixpoint operand_values (fuel : nat) (w : Z) (opds : list insn_op_struct) : option (list Z) :=
  match fuel with
  | O => None
  | S fuel =>
      v ← eval_operand_val w opds;
      '(last, rest) ← after_operand opds;
      if last : bool then Some [v] else vs ← operand_values fuel w rest; Some (v :: vs)
  end.

(** The descriptors and the encoding name the same bits, and the extension
    follows the letter. *)
Definition check_operand (enc : string) (op : bool * ascii) (opds : list insn_op_struct) : bool :=
  match field_positions opds 0, extract_positions (snd op) enc 32 (count_param (snd op) EmptyString enc) with
  | Some (opd, ps), Some qs =>
      let n := Z.of_nat (length ps) in
      bool_decide (ps = rev qs) && plain_letter (snd op)
      && (count_param (snd op) EmptyString enc <=? 32) && (0 <=? count_param (snd op) EmptyString enc)
      && (1 <=? n) && (n <=? 31)
      && (if fst op then negb (nz (Z.land (type opd) OPTYPE_SIG))
          else match letter_range (snd op) with
               | None => false
               | Some m =>
                   (n <=? m) && (m <=? 31)
                   && eqb (nz (Z.land (type opd) OPTYPE_SIG)) (letter_signed (snd op))
                   && (negb (letter_signed (snd op))
                       || (n =? m) && (Z.shiftr (Z.land (type opd) OPTYPE_SBIT) OPTYPE_SBIT_SHR =? n - 1))
               end)
  | _, _ => false
  end.
Fixpoint check_operands (enc : string) (ops : list (bool * ascii)) (opds : list insn_op_struct) : bool :=
  match ops with
  | [] => false
  | op :: ops =>
      check_operand enc op opds &&
      match after_operand opds with
      | None => false
      | Some (last, rest) =>
          if last : bool then bool_decide (ops = []) else check_operands enc ops rest
      end
  end.

(** Both readings are the extension of the same [n] bits. *)
Lemma check_operand_bits enc w op opds :
  check_operand enc op opds = true ->
  exists n v, 1 <= n <= 31 /\ 0 <= v < 2 ^ n /\ or1ksim_or32_extract (snd op) enc w = v /\
    let r := u32 (extended (negb (fst op) && letter_signed (snd op)) n v) in
    eval_operand_val w opds = Some r /\ disassembled_operand enc w op = Some r.
Proof.
  unfold check_operand, eval_operand_val, disassembled_operand. destruct op as [reg l]; cbn [fst snd].
  destruct (field_positions opds 0) as [[opd ps]|] eqn:Ef; [|discriminate].
  destruct (extract_positions l enc 32 _) as [qs|] eqn:Eq; [|discriminate].
  rewrite !andb_true_iff, !Z.leb_le. intros ((((((Ep & Hl) & Hc32) & Hc0) & Hn1) & Hn31) & Hk).
  apply bool_decide_eq_true_1 in Ep.
  destruct (extract_sel l w enc qs Hl ltac:(lia) Eq) as [-> _]. rewrite <- Ep.
  rewrite (operand_fields_sel w _ _ _ _ _ Ef) by lia.
  replace (0 + 2 ^ 0 * sel w ps) with (sel w ps) by lia. cbn.
  exists (Z.of_nat (length ps)), (sel w ps). split; [lia|]. split; [apply sel_range|]. split; [reflexivity|].
  pose proof (sel_range w ps) as Hr. set (n := Z.of_nat (length ps)) in *. destruct reg; cbn [negb andb].
  - rewrite negb_true_iff in Hk. by rewrite (sign_operand_extended false n) by (try lia; done).
  - destruct (letter_range l) as [m|] eqn:Em; [|discriminate].
    rewrite !andb_true_iff, !Z.leb_le, eqb_true_iff in Hk. destruct Hk as (((Hnm & Hm) & Es) & Hs).
    assert (Hs' : letter_signed l = true ->
      n = m /\ Z.shiftr (Z.land (type opd) OPTYPE_SBIT) OPTYPE_SBIT_SHR = n - 1).
    { intros El. rewrite El in Hs. cbn in Hs. rewrite andb_true_iff, !Z.eqb_eq in Hs. exact Hs. }
    destruct (extend_imm_extended l n m (sel w ps)) as (r & -> & Er);
      try lia; try exact Em; [by intros; apply Hs'|].
    cbn. rewrite Er. split; [|reflexivity]. f_equal. apply sign_operand_extended; auto; try lia.
    by intros; apply Hs'.
Qed.

(** Registers and unsigned immediates need no extension. *)
Lemma check_operand_plain enc w op opds :
  check_operand enc op opds = true -> negb (fst op) && letter_signed (snd op) = false ->
  disassembled_operand enc w op = Some (s32 (or1ksim_or32_extract (snd op) enc w)).
Proof.
  intros Hc Hs. destruct (check_operand_bits enc w op opds Hc) as (n & v & Hn & Hv & -> & _ & ->).
  rewrite Hs. cbn. pose proof (Z.pow_le_mono_r 2 n 31). f_equal.
  rewrite u32_small, s32_small by lia. reflexivity.
Qed.

Lemma check_operands_in enc ops opds op :
  check_operands enc ops opds = true -> In op ops -> exists opds', check_operand enc op opds' = true.
Proof.
  revert opds. induction ops as [|op' ops IH]; intros opds; cbn [check_operands]; [discriminate|].
  rewrite andb_true_iff. intros [Ho Hr] [->|Hin]; [eauto|].
  destruct (after_operand opds) as [[[] rest]|]; [|eauto|discriminate].
  apply bool_decide_eq_true_1 in Hr as ->. destruct Hin.
Qed.

Lemma check_operands_sound enc w ops opds :
  check_operands enc ops opds = true ->
  exists vs, operand_values (length ops) w opds = Some vs /\ mapM (disassembled_operand enc w) ops = Some vs.
Proof.
  revert opds. induction ops as [|op ops IH]; intros opds; cbn [check_operands]; [discriminate|].
  rewrite andb_true_iff. intros [Ho Hr].
  destruct (check_operand_bits enc w op opds Ho) as (n & v & _ & _ & _ & Ev & Ed).
  destruct (after_operand opds) as [[last rest]|] eqn:Ea; [|discriminate].
  cbn. rewrite Ev, Ed, Ea. cbn. destruct last.
  - apply bool_decide_eq_true_1 in Hr as ->. eexists. split; reflexivity.
  - destruct (IH rest Hr) as (vs & -> & ->). eexists. split; reflexivity.
Qed.

Definition opds_of (t : tables) (i : nat) : option (list insn_op_struct) :=
  start ← or1ksim_op_start t !! i; Some (drop (Z.to_nat start) (op_data t)).

(** Opcodes without arguments have one dummy operand, register 0. *)
Definition expected_letters (o : or32_opcode) (w : Z) : option (list Z) :=
  match args o with
  | EmptyString => Some [0]
  | a => mapM (disassembled_operand (encoding o) w) (operand_letters a)
  end.

Definition check_opcode (t : tables) (i : nat) (o : or32_opcode) : bool :=
  match opds_of t i with
  | None => false
  | Some opds =>
      match args o with
      | EmptyString =>
          match opds with
          | opd :: _ => (type opd =? Z.lor (Z.lor OPTYPE_REG OPTYPE_OP) OPTYPE_LAST) && (data opd =? 0)
          | [] => false
          end
      | a => check_operands (encoding o) (operand_letters a) opds && (length (operand_letters a) <=? 5)%nat
      end
  end.

Lemma operand_values_fuel n m w opds vs :
  operand_values n w opds = Some vs -> (n <= m)%nat -> operand_values m w opds = Some vs.
Proof.
  revert m opds vs. induction n as [|n IH]; intros m opds vs; cbn [operand_values]; [discriminate|].
  destruct m as [|m]; [lia|]. intros E Hm. cbn [operand_values].
  destruct (eval_operand_val w opds); cbn in *; [|discriminate].
  destruct (after_operand opds) as [[[] rest]|]; cbn in *; [exact E| |discriminate].
  destruct (operand_values n w rest) eqn:Er; [|discriminate]. by rewrite (IH m _ _ Er) by lia.
Qed.

Definition check_all_operands (t : tables) : bool :=
  forallb id (imap (check_opcode t) or1ksim_or32_opcodes).

Lemma all_operands_checked :
  exists t, or1ksim_build_automata = Some t /\ check_all_operands t = true.
Proof.
  destruct (option_map check_all_operands or1ksim_build_automata) as [b|] eqn:E.
  2:{ exfalso. revert E. vm_compute. discriminate. }
  assert (b = true) as -> by (apply (inj Some); rewrite <- E; vm_compute; reflexivity).
  destruct or1ksim_build_automata as [t|]; [|discriminate]. injection E as E. eauto.
Qed.

Lemma dummy_operand w opds :
  eval_operand_val w (InsnOp (Z.lor (Z.lor OPTYPE_REG OPTYPE_OP) OPTYPE_LAST) 0 :: opds) = Some 0.
Proof.
  unfold eval_operand_val. cbn [operand_fields data type].
  change (u32 (s32 (s32 (Z.shiftl 1 0) - 1))) with 0. rewrite Z.land_0_r. reflexivity.
Qed.

(** The operands of a row of the table, by its argument string. *)
Lemma checked_opcode t i o w :
  check_all_operands t = true -> or1ksim_or32_opcodes !! i = Some o ->
  check_opcode t i o = true /\
  exists opds vs, opds_of t i = Some opds /\ operand_values 5 w opds = Some vs /\
    expected_letters o w = Some vs.
Proof.
  intros Hc Ho. unfold check_all_operands in Hc. rewrite forallb_forall in Hc.
  assert (Hi : check_opcode t i o = true)
    by (apply Hc, list_elem_of_In, elem_of_lookup_imap; eauto).
  split; [exact Hi|]. unfold check_opcode, expected_letters in *.
  destruct (opds_of t i) as [opds|]; [|discriminate].
  exists opds. destruct (args o) as [|c a].
  - destruct opds as [|opd opds]; [discriminate|]. rewrite andb_true_iff, !Z.eqb_eq in Hi.
    destruct opd as [ty d]; cbn in Hi; destruct Hi as [-> ->].
    exists [0]. split; [reflexivity|]. cbn [operand_values]. rewrite dummy_operand. split; reflexivity.
  - rewrite andb_true_iff, Nat.leb_le in Hi. destruct Hi as [Hi Hn].
    destruct (check_operands_sound _ w _ _ Hi) as (vs & Ev & Em). exists vs.
    split; [reflexivity|]. split; [|exact Em]. by eapply operand_values_fuel.
Qed.

(** C20: for every opcode and every instruction word, gathering the operands
    from the descriptors [parse_params] made gives the same numbers as the
    disassembler's scan of the encoding: the register numbers, and the
    immediates zero- or sign-extended to 32 bits. *)
Theorem operands_correct :
  exists t, or1ksim_build_automata = Some t /\
    forall i o w, or1ksim_or32_opcodes !! i = Some o ->
      exists opds vs, opds_of t i = Some opds /\ operand_values 5 w opds = Some vs /\
        expected_letters o w = Some vs.
Proof.
  destruct all_operands_checked as (t & Et & Hc). exists t. split; [exact Et|].
  intros i o w Ho. by apply (checked_opcode t i o w).
Qed.
End Operands.
