(* ===== verification/Disasm.v ===== *)
(** * The disassembler

    The part of cpu/or32/or32.c that prints instructions: the disassembly of
    one instruction ([or1ksim_disassemble_index]) and the variant that feeds
    the execution trace ([or1ksim_disassemble_trace_index]), which also records
    what the instruction will write.  A text is the contents of the buffer
    [disassembled_str] up to the NUL. *)

From S2P Require Export Operands.
From stdpp Require Export pretty.

Module Disasm.
Import Or32 Decode Operands.

#[local] Open Scope string_scope.
#[local] Open Scope Z_scope.

(** ** Numbers *)

Definition hex_char (d : Z) : ascii :=
  ascii_of_N (Z.to_N (if d <? 10 then 48 + d else 87 + d)).
Fixpoint hex_from (fuel : nat) (z : Z) (acc : string) : string :=
  match fuel with
  | O => acc
  | S fuel =>
      let acc := String (hex_char (z mod 16)) acc in
      if z / 16 =? 0 then acc else hex_from fuel (z / 16) acc
  end.
(** "%x" of a 32-bit number, and with leading zeros ("%08x"). *)
Definition print_x (z : Z) : string := hex_from 8 z EmptyString.
Fixpoint pad_left (n : nat) (s : string) : string :=
  match n with O => s | S n => pad_left n (String "0" s) end.
Definition print_08x (z : Z) : string :=
  let s := hex_from 16 z EmptyString in pad_left (8 - String.length s) s.

(** ** [or1ksim_disassemble_index] *)

Definition or32_print_register (param_ch : ascii) (enc : string) (insn : Z) : string :=
  String "r" (pretty (s32 (or1ksim_or32_extract param_ch enc insn))).

Definition or32_print_immediate (param_ch : ascii) (enc : string) (insn : Z) : option string :=
  let imm := s32 (or1ksim_or32_extract param_ch enc insn) in
  imm ← or1ksim_extend_imm (u64 imm) param_ch;
  let imm := s32 imm in
  Some (if letter_signed param_ch then
          if imm <? 0 then pretty imm else String.append "0x" (print_x imm)
        else if u32 imm =? 0 then "0" else String.append "0x" (print_x (u32 imm))).

(** The loop over the argument string. *)
Fixpoint print_args (enc : string) (insn : Z) (args : string) : option string :=
  match args with
  | EmptyString => Some EmptyString
  | String c t =>
      if (c =? "r")%char then
        match t with
        | EmptyString => None
        | String l t => rest ← print_args enc insn t; Some (String.append (or32_print_register l enc insn) rest)
        end
      else if strchr enc c then
        i ← or32_print_immediate c enc insn; rest ← print_args enc insn t; Some (String.append i rest)
      else rest ← print_args enc insn t; Some (String c rest)
  end.

Definition or1ksim_disassemble_index (insn index : Z) : option string :=
  if 0 <=? index then
    opcode ← or1ksim_or32_opcodes !! Z.to_nat index;
    operands ← print_args (encoding opcode) insn (args opcode);
    Some (String.append (name opcode) (String " " operands))
  else Some (String.append ".word 0x" (print_08x insn)).

Definition or1ksim_disassemble_insn (t : tables) (insn : Z) : option string :=
  index ← or1ksim_insn_decode t insn; or1ksim_disassemble_index insn index.

(** ** [or1ksim_disassemble_trace_index] *)

Definition OPC_WIDTH : nat := 8.

(** "Copy the opcode and pad": blanks are added up to the width, and [dest] is
    left at offset [OPC_WIDTH] even when the name is longer; printing operands
    there overwrites the rest of the name. *)
Fixpoint pad_right (n : nat) (s : string) : string :=
  match n, s with
  | O, _ => s
  | S n, EmptyString => String " " (pad_right n EmptyString)
  | S n, String c s => String c (pad_right n s)
  end.
Fixpoint take_chars (n : nat) (s : string) : string :=
  match n, s with
  | S n, String c s => String c (take_chars n s)
  | _, _ => EmptyString
  end.
Definition print_trace (opcode : or32_opcode) (insn : Z) : option string :=
  let opc := pad_right OPC_WIDTH (name opcode) in
  operands ← print_args (encoding opcode) insn (args opcode);
  Some (match operands with
        | EmptyString => opc
        | _ => String.append (take_chars OPC_WIDTH opc) operands
        end).

(** The [trace_*] variables. *)
Record trace := Trace {
  trace_dest_reg : Z; trace_store_addr_reg : Z; trace_store_imm : Z;
  trace_store_val_reg : Z; trace_store_width : Z; trace_dest_spr : Z }.

Definition no_trace : trace := Trace (-1) (-1) 0 (-1) 0 (-1).

(** "Is it a store opcode?", "Is it a move to SPR opcode?" *)
Definition trace_start (nm : string) : trace :=
  Trace (-1) (-1) 0 (-1)
    (if (nm =? "l.sb")%string then 1 else if (nm =? "l.sh")%string then 2
     else if (nm =? "l.sw")%string then 4 else 0)
    (if (nm =? "l.mtspr")%string then 1 else -1).

Definition trace_register (enc : string) (insn : Z) (l : ascii) (tr : trace) : trace :=
  let '(Trace dr sa si sv sw ds) := tr in
  let r := s32 (or1ksim_or32_extract l enc insn) in
  if (l =? "D")%char then Trace r sa si sv sw ds
  else if (l =? "A")%char then Trace dr (if nz sw then r else sa) si sv sw ds
  else if (l =? "B")%char then Trace dr sa si (if nz sw then r else sv) sw ds
  else tr.

Definition trace_immediate (enc : string) (insn : Z) (l : ascii) (tr : trace) : option trace :=
  let '(Trace dr sa si sv sw ds) := tr in
  si ← (if nz sw then u32 <$> or1ksim_extend_imm (u32 (or1ksim_or32_extract l enc insn)) l else Some si);
  Some (if ds =? 1
        then Trace (s32 (or1ksim_or32_extract "A" enc insn)) sa si sv sw
                   (s32 (or1ksim_or32_extract "K" enc insn))
        else Trace dr sa si sv sw ds).

Fixpoint trace_args (enc : string) (insn : Z) (args : string) (tr : trace) : option trace :=
  match args with
  | EmptyString => Some tr
  | String c t =>
      if (c =? "r")%char then
        match t with
        | EmptyString => None
        | String l t => trace_args enc insn t (trace_register enc insn l tr)
        end
      else if strchr enc c then tr ← trace_immediate enc insn c tr; trace_args enc insn t tr
      else trace_args enc insn t tr
  end.

Definition or1ksim_disassemble_trace_index (insn index : Z) : option (string * trace) :=
  if 0 <=? index then
    opcode ← or1ksim_or32_opcodes !! Z.to_nat index;
    text ← print_trace opcode insn;
    tr ← trace_args (encoding opcode) insn (args opcode) (trace_start (name opcode));
    Some (text, tr)
  else Some (String.append ".word 0x" (print_08x insn), no_trace).

(** ** The trace data and the operands *)

(** What the trace should report of an instruction with operand values [vs]:
    for a store the address register, the offset, the value register and the
    width; for [l.mtspr] the SPR offset and the register it is indexed by;
    otherwise the destination register, if there is one. *)
Definition expected_trace (o : or32_opcode) (vs : list Z) : trace :=
  let v k := default 0 (vs !! k) in
  if (name o =? "l.sb")%string then Trace (-1) (v 1%nat) (v 0%nat) (v 2%nat) 1 (-1)
  else if (name o =? "l.sh")%string then Trace (-1) (v 1%nat) (v 0%nat) (v 2%nat) 2 (-1)
  else if (name o =? "l.sw")%string then Trace (-1) (v 1%nat) (v 0%nat) (v 2%nat) 4 (-1)
  else if (name o =? "l.mtspr")%string then Trace (v 0%nat) (-1) 0 (-1) 0 (v 2%nat)
  else Trace (if String.prefix "rD" (args o) then v 0%nat else -1) (-1) 0 (-1) 0 (-1).

(** No (further) "rD" among the arguments. *)
Fixpoint no_dest (args : string) : bool :=
  match args with
  | EmptyString => true
  | String c t =>
      if (c =? "r")%char
      then match t with String l t => negb (l =? "D")%char && no_dest t | EmptyString => false end
      else no_dest t
  end.
Definition skip2 (s : string) : string := match s with String _ (String _ t) => t | _ => EmptyString end.

Fixpoint printable (enc args : string) : bool :=
  match args with
  | EmptyString => true
  | String c t =>
      if (c =? "r")%char then match t with String _ t => printable enc t | EmptyString => false end
      else (negb (strchr enc c) || bool_decide (is_Some (letter_range c))) && printable enc t
  end.

Definition is_store (nm : string) : bool :=
  (nm =? "l.sb")%string || (nm =? "l.sh")%string || (nm =? "l.sw")%string.
Definition literal (enc : string) (c : ascii) : bool := negb (strchr enc c).
Definition check_trace (o : or32_opcode) : bool :=
  printable (encoding o) (args o) &&
  if is_store (name o) then
    (args o =? "I(rA),rB")%string && strchr (encoding o) "I" && literal (encoding o) "("
    && literal (encoding o) ")" && literal (encoding o) ","
  else if (name o =? "l.mtspr")%string then
    (args o =? "rA,rB,K")%string && strchr (encoding o) "K" && literal (encoding o) ","
  else no_dest (if String.prefix "rD" (args o) then skip2 (args o) else args o).

Lemma all_traces_checked : forallb check_trace or1ksim_or32_opcodes = true.
Proof. vm_compute. reflexivity. Qed.

Lemma print_args_some enc w args : printable enc args = true -> is_Some (print_args enc w args).
Proof.
  assert (H : forall n args, (String.length args <= n)%nat -> printable enc args = true ->
    is_Some (print_args enc w args)).
  { clear args. induction n as [|n IH]; intros [|c t] Hn; cbn in *; try lia; try done.
    destruct (c =? "r")%char.
    - destruct t as [|l t]; [done|]. cbn in Hn. intros Hp.
      destruct (IH t ltac:(lia) Hp) as [x ->]. cbn. eauto.
    - rewrite andb_true_iff. intros [Hl Hp]. destruct (IH t ltac:(lia) Hp) as [x ->].
      destruct (strchr enc c); [|cbn; eauto]. apply bool_decide_eq_true_1 in Hl as [m Hm].
      unfold or32_print_immediate, or1ksim_extend_imm. rewrite Hm. cbn. eauto. }
  exact (H _ args (Nat.le_refl _)).
Qed.

(** Without a destination and outside the stores and [l.mtspr] the trace stays
    as it is. *)
Lemma trace_args_none enc w args dr :
  no_dest args = true ->
  trace_args enc w args (Trace dr (-1) 0 (-1) 0 (-1)) = Some (Trace dr (-1) 0 (-1) 0 (-1)).
Proof.
  assert (H : forall n args, (String.length args <= n)%nat -> no_dest args = true ->
    trace_args enc w args (Trace dr (-1) 0 (-1) 0 (-1)) = Some (Trace dr (-1) 0 (-1) 0 (-1))).
  { clear args. induction n as [|n IH]; intros [|c t] Hn; cbn in *; try lia; try done.
    destruct (c =? "r")%char.
    - destruct t as [|l t]; [done|]. cbn in Hn. rewrite andb_true_iff, negb_true_iff. intros [-> Hp].
      replace (if (l =? "A")%char then _ else _) with (Trace dr (-1) 0 (-1) 0 (-1))
        by (destruct (l =? "A")%char, (l =? "B")%char; reflexivity).
      apply IH; [lia|exact Hp].
    - intros Hp. destruct (strchr enc c); cbn; apply IH; try lia; exact Hp. }
  exact (H _ args (Nat.le_refl _)).
Qed.

(** A plain operand of the row is reported as it is extracted. *)
Lemma row_plain t i o w op :
  check_opcode t i o = true -> In op (operand_letters (args o)) ->
  negb (fst op) && letter_signed (snd op) = false ->
  disassembled_operand (encoding o) w op = Some (s32 (or1ksim_or32_extract (snd op) (encoding o) w)).
Proof.
  unfold check_opcode. destruct (opds_of t i) as [opds|]; [|discriminate].
  destruct (args o) as [|c a] eqn:Ea; [intros _ []|]. rewrite <- Ea, andb_true_iff. intros [Hc _] Hin Hs.
  destruct (check_operands_in _ _ _ _ Hc Hin) as (opds' & Ho). by apply (check_operand_plain _ w _ opds').
Qed.

Lemma row_small t i o w op :
  check_opcode t i o = true -> In op (operand_letters (args o)) ->
  u32 (or1ksim_or32_extract (snd op) (encoding o) w) = or1ksim_or32_extract (snd op) (encoding o) w.
Proof.
  unfold check_opcode. destruct (opds_of t i) as [opds|]; [|discriminate].
  destruct (args o) as [|c a] eqn:Ea; [intros _ []|]. rewrite <- Ea, andb_true_iff. intros [Hc _] Hin.
  destruct (check_operands_in _ _ _ _ Hc Hin) as (opds' & Ho).
  destruct (check_operand_bits _ w _ _ Ho) as (n & v & Hn & Hv & -> & _).
  pose proof (Z.pow_le_mono_r 2 n 31). apply u32_small. lia.
Qed.

#[local] Arguments disassembled_operand : simpl never.
#[local] Arguments or1ksim_or32_extract : simpl never.

Lemma trace_store t i o w vs sw :
  check_opcode t i o = true -> args o = "I(rA),rB" -> nz sw = true ->
  strchr (encoding o) "I" && literal (encoding o) "("
    && literal (encoding o) ")" && literal (encoding o) "," = true ->
  expected_letters o w = Some vs ->
  trace_args (encoding o) w (args o) (Trace (-1) (-1) 0 (-1) sw (-1)) =
    Some (Trace (-1) (default 0 (vs !! 1%nat)) (default 0 (vs !! 0%nat)) (default 0 (vs !! 2%nat)) sw (-1)).
Proof.
  intros Hc Ea Hsw Hl Ev. pose proof (fun op => row_plain t i o w op Hc) as Hp.
  pose proof (row_small t i o w (false, "I"%char) Hc) as Hs. unfold expected_letters in Ev.
  rewrite Ea in *. unfold literal in Hl. rewrite !andb_true_iff, !negb_true_iff in Hl.
  destruct Hl as (((HI & Ho) & Hr) & Hcm). cbv beta iota in Ev.
  change (operand_letters "I(rA),rB")
    with [(false, "I"); (true, "A"); (true, "B")]%char in *. cbn in Hp, Hs. cbn in Ev.
  rewrite (Hp (true, "A"%char)), (Hp (true, "B"%char)) in Ev by (cbn; auto).
  cbn in Ev. unfold disassembled_operand in Ev. cbn in Ev. cbn. rewrite HI, Ho, Hr, Hcm. cbn.
  rewrite Hs by auto.
  destruct (or1ksim_extend_imm _ _); cbn in *; [|discriminate]. injection Ev as <-.
  rewrite Hsw. cbn. rewrite !Hsw. reflexivity.
Qed.

Lemma trace_mtspr t i o w vs :
  check_opcode t i o = true -> args o = "rA,rB,K" ->
  strchr (encoding o) "K" && literal (encoding o) "," = true ->
  expected_letters o w = Some vs ->
  trace_args (encoding o) w (args o) (Trace (-1) (-1) 0 (-1) 0 1) =
    Some (Trace (default 0 (vs !! 0%nat)) (-1) 0 (-1) 0 (default 0 (vs !! 2%nat))).
Proof.
  intros Hc Ea Hl Ev. pose proof (fun op => row_plain t i o w op Hc) as Hp. unfold expected_letters in Ev.
  rewrite Ea in *. unfold literal in Hl. rewrite !andb_true_iff, !negb_true_iff in Hl.
  destruct Hl as (HK & Hcm). cbv beta iota in Ev.
  change (operand_letters "rA,rB,K")
    with [(true, "A"); (true, "B"); (false, "K")]%char in *. cbn in Hp. cbn in Ev.
  rewrite (Hp (true, "A"%char)), (Hp (true, "B"%char)), (Hp (false, "K"%char)) in Ev by (cbn; auto).
  cbn in Ev. injection Ev as <-. cbn. rewrite HK, Hcm. reflexivity.
Qed.

#[local] Arguments ascii_dec : simpl never.

Lemma trace_plain t i o w vs :
  check_opcode t i o = true ->
  no_dest (if String.prefix "rD" (args o) then skip2 (args o) else args o) = true ->
  expected_letters o w = Some vs ->
  trace_args (encoding o) w (args o) (Trace (-1) (-1) 0 (-1) 0 (-1)) =
    Some (Trace (if String.prefix "rD" (args o) then default 0 (vs !! 0%nat) else -1) (-1) 0 (-1) 0 (-1)).
Proof.
  intros Hc Hn Ev. pose proof (fun op => row_plain t i o w op Hc) as Hp. unfold expected_letters in Ev.
  destruct (String.prefix "rD" (args o)) eqn:Er; [|by apply trace_args_none].
  destruct (args o) as [|c [|l a]]; [discriminate| |].
  { cbn in Er. by destruct (ascii_dec "r" c). }
  cbn in Er. destruct (ascii_dec "r" c) as [<-|]; [|discriminate].
  destruct (ascii_dec "D" l) as [<-|]; [|discriminate]. cbn in Ev, Hp, Hn.
  rewrite (Hp (true, "D"%char)) in Ev by (cbn; auto). cbn in Ev.
  destruct (mapM _ _) as [rest|]; [|discriminate]. cbn in Ev. injection Ev as <-.
  cbn. by apply trace_args_none.
Qed.

Lemma trace_args_row t i o w vs :
  check_opcode t i o = true -> check_trace o = true -> expected_letters o w = Some vs ->
  trace_args (encoding o) w (args o) (trace_start (name o)) = Some (expected_trace o vs).
Proof.
  intros Hc Ht Ev. unfold check_trace, is_store in Ht. rewrite andb_true_iff in Ht. destruct Ht as [_ Ht].
  unfold expected_trace, trace_start.
  assert (Hm : (name o =? "l.mtspr")%string = true ->
    (name o =? "l.sb")%string = false /\ (name o =? "l.sh")%string = false /\ (name o =? "l.sw")%string = false)
    by (rewrite String.eqb_eq; by intros ->).
  destruct (name o =? "l.sb")%string, (name o =? "l.sh")%string, (name o =? "l.sw")%string,
    (name o =? "l.mtspr")%string; try (destruct Hm as (? & ? & ?); [reflexivity|discriminate]);
    cbn [orb] in Ht; rewrite ?andb_true_iff in Ht;
    try (eapply trace_plain; eassumption);
    try (destruct Ht as ((Ha & ?) & ?); apply String.eqb_eq in Ha; eapply trace_mtspr; try eassumption;
         rewrite andb_true_iff; auto);
    destruct Ht as ((((Ha & ?) & ?) & ?) & ?); apply String.eqb_eq in Ha;
    eapply trace_store; try eassumption; try reflexivity; rewrite !andb_true_iff; auto.
Qed.

(** For every opcode and instruction word the trace disassembler returns a
    text and reports exactly what the instruction writes, with the operand
    values execution uses: for l.sb, l.sh and l.sw the address register, offset,
    value register and width, for l.mtspr the SPR offset and its index
    register, for the others the destination register if they have one. *)
Theorem trace_correct :
  exists t, or1ksim_build_automata = Some t /\
    forall i o w, or1ksim_or32_opcodes !! i = Some o ->
      exists opds vs text, opds_of t i = Some opds /\ operand_values 5 w opds = Some vs /\
        or1ksim_disassemble_trace_index w (Z.of_nat i) = Some (text, expected_trace o vs).
Proof.
  destruct all_operands_checked as (t & Et & Hc). exists t. split; [exact Et|]. intros i o w Ho.
  destruct (checked_opcode t i o w Hc Ho) as (Hi & opds & vs & Eo & Ev & El).
  pose proof all_traces_checked as Ht. rewrite forallb_forall in Ht.
  assert (Hto : check_trace o = true) by (apply Ht, list_elem_of_In, list_elem_of_lookup; eauto).
  pose proof Hto as Hpr. unfold check_trace in Hpr. rewrite andb_true_iff in Hpr. destruct Hpr as [Hpr _].
  destruct (print_args_some _ w _ Hpr) as [txt Etxt].
  unfold or1ksim_disassemble_trace_index, print_trace.
  destruct (Z.leb_spec 0 (Z.of_nat i)); [|lia]. rewrite Nat2Z.id, Ho. cbn [mbind option_bind].
  rewrite Etxt. cbn [mbind option_bind]. rewrite (trace_args_row t i o w vs Hi Hto El).
  exists opds, vs. eexists. repeat split; try eassumption.
Qed.
End Disasm.
