(* ===== verification/Bpb.v ===== *)
(** * Branch prediction buffer and branch target cache (bpb/branch-predict.c)

    Both only keep statistics: [bpb_update] and [btic_update] record whether
    the branch and its target were present. *)

From S2P Require Export Logic.

Module Bpb.

Definition BPB_LEN : Z := 64.
Definition BPB_WAYS : Z := 1.
Definition BPB_PSTATES : Z := 2.
Definition BPB_USTATES : Z := 2.
Definition BTIC_LEN : Z := 128.
Definition BTIC_WAYS : Z := 2.
Definition BTIC_USTATES : Z := 2.

(** "Scan all ways and try to find our addr": the last way that has it. *)
Fixpoint bp_find_way (cell_addr : Z -> cell) (addr : Z) (n : nat) (i way : Z) : M Z :=
  match n with
  | O => ret way
  | S n => a ← rd (cell_addr i); bp_find_way cell_addr addr n (i + 1) (if a =? addr then i else way)
  end.

(** The victim: the last way whose [lru] is below the initial [minlru], which
    the loop does not update. *)
Fixpoint victim_way (lru : Z -> cell) (minlru : Z) (n : nat) (i minway : Z) : M Z :=
  match n with
  | O => ret minway
  | S n => l ← rd (lru i); victim_way lru minlru n (i + 1) (if l <? minlru then i else minway)
  end.

Definition age_ways (lru : Z -> cell) (n : nat) : M unit :=
  for_ n 0 1 (fun i => l ← rd (lru i); when (nz l) (adds (lru i) (-1))).

Definition bpb_update (addr taken : Z) : M unit :=
  enabled ← isset Bpb_enabled;
  if negb enabled then ret tt
  else
    let entry := addr mod BPB_LEN in
    let lru := Bpb_lru entry in
    way ← bp_find_way (Bpb_addr entry) addr (Z.to_nat BPB_WAYS) 0 (-1);
    if 0 <=? way then
      adds (Stat St_bpb_hit) 1;;
      age_ways lru (Z.to_nat BPB_WAYS);;
      wr (lru way) (BPB_USTATES - 1);;
      t ← rd (Bpb_taken entry way);
      (if Z.quot t (BPB_PSTATES / 2) =? taken then adds (Stat St_bpb_correct) 1
       else adds (Stat St_bpb_incorrect) 1);;
      if nz taken && (t <? BPB_PSTATES - 1) then adds (Bpb_taken entry way) 1
      else when (negb (nz taken) && nz t) (adds (Bpb_taken entry way) (-1))
    else
      let minlru := BPB_USTATES - 1 in
      adds (Stat St_bpb_miss) 1;;
      minway ← victim_way lru minlru (Z.to_nat BPB_WAYS) 0 0;
      wr (Bpb_addr entry minway) addr;;
      wr (Bpb_taken entry minway) (BPB_PSTATES / 2 - 1 + taken);;
      age_ways lru (Z.to_nat BPB_WAYS);;
      wr (lru minway) (BPB_USTATES - 1).

Definition btic_update (targetaddr : Z) : M unit :=
  btic ← isset Bpb_btic;
  if negb btic then ret tt
  else
    let entry := targetaddr mod BTIC_LEN in
    let lru := Btic_lru entry in
    way ← bp_find_way (Btic_addr entry) targetaddr (Z.to_nat BTIC_WAYS) 0 (-1);
    if 0 <=? way then
      adds (Stat St_btic_hit) 1;;
      age_ways lru (Z.to_nat BTIC_WAYS);;
      wr (lru way) (BTIC_USTATES - 1)
    else
      let minlru := BTIC_USTATES - 1 in
      adds (Stat St_btic_miss) 1;;
      minway ← victim_way lru minlru (Z.to_nat BTIC_WAYS) 0 0;
      wr (Btic_addr entry minway) targetaddr;;
      age_ways lru (Z.to_nat BTIC_WAYS);;
      wr (lru minway) (BTIC_USTATES - 1).

(** ** Configuration *)

Definition bpb_enabled (val : Z) : M unit := wr Bpb_enabled val.
Definition bpb_btic (val : Z) : M unit := wr Bpb_btic val.
Definition bpb_sbp_bnf_fwd (val : Z) : M unit := wr Bpb_sbp_bnf_fwd val.
Definition bpb_sbp_bf_fwd (val : Z) : M unit := wr Bpb_sbp_bf_fwd val.
Definition bpb_missdelay (val : Z) : M unit := wr Bpb_missdelay val.
Definition bpb_hitdelay (val : Z) : M unit := wr Bpb_hitdelay val.

(** ** Typing and footprint *)

(** The statistics and the tables of this file. *)
Definition bp_cell (c : cell) : Prop :=
  match c with
  | Stat _ | Bpb_addr _ _ | Bpb_taken _ _ | Bpb_lru _ _ | Btic_addr _ _ | Btic_lru _ _ => True
  | _ => False
  end.
#[export] Instance writes_bp R : Writes plain R -> Writes bp_cell R.
Proof. apply writes_sub. by intros []. Qed.

#[export] Hint Opaque bpb_update btic_update : typeclass_instances.

Lemma bp_find_way_respects R `{!PreOrder R} ca a n i w : Respects R (bp_find_way ca a n i w).
Proof. revert i w. induction n as [|n IH]; intros; cbn; respects. Qed.
Lemma victim_way_respects R `{!PreOrder R} l m n i w : Respects R (victim_way l m n i w).
Proof. revert i w. induction n as [|n IH]; intros; cbn; respects. Qed.
#[export] Hint Extern 0 (Respects _ (bp_find_way _ _ _ _ _)) => apply bp_find_way_respects; typeclasses eauto : typeclass_instances.
#[export] Hint Extern 0 (Respects _ (victim_way _ _ _ _ _)) => apply victim_way_respects; typeclasses eauto : typeclass_instances.

#[export] Instance bpb_update_typed R `{!Writes bp_cell R} a t : Respects R (bpb_update a t).
Proof. unfold bpb_update, age_ways. respects. Qed.
#[export] Instance btic_update_typed R `{!Writes bp_cell R} a : Respects R (btic_update a).
Proof. unfold btic_update, age_ways. respects. Qed.

Lemma btic_update_lists a : Respects same_lists (btic_update a).
Proof. unfold btic_update, age_ways. respects. Qed.
#[export] Instance bp_find_way_total ca a n i w : Total (bp_find_way ca a n i w).
Proof. revert i w. induction n as [|n IH]; intros; cbn; total; apply IH. Qed.
#[export] Instance victim_way_total l m n i w : Total (victim_way l m n i w).
Proof. revert i w. induction n as [|n IH]; intros; cbn; total; apply IH. Qed.
#[export] Instance bpb_update_total a t : Total (bpb_update a t).
Proof. unfold bpb_update, age_ways. total. Qed.
#[export] Instance btic_update_total a : Total (btic_update a).
Proof. unfold btic_update, age_ways. total. Qed.

End Bpb.
