(* ===== verification/Sprs.v ===== *)
(** * Special purpose registers (cpu/or1k/sprs.c)

    [mtspr] and [mfspr]: the registers are cells of an array, and accessing
    some of them starts work in the component they belong to. *)

From S2P Require Export Pic Abstract.

Module Sprs.
Import Sched Except Tick Pic Mem Ram Mmu Dcache Icache Abstract.

Section Sprs.
Context `{Devices}.

(** The reserved bits of the TLB registers: [page] is the page address of the
    value, [match_bits] and [translate_bits] the flags the two kinds of
    register have. *)
Definition tlb_value (regno value page match_bits translate_bits : Z) : Z :=
  if Z.land regno 0xff <? 0x80 then Z.lor page (Z.land value match_bits)
  else Z.lor page (Z.land value translate_bits).

Definition DTLBMR_BITS : Z :=
  Z.lor SPR_DTLBMR_V (Z.lor SPR_DTLBMR_PL1 (Z.lor SPR_DTLBMR_CID SPR_DTLBMR_LRU)).
Definition DTLBTR_BITS : Z :=
  Z.lor SPR_DTLBTR_CC (Z.lor SPR_DTLBTR_CI (Z.lor SPR_DTLBTR_WBC (Z.lor SPR_DTLBTR_WOM
  (Z.lor SPR_DTLBTR_A (Z.lor SPR_DTLBTR_D (Z.lor SPR_DTLBTR_URE (Z.lor SPR_DTLBTR_UWE
  (Z.lor SPR_DTLBTR_SRE SPR_DTLBTR_SWE)))))))).
Definition ITLBMR_BITS : Z :=
  Z.lor SPR_ITLBMR_V (Z.lor SPR_ITLBMR_PL1 (Z.lor SPR_ITLBMR_CID SPR_ITLBMR_LRU)).
Definition ITLBTR_BITS : Z :=
  Z.lor SPR_ITLBTR_CC (Z.lor SPR_ITLBTR_CI (Z.lor SPR_ITLBTR_WBC (Z.lor SPR_ITLBTR_WOM
  (Z.lor SPR_ITLBTR_A (Z.lor SPR_ITLBTR_D (Z.lor SPR_ITLBTR_SXE SPR_ITLBTR_UXE)))))).

(** [regno >= SPR_DTLBMR_BASE(0) && regno < SPR_DTLBTR_LAST(3)], and the same
    for the instruction TLB. *)
Definition is_dtlb (regno : Z) : bool := (SPR_DTLBMR_BASE 0 <=? regno) && (regno <? SPR_DTLBTR_LAST 3).
Definition is_itlb (regno : Z) : bool := (SPR_ITLBMR_BASE 0 <=? regno) && (regno <? SPR_ITLBTR_LAST 3).
(** "Links to GPRS" *)
Definition is_gpr (regno : Z) : bool := (0x0400 <=? regno) && (regno <? 0x0420).

Definition mtspr (regno value : Z) : M unit :=
  let regno := u16 regno in
  let value := u32 value in
  prev_val ← rd (SPR regno);
  wr (SPR regno) value;;
  switch regno
    [ ([SPR_TTCR], spr_write_ttcr value);
      ([SPR_TTMR], spr_write_ttmr prev_val);
      ([SPR_DCBPR],
        phys ← peek_into_dtlb value false true;
        _ ← dc_simulate_read phys value 4;
        wr (SPR SPR_DCBPR) 0);
      ([SPR_DCBFR], dc_inv value;; wr (SPR SPR_DCBFR) (-1));
      ([SPR_DCBIR], dc_inv value;; wr (SPR SPR_DCBIR) 0);
      ([SPR_DCBWR], wr (SPR SPR_DCBWR) 0);
      ([SPR_DCBLR], wr (SPR SPR_DCBLR) 0);
      ([SPR_ICBPR],
        phys ← peek_into_itlb value;
        _ ← ic_simulate_fetch phys value;
        wr (SPR SPR_ICBPR) 0);
      ([SPR_ICBIR], ic_inv value;; wr (SPR SPR_ICBIR) 0);
      ([SPR_ICBLR], wr (SPR SPR_ICBLR) 0);
      ([SPR_SR],
        ors (SPR regno) SPR_SR_FO;;
        when (nz (Z.land value SPR_SR_IEE) && negb (nz (Z.land prev_val SPR_SR_IEE))) pic_ints_en);
      ([SPR_NPC],
        pc ← rd Pc;
        when (negb (value =? pc))
          (wr Pc value;;
           wr Delay_insn 0;;
           wr Pcnext (value + 4);;
           stalled ← isset Stalled;
           when stalled (wr Npc_not_valid 1)));
      ([SPR_PICSR],
        edge ← isset Pic_edge_trigger;
        when (negb edge) (wr (SPR SPR_PICSR) prev_val));
      ([SPR_PICMR],
        nmi ← isset Pic_use_nmi;
        when nmi (ors (SPR SPR_PICMR) 0x00000003);;
        iee ← flag (SPR SPR_SR) SPR_SR_IEE;
        when iee pic_ints_en);
      ([SPR_PMR],
        pm ← isset State.Pm_enabled;
        when (pm && nz (Z.land value SPR_PMR_SUME)) sim_done) ]
    (when (is_dtlb regno)
       (page_mask ← rd (Dmmu M_page_mask);
        wr (SPR regno) (tlb_value regno value (Z.land value page_mask) DTLBMR_BITS DTLBTR_BITS));;
     when (is_itlb regno)
       (page_mask ← rd (Immu M_page_mask);
        wr (SPR regno) (tlb_value regno value (Z.land value page_mask) ITLBMR_BITS ITLBTR_BITS));;
     when (is_gpr regno) (wr (GPR (regno - 0x0400)) value)).
End Sprs.

Definition mfspr (regno : Z) : M Z :=
  let regno := u16 regno in
  r ← rd (SPR regno);
  switch regno
    [ ([SPR_NPC],
        strict ← isset Sim_strict_npc;
        nv ← isset Npc_not_valid;
        if strict && nv then ret 0 else rd Pc);
      ([SPR_TTCR], spr_read_ttcr);
      ([SPR_FPCSR],
        hardfloat ← isset Cpu_hardfloat;
        ret (if hardfloat : bool then r else 0)) ]
    (if is_gpr regno then rd (GPR (regno - 0x0400)) else ret r).

(** ** What they write *)

#[export] Hint Opaque mtspr mfspr : typeclass_instances.
(** The register [mtspr] is linked to, if any. *)
Definition linked (regno : Z) : list Z := if is_gpr (u16 regno) then [u16 regno - 0x0400] else [].
#[export] Instance mtspr_writes `{Devices} R r v :
  Writes (cells (linked r) true) R -> Respects R (mtspr r v).
Proof.
  intros HR. unfold mtspr, linked in *. cbv zeta. destruct (is_gpr (u16 r)); cbn [when]; respects.
Qed.
#[export] Instance mtspr_sr_writes `{Devices} R v :
  Writes (cells [] true) R -> Respects R (mtspr SPR_SR v).
Proof. exact (mtspr_writes R SPR_SR v). Qed.
#[export] Instance mfspr_keeps R `{!Enters R} r : Respects R (mfspr r).
Proof. unfold mfspr. respects. Qed.
End Sprs.
