(* ===== verification/Cstring.v ===== *)
(** * C strings

    The functions of the C library that debug/rsp-server.c applies to the
    packets of the GDB client: comparisons of strings and [sscanf] with the
    conversions its formats use.  A string is the list of its characters
    before the NUL, as unsigned bytes. *)

From S2P Require Export Prelude.
From stdpp Require Import strings.
#[local] Open Scope Z_scope.

Module Cstring.

(** A literal of the C code. *)
Fixpoint lit (s : string) : list Z :=
  match s with
  | EmptyString => []
  | String c s' => Z.of_N (Ascii.N_of_ascii c) :: lit s'
  end.
Definition chr (s : string) : Z := hd 0 (lit s).

(** The string that starts an array of characters. *)
Fixpoint cstring (l : list Z) : list Z :=
  match l with
  | [] => []
  | c :: l' => if c =? 0 then [] else c :: cstring l'
  end.

(** [0 == strcmp (a, b)] and [0 == strncmp (a, b, n)]. *)
Definition strcmp_eq (a b : list Z) : bool := bool_decide (a = b).
Definition strncmp_eq (a b : list Z) (n : nat) : bool := bool_decide (take n a = take n b).
(** [0 == strncmp (a, b, strlen (a))]. *)
Definition starts (a : string) (b : list Z) : bool := strncmp_eq (lit a) b (length (lit a)).

Definition in_chars (lo hi c : Z) : bool := (lo <=? c) && (c <=? hi).
Definition isspace (c : Z) : bool := (c =? 32) || in_chars 9 13 c.

(** The value of a digit; the letters are those of both cases. *)
Definition digit (c : Z) : option Z :=
  if in_chars (chr "0") (chr "9") c then Some (c - chr "0")
  else if in_chars (chr "a") (chr "f") c then Some (c - chr "a" + 10)
  else if in_chars (chr "A") (chr "F") c then Some (c - chr "A" + 10)
  else None.
Definition digit_in (base c : Z) : option Z :=
  match digit c with Some d => if d <? base then Some d else None | None => None end.

(** The characters of [sprintf]'s "%x", and of "%8lx". *)
Definition hexchars : list Z := lit "0123456789abcdef".
Definition hexchar (d : Z) : Z := nth (Z.to_nat d) hexchars 0.
Fixpoint hex_from (fuel : nat) (z : Z) (acc : list Z) : list Z :=
  match fuel with
  | O => acc
  | S fuel =>
      let acc := hexchar (z mod 16) :: acc in
      if z / 16 =? 0 then acc else hex_from fuel (z / 16) acc
  end.
Definition print_hex (z : Z) : list Z := hex_from 16 z [].
Definition print_8lx (z : Z) : list Z :=
  let l := print_hex z in replicate (8 - length l) (chr " ") ++ l.

(** ** [sscanf] *)

(** A format, taken apart: characters to match, white space, [%x] and [%lx],
    [%d], [%s], with the width if there is one. *)
Inductive directive :=
| Match (c : Z)
| Space
| Hex (width : option nat) (long : bool)
| Dec (width : option nat)
| Text (width : option nat).

(** A conversion between [%] and its letter. *)
Fixpoint conversion (w : option nat) (long : bool) (f : list Z) : option (directive * list Z) :=
  match f with
  | [] => None
  | c :: f' =>
      if c =? chr "x" then Some (Hex w long, f')
      else if c =? chr "d" then Some (Dec w, f')
      else if c =? chr "s" then Some (Text w, f')
      else if c =? chr "l" then conversion w true f'
      else match digit_in 10 c with
           | Some d => conversion (Some (10 * default 0 w + Z.to_nat d)%nat) long f'
           | None => None
           end
  end.
Fixpoint directives (fuel : nat) (f : list Z) : list directive :=
  match fuel, f with
  | S fuel, c :: f' =>
      if c =? chr "%" then
        match conversion None false f' with
        | Some (d, f'') => d :: directives fuel f''
        | None => []
        end
      else if isspace c then Space :: directives fuel f'
      else Match c :: directives fuel f'
  | _, _ => []
  end.
Definition format (f : string) : list directive := directives (length (lit f)) (lit f).

Fixpoint skip_space (l : list Z) : list Z :=
  match l with
  | c :: l' => if isspace c then skip_space l' else l
  | [] => []
  end.

(** The digits at the start of [l], at most [w] of them, added to [v]; the flag
    tells whether there was one. *)
Fixpoint digits (base : Z) (w : nat) (v : Z) (some : bool) (l : list Z) : Z * bool * list Z :=
  match w, l with
  | S w, c :: l' =>
      match digit_in base c with
      | Some d => digits base w (v * base + d) true l'
      | None => (v, some, l)
      end
  | _, _ => (v, some, l)
  end.

(** The sign, and the [0x] before a hexadecimal digit. *)
Definition scan_sign (w : nat) (l : list Z) : bool * nat * list Z :=
  match w, l with
  | S w', c :: l' => if c =? chr "-" then (true, w', l') else if c =? chr "+" then (false, w', l') else (false, w, l)
  | _, _ => (false, w, l)
  end.
Definition scan_prefix (base : Z) (w : nat) (l : list Z) : nat * list Z :=
  match w, l with
  | S (S (S w')), z :: x :: d :: l' =>
      if (base =? 16) && (z =? chr "0") && ((x =? chr "x") || (x =? chr "X")) && bool_decide (is_Some (digit_in 16 d))
      then (S w', d :: l') else (w, l)
  | _, _ => (w, l)
  end.

(** [strtoul] and [strtol] on what the conversion takes: values out of range
    are the largest (or smallest) of the type, as glibc converts them. *)
Definition strtoul (neg : bool) (v : Z) : Z :=
  if cmax U64 <? v then cmax U64 else u64 (if neg then - v else v).
Definition strtol (neg : bool) (v : Z) : Z :=
  Z.max (cmin I64) (Z.min (cmax I64) (if neg then - v else v)).

(** A number and what follows it. *)
Definition scan_number (base : Z) (w : option nat) (l : list Z) : option (bool * Z * list Z) :=
  let '(neg, w, l) := scan_sign (default (length l) w) l in
  let '(w, l) := scan_prefix base w l in
  let '(v, some, l) := digits base w 0 false l in
  if some then Some (neg, v, l) else None.

Fixpoint word (w : nat) (l : list Z) : list Z * list Z :=
  match w, l with
  | S w, c :: l' => if isspace c then ([], l) else let '(a, b) := word w l' in (c :: a, b)
  | _, _ => ([], l)
  end.

Inductive scanned := Num (v : Z) | Chars (l : list Z).

(** The values that are assigned; [sscanf] returns how many there are. *)
Fixpoint scan (ds : list directive) (l : list Z) : list scanned :=
  match ds with
  | [] => []
  | Match c :: ds => match l with x :: l' => if x =? c then scan ds l' else [] | [] => [] end
  | Space :: ds => scan ds (skip_space l)
  | Hex w long :: ds =>
      match scan_number 16 w (skip_space l) with
      | Some (neg, v, l') => let v := strtoul neg v in Num (if long then v else u32 v) :: scan ds l'
      | None => []
      end
  | Dec w :: ds =>
      match scan_number 10 w (skip_space l) with
      | Some (neg, v, l') => Num (s32 (strtol neg v)) :: scan ds l'
      | None => []
      end
  | Text w :: ds =>
      let l := skip_space l in
      match word (default (length l) w) l with
      | ([], _) => []
      | (a, l') => Chars a :: scan ds l'
      end
  end.
Definition sscanf (f : string) (l : list Z) : list scanned := scan (format f) l.

Example sscanf_mem : sscanf "m%x,%x:" (lit "m4f0,1A:") = [Num 0x4f0; Num 0x1a].
Proof. reflexivity. Qed.
Example sscanf_reg : sscanf "P%x=%8s" (lit "P1f=0000123456") = [Num 0x1f; Chars (lit "00001234")].
Proof. reflexivity. Qed.
Example sscanf_bp : sscanf "z%1d,%lx,%1d" (lit "z0,ffffffff80,4") = [Num 0; Num 0xffffffff80; Num 4].
Proof. reflexivity. Qed.
Example sscanf_short : sscanf "m%x,%x:" (lit "m4f0;1A:") = [Num 0x4f0].
Proof. reflexivity. Qed.
Example sscanf_spr : sscanf "writespr %4x %8lx" (lit "writespr   0011 -1") = [Num 0x11; Num (2 ^ 64 - 1)].
Proof. reflexivity. Qed.

(** ** Printing and scanning hexadecimal numbers *)

Lemma hexchar_all (P : Z -> Z -> bool) :
  forallb (fun n => P (Z.of_nat n) (hexchar (Z.of_nat n))) (seq 0 16) = true ->
  forall d, 0 <= d < 16 -> P d (hexchar d) = true.
Proof.
  intros E d Hd. rewrite forallb_forall in E. specialize (E (Z.to_nat d)). rewrite Z2Nat.id in E by lia.
  apply E, in_seq. lia.
Qed.
Lemma digit_hexchar d : 0 <= d < 16 -> digit_in 16 (hexchar d) = Some d.
Proof.
  intros Hd. pose proof (hexchar_all (fun d c => bool_decide (digit_in 16 c = Some d)) eq_refl d Hd) as E.
  by apply bool_decide_eq_true in E.
Qed.
(** The characters a digit is not: white space, signs and the 'x' of "0x". *)
Definition plain_char (c : Z) : bool :=
  negb (isspace c) && negb (c =? chr "-") && negb (c =? chr "+") && negb (c =? chr "x") && negb (c =? chr "X").
Lemma hexchar_plain d : 0 <= d < 16 -> plain_char (hexchar d) = true.
Proof. by apply (hexchar_all (fun _ => plain_char)). Qed.

(** The digits of a number, and the number of some digits. *)
Definition number (v : Z) (ds : list Z) : Z := foldl (fun v d => v * 16 + d) v ds.
Definition nibble (d : Z) : Prop := 0 <= d < 16.

Lemma hex_from_digits f z acc : 0 <= z < 16 ^ Z.of_nat (S f) ->
  exists ds, hex_from (S f) z acc = map hexchar ds ++ acc /\ Forall nibble ds /\ number 0 ds = z /\ ds <> [].
Proof.
  revert z acc. induction f as [|f IH]; intros z acc Hz.
  - change (16 ^ Z.of_nat 1) with 16 in Hz. exists [z mod 16]. cbn [hex_from]. rewrite (Z.div_small z), Z.mod_small by lia.
    split; [done|]. split; [constructor; [done | constructor]|]. by split; [cbn; lia|].
  - set (n := S f) in *. cbn [hex_from]. pose proof (Z.mod_pos_bound z 16 ltac:(lia)) as Hm.
    destruct (Z.eqb_spec (z / 16) 0) as [E|E].
    + exists [z mod 16]. split; [done|]. split; [constructor; [done | constructor]|]. split; [|done]. cbn.
      pose proof (Z.div_mod z 16 ltac:(lia)). lia.
    + rewrite Nat2Z.inj_succ, Z.pow_succ_r in Hz by lia.
      destruct (IH (z / 16) (hexchar (z mod 16) :: acc)) as (ds & E1 & H1 & H2 & H3).
      { split; [apply Z.div_pos; lia | apply Z.div_lt_upper_bound; lia]. }
      exists (ds ++ [z mod 16]). split; [by rewrite E1, map_app, <- app_assoc|]. split; [apply Forall_app_2; [done | constructor; [done | constructor]]|].
      split; [|by destruct ds]. unfold number in *. rewrite foldl_app, H2. cbn. pose proof (Z.div_mod z 16 ltac:(lia)). lia.
Qed.
Lemma hex_from_app f z acc l : hex_from f z acc ++ l = hex_from f z (acc ++ l).
Proof. revert z acc. induction f as [|f IH]; intros z acc; cbn [hex_from]; [done|]. destruct (_ =? 0); [done|]. by rewrite IH. Qed.

Lemma digits_number ds w v some l : Forall nibble ds ->
  digits 16 (length ds + w) v some (map hexchar ds ++ l) =
  digits 16 w (number v ds) (match ds with [] => some | _ => true end) l.
Proof.
  intros Hd. revert v some. induction Hd as [|d ds Hd _ IH]; intros v some; [done|].
  cbn [map app length Nat.add digits]. rewrite digit_hexchar by done. rewrite IH. cbn. by destruct ds.
Qed.

(** What may follow a number that is scanned. *)
Definition ends_number (l : list Z) : bool :=
  match l with [] => true | c :: _ => plain_char c && bool_decide (digit_in 16 c = None) end.

Lemma scan_hex z l : 0 <= z < 2 ^ 64 -> ends_number l = true ->
  skip_space (print_hex z ++ l) = print_hex z ++ l /\
  scan_number 16 None (print_hex z ++ l) = Some (false, z, l).
Proof.
  intros Hz Hl. unfold print_hex. rewrite hex_from_app. cbn [app].
  destruct (hex_from_digits 15 z l) as (ds & -> & Hd & Hn & Hne); [exact Hz|].
  destruct ds as [|d ds]; [done|]. inversion_clear Hd as [|? ? H1 Hd']. pose proof (hexchar_plain d H1) as Hp.
  unfold plain_char in Hp. rewrite !andb_true_iff, !negb_true_iff in Hp. destruct Hp as [[[[P1 P2] P3] P4] P5].
  cbn [map app]. split; [cbn [skip_space]; by rewrite P1|]. unfold scan_number. cbn [default length scan_sign]. rewrite P2, P3.
  assert (Ep : scan_prefix 16 (S (length (map hexchar ds ++ l))) (hexchar d :: map hexchar ds ++ l) =
    (S (length (map hexchar ds ++ l)), hexchar d :: map hexchar ds ++ l)).
  { assert (Hx : forall x r, map hexchar ds ++ l = x :: r -> (x =? chr "x") || (x =? chr "X") = false).
    { intros x r E. destruct Hd' as [|e es He _]; cbn [map app] in E.
      - subst l. unfold ends_number, plain_char in Hl. rewrite !andb_true_iff, !negb_true_iff in Hl.
        destruct Hl as [[[_ ->] ->] _]. done.
      - injection E as <- _. pose proof (hexchar_plain e He) as Hq. unfold plain_char in Hq.
        rewrite !andb_true_iff, !negb_true_iff in Hq. by destruct Hq as [[_ ->] ->]. }
    destruct (map hexchar ds ++ l) as [|x [|y r]]; cbn [scan_prefix length]; [done..|].
    rewrite (Hx x (y :: r) eq_refl). by rewrite andb_false_r. }
  rewrite Ep. change (hexchar d :: map hexchar ds ++ l) with (map hexchar (d :: ds) ++ l).
  rewrite length_app, length_map. change (S (length ds + length l))%nat with (length (d :: ds) + length l)%nat.
  rewrite digits_number by (by constructor). rewrite Hn. destruct l as [|c l]; cbn [digits length]; [done|].
  unfold ends_number in Hl. apply andb_true_iff in Hl as [_ ->%bool_decide_eq_true]. done.
Qed.
Lemma scan_match c ds l : scan (Match c :: ds) (c :: l) = scan ds l.
Proof. cbn [scan]. by rewrite Z.eqb_refl. Qed.
Lemma scan_hex_int z ds l : 0 <= z < 2 ^ 32 -> ends_number l = true ->
  scan (Hex None false :: ds) (print_hex z ++ l) = Num z :: scan ds l.
Proof.
  intros Hz Hl. cbn [scan]. destruct (scan_hex z l) as [-> ->]; [lia | done|]. unfold strtoul.
  change (cmax U64) with (2 ^ 64 - 1). destruct (Z.ltb_spec (2 ^ 64 - 1) z); [lia|].
  rewrite (wrap_small U64) by (apply inty_U64; lia). by rewrite u32_small.
Qed.
Lemma scan_hex_long z ds l : 0 <= z < 2 ^ 64 -> ends_number l = true ->
  scan (Hex None true :: ds) (print_hex z ++ l) = Num z :: scan ds l.
Proof.
  intros Hz Hl. cbn [scan]. destruct (scan_hex z l) as [-> ->]; [lia | done|]. unfold strtoul.
  change (cmax U64) with (2 ^ 64 - 1). destruct (Z.ltb_spec (2 ^ 64 - 1) z); [lia|].
  by rewrite (wrap_small U64) by (apply inty_U64; lia).
Qed.
End Cstring.
