(* ===== verification/Rsp.v ===== *)
(** * The GDB server (debug/rsp-server.c)

    The packets of the remote serial protocol and what each request does to
    the processor and memory.  [get_packet] keeps the packet in a static
    buffer, which some functions reuse for their reply. *)

From stdpp Require Import strings.
From S2P Require Export Cstring Sprs.
#[local] Open Scope Z_scope.
#[local] Open Scope sim_scope.

Module Rsp.
Import Sched Debug Except Tick Pic Mem Ram Mmu Dcache Icache Abstract Sprs.
Import Cstring.

Definition OR1KSIM_TID := 1.
Definition PPC_REGNUM := MAX_GPRS + 0.
Definition NPC_REGNUM := MAX_GPRS + 1.
Definition SR_REGNUM := MAX_GPRS + 2.
Definition NUM_REGS := MAX_GRPS + 3.
Definition OR1K_TRAP_INSTR := 0x21000001.
Definition TARGET_SIGNAL_NONE := 0.
Definition GDB_BUF_MAX := NUM_REGS * 8 + 1.
Definition MP_HASH_SIZE := 1021.

(** [enum mp_type] *)
Definition BP_MEMORY := 0.
Definition BP_HARDWARE := 1.
Definition WP_WRITE := 2.
Definition WP_READ := 3.
Definition WP_ACCESS := 4.

(** The sockets of the host: the port of the service, whether a socket can be
    bound to the port, the descriptor of a client that connects with the bytes
    it is going to send, and whether a byte can be written to it. *)
Class Client := {
  service_port : Sim -> option Z;
  can_listen : Sim -> bool;
  accept_client : Sim -> option (Z * list Z);
  client_writable : Sim -> bool }.

Section Rsp.
Context `{Client} `{Devices}.

(** ** Characters *)

Definition rsp_client_close : M unit :=
  fd ← rd Rsp_client_fd;
  when (negb (fd =? -1)) (emit Ev_rsp_close;; wr Rsp_client_fd (-1)).

Definition put_rsp_char (c : Z) : M unit :=
  fd ← rd Rsp_client_fd;
  if fd =? -1 then emit Ev_warning
  else
    ok ← gets client_writable;
    if ok : bool then emit (Ev_rsp_write (u8 c)) else emit Ev_warning;; rsp_client_close.

Definition get_rsp_char : M Z :=
  fd ← rd Rsp_client_fd;
  if fd =? -1 then emit Ev_warning;; ret (-1)
  else
    inp ← gets (fun s => rsp_input (dbg s));
    match inp with
    | [] => rsp_client_close;; ret (-1)
    | c :: inp => modify (set_rsp_input inp);; ret (u8 c)
    end.

(** As many characters as the client still sends: a loop that reads one in
    every round has a round more for the one that finds none. *)
Definition input_fuel : M nat := l ← gets (fun s => rsp_input (dbg s)); ret (S (length l)).

(** ** Digits *)

Definition hex (c : Z) : Z :=
  if (chr "a" <=? c) && (c <=? chr "f") then c - chr "a" + 10
  else if (chr "0" <=? c) && (c <=? chr "9") then c - chr "0"
  else if (chr "A" <=? c) && (c <=? chr "F") then c - chr "A" + 10
  else -1.

Definition reg2hex (val : Z) : list Z :=
  map (fun n => hexchar (Z.land (Z.shiftr val (28 - n * 4)) 0xf)) (seqZ 0 8).
(** [hex (buf[n]) << nyb_shift] is an [int], which is extended to the
    [unsigned long] with its sign. *)
Fixpoint hex2reg_from (buf : list Z) (n : Z) (val : Z) : Z :=
  match buf with
  | [] => val
  | c :: buf => hex2reg_from buf (n + 1) (Z.lor val (u64 (s32 (Z.shiftl (hex c) (28 - n * 4)))))
  end.
Definition hex2reg (buf : list Z) : Z := hex2reg_from (take 8 buf) 0 0.

Fixpoint ascii2hex (src : list Z) : list Z :=
  match src with
  | [] => []
  | ch :: src => hexchar (Z.land (Z.shiftr ch 4) 0xf) :: hexchar (Z.land ch 0xf) :: ascii2hex src
  end.
Fixpoint hex2ascii (src : list Z) : list Z :=
  match src with
  | a :: b :: src => Z.lor (Z.shiftl (Z.land (hex a) 0xf) 4) (Z.land (hex b) 0xf) :: hex2ascii src
  | _ => []
  end.

(** ** Packets *)

(** The characters the protocol escapes. *)
Definition special (ch : Z) : bool :=
  (chr "$" =? ch) || (chr "#" =? ch) || (chr "*" =? ch) || (chr "}" =? ch).

(** The body of a packet, and its checksum. *)
Fixpoint put_body (l : list Z) (checksum : Z) : M Z :=
  match l with
  | [] => ret checksum
  | ch :: l =>
      if special ch then
        put_rsp_char (chr "}");;
        let ch := Z.lxor ch 0x20 in
        let checksum := u8 (u8 (checksum + chr "}") + ch) in
        put_rsp_char ch;; put_body l checksum
      else put_rsp_char ch;; put_body l (u8 (checksum + ch))
  end.

(** The packet is sent until the client acknowledges it or is gone. *)
Fixpoint put_until_ack (fuel : nat) (l : list Z) : M unit :=
  match fuel with
  | O => stop_with Out_of_fuel
  | S fuel =>
      put_rsp_char (chr "$");;
      checksum ← put_body l 0;
      put_rsp_char (chr "#");;
      put_rsp_char (hexchar (Z.shiftr checksum 4));;
      put_rsp_char (hexchar (checksum mod 16));;
      ch ← get_rsp_char;
      if ch =? -1 then ret tt
      else if ch =? chr "+" then ret tt
      else put_until_ack fuel l
  end.
Definition put_packet (l : list Z) : M unit := fuel ← input_fuel; put_until_ack fuel l.

Definition put_str_packet (str : list Z) : M unit := put_packet (take (Z.to_nat (GDB_BUF_MAX - 1)) str).
Definition put_reply (str : string) : M unit := put_str_packet (lit str).

(** Waits for the start of a packet; false if the connection fails. *)
Fixpoint wait_start (fuel : nat) : M bool :=
  match fuel with
  | O => stop_with Out_of_fuel
  | S fuel =>
      ch ← get_rsp_char;
      if ch =? chr "$" then ret true
      else if ch =? -1 then ret false
      else wait_start fuel
  end.

(** Reads to the '#' or the end of the buffer: whether the connection failed,
    the last character, the number of characters and the checksum. *)
Fixpoint read_body (fuel : nat) (count checksum ch : Z) : M (option (Z * Z * Z)) :=
  match fuel with
  | O => stop_with Out_of_fuel
  | S fuel =>
      if count <? GDB_BUF_MAX - 1 then
        ch ← get_rsp_char;
        if ch =? -1 then ret None
        else if ch =? chr "$" then read_body fuel 0 0 ch
        else if ch =? chr "#" then ret (Some (ch, count, checksum))
        else
          wr (Rsp_data count) ch;;
          read_body fuel (count + 1) (u8 (checksum + ch)) ch
      else ret (Some (ch, count, checksum))
  end.

(** Compares the checksum: [None] if the connection fails, or whether it is the
    right one. *)
Definition check_sum (checksum : Z) : M (option bool) :=
  ch ← get_rsp_char;
  if ch =? -1 then ret None
  else
    let xmitcsum := u8 (s32 (Z.shiftl (hex ch) 4)) in
    ch ← get_rsp_char;
    if ch =? -1 then ret None
    else
      let xmitcsum := u8 (xmitcsum + hex ch) in
      if negb (checksum =? xmitcsum) then emit Ev_warning;; put_rsp_char (chr "-");; ret (Some false)
      else put_rsp_char (chr "+");; ret (Some true).

(** True if there is a packet in the buffer, false for NULL. *)
Fixpoint get_packets (fuel : nat) : M bool :=
  match fuel with
  | O => stop_with Out_of_fuel
  | S fuel =>
      n ← input_fuel;
      started ← wait_start n;
      if negb started then ret false
      else
        n ← input_fuel;
        r ← read_body n 0 0 (chr "$");
        match r with
        | None => ret false
        | Some (ch, count, checksum) =>
            wr (Rsp_data count) 0;;
            wr Rsp_len count;;
            if ch =? chr "#" then
              ok ← check_sum checksum;
              match ok with
              | None => ret false
              | Some true => ret true
              | Some false => get_packets fuel
              end
            else emit Ev_warning;; get_packets fuel
        end
  end.
Definition get_packet : M bool := fuel ← input_fuel; get_packets fuel.

(** ** The packet buffer *)

Definition buf_data (s : Sim) : list Z := map (fun i => s (Rsp_data i)) (seqZ 0 GDB_BUF_MAX).
Definition buf_get (i : Z) : M Z :=
  if (0 <=? i) && (i <? GDB_BUF_MAX) then rd (Rsp_data i) else stop_with Undefined.
Definition buf_put (i c : Z) : M unit :=
  if (0 <=? i) && (i <? GDB_BUF_MAX) then wr (Rsp_data i) c else stop_with Undefined.
(** The string at an offset of the buffer. *)
Definition buf_string (off : nat) : M (list Z) := gets (fun s => cstring (drop off (buf_data s))).

(** Replaces the packet by a string, and sends it: [buf->len = strlen
    (buf->data); put_packet (buf)]. *)
Fixpoint buf_write (i : Z) (l : list Z) : M unit :=
  match l with [] => buf_put i 0 | c :: l => buf_put i c;; buf_write (i + 1) l end.
Definition put_buf : M unit :=
  str ← buf_string 0;
  wr Rsp_len (Z.of_nat (length str));;
  put_packet str.

(** Reverses the escapes of the [len] characters at [base], in place, and
    returns how many there are then. *)
Fixpoint unescape_from (fuel : nat) (base len from_off to_off : Z) : M Z :=
  match fuel with
  | O => stop_with Out_of_fuel
  | S fuel =>
      if negb (from_off <? len) then ret to_off
      else
        c ← buf_get (base + from_off);
        if c =? chr "}" then
          c ← buf_get (base + (from_off + 1));
          buf_put (base + to_off) (Z.lxor c 0x20);;
          unescape_from fuel base len (from_off + 1 + 1) (to_off + 1)
        else
          buf_put (base + to_off) c;;
          unescape_from fuel base len (from_off + 1) (to_off + 1)
  end.
Definition rsp_unescape (base len : Z) : M Z := unescape_from (S (Z.to_nat len)) base len 0 0.

(** [memchr (buf->data, ':', GDB_BUF_MAX) + 1], as an offset; what the code
    does with a pointer one above NULL is undefined. *)
Fixpoint memchr (l : list Z) (c : Z) : option Z :=
  match l with
  | [] => None
  | x :: l => if x =? c then Some 0 else Z.succ <$> memchr l c
  end.
Definition after_colon : M Z :=
  data ← gets buf_data;
  match memchr data (chr ":") with Some i => ret (i + 1) | None => stop_with Undefined end.

(** ** Matchpoints *)

Definition is_mp (typ addr : Z) (e : mp_entry) : bool := (typ =? mp_type e) && (addr =? mp_addr e).
Definition mp_hash_of (addr : Z) : M (list mp_entry) :=
  gets (fun s => mp_hash (dbg s) (addr mod MP_HASH_SIZE)).
Definition set_mp_hash_of (addr : Z) (l : list mp_entry) : M unit :=
  modify (fun s => set_mp_hash (<[addr mod MP_HASH_SIZE := l]> (mp_hash (dbg s))) s).

Definition mp_hash_init : M unit := modify (set_mp_hash (fun _ => [])).
Definition mp_hash_add (typ addr instr : Z) : M unit :=
  l ← mp_hash_of addr;
  if existsb (is_mp typ addr) l then ret tt else set_mp_hash_of addr (MpEntry typ addr instr :: l).
Definition mp_hash_lookup (typ addr : Z) : M (option mp_entry) :=
  l ← mp_hash_of addr; ret (List.find (is_mp typ addr) l).
Fixpoint mp_delete (typ addr : Z) (l : list mp_entry) : list mp_entry :=
  match l with
  | [] => []
  | e :: l => if is_mp typ addr e then l else e :: mp_delete typ addr l
  end.
Definition mp_hash_delete (typ addr : Z) : M (option mp_entry) :=
  l ← mp_hash_of addr;
  match List.find (is_mp typ addr) l with
  | Some e => set_mp_hash_of addr (mp_delete typ addr l);; ret (Some e)
  | None => ret None
  end.

(** ** Processor state *)

Definition set_npc (addr : Z) : M unit :=
  pc ← rd Pc;
  when (negb (pc =? addr)) (wr Pc addr;; wr Delay_insn 0;; wr Pcnext (addr + 4)).

Definition rsp_report_exception : M unit :=
  sigval ← rd Rsp_sigval;
  if (0 <=? sigval) && (sigval <? 256)
  then put_packet [chr "S"; hexchar (Z.shiftr sigval 4); hexchar (sigval mod 16)]
  else stop_with Undefined.

(** [rsp_continue_generic] and [rsp_step_generic] differ in the single step
    trigger. *)
Definition resume (addr : Z) (trigger : M unit) : M unit :=
  set_npc addr;;
  wr (SPR SPR_DRR) 0;;
  clr (SPR SPR_DMR2) SPR_DMR2_WGB;;
  trigger;;
  ors (SPR SPR_DSR) SPR_DSR_TE;;
  set_stall_state 0;;
  wr Rsp_sigval TARGET_SIGNAL_NONE;;
  wr Rsp_client_waiting 1.
Definition rsp_continue_generic (addr : Z) : M unit := resume addr (clr (SPR SPR_DMR1) SPR_DMR1_ST).
Definition rsp_step_generic (addr : Z) : M unit := resume addr (ors (SPR SPR_DMR1) SPR_DMR1_ST).

(** The address of a continue or step packet, the current one by default. *)
Definition resume_addr (cmd format : string) : M Z :=
  str ← buf_string 0;
  if strcmp_eq (lit cmd) str then rd Pc
  else match sscanf format str with
       | [Num addr] => ret addr
       | _ => emit Ev_warning;; rd Pc
       end.
Definition rsp_continue : M unit := addr ← resume_addr "c" "c%lx"; rsp_continue_generic addr.
Definition rsp_step : M unit := addr ← resume_addr "s" "s%lx"; rsp_step_generic addr.
Definition rsp_restart : M unit := addr ← rd Rsp_start_addr; set_npc addr.

(** ** Registers *)

Definition rsp_read_all_regs : M unit :=
  gprs ← gets (fun s => map (fun r => s (GPR r)) (seqZ 0 MAX_GPRS));
  ppc ← rd (SPR SPR_PPC); pc ← rd Pc; sr ← rd (SPR SPR_SR);
  put_packet (concat (map reg2hex (gprs ++ [ppc; pc; sr]))).

(** [hex2reg (&(buf->data[r * 8]))] *)
Definition hex2reg_at (r : Z) : M Z :=
  data ← gets buf_data; ret (hex2reg (drop (Z.to_nat (r * 8)) data)).
Definition rsp_write_all_regs : M unit :=
  for_ (Z.to_nat MAX_GPRS) 0 1 (fun r => v ← hex2reg_at r; wr (GPR r) v);;
  v ← hex2reg_at PPC_REGNUM; wr (SPR SPR_PPC) v;;
  v ← hex2reg_at SR_REGNUM; wr (SPR SPR_SR) v;;
  v ← hex2reg_at NPC_REGNUM; set_npc v;;
  put_reply "OK".

Definition rsp_read_reg : M unit :=
  str ← buf_string 0;
  match sscanf "p%x" str with
  | [Num regnum] =>
      let reply val := buf_write 0 (reg2hex val);; put_buf in
      if regnum <? MAX_GPRS then v ← rd (GPR regnum); reply v
      else if PPC_REGNUM =? regnum then v ← rd (SPR SPR_PPC); reply v
      else if NPC_REGNUM =? regnum then v ← rd Pc; reply v
      else if SR_REGNUM =? regnum then v ← rd (SPR SPR_SR); reply v
      else emit Ev_warning;; put_reply "E01"
  | _ => emit Ev_warning;; put_reply "E01"
  end.

(** [valstr] may hold fewer than eight digits; the digits after its end are
    whatever the array held, and [hex] of the NUL is -1. *)
Definition rsp_write_reg : M unit :=
  str ← buf_string 0;
  match sscanf "P%x=%8s" str with
  | [Num regnum; Chars valstr] =>
      if (length valstr <? 7)%nat then stop_with Undefined
      else
        let val := hex2reg (valstr ++ [0]) in
        if regnum <? MAX_GPRS then wr (GPR regnum) val;; put_reply "OK"
        else if PPC_REGNUM =? regnum then wr (SPR SPR_PPC) val;; put_reply "OK"
        else if NPC_REGNUM =? regnum then set_npc val;; put_reply "OK"
        else if SR_REGNUM =? regnum then wr (SPR SPR_SR) val;; put_reply "OK"
        else emit Ev_warning;; put_reply "E01"
  | _ => emit Ev_warning;; put_reply "E01"
  end.

(** ** Memory *)

(** The loops over the bytes of a packet: they index the buffer in every
    round, so more rounds than the buffer has characters never run.  [true] if
    all bytes were there. *)
Definition byte_fuel : nat := Z.to_nat GDB_BUF_MAX.

Fixpoint read_bytes (fuel : nat) (addr len off : Z) : M bool :=
  match fuel with
  | O => stop_with Out_of_fuel
  | S fuel =>
      if negb (off <? len) then ret true
      else
        mem ← verify_memoryarea (u32 (addr + off));
        match mem with
        | None => put_reply "E01";; ret false
        | Some _ =>
            ch ← eval_direct8 (u32 (addr + off)) false false;
            buf_put (off * 2) (hexchar (Z.shiftr ch 4));;
            buf_put (off * 2 + 1) (hexchar (Z.land ch 0xf));;
            read_bytes fuel addr len (off + 1)
        end
  end.
Definition rsp_read_mem : M unit :=
  str ← buf_string 0;
  match sscanf "m%x,%x:" str with
  | [Num addr; Num len] =>
      let len := s32 len in
      let len := if GDB_BUF_MAX <=? s32 (len * 2) then (GDB_BUF_MAX - 1) / 2 else len in
      done ← read_bytes byte_fuel addr len 0;
      when done (buf_put (Z.max len 0 * 2) 0;; put_buf)
  | _ => emit Ev_warning;; put_reply "E01"
  end.

(** The loops of [rsp_write_mem] and [rsp_write_mem_bin], with what they write
    at an offset. *)
Fixpoint write_bytes (fuel : nat) (byte : Z -> M Z) (addr len off : Z) : M unit :=
  match fuel with
  | O => stop_with Out_of_fuel
  | S fuel =>
      if negb (off <? len) then put_reply "OK"
      else
        mem ← verify_memoryarea (u32 (addr + off));
        match mem with
        | None => put_reply "E01"
        | Some _ =>
            c ← byte off;
            dc_inv (u32 (addr + off));;
            ic_inv (u32 (addr + off));;
            set_program8 (u32 (addr + off)) c;;
            write_bytes fuel byte addr len (off + 1)
        end
  end.
(** The byte of two digits. *)
Definition sym_byte (symdat off : Z) : M Z :=
  a ← buf_get (symdat + off * 2);
  b ← buf_get (symdat + (off * 2 + 1));
  ret (Z.lor (Z.shiftl (u8 (hex a)) 4) (u8 (hex b))).
Definition rsp_write_mem : M unit :=
  str ← buf_string 0;
  match sscanf "M%x,%x:" str with
  | [Num addr; Num len] =>
      let len := s32 len in
      symdat ← after_colon;
      buflen ← rd Rsp_len;
      let datlen := buflen - symdat in
      if negb (s32 (len * 2) =? datlen) then emit Ev_warning;; put_reply "E01"
      else write_bytes byte_fuel (sym_byte symdat) addr len 0
  | _ => emit Ev_warning;; put_reply "E01"
  end.

Definition rsp_write_mem_bin : M unit :=
  str ← buf_string 0;
  match sscanf "X%x,%x:" str with
  | [Num addr; Num len] =>
      let len := s32 len in
      bindat ← after_colon;
      buflen ← rd Rsp_len;
      newlen ← rsp_unescape bindat (buflen - bindat);
      when (negb (newlen =? len)) (emit Ev_warning);;
      write_bytes byte_fuel (fun off => buf_get (bindat + off)) addr (Z.min len newlen) 0
  | _ => emit Ev_warning;; put_reply "E01"
  end.

(** ** Breakpoints *)

(** What the type of a matchpoint is answered with, memory breakpoints apart. *)
Definition other_matchpoint (typ : Z) : M unit :=
  if existsb (Z.eqb typ) [BP_HARDWARE; WP_WRITE; WP_READ; WP_ACCESS] then put_reply ""
  else emit Ev_warning;; put_reply "E01".

Definition remove_breakpoint (addr : Z) : M unit :=
  mpe ← mp_hash_delete BP_MEMORY addr;
  match mpe with
  | Some e => ic_inv (u32 addr);; set_program32 (u32 addr) (mp_instr e)
  | None => ret tt
  end;;
  put_reply "OK".
Definition insert_breakpoint (addr : Z) : M unit :=
  instr ← eval_direct32 (u32 addr) false false;
  mp_hash_add BP_MEMORY addr instr;;
  ic_inv (u32 addr);;
  set_program32 (u32 addr) OR1K_TRAP_INSTR;;
  put_reply "OK".

Definition rsp_remove_matchpoint : M unit :=
  str ← buf_string 0;
  match sscanf "z%1d,%lx,%1d" str with
  | [Num typ; Num addr; Num len] =>
      when (negb (len =? 4)) (emit Ev_warning);;
      if typ =? BP_MEMORY then remove_breakpoint addr else other_matchpoint typ
  | _ => emit Ev_warning;; put_reply "E01"
  end.
Definition rsp_insert_matchpoint : M unit :=
  str ← buf_string 0;
  match sscanf "Z%1d,%lx,%1d" str with
  | [Num typ; Num addr; Num len] =>
      when (negb (len =? 4)) (emit Ev_warning);;
      if typ =? BP_MEMORY then insert_breakpoint addr else other_matchpoint typ
  | _ => emit Ev_warning;; put_reply "E01"
  end.

(** ** Queries *)

(** [hex2ascii (cmd, ...)]; [strncmp] leaves the space after the name of the
    command out. *)
Definition rsp_command : M unit :=
  str ← buf_string (length (lit "qRcmd,"));
  let cmd := cstring (hex2ascii str) in
  if strncmp_eq (lit "readspr ") cmd (length (lit "readspr")) then
    match sscanf "readspr %4x" cmd with
    | [Num regno] =>
        if MAX_SPRS <? regno then emit Ev_warning;; put_reply "E01"
        else v ← mfspr regno; buf_write 0 (ascii2hex (print_8lx v));; put_buf
    | _ => emit Ev_warning;; put_reply "E01"
    end
  else if strncmp_eq (lit "writespr ") cmd (length (lit "writespr")) then
    match sscanf "writespr %4x %8lx" cmd with
    | [Num regno; Num val] =>
        if MAX_SPRS <? regno then emit Ev_warning;; put_reply "E01"
        else mtspr regno val;; put_reply "OK"
    | _ => emit Ev_warning;; put_reply "E01"
    end
  else ret tt.

Definition rsp_query : M unit :=
  str ← buf_string 0;
  if strcmp_eq (lit "qAttached") str then put_reply "1"
  else if strcmp_eq (lit "qC") str then buf_write 0 (lit "QC" ++ print_hex OR1KSIM_TID);; put_buf
  else if starts "qCRC" str then emit Ev_warning;; put_reply "E01"
  else if strcmp_eq (lit "qfThreadInfo") str then buf_write 0 (lit "m" ++ print_hex OR1KSIM_TID);; put_buf
  else if strcmp_eq (lit "qsThreadInfo") str then put_reply "l"
  else if starts "qGetTLSAddr:" str then put_reply ""
  else if starts "qL" str then emit Ev_warning;; put_reply "qM001"
  else if strcmp_eq (lit "qOffsets") str then put_reply "Text=0;Data=0;Bss=0"
  else if starts "qP" str then emit Ev_warning;; put_reply ""
  else if starts "qRcmd," str then rsp_command
  else if starts "qSupported" str then put_str_packet (lit "PacketSize=" ++ print_hex GDB_BUF_MAX)
  else if starts "qSymbol:" str then put_reply "OK"
  else if starts "qThreadExtraInfo," str then
    buf_write 0 (ascii2hex (lit "Runnable") ++ lit "00");; put_buf
  else if starts "qTStatus" str then put_reply ""
  else if starts "qXfer:" str then emit Ev_warning;; put_reply ""
  else emit Ev_warning.

Definition rsp_set : M unit :=
  str ← buf_string 0;
  if starts "QPassSignals:" str then put_reply ""
  else if starts "QTDP" str || starts "QFrame" str || strcmp_eq (lit "QTStart") str
       || strcmp_eq (lit "QTStop") str || strcmp_eq (lit "QTinit") str || starts "QTro" str then put_reply ""
  else emit Ev_warning.

Definition rsp_vpkt : M unit :=
  str ← buf_string 0; len ← rd Rsp_len;
  if starts "vAttach;" str then put_reply "S05"
  else if strcmp_eq (lit "vCont?") str then put_reply ""
  else if starts "vCont" str then emit Ev_warning
  else if starts "vFile:" str then emit Ev_warning;; put_reply ""
  else if starts "vFlashErase:" str then emit Ev_warning;; put_reply "E01"
  else if starts "vFlashWrite:" str then emit Ev_warning;; put_reply "E01"
  else if strcmp_eq (lit "vFlashDone") str then emit Ev_warning;; put_reply "E01"
  else if starts "vRun;" str then
    when (5 <? u64 len) (emit Ev_warning);; rsp_restart;; put_reply "S05"
  else when (negb (strcmp_eq (lit "vMustReplyEmpty") str)) (emit Ev_warning);; put_reply "".

(** ** Requests *)

Definition serve_request : M unit :=
  c ← rd (Rsp_data 0);
  switch c
    [ ([chr "!"], put_reply "OK");
      ([chr "?"], rsp_report_exception);
      ([chr "A"], emit Ev_warning;; put_reply "E01");
      ([chr "b"; chr "B"], emit Ev_warning);
      ([chr "c"], rsp_continue);
      ([chr "C"], emit Ev_warning);
      ([chr "d"], emit Ev_warning);
      ([chr "D"],
        put_reply "OK";; rsp_client_close;; set_stall_state 0;; wr Rsp_sigval TARGET_SIGNAL_NONE);
      ([chr "F"], emit Ev_warning);
      ([chr "g"], rsp_read_all_regs);
      ([chr "G"], rsp_write_all_regs);
      ([chr "H"], put_reply "OK");
      ([chr "i"; chr "I"], emit Ev_warning;; wr Rsp_client_waiting 1);
      ([chr "k"], ret tt);
      ([chr "m"], rsp_read_mem);
      ([chr "M"], rsp_write_mem);
      ([chr "p"], rsp_read_reg);
      ([chr "P"], rsp_write_reg);
      ([chr "q"], rsp_query);
      ([chr "Q"], rsp_set);
      ([chr "r"], emit Ev_warning);
      ([chr "R"], rsp_restart);
      ([chr "s"], rsp_step);
      ([chr "S"], emit Ev_warning);
      ([chr "t"], emit Ev_warning);
      ([chr "T"], put_reply "OK");
      ([chr "v"], rsp_vpkt);
      ([chr "X"], rsp_write_mem_bin);
      ([chr "z"], rsp_remove_matchpoint);
      ([chr "Z"], rsp_insert_matchpoint) ]
    (emit Ev_warning).
Definition rsp_client_request : M unit :=
  got ← get_packet;
  if negb got then rsp_client_close else serve_request.

(** ** The connection *)

Definition rsp_init : M unit :=
  wr Rsp_client_waiting 0;;
  wr Rsp_client_fd (-1);;
  wr Rsp_sigval 0;;
  wr Rsp_start_addr EXCEPT_RESET;;
  mp_hash_init.

Definition rsp_get_client : M unit :=
  port ← rd Debug_rsp_port;
  service ← gets service_port;
  match (if port =? 0 then service else Some port) with
  | None => emit Ev_warning
  | Some port =>
      wr Debug_rsp_port port;;
      listening ← gets can_listen;
      if negb listening then sim_done
      else
        c ← gets accept_client;
        match c with
        | None => wr Rsp_client_fd (-1);; emit Ev_warning
        | Some (fd, input) =>
            wr Rsp_client_fd fd;; modify (set_rsp_input input);; emit Ev_rsp_accept
        end
  end.

(** Waits for a client; [fuel] bounds the attempts. *)
Fixpoint wait_client (fuel : nat) : M unit :=
  fd ← rd Rsp_client_fd;
  if negb (fd =? -1) then ret tt
  else
    match fuel with
    | O => stop_with Out_of_fuel
    | S fuel => rsp_get_client;; wr Rsp_client_waiting 0;; wait_client fuel
    end.

Definition handle_rsp (fuel : nat) : M unit :=
  wait_client fuel;;
  waiting ← isset Rsp_client_waiting;
  when waiting
    (sigval ← rd Rsp_sigval;
     ppc ← rd (SPR SPR_PPC);
     mpe ← mp_hash_lookup BP_MEMORY ppc;
     when ((TARGET_SIGNAL_TRAP =? sigval) && bool_decide (is_Some mpe)) (set_npc ppc);;
     rsp_report_exception;;
     wr Rsp_client_waiting 0);;
  rsp_client_request.
End Rsp.

(** ** Typing *)

#[export] Hint Opaque rsp_client_close put_rsp_char get_rsp_char put_body put_until_ack put_packet put_str_packet
  wait_start read_body check_sum get_packets get_packet buf_write put_buf unescape_from rsp_unescape after_colon
  mp_hash_add mp_hash_delete set_npc resume rsp_read_all_regs rsp_write_all_regs rsp_read_reg rsp_write_reg
  read_bytes rsp_read_mem write_bytes sym_byte rsp_write_mem rsp_write_mem_bin remove_breakpoint insert_breakpoint
  other_matchpoint rsp_command rsp_query rsp_set rsp_vpkt serve_request rsp_get_client wait_client handle_rsp
  : typeclass_instances.

Section Typing.
Context `{Client} `{Devices} (R : relation Sim) `{!Writes everything R}.

#[export] Instance rsp_client_close_typed : Respects R rsp_client_close.
Proof. unfold rsp_client_close. respects. Qed.
#[export] Instance put_rsp_char_typed c : Respects R (put_rsp_char c).
Proof. unfold put_rsp_char. respects. Qed.
#[export] Instance get_rsp_char_typed : Respects R get_rsp_char.
Proof. unfold get_rsp_char. respects. Qed.
#[export] Instance put_body_typed l c : Respects R (put_body l c).
Proof. revert c. induction l; intros; cbn [put_body]; cbv zeta; respects. Qed.
#[export] Instance put_until_ack_typed f l : Respects R (put_until_ack f l).
Proof. induction f; cbn [put_until_ack]; respects. Qed.
#[export] Instance put_packet_typed l : Respects R (put_packet l).
Proof. unfold put_packet, input_fuel. respects. Qed.
#[export] Instance put_str_packet_typed l : Respects R (put_str_packet l).
Proof. unfold put_str_packet. respects. Qed.
#[export] Instance wait_start_typed f : Respects R (wait_start f).
Proof. induction f; cbn [wait_start]; respects. Qed.
#[export] Instance read_body_typed f n c ch : Respects R (read_body f n c ch).
Proof. revert n c ch. induction f; intros; cbn [read_body]; respects. Qed.
#[export] Instance check_sum_typed c : Respects R (check_sum c).
Proof. unfold check_sum. respects. Qed.
#[export] Instance get_packets_typed f : Respects R (get_packets f).
Proof. induction f; cbn [get_packets]; unfold input_fuel; respects. Qed.
#[export] Instance get_packet_typed : Respects R get_packet.
Proof. unfold get_packet, input_fuel. respects. Qed.
#[export] Instance buf_write_typed i l : Respects R (buf_write i l).
Proof. revert i. induction l; intros; cbn [buf_write]; unfold buf_put; respects. Qed.
#[export] Instance put_buf_typed : Respects R put_buf.
Proof. unfold put_buf, buf_string. respects. Qed.
#[export] Instance unescape_from_typed f b l i j : Respects R (unescape_from f b l i j).
Proof. revert i j. induction f; intros; cbn [unescape_from]; unfold buf_get, buf_put; respects. Qed.
#[export] Instance rsp_unescape_typed b l : Respects R (rsp_unescape b l).
Proof. unfold rsp_unescape. respects. Qed.
#[export] Instance after_colon_typed : Respects R after_colon.
Proof. unfold after_colon. respects. Qed.
#[export] Instance mp_hash_add_typed t a i : Respects R (mp_hash_add t a i).
Proof. unfold mp_hash_add, mp_hash_of, set_mp_hash_of. respects. Qed.
#[export] Instance mp_hash_delete_typed t a : Respects R (mp_hash_delete t a).
Proof. unfold mp_hash_delete, mp_hash_of, set_mp_hash_of. respects. Qed.
#[export] Instance set_npc_typed a : Respects R (set_npc a).
Proof. unfold set_npc. respects. Qed.
#[export] Instance resume_typed a t : Respects R t -> Respects R (resume a t).
Proof. intros. unfold resume. respects. Qed.
#[export] Instance resume_addr_typed c f : Respects R (resume_addr c f).
Proof. unfold resume_addr, buf_string. respects. Qed.
#[export] Instance rsp_continue_typed : Respects R rsp_continue.
Proof. unfold rsp_continue, rsp_continue_generic. respects. apply resume_typed. respects. Qed.
#[export] Instance rsp_step_typed : Respects R rsp_step.
Proof. unfold rsp_step, rsp_step_generic. respects. apply resume_typed. respects. Qed.
#[export] Instance rsp_report_exception_typed : Respects R rsp_report_exception.
Proof. unfold rsp_report_exception. respects. Qed.
#[export] Instance rsp_read_all_regs_typed : Respects R rsp_read_all_regs.
Proof. unfold rsp_read_all_regs. respects. Qed.
#[export] Instance rsp_write_all_regs_typed : Respects R rsp_write_all_regs.
Proof. unfold rsp_write_all_regs, hex2reg_at, put_reply. respects. Qed.
#[export] Instance rsp_read_reg_typed : Respects R rsp_read_reg.
Proof. unfold rsp_read_reg, buf_string, put_reply. respects. Qed.
#[export] Instance rsp_write_reg_typed : Respects R rsp_write_reg.
Proof. unfold rsp_write_reg, buf_string, put_reply. respects. Qed.
#[export] Instance read_bytes_typed f a l o : Respects R (read_bytes f a l o).
Proof. revert o. induction f; intros; cbn [read_bytes]; unfold put_reply, buf_put; respects. Qed.
#[export] Instance rsp_read_mem_typed : Respects R rsp_read_mem.
Proof. unfold rsp_read_mem, buf_string, put_reply, buf_put. respects. Qed.
#[export] Instance write_bytes_typed f b a l o :
  (forall i, Respects R (b i)) -> Respects R (write_bytes f b a l o).
Proof. intros. revert o. induction f; intros; cbn [write_bytes]; unfold put_reply; respects. Qed.
#[export] Instance rsp_write_mem_typed : Respects R rsp_write_mem.
Proof.
  unfold rsp_write_mem, buf_string, put_reply. respects. apply write_bytes_typed. intros. unfold sym_byte, buf_get. respects.
Qed.
#[export] Instance rsp_write_mem_bin_typed : Respects R rsp_write_mem_bin.
Proof.
  unfold rsp_write_mem_bin, buf_string, put_reply. respects. apply write_bytes_typed. intros. unfold buf_get. respects.
Qed.
#[export] Instance remove_breakpoint_typed a : Respects R (remove_breakpoint a).
Proof. unfold remove_breakpoint, put_reply. respects. Qed.
#[export] Instance insert_breakpoint_typed a : Respects R (insert_breakpoint a).
Proof. unfold insert_breakpoint, put_reply. respects. Qed.
#[export] Instance other_matchpoint_typed t : Respects R (other_matchpoint t).
Proof. unfold other_matchpoint, put_reply. respects. Qed.
#[export] Instance rsp_remove_matchpoint_typed : Respects R rsp_remove_matchpoint.
Proof. unfold rsp_remove_matchpoint, buf_string, put_reply. respects. Qed.
#[export] Instance rsp_insert_matchpoint_typed : Respects R rsp_insert_matchpoint.
Proof. unfold rsp_insert_matchpoint, buf_string, put_reply. respects. Qed.
#[export] Instance rsp_command_typed : Respects R rsp_command.
Proof. unfold rsp_command, buf_string, put_reply. respects. Qed.
#[export] Instance rsp_query_typed : Respects R rsp_query.
Proof. unfold rsp_query, buf_string, put_reply. respects. Qed.
#[export] Instance rsp_set_typed : Respects R rsp_set.
Proof. unfold rsp_set, buf_string, put_reply. respects. Qed.
#[export] Instance rsp_restart_typed : Respects R rsp_restart.
Proof. unfold rsp_restart. respects. Qed.
#[export] Instance rsp_vpkt_typed : Respects R rsp_vpkt.
Proof. unfold rsp_vpkt, buf_string, put_reply. respects. Qed.
#[export] Instance serve_request_typed : Respects R serve_request.
Proof. unfold serve_request, put_reply. respects. Qed.
#[export] Instance rsp_get_client_typed : Respects R rsp_get_client.
Proof. unfold rsp_get_client. respects. Qed.
#[export] Instance wait_client_typed f : Respects R (wait_client f).
Proof. induction f; cbn [wait_client]; respects. Qed.
#[export] Instance handle_rsp_typed f : Respects R (handle_rsp f).
Proof. unfold handle_rsp, mp_hash_lookup, mp_hash_of, rsp_client_request. respects. Qed.
End Typing.
End Rsp.
