(* ===== verification/GdbPacket.v ===== *)
(** * Packets of the GDB server

    Sending and receiving packets (debug/rsp-server.c) over a connection whose
    writes succeed: what is sent decodes to what was to be sent, a receiver
    finds the next valid packet whatever comes before it, and never writes
    outside its buffer. *)

From S2P Require Export Rsp.
From stdpp Require Import strings.
From S2P Require Import Rsp.
#[local] Open Scope Z_scope.
#[local] Open Scope sim_scope.

Module GdbPacket.
Import Cstring Rsp.

(** ** The wire *)

Definition escape1 (c : Z) : list Z := if special c then [chr "}"; Z.lxor c 0x20] else [c].
Definition escape (l : list Z) : list Z := concat (map escape1 l).
Lemma escape_cons c l : escape (c :: l) = escape1 c ++ escape l.
Proof. done. Qed.
Definition add_sum (checksum c : Z) : Z := u8 (checksum + c).
Definition sum (l : list Z) : Z := foldl add_sum 0 l.
(** A packet with the (escaped) body [e]. *)
Definition packet (e : list Z) : list Z :=
  chr "$" :: e ++ [chr "#"; hexchar (Z.shiftr (sum e) 4); hexchar (sum e mod 16)].

(** The bytes [l] sent. *)
Fixpoint put (l : list Z) (s : Sim) : Sim :=
  match l with [] => s | c :: l => put l (add_event (Ev_rsp_write c) s) end.
Definition input (s : Sim) : list Z := rsp_input (dbg s).

Lemma put_app a b s : put (a ++ b) s = put b (put a s).
Proof. revert s. induction a; intros; cbn; auto. Qed.
Lemma put_cell l s c : put l s c = s c.
Proof. revert s. induction l; intros; cbn; [done|]. by rewrite IHl. Qed.
Lemma put_input l s : dbg (put l s) = dbg s.
Proof. revert s. induction l; intros; cbn; [done|]. by rewrite IHl. Qed.
Lemma put_set l s i : put l (set_rsp_input i s) = set_rsp_input i (put l s).
Proof. revert s. induction l; intros; cbn; [done|]. by rewrite <- IHl. Qed.
Lemma out_put l s : out (put l s) = rev (map Ev_rsp_write l) ++ out s.
Proof. revert s. induction l; intros; cbn; [done|]. by rewrite IHl, <- app_assoc. Qed.

Lemma octet_lxor c : octet c -> octet (Z.lxor c 0x20).
Proof. intros. unfold octet in *. apply lxor_range; lia. Qed.
Lemma u8_octet c : octet c -> u8 c = c.
Proof. intros. apply wrap_small, inty_U8. exact H. Qed.

Lemma hexchar_octet d : 0 <= d < 16 -> octet (hexchar d).
Proof.
  intros Hd. unfold octet. assert (E : forallb (fun n => let c := hexchar (Z.of_nat n) in (0 <=? c) && (c <? 256)) (seq 0 16) = true) by reflexivity.
  rewrite forallb_forall in E. specialize (E (Z.to_nat d)). rewrite Z2Nat.id in E by lia.
  specialize (E ltac:(apply in_seq; lia)). cbv zeta in E. lia.
Qed.

Ltac side := first [done | by rewrite ?put_cell | by split; vm_compute | by apply hexchar_octet | by apply octet_lxor].

(** The size of the buffer, as a number. *)
Ltac sizes := change GDB_BUF_MAX with 281 in *; change (Z.to_nat (281 - 1)) with 280%nat in *; lia.

Section Packets.
Context `{Client} (Hw : forall s, client_writable s = true).

Lemma put_char c (s : Sim) : octet c -> s Rsp_client_fd <> -1 -> put_rsp_char c s = Ok tt (put [c] s).
Proof.
  intros Hc Hfd. unfold put_rsp_char, bind at 1, rd. destruct (Z.eqb_spec (s Rsp_client_fd) (-1)); [done|].
  unfold bind, gets. rewrite Hw. unfold emit, modify. by rewrite u8_octet.
Qed.
Lemma get_char c l (s : Sim) : input s = c :: l -> s Rsp_client_fd <> -1 -> get_rsp_char s = Ok (u8 c) (set_rsp_input l s).
Proof.
  intros E Hfd. unfold get_rsp_char, bind at 1, rd. destruct (Z.eqb_spec (s Rsp_client_fd) (-1)); [done|].
  unfold bind, gets. unfold input in E. by rewrite E.
Qed.

(** ** Sending *)

Lemma put_body_run l c (s : Sim) :
  Forall octet l -> s Rsp_client_fd <> -1 ->
  put_body l c s = Ok (foldl add_sum c (escape l)) (put (escape l) s).
Proof.
  intros Hl. revert c s. induction Hl as [|x l Hx _ IH]; intros c s Hfd; [done|].
  rewrite escape_cons. cbn [put_body]. unfold escape1. destruct (special x); cbn [app foldl put].
  - unfold bind. rewrite put_char by side. cbv zeta.
    rewrite put_char by side. by rewrite IH by side.
  - unfold bind. rewrite put_char by done. by rewrite IH by side.
Qed.

Lemma sum_octet e : octet (sum e).
Proof.
  unfold sum. assert (Hg : forall c, octet c -> octet (foldl add_sum c e)); [|by apply Hg; split; vm_compute].
  induction e; intros; cbn; [done|]. apply IHe, octet_u8.
Qed.
Lemma sum_digits e : 0 <= Z.shiftr (sum e) 4 < 16 /\ 0 <= sum e mod 16 < 16.
Proof.
  pose proof (sum_octet e) as Hs. unfold octet in Hs. rewrite Z.shiftr_div_pow2 by lia. change (2 ^ 4) with 16.
  split; [|apply Z.mod_pos_bound; lia]. split; [apply Z.div_pos; lia | apply Z.div_lt_upper_bound; lia].
Qed.

Lemma put_frame_run l (k : M unit) (s : Sim) :
  Forall octet l -> s Rsp_client_fd <> -1 ->
  (put_rsp_char (chr "$");; checksum ← put_body l 0; put_rsp_char (chr "#");;
   put_rsp_char (hexchar (Z.shiftr checksum 4));; put_rsp_char (hexchar (checksum mod 16));; k) s =
  k (put (packet (escape l)) s).
Proof.
  intros Hl Hfd. destruct (sum_digits (escape l)) as [H1 H2]. unfold bind.
  rewrite put_char by side. rewrite put_body_run by side. fold (sum (escape l)).
  rewrite put_char by side. rewrite put_char by side. rewrite put_char by side.
  unfold packet. cbn [put]. by rewrite put_app.
Qed.

(** The packet is sent once more for every character that is not a '+'. *)
Lemma put_until_ack_run fuel l naks rest (s : Sim) :
  Forall octet l -> s Rsp_client_fd <> -1 -> (length naks < fuel)%nat ->
  Forall (fun c => octet c /\ c <> chr "+") naks -> input s = naks ++ chr "+" :: rest ->
  put_until_ack fuel l s =
  Ok tt (set_rsp_input rest (put (concat (replicate (S (length naks)) (packet (escape l)))) s)).
Proof.
  intros Hl. revert naks s. induction fuel as [|fuel IH]; intros naks s Hfd Hf Hn Hin; [lia|].
  cbn [put_until_ack]. rewrite put_frame_run by done. unfold bind.
  destruct Hn as [|c naks [Hc Hp] Hn].
  - rewrite (get_char (chr "+") rest) by (first [by rewrite put_cell | unfold input; by rewrite put_input]).
    cbn [length replicate concat]. by rewrite app_nil_r.
  - cbn [length app] in *.
    rewrite (get_char c (naks ++ chr "+" :: rest)) by (first [by rewrite put_cell | unfold input; by rewrite put_input]).
    rewrite u8_octet by done. unfold octet in Hc.
    destruct (Z.eqb_spec c (-1)); [lia|]. destruct (Z.eqb_spec c (chr "+")); [done|].
    rewrite (IH naks) by (first [done | cbn; by rewrite put_cell | lia]).
    rewrite put_set, <- put_app. done.
Qed.

(** ** Receiving *)

(** What a packet can change besides the bytes sent and the input. *)
Definition buffer_cell (c : cell) : Prop := match c with Rsp_data i => 0 <= i < GDB_BUF_MAX | G Rsp_len => True | _ => False end.
Record talk (s s' : Sim) : Prop := {
  talk_cells : frame buffer_cell s s';
  talk_queue : job_queue s' = job_queue s /\ free_jobs s' = free_jobs s;
  talk_areas : dev_list s' = dev_list s /\ mc_area s' = mc_area s /\ cur_area s' = cur_area s;
  talk_blocks : blocks s' = blocks s; talk_hooks : reset_hooks s' = reset_hooks s;
  talk_mp : mp_hash (dbg s') = mp_hash (dbg s); talk_bp : breakpoints (dbg s') = breakpoints (dbg s) }.
#[export] Instance talk_preorder : PreOrder talk.
Proof.
  split; [by split|]. intros x y z [] []. split; try congruence; [by etransitivity| |];
    repeat match goal with H : _ /\ _ |- _ => destruct H end; split_and?; congruence.
Qed.
Lemma talk_put l s : talk s (put l s).
Proof. revert s. induction l; intros; cbn [put]; [done|]. etransitivity; [|apply IHl]. by split. Qed.
Lemma talk_input i s : talk s (set_rsp_input i s).
Proof. by split. Qed.
Lemma talk_upd c v s : buffer_cell c -> talk s (upd c v s).
Proof. split; try done. by apply frame_upd. Qed.
Hint Resolve talk_put talk_input talk_upd : core.

(** The bytes [l] stored from index [i] on. *)
Fixpoint fill (i : Z) (l : list Z) (s : Sim) : Sim :=
  match l with [] => s | c :: l => fill (i + 1) l (upd (Rsp_data i) c s) end.
Lemma fill_talk i l s : 0 <= i -> i + Z.of_nat (length l) <= GDB_BUF_MAX -> talk s (fill i l s).
Proof.
  revert i s. induction l as [|c l IH]; intros i s Hi Hl; cbn [fill]; [done|]. cbn [length] in Hl.
  etransitivity; [|apply IH; lia]. apply talk_upd. cbn. lia.
Qed.
Lemma fill_input i l s : dbg (fill i l s) = dbg s.
Proof. revert i s. induction l; intros; cbn [fill]; [done|]. by rewrite IHl. Qed.
Lemma fill_out i l s : out (fill i l s) = out s.
Proof. revert i s. induction l; intros; cbn [fill]; [done|]. by rewrite IHl. Qed.
Lemma fill_other i l s c : (forall j, i <= j < i + Z.of_nat (length l) -> c <> Rsp_data j) -> fill i l s c = s c.
Proof.
  revert i s. induction l as [|x l IH]; intros i s Hc; cbn [fill]; [done|]. cbn [length] in Hc.
  rewrite IH by (intros j ?; apply Hc; lia). rewrite upd_ne; [done|]. intros <-. by apply (Hc i); [lia|].
Qed.
Lemma fill_at i l s k c : Forall octet l -> l !! k = Some c -> fill i l s (Rsp_data (i + Z.of_nat k)) = c.
Proof.
  intros Hl. revert i k s. induction Hl as [|x l Hx _ IH]; intros i k s Hk; [done|]. cbn [fill].
  destruct k as [|k]; [injection Hk as <-|].
  - rewrite fill_other by (intros j ? [=]; lia). replace (i + Z.of_nat 0) with i by lia. rewrite upd_eq. by apply u8_octet.
  - rewrite <- (IH (i + 1) k (upd (Rsp_data i) x s) Hk). by replace (i + Z.of_nat (S k)) with (i + 1 + Z.of_nat k) by lia.
Qed.

Definition body_char (c : Z) : Prop := octet c /\ c <> chr "$" /\ c <> chr "#".
Lemma body_octets b : Forall body_char b -> Forall octet b.
Proof. induction 1 as [|c b [] _ IH]; by constructor. Qed.
Definition MAX_BODY : nat := Z.to_nat (GDB_BUF_MAX - 1).
Definition received_sum (h1 h2 : Z) : Z := u8 (u8 (s32 (Z.shiftl (hex h1) 4)) + hex h2).

Lemma set_input_same i s : input s = i -> set_rsp_input i s = s.
Proof. destruct s as [? ? ? ? ? ? ? ? ? []]. cbn. by intros <-. Qed.
Lemma char_tests c : octet c -> (c =? -1) = false.
Proof. unfold octet. intros. lia. Qed.

(** The loop over the characters of a body. *)
Lemma read_chars b fuel count cs ch inp (s : Sim) :
  Forall body_char b -> 0 <= count -> count + Z.of_nat (length b) <= GDB_BUF_MAX - 1 ->
  s Rsp_client_fd <> -1 -> input s = b ++ inp ->
  read_body (length b + fuel) count cs ch s =
  read_body fuel (count + Z.of_nat (length b)) (foldl add_sum cs b) (foldl (fun _ c => c) ch b)
    (fill count b (set_rsp_input inp s)).
Proof.
  intros Hb. revert count cs ch s. induction Hb as [|c b (Ho & Hd & Hh) _ IH]; intros count cs ch s H0 Hl Hfd Hin.
  - cbn [length Nat.add fill foldl]. rewrite set_input_same by done. by rewrite Z.add_0_r.
  - cbn [length] in *. cbn [Nat.add read_body]. destruct (Z.ltb_spec count (GDB_BUF_MAX - 1)); [|lia].
    unfold bind at 1. rewrite (get_char c (b ++ inp)) by done. rewrite u8_octet, char_tests by done.
    destruct (Z.eqb_spec c (chr "$")); [done|]. destruct (Z.eqb_spec c (chr "#")); [done|].
    unfold bind, wr. rewrite IH by (first [lia | done]). cbn [foldl fill].
    by replace (count + Z.of_nat (S (length b))) with (count + 1 + Z.of_nat (length b)) by lia.
Qed.

(** The bytes sent among the events, the last one first. *)
Definition written (l : list event) : list Z :=
  omap (fun e => match e with Ev_rsp_write c => Some c | _ => None end) l.
Definition replied (r : list Z) (s s' : Sim) : Prop :=
  talk s s' /\ written (out s') = rev r ++ written (out s).
Lemma replied_trans r1 r2 s1 s2 s3 : replied r1 s1 s2 -> replied r2 s2 s3 -> replied (r1 ++ r2) s1 s3.
Proof.
  intros [T1 E1] [T2 E2]. split; [by etransitivity|]. by rewrite E2, E1, rev_app_distr, app_assoc.
Qed.
Lemma replied_nil s s' : talk s s' -> out s' = out s -> replied [] s s'.
Proof. intros T E. split; [done|]. by rewrite E. Qed.
Lemma replied_warning s : replied [] s (add_event Ev_warning s).
Proof. split; [by split | done]. Qed.
Lemma replied_put l s : replied l s (put l s).
Proof.
  split; [apply talk_put|]. revert s. induction l as [|c l IH]; intros s; cbn [put]; [done|].
  rewrite IH. cbn. by rewrite <- app_assoc.
Qed.
Lemma replied_input i s : replied [] s (set_rsp_input i s).
Proof. apply replied_nil; [apply talk_input | done]. Qed.
Lemma talk_fd s s' : talk s s' -> s Rsp_client_fd <> -1 -> s' Rsp_client_fd <> -1.
Proof. intros T. rewrite (talk_cells _ _ T); [done|]. cbn. tauto. Qed.

(** The first bytes of the buffer. *)
Definition buffered (b : list Z) (s : Sim) : Prop := forall k c, b !! k = Some c -> s (Rsp_data (Z.of_nat k)) = c.

(** A packet up to its end, after some that were not finished: the '$' of the
    next one came first. *)
Definition unfinished (ab : list (list Z)) : list Z := concat (map (fun b => b ++ [chr "$"]) ab).
Definition body_ok (n : nat) (b : list Z) : Prop := Forall body_char b /\ (length b < n)%nat.

Lemma read_frame ab b fuel inp (s : Sim) :
  Forall (body_ok MAX_BODY) ab -> body_ok (S MAX_BODY) b -> s Rsp_client_fd <> -1 ->
  input s = unfinished ab ++ b ++ inp ->
  exists s', read_body (length (unfinished ab) + (length b + fuel)) 0 0 (chr "$") s =
      read_body fuel (Z.of_nat (length b)) (sum b) (foldl (fun _ c => c) (chr "$") b) s' /\
    replied [] s s' /\ input s' = inp /\ buffered b s'.
Proof.
  intros Hab [Hb Hlen]. revert s. induction Hab as [|a ab [Ha Hla] _ IH]; intros s Hfd Hin.
  - exists (fill 0 b (set_rsp_input inp s)). cbn [unfinished map concat length Nat.add app] in *. unfold MAX_BODY in *.
    rewrite (read_chars b fuel 0 0 (chr "$") inp) by (first [done | sizes]).
    split; [done|]. split; [|split].
    + apply replied_nil; [|by rewrite fill_out]. etransitivity; [apply talk_input|]. apply fill_talk; sizes.
    + unfold input. by rewrite fill_input.
    + intros k c Hk. rewrite <- (fill_at 0 b (set_rsp_input inp s) k c); [done| |done].
      by apply body_octets.
  - unfold unfinished in *. cbn [map concat] in *. rewrite <- !app_assoc in Hin. unfold MAX_BODY in *.
    rewrite !length_app. cbn [length].
    replace (length a + 1 + length (concat (map (fun b0 => b0 ++ [chr "$"]) ab)) + (length b + fuel))%nat
      with (length a + S (length (concat (map (fun b0 => b0 ++ [chr "$"]) ab)) + (length b + fuel)))%nat by lia.
    erewrite (read_chars a) by (first [done | sizes]). cbn [read_body].
    destruct (Z.ltb_spec (0 + Z.of_nat (length a)) (GDB_BUF_MAX - 1)); [|sizes].
    set (s1 := fill 0 a _). assert (T1 : talk s s1).
    { etransitivity; [apply talk_input|]. apply fill_talk; sizes. }
    unfold bind at 1. erewrite (get_char (chr "$")); [| unfold input, s1; by rewrite fill_input | by eapply talk_fd].
    cbn [Z.eqb]. rewrite (u8_octet (chr "$")) by side. cbn [Z.eqb].
    rewrite char_tests, Z.eqb_refl by side.
    edestruct (IH (set_rsp_input (concat (map (fun b0 => b0 ++ [chr "$"]) ab) ++ b ++ inp) s1)) as (s' & E & R & Hi & Hbuf);
      [exact (talk_fd _ _ T1 Hfd) | done |].
    exists s'. split; [exact E|]. split; [|done]. eapply (replied_trans [] []); [|exact R].
    apply replied_nil; [by etransitivity; [exact T1 | apply talk_input]|]. cbn. unfold s1. by rewrite fill_out.
Qed.

Lemma buffered_end b s : Forall octet b -> buffered b s -> Z.of_nat (length b) < 2 ^ 31 ->
  buffered (b ++ [0]) (upd Rsp_len (Z.of_nat (length b)) (upd (Rsp_data (Z.of_nat (length b))) 0 s)).
Proof.
  intros Ho Hb Hl k c Hk. look. destruct (decide (k < length b)%nat) as [Hlt|Hge].
  - rewrite lookup_app_l in Hk by done. look. by apply Hb.
  - rewrite lookup_app_r in Hk by lia. apply list_lookup_singleton_Some in Hk as [Hk <-].
    replace k with (length b) by lia. by rewrite upd_eq.
Qed.

(** The end of a packet: the checksum is compared and answered. *)
Lemma check_sum_run cs h1 h2 rest (s : Sim) :
  octet h1 -> octet h2 -> s Rsp_client_fd <> -1 -> input s = h1 :: h2 :: rest ->
  exists s', check_sum cs s = Ok (Some (cs =? received_sum h1 h2)) s' /\ input s' = rest /\
    (forall c, s' c = s c) /\ replied [if cs =? received_sum h1 h2 then chr "+" else chr "-"] s s'.
Proof.
  intros Ho1 Ho2 Hfd Hin. unfold check_sum, bind at 1. rewrite (get_char h1 (h2 :: rest)) by done.
  rewrite u8_octet, char_tests by done. cbv zeta. unfold bind at 1. rewrite (get_char h2 rest) by done.
  rewrite u8_octet, char_tests by done. fold (received_sum h1 h2).
  destruct (cs =? received_sum h1 h2); cbn [negb].
  - unfold bind. rewrite put_char by side. eexists. split; [done|]. split; [done|]. split; [done|].
    eapply (replied_trans [] [_]); [apply (replied_input rest) | apply (replied_put [_])].
  - unfold bind, emit, modify. rewrite put_char by side. eexists. split; [done|].
    split; [done|]. split; [done|]. eapply (replied_trans [] [_]); [|apply (replied_put [_])].
    eapply (replied_trans [] []); [apply (replied_input rest) | apply replied_warning].
Qed.

Lemma packet_start inp (k : bool -> M bool) (s : Sim) :
  s Rsp_client_fd <> -1 -> input s = chr "$" :: inp ->
  (n ← input_fuel; started ← wait_start n; k started) s = k true (set_rsp_input inp s).
Proof.
  intros Hfd Hin. unfold input_fuel, bind at 1 2, gets, ret. fold (input s). rewrite Hin. cbn [length wait_start].
  unfold bind at 1 2. rewrite (get_char (chr "$") inp) by done. by rewrite (u8_octet (chr "$")), Z.eqb_refl by side.
Qed.

Lemma frame_step fuel ab b h1 h2 rest (s : Sim) :
  Forall (body_ok MAX_BODY) ab -> body_ok MAX_BODY b -> octet h1 -> octet h2 -> s Rsp_client_fd <> -1 ->
  input s = chr "$" :: unfinished ab ++ b ++ chr "#" :: h1 :: h2 :: rest ->
  exists s', get_packets (S fuel) s =
      (if sum b =? received_sum h1 h2 then Ok true s' else get_packets fuel s') /\
    replied [if sum b =? received_sum h1 h2 then chr "+" else chr "-"] s s' /\ input s' = rest /\
    buffered (b ++ [0]) s' /\ s' Rsp_len = Z.of_nat (length b).
Proof.
  intros Hab [Hb Hl] Ho1 Ho2 Hfd Hin. cbn [get_packets]. rewrite (packet_start _ _ _ Hfd Hin). cbn [negb].
  set (s1 := set_rsp_input _ s). unfold input_fuel, bind at 1 2, gets, ret. fold (input s1).
  assert (E1 : input s1 = unfinished ab ++ b ++ chr "#" :: h1 :: h2 :: rest) by done. rewrite E1.
  edestruct (read_frame ab b (S (length (h1 :: h2 :: rest)) + 1) (chr "#" :: h1 :: h2 :: rest) s1)
    as (s2 & E2 & R2 & Hi2 & Hb2); [done | split; [done | lia] | done | done |].
  rewrite !length_app. cbn [length] in *.
  replace (S (length (unfinished ab) + (length b + S (S (S (length rest))))))
    with (length (unfinished ab) + (length b + (S (S (S (length rest))) + 1)))%nat by lia.
  unfold bind at 1. rewrite E2. clear E2. cbn [Nat.add read_body]. unfold MAX_BODY in *.
  destruct (Z.ltb_spec (Z.of_nat (length b)) (GDB_BUF_MAX - 1)); [|sizes].
  assert (Hfd2 : s2 Rsp_client_fd <> -1) by exact (talk_fd _ _ (proj1 R2) Hfd).
  unfold bind at 1 2. rewrite (get_char (chr "#") (h1 :: h2 :: rest)) by done.
  rewrite (u8_octet (chr "#")), char_tests by side. change (chr "#" =? chr "$") with false. cbv iota.
  rewrite Z.eqb_refl. unfold ret at 1, bind at 1, wr at 1. unfold bind at 1, wr at 1.
  set (s3 := upd Rsp_len _ _).
  edestruct (check_sum_run (sum b) h1 h2 rest s3) as (s4 & E4 & Hi4 & Hc4 & R4);
    [done | done | unfold s3; by look | done |].
  rewrite Z.eqb_refl. unfold bind at 1. rewrite E4.
  assert (R3 : replied [] s2 s3).
  { apply replied_nil; [|done]. unfold s3. etransitivity; [apply (talk_input (h1 :: h2 :: rest))|].
    etransitivity; [apply talk_upd|apply talk_upd]; cbn; [sizes|done]. }
  exists s4. split; [by destruct (sum b =? _)|]. split; [|split; [done|split]].
  - eapply (replied_trans []); [|exact R4]. eapply (replied_trans [] []); [|exact R3].
    eapply (replied_trans [] []); [apply replied_input | exact R2].
  - intros k c Hk. rewrite Hc4. revert k c Hk.
    apply buffered_end; [by apply body_octets | exact Hb2 | sizes].
  - rewrite Hc4. unfold s3. look. apply wrap_small, inty_I32. sizes.
Qed.

(** A body of as many characters as the buffer has fills it, and is dropped
    without an answer. *)
Lemma overrun_step fuel ab b rest (s : Sim) :
  Forall (body_ok MAX_BODY) ab -> Forall body_char b -> length b = MAX_BODY -> s Rsp_client_fd <> -1 ->
  input s = chr "$" :: unfinished ab ++ b ++ rest ->
  exists s', get_packets (S fuel) s = get_packets fuel s' /\ replied [] s s' /\ input s' = rest.
Proof.
  intros Hab Hb Hl Hfd Hin. cbn [get_packets]. rewrite (packet_start _ _ _ Hfd Hin). cbn [negb].
  set (s1 := set_rsp_input _ s). unfold input_fuel, bind at 1 2, gets, ret. fold (input s1).
  assert (E1 : input s1 = unfinished ab ++ b ++ rest) by done. rewrite E1.
  edestruct (read_frame ab b (S (length rest)) rest s1)
    as (s2 & E2 & R2 & Hi2 & Hb2); [done | split; [done | lia] | done | done |].
  rewrite !length_app.
  replace (S (length (unfinished ab) + (length b + length rest)))
    with (length (unfinished ab) + (length b + S (length rest)))%nat by lia.
  unfold bind at 1. rewrite E2. clear E2. cbn [read_body]. unfold MAX_BODY in *.
  destruct (Z.ltb_spec (Z.of_nat (length b)) (GDB_BUF_MAX - 1)); [sizes|].
  unfold ret at 1, bind at 1, wr at 1. unfold bind at 1, wr at 1. set (s3 := upd Rsp_len _ _).
  assert (Hlast : (foldl (fun _ c : Z => c) (chr "$") b =? chr "#") = false).
  { assert (Hg : forall x, x <> chr "#" -> foldl (fun _ c : Z => c) x b <> chr "#"); [|by apply Z.eqb_neq, Hg].
    clear -Hb. induction Hb as [|c b (_ & _ & Hc) _ IH]; intros x Hx; cbn [foldl]; auto. }
  rewrite Hlast. unfold bind, emit, modify. eexists. split; [done|]. split; [|done].
  eapply (replied_trans [] []); [apply (replied_input (unfinished ab ++ b ++ rest))|].
  eapply (replied_trans [] []); [exact R2|]. eapply (replied_trans [] []); [|apply replied_warning].
  apply replied_nil; [|done]. unfold s3. etransitivity; [apply talk_upd|apply talk_upd]; cbn; [sizes|done].
Qed.

(** What can come before a packet, with the answers it gets: characters outside
    of packets, packets with a wrong checksum, packets that fill the buffer. *)
Inductive noise : list Z -> list Z -> Prop :=
| noise_end : noise [] []
| noise_junk c l r : octet c -> c <> chr "$" -> noise l r -> noise (c :: l) r
| noise_sum ab b h1 h2 l r : Forall (body_ok MAX_BODY) ab -> body_ok MAX_BODY b -> octet h1 -> octet h2 ->
    sum b <> received_sum h1 h2 -> noise l r ->
    noise (chr "$" :: unfinished ab ++ b ++ chr "#" :: h1 :: h2 :: l) (chr "-" :: r)
| noise_long ab b l r : Forall (body_ok MAX_BODY) ab -> Forall body_char b -> length b = MAX_BODY ->
    noise l r -> noise (chr "$" :: unfinished ab ++ b ++ l) r.

Lemma wait_skip n c l (s : Sim) :
  octet c -> c <> chr "$" -> s Rsp_client_fd <> -1 -> input s = c :: l ->
  wait_start (S n) s = wait_start n (set_rsp_input l s).
Proof.
  intros Ho Hc Hfd Hin. cbn [wait_start]. unfold bind. rewrite (get_char c l) by done.
  rewrite u8_octet, char_tests by done. by destruct (Z.eqb_spec c (chr "$")).
Qed.
Lemma junk_step fuel c l (s : Sim) :
  octet c -> c <> chr "$" -> s Rsp_client_fd <> -1 -> input s = c :: l ->
  get_packets (S fuel) s = get_packets (S fuel) (set_rsp_input l s).
Proof.
  intros Ho Hc Hfd Hin. cbn [get_packets]. unfold input_fuel, bind at 1 2, gets, ret. fold (input s). rewrite Hin.
  cbn [length]. unfold bind at 1. by rewrite (wait_skip _ c l s).
Qed.

Lemma finds fuel l r ab b h1 h2 rest (s : Sim) :
  noise l r -> Forall (body_ok MAX_BODY) ab -> body_ok MAX_BODY b -> octet h1 -> octet h2 ->
  sum b = received_sum h1 h2 -> s Rsp_client_fd <> -1 -> (length l < fuel)%nat ->
  input s = l ++ chr "$" :: unfinished ab ++ b ++ chr "#" :: h1 :: h2 :: rest ->
  exists s', get_packets fuel s = Ok true s' /\ replied (r ++ [chr "+"]) s s' /\ input s' = rest /\
    buffered (b ++ [0]) s' /\ s' Rsp_len = Z.of_nat (length b).
Proof.
  intros Hn Hab Hb Ho1 Ho2 Hsum. revert fuel s.
  induction Hn as [|c l r Ho Hc _ IH|ab' b' g1 g2 l r Hab' Hb' Hg1 Hg2 Hs' _ IH|ab' b' l r Hab' Hb' Hl' _ IH];
    intros fuel s Hfd Hf Hin; (destruct fuel as [|fuel]; [lia|]).
  - destruct (frame_step fuel ab b h1 h2 rest s) as (s' & E & R & Hi & Hbuf & Hlen); [done..|].
    rewrite Hsum, Z.eqb_refl in E, R. by exists s'.
  - rewrite (junk_step fuel c _ s Ho Hc Hfd Hin). cbn [length] in Hf.
    destruct (IH (S fuel) (set_rsp_input (l ++ chr "$" :: unfinished ab ++ b ++ chr "#" :: h1 :: h2 :: rest) s))
      as (s' & E & R & H1); [done | lia | done |].
    exists s'. split; [done|]. split; [|done]. eapply (replied_trans []); [apply replied_input | exact R].
  - cbn [app] in Hin. rewrite <- !app_assoc in Hin. cbn [app] in Hin.
    destruct (frame_step fuel ab' b' g1 g2 _ s Hab' Hb' Hg1 Hg2 Hfd Hin) as (s1 & E1 & R1 & Hi1 & _).
    destruct (Z.eqb_spec (sum b') (received_sum g1 g2)); [done|].
    cbn [length] in Hf. rewrite !length_app in Hf. cbn [length] in Hf.
    destruct (IH fuel s1) as (s' & E & R & H1); [exact (talk_fd _ _ (proj1 R1) Hfd) | lia | done |].
    exists s'. split; [congruence|]. split; [|done]. exact (replied_trans [_] _ _ _ _ R1 R).
  - cbn [app] in Hin. rewrite <- !app_assoc in Hin.
    destruct (overrun_step fuel ab' b' _ s Hab' Hb' Hl' Hfd Hin) as (s1 & E1 & R1 & Hi1).
    cbn [length] in Hf. rewrite !length_app in Hf.
    destruct (IH fuel s1) as (s' & E & R & H1); [exact (talk_fd _ _ (proj1 R1) Hfd) | lia | done |].
    exists s'. split; [congruence|]. split; [|done]. exact (replied_trans [] _ _ _ _ R1 R).
Qed.

(** C23: Whatever comes before it, a packet with the right checksum is found:
    characters outside packets are skipped, a '$' starts the packet again, each
    packet with a wrong checksum is answered by '-', one that fills the buffer
    is dropped without an answer, and the valid packet is answered by '+', is in
    the buffer with a NUL after it, and nothing that follows it has been
    read. *)
Theorem get_packet_finds l r ab b h1 h2 rest (s : Sim) :
  noise l r -> Forall (body_ok MAX_BODY) ab -> body_ok MAX_BODY b -> octet h1 -> octet h2 ->
  sum b = received_sum h1 h2 -> s Rsp_client_fd <> -1 ->
  input s = l ++ chr "$" :: unfinished ab ++ b ++ chr "#" :: h1 :: h2 :: rest ->
  exists s', get_packet s = Ok true s' /\ replied (r ++ [chr "+"]) s s' /\ input s' = rest /\
    buffered (b ++ [0]) s' /\ s' Rsp_len = Z.of_nat (length b).
Proof.
  intros Hn Hab Hb Ho1 Ho2 Hsum Hfd Hin. unfold get_packet, input_fuel, bind, gets, ret. fold (input s).
  apply (finds _ l r ab b h1 h2 rest); auto. rewrite Hin, length_app. lia.
Qed.

(** ** What is sent is received *)

Lemma escape1_body c : octet c -> Forall body_char (escape1 c).
Proof.
  intros Hc. unfold escape1. destruct (special c) eqn:Es.
  - repeat constructor; try (by side); try (by apply octet_lxor); unfold special in Es; intros E;
      apply (f_equal (fun x => Z.lxor x 0x20)) in E; rewrite Z.lxor_assoc, Z.lxor_nilpotent, Z.lxor_0_r in E; by subst c.
  - unfold special in Es. rewrite !orb_false_iff, !Z.eqb_neq in Es. destruct Es as [[[H1 H2] _] _].
    repeat constructor; [apply Hc | apply Hc | congruence | congruence].
Qed.
Lemma escape_body p : Forall octet p -> Forall body_char (escape p).
Proof. induction 1 as [|c p Hc _ IH]; [constructor|]. rewrite escape_cons. apply Forall_app_2; [by apply escape1_body | done]. Qed.

Lemma sum_sent e : received_sum (hexchar (Z.shiftr (sum e) 4)) (hexchar (sum e mod 16)) = sum e.
Proof.
  assert (E : forallb (fun n => let c := Z.of_nat n in received_sum (hexchar (Z.shiftr c 4)) (hexchar (c mod 16)) =? c)
    (seq 0 256) = true) by (vm_compute; reflexivity).
  rewrite forallb_forall in E. pose proof (sum_octet e) as Hs. unfold octet in Hs. specialize (E (Z.to_nat (sum e))).
  rewrite Z2Nat.id in E by lia. apply Z.eqb_eq, E, in_seq. lia.
Qed.

(** A packet as [put_packet] sends it. *)
Lemma get_packet_valid l r b rest (s : Sim) :
  noise l r -> body_ok MAX_BODY b -> s Rsp_client_fd <> -1 -> input s = l ++ packet b ++ rest ->
  exists s', get_packet s = Ok true s' /\ replied (r ++ [chr "+"]) s s' /\ input s' = rest /\
    buffered (b ++ [0]) s' /\ s' Rsp_len = Z.of_nat (length b).
Proof.
  intros Hn Hb Hfd Hin. destruct (sum_digits b) as [H1 H2]. unfold get_packet, input_fuel, bind, gets, ret. fold (input s).
  apply (finds _ l r [] b (hexchar (Z.shiftr (sum b) 4)) (hexchar (sum b mod 16)) rest);
    [done | constructor | done | by apply hexchar_octet | by apply hexchar_octet | by rewrite sum_sent | done
    | rewrite Hin, length_app; lia |].
  rewrite Hin. unfold packet. cbn [unfinished map concat app]. by rewrite <- !app_assoc.
Qed.

(** Reversing the escapes in place: the characters written are behind those
    still to be read. *)
Lemma unescape_run p : forall fuel base from to (s : Sim),
  Forall octet p -> (length (escape p) < fuel)%nat -> 0 <= base -> 0 <= to <= from ->
  base + from + Z.of_nat (length (escape p)) <= GDB_BUF_MAX ->
  (forall k c, escape p !! k = Some c -> s (Rsp_data (base + from + Z.of_nat k)) = c) ->
  unescape_from fuel base (from + Z.of_nat (length (escape p))) from to s =
  Ok (to + Z.of_nat (length p)) (fill (base + to) p s).
Proof.
  induction p as [|x p IH]; intros fuel base from to s Hp Hf Hb Ht Hm Hbuf; (destruct fuel as [|fuel]; [lia|]);
    cbn [unescape_from].
  - cbn [length escape map concat fill Z.of_nat] in *. rewrite !Z.add_0_r. by rewrite Z.ltb_irrefl.
  - inversion_clear Hp as [|? ? Hx Hp']. rewrite escape_cons, length_app in *.
    assert (Hget : forall k c (s : Sim), (0 <= k)%Z -> (k < Z.of_nat (length (escape1 x) + length (escape p)))%Z ->
      s (Rsp_data (base + from + k)) = c -> buf_get (base + (from + k)) s = Ok c s).
    { intros k c s1 H0 H1 E. unfold buf_get. rewrite Z.add_assoc.
      destruct (Z.leb_spec 0 (base + from + k)), (Z.ltb_spec (base + from + k) GDB_BUF_MAX); try lia. cbv [andb rd]. by rewrite E. }
    assert (Hlt : (from <? from + Z.of_nat (length (escape1 x) + length (escape p))) = true).
    { apply Z.ltb_lt. unfold escape1. destruct (special x); cbn [length]; lia. }
    rewrite Hlt. cbn [negb]. clear Hlt.
    assert (Hput : forall c (s : Sim), buf_put (base + to) c s = Ok tt (upd (Rsp_data (base + to)) c s)).
    { intros c s1. unfold buf_put. destruct (Z.leb_spec 0 (base + to)), (Z.ltb_spec (base + to) GDB_BUF_MAX); try lia; [done|].
      unfold escape1 in *. destruct (special x); cbn [length] in *; lia. }
    assert (Hrest : forall n, (n = length (escape1 x))%nat -> (n + length (escape p) < S fuel)%nat -> (0 < n)%nat ->
      unescape_from fuel base (from + Z.of_nat (length (escape1 x) + length (escape p))) (from + Z.of_nat n) (to + 1)
        (upd (Rsp_data (base + to)) x s) =
      Ok (to + Z.of_nat (length (x :: p))) (fill (base + to) (x :: p) s)).
    { intros n En Hn H0.
      replace (from + Z.of_nat (length (escape1 x) + length (escape p)))
        with (from + Z.of_nat n + Z.of_nat (length (escape p))) by lia.
      rewrite IH; [| done | lia | lia | lia | lia |].
      - cbn [length fill]. rewrite Z.add_assoc. by replace (to + Z.of_nat (S (length p))) with (to + 1 + Z.of_nat (length p)) by lia.
      - intros k c Hk. rewrite upd_ne by (intros [=]; lia).
        replace (base + (from + Z.of_nat n) + Z.of_nat k) with (base + from + Z.of_nat (n + k)) by lia.
        apply Hbuf. rewrite lookup_app_r by lia. by replace (n + k - length (escape1 x))%nat with k by lia. }
    assert (H0 := Hbuf 0%nat). rewrite Z.add_0_r in H0. unfold escape1 in *. destruct (special x) eqn:Ex; cbn [app length] in *.
    + unfold bind at 1. rewrite <- (Z.add_0_r from) at 1. rewrite (Hget 0 (chr "}")) by (first [lia | rewrite Z.add_0_r; by apply H0]).
      rewrite Z.eqb_refl. unfold bind at 1. rewrite (Hget 1 (Z.lxor x 0x20)) by (first [lia | by apply (Hbuf 1%nat)]).
      rewrite Z.lxor_assoc, Z.lxor_nilpotent, Z.lxor_0_r. unfold bind. rewrite Hput.
      specialize (Hrest 2%nat). rewrite <- Z.add_assoc. apply Hrest; lia.
    + unfold bind at 1. rewrite <- (Z.add_0_r from) at 1. rewrite (Hget 0 x) by (first [lia | rewrite Z.add_0_r; by apply H0]).
      unfold special in Ex. rewrite !orb_false_iff, !Z.eqb_neq in Ex. destruct (Z.eqb_spec x (chr "}")) as [E|_]; [by destruct Ex|].
      unfold bind. rewrite Hput. apply (Hrest 1%nat); lia.
Qed.

(** C22: What one side sends the other receives: [put_packet] escapes the bytes
    [p] and repeats the packet until it is acknowledged; [get_packet], given the
    bytes of the packet, acknowledges it, and [rsp_unescape] leaves [p] at the
    start of the buffer. *)
Theorem packet_roundtrip p naks rest rest' (s r : Sim) :
  Forall octet p -> (length (escape p) < MAX_BODY)%nat ->
  s Rsp_client_fd <> -1 -> Forall (fun c => octet c /\ c <> chr "+") naks -> input s = naks ++ chr "+" :: rest ->
  r Rsp_client_fd <> -1 -> input r = packet (escape p) ++ rest' ->
  (exists s', put_packet p s = Ok tt s' /\ input s' = rest /\
     replied (concat (replicate (S (length naks)) (packet (escape p)))) s s') /\
  exists r1 r2, get_packet r = Ok true r1 /\ replied [chr "+"] r r1 /\ input r1 = rest' /\
    rsp_unescape 0 (r1 Rsp_len) r1 = Ok (Z.of_nat (length p)) r2 /\ buffered p r2.
Proof.
  intros Hp Hlen Hs Hn Hin Hr Hin'. split.
  - unfold put_packet, input_fuel, bind, gets, ret. fold (input s).
    rewrite (put_until_ack_run _ p naks rest s) by (first [done | rewrite Hin, length_app; cbn; lia]).
    eexists. split; [done|]. split; [done|]. set (q := concat _).
    pose proof (replied_trans _ [] _ _ _ (replied_put q s) (replied_input rest _)) as R. by rewrite app_nil_r in R.
  - pose proof (escape_body p Hp) as Hb.
    destruct (get_packet_valid [] [] (escape p) rest' r) as (r1 & E1 & R1 & Hi1 & Hbuf & Hl1); [apply noise_end | done..|].
    exists r1, (fill 0 p r1). split; [done|]. split; [done|]. split; [done|]. unfold MAX_BODY in *. split.
    + unfold rsp_unescape. rewrite Hl1.
      rewrite <- (Z.add_0_l (Z.of_nat (length (escape p)))) at 2. rewrite (unescape_run p);
        [done | done | lia | done | done | sizes |].
      intros k c Hk. apply Hbuf. rewrite lookup_app_l; [done|]. by eapply lookup_lt_Some.
    + intros k c Hk. by rewrite <- (fill_at 0 p r1 k c).
Qed.
End Packets.

(** ** The receiver is safe *)

Section Safe.
Context `{Client}.
Let W (c : cell) : Prop := buffer_cell c \/ c = G Rsp_client_fd.
Let Wfd (c : cell) : Prop := c = G Rsp_client_fd.
(** A run that sends and reads characters, whatever becomes of the connection:
    it changes nothing else of the simulator. *)
Record chat (s s' : Sim) : Prop := {
  chat_cells : frame Wfd s s';
  chat_queue : job_queue s' = job_queue s /\ free_jobs s' = free_jobs s;
  chat_areas : dev_list s' = dev_list s /\ mc_area s' = mc_area s /\ cur_area s' = cur_area s;
  chat_blocks : blocks s' = blocks s; chat_hooks : reset_hooks s' = reset_hooks s;
  chat_mp : mp_hash (dbg s') = mp_hash (dbg s); chat_bp : breakpoints (dbg s') = breakpoints (dbg s) }.
#[export] Instance chat_preorder : PreOrder chat.
Proof.
  split; [by split|]. intros x y z [] []. split; try congruence; [by etransitivity| |];
    repeat match goal with H : _ /\ _ |- _ => destruct H end; split_and?; congruence.
Qed.
Lemma chat_event e s : chat s (add_event e s).
Proof. by split. Qed.
Lemma close_chat (s : Sim) : exists s', rsp_client_close s = Ok tt s' /\ chat s s' /\ input s' = input s.
Proof.
  unfold rsp_client_close, bind, rd. destruct (s Rsp_client_fd =? -1); cbn [negb when]; eexists; (split; [done|]); split; try done.
  split; try done. apply frame_trans_upd; [done | done].
Qed.
Lemma put_char_chat c (s : Sim) : exists s', put_rsp_char c s = Ok tt s' /\ chat s s' /\ input s' = input s.
Proof.
  unfold put_rsp_char, bind at 1, rd. destruct (_ =? _); [by eexists|].
  unfold bind at 1, gets. destruct (client_writable s); [by eexists|].
  unfold bind, emit, modify. destruct (close_chat (add_event Ev_warning s)) as (s' & -> & C & E).
  exists s'. split; [done|]. split; [|done]. etransitivity; [apply chat_event | exact C].
Qed.
Lemma get_char_chat (s : Sim) : exists ch s', get_rsp_char s = Ok ch s' /\ chat s s' /\
  (ch = -1 /\ input s' = input s \/ octet ch /\ S (length (input s')) = length (input s)).
Proof.
  unfold get_rsp_char, bind at 1, rd. destruct (_ =? _); [exists (-1); eexists; split; [done|]; split; [done | by left]|].
  unfold bind, gets. fold (input s). destruct (input s) as [|c l] eqn:E.
  - destruct (close_chat s) as (s' & -> & F & Ei). exists (-1), s'. split; [done|]. split; [done|]. left. by rewrite Ei, E.
  - exists (u8 c), (set_rsp_input l s). split; [done|]. split; [done|]. right. split; [apply octet_u8 | done].
Qed.
Lemma chat_frame s s' : chat s s' -> frame W s s'.
Proof. intros C c Hc. apply C. intros E. apply Hc. by right. Qed.

(** A run that returns with [Q], writes only [W] and leaves at most [n] bytes. *)
Let runs {A} (m : M A) (n : nat) (Q : A -> Sim -> Prop) (s : Sim) : Prop :=
  exists a s', m s = Ok a s' /\ frame W s s' /\ (length (input s') <= n)%nat /\ Q a s'.

Lemma wait_start_runs fuel (s : Sim) : (length (input s) < fuel)%nat ->
  runs (wait_start fuel) (length (input s)) (fun b s' => b = true -> (length (input s') < length (input s))%nat) s.
Proof.
  revert s. induction fuel as [|fuel IH]; intros s Hf; [lia|]. unfold runs. cbn [wait_start]. unfold bind.
  destruct (get_char_chat s) as (ch & s1 & -> & F%chat_frame & [[-> Hi]|[Ho Hi]]).
  - exists false, s1. rewrite Hi. by repeat split.
  - destruct (ch =? chr "$"); [exists true, s1; repeat split; [done | lia | lia]|]. rewrite char_tests by done.
    destruct (IH s1) as (b & s2 & E & F2 & Hl & Hb); [lia|]. exists b, s2.
    split; [done|]. split; [by etransitivity|]. split; [lia|]. intros ->. specialize (Hb eq_refl). lia.
Qed.

Lemma read_body_runs fuel count cs ch (s : Sim) :
  (length (input s) < fuel)%nat -> 0 <= count < GDB_BUF_MAX -> ch <> chr "#" ->
  runs (read_body fuel count cs ch) (length (input s)) (fun r _ => match r with
    | Some (ch, count, _) => 0 <= count < GDB_BUF_MAX /\ (ch = chr "#" -> count < GDB_BUF_MAX - 1) | None => True end) s.
Proof.
  revert count cs ch s. induction fuel as [|fuel IH]; intros count cs ch s Hf Hc Hch; [lia|]. unfold runs. cbn [read_body].
  destruct (Z.ltb_spec count (GDB_BUF_MAX - 1)); [|exists (Some (ch, count, cs)), s; split_and!; try done; try lia; intros E; by destruct Hch].
  unfold bind at 1. destruct (get_char_chat s) as (c & s1 & -> & F%chat_frame & [[-> Hi]|[Ho Hi]]).
  { exists None, s1. rewrite Hi. by repeat split. }
  rewrite char_tests by done. destruct (Z.eqb_spec c (chr "$")) as [->|].
  { destruct (IH 0 0 (chr "$") s1) as (r & s2 & E & F2 & Hl & HQ); [lia | done | done |].
    exists r, s2. split; [done|]. split; [by etransitivity|]. split; [lia | done]. }
  destruct (Z.eqb_spec c (chr "#")) as [->|].
  { exists (Some (chr "#", count, cs)), s1. split; [done|]. split; [done|]. split; [lia | done]. }
  unfold bind, wr. destruct (IH (count + 1) (u8 (cs + c)) c (upd (Rsp_data count) c s1)) as (r & s2 & E & F2 & Hl & HQ);
    [change (input (upd (Rsp_data count) c s1)) with (input s1); lia | lia | done |].
  exists r, s2. split; [done|]. change (input (upd (Rsp_data count) c s1)) with (input s1) in Hl.
  split; [|split; [lia | done]]. etransitivity; [exact F|]. etransitivity; [|exact F2]. apply frame_upd. by left.
Qed.

Lemma check_sum_runs cs (s : Sim) : exists ok s', check_sum cs s = Ok ok s' /\ chat s s' /\
  (length (input s') <= length (input s))%nat.
Proof.
  unfold check_sum, bind at 1. destruct (get_char_chat s) as (c & s1 & -> & F & Hc).
  assert (Hl1 : (length (input s1) <= length (input s))%nat) by (destruct Hc as [[_ ->]|[_ <-]]; lia).
  destruct (c =? -1); [by exists None, s1|].
  cbv zeta. unfold bind at 1. destruct (get_char_chat s1) as (c2 & s2 & -> & F2 & Hc2).
  assert (Hl2 : (length (input s2) <= length (input s1))%nat) by (destruct Hc2 as [[_ ->]|[_ <-]]; lia).
  destruct (c2 =? -1); [exists None, s2; split; [done|]; split; [by etransitivity|]; lia|].
  destruct (cs =? _); cbn [negb]; unfold bind, emit, modify.
  - destruct (put_char_chat (chr "+") s2) as (s3 & -> & F3 & E3). exists (Some true), s3.
    split; [done|]. split; [by do 2 (etransitivity; [eassumption|])|]. rewrite E3; lia.
  - destruct (put_char_chat (chr "-") (add_event Ev_warning s2)) as (s3 & -> & F3 & E3). exists (Some false), s3.
    split; [done|]. split; [etransitivity; [exact F|]; etransitivity; [exact F2|]; etransitivity; [apply chat_event | exact F3]|].
    rewrite E3. change (input (add_event Ev_warning s2)) with (input s2). lia.
Qed.

(** C26: Receiving ends and stays in its buffer, whatever the client sends and
    whenever the connection breaks: the loops take at most a round for each
    character, nothing but the 281 places of the buffer, its length and the
    descriptor is written, and a packet that is returned has a NUL after its
    last character. *)
Theorem get_packet_safe (s : Sim) :
  exists ok s', get_packet s = Ok ok s' /\
    frame (fun c => buffer_cell c \/ c = G Rsp_client_fd) s s' /\
    (ok = true -> 0 <= s' Rsp_len < GDB_BUF_MAX - 1 /\ s' (Rsp_data (s' Rsp_len)) = 0).
Proof.
  unfold get_packet, input_fuel, bind at 1 2, gets, ret at 1. fold (input s).
  assert (Hf : (length (input s) < S (length (input s)))%nat) by lia. revert Hf.
  generalize (S (length (input s))) as fuel. intros fuel. revert s.
  induction fuel as [|fuel IH]; intros s Hf; [lia|]. cbn [get_packets].
  unfold input_fuel, bind at 1 2, gets, ret at 1. fold (input s).
  destruct (wait_start_runs (S (length (input s))) s) as (b & s1 & E1 & F1 & L1 & Q1); [lia|].
  unfold bind at 1. rewrite E1. destruct b; cbn [negb]; [|by exists false, s1]. specialize (Q1 eq_refl).
  unfold bind at 1 2, ret at 1. fold (input s1).
  destruct (read_body_runs (S (length (input s1))) 0 0 (chr "$") s1) as (r & s2 & E2 & F2 & L2 & Q2); [lia | done | done |].
  unfold bind at 1. rewrite E2. assert (F12 : frame W s s2) by (by etransitivity).
  destruct r as [[[ch count] cs]|]; [|by exists false, s2]. destruct Q2 as [Hc Hch].
  unfold bind at 1, wr at 1. unfold bind at 1, wr at 1. set (s3 := upd Rsp_len _ _).
  assert (F3 : frame W s s3).
  { unfold s3. apply frame_trans_upd; [by left|]. apply frame_trans_upd; [by left | done]. }
  destruct (Z.eqb_spec ch (chr "#")) as [->|].
  - destruct (check_sum_runs cs s3) as (ok & s4 & E4 & F4 & L4).
    change (input s3) with (input s2) in L4. unfold bind at 1. rewrite E4. assert (F34 : frame W s s4) by (etransitivity; [done | by apply chat_frame]).
    destruct ok as [[]|]; [| |by exists false, s4].
    + exists true, s4. split; [done|]. split; [done|]. intros _. specialize (Hch eq_refl).
      rewrite !(chat_cells _ _ F4) by discriminate. assert (El : s3 Rsp_len = count).
      { unfold s3. look. apply wrap_small, inty_I32. sizes. }
      rewrite El. split; [lia|]. unfold s3. by look.
    + destruct (IH s4) as (ok & s' & E & F & Q); [lia|]. exists ok, s'. split; [done|]. split; [by etransitivity | done].
  - unfold bind, emit, modify. destruct (IH (add_event Ev_warning s3)) as (ok & s' & E & F & Q).
    { change (input (add_event Ev_warning s3)) with (input s2). lia. }
    exists ok, s'. split; [done|]. split; [|done]. etransitivity; [exact F3 | exact F].
Qed.

(** Sending a packet returns. *)
Lemma put_body_chat l c (s : Sim) : exists c' s', put_body l c s = Ok c' s' /\ chat s s' /\ input s' = input s.
Proof.
  revert c s. induction l as [|x l IH]; intros c s; cbn [put_body]; [by eexists _, _|].
  assert (Hx : forall x c (s : Sim), exists c' s', (put_rsp_char x;; put_body l c) s = Ok c' s' /\ chat s s' /\ input s' = input s).
  { intros y c' s0. unfold bind. destruct (put_char_chat y s0) as (s1 & -> & C1 & E1).
    destruct (IH c' s1) as (c2 & s2 & -> & C2 & E2). eexists _, _. split; [done|]. split; [by etransitivity | congruence]. }
  destruct (special x); [|apply Hx]. unfold bind at 1. destruct (put_char_chat (chr "}") s) as (s1 & -> & C1 & E1). cbv zeta.
  destruct (Hx (Z.lxor x 32) (u8 (u8 (c + chr "}") + Z.lxor x 32)) s1) as (c2 & s2 & -> & C2 & E2).
  eexists _, _. split; [done|]. split; [by etransitivity | congruence].
Qed.
Lemma put_packet_chat l (s : Sim) : exists s', put_packet l s = Ok tt s' /\ chat s s'.
Proof.
  unfold put_packet, input_fuel, bind at 1 2, gets, ret at 1. fold (input s).
  assert (Hf : (length (input s) < S (length (input s)))%nat) by lia. revert Hf.
  generalize (S (length (input s))) as fuel. intros fuel. revert s.
  induction fuel as [|fuel IH]; intros s Hf; [lia|]. cbn [put_until_ack].
  unfold bind at 1. destruct (put_char_chat (chr "$") s) as (s1 & -> & C1 & E1).
  unfold bind at 1. destruct (put_body_chat l 0 s1) as (cs & s2 & -> & C2 & E2).
  unfold bind at 1. destruct (put_char_chat (chr "#") s2) as (s3 & -> & C3 & E3).
  unfold bind at 1. destruct (put_char_chat (hexchar (Z.shiftr cs 4)) s3) as (s4 & -> & C4 & E4).
  unfold bind at 1. destruct (put_char_chat (hexchar (cs mod 16)) s4) as (s5 & -> & C5 & E5).
  unfold bind at 1. destruct (get_char_chat s5) as (ch & s6 & -> & C6 & E6).
  assert (C : chat s s6) by (do 5 (etransitivity; [eassumption|]); done).
  destruct (Z.eqb_spec ch (-1)); [by exists s6|]. destruct (ch =? chr "+"); [by exists s6|].
  destruct E6 as [[-> _]|[_ E6]]; [done|]. destruct (IH s6) as (s' & E' & C'); [rewrite E5, E4, E3, E2, E1 in E6; lia|].
  exists s'. split; [done | by etransitivity].
Qed.
End Safe.

(** ** Witnesses *)

(** A connected client whose socket takes every byte. *)
Definition ex_client : Client :=
  {| service_port _ := None; can_listen _ := true; accept_client _ := None; client_writable _ := true |}.
Definition ex_connected (l : list Z) : Sim := set_rsp_input l zero_state.
Definition ex_noise : list Z := lit "x$a#99$g#00".
Lemma ex_noise_ok : noise ex_noise [chr "-"; chr "-"].
Proof.
  change ex_noise with (chr "x" :: chr "$" :: unfinished [] ++ lit "a" ++ chr "#" :: chr "9" :: chr "9" ::
    chr "$" :: unfinished [] ++ lit "g" ++ chr "#" :: chr "0" :: chr "0" :: []).
  apply noise_junk; [by split | done|].
  apply noise_sum; [constructor | split; [by repeat constructor | vm_compute; lia] | by split | by split | done|].
  apply noise_sum; [constructor | split; [by repeat constructor | vm_compute; lia] | by split | by split | done|].
  apply noise_end.
Qed.
Lemma get_packet_finds_witness :
  exists s', get_packet (H := ex_client) (ex_connected (ex_noise ++ lit "$m1$?#3f+")) = Ok true s' /\
    written (out s') = rev (lit "--+") /\ input s' = lit "+" /\ s' (Rsp_data 0) = chr "?" /\ s' Rsp_len = 1.
Proof.
  destruct (get_packet_finds (H := ex_client) (fun _ => eq_refl) ex_noise [chr "-"; chr "-"] [lit "m1"] (lit "?") (chr "3") (chr "f")
    (lit "+") (ex_connected (ex_noise ++ lit "$m1$?#3f+"))) as (s' & E & [_ W] & I & B & L);
    [exact ex_noise_ok | | | by split | by split | reflexivity | discriminate | reflexivity |].
  - constructor; [split; [by repeat constructor | vm_compute; lia] | constructor].
  - split; [by repeat constructor | vm_compute; lia].
  - exists s'. split; [exact E|]. split; [exact W|]. split; [exact I|]. split; [apply (B 0%nat); reflexivity | exact L].
Defined.
Lemma packet_roundtrip_witness :
  exists s1 s2 s3, put_packet (H := ex_client) (lit "a$b}") (ex_connected (lit "-+")) = Ok tt s1 /\
    get_packet (H := ex_client) (ex_connected (packet (lit "a}" ++ [4] ++ lit "b}]"))) = Ok true s2 /\
    rsp_unescape 0 (s2 Rsp_len) s2 = Ok 4 s3 /\ s3 (Rsp_data 1) = chr "$".
Proof.
  destruct (packet_roundtrip (H := ex_client) (fun _ => eq_refl) (lit "a$b}") (lit "-") [] [] (ex_connected (lit "-+"))
    (ex_connected (packet (lit "a}" ++ [4] ++ lit "b}]")))) as [(s1 & E1 & _) (s2 & s3 & E2 & _ & _ & E3 & B)].
  - by repeat constructor.
  - vm_compute. lia.
  - discriminate.
  - by repeat constructor.
  - reflexivity.
  - discriminate.
  - reflexivity.
  - exists s1, s2, s3. split; [exact E1|]. split; [exact E2|]. split; [exact E3 | apply (B 1%nat); reflexivity].
Defined.
End GdbPacket.
