(* ===== verification/GdbMemory.v ===== *)
(** * The GDB server and memory

    What the debugger reads is what memory holds, and memory breakpoints
    replace instructions without losing them. *)

From stdpp Require Import strings gmap.
From S2P Require Export Direct GdbPacket.
#[local] Open Scope Z_scope.
#[local] Open Scope sim_scope.

Module GdbMemory.
Import Mem Ram Dcache Abstract Direct Cstring Rsp GdbPacket.

(** ** The packet as a string *)

Lemma lookup_buf_data s k : (k < Z.to_nat GDB_BUF_MAX)%nat -> buf_data s !! k = Some (s (Rsp_data (Z.of_nat k))).
Proof.
  intros Hk. unfold buf_data. rewrite list_lookup_fmap, lookup_seqZ_lt by lia. cbn. by rewrite Z.add_0_l.
Qed.
Lemma buffered_prefix b s : buffered b s -> (length b <= Z.to_nat GDB_BUF_MAX)%nat -> take (length b) (buf_data s) = b.
Proof.
  intros Hb Hl. apply list_eq. intros k. destruct (decide (k < length b)%nat) as [Hk|Hk].
  - rewrite lookup_take_lt, lookup_buf_data by lia. destruct (lookup_lt_is_Some_2 b k Hk) as [c Ec]. by rewrite Ec, (Hb k c Ec).
  - rewrite lookup_take_ge by lia. symmetry. apply lookup_ge_None_2. lia.
Qed.
Lemma cstring_prefix b r : Forall (fun c => c <> 0) b -> cstring (b ++ 0 :: r) = b.
Proof. induction 1 as [|c b Hc _ IH]; cbn; [done|]. destruct (Z.eqb_spec c 0); [done|]. by rewrite IH. Qed.
Lemma buffered_string b s :
  buffered (b ++ [0]) s -> Forall (fun c => c <> 0) b -> (length b < Z.to_nat GDB_BUF_MAX)%nat -> buf_string 0 s = Ok b s.
Proof.
  intros Hb Hz Hl. unfold buf_string, gets. cbn [drop]. f_equal.
  rewrite <- (take_drop (length (b ++ [0])) (buf_data s)), (buffered_prefix _ s Hb) by (rewrite length_app; cbn; lia).
  rewrite <- app_assoc. by apply cstring_prefix.
Qed.

(** Digits need no escapes. *)
Lemma hexchar_body d : 0 <= d < 16 -> body_char (hexchar d) /\ hexchar d <> 0 /\ special (hexchar d) = false.
Proof.
  intros Hd. pose proof (hexchar_all (fun _ c => (0 <=? c) && (c <? 256) && negb (c =? chr "$") && negb (c =? chr "#")
    && negb (c =? 0) && negb (special c)) eq_refl d Hd) as E. cbv beta in E.
  rewrite !andb_true_iff, !negb_true_iff, !Z.eqb_neq in E. destruct E as [[[[[E1 E2] E3] E4] E5] E6].
  split; [|done]. split; [|done]. unfold octet. change (2 ^ 8) with 256. lia.
Qed.
Lemma escape_plain l : Forall (fun c => special c = false) l -> escape l = l.
Proof. induction 1 as [|c l Hc _ IH]; [done|]. rewrite escape_cons, IH. unfold escape1. by rewrite Hc. Qed.

(** ** Reading memory *)

(** The two digits of a byte, and those of the bytes from [a] on. *)
Definition byte_digits (v : Z) : list Z := [hexchar (v / 16); hexchar (v mod 16)].
Definition dump (s : Sim) (a n : Z) : list Z := concat (map (fun i => byte_digits (ram_byte s (a + i))) (seqZ 0 n)).

Lemma octet_digits v : octet v -> 0 <= v / 16 < 16 /\ 0 <= v mod 16 < 16.
Proof.
  intros Hv. unfold octet in Hv. split; [|apply Z.mod_pos_bound; lia].
  split; [apply Z.div_pos; lia | apply Z.div_lt_upper_bound; lia].
Qed.
Lemma dump_chars (P : Z -> Prop) s a n : typed s -> (forall d, 0 <= d < 16 -> P (hexchar d)) -> Forall P (dump s a n).
Proof.
  intros Hty HP. unfold dump. induction (seqZ 0 n) as [|i l IH]; cbn; [done|].
  destruct (octet_digits (ram_byte s (a + i))) as [H1 H2]; [by apply ram_byte_range|]. by repeat (constructor; [by apply HP|]).
Qed.
Lemma dump_length s a n : length (dump s a n) = (2 * Z.to_nat n)%nat.
Proof.
  unfold dump. rewrite <- (length_seqZ 0 n). induction (seqZ 0 n) as [|i l IH]; cbn -[Nat.mul]; [done|].
  rewrite IH. lia.
Qed.

(** What reading changes. *)
Record looked (s s' : Sim) : Prop := {
  lk_cells : frame buffer_cell s s'; lk_mem : mem_rest s s'; lk_out : out s' = out s /\ dbg s' = dbg s;
  lk_rest : job_queue s' = job_queue s /\ free_jobs s' = free_jobs s /\ reset_hooks s' = reset_hooks s }.
Lemma looked_refl s : ram_ok s -> looked s s.
Proof. intros Hok. split; auto; [reflexivity | by apply mem_rest_refl]. Qed.
Lemma looked_trans s1 s2 s3 : looked s1 s2 -> looked s2 s3 -> looked s1 s3.
Proof.
  intros [F1 L1 (O1 & O2) (R1 & R2 & R3)] [F2 L2 (O3 & O4) (R4 & R5 & R6)].
  split; [by etransitivity | by eapply mem_rest_trans | split_and!; congruence | split_and!; congruence].
Qed.
Lemma mem_rest_ram s s' : mem_rest s s' -> ram_ok s -> ram_ok s' /\ (forall x, ram_byte s' x = ram_byte s x) /\
  (forall x, debug_ram s x -> debug_ram s' x).
Proof.
  intros L Hok. split; [by eapply mem_rest_ok|]. split; [intros x; by apply mem_rest_byte|].
  destruct L. intros x. by apply debug_ram_lists.
Qed.
Lemma ok_cur s : ram_ok s -> forall i, cur_area s = Some i -> (i < length (dev_list s))%nat.
Proof. intros [(_ & _ & _ & H) _ _]. exact H. Qed.
Lemma talk_mem s s' : ram_ok s -> talk s s' -> mem_rest s s'.
Proof.
  intros Hok [F _ (A1 & A2 & A3) B _ _ _]. split; try done; [intros b i; apply F; cbn; tauto|].
  rewrite A3. by apply ok_cur.
Qed.

Section Serve.
Context `{Client} `{Devices}.

Lemma buf_put_run i c (s : Sim) : 0 <= i < GDB_BUF_MAX -> buf_put i c s = Ok tt (upd (Rsp_data i) c s).
Proof. intros Hi. unfold buf_put. destruct (Z.leb_spec 0 i), (Z.ltb_spec i GDB_BUF_MAX); try lia. done. Qed.

(** One byte. *)
Lemma read_byte_step a off (k : M bool) (s : Sim) :
  ram_ok s -> typed s -> debug_ram s (a + off) -> 0 <= off -> off * 2 + 1 < GDB_BUF_MAX -> 0 <= a + off < 2 ^ 32 ->
  exists s', looked s s' /\ typed s' /\
    (forall x, x < off * 2 -> s' (Rsp_data x) = s (Rsp_data x)) /\
    [s' (Rsp_data (off * 2)); s' (Rsp_data (off * 2 + 1))] = byte_digits (ram_byte s (a + off)) /\
    (mem ← verify_memoryarea (u32 (a + off));
     match mem with
     | None => put_reply "E01";; ret false
     | Some _ => ch ← eval_direct8 (u32 (a + off)) false false;
         buf_put (off * 2) (hexchar (Z.shiftr ch 4));; buf_put (off * 2 + 1) (hexchar (Z.land ch 0xf));; k
     end) s = k s'.
Proof.
  intros Hok Hty Hd Ho Hm Ha. destruct (eval_direct8_ram s (a + off) Hok Hd) as (i & E1 & E2 & Hi).
  rewrite u32_small by done. unfold bind at 1. rewrite E1.
  set (s1 := set_cur_area (Some i) s) in *.
  assert (L1 : looked s s1).
  { split; auto; [by intros ? _|]. split; try done. by intros k' [= <-]. }
  destruct (mem_rest_ram s s1 (lk_mem _ _ L1) Hok) as (Hok1 & Hb1 & Hd1).
  destruct (eval_direct8_ram s1 (a + off) Hok1 (Hd1 _ Hd)) as (j & _ & E3 & Hj).
  unfold bind at 1. rewrite E3. rewrite Hb1. set (s2 := set_cur_area (Some j) s1).
  destruct (octet_digits (ram_byte s (a + off))) as [H1 H2]; [by apply ram_byte_range|].
  rewrite Z.shiftr_div_pow2 by lia. change 15 with (Z.ones 4). rewrite Z.land_ones by lia. change (2 ^ 4) with 16.
  unfold bind. rewrite buf_put_run by lia. rewrite buf_put_run by lia.
  eexists. split; [|split; [|split; [|split; [|reflexivity]]]].
  - eapply looked_trans; [exact L1|]. split; try done.
    + apply frame_trans_upd; [cbn; lia|]. apply frame_trans_upd; [cbn; lia | done].
    + do 2 (apply mem_rest_upd; [done|]). split; try done. by intros k' [= <-].
  - by apply upd_typed, upd_typed.
  - intros x Hx. by rewrite !upd_ne by (intros [=]; lia).
  - destruct (hexchar_body _ H1) as [[O1 _] _], (hexchar_body _ H2) as [[O2 _] _].
    rewrite upd_eq, upd_ne, upd_eq by (intros [=]; lia). unfold byte_digits. cbn [ctype].
    by rewrite !u8_octet.
Qed.

Lemma read_bytes_run a len fuel off (s : Sim) :
  ram_ok s -> typed s -> (forall i, 0 <= i < len -> debug_ram s (a + i)) -> 0 <= a -> a + len <= 2 ^ 32 ->
  0 <= off <= len -> 2 * len < GDB_BUF_MAX -> len - off < Z.of_nat fuel ->
  exists s', read_bytes fuel a len off s = Ok true s' /\ looked s s' /\ typed s' /\
    (forall x, x < off * 2 -> s' (Rsp_data x) = s (Rsp_data x)) /\
    (forall i, off <= i < len -> [s' (Rsp_data (i * 2)); s' (Rsp_data (i * 2 + 1))] = byte_digits (ram_byte s (a + i))).
Proof.
  intros Hok Hty Hd Ha Hl. revert off s Hok Hty Hd.
  induction fuel as [|fuel IH]; intros off s Hok Hty Hd Hoff Hm Hf; [lia|]. cbn [read_bytes].
  destruct (Z.ltb_spec off len); cbn [negb].
  - destruct (read_byte_step a off (read_bytes fuel a len (off + 1)) s) as (s1 & L1 & Ht1 & Hx1 & Hb1 & E1);
      [done | done | apply Hd; lia | lia | lia | lia |].
    rewrite E1. destruct (mem_rest_ram s s1 (lk_mem _ _ L1) Hok) as (Hok1 & Hr1 & Hd1).
    destruct (IH (off + 1) s1) as (s' & E & L & Ht & Hx & Hb); [done | done | auto | lia | lia | lia |].
    exists s'. split; [done|]. split; [by eapply looked_trans|]. split; [done|]. split.
    + intros x Hlt. rewrite Hx by lia. by apply Hx1.
    + intros i Hi. destruct (Z.eq_dec i off) as [->|]; [by rewrite !Hx by lia | rewrite Hb by lia; by rewrite Hr1].
  - exists s. split; [done|]. split; [by apply looked_refl|]. split; [done|]. split; [done|]. intros i Hi. lia.
Qed.

(** The digits of the bytes are the start of the buffer. *)
Lemma dump_buffered (s s' : Sim) a n :
  0 <= n -> (forall i, 0 <= i < n -> [s' (Rsp_data (i * 2)); s' (Rsp_data (i * 2 + 1))] = byte_digits (ram_byte s (a + i))) ->
  buffered (dump s a n) s'.
Proof.
  intros Hn Hb k c Hk. unfold dump in Hk.
  assert (Hg : forall m lo k, (forall i, lo <= i < lo + Z.of_nat m ->
      [s' (Rsp_data (i * 2)); s' (Rsp_data (i * 2 + 1))] = byte_digits (ram_byte s (a + i))) ->
    concat (map (fun i => byte_digits (ram_byte s (a + i))) (seqZ lo (Z.of_nat m))) !! k = Some c ->
    s' (Rsp_data (lo * 2 + Z.of_nat k)) = c).
  { clear. induction m as [|m IH]; intros lo k Hb Hk; [done|].
    rewrite seqZ_cons in Hk by lia. cbn [map concat] in Hk. rewrite <- (Hb lo) in Hk by lia.
    replace (Z.pred (Z.of_nat (S m))) with (Z.of_nat m) in Hk by lia.
    destruct k as [|[|k]]; cbn [lookup list_lookup app] in Hk.
    - injection Hk as <-. do 2 f_equal; lia.
    - injection Hk as <-. do 2 f_equal; lia.
    - rewrite <- (IH (Z.succ lo) k); [do 2 f_equal; lia | intros i Hi; apply Hb; lia | exact Hk]. }
  rewrite <- (Z2Nat.id n) in Hk by lia. specialize (Hg (Z.to_nat n) 0 k). rewrite Z2Nat.id in * by lia.
  cbn [Z.mul Z.add] in Hg. apply Hg; [intros i Hi; apply Hb; lia | exact Hk].
Qed.

Definition memory_request (a n : Z) : list Z := lit "m" ++ print_hex a ++ lit "," ++ print_hex n.

Lemma request_scan a n : 0 <= a < 2 ^ 32 -> 0 <= n < 2 ^ 32 -> sscanf "m%x,%x:" (memory_request a n) = [Num a; Num n].
Proof.
  intros Ha Hn. unfold sscanf. change (format "m%x,%x:") with [Match 109; Hex None false; Match 44; Hex None false; Match 58].
  unfold memory_request. change (lit "m") with [109]. change (lit ",") with [44]. cbn [app]. rewrite scan_match.
  rewrite scan_hex_int, scan_match by done. rewrite <- (app_nil_r (print_hex n)). by rewrite scan_hex_int.
Qed.

Lemma print_hex_length z : (length (print_hex z) <= 16)%nat.
Proof.
  assert (Hg : forall f z acc, (length (hex_from f z acc) <= f + length acc)%nat); [|apply (Hg 16%nat z [])].
  clear. induction f as [|f IH]; intros z acc; cbn [hex_from]; [lia|]. destruct (_ =? 0); [cbn [length]; lia|].
  etransitivity; [apply IH|]. cbn [length]. lia.
Qed.
Lemma print_hex_chars (P : Z -> Prop) z : (forall d, 0 <= d < 16 -> P (hexchar d)) -> 0 <= z < 2 ^ 64 -> Forall P (print_hex z).
Proof.
  intros HP Hz. destruct (hex_from_digits 15 z [] Hz) as (ds & E & Hd & _). unfold print_hex. rewrite E, app_nil_r.
  clear E. induction Hd as [|d ds Hd _ IH]; cbn [map]; constructor; [by apply HP | done].
Qed.
Lemma request_chars (P : Z -> Prop) a n : P (chr "m") -> P (chr ",") -> (forall d, 0 <= d < 16 -> P (hexchar d)) ->
  0 <= a < 2 ^ 32 -> 0 <= n < 2 ^ 32 -> Forall P (memory_request a n).
Proof.
  intros Hm Hc HP Ha Hn. unfold memory_request. change (lit "m") with [chr "m"]. change (lit ",") with [chr ","].
  constructor; [done|]. apply Forall_app_2; [apply print_hex_chars; [done | lia]|].
  constructor; [done|]. apply print_hex_chars; [done | lia].
Qed.
Lemma request_length a n : (length (memory_request a n) <= 34)%nat.
Proof. unfold memory_request. rewrite !length_app. pose proof (print_hex_length a). pose proof (print_hex_length n). cbn [length lit]. lia. Qed.

(** The request on its way from the buffer to the reply. *)
Lemma put_buf_run l rest (s : Sim) :
  (forall s, client_writable s = true) -> s Rsp_client_fd <> -1 -> input s = chr "+" :: rest ->
  buffered (l ++ [0]) s -> (length l < Z.to_nat GDB_BUF_MAX)%nat ->
  Forall (fun c => octet c /\ c <> 0 /\ special c = false) l ->
  put_buf s = Ok tt (set_rsp_input rest (put (packet l) (upd Rsp_len (Z.of_nat (length l)) s))).
Proof.
  intros Hw Hfd Hin Hb Hl Hc. unfold put_buf, bind at 1.
  rewrite (buffered_string l) by (first [done | eapply List.Forall_impl; [|exact Hc]; by intros ? (_ & ? & _)]).
  unfold bind, wr. unfold put_packet, input_fuel, bind, gets, ret. set (s1 := upd Rsp_len _ s).
  assert (Hl' : Forall octet l) by (eapply List.Forall_impl; [|exact Hc]; by intros ? (? & _)).
  rewrite (put_until_ack_run Hw _ l [] rest s1); [| done | by unfold s1; look | cbn; lia | constructor | done].
  cbn [length replicate concat]. rewrite app_nil_r, escape_plain; [done|].
  eapply List.Forall_impl; [|exact Hc]. by intros ? (_ & _ & ?).
Qed.

Lemma rsp_read_mem_run a n rest (s : Sim) :
  (forall s, client_writable s = true) -> ram_ok s -> typed s -> 0 <= a < 2 ^ 32 -> 0 <= n < 2 ^ 30 ->
  let m := Z.min n 140 in
  (forall i, 0 <= i < m -> debug_ram s (a + i)) -> a + m <= 2 ^ 32 ->
  s Rsp_client_fd <> -1 -> input s = chr "+" :: rest -> buffered (memory_request a n ++ [0]) s ->
  exists s', rsp_read_mem s = Ok tt s' /\ input s' = rest /\ mem_rest s s' /\ frame buffer_cell s s' /\
    written (out s') = rev (packet (dump s a m)) ++ written (out s).
Proof.
  intros Hw Hok Hty Ha Hn m Hd Hm Hfd Hin Hb. unfold rsp_read_mem, bind at 1.
  assert (Hreq : Forall (fun c => c <> 0) (memory_request a n)).
  { apply request_chars; try done; try lia. intros d Hd'. by apply hexchar_body. }
  pose proof (request_length a n) as Hl. rewrite (buffered_string _ s Hb Hreq) by (change GDB_BUF_MAX with 281; lia).
  rewrite request_scan by lia. cbv zeta. rewrite (s32_small n) by lia.
  assert (El : (if GDB_BUF_MAX <=? s32 (n * 2) then (GDB_BUF_MAX - 1) / 2 else n) = m).
  { rewrite s32_small by lia. change ((GDB_BUF_MAX - 1) / 2) with 140. change GDB_BUF_MAX with 281.
    destruct (Z.leb_spec 281 (n * 2)); subst m; lia. }
  rewrite El. clear El.
  destruct (read_bytes_run a m byte_fuel 0 s) as (s1 & E1 & L1 & Ht1 & _ & Hb1);
    [done | done | done | lia | lia | lia | change GDB_BUF_MAX with 281; lia | change (Z.of_nat byte_fuel) with 281; lia |].
  unfold bind at 1. rewrite E1. cbn [when]. unfold bind at 1. rewrite Z.max_l by lia.
  rewrite buf_put_run by (change GDB_BUF_MAX with 281; lia). set (s2 := upd (Rsp_data (m * 2)) 0 s1).
  pose proof (dump_buffered s s1 a m ltac:(lia) Hb1) as Hdump. pose proof (dump_length s a m) as Hlen.
  assert (Hb2 : buffered (dump s a m ++ [0]) s2).
  { intros k c Hk. destruct (decide (k < length (dump s a m))%nat) as [Hlt|Hge].
    - rewrite lookup_app_l in Hk by done. unfold s2. rewrite upd_ne by (intros [=]; lia). by apply Hdump.
    - rewrite lookup_app_r in Hk by lia. apply list_lookup_singleton_Some in Hk as [Hk <-]. unfold s2.
      replace (Z.of_nat k) with (m * 2) by lia. by rewrite upd_eq. }
  pose proof (lk_out _ _ L1) as [Eo Ed].
  eexists. split; [apply (put_buf_run (dump s a m) rest)|].
  - done.
  - unfold s2. look. rewrite (lk_cells _ _ L1) by (cbn; tauto). done.
  - unfold input. cbn. by rewrite Ed.
  - done.
  - change GDB_BUF_MAX with 281. lia.
  - apply dump_chars; [done|]. intros d Hd'. destruct (hexchar_body d Hd') as ((? & _) & ? & ?). done.
  - split; [done|]. split; [|split].
    + eapply mem_rest_trans; [exact (lk_mem _ _ L1)|].
      destruct (mem_rest_ram s s1 (lk_mem _ _ L1) Hok) as (Hok1 & _).
      apply talk_mem; [done|]. etransitivity; [|apply talk_input]. etransitivity; [|apply talk_put].
      etransitivity; [|by apply talk_upd]. apply talk_upd. cbn. change GDB_BUF_MAX with 281. lia.
    + etransitivity; [exact (lk_cells _ _ L1)|].
      assert (T : talk s1 (set_rsp_input rest (put (packet (dump s a m)) (upd Rsp_len (Z.of_nat (length (dump s a m))) s2)))); [|apply T].
      etransitivity; [|apply talk_input]. etransitivity; [|apply talk_put].
      etransitivity; [|by apply talk_upd]. apply talk_upd. cbn. change GDB_BUF_MAX with 281. lia.
    + cbn [out set_rsp_input set_dbg]. rewrite (proj2 (replied_put _ _)). unfold s2. cbn [out upd]. by rewrite Eo.
Qed.

(** A request for 2^30 bytes or more overflows the check of the length, and the
    reply runs over the end of the buffer. *)
Lemma read_bytes_overrun a len fuel off (s : Sim) :
  ram_ok s -> typed s -> (forall i, 0 <= i <= 140 -> debug_ram s (a + i)) -> 0 <= a -> a + 141 <= 2 ^ 32 ->
  0 <= off <= 140 -> 140 < len -> 141 - off <= Z.of_nat fuel ->
  exists s', read_bytes fuel a len off s = Stop Undefined s'.
Proof.
  intros Hok Hty Hd Ha Hl. revert off s Hok Hty Hd.
  induction fuel as [|fuel IH]; intros off s Hok Hty Hd Hoff Hm Hf; [lia|]. cbn [read_bytes].
  destruct (Z.ltb_spec off len); [|lia]. cbn [negb]. destruct (Z.eq_dec off 140) as [->|Hne].
  - destruct (eval_direct8_ram s (a + 140) Hok) as (i & E1 & E2 & Hi); [apply Hd; lia|].
    rewrite u32_small by lia. unfold bind at 1. rewrite E1. set (s1 := set_cur_area (Some i) s) in *.
    assert (L1 : mem_rest s s1) by (split; try done; by intros k' [= <-]).
    destruct (mem_rest_ram s s1 L1 Hok) as (Hok1 & _ & Hd1).
    destruct (eval_direct8_ram s1 (a + 140) Hok1) as (j & _ & E3 & Hj); [apply Hd1, Hd; lia|].
    unfold bind. rewrite E3. rewrite buf_put_run by done. by eexists.
  - destruct (read_byte_step a off (read_bytes fuel a len (off + 1)) s) as (s1 & L1 & Ht1 & _ & _ & E1);
      [done | done | apply Hd; lia | lia | change GDB_BUF_MAX with 281; lia | lia |].
    rewrite E1. destruct (mem_rest_ram s s1 (lk_mem _ _ L1) Hok) as (Hok1 & _ & Hd1). apply IH; try done; try lia. auto.
Qed.
Lemma memory_read_overrun a n (s : Sim) :
  ram_ok s -> typed s -> 2 ^ 30 <= n < 2 ^ 31 -> 0 <= a -> a + 141 <= 2 ^ 32 ->
  (forall i, 0 <= i <= 140 -> debug_ram s (a + i)) -> buffered (memory_request a n ++ [0]) s ->
  exists s', rsp_read_mem s = Stop Undefined s'.
Proof.
  intros Hok Hty Hn Ha Ha' Hd Hb. unfold rsp_read_mem, bind at 1.
  assert (Hreq : Forall (fun c => c <> 0) (memory_request a n)).
  { apply request_chars; try done; try lia. intros d Hd'. by apply hexchar_body. }
  pose proof (request_length a n) as Hl. rewrite (buffered_string _ s Hb Hreq) by (change GDB_BUF_MAX with 281; lia).
  rewrite request_scan by lia. cbv zeta. rewrite (s32_small n) by lia.
  assert (E2 : s32 (n * 2) = n * 2 - 2 ^ 32).
  { rewrite s32_of_u32 by lia. destruct (Z.ltb_spec (n * 2) (2 ^ 31)); lia. }
  rewrite E2. destruct (Z.leb_spec GDB_BUF_MAX (n * 2 - 2 ^ 32)) as [Hx|_]; [change GDB_BUF_MAX with 281 in Hx; lia|].
  destruct (read_bytes_overrun a n byte_fuel 0 s) as (s' & E);
    [done | done | done | done | done | lia | lia | change (Z.of_nat byte_fuel) with 281; lia |].
  exists s'. unfold bind. by rewrite E.
Qed.

Lemma serve_m (s : Sim) : s (Rsp_data 0) = chr "m" -> serve_request s = rsp_read_mem s.
Proof. intros E. unfold serve_request, bind at 1, rd. rewrite E. reflexivity. Qed.

(** A request with the body [b] reaches [serve_request]. *)
Lemma handle_rsp_request l r b rest fuel (s : Sim) :
  (forall s, client_writable s = true) -> ram_ok s -> typed s -> s Rsp_client_fd <> -1 -> s Rsp_client_waiting = 0 ->
  noise l r -> body_ok MAX_BODY b -> input s = l ++ packet b ++ rest ->
  exists s1, handle_rsp fuel s = serve_request s1 /\ replied (r ++ [chr "+"]) s s1 /\ input s1 = rest /\
    buffered (b ++ [0]) s1 /\ typed s1 /\ mem_rest s s1.
Proof.
  intros Hw Hok Hty Hfd Hwait Hnoise Hbody Hin.
  destruct (get_packet_valid Hw l r b rest s) as (s1 & E1 & R1 & Hi1 & Hb1 & _); try done.
  assert (Hty1 : typed s1).
  { pose proof (get_packet_typed keeps_typed s Hty) as Hg. by rewrite E1 in Hg. }
  exists s1. split; [|split_and!; try done; apply talk_mem; [done | apply R1]].
  unfold handle_rsp, bind at 1. assert (Ew : wait_client fuel s = Ok tt s).
  { destruct fuel; cbn [wait_client]; unfold bind, rd; destruct (Z.eqb_spec (s Rsp_client_fd) (-1)); done. }
  rewrite Ew. unfold bind at 1, isset, bind at 1, rd, ret. rewrite Hwait. cbn [nz Z.eqb negb when].
  unfold bind at 1, ret at 1, rsp_client_request, bind. by rewrite E1.
Qed.

(** C24: A client's request to read memory is served: whatever precedes it, the
    request for [n] bytes at [a] is acknowledged and answered with the digits of
    the bytes that memory holds, at most as many as the buffer has room for; the
    server then waits for the next request, and memory, registers and queue are
    as they were. *)
Theorem memory_read_served l r a n rest fuel (s : Sim) :
  (forall s, client_writable s = true) -> ram_ok s -> typed s -> 0 <= a < 2 ^ 32 -> 0 <= n < 2 ^ 30 ->
  (forall i, 0 <= i < Z.min n 140 -> debug_ram s (a + i)) -> a + Z.min n 140 <= 2 ^ 32 ->
  s Rsp_client_fd <> -1 -> s Rsp_client_waiting = 0 -> noise l r ->
  input s = l ++ packet (memory_request a n) ++ chr "+" :: rest ->
  exists s', handle_rsp fuel s = Ok tt s' /\ input s' = rest /\
    written (out s') = rev (r ++ chr "+" :: packet (dump s a (Z.min n 140))) ++ written (out s) /\
    frame buffer_cell s s' /\ forall x, ram_byte s' x = ram_byte s x.
Proof.
  intros Hw Hok Hty Ha Hn Hd Hm Hfd Hwait Hnoise Hin.
  assert (Hbody : body_ok MAX_BODY (memory_request a n)).
  { split; [apply request_chars; [by split | by split | by apply hexchar_body | lia | lia]|].
    pose proof (request_length a n). unfold MAX_BODY. change GDB_BUF_MAX with 281. lia. }
  destruct (handle_rsp_request l r (memory_request a n) (chr "+" :: rest) fuel s)
    as (s1 & E1 & [T1 W1] & Hi1 & Hb1 & Hty1 & M1); try done.
  destruct (mem_rest_ram s s1 M1 Hok) as (Hok1 & Hr1 & Hd1).
  destruct (rsp_read_mem_run a n rest s1) as (s2 & E2 & Hi2 & M2 & F2 & W2);
    [done | done | done | done | done | intros i Hi; by apply Hd1, Hd | done | by eapply talk_fd | done | done |].
  exists s2. split; [|split; [done|split; [|split; [etransitivity; [apply (talk_cells _ _ T1) | exact F2]|]]]].
  - rewrite E1, serve_m; [exact E2|]. by apply (Hb1 0%nat).
  - rewrite W2, W1. replace (dump s1 a (Z.min n 140)) with (dump s a (Z.min n 140)).
    + rewrite app_assoc, <- rev_app_distr, <- app_assoc. done.
    + unfold dump. f_equal. apply map_ext. intros i. by rewrite Hr1.
  - intros x. rewrite (mem_rest_byte s1 s2 x M2). apply Hr1.
Qed.
End Serve.

(** ** Witness *)

(** The megabyte of [ex_dc], with a client that has sent [l]. *)
Definition ex_gdb (l : list Z) : Sim := set_rsp_input l ex_dc.
Lemma ex_gdb_typed l : typed (ex_gdb l).
Proof. intros c. exact (ex_dc_typed c). Qed.
Lemma ex_gdb_ram l : ram_ok (ex_gdb l).
Proof. apply (lists_ram_ok ex_dc); [exact ex_dc_ram | done | done | exact (ok_cur ex_dc ex_dc_ram)]. Qed.
Lemma ex_gdb_debug l a : 0 <= a < 0x100000 -> debug_ram (ex_gdb l) a.
Proof.
  intros Ha. apply (debug_ram_lists ex_dc); [done | done |].
  destruct (ex_dc_is_ram a Ha) as (i & ar & b & Hin). exists i, ar, b. split; [done|]. destruct Hin as (Hi & _ & Hr).
  rewrite ex_dc_areas in Hi. apply list_lookup_singleton_Some in Hi as [_ <-]. pose proof (ra_r8 _ _ _ Hr) as Eb.
  vm_compute in Eb. injection Eb as <-. by split.
Qed.
Lemma memory_read_served_witness :
  exists s', handle_rsp (H := ex_client) (H0 := no_devices) 1 (ex_gdb (lit "+" ++ packet (memory_request 0x40 4) ++ lit "+")) = Ok tt s' /\
    written (out s') = rev (lit "+$11223344#94").
Proof.
  destruct (memory_read_served (H := ex_client) (H0 := no_devices) (lit "+") [] 0x40 4 [] 1
    (ex_gdb (lit "+" ++ packet (memory_request 0x40 4) ++ lit "+"))) as (s' & E & _ & W & _).
  - reflexivity.
  - apply ex_gdb_ram.
  - apply ex_gdb_typed.
  - lia.
  - lia.
  - intros i Hi. apply ex_gdb_debug. lia.
  - vm_compute. discriminate.
  - vm_compute. discriminate.
  - vm_compute. reflexivity.
  - apply noise_junk; [by split | done | apply noise_end].
  - reflexivity.
  - exists s'. split; [exact E|]. rewrite W. vm_compute. reflexivity.
Defined.
End GdbMemory.
