(* ===== verification/GdbBreak.v ===== *)
(** * Memory breakpoints of the GDB server

    Setting and clearing breakpoints, with the hash table of the replaced
    instructions and the invalidated lines of the instruction cache, refines a
    set of addresses: memory holds a trap at each of them and the program
    elsewhere. *)

From stdpp Require Import strings gmap.
From S2P Require Export Icache GdbMemory.
#[local] Open Scope Z_scope.
#[local] Open Scope sim_scope.

Module GdbBreak.
Import Mem Ram Dcache Icache Abstract Direct Cstring Rsp GdbPacket GdbMemory.

(** ** Invalidating the instruction cache *)

(** Only tags and ages of the instruction cache changed. *)
Definition ic_line (c : cell) : Prop := match c with Ic_tags _ | Ic_lrus _ => True | _ => False end.
Record purged (s s' : Sim) : Prop := {
  pg_cells : frame ic_line s s';
  pg_queue : job_queue s' = job_queue s /\ free_jobs s' = free_jobs s /\ reset_hooks s' = reset_hooks s;
  pg_areas : dev_list s' = dev_list s /\ mc_area s' = mc_area s /\ cur_area s' = cur_area s /\ blocks s' = blocks s;
  pg_out : out s' = out s /\ dbg s' = dbg s }.
#[export] Instance purged_preorder : PreOrder purged.
Proof.
  split; [by split|]. intros x y z [F1 Q1 A1 O1] [F2 Q2 A2 O2]. split; [by etransitivity|..];
    repeat match goal with H : _ /\ _ |- _ => destruct H end; split_and!; congruence.
Qed.
Lemma purged_upd c v s : ic_line c -> purged s (upd c v s).
Proof. intros Hc. split; try done. by apply frame_upd. Qed.

(** The cache is not there, or has entries to walk. *)
Definition ic_ready (s : Sim) : Prop :=
  nz (Z.land (s (SPR SPR_UPR)) SPR_UPR_ICP) = false \/
  (s Ic_state <> 0 /\ 0 < s (Ic I_nsets) /\ s (Ic I_last_way) + s (Ic I_nsets) < 2 ^ 32).
Lemma ic_ready_cells (s s' : Sim) : (forall c, s' (SPR c) = s (SPR c)) -> s' Ic_state = s Ic_state ->
  (forall i, s' (Ic i) = s (Ic i)) -> ic_ready s -> ic_ready s'.
Proof. unfold ic_ready. intros -> -> E. by rewrite !E. Qed.

Lemma ic_for_ways_run body fuel way (s : Sim) :
  (forall i (s : Sim), exists s', body i s = Ok tt s' /\ purged s s') ->
  0 <= way -> 0 < s (Ic I_nsets) -> s (Ic I_last_way) + s (Ic I_nsets) < 2 ^ 32 ->
  s (Ic I_last_way) - way <= Z.of_nat fuel ->
  exists s', ic_for_ways fuel way body s = Ok tt s' /\ purged s s'.
Proof.
  intros Hb. revert way s. induction fuel as [|fuel IH]; intros way s H0 Hn Hl Hf; cbn [ic_for_ways];
    unfold bind at 1, rd at 1; destruct (Z.ltb_spec way (s (Ic I_last_way))); try (by exists s).
  { lia. }
  unfold bind at 1. destruct (Hb way s) as (s1 & -> & P1). unfold bind, rd.
  assert (E : forall i, s1 (Ic i) = s (Ic i)) by (intros; apply (pg_cells _ _ P1); cbn; tauto).
  rewrite E, u32_small by lia. destruct (IH (way + s (Ic I_nsets)) s1) as (s' & -> & P); [lia | rewrite !E; lia..|].
  exists s'. split; [done | by etransitivity].
Qed.
Lemma ic_inv_run a (s : Sim) : 0 <= a -> ic_ready s -> exists s', ic_inv a s = Ok tt s' /\ purged s s'.
Proof.
  intros Ha Hr. unfold ic_inv, flag, isset, bind, rd, ret. destruct (nz (Z.land _ _)) eqn:Ei; cbn [negb]; [|by exists s].
  destruct Hr as [Hr|(Hp & Hn & Hl)]; [congruence|]. unfold nz at 1. destruct (Z.eqb_spec (s Ic_state) 0); [done|]. cbn [negb].
  assert (H0 : 0 <= Z.shiftr (Z.land a (s (Ic I_set_mask))) (s (Ic I_blocksize_log2))).
  { rewrite Z.shiftr_nonneg, Z.land_nonneg. by left. }
  destruct (nz (Z.land (s (SPR SPR_SR)) _)); cbn [negb]; unfold ic_ways, bind, rd; apply ic_for_ways_run; try done; try lia;
    intros i s0; unfold when, wr, ret; [destruct (_ =? _); [|by eexists]|];
    eexists; (split; [done|]); (etransitivity; apply purged_upd; done).
Qed.

(** ** The hash table *)

Lemma decide_add {B} (bs : gset Z) a i (x y : B) : i <> a ->
  (if decide (i ∈ bs ∪ {[a]}) then x else y) = if decide (i ∈ bs) then x else y.
Proof. intros Hne. apply decide_ext. rewrite elem_of_union, elem_of_singleton. tauto. Qed.
Lemma decide_delete {B} (bs : gset Z) a i (x y : B) : i <> a ->
  (if decide (i ∈ bs ∖ {[a]}) then x else y) = if decide (i ∈ bs) then x else y.
Proof. intros Hne. apply decide_ext. rewrite elem_of_difference, elem_of_singleton. tauto. Qed.

Definition mp_key (e : mp_entry) : Z * Z := (mp_type e, mp_addr e).
Lemma is_mp_key t a e : is_mp t a e = true <-> mp_key e = (t, a).
Proof.
  unfold is_mp, mp_key. rewrite andb_true_iff, !Z.eqb_eq. split; [intros [-> ->]; done | by intros [= <- <-]].
Qed.
Lemma find_mp_none t a l : (t, a) ∉ map mp_key l -> List.find (is_mp t a) l = None.
Proof.
  induction l as [|e l IH]; cbn; [done|]. intros [Hne Hl]%not_elem_of_cons.
  destruct (is_mp t a e) eqn:E; [by apply is_mp_key in E|auto].
Qed.
Lemma mp_delete_sublist t a l : sublist (mp_delete t a l) l.
Proof. induction l as [|e l IH]; cbn; [done|]. destruct (is_mp t a e); by constructor. Qed.
Lemma find_mp_delete t a l : NoDup (map mp_key l) -> List.find (is_mp t a) (mp_delete t a l) = None.
Proof.
  induction l as [|e l IH]; cbn; [done|]. inversion_clear 1 as [|? ? He Hl].
  destruct (is_mp t a e) eqn:E; [|cbn; rewrite E; auto]. apply find_mp_none. apply is_mp_key in E. by rewrite <- E.
Qed.
Lemma find_mp_delete_ne t a t' a' l : (t', a') <> (t, a) -> List.find (is_mp t' a') (mp_delete t a l) = List.find (is_mp t' a') l.
Proof.
  intros Hne. induction l as [|e l IH]; cbn; [done|]. destruct (is_mp t a e) eqn:E; cbn; destruct (is_mp t' a' e) eqn:E'; auto.
  apply is_mp_key in E, E'. congruence.
Qed.
Lemma existsb_find {A} (f : A -> bool) l : existsb f l = match List.find f l with Some _ => true | None => false end.
Proof. induction l as [|x l IH]; cbn; [done|]. by destruct (f x). Qed.

(** The table holds the breakpoints [bs] with the instructions of [s0]. *)
Definition entry_of (s0 : Sim) (a : Z) : mp_entry := MpEntry BP_MEMORY a (ram_val s0 a 4).
Record table (s0 : Sim) (bs : gset Z) (h : Z -> list mp_entry) : Prop := {
  tb_find : forall a, List.find (is_mp BP_MEMORY a) (h (a mod MP_HASH_SIZE)) =
                      if decide (a ∈ bs) then Some (entry_of s0 a) else None;
  tb_nodup : forall i, NoDup (map mp_key (h i)) }.

Lemma table_empty s0 h : (forall i, h i = []) -> table s0 ∅ h.
Proof. intros Hh. split; intros i; rewrite Hh; cbn; [by rewrite decide_False by set_solver | constructor]. Qed.
Lemma table_add s0 bs h a : table s0 bs h -> a ∉ bs ->
  table s0 (bs ∪ {[a]}) (<[a mod MP_HASH_SIZE := entry_of s0 a :: h (a mod MP_HASH_SIZE)]> h).
Proof.
  intros [Hf Hn] Ha. split; intros i.
  - specialize (Hf i). destruct (decide (i = a)) as [->|Hne].
    + rewrite fn_lookup_insert. cbn. rewrite Z.eqb_refl. by rewrite decide_True by set_solver.
    + transitivity (List.find (is_mp BP_MEMORY i) (h (i mod MP_HASH_SIZE))).
      * destruct (decide (i mod MP_HASH_SIZE = a mod MP_HASH_SIZE)) as [->|]; [|by rewrite fn_lookup_insert_ne].
        rewrite fn_lookup_insert. cbn. by destruct (Z.eqb_spec i a).
      * by rewrite Hf, decide_add.
  - destruct (decide (i = a mod MP_HASH_SIZE)) as [->|]; [|by rewrite fn_lookup_insert_ne].
    rewrite fn_lookup_insert. cbn. constructor; [|done]. intros Hin. apply list_elem_of_fmap in Hin as (e & Ek & He).
    specialize (Hf a). rewrite decide_False in Hf by done.
    assert (is_mp BP_MEMORY a e = false) as Hm by (eapply List.find_none; [exact Hf | by apply list_elem_of_In]).
    assert (is_mp BP_MEMORY a e = true) as Ht by (by apply is_mp_key). congruence.
Qed.
Lemma table_delete s0 bs h a : table s0 bs h ->
  table s0 (bs ∖ {[a]}) (<[a mod MP_HASH_SIZE := mp_delete BP_MEMORY a (h (a mod MP_HASH_SIZE))]> h).
Proof.
  intros [Hf Hn]. split; intros i.
  - destruct (decide (i = a)) as [->|Hne].
    + rewrite fn_lookup_insert, find_mp_delete by done. by rewrite decide_False by set_solver.
    + transitivity (List.find (is_mp BP_MEMORY i) (h (i mod MP_HASH_SIZE))).
      * destruct (decide (i mod MP_HASH_SIZE = a mod MP_HASH_SIZE)) as [->|]; [|by rewrite fn_lookup_insert_ne].
        rewrite fn_lookup_insert. apply find_mp_delete_ne. by intros [=].
      * by rewrite Hf, decide_delete.
  - destruct (decide (i = a mod MP_HASH_SIZE)) as [->|]; [|by rewrite fn_lookup_insert_ne].
    rewrite fn_lookup_insert. eapply sublist_NoDup; [apply (Hn (a mod MP_HASH_SIZE))|].
    apply (fmap_sublist mp_key), mp_delete_sublist.
Qed.

(** ** Memory with breakpoints *)

(** Memory holds the program of [s0] with traps at [bs]. *)
Definition trap_byte (x : Z) : Z := u8 (Z.shiftr OR1K_TRAP_INSTR (8 * (3 - x mod 4))).
Definition overlay (s0 : Sim) (bs : gset Z) (x : Z) : Z :=
  if decide (x - x mod 4 ∈ bs) then trap_byte x else ram_byte s0 x.

Lemma ram_val_ext s s' a : (forall k, 0 <= k < 4 -> ram_byte s' (a + k) = ram_byte s (a + k)) -> ram_val s' a 4 = ram_val s a 4.
Proof.
  intros E. cbn [ram_val]. replace (a + 1 + 1 + 1) with (a + 3) by lia. replace (a + 1 + 1) with (a + 2) by lia.
  rewrite !E by lia. specialize (E 0 ltac:(lia)). rewrite Z.add_0_r in E. by rewrite E.
Qed.
Lemma word_of x a : a mod 4 = 0 -> (a <=? x) && (x <? a + 4) = bool_decide (x - x mod 4 = a).
Proof.
  intros Ha. case_bool_decide; destruct (Z.leb_spec a x), (Z.ltb_spec x (a + 4)); try done; cbn; exfalso;
    Z.to_euclidean_division_equations; lia.
Qed.

(** What the operations keep: a frame around the breakpoints' parts. *)
Definition bp_cell (c : cell) : Prop := match c with
  | Mem _ _ | Ic_tags _ | Ic_lrus _ => True
  | G g => g = Mem_cycles \/ g = Cur_vadd \/ g = Rsp_len | Rsp_data _ => True | _ => False end.
Record keeps (s s' : Sim) : Prop := {
  kp_ok : ram_ok s'; kp_frame : frame bp_cell s s';
  kp_ram : (forall x, is_ram s' x <-> is_ram s x) /\ (forall x, debug_ram s x -> debug_ram s' x) }.
Lemma keeps_refl s : ram_ok s -> keeps s s.
Proof. by split. Qed.
Lemma keeps_trans s1 s2 s3 : keeps s1 s2 -> keeps s2 s3 -> keeps s1 s3.
Proof.
  intros [O1 F1 [R1 D1]] [O2 F2 [R2 D2]]. split; [done | by etransitivity|]. split; [|auto]. intros x. by rewrite R2.
Qed.
Lemma keeps_ready s s' : keeps s s' -> ic_ready s -> ic_ready s'.
Proof. intros [_ F _]. apply ic_ready_cells; intros; apply F; cbn; intuition discriminate. Qed.

Lemma keeps_rest s s' : ram_ok s -> mem_rest s s' -> frame bp_cell s s' -> keeps s s'.
Proof.
  intros Hok L F. destruct (mem_rest_ram s s' L Hok) as (Hok' & _ & Hd). split; [done | done|].
  split; [intros x; by apply mem_rest_is_ram | done].
Qed.

(** A step that leaves memory and the table alone. *)
Record quiet (s s' : Sim) : Prop := {
  qt_keeps : keeps s s'; qt_byte : forall x, ram_byte s' x = ram_byte s x; qt_table : mp_hash (dbg s') = mp_hash (dbg s) }.
Lemma quiet_rest s s' : ram_ok s -> mem_rest s s' -> frame bp_cell s s' -> mp_hash (dbg s') = mp_hash (dbg s) -> quiet s s'.
Proof. intros Hok L F T. split; [by apply keeps_rest | intros x; by apply mem_rest_byte | done]. Qed.
Lemma quiet_purged s s' : ram_ok s -> purged s s' -> quiet s s'.
Proof.
  intros Hok [F _ (A1 & A2 & A3 & A4) (_ & O2)]. apply quiet_rest; [done| | |by rewrite O2].
  - split; try done; [intros b i; apply F; cbn; tauto|]. rewrite A3. by apply ok_cur.
  - intros c Hc. apply F. intros Hi. apply Hc. by destruct c.
Qed.
Lemma quiet_talk s s' : ram_ok s -> talk s s' -> quiet s s'.
Proof.
  intros Hok T. apply quiet_rest; [done | by apply talk_mem | | apply T].
  intros c Hc. apply T. intros Hb. apply Hc. destruct c; cbn in Hb |- *; try done. case_match; tauto.
Qed.
Lemma quiet_cur s i : ram_ok s -> (i < length (dev_list s))%nat -> quiet s (set_cur_area (Some i) s).
Proof. intros Hok Hi. apply quiet_rest; try done. split; try done. by intros j [= <-]. Qed.

(** Nothing is sent or read. *)
Definition still (s s' : Sim) : Prop := out s' = out s /\ input s' = input s.
Lemma still_trans s1 s2 s3 : still s1 s2 -> still s2 s3 -> still s1 s3.
Proof. intros [A1 A2] [B1 B2]. by split; congruence. Qed.

Definition word_ram (s : Sim) (a : Z) : Prop := debug_ram s a /\ a mod 4 = 0.
Lemma word_range s a : ram_ok s -> word_ram s a -> 0 <= a < 2 ^ 32 /\ forall k, 0 <= k < 4 -> is_ram s (a + k).
Proof.
  intros Hok [Hd Hm]. pose proof (debug_ram_word s a Hd Hm) as Hw. split; [|intros k Hk; by apply dma_ram_bytes].
  destruct Hd as (i & ar & b & Hin & _). by apply (in_ram_wf s Hok a i ar b).
Qed.

Section Breakpoints.
Context `{Client} `{Devices}.

(** A word replaced behind the instruction cache. *)
Lemma patch_run a v (s : Sim) : ram_ok s -> ic_ready s -> word_ram s a ->
  exists s1 s', ic_inv (u32 a) s = Ok tt s1 /\ set_program32 (u32 a) v s1 = Ok tt s' /\ keeps s s' /\
    mp_hash (dbg s') = mp_hash (dbg s) /\ still s s' /\
    forall x, is_ram s x -> ram_byte s' x =
      if bool_decide (x - x mod 4 = a) then u8 (Z.shiftr v (8 * (3 - x mod 4))) else ram_byte s x.
Proof.
  intros Hok Hr Ha. destruct (word_range s a Hok Ha) as [Hra _]. destruct Ha as [Hd Hm]. rewrite !u32_small by done.
  destruct (ic_inv_run a s) as (s1 & E1 & P1); [lia | done|]. destruct (quiet_purged s s1 Hok P1) as [K1 B1 T1].
  destruct (set_program32_ram s1 a v) as (s' & i & E2 & Hst & Hc & Hi); [apply K1 | by apply K1 | done |].
  exists s1, s'. split; [done|]. split; [done|]. pose proof (stored_ok s1 a 4 v s' i (kp_ok _ _ K1) Hst Hc Hi) as Hok'.
  assert (Hram : forall x, is_ram s' x <-> is_ram s1 x) by (intros; by eapply stored_is_ram).
  destruct Hst as (Hb & Hcells & S1 & S2 & S3 & S4 & S5 & S6 & S7 & S8). split; [|split; [|split]].
  - eapply keeps_trans; [exact K1|]. split; [done| |].
    + intros c Hcell. apply Hcells; [intros ->; apply Hcell; cbn; tauto.. | intros b j ->; by apply Hcell].
    + split; [done|]. intros x. by apply debug_ram_lists.
  - by rewrite S8.
  - destruct P1 as [_ _ _ [O1 O2]]. split; [by rewrite S7 | unfold input; by rewrite S8, O2].
  - intros x Hx. rewrite Hb by (by apply K1). rewrite word_of, B1 by done. case_bool_decide; [|done].
    do 3 f_equal. lia.
Qed.
Lemma reply_run str rest (s : Sim) :
  (forall s, client_writable s = true) -> ram_ok s -> s Rsp_client_fd <> -1 -> input s = chr "+" :: rest ->
  Forall (fun c => octet c /\ special c = false) (lit str) -> (length (lit str) <= 280)%nat ->
  exists s', put_reply str s = Ok tt s' /\ quiet s s' /\ replied (packet (lit str)) s s' /\ input s' = rest.
Proof.
  intros Hw Hok Hfd Hin Hc Hl. unfold put_reply, put_str_packet, put_packet, input_fuel, bind, gets, ret.
  change (Z.to_nat (GDB_BUF_MAX - 1)) with 280%nat. rewrite take_ge by done.
  assert (Ho : Forall octet (lit str)) by (eapply List.Forall_impl; [|exact Hc]; by intros ? []).
  rewrite (put_until_ack_run Hw _ (lit str) [] rest s); [|done | done | cbn; lia | constructor | done].
  cbn [length replicate concat]. rewrite app_nil_r, escape_plain by (eapply List.Forall_impl; [|exact Hc]; by intros ? []).
  pose proof (replied_trans _ [] _ _ _ (replied_put (packet (lit str)) s) (replied_input rest _)) as R. rewrite app_nil_r in R.
  eexists. split; [done|]. split; [apply quiet_talk; [done | apply R]|]. done.
Qed.

(** Memory and the table after breakpoints at [bs] in the program of [s0]. *)
Record tracks (s0 : Sim) (bs : gset Z) (s : Sim) : Prop := {
  tr_keeps : keeps s0 s;
  tr_mem : forall x, is_ram s0 x -> ram_byte s x = overlay s0 bs x;
  tr_table : table s0 bs (mp_hash (dbg s)) }.
Lemma typed_run {A} (m : M A) `{!Respects keeps_typed m} s a s' : m s = Ok a s' -> typed s -> typed s'.
Proof. intros E Hty. pose proof (respects (R:=keeps_typed) (m:=m) s Hty) as Ht. by rewrite E in Ht. Qed.

Lemma keeps_hash h s : ram_ok s -> keeps s (set_mp_hash h s).
Proof. intros Hok. apply keeps_rest; [done | by split; try done; exact (ok_cur s Hok) | by intros c _]. Qed.
Lemma add_step s0 bs a v (s : Sim) : ram_ok s -> table s0 bs (mp_hash (dbg s)) -> (a ∉ bs -> v = ram_val s0 a 4) ->
  exists s', mp_hash_add BP_MEMORY a v s = Ok tt s' /\ keeps s s' /\ (forall x, ram_byte s' x = ram_byte s x) /\ still s s' /\
    table s0 (bs ∪ {[a]}) (mp_hash (dbg s')).
Proof.
  intros Hok T Hv. unfold mp_hash_add, mp_hash_of, bind, gets. rewrite existsb_find, (tb_find _ _ _ T).
  destruct (decide (a ∈ bs)) as [Hin|Hin].
  - exists s. split; [done|]. split; [by apply keeps_refl|]. split; [done|]. split; [done|].
    by replace (bs ∪ {[a]}) with bs by set_solver.
  - eexists. split; [done|]. split; [by apply keeps_hash|]. split; [done|]. split; [done|]. rewrite Hv by done. by apply (table_add s0).
Qed.
Lemma tracked_val s0 bs a (s : Sim) : (forall x, is_ram s0 x -> ram_byte s x = overlay s0 bs x) ->
  (forall k, 0 <= k < 4 -> is_ram s0 (a + k)) -> a mod 4 = 0 -> a ∉ bs -> ram_val s a 4 = ram_val s0 a 4.
Proof.
  intros M Hb Hm Ha. apply ram_val_ext. intros k Hk. rewrite M by (by apply Hb). unfold overlay. rewrite decide_False; [done|].
  replace (a + k - (a + k) mod 4) with a; [done|]. Z.to_euclidean_division_equations; lia.
Qed.
(** A breakpoint is set, or cleared, before the answer. *)
Lemma insert_step s0 bs a s : ic_ready s0 -> ram_ok s0 -> word_ram s0 a -> tracks s0 bs s ->
  exists s', insert_breakpoint a s = put_reply "OK" s' /\ still s s' /\ tracks s0 (bs ∪ {[a]}) s'.
Proof.
  intros Hr Hok0 Ha [K M T]. destruct (word_range s0 a Hok0 Ha) as [Hra Hbytes]. destruct Ha as [Hd Hm].
  assert (Has : word_ram s a) by (split; [by apply K | done]). pose proof (kp_ok _ _ K) as Hok.
  destruct (eval_direct32_ram s a Hok) as (i & E1 & Hi); [by apply debug_ram_word; apply Has|].
  pose proof (quiet_cur s i Hok Hi) as Q1. set (s1 := set_cur_area (Some i) s) in *.
  destruct (add_step s0 bs a (ram_val s a 4) s1) as (s2 & E2 & K2 & B2 & S2 & T2); [apply Q1 | done | |].
  { by apply tracked_val. }
  assert (K02 : keeps s0 s2) by (eapply keeps_trans; [exact K|]; eapply keeps_trans; [apply Q1 | exact K2]).
  destruct (patch_run a OR1K_TRAP_INSTR s2) as (s3 & s4 & E3 & E4 & K4 & T4 & S4 & B4);
    [apply K2 | by eapply keeps_ready | by split; [apply K02|] |].
  exists s4. split; [|split; [exact (still_trans s s2 s4 S2 S4)|]].
  { unfold insert_breakpoint, bind. by rewrite (u32_small a) in * by done; rewrite E1, E2, E3, E4. }
  split; [by eapply keeps_trans | |].
  - intros x Hx. rewrite B4, B2, (qt_byte _ _ Q1), M by (first [done | by apply K02]).
    unfold overlay. case_bool_decide as Ex; [by rewrite decide_True by set_solver|].
    by rewrite decide_add.
  - by rewrite T4.
Qed.
Lemma delete_step s0 bs a (s : Sim) : ram_ok s -> table s0 bs (mp_hash (dbg s)) -> a ∈ bs ->
  exists s', mp_hash_delete BP_MEMORY a s = Ok (Some (entry_of s0 a)) s' /\ keeps s s' /\
    (forall x, ram_byte s' x = ram_byte s x) /\ still s s' /\ table s0 (bs ∖ {[a]}) (mp_hash (dbg s')).
Proof.
  intros Hok T Hin. unfold mp_hash_delete, mp_hash_of, bind, gets. rewrite (tb_find _ _ _ T), decide_True by done.
  eexists. split; [done|]. split; [by apply keeps_hash|]. split; [done|]. split; [done|]. by apply table_delete.
Qed.
Lemma delete_none s0 bs a (s : Sim) : table s0 bs (mp_hash (dbg s)) -> a ∉ bs -> mp_hash_delete BP_MEMORY a s = Ok None s.
Proof. intros T Hin. unfold mp_hash_delete, mp_hash_of, bind, gets. by rewrite (tb_find _ _ _ T), decide_False. Qed.

Lemma overlay_delete s0 bs a x : typed s0 -> overlay s0 (bs ∖ {[a]}) x =
  if bool_decide (x - x mod 4 = a) then u8 (Z.shiftr (ram_val s0 a 4) (8 * (3 - x mod 4))) else overlay s0 bs x.
Proof.
  intros Ht0. unfold overlay. case_bool_decide as Ex.
  - rewrite decide_False by set_solver. replace (3 - x mod 4) with (4 - 1 - (x mod 4)) by lia.
    rewrite ram_val_byte by (first [done | by apply Z.mod_pos_bound]). f_equal. lia.
  - by rewrite decide_delete.
Qed.

Lemma remove_step s0 bs a s : ic_ready s0 -> ram_ok s0 -> typed s0 -> word_ram s0 a -> tracks s0 bs s ->
  exists s', remove_breakpoint a s = put_reply "OK" s' /\ still s s' /\ tracks s0 (bs ∖ {[a]}) s'.
Proof.
  intros Hr Hok0 Ht0 Ha Htr. pose proof Htr as [K M T]. destruct (word_range s0 a Hok0 Ha) as [Hra _]. destruct Ha as [Hd Hm].
  pose proof (kp_ok _ _ K) as Hok. destruct (decide (a ∈ bs)) as [Hin|Hin].
  - destruct (delete_step s0 bs a s Hok T Hin) as (s1 & E1 & K1 & B1 & S1 & T1).
    assert (K01 : keeps s0 s1) by (by eapply keeps_trans).
    destruct (patch_run a (ram_val s0 a 4) s1) as (s2 & s3 & E2 & E3 & K3 & T3 & S3 & B3);
      [apply K1 | by eapply keeps_ready | by split; [apply K01|] |].
    exists s3. split; [|split; [by eapply still_trans|]].
    { unfold remove_breakpoint, bind. rewrite E1. cbn [mp_instr entry_of]. by rewrite E2, E3. }
    split; [by eapply keeps_trans | |].
    + intros x Hx. rewrite B3 by (by apply K01). by rewrite B1, M, overlay_delete.
    + by rewrite T3.
  - exists s. split; [|split; [done|]].
    { unfold remove_breakpoint, bind. by rewrite (delete_none s0 bs). }
    by replace (bs ∖ {[a]}) with bs by set_solver.
Qed.

(** ** The requests *)

Inductive bp_request := Insert (a : Z) | Remove (a : Z).
Definition bp_addr (r : bp_request) : Z := match r with Insert a | Remove a => a end.
Definition bp_letter (r : bp_request) : Z := match r with Insert _ => chr "Z" | Remove _ => chr "z" end.
Definition bp_text (r : bp_request) : list Z :=
  bp_letter r :: lit "0," ++ print_hex (bp_addr r) ++ lit ",4".

(** The specification: a set of addresses. *)
Definition bp_step (bs : gset Z) (r : bp_request) : gset Z :=
  match r with Insert a => bs ∪ {[a]} | Remove a => bs ∖ {[a]} end.

Lemma bp_scan r : 0 <= bp_addr r < 2 ^ 32 ->
  sscanf (match r with Insert _ => "Z%1d,%lx,%1d" | Remove _ => "z%1d,%lx,%1d" end) (bp_text r) = [Num 0; Num (bp_addr r); Num 4].
Proof.
  intros Ha. assert (Hs : scan (Match 44 :: Hex None true :: format ",%1d") (lit "," ++ print_hex (bp_addr r) ++ lit ",4") =
    [Num (bp_addr r); Num 4]).
  { change (lit "," ++ print_hex (bp_addr r) ++ lit ",4") with (44 :: (print_hex (bp_addr r) ++ lit ",4")).
    rewrite scan_match, scan_hex_long by first [done | lia]. reflexivity. }
  destruct r; cbn [bp_addr] in *; unfold sscanf, bp_text; cbn [bp_letter bp_addr];
    (transitivity (Num 0 :: [Num a; Num 4]); [rewrite <- Hs; reflexivity | done]).
Qed.
Lemma bp_text_chars (P : Z -> Prop) r : P (chr "Z") -> P (chr "z") -> P (chr "0") -> P (chr ",") -> P (chr "4") ->
  (forall d, 0 <= d < 16 -> P (hexchar d)) -> 0 <= bp_addr r < 2 ^ 32 -> Forall P (bp_text r).
Proof.
  intros HZ Hz Hn Hc H4 Hd Ha. unfold bp_text. constructor; [by destruct r|].
  apply Forall_app_2; [by repeat constructor|]. apply Forall_app_2; [apply print_hex_chars; [done | lia] | by repeat constructor].
Qed.
Lemma bp_text_length r : (length (bp_text r) <= 21)%nat.
Proof. unfold bp_text. cbn [length]. rewrite !length_app. pose proof (print_hex_length (bp_addr r)). cbn [length lit]. lia. Qed.

(** One request, from the input to the acknowledged answer. *)
Definition bp_answer : list Z := chr "+" :: packet (lit "OK").
Definition bp_input (r : bp_request) : list Z := packet (bp_text r) ++ [chr "+"].

Lemma serve_bp r (s : Sim) : buffered (bp_text r ++ [0]) s -> 0 <= bp_addr r < 2 ^ 32 ->
  serve_request s = match r with Insert a => insert_breakpoint a | Remove a => remove_breakpoint a end s.
Proof.
  intros Hb Ha. assert (E0 : s (Rsp_data 0) = bp_letter r) by (by apply (Hb 0%nat)).
  assert (Es : buf_string 0 s = Ok (bp_text r) s).
  { apply buffered_string; [done | | pose proof (bp_text_length r); change GDB_BUF_MAX with 281; lia].
    apply bp_text_chars; try done. intros d Hd. by apply hexchar_body. }
  pose proof (bp_scan r Ha) as Hs. unfold serve_request, bind at 1, rd. rewrite E0.
  destruct r; cbn [bp_letter bp_addr] in *.
  - change (rsp_insert_matchpoint s = insert_breakpoint a s). unfold rsp_insert_matchpoint, bind at 1. by rewrite Es, Hs.
  - change (rsp_remove_matchpoint s = remove_breakpoint a s). unfold rsp_remove_matchpoint, bind at 1. by rewrite Es, Hs.
Qed.

Lemma request_step s0 bs r rest fuel (s : Sim) :
  (forall s, client_writable s = true) -> ic_ready s0 -> ram_ok s0 -> typed s0 -> word_ram s0 (bp_addr r) ->
  s0 Rsp_client_fd <> -1 -> s0 Rsp_client_waiting = 0 -> tracks s0 bs s -> typed s -> input s = bp_input r ++ rest ->
  exists s', handle_rsp fuel s = Ok tt s' /\ tracks s0 (bp_step bs r) s' /\ typed s' /\ input s' = rest /\
    written (out s') = rev bp_answer ++ written (out s).
Proof.
  intros Hw Hr Hok0 Ht0 Ha Hfd Hwait Htr Hty Hin. destruct (word_range s0 _ Hok0 Ha) as [Hra _].
  pose proof (kp_frame _ _ (tr_keeps _ _ _ Htr)) as F. pose proof (kp_ok _ _ (tr_keeps _ _ _ Htr)) as Hok.
  assert (Hbody : body_ok MAX_BODY (bp_text r)).
  { split; [by apply bp_text_chars; try (by split; [split; vm_compute|]); [intros d Hd; apply hexchar_body|]|].
    pose proof (bp_text_length r). unfold MAX_BODY. change GDB_BUF_MAX with 281. lia. }
  destruct (handle_rsp_request [] [] (bp_text r) (chr "+" :: rest) fuel s) as (s1 & E1 & [T1 W1] & Hi1 & Hb1 & Hty1 & M1);
    try done; [rewrite F; [done | cbn; intuition discriminate].. | apply noise_end | by rewrite Hin; unfold bp_input; rewrite <- app_assoc |].
  pose proof (quiet_talk s s1 Hok T1) as Q1.
  assert (Htr1 : tracks s0 bs s1).
  { destruct Htr as [K M T]. split; [eapply keeps_trans; [exact K | apply Q1] | | by rewrite (qt_table _ _ Q1)].
    intros x Hx. by rewrite (qt_byte _ _ Q1), M. }
  assert (Hstep : exists s2, serve_request s1 = put_reply "OK" s2 /\ still s1 s2 /\ tracks s0 (bp_step bs r) s2).
  { rewrite (serve_bp r s1 Hb1 Hra). destruct r; [by apply insert_step | by apply remove_step]. }
  destruct Hstep as (s2 & E2 & [O2 I2] & Htr2).
  destruct (reply_run "OK" rest s2) as (s3 & E3 & Q3 & [_ W3] & I3);
    [done | apply Htr2 | rewrite (kp_frame _ _ (tr_keeps _ _ _ Htr2)); [done | cbn; intuition discriminate] | by rewrite I2
    | repeat constructor; by vm_compute | cbn; lia |].
  exists s3. assert (E : handle_rsp fuel s = Ok tt s3) by (by rewrite E1, E2). split; [done|]. split; [|split; [|split; [done|]]].
  - destruct Htr2 as [K M T]. split; [eapply keeps_trans; [exact K | apply Q3] | | by rewrite (qt_table _ _ Q3)].
    intros x Hx. by rewrite (qt_byte _ _ Q3), M.
  - by apply (typed_run _ _ _ _ E).
  - rewrite W3, O2, W1. unfold bp_answer. cbn [app rev]. by rewrite <- app_assoc.
Qed.

(** ** The refinement *)

Fixpoint handle_rsps (fuel n : nat) : M unit :=
  match n with O => ret tt | S n => handle_rsp fuel;; handle_rsps fuel n end.

(** C21: Breakpoints refine a set of addresses: after any packets to set and
    clear breakpoints, repeated ones and ones for breakpoints that are not set
    among them, memory holds a trap at each address of the set and the program
    as it was everywhere else, and the table holds the program's instruction for
    each of them; every packet is acknowledged and answered, and nothing but
    the packet buffer and the tags of the instruction cache changes besides.  In
    particular memory is what it was once every breakpoint is cleared. *)
Theorem breakpoints_refine l rest fuel (s : Sim) :
  (forall s, client_writable s = true) -> ram_ok s -> typed s -> ic_ready s -> s Rsp_client_fd <> -1 ->
  s Rsp_client_waiting = 0 -> (forall i, mp_hash (dbg s) i = []) -> Forall (fun r => word_ram s (bp_addr r)) l ->
  input s = concat (map bp_input l) ++ rest ->
  let bs := foldl bp_step ∅ l in
  exists s', handle_rsps fuel (length l) s = Ok tt s' /\ input s' = rest /\
    written (out s') = rev (concat (map (fun _ => bp_answer) l)) ++ written (out s) /\
    (forall x, is_ram s x -> ram_byte s' x = overlay s bs x) /\
    (forall a, mp_hash_lookup BP_MEMORY a s' =
       Ok (if decide (a ∈ bs) then Some (MpEntry BP_MEMORY a (ram_val s a 4)) else None) s') /\
    frame bp_cell s s'.
Proof.
  intros Hw Hok Hty Hr Hfd Hwait Hmp Hl Hin bs.
  assert (Hg : forall s1 bs, tracks s bs s1 -> typed s1 -> input s1 = concat (map bp_input l) ++ rest ->
    exists s', handle_rsps fuel (length l) s1 = Ok tt s' /\ tracks s (foldl bp_step bs l) s' /\ input s' = rest /\
      written (out s') = rev (concat (map (fun _ => bp_answer) l)) ++ written (out s1)).
  { clear Hin bs. induction Hl as [|r l Ha _ IH]; intros s1 bs Htr Hty1 Hin; cbn [handle_rsps foldl length map concat] in *;
      [by exists s1|]. rewrite <- app_assoc in Hin.
    destruct (request_step s bs r (concat (map bp_input l) ++ rest) fuel s1) as (s2 & E2 & T2 & Ht2 & I2 & W2); try done.
    destruct (IH s2 _ T2 Ht2 I2) as (s' & E' & T' & I' & W'). exists s'. split; [unfold bind; by rewrite E2|].
    split; [done|]. split; [done|]. by rewrite W', W2, rev_app_distr, app_assoc. }
  destruct (Hg s ∅) as (s' & E & [K M T] & I & W); [|done..|].
  - split; [by apply keeps_refl | | by apply table_empty]. intros x _. unfold overlay. by rewrite decide_False by set_solver.
  - exists s'. split; [done|]. split; [done|]. split; [done|]. split; [done|]. split; [|apply K].
    intros a. unfold mp_hash_lookup, mp_hash_of, bind, gets, ret. by rewrite (tb_find _ _ _ T).
Qed.
End Breakpoints.

(** ** Witness *)

(** A breakpoint is set twice, one that is not set is cleared. *)
Definition ex_requests : list bp_request := [Insert 0x40; Insert 0x44; Insert 0x40; Remove 0x1000; Remove 0x44].
Definition ex_bp_state : Sim := ex_gdb (concat (map bp_input ex_requests)).
Lemma breakpoints_refine_witness :
  exists s', handle_rsps (H := ex_client) (H0 := no_devices) 1 5 ex_bp_state = Ok tt s' /\
    map (ram_byte s') [0x40; 0x41; 0x42; 0x43; 0x44; 0x45] = [0x21; 0; 0; 1; 0; 0] /\
    mp_hash_lookup BP_MEMORY 0x40 s' = Ok (Some (MpEntry BP_MEMORY 0x40 0x11223344)) s'.
Proof.
  assert (Hram : forall x, 0 <= x < 0x100000 -> is_ram ex_bp_state x).
  { intros x Hx. apply (lists_is_ram ex_dc); [done | done | by apply ex_dc_is_ram]. }
  destruct (breakpoints_refine (H := ex_client) (H0 := no_devices) ex_requests [] 1 ex_bp_state)
    as (s' & E & _ & _ & M & T & _).
  - reflexivity.
  - apply ex_gdb_ram.
  - apply ex_gdb_typed.
  - left. vm_compute. reflexivity.
  - vm_compute. discriminate.
  - vm_compute. reflexivity.
  - intros i. reflexivity.
  - repeat (constructor; [split; [apply ex_gdb_debug; cbn; lia | reflexivity]|]). constructor.
  - unfold ex_bp_state. by rewrite app_nil_r.
  - exists s'. split; [exact E|]. split.
    + cbn [map]. rewrite !M by (apply Hram; lia). vm_compute. reflexivity.
    + rewrite (T 0x40). f_equal.
Defined.
End GdbBreak.
