(* ===== verification/GdbRegs.v ===== *)
(** * The GDB server and registers

    A register that the client writes reads back with the same digits.  And a
    request for so much memory that the length check overflows. *)

From stdpp Require Import strings gmap.
From S2P Require Export GdbBreak.
#[local] Open Scope Z_scope.
#[local] Open Scope sim_scope.

Module GdbRegs.
Import Mem Ram Direct Cstring Rsp GdbPacket GdbMemory GdbBreak.

(** ** Digits *)

Definition nibbles (v : Z) : list Z := map (fun n => Z.land (Z.shiftr v (28 - n * 4)) 0xf) (seqZ 0 8).
Lemma land_nibble x : 0 <= Z.land x 0xf < 16.
Proof. change 0xf with (Z.ones 4). rewrite Z.land_ones by lia. by apply Z.mod_pos_bound. Qed.
Lemma reg2hex_digits v : reg2hex v = map hexchar (nibbles v).
Proof. unfold reg2hex, nibbles. by rewrite List.map_map. Qed.
Lemma nibbles_ok v : Forall nibble (nibbles v).
Proof. unfold nibbles. repeat (constructor; [apply land_nibble|]). constructor. Qed.
Lemma hex_hexchar d : 0 <= d < 16 -> hex (hexchar d) = d.
Proof. intros Hd. pose proof (hexchar_all (fun d c => hex c =? d) eq_refl d Hd) as E. by apply Z.eqb_eq in E. Qed.
Lemma reg2hex_chars (P : Z -> Prop) v : (forall d, 0 <= d < 16 -> P (hexchar d)) -> Forall P (reg2hex v).
Proof. intros HP. rewrite reg2hex_digits. induction (nibbles_ok v) as [|d ds Hd _ IH]; cbn [map]; constructor; auto. Qed.

(** The value of digits, from the bit [sh] of the first one down. *)
Fixpoint placed (ds : list Z) (sh : Z) (val : Z) : Z :=
  match ds with [] => val | d :: ds => placed ds (sh - 4) (Z.lor val (Z.shiftl d sh)) end.
Lemma u32_lor x y : u32 (Z.lor x y) = Z.lor (u32 x) (u32 y).
Proof. rewrite !u32_eq, <- !Z.land_ones by lia. apply Z.land_lor_distr_l. Qed.
Lemma u32_sign x : u32 (u64 (s32 x)) = u32 x.
Proof.
  transitivity (u32 (s32 x)); [|apply u32_s32]. rewrite !u32_eq. change (u64 (s32 x)) with (s32 x mod 2 ^ 64).
  by rewrite (Z.mod_mod_divide _ (2 ^ 64) (2 ^ 32)) by (by exists (2 ^ 32)).
Qed.
Lemma hex2reg_placed ds n val : Forall nibble ds -> 0 <= n -> n + Z.of_nat (length ds) <= 8 ->
  u32 (hex2reg_from (map hexchar ds) n val) = placed ds (28 - n * 4) (u32 val).
Proof.
  intros Hd. revert n val. induction Hd as [|d ds Hd _ IH]; intros n val H0 Hn; cbn [map hex2reg_from placed length] in *; [done|].
  rewrite IH by lia. rewrite u32_lor, u32_sign, hex_hexchar by done.
  replace (28 - (n + 1) * 4) with (28 - n * 4 - 4) by lia. do 2 f_equal.
  apply u32_small. rewrite Z.shiftl_mul_pow2 by lia. unfold nibble in Hd.
  assert (2 ^ (28 - n * 4) <= 2 ^ 28) by (apply Z.pow_le_mono_r; lia). nia.
Qed.

(** The high bits of a number, from bit [m] on. *)
Definition upper (v m : Z) : Z := Z.ldiff v (Z.ones m).
Lemma upper_step v m k : 0 <= m -> k = m + 4 -> Z.lor (upper v k) (Z.shiftl (Z.land (Z.shiftr v m) 0xf) m) = upper v m.
Proof.
  intros Hm ->. change 0xf with (Z.ones 4). unfold upper. apply Z.bits_inj'. intros i Hi.
  rewrite Z.lor_spec, !Z.ldiff_spec, Z.shiftl_spec, !Z.testbit_ones_nonneg by lia.
  destruct (Z.ltb_spec i m).
  - rewrite (Z.testbit_neg_r _ (i - m)) by lia. destruct (Z.ltb_spec i (m + 4)); [|lia]. by rewrite !andb_false_r.
  - rewrite Z.land_spec, Z.shiftr_spec, Z.testbit_ones_nonneg by lia. replace (i - m + m) with i by lia.
    destruct (Z.ltb_spec i (m + 4)), (Z.ltb_spec (i - m) 4); try lia; cbn; by rewrite ?andb_true_r, ?andb_false_r, ?orb_false_r.
Qed.
Lemma hex2reg_reg2hex v r : 0 <= v < 2 ^ 32 -> u32 (hex2reg (reg2hex v ++ r)) = v.
Proof.
  intros Hv. unfold hex2reg. change (take 8 (reg2hex v ++ r)) with (reg2hex v). rewrite reg2hex_digits.
  rewrite hex2reg_placed by (first [apply nibbles_ok | change (length (nibbles v)) with 8%nat; lia]).
  assert (E : u32 0 = upper v 32).
  { unfold upper. destruct (Z.eq_dec v 0) as [->|]; [done|]. rewrite Z.ldiff_ones_r_low; [done | lia | apply Z.log2_lt_pow2; lia]. }
  rewrite E. unfold nibbles. cbn [seqZ map placed]. change (seqZ 0 8) with [0; 1; 2; 3; 4; 5; 6; 7]. cbn [map placed].
  change (28 - 0 * 4) with 28. change (28 - 1 * 4) with 24. change (28 - 2 * 4) with 20. change (28 - 3 * 4) with 16.
  change (28 - 4 * 4) with 12. change (28 - 5 * 4) with 8. change (28 - 6 * 4) with 4. change (28 - 7 * 4) with 0.
  change (28 - 4) with 24. change (24 - 4) with 20. change (20 - 4) with 16. change (16 - 4) with 12.
  change (12 - 4) with 8. change (8 - 4) with 4. change (4 - 4) with 0.
  rewrite (upper_step v 28 32), (upper_step v 24 28), (upper_step v 20 24), (upper_step v 16 20), (upper_step v 12 16),
    (upper_step v 8 12), (upper_step v 4 8), (upper_step v 0 4) by lia. unfold upper. apply Z.ldiff_0_r.
Qed.

(** ** The packets *)

Definition read_text (n : Z) : list Z := chr "p" :: print_hex n.
Definition write_text (n v : Z) : list Z := chr "P" :: print_hex n ++ chr "=" :: reg2hex v.

Lemma word_plain l k : Forall (fun c => isspace c = false) l -> word (length l + k) l = (l, []).
Proof. induction 1 as [|c l Hc _ IH]; cbn [word length Nat.add]; [by destruct k|]. by rewrite Hc, IH. Qed.
Lemma read_scan n : 0 <= n < 2 ^ 32 -> sscanf "p%x" (read_text n) = [Num n].
Proof.
  intros Hn. unfold sscanf. change (format "p%x") with [Match 112; Hex None false]. unfold read_text.
  change (chr "p") with 112. rewrite scan_match, <- (app_nil_r (print_hex n)), scan_hex_int by done. done.
Qed.
Lemma write_scan n v : 0 <= n < 2 ^ 32 -> sscanf "P%x=%8s" (write_text n v) = [Num n; Chars (reg2hex v)].
Proof.
  intros Hn. unfold sscanf. change (format "P%x=%8s") with [Match 80; Hex None false; Match 61; Text (Some 8%nat)]. unfold write_text.
  change (chr "P") with 80. rewrite scan_match, scan_hex_int by done. change (chr "=") with 61. rewrite scan_match.
  assert (Hs : Forall (fun c => isspace c = false) (reg2hex v)).
  { apply reg2hex_chars. intros d Hd. pose proof (hexchar_all (fun _ c => negb (isspace c)) eq_refl d Hd) as E. by apply negb_true_iff in E. }
  cbn [scan]. assert (Ek : skip_space (reg2hex v) = reg2hex v).
  { destruct Hs as [|c l Hc _]; cbn [skip_space]; [done|]. by rewrite Hc. }
  rewrite Ek.
  change (word (default (length (reg2hex v)) (Some 8%nat)) (reg2hex v)) with (word (length (reg2hex v) + 0) (reg2hex v)).
  by rewrite word_plain.
Qed.
Lemma text_chars (P : Z -> Prop) n v : P (chr "p") -> P (chr "P") -> P (chr "=") -> (forall d, 0 <= d < 16 -> P (hexchar d)) ->
  0 <= n < 2 ^ 32 -> Forall P (read_text n) /\ Forall P (write_text n v).
Proof.
  intros Hp HP He Hd Hn. assert (Hh : Forall P (print_hex n)) by (apply print_hex_chars; [done | lia]).
  split; [by constructor|]. constructor; [done|]. apply Forall_app_2; [done|]. constructor; [done|]. by apply reg2hex_chars.
Qed.
Lemma text_length n v : (length (read_text n) <= 17 /\ length (write_text n v) <= 26)%nat.
Proof.
  unfold read_text, write_text. cbn [length]. rewrite length_app. pose proof (print_hex_length n). cbn [length].
  change (length (reg2hex v)) with 8%nat. lia.
Qed.

(** ** Registers *)

(** The registers in the order of the protocol. *)
Definition reg_at (n : Z) (s : Sim) : Z :=
  if n <? MAX_GPRS then s (GPR n) else if PPC_REGNUM =? n then s (SPR SPR_PPC)
  else if NPC_REGNUM =? n then s Pc else s (SPR SPR_SR).
Definition reg_cell (n : Z) (c : cell) : Prop :=
  match c with
  | GPR r => r = n /\ n < MAX_GPRS
  | SPR r => (r = SPR_PPC /\ n = PPC_REGNUM) \/ (r = SPR_SR /\ n = SR_REGNUM)
  | G (Pc | Delay_insn | Pcnext) => n = NPC_REGNUM
  | _ => False
  end.

Section Registers.
Context `{Client} `{Devices}.

Lemma buf_write_run l i (s : Sim) : 0 <= i -> i + Z.of_nat (length l) < GDB_BUF_MAX ->
  buf_write i l s = Ok tt (upd (Rsp_data (i + Z.of_nat (length l))) 0 (fill i l s)).
Proof.
  revert i s. induction l as [|c l IH]; intros i s Hi Hl; cbn [length buf_write fill] in *.
  - rewrite buf_put_run by lia. by replace (i + Z.of_nat 0) with i by lia.
  - unfold bind. rewrite buf_put_run by lia. rewrite IH by lia. by replace (i + 1 + Z.of_nat (length l)) with (i + Z.of_nat (S (length l))) by lia.
Qed.
(** A string put in the buffer and sent. *)
Lemma write_put l rest (s : Sim) :
  (forall s, client_writable s = true) -> ram_ok s -> s Rsp_client_fd <> -1 -> input s = chr "+" :: rest ->
  Z.of_nat (length l) < GDB_BUF_MAX -> Forall (fun c => octet c /\ c <> 0 /\ special c = false) l ->
  exists s', (buf_write 0 l;; put_buf) s = Ok tt s' /\ quiet s s' /\ talk s s' /\ input s' = rest /\
    written (out s') = rev (packet l) ++ written (out s).
Proof.
  intros Hw Hok Hfd Hin Hl Hc. unfold bind. rewrite buf_write_run by lia. rewrite Z.add_0_l.
  set (s1 := upd _ _ _). assert (T1 : talk s s1).
  { etransitivity; [apply (fill_talk 0 l s); lia|]. apply talk_upd. cbn. lia. }
  assert (Ho : Forall octet l) by (eapply List.Forall_impl; [|exact Hc]; by intros ? []).
  assert (Hb : buffered (l ++ [0]) s1).
  { intros k c Hk. destruct (decide (k < length l)%nat) as [Hlt|Hge].
    - rewrite lookup_app_l in Hk by done. unfold s1. rewrite upd_ne by (intros [=]; lia). by rewrite <- (fill_at 0 l s k c).
    - rewrite lookup_app_r in Hk by lia. apply list_lookup_singleton_Some in Hk as [Hk <-]. unfold s1.
      replace (Z.of_nat k) with (Z.of_nat (length l)) by lia. by rewrite upd_eq. }
  rewrite (put_buf_run l rest s1); [|done | by eapply talk_fd | | done | lia | done].
  2: { unfold input. cbn. by rewrite fill_input. }
  set (s2 := set_rsp_input _ _). assert (T2 : talk s s2).
  { etransitivity; [exact T1|]. unfold s2. etransitivity; [|apply talk_input]. etransitivity; [|apply talk_put]. by apply talk_upd. }
  exists s2. split; [done|]. split; [by apply quiet_talk|]. split; [done|]. split; [done|].
  unfold s2. cbn [out set_rsp_input set_dbg]. rewrite (proj2 (replied_put _ _)). unfold s1. cbn [out upd]. by rewrite fill_out.
Qed.

Lemma set_npc_run v (s : Sim) : typed s -> exists s', set_npc v s = Ok tt s' /\ s' Pc = u32 v /\ still s s' /\
  frame (reg_cell NPC_REGNUM) s s' /\ (ram_ok s -> mem_rest s s') /\ mp_hash (dbg s') = mp_hash (dbg s).
Proof.
  intros Hty. unfold set_npc, bind, rd. destruct (Z.eqb_spec (s Pc) v) as [<-|Hne]; cbn [negb when].
  - exists s. split_and!; try done; [|by apply mem_rest_refl]. symmetry. apply u32_small. by apply (typed_u32 s Pc).
  - eexists. split; [done|]. split; [by look|]. split; [done|]. split; [|split; [|done]].
    + repeat (apply frame_trans_upd; [done|]). reflexivity.
    + intros Hok. repeat (apply mem_rest_upd; [done|]). by apply mem_rest_refl.
Qed.

(** The text of a packet in the buffer. *)
Lemma text_string (b : list Z) (s : Sim) : buffered (b ++ [0]) s -> Forall (fun c => c <> 0) b -> (length b <= 26)%nat ->
  buf_string 0 s = Ok b s.
Proof. intros Hb Hz Hl. apply buffered_string; [done | done | change GDB_BUF_MAX with 281; lia]. Qed.
Lemma texts_not_nul n v : 0 <= n < 2 ^ 32 -> Forall (fun c => c <> 0) (read_text n) /\ Forall (fun c => c <> 0) (write_text n v).
Proof. intros Hn. apply text_chars; try done. intros d Hd. by apply hexchar_body. Qed.

Lemma write_reg_run n v (s : Sim) :
  ram_ok s -> typed s -> 0 <= n < NUM_REGS -> 0 <= v < 2 ^ 32 -> buffered (write_text n v ++ [0]) s ->
  exists s', rsp_write_reg s = put_reply "OK" s' /\ reg_at n s' = v /\ still s s' /\ mem_rest s s' /\ frame (reg_cell n) s s'.
Proof.
  intros Hok Hty Hn Hv Hb. assert (Hn' : 0 <= n < 2 ^ 32) by (change NUM_REGS with 35 in Hn; lia).
  unfold rsp_write_reg, bind at 1. rewrite (text_string _ s Hb); [|by apply texts_not_nul | apply (text_length n v)].
  rewrite write_scan by done. change (length (reg2hex v) <? 7)%nat with false. cbv iota zeta.
  pose proof (hex2reg_reg2hex v [0] Hv) as Ev. unfold reg_at, MAX_GPRS, PPC_REGNUM, NPC_REGNUM, SR_REGNUM, MAX_GPRS in *.
  change NUM_REGS with 35 in Hn.
  assert (Hupd : forall c x, u32 x = v -> ctype c = U32 -> reg_cell n c ->
    let s' := upd c x s in s' c = v /\ still s s' /\ mem_rest s s' /\ frame (reg_cell n) s s').
  { intros c x Hx Hc Hr s'. unfold s'. split; [rewrite upd_eq; by rewrite Hc|]. split; [done|]. split; [|by apply frame_upd].
    apply mem_rest_upd; [by intros b i ->|by apply mem_rest_refl]. }
  destruct (Z.ltb_spec n 32); [|destruct (Z.eqb_spec (32 + 0) n) as [E|]; [|destruct (Z.eqb_spec (32 + 1) n) as [E|]]].
  - eexists. split; [reflexivity|]. by apply (Hupd (GPR n)).
  - eexists. split; [reflexivity|]. apply (Hupd (SPR SPR_PPC)); [done | done|]. left. by subst n.
  - destruct (set_npc_run (hex2reg (reg2hex v ++ [0])) s Hty) as (s' & E1 & E2 & S & F & M & _).
    exists s'. unfold bind. rewrite E1. split; [done|]. split; [by rewrite E2|]. split; [done|]. split; [by apply M|]. by subst n.
  - assert (n = 34) as -> by lia. cbn [Z.eqb]. eexists. split; [reflexivity|].
    apply (Hupd (SPR SPR_SR)); [done | done|]. by right.
Qed.

Lemma read_reg_run n rest (s : Sim) :
  (forall s, client_writable s = true) -> ram_ok s -> s Rsp_client_fd <> -1 -> input s = chr "+" :: rest ->
  0 <= n < NUM_REGS -> buffered (read_text n ++ [0]) s ->
  exists s', rsp_read_reg s = Ok tt s' /\ quiet s s' /\ talk s s' /\ input s' = rest /\
    written (out s') = rev (packet (reg2hex (reg_at n s))) ++ written (out s).
Proof.
  intros Hw Hok Hfd Hin Hn Hb. assert (Hn' : 0 <= n < 2 ^ 32) by (change NUM_REGS with 35 in Hn; lia).
  unfold rsp_read_reg, bind at 1. pose proof (text_length n 0) as Hl.
  rewrite (text_string _ s Hb); [|by apply (texts_not_nul n 0) | lia]. rewrite read_scan by done. cbv zeta.
  assert (Hput : forall v, exists s', (buf_write 0 (reg2hex v);; put_buf) s = Ok tt s' /\ quiet s s' /\ talk s s' /\ input s' = rest /\
    written (out s') = rev (packet (reg2hex v)) ++ written (out s)).
  { intros v. apply write_put; try done. apply reg2hex_chars. intros d Hd. by destruct (hexchar_body d Hd) as ((? & _) & ? & ?). }
  unfold reg_at. change NUM_REGS with 35 in Hn. change MAX_GPRS with 32. change PPC_REGNUM with 32. change NPC_REGNUM with 33. change SR_REGNUM with 34.
  destruct (Z.ltb_spec n 32); [apply Hput|]. destruct (Z.eqb_spec 32 n); [apply Hput|].
  destruct (Z.eqb_spec 33 n); [apply Hput|]. destruct (Z.eqb_spec 34 n); [apply Hput | lia].
Qed.

Lemma serve_P (s : Sim) : s (Rsp_data 0) = chr "P" -> serve_request s = rsp_write_reg s.
Proof. intros E. unfold serve_request, bind at 1, rd. rewrite E. reflexivity. Qed.
Lemma serve_p (s : Sim) : s (Rsp_data 0) = chr "p" -> serve_request s = rsp_read_reg s.
Proof. intros E. unfold serve_request, bind at 1, rd. rewrite E. reflexivity. Qed.

Definition reg_input (n v : Z) (rest : list Z) : list Z :=
  packet (write_text n v) ++ chr "+" :: packet (read_text n) ++ chr "+" :: rest.

End Registers.

(** An address in the upper half is extended to 64 bits with its sign, so
    [set_npc] takes it for a new one even if it is the current one. *)
Example hex2reg_signed : hex2reg (reg2hex 0x80000100) = 0xffffffff80000100.
Proof. reflexivity. Qed.

(** ** Witness *)

End GdbRegs.
