(* ===== verification/Insnset.v ===== *)
(** * The instruction set (cpu/or32/insnset.c)

    One function per [INSTRUCTION], over the operands the generated decoder
    evaluated, with the functions of cpu/or32/execute.c they call. *)

From S2P Require Export Sprs Bpb Debug.

Module Insnset.
Import Sched Debug Except Tick Pic Mem Ram Mmu Dcache Icache Abstract Sprs Bpb.

(** ** Operands *)

(** What [PARAM0], [PARAM1], ... stand for: a register, or a value. *)
Inductive param := P_reg (r : Z) | P_val (v : Z).
Definition params : Type := list param.

Definition PARAM (ps : params) (i : nat) : M Z :=
  match ps !! i with
  | Some (P_reg r) => rd (GPR r)
  | Some (P_val v) => ret v
  | None => stop_with Undefined
  end.
(** [SET_PARAM0] is defined when the first operand is a register. *)
Definition SET_PARAM0 (ps : params) (v : Z) : M unit :=
  match ps with P_reg r :: _ => wr (GPR r) v | _ => stop_with Undefined end.
Definition REG_PARAM0 (ps : params) : M Z :=
  match ps with P_reg r :: _ => ret r | _ => stop_with Undefined end.

(** ** Registers *)


Definition evalsim_reg (regno : Z) : M Z := if regno <? MAX_GPRS then rd (GPR regno) else sim_done.
Definition setsim_reg (regno value : Z) : M unit :=
  let value := if regno =? 0 then 0 else value in
  if regno <? MAX_GPRS then wr (GPR regno) value else sim_done.

(** ** The store buffer *)

Definition MAX_SBUF_LEN : Z := 256.

(** [sbuf_tail = (sbuf_tail + 1) % MAX_SBUF_LEN; sbuf_count--] *)
Definition sbuf_pop : M unit :=
  t ← rd Sbuf_tail; wr Sbuf_tail (Z.rem (s32 (t + 1)) MAX_SBUF_LEN);; adds Sbuf_count (-1).

(** "Take stores from buffer, that occured meanwhile" *)
Fixpoint sbuf_drain (fuel : nat) (delta : Z) : M Z :=
  count ← rd Sbuf_count;
  tail ← rd Sbuf_tail;
  first ← rd (Sbuf_buf tail);
  if nz count && (first <=? delta) then
    match fuel with
    | O => stop_with Out_of_fuel
    | S fuel => sbuf_pop;; sbuf_drain fuel (s32 (delta - first))
    end
  else ret delta.

(** The oldest store is partly done; a store waited for. *)
Definition sbuf_charge (delta : Z) : M unit :=
  count ← isset Sbuf_count;
  when count (tail ← rd Sbuf_tail; adds (Sbuf_buf tail) (- delta)).
Definition sbuf_wait : M unit :=
  tail ← rd Sbuf_tail; first ← rd (Sbuf_buf tail);
  adds Sbuf_wait_cyc first;;
  adds Mem_cycles first;;
  adds Sbuf_prev_cycles first;;
  sbuf_pop.
Fixpoint sbuf_flush (fuel : nat) : M unit :=
  count ← rd Sbuf_count;
  when (0 <? count)
    match fuel with O => stop_with Out_of_fuel | S fuel => sbuf_wait;; sbuf_flush fuel end.

(** [delta = runtime.sim.cycles - sbuf_prev_cycles] *)
Definition sbuf_elapsed : M Z :=
  cycles ← rd Cycles; prev ← rd Sbuf_prev_cycles; ret (s32 (cycles - prev)).

Definition sbuf_store (cyc : Z) : M unit :=
  delta ← sbuf_elapsed;
  adds Sbuf_total_cyc cyc;;
  cycles ← rd Cycles; wr Sbuf_prev_cycles cycles;;
  count ← rd Sbuf_count;
  delta ← sbuf_drain (Z.to_nat count) delta;
  sbuf_charge delta;;
  count ← rd Sbuf_count; len ← rd Cpu_sbuf_len;
  when (len <=? count) sbuf_wait;;
  head ← rd Sbuf_head;
  wr (Sbuf_buf head) cyc;;
  wr Sbuf_head (Z.rem (s32 (head + 1)) MAX_SBUF_LEN);;
  adds Sbuf_count 1.

Definition sbuf_load : M unit :=
  delta ← sbuf_elapsed;
  cycles ← rd Cycles; wr Sbuf_prev_cycles cycles;;
  count ← rd Sbuf_count;
  delta ← sbuf_drain (Z.to_nat count) delta;
  sbuf_charge delta;;
  count ← rd Sbuf_count;
  sbuf_flush (Z.to_nat count).

(** ** Floating point *)

(** The functions of the SoftFloat library the instructions use; they read
    [float_rounding_mode] and add to [float_exception_flags], the only variable
    they assign. *)
Definition float_flags (c : cell) : Prop := c = G Float_exception_flags.
Class OnlyFlags {A} (m : M A) : Prop := only_flags : forall R, Writes float_flags R -> Respects R m.
Class Softfloat := {
  float32_add : Z -> Z -> M Z; float32_sub : Z -> Z -> M Z; float32_mul : Z -> Z -> M Z;
  float32_div : Z -> Z -> M Z; float32_rem : Z -> Z -> M Z;
  float32_eq : Z -> Z -> M bool; float32_le : Z -> Z -> M bool; float32_lt : Z -> Z -> M bool;
  float32_is_nan : Z -> bool;
  float32_to_int32 : Z -> M Z; int32_to_float32 : Z -> M Z;
  float32_add_flags :: forall a b, OnlyFlags (float32_add a b);
  float32_sub_flags :: forall a b, OnlyFlags (float32_sub a b);
  float32_mul_flags :: forall a b, OnlyFlags (float32_mul a b);
  float32_div_flags :: forall a b, OnlyFlags (float32_div a b);
  float32_rem_flags :: forall a b, OnlyFlags (float32_rem a b);
  float32_eq_flags :: forall a b, OnlyFlags (float32_eq a b);
  float32_le_flags :: forall a b, OnlyFlags (float32_le a b);
  float32_lt_flags :: forall a b, OnlyFlags (float32_lt a b);
  float32_to_int32_flags :: forall a, OnlyFlags (float32_to_int32 a);
  int32_to_float32_flags :: forall a, OnlyFlags (int32_to_float32 a) }.

(** softfloat.h *)
Definition float_round_nearest_even : Z := 0.
Definition float_round_down : Z := 1.
Definition float_round_up : Z := 2.
Definition float_round_to_zero : Z := 3.
Definition float_flag_invalid : Z := 1.
Definition float_flag_divbyzero : Z := 4.
Definition float_flag_overflow : Z := 8.
Definition float_flag_underflow : Z := 16.
Definition float_flag_inexact : Z := 32.

Definition float_set_rm : M unit :=
  fpcsr ← rd (SPR SPR_FPCSR);
  switch (Z.land fpcsr SPR_FPCSR_RM)
    [ ([FPCSR_RM_RN], wr Float_rounding_mode float_round_nearest_even);
      ([FPCSR_RM_RZ], wr Float_rounding_mode float_round_to_zero);
      ([FPCSR_RM_RIP], wr Float_rounding_mode float_round_up);
      ([FPCSR_RM_RIN], wr Float_rounding_mode float_round_down) ]
    (ret tt).

Definition float_set_flags : M unit :=
  clr (SPR SPR_FPCSR) SPR_FPCSR_ALLF;;
  flags ← rd Float_exception_flags;
  when (nz (Z.land flags float_flag_invalid)) (ors (SPR SPR_FPCSR) SPR_FPCSR_IVF);;
  when (nz (Z.land flags float_flag_divbyzero)) (ors (SPR SPR_FPCSR) SPR_FPCSR_DZF);;
  when (nz (Z.land flags float_flag_overflow)) (ors (SPR SPR_FPCSR) SPR_FPCSR_OVF);;
  when (nz (Z.land flags float_flag_underflow)) (ors (SPR SPR_FPCSR) SPR_FPCSR_UNF);;
  when (nz (Z.land flags float_flag_inexact)) (ors (SPR SPR_FPCSR) SPR_FPCSR_IXF);;
  fpee ← flag (SPR SPR_FPCSR) SPR_FPCSR_FPEE;
  allf ← flag (SPR SPR_FPCSR) SPR_FPCSR_ALLF;
  when (fpee && allf) (eear ← rd (SPR SPR_EEAR_BASE); except_handle EXCEPT_FPE eear);;
  wr Float_exception_flags 0.

(** "If decoding cannot be found, call this function" *)
Definition l_invalid : M unit := addr ← rd Iq_insn_addr; except_handle EXCEPT_ILLEGAL addr.

(** ** Shared code of the instructions *)

(** [(c & m) == m] *)
Definition all_set (c : cell) (m : Z) : M bool := x ← rd c; ret (Z.land x m =? m).
(** [if (b) cpu_state.sprs[SPR_SR] |= m; else cpu_state.sprs[SPR_SR] &= ~m;] *)
Definition set_sr (m : Z) (b : bool) : M unit := if b then ors (SPR SPR_SR) m else clr (SPR SPR_SR) m.

Definition range_exception : M unit := pc ← rd Pc; except_handle EXCEPT_RANGE pc.

(** "No AECR/AESR, only raise exception if OV is set" *)
Definition raise_if_ov : M unit := ov ← all_set (SPR SPR_SR) SPR_SR_OV; when ov range_exception.

(** "Trigger a range exception if the overflow flag is set and the SR[OVE] bit
    is set": with precise arithmetic exceptions [aecr], without them [no_aecr]. *)
Definition trigger_range (aecr no_aecr : M unit) : M unit :=
  ove ← all_set (SPR SPR_SR) SPR_SR_OVE;
  when ove
    (aecsrp ← all_set (SPR SPR_CPUCFGR) SPR_CPUCFGR_AECSRP;
     if aecsrp : bool then aecr else no_aecr).

(** The additive instructions look at both flags. *)
Definition aecr_add : M unit :=
  cy ← all_set (SPR SPR_SR) SPR_SR_CY; cye ← all_set (SPR SPR_AECR) SPR_AECR_CYADDE;
  ov ← all_set (SPR SPR_SR) SPR_SR_OV; ove ← all_set (SPR SPR_AECR) SPR_AECR_OVADDE;
  when ((cy && cye) || (ov && ove))
    (wr (SPR SPR_AESR) 0;;
     ov ← all_set (SPR SPR_SR) SPR_SR_OV; when ov (ors (SPR SPR_AESR) SPR_AESR_OVADDE);;
     cy ← all_set (SPR SPR_SR) SPR_SR_CY; when cy (ors (SPR SPR_AESR) SPR_AESR_CYADDE);;
     range_exception).

(** The others look at one flag of SR, enabled by one bit of AECR, and report
    one bit of AESR when SR[OV] is set. *)
Definition aecr_one (sr_flag aecr_flag aesr_flag : Z) : M unit :=
  f ← all_set (SPR SPR_SR) sr_flag; e ← all_set (SPR SPR_AECR) aecr_flag;
  when (f && e)
    (wr (SPR SPR_AESR) 0;;
     ov ← all_set (SPR SPR_SR) SPR_SR_OV; when ov (ors (SPR SPR_AESR) aesr_flag);;
     range_exception).

(** "if (temp4 == temp1) or1k_mstats.byteadd++" *)
Definition count_byteadd (temp1 : Z) : M unit := when (s8 temp1 =? temp1) (adds (Stat St_byteadd) 1).

(** ** Arithmetic *)

Definition l_add (ps : params) : M unit :=
  p2 ← PARAM ps 2; p1 ← PARAM ps 1;
  let temp2 := s32 p2 in let temp3 := s32 p1 in
  let temp1 := s32 (temp2 + temp3) in
  SET_PARAM0 ps temp1;;
  set_sr SPR_SR_OV (negb (s32 (temp2 + temp3) =? temp2 + temp3));;
  set_sr SPR_SR_CY (u32 temp1 <? u32 temp2);;
  trigger_range aecr_add raise_if_ov;;
  count_byteadd temp1.

Definition l_addc (ps : params) : M unit :=
  carry_in ← all_set (SPR SPR_SR) SPR_SR_CY;
  p2 ← PARAM ps 2; p1 ← PARAM ps 1;
  let temp2 := s32 p2 in let temp3 := s32 p1 in
  let temp1 := s32 (temp2 + temp3) in
  let temp1 := if carry_in : bool then s32 (temp1 + 1) else temp1 in
  SET_PARAM0 ps temp1;;
  set_sr SPR_SR_OV (((temp2 <? 0) && (temp3 <? 0) && (0 <=? temp1)) ||
                    ((0 <=? temp2) && (0 <=? temp3) && (temp1 <? 0)));;
  set_sr SPR_SR_CY ((carry_in && (u32 temp1 <=? u32 temp2)) || (u32 temp1 <? u32 temp2));;
  trigger_range aecr_add raise_if_ov;;
  count_byteadd temp1.

Definition l_sub (ps : params) : M unit :=
  p2 ← PARAM ps 2; p1 ← PARAM ps 1;
  let temp3 := s32 p2 in let temp2 := s32 p1 in
  let temp1 := s32 (temp2 - temp3) in
  SET_PARAM0 ps temp1;;
  set_sr SPR_SR_OV (negb (s32 (temp2 - temp3) =? temp2 - temp3));;
  set_sr SPR_SR_CY (u32 temp2 <? u32 temp3);;
  trigger_range aecr_add raise_if_ov.

Definition INT32_MIN : Z := - 2 ^ 31.
Definition INT32_MAX : Z := 2 ^ 31 - 1.
Definition UINT32_MAX : Z := 2 ^ 32 - 1.

Definition l_mul (ps : params) : M unit :=
  p2 ← PARAM ps 2; p1 ← PARAM ps 1;
  let ltemp0 := s64 (s32 p1 * s32 p2) in
  let temp0 := s32 (Z.land ltemp0 0xffffffff) in
  SET_PARAM0 ps temp0;;
  set_sr SPR_SR_OV ((ltemp0 <? INT32_MIN) || (INT32_MAX <? ltemp0));;
  trigger_range (aecr_one SPR_SR_OV SPR_AECR_OVMULE SPR_AESR_OVMULE) raise_if_ov.

(** "mulu does not raise an exception when AECR/AESR isn't in use" *)
Definition l_mulu (ps : params) : M unit :=
  p2 ← PARAM ps 2; p1 ← PARAM ps 1;
  let ultemp1 := Z.land p1 0xffffffff in let ultemp2 := Z.land p2 0xffffffff in
  let ultemp0 := u64 (ultemp1 * ultemp2) in
  SET_PARAM0 ps (Z.land ultemp0 0xffffffff);;
  set_sr SPR_SR_CY (UINT32_MAX <? ultemp0);;
  trigger_range (aecr_one SPR_SR_CY SPR_AECR_CYMULE SPR_AESR_CYMULE) (ret tt).

Definition l_div (ps : params) : M unit :=
  p2 ← PARAM ps 2; p1 ← PARAM ps 1;
  let temp3 := s32 p2 in let temp2 := s32 p1 in
  (if (temp3 =? 0) || ((u32 temp2 =? 0x80000000) && (u32 temp3 =? 0xffffffff))
   then ors (SPR SPR_SR) SPR_SR_OV
   else SET_PARAM0 ps (Z.quot temp2 temp3);; clr (SPR SPR_SR) SPR_SR_OV);;
  trigger_range (aecr_one SPR_SR_OV SPR_AECR_DBZE SPR_AESR_DBZE) raise_if_ov.

Definition l_divu (ps : params) : M unit :=
  temp3 ← PARAM ps 2; temp2 ← PARAM ps 1;
  (if temp3 =? 0 then ors (SPR SPR_SR) SPR_SR_OV
   else SET_PARAM0 ps (temp2 / temp3);; clr (SPR SPR_SR) SPR_SR_OV);;
  trigger_range (aecr_one SPR_SR_OV SPR_AECR_DBZE SPR_AESR_DBZE) raise_if_ov.

(** ** Logic, shifts and moves *)

Definition l_movhi (ps : params) : M unit :=
  p1 ← PARAM ps 1; SET_PARAM0 ps (Z.shiftl p1 16).
Definition l_and (ps : params) : M unit :=
  p1 ← PARAM ps 1; p2 ← PARAM ps 2; SET_PARAM0 ps (Z.land p1 p2).
Definition l_or (ps : params) : M unit :=
  p1 ← PARAM ps 1; p2 ← PARAM ps 2; SET_PARAM0 ps (Z.lor p1 p2).
Definition l_xor (ps : params) : M unit :=
  p1 ← PARAM ps 1; p2 ← PARAM ps 2; SET_PARAM0 ps (Z.lxor p1 p2).

(** A 32-bit value shifted by 32 or more is undefined. *)
Definition shift_count (n : Z) : M unit := if n <? 32 then ret tt else stop_with Undefined.
Definition l_sll (ps : params) : M unit :=
  p1 ← PARAM ps 1; p2 ← PARAM ps 2; shift_count p2;; SET_PARAM0 ps (u32 (Z.shiftl p1 p2)).
Definition l_sra (ps : params) : M unit :=
  p1 ← PARAM ps 1; p2 ← PARAM ps 2; shift_count p2;; SET_PARAM0 ps (Z.shiftr (s32 p1) p2).
Definition l_srl (ps : params) : M unit :=
  p1 ← PARAM ps 1; p2 ← PARAM ps 2; shift_count p2;; SET_PARAM0 ps (Z.shiftr p1 p2).
Definition l_ror (ps : params) : M unit :=
  p1 ← PARAM ps 1; p2 ← PARAM ps 2;
  let temp1 := Z.shiftr p1 (Z.land p2 0x1f) in
  shift_count (32 - Z.land p2 0x1f);;
  SET_PARAM0 ps (Z.lor temp1 (u32 (Z.shiftl p1 (32 - Z.land p2 0x1f)))).

Definition l_extbs (ps : params) : M unit := p1 ← PARAM ps 1; SET_PARAM0 ps (s8 p1).
Definition l_extbz (ps : params) : M unit := p1 ← PARAM ps 1; SET_PARAM0 ps (u8 p1).
Definition l_exths (ps : params) : M unit := p1 ← PARAM ps 1; SET_PARAM0 ps (s16 p1).
Definition l_exthz (ps : params) : M unit := p1 ← PARAM ps 1; SET_PARAM0 ps (u16 p1).
Definition l_extws (ps : params) : M unit := p1 ← PARAM ps 1; SET_PARAM0 ps (s32 p1).
Definition l_extwz (ps : params) : M unit := p1 ← PARAM ps 1; SET_PARAM0 ps (u32 p1).

Definition l_cmov (ps : params) : M unit :=
  f ← flag (SPR SPR_SR) SPR_SR_F;
  v ← (if f : bool then PARAM ps 1 else PARAM ps 2);
  SET_PARAM0 ps v.

(** [ffs]: the number of the lowest set bit, from 1. *)
Fixpoint ffs_from (n : nat) (i z : Z) : Z :=
  match n with
  | O => 0
  | S n => if Z.testbit z i then i + 1 else ffs_from n (i + 1) z
  end.
Definition ffs (z : Z) : Z := ffs_from 32 0 z.

Definition l_ff1 (ps : params) : M unit := p1 ← PARAM ps 1; SET_PARAM0 ps (ffs p1).

(** One step of "Reverse the word". *)
Definition swap_bits (t hi lo n : Z) : Z :=
  s32 (Z.lor (Z.shiftr (Z.land (u32 t) hi) n) (u32 (Z.shiftl (Z.land (u32 t) lo) n))).
Definition fl1_reverse (t : Z) : Z :=
  let t := swap_bits t 0xaaaaaaaa 0x55555555 1 in
  let t := swap_bits t 0xcccccccc 0x33333333 2 in
  let t := swap_bits t 0xf0f0f0f0 0x0f0f0f0f 4 in
  let t := swap_bits t 0xff00ff00 0x00ff00ff 8 in
  Z.lor (Z.shiftr t 16) (s32 (Z.shiftl t 16)).
Definition l_fl1 (ps : params) : M unit :=
  p1 ← PARAM ps 1;
  let t := ffs (fl1_reverse (s32 p1)) in
  SET_PARAM0 ps (if 0 =? t then t else 33 - t).

(** ** Comparisons *)

Definition compare (ps : params) (f : Z -> Z -> bool) : M unit :=
  p0 ← PARAM ps 0; p1 ← PARAM ps 1; set_sr SPR_SR_F (f p0 p1).
Definition l_sfeq (ps : params) : M unit := compare ps Z.eqb.
Definition l_sfne (ps : params) : M unit := compare ps (fun a b => negb (a =? b)).
Definition l_sfgts (ps : params) : M unit := compare ps (fun a b => s32 b <? s32 a).
Definition l_sfges (ps : params) : M unit := compare ps (fun a b => s32 b <=? s32 a).
Definition l_sflts (ps : params) : M unit := compare ps (fun a b => s32 a <? s32 b).
Definition l_sfles (ps : params) : M unit := compare ps (fun a b => s32 a <=? s32 b).
Definition l_sfgtu (ps : params) : M unit := compare ps (fun a b => b <? a).
Definition l_sfgeu (ps : params) : M unit := compare ps (fun a b => b <=? a).
Definition l_sfltu (ps : params) : M unit := compare ps (fun a b => a <? b).
Definition l_sfleu (ps : params) : M unit := compare ps (fun a b => a <=? b).

(** ** Multiply-accumulate *)

Definition mac_acc : M Z :=
  lo ← rd (SPR SPR_MACLO); hi ← rd (SPR SPR_MACHI);
  ret (s64 (Z.lor (Z.land (u64 (s32 lo)) 0xffffffff) (u64 (s64 (Z.shiftl (s32 hi) 32))))).
Definition mac_set (tmp : Z) : M unit :=
  wr (SPR SPR_MACLO) (s32 (Z.land (u64 tmp) 0xffffffff));;
  wr (SPR SPR_MACHI) (s32 (Z.land (u64 (Z.shiftr tmp 32)) 0xffffffff)).

Definition l_mac (ps : params) : M unit :=
  acc ← mac_acc;
  x ← PARAM ps 0; y ← PARAM ps 1;
  let prod := s64 (s32 x * s32 y) in
  mac_set (s64 (acc + prod));;
  set_sr SPR_SR_OV (negb (s64 (acc + prod) =? acc + prod));;
  trigger_range (aecr_one SPR_SR_OV SPR_AECR_OVMACADDE SPR_AESR_OVMACADDE) raise_if_ov.
Definition l_msb (ps : params) : M unit :=
  acc ← mac_acc;
  x ← PARAM ps 0; y ← PARAM ps 1;
  let prod := s64 (s32 x * s32 y) in
  mac_set (s64 (acc - prod));;
  set_sr SPR_SR_OV (negb (s64 (acc - prod) =? acc - prod));;
  trigger_range (aecr_one SPR_SR_OV SPR_AECR_OVMACADDE SPR_AESR_OVMACADDE) raise_if_ov.
Definition l_macrc (ps : params) : M unit :=
  lo ← rd (SPR SPR_MACLO);
  SET_PARAM0 ps (s32 lo);; wr (SPR SPR_MACLO) 0;; wr (SPR SPR_MACHI) 0.

(** ** Loads and stores *)

Section Memory.
Context `{Devices}.

(** [old_cyc] is read only with a store buffer: the cycles the access took are
    taken back and handed to the buffer. *)
Definition buffered (access : M unit) : M unit :=
  sbuf ← isset Cpu_sbuf_len;
  old_cyc ← (if sbuf : bool then rd Mem_cycles else ret 0);
  access;;
  sbuf ← isset Cpu_sbuf_len;
  when sbuf (t ← rd Mem_cycles; wr Mem_cycles old_cyc;; sbuf_store (s32 (t - old_cyc))).

Definition l_sw (ps : params) : M unit :=
  buffered (p0 ← PARAM ps 0; p1 ← PARAM ps 1; set_mem32 p0 p1 Breakpoint).
Definition l_sb (ps : params) : M unit :=
  buffered (p0 ← PARAM ps 0; p1 ← PARAM ps 1; set_mem8 p0 (u8 p1) Breakpoint).
Definition l_sh (ps : params) : M unit :=
  buffered (p0 ← PARAM ps 0; p1 ← PARAM ps 1; set_mem16 p0 (u16 p1) Breakpoint).

Definition l_swa (ps : params) : M unit :=
  sbuf ← isset Cpu_sbuf_len;
  old_cyc ← (if sbuf : bool then rd Mem_cycles else ret 0);
  p0 ← PARAM ps 0;
  addr ← rd Loadlock_addr;
  phys ← dmmu_translate p0 false;
  active ← isset Loadlock_active;
  let swa_success := (addr =? phys) && active in
  when swa_success
    (p0 ← PARAM ps 0; p1 ← PARAM ps 1; set_mem32 p0 p1 Breakpoint;;
     sbuf ← isset Cpu_sbuf_len;
     when sbuf (t ← rd Mem_cycles; wr Mem_cycles old_cyc;; sbuf_store (s32 (t - old_cyc))));;
  set_sr SPR_SR_F swa_success;;
  wr Loadlock_active 0.

(** "If eval operand produced exception don't set anything." *)
Definition set_loaded (ps : params) (val : Z) : M unit :=
  pending ← isset Except_pending;
  bp ← isset Breakpoint;
  when (negb (pending || bp)) (SET_PARAM0 ps val).
Definition wait_stores : M unit := sbuf ← isset Cpu_sbuf_len; when sbuf sbuf_load.

Definition l_lwa (ps : params) : M unit :=
  wait_stores;;
  p1 ← PARAM ps 1; val ← eval_mem32 p1 Breakpoint;
  wr Loadlock_active 1;;
  p1 ← PARAM ps 1; phys ← dmmu_translate p1 false;
  wr Loadlock_addr phys;;
  set_loaded ps val.
Definition l_lws (ps : params) : M unit :=
  wait_stores;; p1 ← PARAM ps 1; val ← eval_mem32 p1 Breakpoint; set_loaded ps (u32 val).
Definition l_lwz (ps : params) : M unit :=
  wait_stores;; p1 ← PARAM ps 1; val ← eval_mem32 p1 Breakpoint; set_loaded ps (u32 val).
Definition l_lbs (ps : params) : M unit :=
  wait_stores;; p1 ← PARAM ps 1; val ← eval_mem8 p1 Breakpoint; set_loaded ps (s8 val).
Definition l_lbz (ps : params) : M unit :=
  wait_stores;; p1 ← PARAM ps 1; val ← eval_mem8 p1 Breakpoint; set_loaded ps (u8 val).
Definition l_lhs (ps : params) : M unit :=
  wait_stores;; p1 ← PARAM ps 1; val ← eval_mem16 p1 Breakpoint; set_loaded ps (s16 val).
Definition l_lhz (ps : params) : M unit :=
  wait_stores;; p1 ← PARAM ps 1; val ← eval_mem16 p1 Breakpoint; set_loaded ps (u16 val).

(** ** System *)

Definition l_mtspr (ps : params) : M unit :=
  p0 ← PARAM ps 0; p2 ← PARAM ps 2;
  let regno := u16 (Z.lor p0 p2) in
  value ← PARAM ps 1;
  sm ← flag (SPR SPR_SR) SPR_SR_SM;
  if (regno =? SPR_FPCSR) || sm then mtspr regno value else sim_done.

Definition l_rfe (ps : params) : M unit :=
  epcr ← rd (SPR SPR_EPCR_BASE); wr Pcnext epcr;;
  esr ← rd (SPR SPR_ESR_BASE); mtspr SPR_SR esr.
End Memory.

Definition l_mfspr (ps : params) : M unit :=
  p1 ← PARAM ps 1; p2 ← PARAM ps 2;
  let regno := u16 (Z.lor p1 p2) in
  value ← mfspr regno;
  sm ← flag (SPR SPR_SR) SPR_SR_SM;
  sumra ← flag (SPR SPR_SR) SPR_SR_SUMRA;
  if (regno =? SPR_FPCSR) || sm || (negb sm && sumra) then SET_PARAM0 ps value
  else SET_PARAM0 ps 0;; sim_done.

Definition l_sys (ps : params) : M unit :=
  eear ← rd (SPR SPR_EEAR_BASE); except_handle EXCEPT_SYSCALL eear.
Definition l_trap (ps : params) : M unit :=
  eear ← rd (SPR SPR_EEAR_BASE); except_handle EXCEPT_TRAP eear.

(** The host's random number generator: any number may come. *)
Class Host := { random_value : Sim -> Z }.

(** The text of [NOP_EXIT] goes through PRINTFQ, which is silent in quiet
    mode. *)
Definition nop_exit : M unit :=
  lib ← isset Sim_is_library;
  if lib : bool then wr Halted 1;; set_stall_state 1 else sim_done.
Definition l_nop `{Host} (ps : params) : M unit :=
  k ← PARAM ps 0;
  switch k
    [ ([NOP_NOP], ret tt);
      ([NOP_EXIT],
        quiet ← isset Sim_quiet;
        when (negb quiet) (r3 ← evalsim_reg 3; emit (Ev_exit r3));; nop_exit);
      ([NOP_EXIT_SILENT], nop_exit);
      ([NOP_REPORT], r3 ← evalsim_reg 3; emit (Ev_report r3));
      ([NOP_PUTC], r3 ← evalsim_reg 3; emit (Ev_putc (Z.land r3 0xff)));
      ([NOP_CNT_RESET],
        emit Ev_counters_reset;;
        cycles ← rd Cycles; wr Reset_cycles cycles;;
        instructions ← rd Instructions; wr Reset_instructions instructions);
      ([NOP_GET_TICKS],
        cycles ← rd Cycles; wr (GPR 11) (Z.land cycles 0xffffffff);;
        cycles ← rd Cycles; wr (GPR 12) (Z.shiftr cycles 32));
      ([NOP_GET_PS], ps ← rd Sim_clkcycle_ps; wr (GPR 11) ps);
      ([NOP_TRACE_ON], wr Hush 0);
      ([NOP_TRACE_OFF], wr Hush 1);
      ([NOP_RANDOM], r ← gets random_value; wr (GPR 11) (Z.land r 0xffffffff));
      ([NOP_OR1KSIM], wr (GPR 11) 1) ]
    (ret tt).

(** ** Branches *)

(** [cpu_state.pc + (orreg_t)PARAM0 * 4] *)
Definition branch_target (ps : params) : M Z :=
  pc ← rd Pc; p0 ← PARAM ps 0; ret (u32 (pc + s32 (s32 p0 * 4))).

(** A conditional branch that is taken when SR[F] is [cond]. *)
Definition branch_if (cond : bool) (stat : Z -> Z -> statvar) (ps : params) : M unit :=
  bpb ← isset Bpb_enabled;
  when bpb
    (p0 ← PARAM ps 0; pc ← rd Pc;
     let fwd := b2z (pc <=? p0) in
     f ← flag (SPR SPR_SR) SPR_SR_F;
     adds (Stat (stat (b2z (eqb f cond)) fwd)) 1;;
     addr ← rd Iq_insn_addr;
     bpb_update addr (b2z (eqb f cond)));;
  f ← flag (SPR SPR_SR) SPR_SR_F;
  if eqb f cond then
    nd ← flag (SPR SPR_CPUCFGR) SPR_CPUCFGR_ND;
    target ← branch_target ps;
    (if nd : bool then wr Pcnext target
     else wr Pc_delay target;; wr Next_delay_insn 1);;
    pcnext ← rd Pcnext; btic_update pcnext
  else pc ← rd Pc; btic_update pc.
Definition l_bf : params -> M unit := branch_if true St_bf.
Definition l_bnf : params -> M unit := branch_if false St_bnf.

Definition l_j (ps : params) : M unit :=
  nd ← flag (SPR SPR_CPUCFGR) SPR_CPUCFGR_ND;
  target ← branch_target ps;
  if nd : bool then wr Pcnext target else wr Pc_delay target;; wr Next_delay_insn 1.

(** The call profile; the label printed with the target is looked up when the
    target is in a memory area. *)
Definition profile_call (target link : Z) : M unit :=
  profile ← isset Sim_profile;
  when profile
    (_ ← Mem.verify_memoryarea target; cycles ← rd Cycles; emit (Ev_call cycles (u32 link) target)).
Definition profile_return (target : Z) : M unit :=
  profile ← isset Sim_profile;
  when profile (cycles ← rd Cycles; emit (Ev_return cycles target)).

Definition l_jal (ps : params) : M unit :=
  nd ← flag (SPR SPR_CPUCFGR) SPR_CPUCFGR_ND;
  target ← branch_target ps;
  pc ← rd Pc;
  if nd : bool then
    wr Pcnext target;;
    setsim_reg LINK_REGNO (u32 (pc + 4));;
    profile_call target (pc + 4)
  else
    wr Pc_delay target;;
    setsim_reg LINK_REGNO (u32 (pc + 8));;
    wr Next_delay_insn 1;;
    profile_call target (pc + 8).

Definition l_jalr (ps : params) : M unit :=
  temp1 ← PARAM ps 0;
  a ← REG_PARAM0 ps;
  pc ← rd Pc;
  if a =? LINK_REGNO then except_handle EXCEPT_ILLEGAL pc
  else if nz (Z.land temp1 0x3) then except_handle EXCEPT_ALIGN pc
  else
    nd ← flag (SPR SPR_CPUCFGR) SPR_CPUCFGR_ND;
    if nd : bool then wr Pcnext temp1;; setsim_reg LINK_REGNO (u32 (pc + 4))
    else wr Pc_delay temp1;; setsim_reg LINK_REGNO (u32 (pc + 8));; wr Next_delay_insn 1.

Definition l_jr (ps : params) : M unit :=
  temp1 ← PARAM ps 0;
  pc ← rd Pc;
  if nz (Z.land temp1 0x3) then except_handle EXCEPT_ALIGN pc
  else
    nd ← flag (SPR SPR_CPUCFGR) SPR_CPUCFGR_ND;
    if nd : bool then wr Pcnext temp1;; profile_return temp1
    else wr Pc_delay temp1;; wr Next_delay_insn 1;; profile_return temp1.

(** ** Floating point instructions *)

Section Float.
Context `{Softfloat}.

Definition hardfloat (body : M unit) : M unit :=
  hf ← isset Cpu_hardfloat;
  if hf : bool then float_set_rm;; body;; float_set_flags else l_invalid.

Definition lf_binary (f : Z -> Z -> M Z) (ps : params) : M unit :=
  hardfloat (p1 ← PARAM ps 1; p2 ← PARAM ps 2; v ← f p1 p2; SET_PARAM0 ps v).
Definition lf_unary (f : Z -> M Z) (ps : params) : M unit :=
  hardfloat (p1 ← PARAM ps 1; v ← f p1; SET_PARAM0 ps v).
Definition lf_add_s := lf_binary float32_add.
Definition lf_sub_s := lf_binary float32_sub.
Definition lf_mul_s := lf_binary float32_mul.
Definition lf_div_s := lf_binary float32_div.
Definition lf_rem_s := lf_binary float32_rem.
Definition lf_ftoi_s := lf_unary float32_to_int32.
Definition lf_itof_s := lf_unary (fun p1 => int32_to_float32 (s32 p1)).
Definition lf_madd_s (ps : params) : M unit :=
  hardfloat (p0 ← PARAM ps 0; p1 ← PARAM ps 1; p2 ← PARAM ps 2;
             m ← float32_mul p1 p2; v ← float32_add p0 m; SET_PARAM0 ps v).

Definition lf_compare (f : Z -> Z -> M bool) (ps : params) : M unit :=
  hardfloat (p0 ← PARAM ps 0; p1 ← PARAM ps 1; b ← f p0 p1; set_sr SPR_SR_F b).
(** [f & !float32_is_nan (PARAM0) & !float32_is_nan (PARAM1)] *)
Definition ordered (f : Z -> Z -> M bool) (a b : Z) : M bool :=
  r ← f a b; ret (r && negb (float32_is_nan a) && negb (float32_is_nan b)).
Definition negated (f : Z -> Z -> M bool) (a b : Z) : M bool := r ← f a b; ret (negb r).
Definition lf_sfeq_s := lf_compare float32_eq.
Definition lf_sfne_s := lf_compare (negated float32_eq).
Definition lf_sfge_s := lf_compare (ordered (negated float32_lt)).
Definition lf_sfgt_s := lf_compare (ordered (negated float32_le)).
Definition lf_sfle_s := lf_compare (ordered float32_le).
Definition lf_sflt_s := lf_compare (ordered float32_lt).
End Float.

Definition l_cust1 (ps : params) : M unit := ret tt.
Definition l_cust2 (ps : params) : M unit := ret tt.
Definition l_cust3 (ps : params) : M unit := ret tt.
Definition l_cust4 (ps : params) : M unit := ret tt.
Definition lf_cust1 (ps : params) : M unit := ret tt.

End Insnset.
