(* ===== verification/Float32.v ===== *)
(** * Single-precision arithmetic (softfloat/softfloat.c)

    The functions of the library that work on [float32], with those of
    softfloat-macros and softfloat-specialize they call.  A [bits32] or [bits64]
    is reduced where the C type reduces it; exponents ([int16], which host.h
    makes an [int]) stay far inside their type.  A shift whose count the code
    computes, and a division, are undefined outside their domain, so the
    functions that contain them run in the monad, as do those that read the
    rounding mode or raise a flag. *)

From S2P Require Export Insnset.

Module Float32.
Import Insnset.

(** ** Types and variables (host.h, softfloat.h) *)

Definition shl_bits (t : cty) (x n : Z) : M Z :=
  if (0 <=? n) && (n <? width t) then ret (wrap t (Z.shiftl x n)) else stop_with Undefined.
Definition shr_bits (t : cty) (x n : Z) : M Z :=
  if (0 <=? n) && (n <? width t) then ret (Z.shiftr x n) else stop_with Undefined.
Definition div_bits (x y : Z) : M Z := if y =? 0 then stop_with Undefined else ret (x / y).

Definition float_tininess_after_rounding : Z := 0.
Definition float_tininess_before_rounding : Z := 1.
(** No function assigns it. *)
Definition float_detect_tininess : Z := float_tininess_after_rounding.

Definition float_raise (flags : Z) : M unit := ors Float_exception_flags flags.

(** ** NaNs (softfloat-specialize) *)

Definition float32_default_nan : Z := 0xFFC00000.

Definition float32_is_nan (a : Z) : bool := 0xFF000000 <? u32 (Z.shiftl a 1).
Definition float32_is_signaling_nan (a : Z) : bool :=
  (Z.land (Z.shiftr a 22) 0x1FF =? 0x1FE) && nz (Z.land a 0x003FFFFF).

Definition propagateFloat32NaN (a b : Z) : M Z :=
  let aIsNaN := float32_is_nan a in
  let aIsSignalingNaN := float32_is_signaling_nan a in
  let bIsNaN := float32_is_nan b in
  let bIsSignalingNaN := float32_is_signaling_nan b in
  let a := Z.lor a 0x00400000 in
  let b := Z.lor b 0x00400000 in
  when (aIsSignalingNaN || bIsSignalingNaN) (float_raise float_flag_invalid);;
  ret (if aIsNaN then if aIsSignalingNaN && bIsNaN then b else a else b).

(** ** Integer arithmetic (softfloat-macros) *)

Definition shift32RightJamming (a count : Z) : M Z :=
  if count =? 0 then ret a
  else if count <? 32 then
    hi ← shr_bits U32 a count;
    lo ← shl_bits U32 a (Z.land (- count) 31);
    ret (Z.lor hi (b2z (nz lo)))
  else ret (b2z (nz a)).

Definition shift64RightJamming (a count : Z) : M Z :=
  if count =? 0 then ret a
  else if count <? 64 then
    hi ← shr_bits U64 a count;
    lo ← shl_bits U64 a (Z.land (- count) 63);
    ret (Z.lor hi (b2z (nz lo)))
  else ret (b2z (nz a)).

Definition countLeadingZerosHigh : list Z :=
  [8; 7; 6; 6; 5; 5; 5; 5; 4; 4; 4; 4; 4; 4; 4; 4] ++ repeat 3 16 ++ repeat 2 32 ++ repeat 1 64 ++ repeat 0 128.

Definition countLeadingZeros32 (a : Z) : Z :=
  let shiftCount := 0 in
  let '(shiftCount, a) :=
    if a <? 0x10000 then (shiftCount + 16, u32 (Z.shiftl a 16)) else (shiftCount, a) in
  let '(shiftCount, a) :=
    if a <? 0x1000000 then (shiftCount + 8, u32 (Z.shiftl a 8)) else (shiftCount, a) in
  shiftCount + nth (Z.to_nat (Z.shiftr a 24)) countLeadingZerosHigh 0.

(** The two words of a 128-bit value, the high one first. *)
Definition mul64To128 (a b : Z) : Z * Z :=
  let aLow := u32 a in let aHigh := Z.shiftr a 32 in
  let bLow := u32 b in let bHigh := Z.shiftr b 32 in
  let z1 := u64 (aLow * bLow) in
  let zMiddleA := u64 (aLow * bHigh) in
  let zMiddleB := u64 (aHigh * bLow) in
  let z0 := u64 (aHigh * bHigh) in
  let zMiddleA := u64 (zMiddleA + zMiddleB) in
  let z0 := u64 (z0 + (u64 (Z.shiftl (b2z (zMiddleA <? zMiddleB)) 32) + Z.shiftr zMiddleA 32)) in
  let zMiddleA := u64 (Z.shiftl zMiddleA 32) in
  let z1 := u64 (z1 + zMiddleA) in
  let z0 := u64 (z0 + b2z (z1 <? zMiddleA)) in
  (z0, z1).
Definition add128 (a0 a1 b0 b1 : Z) : Z * Z :=
  let z1 := u64 (a1 + b1) in (u64 (a0 + b0 + b2z (z1 <? a1)), z1).
Definition sub128 (a0 a1 b0 b1 : Z) : Z * Z :=
  (u64 (a0 - b0 - b2z (a1 <? b1)), u64 (a1 - b1)).

(** [while ( ( (sbits64) rem0 ) < 0 )] *)
Fixpoint estimate_correct (fuel : nat) (b0 b1 z rem0 rem1 : Z) : M (Z * Z * Z) :=
  if s64 rem0 <? 0 then
    match fuel with
    | O => stop_with Out_of_fuel
    | S fuel =>
        let '(rem0, rem1) := add128 rem0 rem1 b0 b1 in
        estimate_correct fuel b0 b1 (u64 (z - 0x100000000)) rem0 rem1
    end
  else ret (z, rem0, rem1).

Definition estimateDiv128To64 (a0 a1 b : Z) : M Z :=
  if b <=? a0 then ret 0xFFFFFFFFFFFFFFFF
  else
    let b0 := Z.shiftr b 32 in
    z ← (if u64 (Z.shiftl b0 32) <=? a0 then ret 0xFFFFFFFF00000000
         else q ← div_bits a0 b0; ret (u64 (Z.shiftl q 32)));
    let '(term0, term1) := mul64To128 b z in
    let '(rem0, rem1) := sub128 a0 a1 term0 term1 in
    r ← estimate_correct 3 b0 (u64 (Z.shiftl b 32)) z rem0 rem1;
    let '(z, rem0, rem1) := r in
    let rem0 := Z.lor (u64 (Z.shiftl rem0 32)) (Z.shiftr rem1 32) in
    lo ← (if u64 (Z.shiftl b0 32) <=? rem0 then ret 0xFFFFFFFF else div_bits rem0 b0);
    ret (Z.lor z lo).

(** ** The parts of a number *)

Definition extractFloat32Frac (a : Z) : Z := Z.land a 0x007FFFFF.
Definition extractFloat32Exp (a : Z) : Z := Z.land (Z.shiftr a 23) 0xFF.
Definition extractFloat32Sign (a : Z) : bool := nz (Z.shiftr a 31).

(** The normalized exponent and significand. *)
Definition normalizeFloat32Subnormal (aSig : Z) : M (Z * Z) :=
  let shiftCount := countLeadingZeros32 aSig - 8 in
  zSig ← shl_bits U32 aSig shiftCount;
  ret (1 - shiftCount, zSig).

Definition packFloat32 (zSign : bool) (zExp zSig : Z) : Z :=
  u32 (u32 (Z.shiftl (b2z zSign) 31) + u32 (Z.shiftl (u32 zExp) 23) + zSig).

(** ** Rounding *)

(** The choice of [roundIncrement], of both rounding functions. *)
Definition round_increment (roundingMode : Z) (zSign : bool) : Z :=
  if negb (roundingMode =? float_round_nearest_even) then
    if roundingMode =? float_round_to_zero then 0
    else if zSign then if roundingMode =? float_round_up then 0 else 0x7F
    else if roundingMode =? float_round_down then 0 else 0x7F
  else 0x40.

(** The end of the function, from [if ( roundBits ) ...]. *)
Definition pack_rounded (zSign : bool) (roundingMode zExp zSig : Z) : M Z :=
  let roundNearestEven := roundingMode =? float_round_nearest_even in
  let roundBits := Z.land zSig 0x7F in
  when (nz roundBits) (ors Float_exception_flags float_flag_inexact);;
  let zSig := Z.shiftr (u32 (zSig + round_increment roundingMode zSign)) 7 in
  let zSig := Z.land zSig (Z.lnot (b2z ((Z.lxor roundBits 0x40 =? 0) && roundNearestEven))) in
  ret (packFloat32 zSign (if zSig =? 0 then 0 else zExp) zSig).

Definition roundAndPackFloat32 (zSign : bool) (zExp zSig : Z) : M Z :=
  roundingMode ← rd Float_rounding_mode;
  let roundIncrement := round_increment roundingMode zSign in
  if 0xFD <=? u16 zExp then
    if (0xFD <? zExp) || ((zExp =? 0xFD) && (s32 (u32 (zSig + roundIncrement)) <? 0)) then
      float_raise (Z.lor float_flag_overflow float_flag_inexact);;
      ret (u32 (packFloat32 zSign 0xFF 0 - b2z (roundIncrement =? 0)))
    else if zExp <? 0 then
      let isTiny := (float_detect_tininess =? float_tininess_before_rounding) || (zExp <? -1) ||
                    (u32 (zSig + roundIncrement) <? 0x80000000) in
      zSig ← shift32RightJamming zSig (- zExp);
      when (isTiny && nz (Z.land zSig 0x7F)) (float_raise float_flag_underflow);;
      pack_rounded zSign roundingMode 0 zSig
    else pack_rounded zSign roundingMode zExp zSig
  else pack_rounded zSign roundingMode zExp zSig.

Definition normalizeRoundAndPackFloat32 (zSign : bool) (zExp zSig : Z) : M Z :=
  let shiftCount := countLeadingZeros32 zSig - 1 in
  zSig ← shl_bits U32 zSig shiftCount;
  roundAndPackFloat32 zSign (zExp - shiftCount) zSig.

(** [absZ] has its binary point between bits 6 and 7. *)
Definition roundAndPackInt32 (zSign : bool) (absZ : Z) : M Z :=
  roundingMode ← rd Float_rounding_mode;
  let roundNearestEven := roundingMode =? float_round_nearest_even in
  let roundIncrement := round_increment roundingMode zSign in
  let roundBits := Z.land absZ 0x7F in
  let absZ := Z.shiftr (u64 (absZ + roundIncrement)) 7 in
  let absZ := Z.land absZ (Z.lnot (b2z ((Z.lxor roundBits 0x40 =? 0) && roundNearestEven))) in
  let z := s32 absZ in
  let z := if zSign then s32 (- z) else z in
  if nz (Z.shiftr absZ 32) || (nz z && xorb (z <? 0) zSign) then
    float_raise float_flag_invalid;;
    ret (if zSign then s32 0x80000000 else 0x7FFFFFFF)
  else
    when (nz roundBits) (ors Float_exception_flags float_flag_inexact);;
    ret z.

(** ** Conversions *)

Definition int32_to_float32 (a : Z) : M Z :=
  if a =? 0 then ret 0
  else if a =? s32 0x80000000 then ret (packFloat32 true 0x9E 0)
  else
    let zSign := a <? 0 in
    normalizeRoundAndPackFloat32 zSign 0x9C (u32 (if zSign then - a else a)).

Definition float32_to_int32 (a : Z) : M Z :=
  let aSig := extractFloat32Frac a in
  let aExp := extractFloat32Exp a in
  let aSign := extractFloat32Sign a in
  let aSign := if (aExp =? 0xFF) && nz aSig then false else aSign in
  let aSig := if nz aExp then Z.lor aSig 0x00800000 else aSig in
  let shiftCount := 0xAF - aExp in
  let aSig64 := u64 (Z.shiftl aSig 32) in
  aSig64 ← (if 0 <? shiftCount then shift64RightJamming aSig64 shiftCount else ret aSig64);
  roundAndPackInt32 aSign aSig64.

(** ** Addition and subtraction *)

Definition addFloat32Sigs (a b : Z) (zSign : bool) : M Z :=
  let aExp := extractFloat32Exp a in
  let bExp := extractFloat32Exp b in
  let expDiff := aExp - bExp in
  let aSig := u32 (Z.shiftl (extractFloat32Frac a) 6) in
  let bSig := u32 (Z.shiftl (extractFloat32Frac b) 6) in
  (* from [aSig |= 0x20000000] to the end *)
  let sum (aSig bSig zExp : Z) : M Z :=
    let aSig := Z.lor aSig 0x20000000 in
    let zSig := u32 (Z.shiftl (u32 (aSig + bSig)) 1) in
    if s32 zSig <? 0 then roundAndPackFloat32 zSign zExp (u32 (aSig + bSig))
    else roundAndPackFloat32 zSign (zExp - 1) zSig in
  if 0 <? expDiff then
    if aExp =? 0xFF then if nz aSig then propagateFloat32NaN a b else ret a
    else
      let '(expDiff, bSig) := if bExp =? 0 then (expDiff - 1, bSig) else (expDiff, Z.lor bSig 0x20000000) in
      bSig ← shift32RightJamming bSig expDiff;
      sum aSig bSig aExp
  else if expDiff <? 0 then
    if bExp =? 0xFF then if nz bSig then propagateFloat32NaN a b else ret (packFloat32 zSign 0xFF 0)
    else
      let '(expDiff, aSig) := if aExp =? 0 then (expDiff + 1, aSig) else (expDiff, Z.lor aSig 0x20000000) in
      aSig ← shift32RightJamming aSig (- expDiff);
      sum aSig bSig bExp
  else if aExp =? 0xFF then if nz (Z.lor aSig bSig) then propagateFloat32NaN a b else ret a
  else if aExp =? 0 then ret (packFloat32 zSign 0 (Z.shiftr (u32 (aSig + bSig)) 6))
  else roundAndPackFloat32 zSign aExp (u32 (0x40000000 + aSig + bSig)).

Definition subFloat32Sigs (a b : Z) (zSign : bool) : M Z :=
  let aExp := extractFloat32Exp a in
  let bExp := extractFloat32Exp b in
  let expDiff := aExp - bExp in
  let aSig := u32 (Z.shiftl (extractFloat32Frac a) 7) in
  let bSig := u32 (Z.shiftl (extractFloat32Frac b) 7) in
  (* [bBigger] and [aBigger], to the end *)
  let bBigger (aSig bSig bExp : Z) : M Z :=
    normalizeRoundAndPackFloat32 (negb zSign) (bExp - 1) (u32 (bSig - aSig)) in
  let aBigger (aSig bSig aExp : Z) : M Z :=
    normalizeRoundAndPackFloat32 zSign (aExp - 1) (u32 (aSig - bSig)) in
  if 0 <? expDiff then
    if aExp =? 0xFF then if nz aSig then propagateFloat32NaN a b else ret a
    else
      let '(expDiff, bSig) := if bExp =? 0 then (expDiff - 1, bSig) else (expDiff, Z.lor bSig 0x40000000) in
      bSig ← shift32RightJamming bSig expDiff;
      aBigger (Z.lor aSig 0x40000000) bSig aExp
  else if expDiff <? 0 then
    if bExp =? 0xFF then
      if nz bSig then propagateFloat32NaN a b else ret (packFloat32 (negb zSign) 0xFF 0)
    else
      let '(expDiff, aSig) := if aExp =? 0 then (expDiff + 1, aSig) else (expDiff, Z.lor aSig 0x40000000) in
      aSig ← shift32RightJamming aSig (- expDiff);
      bBigger aSig (Z.lor bSig 0x40000000) bExp
  else if aExp =? 0xFF then
    if nz (Z.lor aSig bSig) then propagateFloat32NaN a b
    else float_raise float_flag_invalid;; ret float32_default_nan
  else
    let '(aExp, bExp) := if aExp =? 0 then (1, 1) else (aExp, bExp) in
    if bSig <? aSig then aBigger aSig bSig aExp
    else if aSig <? bSig then bBigger aSig bSig bExp
    else
      roundingMode ← rd Float_rounding_mode;
      ret (packFloat32 (roundingMode =? float_round_down) 0 0).

Definition float32_add (a b : Z) : M Z :=
  let aSign := extractFloat32Sign a in
  let bSign := extractFloat32Sign b in
  if eqb aSign bSign then addFloat32Sigs a b aSign else subFloat32Sigs a b aSign.
Definition float32_sub (a b : Z) : M Z :=
  let aSign := extractFloat32Sign a in
  let bSign := extractFloat32Sign b in
  if eqb aSign bSign then subFloat32Sigs a b aSign else addFloat32Sigs a b aSign.

(** ** Multiplication and division *)

(** [if ( aExp == 0 ) { if ( aSig == 0 ) return zero; normalizeFloat32Subnormal ... }] *)
Definition normalized (aExp aSig : Z) (zero : M Z) (k : Z -> Z -> M Z) : M Z :=
  if aExp =? 0 then
    if aSig =? 0 then zero else r ← normalizeFloat32Subnormal aSig; let '(aExp, aSig) := r in k aExp aSig
  else k aExp aSig.

Definition invalid : M Z := float_raise float_flag_invalid;; ret float32_default_nan.

Definition float32_mul (a b : Z) : M Z :=
  let aSig := extractFloat32Frac a in
  let aExp := extractFloat32Exp a in
  let aSign := extractFloat32Sign a in
  let bSig := extractFloat32Frac b in
  let bExp := extractFloat32Exp b in
  let bSign := extractFloat32Sign b in
  let zSign := xorb aSign bSign in
  if aExp =? 0xFF then
    if nz aSig || ((bExp =? 0xFF) && nz bSig) then propagateFloat32NaN a b
    else if Z.lor bExp bSig =? 0 then invalid
    else ret (packFloat32 zSign 0xFF 0)
  else if bExp =? 0xFF then
    if nz bSig then propagateFloat32NaN a b
    else if Z.lor aExp aSig =? 0 then invalid
    else ret (packFloat32 zSign 0xFF 0)
  else
    normalized aExp aSig (ret (packFloat32 zSign 0 0)) (fun aExp aSig =>
    normalized bExp bSig (ret (packFloat32 zSign 0 0)) (fun bExp bSig =>
    let zExp := aExp + bExp - 0x7F in
    let aSig := u32 (Z.shiftl (Z.lor aSig 0x00800000) 7) in
    let bSig := u32 (Z.shiftl (Z.lor bSig 0x00800000) 8) in
    zSig64 ← shift64RightJamming (u64 (aSig * bSig)) 32;
    let zSig := u32 zSig64 in
    if 0 <=? s32 (u32 (Z.shiftl zSig 1))
    then roundAndPackFloat32 zSign (zExp - 1) (u32 (Z.shiftl zSig 1))
    else roundAndPackFloat32 zSign zExp zSig)).

Definition float32_div (a b : Z) : M Z :=
  let aSig := extractFloat32Frac a in
  let aExp := extractFloat32Exp a in
  let aSign := extractFloat32Sign a in
  let bSig := extractFloat32Frac b in
  let bExp := extractFloat32Exp b in
  let bSign := extractFloat32Sign b in
  let zSign := xorb aSign bSign in
  if aExp =? 0xFF then
    if nz aSig then propagateFloat32NaN a b
    else if bExp =? 0xFF then if nz bSig then propagateFloat32NaN a b else invalid
    else ret (packFloat32 zSign 0xFF 0)
  else if bExp =? 0xFF then
    if nz bSig then propagateFloat32NaN a b else ret (packFloat32 zSign 0 0)
  else
    normalized bExp bSig
      (if Z.lor aExp aSig =? 0 then invalid
       else float_raise float_flag_divbyzero;; ret (packFloat32 zSign 0xFF 0)) (fun bExp bSig =>
    normalized aExp aSig (ret (packFloat32 zSign 0 0)) (fun aExp aSig =>
    let zExp := aExp - bExp + 0x7D in
    let aSig := u32 (Z.shiftl (Z.lor aSig 0x00800000) 7) in
    let bSig := u32 (Z.shiftl (Z.lor bSig 0x00800000) 8) in
    let '(aSig, zExp) := if bSig <=? u32 (aSig + aSig) then (Z.shiftr aSig 1, zExp + 1) else (aSig, zExp) in
    q ← div_bits (u64 (Z.shiftl aSig 32)) bSig;
    let zSig := u32 q in
    let zSig := if Z.land zSig 0x3F =? 0
                then Z.lor zSig (b2z (negb (u64 (bSig * zSig) =? u64 (Z.shiftl aSig 32)))) else zSig in
    roundAndPackFloat32 zSign zExp zSig)).

(** ** Remainder *)

(** [q64 = estimateDiv128To64( aSig64, 0, bSig64 ); q64 = ( 2 < q64 ) ? q64 - 2 : 0;] *)
Definition rem_quotient (aSig64 bSig64 : Z) : M Z :=
  q64 ← estimateDiv128To64 aSig64 0 bSig64;
  ret (if 2 <? q64 then q64 - 2 else 0).

(** [while ( 0 < expDiff )] *)
Fixpoint rem_reduce (fuel : nat) (bSig bSig64 aSig64 expDiff : Z) : M (Z * Z) :=
  if 0 <? expDiff then
    match fuel with
    | O => stop_with Out_of_fuel
    | S fuel =>
        q64 ← rem_quotient aSig64 bSig64;
        rem_reduce fuel bSig bSig64 (u64 (- u64 (Z.shiftl (u64 (bSig * q64)) 38))) (expDiff - 62)
    end
  else ret (aSig64, expDiff).

(** [do { ... } while ( 0 <= (sbits32) aSig )]: [alternateASig], [aSig] and [q]. *)
Fixpoint rem_settle (fuel : nat) (aSig bSig q : Z) : M (Z * Z * Z) :=
  let alternateASig := aSig in
  let q := u32 (q + 1) in
  let aSig := u32 (aSig - bSig) in
  if 0 <=? s32 aSig then
    match fuel with O => stop_with Out_of_fuel | S fuel => rem_settle fuel aSig bSig q end
  else ret (alternateASig, aSig, q).

(** [aSig], [bSig] and [q] when [expDiff < 32]. *)
Definition rem_short (aSig bSig expDiff : Z) : M (Z * Z * Z) :=
  let q := b2z (bSig <=? aSig) in
  let aSig := if nz q then aSig - bSig else aSig in
  if 0 <? expDiff then
    q ← div_bits (u64 (Z.shiftl aSig 32)) bSig;
    q ← shr_bits U32 (u32 q) (32 - expDiff);
    let bSig := Z.shiftr bSig 2 in
    x ← shl_bits U32 (Z.shiftr aSig 1) (expDiff - 1);
    ret (u32 (x - u32 (bSig * q)), bSig, q)
  else ret (Z.shiftr aSig 2, Z.shiftr bSig 2, q).

(** ... and when it is not. *)
Definition rem_long (aSig bSig expDiff : Z) : M (Z * Z * Z) :=
  let aSig := if bSig <=? aSig then aSig - bSig else aSig in
  let aSig64 := u64 (Z.shiftl aSig 40) in
  let bSig64 := u64 (Z.shiftl bSig 40) in
  r ← rem_reduce 4 bSig bSig64 aSig64 (expDiff - 64);
  let '(aSig64, expDiff) := r in
  let expDiff := expDiff + 64 in
  q64 ← rem_quotient aSig64 bSig64;
  q ← shr_bits U64 q64 (64 - expDiff);
  let q := u32 q in
  let bSig := u32 (Z.shiftl bSig 6) in
  x ← shl_bits U64 (Z.shiftr aSig64 33) (expDiff - 1);
  ret (u32 (x - u32 (bSig * q)), bSig, q).

(** From the [do] loop to the end. *)
Definition rem_finish (aSign : bool) (bExp aSig bSig q : Z) : M Z :=
  r ← rem_settle 4 aSig bSig q;
  let '(alternateASig, aSig, q) := r in
  let sigMean := s32 (aSig + alternateASig) in
  let aSig := if (sigMean <? 0) || ((sigMean =? 0) && nz (Z.land q 1)) then alternateASig else aSig in
  let zSign := s32 aSig <? 0 in
  let aSig := if zSign then u32 (- aSig) else aSig in
  normalizeRoundAndPackFloat32 (xorb aSign zSign) bExp aSig.

Definition float32_rem (a b : Z) : M Z :=
  let aSig := extractFloat32Frac a in
  let aExp := extractFloat32Exp a in
  let aSign := extractFloat32Sign a in
  let bSig := extractFloat32Frac b in
  let bExp := extractFloat32Exp b in
  if aExp =? 0xFF then
    if nz aSig || ((bExp =? 0xFF) && nz bSig) then propagateFloat32NaN a b else invalid
  else if bExp =? 0xFF then
    if nz bSig then propagateFloat32NaN a b else ret a
  else
    normalized bExp bSig invalid (fun bExp bSig =>
    normalized aExp aSig (ret a) (fun aExp aSig =>
    let expDiff := aExp - bExp in
    let aSig := Z.lor aSig 0x00800000 in
    let bSig := Z.lor bSig 0x00800000 in
    if expDiff <? 32 then
      let aSig := u32 (Z.shiftl aSig 8) in
      let bSig := u32 (Z.shiftl bSig 8) in
      if expDiff <? -1 then ret a
      else
        let aSig := if expDiff <? 0 then Z.shiftr aSig 1 else aSig in
        r ← rem_short aSig bSig expDiff;
        let '(aSig, bSig, q) := r in
        rem_finish aSign bExp aSig bSig q
    else
      r ← rem_long aSig bSig expDiff;
      let '(aSig, bSig, q) := r in
      rem_finish aSign bExp aSig bSig q)).

(** ** Comparisons *)

(** The test for a NaN of the comparisons. *)
Definition nan_exp_frac (a : Z) : bool := (extractFloat32Exp a =? 0xFF) && nz (extractFloat32Frac a).
(** Both are zeros: [(bits32) ( ( a | b )<<1 ) == 0]. *)
Definition both_zero (a b : Z) : bool := u32 (Z.shiftl (Z.lor a b) 1) =? 0.

(** What the signaling and the quiet comparisons do with a NaN. *)
Definition unordered_signals : M bool := float_raise float_flag_invalid;; ret false.
Definition unordered_quiet (a b : Z) : M bool :=
  when (float32_is_signaling_nan a || float32_is_signaling_nan b) (float_raise float_flag_invalid);;
  ret false.

Definition equal32 (a b : Z) : bool := (a =? b) || both_zero a b.
Definition below_eq32 (a b : Z) : bool :=
  let aSign := extractFloat32Sign a in
  let bSign := extractFloat32Sign b in
  if negb (eqb aSign bSign) then aSign || both_zero a b
  else (a =? b) || xorb aSign (a <? b).
Definition below32 (a b : Z) : bool :=
  let aSign := extractFloat32Sign a in
  let bSign := extractFloat32Sign b in
  if negb (eqb aSign bSign) then aSign && negb (both_zero a b)
  else negb (a =? b) && xorb aSign (a <? b).

Definition float32_eq (a b : Z) : M bool :=
  if nan_exp_frac a || nan_exp_frac b then unordered_quiet a b else ret (equal32 a b).
Definition float32_le (a b : Z) : M bool :=
  if nan_exp_frac a || nan_exp_frac b then unordered_signals else ret (below_eq32 a b).
Definition float32_lt (a b : Z) : M bool :=
  if nan_exp_frac a || nan_exp_frac b then unordered_signals else ret (below32 a b).
Definition float32_eq_signaling (a b : Z) : M bool :=
  if nan_exp_frac a || nan_exp_frac b then unordered_signals else ret (equal32 a b).
Definition float32_le_quiet (a b : Z) : M bool :=
  if nan_exp_frac a || nan_exp_frac b then unordered_quiet a b else ret (below_eq32 a b).
Definition float32_lt_quiet (a b : Z) : M bool :=
  if nan_exp_frac a || nan_exp_frac b then unordered_quiet a b else ret (below32 a b).

End Float32.
