(* ===== verification/Wide.v ===== *)
(** * Double-word arithmetic (softfloat-macros)

    128-bit sums, differences and products as pairs of words, and the estimate
    of a 64-bit quotient: it exceeds the quotient by at most 2. *)

From S2P Require Export Float32.

Module Wide.
Import Insnset Float32.

(** ** Pairs of words *)

Definition B : Z := 2 ^ 64.
(** The pair [(h, l)] is [x] modulo [2 ^ 128]. *)
Definition pair_of (p : Z * Z) (x : Z) : Prop :=
  0 <= fst p < B /\ 0 <= snd p < B /\ (fst p * B + snd p - x) mod (B * B) = 0.

Lemma pair_div p x : pair_of p x -> fst p = x / B mod B /\ snd p = x mod B.
Proof.
  intros (Hh & Hl & E). destruct p as [h l]. cbn [fst snd] in *. unfold B in *.
  apply Z.mod_divide in E; [|lia]. destruct E as [k E].
  assert (Ex : x = (h - k * 2 ^ 64) * 2 ^ 64 + l) by lia.
  assert (Ed : x / 2 ^ 64 = h - k * 2 ^ 64) by (symmetry; apply Z.div_unique with l; lia).
  split.
  - rewrite Ed. apply Z.mod_unique with (- k); lia.
  - apply Z.mod_unique with (h - k * 2 ^ 64); lia.
Qed.
Lemma pair_small p x : pair_of p x -> 0 <= x < B * B -> fst p = x / B /\ snd p = x mod B.
Proof.
  intros Hp Hx. destruct (pair_div p x Hp) as [-> ->]. split; [|done]. apply Z.mod_small. unfold B in *.
  split; [apply Z.div_pos; lia | apply Z.div_lt_upper_bound; lia].
Qed.

Lemma u64_range z : 0 <= u64 z < B.
Proof. apply inty_U64, wrap_inty. Qed.
Lemma u64_eq z : u64 z = z - B * (z / B).
Proof. change (u64 z) with (z mod 2 ^ 64). unfold B. rewrite Z.mod_eq by lia. done. Qed.
Lemma u64_small z : 0 <= z < B -> u64 z = z.
Proof. intros. by apply wrap_small, inty_U64. Qed.

(** The carry out of a sum of words, and the borrow of a difference. *)
Lemma carry_spec x y : 0 <= x < B -> 0 <= y < B -> x + y = u64 (x + y) + B * b2z (u64 (x + y) <? x).
Proof.
  intros Hx Hy. rewrite u64_eq. unfold B in *. assert (x + y < 2 * 2 ^ 64) by lia.
  destruct (Z.lt_ge_cases (x + y) (2 ^ 64)).
  - rewrite (Z.div_small (x + y)) by lia. rewrite (proj2 (Z.ltb_ge _ _)) by lia. cbn [b2z]. lia.
  - rewrite <- (Z.div_unique (x + y) (2 ^ 64) 1 (x + y - 2 ^ 64)) by lia.
    rewrite (proj2 (Z.ltb_lt _ _)) by lia. cbn [b2z]. lia.
Qed.
Lemma borrow_spec x y : 0 <= x < B -> 0 <= y < B -> x - y = u64 (x - y) - B * b2z (x <? y).
Proof.
  intros Hx Hy. rewrite u64_eq. unfold B in *. destruct (Z.ltb_spec x y); cbn [b2z].
  - rewrite <- (Z.div_unique (x - y) (2 ^ 64) (-1) (x - y + 2 ^ 64)) by lia. lia.
  - rewrite (Z.div_small (x - y)) by lia. lia.
Qed.

Lemma add128_spec a0 a1 b0 b1 x y :
  pair_of (a0, a1) x -> pair_of (b0, b1) y -> pair_of (add128 a0 a1 b0 b1) (x + y).
Proof.
  intros (Ha0 & Ha1 & Ex) (Hb0 & Hb1 & Ey). cbn [fst snd] in *. unfold add128.
  pose proof (carry_spec a1 b1 Ha1 Hb1). set (c := b2z _) in *.
  split; [apply u64_range | split; [apply u64_range|]]. cbn [fst snd].
  rewrite (u64_eq (a0 + b0 + c)). apply Z.mod_divide in Ex, Ey; try (unfold B; lia).
  destruct Ex as [k Ek], Ey as [l El]. apply Z.mod_divide; [unfold B; lia|].
  exists (k + l - (a0 + b0 + c) / B). lia.
Qed.
Lemma sub128_spec a0 a1 b0 b1 x y :
  pair_of (a0, a1) x -> pair_of (b0, b1) y -> pair_of (sub128 a0 a1 b0 b1) (x - y).
Proof.
  intros (Ha0 & Ha1 & Ex) (Hb0 & Hb1 & Ey). cbn [fst snd] in *. unfold sub128.
  pose proof (borrow_spec a1 b1 Ha1 Hb1). set (c := b2z _) in *.
  split; [apply u64_range | split; [apply u64_range|]]. cbn [fst snd].
  rewrite (u64_eq (a0 - b0 - c)). apply Z.mod_divide in Ex, Ey; try (unfold B; lia).
  destruct Ex as [k Ek], Ey as [l El]. apply Z.mod_divide; [unfold B; lia|].
  exists (k - l - (a0 - b0 - c) / B). lia.
Qed.

(** The schoolbook product of two words of two digits each. *)
Lemma mul64To128_spec a b : 0 <= a < B -> 0 <= b < B -> pair_of (mul64To128 a b) (a * b).
Proof.
  intros Ha Hb. unfold mul64To128. rewrite !Z.shiftr_div_pow2, !u32_eq by lia.
  set (H := 2 ^ 32). set (ah := a / H). set (al := a mod H). set (bh := b / H). set (bl := b mod H).
  assert (EB : B = H * H) by reflexivity.
  assert (Ea : a = H * ah + al /\ 0 <= al < H /\ 0 <= ah < H).
  { unfold ah, al. pose proof (Z.div_mod a H ltac:(done)). pose proof (Z.mod_pos_bound a H ltac:(done)).
    split; [done|]. split; [done|]. split; [apply Z.div_pos; lia | apply Z.div_lt_upper_bound; lia]. }
  assert (Eb : b = H * bh + bl /\ 0 <= bl < H /\ 0 <= bh < H).
  { unfold bh, bl. pose proof (Z.div_mod b H ltac:(done)). pose proof (Z.mod_pos_bound b H ltac:(done)).
    split; [done|]. split; [done|]. split; [apply Z.div_pos; lia | apply Z.div_lt_upper_bound; lia]. }
  destruct Ea as (Ea & Hal & Hah), Eb as (Eb & Hbl & Hbh). clearbody ah al bh bl.
  assert (Hp : forall x y, 0 <= x < H -> 0 <= y < H -> 0 <= x * y <= (H - 1) * (H - 1)) by (intros; nia).
  pose proof (Hp al bl Hal Hbl). pose proof (Hp al bh Hal Hbh). pose proof (Hp ah bl Hah Hbl). pose proof (Hp ah bh Hah Hbh).
  assert (EH : (H - 1) * (H - 1) < B) by (vm_compute; done).
  rewrite (u64_small (al * bl)), (u64_small (al * bh)), (u64_small (ah * bl)), (u64_small (ah * bh)) by lia.
  pose proof (carry_spec (ah * bl) (al * bh) ltac:(lia) ltac:(lia)) as Ec.
  rewrite (Z.add_comm (ah * bl)) in Ec.
  pose proof (u64_range (al * bh + ah * bl)). set (mA := u64 (al * bh + ah * bl)) in *. set (c := b2z (mA <? _)) in *.
  assert (Em : mA = H * (mA / H) + mA mod H) by (apply Z.div_mod; done). pose proof (Z.mod_pos_bound mA H ltac:(done)).
  assert (0 <= mA / H < H) by (split; [apply Z.div_pos; lia | apply Z.div_lt_upper_bound; lia]).
  set (mh := mA / H) in *. set (ml := mA mod H) in *. assert (Hc : 0 <= c <= 1) by (unfold c; destruct (_ <? _); cbn; lia).
  assert (Es : u64 (Z.shiftl mA 32) = ml * H).
  { rewrite Z.shiftl_mul_pow2 by lia. fold H. rewrite u64_eq, Em. rewrite EB.
    rewrite <- (Z.div_unique ((H * mh + ml) * H) (H * H) mh (ml * H)) by nia. lia. }
  rewrite Es, Z.shiftl_mul_pow2 by lia. fold H. rewrite (u64_small (c * H)) by nia.
  pose proof (carry_spec (ml * H) (al * bl) ltac:(nia) ltac:(lia)) as Ec2. rewrite (Z.add_comm (ml * H)) in Ec2.
  set (z1 := u64 (al * bl + ml * H)) in *. set (c2 := b2z (z1 <? _)) in *.
  split; [apply u64_range | split; [apply u64_range|]]. cbn [fst snd].
  rewrite (u64_eq (u64 _ + c2)), (u64_eq (ah * bh + _)). set (X := ah * bh + (c * H + mh)).
  apply Z.mod_divide; [lia|]. exists (- (X / B) - ((X - B * (X / B) + c2) / B)).
  assert (E : a * b = B * X + (al * bl + ml * H)).
  { rewrite Ea, Eb. replace ((H * ah + al) * (H * bh + bl)) with (H * H * (ah * bh) + H * (al * bh + ah * bl) + al * bl) by lia.
    rewrite Ec, Em, EB. unfold X. lia. }
  rewrite E, Ec2. lia.
Qed.

(** ** The estimate of a quotient *)

(** One digit: the quotient of [x] by [b] from the high digits of both. *)
Definition digit (b0 y : Z) : Z := if b0 * 2 ^ 32 <=? y then 2 ^ 32 - 1 else y / b0.

Lemma digit_spec b x :
  2 ^ 63 <= b < 2 ^ 64 -> 0 <= x < b * 2 ^ 32 ->
  x / b <= digit (b / 2 ^ 32) (x / 2 ^ 32) <= x / b + 2 /\ 0 <= digit (b / 2 ^ 32) (x / 2 ^ 32) < 2 ^ 32.
Proof.
  intros Hb Hx. set (H := 2 ^ 32) in *. set (b0 := b / H). set (y := x / H).
  assert (Eb : b0 * H <= b < (b0 + 1) * H).
  { unfold b0. pose proof (Z.div_mod b H ltac:(done)). pose proof (Z.mod_pos_bound b H ltac:(done)). lia. }
  assert (Ey : y * H <= x < (y + 1) * H).
  { unfold y. pose proof (Z.div_mod x H ltac:(done)). pose proof (Z.mod_pos_bound x H ltac:(done)). lia. }
  assert (EHH : 2 ^ 63 = 2 ^ 31 * H) by reflexivity. assert (2 ^ 64 = H * H) by reflexivity.
  assert (Hb0 : 2 ^ 31 <= b0 < H) by nia. assert (0 < H) by done. assert (0 <= y) by nia.
  assert (Q : x / b < H) by (apply Z.div_lt_upper_bound; lia). assert (0 <= x / b) by (apply Z.div_pos; lia).
  pose proof (Z.div_mod x b ltac:(lia)) as Ex. pose proof (Z.mod_pos_bound x b ltac:(lia)). set (q := x / b) in *.
  unfold digit. fold H. destruct (Z.leb_spec (b0 * H) y) as [Hc|Hc].
  - split; [|lia]. split; [lia|]. assert (H - 2 <= q); [|lia]. 
    assert (~ q < H - 2); [|lia]. intros Hq. assert (b * (q + 1) > x) by lia. 
    assert (x >= b0 * H * H) by nia. assert (b * (q + 1) <= b * (H - 2)) by nia.
    assert (b * (H - 2) < (b0 + 1) * H * (H - 2)) by nia.
    assert ((b0 + 1) * (H - 2) <= b0 * H) by nia. nia.
  - pose proof (Z.div_mod y b0 ltac:(lia)) as Eq. pose proof (Z.mod_pos_bound y b0 ltac:(lia)).
    set (t := y / b0) in *. assert (t < H) by (apply Z.div_lt_upper_bound; lia). assert (0 <= t) by (apply Z.div_pos; lia).
    assert (Hlow : q <= t).
    { assert (~ t < q); [|lia]. intros Hq. assert (b * (t + 1) <= x) by nia. assert (b0 * H * (t + 1) < (y + 1) * H) by nia.
      assert (b0 * (t + 1) < y + 1) by nia. nia. }
    split; [|lia]. split; [done|]. assert (~ q + 3 <= t); [|lia]. intros Hq.
    assert (x < b * (q + 1)) by lia. assert (b * (q + 1) < (b0 + 1) * H * (q + 1)) by nia.
    assert (y * H < (b0 + 1) * H * (q + 1)) by lia. assert (y < (b0 + 1) * (q + 1)) by nia.
    assert (b0 * (q + 3) <= y) by nia. nia.
Qed.

Section Estimate.
Context (a0 a1 b : Z) (σ : Sim).
Hypothesis (Hb : 2 ^ 63 <= b < 2 ^ 64) (Ha0 : 0 <= a0 < b) (Ha1 : 0 <= a1 < B).
Let a := a0 * B + a1.
Let H := 2 ^ 32.

(** The sign of a remainder that is small, from the high word of its pair. *)
Lemma pair_sign p x : pair_of p x -> - 2 ^ 120 <= x < 2 ^ 120 -> (s64 (fst p) <? 0) = (x <? 0).
Proof.
  intros Hp Hx. destruct (pair_div p x Hp) as [-> _]. unfold B. set (q := x / 2 ^ 64).
  pose proof (Z.div_mod x (2 ^ 64) ltac:(lia)) as E. pose proof (Z.mod_pos_bound x (2 ^ 64) ltac:(lia)). fold q in E.
  assert (Hq : - 2 ^ 56 <= q < 2 ^ 56) by lia.
  change (s64 (q mod 2 ^ 64)) with ((q mod 2 ^ 64 + 2 ^ 63) mod 2 ^ 64 - 2 ^ 63).
  rewrite Zplus_mod_idemp_l, Z.mod_small by lia.
  apply eq_bool_prop_intro. rewrite !Is_true_true, !Z.ltb_lt. lia.
Qed.

(** The correction of the high digit: it is taken down until the remainder is
    not negative. *)
Lemma estimate_corrects n zh r :
  (n <= 3)%nat -> pair_of r (a - b * zh * H) -> - Z.of_nat n * (b * H) <= a - b * zh * H < b * H -> 0 <= zh < H ->
  exists zt r', estimate_correct n (b / H) (u64 (Z.shiftl b 32)) (zh * H) (fst r) (snd r) σ = Ok (zt * H, fst r', snd r') σ /\
    pair_of r' (a - b * zt * H) /\ 0 <= a - b * zt * H < b * H /\ 0 <= zt < H.
Proof.
  assert (HbH : 0 < b * H < 2 ^ 96) by (unfold H; lia).
  revert zh r. induction n as [|n IH]; intros zh r Hn Hr HX Hz; cbn [estimate_correct];
    (rewrite (pair_sign r (a - b * zh * H)); [|done|nia]).
  { rewrite (proj2 (Z.ltb_ge _ 0)) by lia. exists zh, r. split; [done|]. split; [done|]. lia. }
  destruct (Z.ltb_spec (a - b * zh * H) 0) as [Hneg|Hpos].
  2:{ exists zh, r. split; [done|]. split; [done|]. lia. }
  assert (0 <= a) by (unfold a, B; lia). assert (0 < zh) by nia.
  assert (Hs : pair_of (b / H, u64 (Z.shiftl b 32)) (b * H)).
  { pose proof (Z.div_mod b H ltac:(done)). pose proof (Z.mod_pos_bound b H ltac:(done)).
    split; [|split; [apply u64_range|]]; cbn [fst snd].
    - split; [apply Z.div_pos; lia | apply Z.div_lt_upper_bound; unfold H, B in *; lia].
    - rewrite Z.shiftl_mul_pow2 by lia. fold H. apply Z.mod_divide; [unfold B; lia|]. exists 0.
      rewrite u64_eq. rewrite <- (Z.div_unique (b * H) B (b / H) (b mod H * H)); [lia | unfold B, H in *; lia..]. }
  destruct r as [r0 r1]. pose proof (add128_spec r0 r1 _ _ _ _ Hr Hs) as Hadd. cbn [fst snd].
  destruct (add128 r0 r1 (b / H) (u64 (Z.shiftl b 32))) as [s0 s1].
  replace (u64 (zh * H - 0x100000000)) with ((zh - 1) * H).
  2:{ rewrite u64_small; unfold H, B in *; lia. }
  replace (a - b * zh * H + b * H) with (a - b * (zh - 1) * H) in Hadd by lia.
  apply (IH (zh - 1) (s0, s1)); [lia | done | lia | lia].
Qed.

(** The digits as the code computes them. *)
Lemma digit_run b0 y :
  2 ^ 31 <= b0 < H -> 0 <= y ->
  (if u64 (Z.shiftl b0 32) <=? y then ret 0xFFFFFFFF else div_bits y b0) σ = Ok (digit b0 y) σ.
Proof.
  intros Hb0 Hy. rewrite Z.shiftl_mul_pow2, u64_small by (unfold H, B in *; lia). unfold digit, div_bits.
  destruct (b0 * 2 ^ 32 <=? y); [done|]. by rewrite (proj2 (Z.eqb_neq b0 0)) by lia.
Qed.
Lemma high_digit_run b0 y :
  2 ^ 31 <= b0 < H -> 0 <= y -> 0 <= digit b0 y < H ->
  (if u64 (Z.shiftl b0 32) <=? y then ret 0xFFFFFFFF00000000
   else q ← div_bits y b0; ret (u64 (Z.shiftl q 32))) σ = Ok (digit b0 y * H) σ.
Proof.
  intros Hb0 Hy Hd. rewrite Z.shiftl_mul_pow2, u64_small by (unfold H, B in *; lia). unfold digit, div_bits in *.
  destruct (b0 * 2 ^ 32 <=? y); [done|]. rewrite (proj2 (Z.eqb_neq b0 0)) by lia.
  unfold bind, ret. rewrite Z.shiftl_mul_pow2, u64_small by (unfold H, B in *; lia). done.
Qed.

Lemma join_words p x : pair_of p x -> 0 <= x < H * B -> Z.lor (u64 (Z.shiftl (fst p) 32)) (Z.shiftr (snd p) 32) = x / H.
Proof.
  intros Hp Hx. destruct (pair_small p x Hp) as [-> ->]; [unfold H, B in *; lia|].
  assert (Hq : 0 <= x / B < H) by (split; [apply Z.div_pos | apply Z.div_lt_upper_bound]; unfold B in *; lia).
  pose proof (Z.mod_pos_bound x B ltac:(done)). pose proof (Z.div_mod x B ltac:(done)) as E.
  rewrite Z.shiftl_mul_pow2, u64_small, Z.shiftr_div_pow2 by (unfold H, B in *; lia). fold H.
  assert (0 <= x mod B / H < H) by (split; [apply Z.div_pos | apply Z.div_lt_upper_bound]; unfold H, B in *; lia).
  rewrite (lor_low 32) by (unfold H in *; lia). fold H. apply Z.div_unique with (x mod B mod H).
  - left. by apply Z.mod_pos_bound.
  - pose proof (Z.div_mod (x mod B) H ltac:(done)). change B with (H * H) in E at 1. lia.
Qed.

Theorem estimate_bounds :
  exists q, estimateDiv128To64 a0 a1 b σ = Ok q σ /\ a / b <= q <= a / b + 2 /\ 0 <= q < 2 ^ 64.
Proof.
  assert (Ha : 0 <= a < b * B) by (unfold a; nia).
  assert (Hx1 : 0 <= a / H < b * H).
  { split; [apply Z.div_pos; unfold H; lia | apply Z.div_lt_upper_bound; [done|]]. change B with (H * H) in Ha. lia. }
  pose proof (digit_spec b (a / H) Hb Hx1) as [Hd1 Hr1]. fold H in Hd1, Hr1.
  assert (Ey : a / H / H = a0).
  { rewrite Z.div_div by done. symmetry. apply Z.div_unique with a1; [left; exact Ha1 | unfold a; change B with (H * H); lia]. }
  rewrite Ey in *. set (b0 := b / H) in *.
  assert (Hb0 : 2 ^ 31 <= b0 < H).
  { split; [apply Z.div_le_lower_bound | apply Z.div_lt_upper_bound]; unfold H; lia. }
  assert (Eq : a / H / b = a / (b * H)) by (rewrite Z.div_div, (Z.mul_comm H) by (done || lia); done). rewrite Eq in Hd1.
  assert (HbH : 0 < b * H) by (unfold H; lia).
  pose proof (Z.div_mod a (b * H) ltac:(lia)) as Ea. pose proof (Z.mod_pos_bound a (b * H) HbH).
  set (zh := digit b0 a0) in *.
  assert (Hs : pair_of (sub128 a0 a1 (fst (mul64To128 b (zh * H))) (snd (mul64To128 b (zh * H)))) (a - b * zh * H)).
  { apply sub128_spec.
    - split; [unfold B in *; cbn [fst]; lia|]. split; [exact Ha1|]. cbn [fst snd]. fold a. by rewrite Z.sub_diag.
    - rewrite <- Z.mul_assoc. pose proof (mul64To128_spec b (zh * H) ltac:(unfold B; lia) ltac:(unfold H, B in *; lia)) as Hmul.
      by destruct (mul64To128 b (zh * H)). }
  destruct (estimate_corrects 3 zh _ ltac:(lia) Hs ltac:(nia) Hr1) as (zt & r' & Erun & Hr' & HX & Hzt).
  assert (Ezt : zt = a / (b * H)) by (apply Z.div_unique with (a - b * zt * H); lia).
  set (x := a - b * zt * H) in *.
  pose proof (digit_spec b x Hb HX) as [Hd2 Hr2]. fold H b0 in Hd2, Hr2.
  exists (zt * H + digit b0 (x / H)).
  assert (Eab : a / b = x / b + zt * H).
  { replace a with (x + zt * H * b) by (unfold x; lia). apply Z.div_add. lia. }
  split; [|unfold H, B in *; lia].
  assert (Hy : 0 <= x / H) by (apply Z.div_pos; unfold H; lia).
  unfold estimateDiv128To64. rewrite (proj2 (Z.leb_gt b a0)), Z.shiftr_div_pow2 by lia. fold H b0. cbv zeta.
  unfold bind at 1. rewrite high_digit_run by lia. fold zh.
  destruct (mul64To128 b (zh * H)) as [t0 t1]. cbn [fst snd] in *.
  destruct (sub128 a0 a1 t0 t1) as [r0 r1]. cbn [fst snd] in *.
  fold b0 in Erun. unfold bind at 1. rewrite Erun. destruct r' as [s0 s1]. cbn [fst snd] in *.
  pose proof (join_words (s0, s1) x Hr' ltac:(unfold H, B in *; lia)) as Ej. cbn [fst snd] in Ej. rewrite Ej.
  unfold bind at 1. rewrite digit_run by lia. unfold ret. f_equal. apply (lor_low 32); unfold H in *; lia.
Qed.
End Estimate.
End Wide.
