(* ===== verification/FloatRound.v ===== *)
(** * Correct rounding to single precision

    What IEEE 754 asks of a result, on exact rational numbers: [round32] rounds
    [n / d] units of [2 ^ -149] (every finite single-precision number is a whole
    number of them) in a rounding mode, and lists the exceptions.  The rounding
    functions of the library compute it from a significand whose last bit is
    jammed: it says whether anything was shifted out. *)

From S2P Require Export Float32.

Module FloatRound.
Import Insnset Float32.

(** ** Rounding a rational number *)

(** Whether the magnitude [q + r / d] is rounded up to [q + 1]; [s] is its sign. *)
Definition rounds_up (mode : Z) (s : bool) (q r d : Z) : bool :=
  if mode =? float_round_nearest_even then (d <? 2 * r) || ((2 * r =? d) && Z.odd q)
  else if mode =? float_round_up then negb s && (0 <? r)
  else if mode =? float_round_down then s && (0 <? r)
  else false.

(** [n / d] to an integer. *)
Definition rnd (mode : Z) (s : bool) (n d : Z) : Z :=
  n / d + b2z (rounds_up mode s (n / d) (n mod d) d).

Definition mode_ok (mode : Z) : Prop := 0 <= mode <= 3.

Lemma rounds_up_ext mode s q r d r' d' :
  (d <? 2 * r) = (d' <? 2 * r') -> (2 * r =? d) = (2 * r' =? d') -> (0 <? r) = (0 <? r') ->
  rounds_up mode s q r d = rounds_up mode s q r' d'.
Proof. unfold rounds_up. by intros -> -> ->. Qed.

Lemma div_mod_scale n d k : 0 < d -> 0 < k -> (n * k) / (d * k) = n / d /\ (n * k) mod (d * k) = (n mod d) * k.
Proof. intros. by rewrite Z.div_mul_cancel_r, Z.mul_mod_distr_r by lia. Qed.

Lemma rnd_scale mode s n d k : 0 < d -> 0 < k -> rnd mode s (n * k) (d * k) = rnd mode s n d.
Proof.
  intros. destruct (div_mod_scale n d k) as [Eq Er]; [lia..|]. unfold rnd. rewrite Eq, Er.
  f_equal; f_equal. pose proof (Z.mod_pos_bound n d ltac:(lia)).
  apply rounds_up_ext; [apply eq_bool_prop_intro; rewrite !Is_true_true, !Z.ltb_lt
    | apply eq_bool_prop_intro; rewrite !Is_true_true, !Z.eqb_eq
    | apply eq_bool_prop_intro; rewrite !Is_true_true, !Z.ltb_lt]; split; nia.
Qed.

(** The result depends on the quotient only. *)
Lemma rnd_ext mode s n d n' d' :
  0 < d -> 0 < d' -> n * d' = n' * d -> rnd mode s n d = rnd mode s n' d'.
Proof.
  intros Hd Hd' E. rewrite <- (rnd_scale mode s n d d'), <- (rnd_scale mode s n' d' d) by lia.
  f_equal; lia.
Qed.
Lemma exact_ext n d n' d' : 0 < d -> 0 < d' -> n * d' = n' * d -> nz (n mod d) = nz (n' mod d').
Proof.
  intros Hd Hd' E. destruct (div_mod_scale n d d') as [_ E1]; [lia..|].
  destruct (div_mod_scale n' d' d) as [_ E2]; [lia..|].
  rewrite E, (Z.mul_comm d d'), E2 in E1.
  unfold nz. f_equal. apply eq_bool_prop_intro. rewrite !Is_true_true, !Z.eqb_eq. split; nia.
Qed.

Lemma rnd_bounds mode s n d : 0 < d -> n / d <= rnd mode s n d <= n / d + 1.
Proof. unfold rnd. destruct (rounds_up _ _ _ _ _); cbn; lia. Qed.
Lemma rnd_exact mode s n : rnd mode s n 1 = n.
Proof.
  unfold rnd. rewrite Z.div_1_r, Z.mod_1_r. unfold rounds_up. cbn.
  rewrite !andb_false_r. change (1 <? 2 * 0) with false. change (2 * 0 =? 1) with false. cbn.
  repeat case_match; apply Z.add_0_r.
Qed.
Lemma rnd_multiple mode s q d : 0 < d -> rnd mode s (q * d) d = q.
Proof. intros. rewrite <- (rnd_exact mode s q) at 2. apply rnd_ext; lia. Qed.

(** Rounding up does not cross a bound that is an integer. *)
Lemma rnd_le mode s n d k : 0 < d -> n <= k * d -> rnd mode s n d <= k.
Proof.
  intros Hd Hn. destruct (Z.eq_dec n (k * d)) as [->|].
  { rewrite rnd_multiple; lia. }
  pose proof (rnd_bounds mode s n d Hd). assert (n / d < k) by (apply Z.div_lt_upper_bound; lia). lia.
Qed.
Lemma rnd_ge mode s n d k : 0 < d -> k * d <= n -> k <= rnd mode s n d.
Proof.
  intros Hd Hn. pose proof (rnd_bounds mode s n d Hd).
  assert (k <= n / d) by (apply Z.div_le_lower_bound; lia). lia.
Qed.

(** ** Jamming *)

(** The quotient, its last bit set when the division is not exact. *)
Definition jam (n d : Z) : Z := Z.lor (n / d) (b2z (nz (n mod d))).

Lemma lor_1 q : Z.lor q 1 = 2 * (q / 2) + 1.
Proof.
  pose proof (Z.div_mod q 2 ltac:(lia)). pose proof (Z.mod_pos_bound q 2 ltac:(lia)).
  rewrite H at 1. rewrite (Z.mul_comm 2 (q / 2)). change 2 with (2 ^ 1) at 2.
  rewrite <- (lor_low 1) by lia. rewrite <- Z.lor_assoc.
  replace (Z.lor (q mod 2) 1) with 1 by (assert (q mod 2 = 0 \/ q mod 2 = 1) as [->| ->] by lia; reflexivity).
  rewrite (lor_low 1) by lia. lia.
Qed.

Lemma jam_eq n d : jam n d = if n mod d =? 0 then n / d else 2 * (n / d / 2) + 1.
Proof.
  unfold jam, nz. destruct (Z.eqb_spec (n mod d) 0); cbn; [apply Z.lor_0_r | apply lor_1].
Qed.

(** Dividing what was jammed by an even number: the same quotient, and a
    remainder on the same side of every multiple of 2. *)
Lemma jam_split n d e :
  0 <= n -> 0 < d -> 0 < e ->
  exists q r q' : Z, 0 <= q < 2 * e /\ 0 <= r < d /\
    n / (d * (2 * e)) = q' /\ n mod (d * (2 * e)) = d * q + r /\
    jam n d / (2 * e) = q' /\ jam n d mod (2 * e) = (if r =? 0 then q else 2 * (q / 2) + 1) /\
    0 <= q / 2 /\ q - 1 <= 2 * (q / 2) <= q.
Proof.
  intros Hn Hd He. set (k := n / d). set (r := n mod d). exists (k mod (2 * e)), r, (k / (2 * e)).
  assert (En : n = d * k + r) by (apply Z.div_mod; lia).
  assert (Hr : 0 <= r < d) by (apply Z.mod_pos_bound; lia).
  pose proof (Z.div_mod k (2 * e) ltac:(lia)) as Ek. pose proof (Z.mod_pos_bound k (2 * e) ltac:(lia)).
  set (q' := k / (2 * e)) in *. set (q := k mod (2 * e)) in *.
  pose proof (Z.div_mod q 2 ltac:(lia)). pose proof (Z.mod_pos_bound q 2 ltac:(lia)).
  assert (Eh : k / 2 = e * q' + q / 2) by (symmetry; apply Z.div_unique with (q mod 2); lia).
  rewrite jam_eq. fold k r.
  repeat split; try lia; try (symmetry; first [apply Z.div_unique with (d * q + r) | apply Z.mod_unique with q']; nia).
  - destruct (Z.eqb_spec r 0); [done|]. rewrite Eh. symmetry. apply Z.div_unique with (2 * (q / 2) + 1); lia.
  - destruct (Z.eqb_spec r 0); [done|]. rewrite Eh. symmetry. apply Z.mod_unique with q'; lia.
Qed.

Lemma nz_iff x y : (x = 0 <-> y = 0) -> nz x = nz y.
Proof. intros. unfold nz. f_equal. apply eq_bool_prop_intro. by rewrite !Is_true_true, !Z.eqb_eq. Qed.

Lemma jam_exact n d e : 0 <= n -> 0 < d -> 0 < e -> nz (jam n d mod (2 * e)) = nz (n mod (d * (2 * e))).
Proof.
  intros Hn Hd He. destruct (jam_split n d e) as (q & r & q' & ? & ? & _ & -> & _ & -> & ? & ?); [lia..|].
  apply nz_iff. destruct (Z.eqb_spec r 0); nia.
Qed.
Lemma jam_jam n d e : 0 <= n -> 0 < d -> 0 < e -> jam (jam n d) (2 * e) = jam n (d * (2 * e)).
Proof.
  intros Hn Hd He. unfold jam at 1. rewrite jam_exact by lia.
  destruct (jam_split n d e) as (q & r & q' & _ & _ & E & _ & -> & _); [lia..|]. unfold jam. by rewrite E.
Qed.
Lemma rnd_jam mode s n d e :
  0 <= n -> 0 < d -> 0 < e -> rnd mode s (jam n d) (4 * e) = rnd mode s n (d * (4 * e)).
Proof.
  intros Hn Hd He. replace (4 * e) with (2 * (2 * e)) by lia. unfold rnd.
  destruct (jam_split n d (2 * e)) as (q & r & q' & ? & ? & -> & -> & -> & -> & ? & ?); [lia..|].
  f_equal; f_equal. apply rounds_up_ext; apply eq_bool_prop_intro; rewrite !Is_true_true;
    rewrite ?Z.ltb_lt, ?Z.eqb_eq; destruct (Z.eqb_spec r 0); split; nia.
Qed.
(** ... at the seven bits the library drops. *)
Lemma rnd_jam7 mode s n d : 0 <= n -> 0 < d -> rnd mode s (jam n d) 128 = rnd mode s n (d * 128).
Proof. intros. apply (rnd_jam mode s n d 32); lia. Qed.
Lemma jam_exact7 n d : 0 <= n -> 0 < d -> nz (jam n d mod 128) = nz (n mod (d * 128)).
Proof. intros. apply (jam_exact n d 64); lia. Qed.

Lemma jam_bounds n d lo hi : 0 < d -> lo * d <= n < 2 * hi * d -> lo <= jam n d < 2 * hi.
Proof.
  intros Hd [? ?]. assert (lo <= n / d) by (apply Z.div_le_lower_bound; lia).
  assert (n / d < 2 * hi) by (apply Z.div_lt_upper_bound; lia).
  pose proof (Z.div_mod (n / d) 2 ltac:(lia)). pose proof (Z.mod_pos_bound (n / d) 2 ltac:(lia)).
  rewrite jam_eq. destruct (_ =? 0); lia.
Qed.

Lemma jam_lower n d k : 0 <= n -> 0 < d -> 2 * k <= jam n d -> 2 * k * d <= n.
Proof.
  intros Hn Hd Hj. destruct (Z.lt_ge_cases n (2 * k * d)) as [Hl|]; [|lia].
  pose proof (jam_bounds n d 0 k Hd ltac:(lia)). lia.
Qed.
Lemma jam_upper n d k : 0 < d -> jam n d < k -> n < k * d.
Proof.
  intros Hd Hj. pose proof (Z.div_mod n d ltac:(lia)). pose proof (Z.mod_pos_bound n d Hd).
  pose proof (Z.div_mod (n / d) 2 ltac:(lia)). pose proof (Z.mod_pos_bound (n / d) 2 ltac:(lia)).
  assert (n / d <= jam n d) by (rewrite jam_eq; destruct (_ =? 0); lia). nia.
Qed.

(** [z] stands for [N / D] whatever is rounded at bit 7 or above. *)
Definition sticky (z N D : Z) : Prop :=
  forall m, 7 <= m ->
    (forall mode s, rnd mode s z (2 ^ m) = rnd mode s N (D * 2 ^ m)) /\
    nz (z mod 2 ^ m) = nz (N mod (D * 2 ^ m)).

Lemma pow2_ge m k : 0 <= k <= m -> 2 ^ k <= 2 ^ m.
Proof. intros. apply Z.pow_le_mono_r; lia. Qed.

(** What is jammed stays so when it is shifted left by a few bits. *)
Lemma sticky_jam N D k : 0 <= k <= 5 -> 0 <= N -> 0 < D -> sticky (2 ^ k * jam N D) (2 ^ k * N) D.
Proof.
  intros Hk HN HD m Hm.
  assert (Em : 2 ^ m = 4 * 2 ^ (m - k - 2) * 2 ^ k)
    by (change 4 with (2 ^ 2); rewrite <- !Z.pow_add_r by lia; f_equal; lia).
  assert (0 < 2 ^ (m - k - 2) /\ 0 < 2 ^ k) as [? ?] by lia. rewrite Em. split.
  - intros. rewrite (Z.mul_comm _ (jam N D)), rnd_scale, rnd_jam by lia. apply rnd_ext; lia.
  - rewrite (exact_ext _ _ (jam N D) (4 * 2 ^ (m - k - 2))) by lia.
    replace (4 * 2 ^ (m - k - 2)) with (2 * (2 * 2 ^ (m - k - 2))) by lia.
    rewrite jam_exact by lia. apply exact_ext; lia.
Qed.
Lemma sticky_ext z N D N' D' : 0 < D -> 0 < D' -> N * D' = N' * D -> sticky z N D -> sticky z N' D'.
Proof.
  intros HD HD' E Hz m Hm. destruct (Hz m Hm) as [H1 H2]. assert (0 < 2 ^ m) by lia. split.
  - intros. rewrite H1. apply rnd_ext; nia.
  - rewrite H2. apply exact_ext; nia.
Qed.
Lemma sticky_exact z : 0 <= z -> sticky z z 1.
Proof. intros ? m ?. by rewrite Z.mul_1_l. Qed.

(** A quotient needs no sticky bit when its low six bits are not all zero. *)
Lemma sticky_quotient N D :
  0 <= N -> 0 < D -> N / D mod 64 <> 0 -> sticky (N / D) N D.
Proof.
  intros HN HD Hq m Hm. set (q := N / D) in *. set (r := N mod D).
  assert (EN : N = D * q + r) by (apply Z.div_mod; lia). assert (Hr : 0 <= r < D) by (apply Z.mod_pos_bound; lia).
  assert (Em : 2 ^ m = 64 * (2 * 2 ^ (m - 7))).
  { change 64 with (2 ^ 6). rewrite <- Z.pow_succ_r, <- Z.pow_add_r by lia. f_equal; lia. }
  set (h := 2 ^ (m - 7)) in *. assert (0 < h) by (unfold h; lia). rewrite Em.
  set (t := q / 64) in *. set (l := q mod 64) in *. assert (Eq : q = 64 * t + l) by (apply Z.div_mod; lia).
  assert (Hl : 0 <= l < 64) by (apply Z.mod_pos_bound; lia).
  set (t1 := t / (2 * h)). set (t2 := t mod (2 * h)).
  assert (Et : t = 2 * h * t1 + t2) by (apply Z.div_mod; lia).
  assert (Ht : 0 <= t2 < 2 * h) by (apply Z.mod_pos_bound; lia).
  assert (E1 : q / (64 * (2 * h)) = t1 /\ q mod (64 * (2 * h)) = 64 * t2 + l).
  { split; symmetry; [apply Z.div_unique with (64 * t2 + l) | apply Z.mod_unique with t1]; lia. }
  assert (E2 : N / (D * (64 * (2 * h))) = t1 /\ N mod (D * (64 * (2 * h))) = D * (64 * t2 + l) + r).
  { split; symmetry; [apply Z.div_unique with (D * (64 * t2 + l) + r) | apply Z.mod_unique with t1]; nia. }
  destruct E1 as [Eq1 Eq2], E2 as [EN1 EN2]. rewrite Eq2, EN2. split.
  - intros. unfold rnd. rewrite Eq1, Eq2, EN1, EN2. do 2 f_equal.
    assert (t2 < h \/ h <= t2) as [?|?] by lia; apply rounds_up_ext; apply eq_bool_prop_intro;
      rewrite !Is_true_true; rewrite ?Z.ltb_lt, ?Z.eqb_eq; split; nia.
  - apply nz_iff. nia.
Qed.
Lemma sticky_divided N D :
  0 <= N -> 0 < D ->
  sticky (if N / D mod 64 =? 0 then Z.lor (N / D) (b2z (negb (D * (N / D) =? N))) else N / D) N D.
Proof.
  intros HN HD. destruct (Z.eqb_spec (N / D mod 64) 0) as [E|E]; [|by apply sticky_quotient].
  pose proof (sticky_jam N D 0 ltac:(lia) HN HD) as Hs. rewrite Z.pow_0_r, !Z.mul_1_l in Hs.
  unfold jam in Hs. replace (negb (D * (N / D) =? N)) with (nz (N mod D)); [done|].
  unfold nz. f_equal. apply eq_bool_prop_intro. rewrite !Is_true_true, !Z.eqb_eq.
  pose proof (Z.div_mod N D). lia.
Qed.

Lemma lor_bit0_bounds q b lo hi : lo <= q < 2 * hi -> lo <= Z.lor q (b2z b) < 2 * hi.
Proof.
  intros. destruct b; cbn [b2z]; [rewrite lor_1 | by rewrite Z.lor_0_r].
  pose proof (Z.div_mod q 2 ltac:(lia)). pose proof (Z.mod_pos_bound q 2 ltac:(lia)). lia.
Qed.

(** The library's shifts that jam. *)
Lemma shl_low_zero w a c : 0 < c < w -> 0 <= a < 2 ^ w -> (Z.shiftl a (w - c) mod 2 ^ w = 0 <-> a mod 2 ^ c = 0).
Proof.
  intros Hc Ha. rewrite Z.shiftl_mul_pow2 by lia.
  replace (2 ^ w) with (2 ^ c * 2 ^ (w - c)) by (rewrite <- Z.pow_add_r by lia; f_equal; lia).
  rewrite Z.mul_mod_distr_r by lia. nia.
Qed.
Lemma jam_small a c : 0 <= a < 2 ^ c -> jam a (2 ^ c) = b2z (nz a).
Proof. intros. unfold jam. by rewrite Z.div_small, Z.mod_small by lia. Qed.
Lemma shift32_jams a c s : 0 <= a < 2 ^ 32 -> 0 <= c -> shift32RightJamming a c s = Ok (jam a (2 ^ c)) s.
Proof.
  intros Ha Hc. unfold shift32RightJamming. destruct (Z.eqb_spec c 0) as [->|].
  { unfold jam. by rewrite Z.div_1_r, Z.mod_1_r, Z.lor_0_r. }
  destruct (Z.ltb_spec c 32).
  - assert (Ec : Z.land (- c) 31 = 32 - c).
    { change 31 with (2 ^ 5 - 1). rewrite land_low by lia.
      symmetry. apply Z.mod_unique with (-1); lia. }
    unfold shr_bits, shl_bits. rewrite Ec. cbn [width].
    rewrite (proj2 (Z.leb_le 0 c)), (proj2 (Z.ltb_lt c 32)) by lia.
    rewrite (proj2 (Z.leb_le 0 (32 - c))), (proj2 (Z.ltb_lt (32 - c) 32)) by lia. cbn.
    f_equal. unfold jam. rewrite Z.shiftr_div_pow2, u32_eq by lia. f_equal; f_equal.
    apply nz_iff. apply shl_low_zero; lia.
  - cbn. rewrite jam_small; [done|]. pose proof (Z.pow_le_mono_r 2 32 c). lia.
Qed.
Lemma shift64_jams a c s : 0 <= a < 2 ^ 64 -> 0 <= c -> shift64RightJamming a c s = Ok (jam a (2 ^ c)) s.
Proof.
  intros Ha Hc. unfold shift64RightJamming. destruct (Z.eqb_spec c 0) as [->|].
  { unfold jam. by rewrite Z.div_1_r, Z.mod_1_r, Z.lor_0_r. }
  destruct (Z.ltb_spec c 64).
  - assert (Ec : Z.land (- c) 63 = 64 - c).
    { change 63 with (2 ^ 6 - 1). rewrite land_low by lia.
      symmetry. apply Z.mod_unique with (-1); lia. }
    unfold shr_bits, shl_bits. rewrite Ec. cbn [width].
    rewrite (proj2 (Z.leb_le 0 c)), (proj2 (Z.ltb_lt c 64)) by lia.
    rewrite (proj2 (Z.leb_le 0 (64 - c))), (proj2 (Z.ltb_lt (64 - c) 64)) by lia. cbn.
    f_equal. unfold jam. rewrite Z.shiftr_div_pow2 by lia. f_equal; f_equal.
    apply nz_iff. apply (shl_low_zero 64); lia.
  - cbn. rewrite jam_small; [done|]. pose proof (Z.pow_le_mono_r 2 64 c). lia.
Qed.

(** ** The rounding increment *)

(** Adding the increment and dropping seven bits, the last one kept cleared at
    a tie, rounds to the nearest 128th. *)
Lemma increment_rounds mode s z :
  mode_ok mode -> 0 <= z ->
  Z.land (Z.shiftr (z + round_increment mode s) 7)
    (Z.lnot (b2z ((Z.lxor (Z.land z 0x7F) 0x40 =? 0) && (mode =? float_round_nearest_even)))) = rnd mode s z 128.
Proof.
  intros Hm Hz. change 0x7F with (2 ^ 7 - 1). rewrite land_low, Z.shiftr_div_pow2 by lia.
  change (2 ^ 7) with 128.
  set (q := z / 128). set (r := z mod 128).
  assert (Eq : z = 128 * q + r) by (apply Z.div_mod; lia).
  assert (Hr : 0 <= r < 128) by (apply Z.mod_pos_bound; lia).
  assert (Ex : (Z.lxor r 0x40 =? 0) = (r =? 64)).
  { apply eq_bool_prop_intro. rewrite !Is_true_true, !Z.eqb_eq. split; [apply Z.lxor_eq | by intros ->]. }
  rewrite Ex. unfold rnd, rounds_up, round_increment. fold q r.
  assert (Eup : (z + 127) / 128 = q + b2z (0 <? r)).
  { destruct (Z.ltb_spec 0 r); cbn; symmetry;
      [apply Z.div_unique with (r - 1) | apply Z.div_unique with 127]; lia. }
  assert (Edn : (z + 0) / 128 = q) by (rewrite Z.add_0_r; reflexivity).
  assert (mode = 0 \/ mode = 1 \/ mode = 2 \/ mode = 3) as [->|[->|[->| ->]]] by (unfold mode_ok in Hm; lia); cbn;
    rewrite ?andb_false_r; cbn; try (change (Z.lnot 0) with (-1); rewrite Z.land_m1_r).
  2-4: destruct s; cbn; rewrite ?Eup, ?Edn; lia.
  rewrite andb_true_r. destruct (Z.eqb_spec r 64) as [Er|Er]; cbn.
  - rewrite Er. replace (128 <? 2 * 64) with false by reflexivity. replace (2 * 64 =? 128) with true by reflexivity. cbn.
    replace ((z + 64) / 128) with (q + 1) by (apply Z.div_unique with 0; lia).
    change (Z.lnot 1) with (Z.lnot (2 ^ 1 - 1)).
    rewrite <- Z.ldiff_land. change (2 ^ 1 - 1) with (Z.ones 1). rewrite Z.ldiff_ones_r by lia.
    rewrite Z.shiftr_div_pow2, Z.shiftl_mul_pow2 by lia. change (2 ^ 1) with 2.
    pose proof (Zmod_odd q). pose proof (Z.div_mod q 2 ltac:(lia)).
    destruct (Z.odd q); cbn; [rewrite <- (Z.div_unique (q + 1) 2 (q / 2 + 1) 0)
      | rewrite <- (Z.div_unique (q + 1) 2 (q / 2) 1)]; lia.
  - change (Z.lnot 0) with (-1). rewrite Z.land_m1_r.
    rewrite (proj2 (Z.eqb_neq (2 * r) 128)) by lia. rewrite orb_false_r.
    destruct (Z.ltb_spec 128 (2 * r)); cbn; symmetry; [apply Z.div_unique with (r - 64) | apply Z.div_unique with (r + 64)]; lia.
Qed.

(** ** Rounding to single precision *)

(** The encoding of infinity, without its sign. *)
Definition inf_word : Z := 255 * 2 ^ 23.
Definition signed (s : bool) (w : Z) : Z := b2z s * 2 ^ 31 + w.

(** The exponent of the last bit: 24 bits of precision, down to [2 ^ -149]. *)
Definition last_bit (n d : Z) : Z := Z.max 0 (Z.log2 (n / d) - 23).
(** The rounded magnitude, as its encoding: the significand is added to the
    exponent field, so that a carry out of it is a carry into the exponent. *)
Definition magnitude (mode : Z) (s : bool) (n d : Z) : Z :=
  last_bit n d * 2 ^ 23 + rnd mode s n (d * 2 ^ last_bit n d).
Definition inexact (n d : Z) : bool := nz (n mod (d * 2 ^ last_bit n d)).
(** Tininess after rounding: [n / d] is below the smallest normal number, also
    when it is rounded to 24 bits with no bound on the exponent. *)
Definition tiny (mode : Z) (s : bool) (n d : Z) : bool := rnd mode s (2 * n) d <? 2 ^ 24.
(** A result that is too large goes to infinity or to the largest finite number. *)
Definition to_infinity (mode : Z) (s : bool) : bool :=
  (mode =? float_round_nearest_even) ||
  (mode =? (if s then float_round_down else float_round_up)).

Definition round32 (mode : Z) (s : bool) (n d : Z) : Z :=
  signed s (if inf_word <=? magnitude mode s n d
            then inf_word - b2z (negb (to_infinity mode s)) else magnitude mode s n d).
Definition round32_raises (mode : Z) (s : bool) (n d : Z) : list Z :=
  if inf_word <=? magnitude mode s n d then [Z.lor float_flag_overflow float_flag_inexact]
  else if inexact n d then (if tiny mode s n d then [float_flag_underflow] else []) ++ [float_flag_inexact]
  else [].

(** Raising exceptions, one after another. *)
Definition raise_flag (s : Sim) (f : Z) : Sim :=
  upd Float_exception_flags (Z.lor (s Float_exception_flags) f) s.
Definition raise_flags (l : list Z) (s : Sim) : Sim := foldl raise_flag s l.

Lemma raise_flags_app l1 l2 s : raise_flags (l1 ++ l2) s = raise_flags l2 (raise_flags l1 s).
Proof. apply foldl_app. Qed.
Lemma when_raise b f s :
  when b (ors Float_exception_flags f) s = Ok tt (raise_flags (if b then [f] else []) s).
Proof. by destruct b. Qed.

Lemma pack_word s e m :
  0 <= e -> 0 <= m -> e * 2 ^ 23 + m < 2 ^ 31 -> packFloat32 s e m = signed s (e * 2 ^ 23 + m).
Proof.
  intros. unfold packFloat32, signed. rewrite !Z.shiftl_mul_pow2 by lia.
  rewrite (u32_small e), (u32_small (e * 2 ^ 23)), (u32_small (b2z s * 2 ^ 31)) by (destruct s; cbn; lia).
  rewrite u32_small; destruct s; cbn; lia.
Qed.

Lemma pack_rounded_ok s mode e z σ :
  mode_ok mode -> 0 <= e -> 0 <= z < 2 ^ 32 - 127 -> e * 2 ^ 23 + rnd mode s z 128 < 2 ^ 31 ->
  pack_rounded s mode e z σ =
  Ok (signed s ((if rnd mode s z 128 =? 0 then 0 else e) * 2 ^ 23 + rnd mode s z 128))
     (raise_flags (if nz (z mod 128) then [float_flag_inexact] else []) σ).
Proof.
  intros Hm He Hz Hw. unfold pack_rounded.
  assert (0 <= round_increment mode s <= 127) by (unfold round_increment; repeat case_match; lia).
  rewrite (u32_small (z + _)), increment_rounds by (lia || done).
  change (Z.land z 127) with (Z.land z (2 ^ 7 - 1)). rewrite land_low by lia. change (2 ^ 7) with 128.
  unfold bind at 1. rewrite when_raise. cbn. f_equal.
  assert (0 <= rnd mode s z 128) by (apply rnd_ge; lia).
  rewrite pack_word; [done | | |]; destruct (Z.eqb_spec (rnd mode s z 128) 0); lia.
Qed.

(** The increment carries out of the top bit exactly when rounding does. *)
Lemma increment_carries mode s z k :
  mode_ok mode -> 0 <= z -> 0 <= k -> (z + round_increment mode s <? 256 * k) = (rnd mode s z 128 <? 2 * k).
Proof.
  intros Hm Hz Hk. rewrite <- increment_rounds by done.
  set (i := round_increment mode s). set (b := _ && _).
  assert (0 <= i) by (unfold i, round_increment; repeat case_match; lia).
  rewrite Z.shiftr_div_pow2 by lia. change (2 ^ 7) with 128. set (y := (z + i) / 128).
  assert (Ey : (z + i <? 256 * k) = (y <? 2 * k)).
  { apply eq_bool_prop_intro. rewrite !Is_true_true, !Z.ltb_lt. unfold y. split; intros.
    - apply Z.div_lt_upper_bound; lia.
    - destruct (Z.lt_ge_cases (z + i) (256 * k)); [done|].
      assert (2 * k <= (z + i) / 128) by (apply Z.div_le_lower_bound; lia). lia. }
  rewrite Ey. destruct b; cbn [b2z]; [|by rewrite Z.land_m1_r].
  change (Z.lnot 1) with (Z.lnot (Z.ones 1)). rewrite <- Z.ldiff_land, Z.ldiff_ones_r by lia.
  rewrite Z.shiftr_div_pow2, Z.shiftl_mul_pow2 by lia. change (2 ^ 1) with 2.
  pose proof (Z.div_mod y 2 ltac:(lia)). pose proof (Z.mod_pos_bound y 2 ltac:(lia)).
  apply eq_bool_prop_intro. rewrite !Is_true_true, !Z.ltb_lt. lia.
Qed.

Lemma overflow_word mode s :
  mode_ok mode ->
  u32 (packFloat32 s 0xFF 0 - b2z (round_increment mode s =? 0)) =
  signed s (inf_word - b2z (negb (to_infinity mode s))).
Proof.
  intros Hm. assert (mode = 0 \/ mode = 1 \/ mode = 2 \/ mode = 3) as [->|[->|[->| ->]]]
    by (unfold mode_ok in Hm; lia); destruct s; reflexivity.
Qed.
(** The quotient [n / d] between two powers of 2 fixes the last bit. *)
Lemma last_bit_normal n d e :
  0 < d -> 0 <= e -> 2 ^ (23 + e) * d <= n < 2 ^ (24 + e) * d -> last_bit n d = e.
Proof.
  intros Hd He [Hl Hh]. unfold last_bit. rewrite (Z.log2_unique (n / d) (23 + e)); [lia|lia|].
  split; [apply Z.div_le_lower_bound; lia|]. apply Z.div_lt_upper_bound; [lia|].
  replace (Z.succ (23 + e)) with (24 + e) by lia. lia.
Qed.
Lemma last_bit_low n d : 0 < d -> 0 <= n < 2 ^ 24 * d -> last_bit n d = 0.
Proof.
  intros Hd Hn. unfold last_bit. pose proof (Z.div_pos n d). assert (n / d < 2 ^ 24) by (apply Z.div_lt_upper_bound; lia).
  destruct (Z.eq_dec (n / d) 0) as [->|]; [reflexivity|].
  assert (Z.log2 (n / d) < 24) by (apply Z.log2_lt_pow2; lia). lia.
Qed.
Lemma last_bit_high n d e : 0 < d -> 0 <= e -> 2 ^ (23 + e) * d <= n -> e <= last_bit n d.
Proof.
  intros Hd He Hn. unfold last_bit.
  assert (2 ^ (23 + e) <= n / d) by (apply Z.div_le_lower_bound; lia).
  pose proof (Z.log2_le_mono _ _ H). rewrite Z.log2_pow2 in H0 by lia. lia.
Qed.
(** The significand never loses its leading bit. *)
Lemma magnitude_high mode s n d e :
  0 < d -> 0 <= e -> 2 ^ (23 + e) * d <= n -> (e + 1) * 2 ^ 23 <= magnitude mode s n d.
Proof.
  intros Hd He Hn. pose proof (last_bit_high n d e Hd He Hn). unfold magnitude.
  set (k := last_bit n d) in *. assert (0 < 2 ^ k) by (apply Z.pow_pos_nonneg; lia).
  destruct (Z.eq_dec k e) as [->|].
  - assert (2 ^ 23 <= rnd mode s n (d * 2 ^ e)); [|lia].
    apply rnd_ge; [nia|]. rewrite Z.pow_add_r in Hn by lia. lia.
  - assert (0 <= rnd mode s n (d * 2 ^ k)) by (apply rnd_ge; nia). nia.
Qed.

(** A significand [z] of 31 bits at the exponent [zExp] that stands for
    the exact value [n / d = (N / D) * 2 ^ (zExp - 7)]. *)
Definition stands_for (z N D zExp n d : Z) : Prop :=
  0 < D /\ 2 ^ 30 * D <= N < 2 ^ 31 * D /\ 0 < d /\ -400 <= zExp <= 1000 /\
  n * D * 2 ^ 407 = N * d * 2 ^ (zExp + 400) /\ 2 ^ 30 <= z < 2 ^ 31 /\ sticky z N D.

Lemma stands_jam z N D k zExp n d :
  z = 2 ^ k * jam N D -> 0 <= k <= 5 -> 0 <= N -> 0 < D -> 0 < d -> 2 ^ 30 <= z < 2 ^ 31 -> -400 <= zExp <= 1000 ->
  n * D * 2 ^ 407 = 2 ^ k * N * d * 2 ^ (zExp + 400) -> stands_for z (2 ^ k * N) D zExp n d.
Proof.
  intros -> Hk HN HD Hd Hz He E. assert (0 < 2 ^ k) by lia.
  assert (E30 : 2 ^ 30 = 2 ^ k * (2 * 2 ^ (29 - k))) by (rewrite <- Z.pow_succ_r, <- Z.pow_add_r by lia; f_equal; lia).
  change (2 ^ 31) with (2 * 2 ^ 30) in *. rewrite E30 in *.
  pose proof (jam_lower N D (2 ^ (29 - k)) ltac:(lia) ltac:(lia) ltac:(nia)).
  pose proof (jam_upper N D (4 * 2 ^ (29 - k)) ltac:(lia) ltac:(nia)).
  split; [done|]. split; [nia|]. split; [done|]. split; [done|]. split; [done|].
  split; [lia|]. by apply sticky_jam.
Qed.
Lemma stands_exact z zExp n d :
  0 < d -> 2 ^ 30 <= z < 2 ^ 31 -> -400 <= zExp <= 1000 ->
  n * 2 ^ 407 = z * d * 2 ^ (zExp + 400) -> stands_for z z 1 zExp n d.
Proof.
  intros Hd Hz He E. split; [lia|]. split; [lia|]. split; [done|]. split; [done|]. split; [lia|].
  split; [done|]. apply sticky_exact. lia.
Qed.

Lemma stands_scaled z N D zExp n d k :
  stands_for z N D zExp n d -> 0 <= k -> 0 <= zExp + k -> n * D * 2 ^ (7 + k) = N * d * 2 ^ (zExp + k).
Proof.
  intros (? & ? & ? & ? & E & _) Hk He.
  assert (E2 : n * D * 2 ^ (7 + k) * 2 ^ 400 = N * d * 2 ^ (zExp + k) * 2 ^ 400).
  { rewrite <- !Z.mul_assoc, <- !Z.pow_add_r by lia.
    replace (7 + k + 400) with (407 + k) by lia. replace (zExp + k + 400) with (zExp + 400 + k) by lia.
    rewrite !Z.pow_add_r by lia. rewrite !Z.mul_assoc. congruence. }
  apply Z.mul_reg_r with (2 ^ 400); [lia|exact E2].
Qed.

Section RoundAndPack.
Context (s : bool) (z N D zExp n d : Z) (σ : Sim).
Let mode := σ Float_rounding_mode.
Hypothesis Hm : mode_ok mode.
Hypothesis Hv : stands_for z N D zExp n d.

Lemma stands_bits : 2 ^ 30 <= z < 2 ^ 31.
Proof. apply Hv. Qed.
Lemma stands_sticky k :
  0 <= k -> rnd mode s z (2 ^ k * 128) = rnd mode s N (D * (2 ^ k * 128)) /\
  nz (z mod (2 ^ k * 128)) = nz (N mod (D * (2 ^ k * 128))).
Proof.
  intros. destruct Hv as (_ & _ & _ & _ & _ & _ & Hs). change 128 with (2 ^ 7). rewrite <- Z.pow_add_r by lia.
  destruct (Hs (k + 7) ltac:(lia)) as [E1 E2]. by split.
Qed.

Lemma stands_rnd k :
  0 <= zExp + k -> 0 <= k -> rnd mode s n (d * 2 ^ (zExp + k)) = rnd mode s N (D * 2 ^ (7 + k)) /\
  nz (n mod (d * 2 ^ (zExp + k))) = nz (N mod (D * 2 ^ (7 + k))).
Proof.
  intros ? ?. pose proof (stands_scaled _ _ _ _ _ _ k Hv) as E. destruct Hv as (? & ? & ? & ? & _).
  assert (0 < 2 ^ (zExp + k)) by (apply Z.pow_pos_nonneg; lia).
  assert (0 < 2 ^ (7 + k)) by (apply Z.pow_pos_nonneg; lia).
  split; [apply rnd_ext | apply exact_ext]; nia.
Qed.

Lemma stands_low j : 0 <= j -> zExp <= j -> n < 2 ^ (24 + j) * d.
Proof.
  intros. pose proof (stands_scaled _ _ _ _ _ _ (Z.max 0 (- zExp)) Hv ltac:(lia) ltac:(lia)) as E.
  destruct Hv as (? & HN & ? & ? & _). set (k := Z.max 0 (- zExp)) in *.
  assert (0 < 2 ^ (zExp + k)) by (apply Z.pow_pos_nonneg; lia).
  assert (2 ^ (24 + j) * 2 ^ (7 + k) = 2 ^ 31 * 2 ^ (j + k)) as Ep by (rewrite <- !Z.pow_add_r by lia; f_equal; lia).
  assert (2 ^ (zExp + k) <= 2 ^ (j + k)) by (apply Z.pow_le_mono_r; lia).
  assert (0 < 2 ^ (7 + k)) by (apply Z.pow_pos_nonneg; lia).
  apply Z.mul_lt_mono_pos_r with (D * 2 ^ (7 + k)); [lia|].
  apply Z.le_lt_trans with (N * d * 2 ^ (j + k)).
  { rewrite Z.mul_assoc, E. apply Z.mul_le_mono_nonneg_l; nia. }
  replace (2 ^ (24 + j) * d * (D * 2 ^ (7 + k))) with (2 ^ (24 + j) * 2 ^ (7 + k) * D * d) by lia.
  rewrite Ep. assert (0 < 2 ^ (j + k)) by lia. nia.
Qed.
Lemma stands_high : 0 <= zExp -> 2 ^ (23 + zExp) * d <= n.
Proof.
  intros. pose proof (stands_scaled _ _ _ _ _ _ 0 Hv ltac:(lia) ltac:(lia)) as E.
  destruct Hv as (? & HN & ? & ? & _). rewrite !Z.add_0_r in E. rewrite Z.pow_add_r by lia.
  assert (0 < 2 ^ zExp) by (apply Z.pow_pos_nonneg; lia). change (2 ^ 7) with 128 in E.
  apply Z.mul_le_mono_pos_r with (D * 128); [lia|]. rewrite Z.mul_assoc, (Z.mul_assoc n), E. nia.
Qed.

Lemma round_huge : 0xFD < zExp -> inf_word <= magnitude mode s n d.
Proof.
  intros. pose proof stands_high. destruct Hv as (? & ? & ? & ? & _).
  pose proof (magnitude_high mode s n d zExp ltac:(lia) ltac:(lia) ltac:(lia)). unfold inf_word. lia.
Qed.
Lemma round_normal :
  0 <= zExp -> last_bit n d = zExp /\ magnitude mode s n d = zExp * 2 ^ 23 + rnd mode s z 128 /\
  inexact n d = nz (z mod 128) /\ tiny mode s n d = false.
Proof.
  intros He. pose proof (stands_high He). pose proof (stands_low zExp He ltac:(lia)).
  pose proof (stands_sticky 0 ltac:(lia)) as [F1 F2]. rewrite Z.pow_0_r, Z.mul_1_l in F1, F2.
  pose proof (stands_rnd 0 ltac:(lia) ltac:(lia)) as [E1 E2]. rewrite !Z.add_0_r in E1, E2.
  destruct Hv as (? & ? & ? & ? & _).
  assert (El : last_bit n d = zExp) by (apply last_bit_normal; lia).
  assert (0 < 2 ^ zExp) by (apply Z.pow_pos_nonneg; lia).
  unfold magnitude, inexact, tiny. rewrite El, E1, E2. split; [done|]. repeat split.
  - by rewrite F1.
  - by rewrite F2.
  - apply Z.ltb_ge. apply rnd_ge; [lia|]. rewrite Z.pow_add_r in H by lia. nia.
Qed.
Lemma round_subnormal :
  zExp < 0 -> last_bit n d = 0 /\ magnitude mode s n d = rnd mode s (jam z (2 ^ (- zExp))) 128 /\
  inexact n d = nz (jam z (2 ^ (- zExp)) mod 128) /\
  tiny mode s n d = (zExp <? -1) || (rnd mode s z 128 <? 2 ^ 24).
Proof.
  intros He. pose proof (stands_rnd (- zExp) ltac:(lia) ltac:(lia)) as [E1 E2]. pose proof stands_bits.
  pose proof (stands_sticky (- zExp) ltac:(lia)) as [G1 G2]. pose proof (stands_sticky 0 ltac:(lia)) as [F1 _].
  pose proof (stands_low 0 ltac:(lia) ltac:(lia)). pose proof (stands_scaled _ _ _ _ _ _ (- zExp) Hv ltac:(lia) ltac:(lia)) as E.
  rewrite Z.add_opp_diag_r, Z.pow_0_r, !Z.mul_1_r in *.
  destruct Hv as (? & ? & ? & ? & _).
  assert (0 < 2 ^ (7 + - zExp)) by (apply Z.pow_pos_nonneg; lia).
  assert (0 < 2 ^ (- zExp - 1)) by (apply Z.pow_pos_nonneg; lia).
  assert (Ep : 2 ^ (- zExp) = 2 * 2 ^ (- zExp - 1)) by (rewrite <- Z.pow_succ_r by lia; f_equal; lia).
  assert (El : last_bit n d = 0) by (apply last_bit_low; nia).
  assert (E7 : D * 2 ^ (7 + - zExp) = D * (2 ^ (- zExp) * 128)) by (rewrite Z.pow_add_r by lia; lia).
  unfold magnitude, inexact. rewrite El, Z.pow_0_r, Z.mul_1_r, E1, E2, E7.
  rewrite rnd_jam7, jam_exact7, G1, G2 by lia.
  split; [done|]. split; [done|]. split; [done|].
  unfold tiny. destruct (Z.ltb_spec zExp (-1)).
  - cbn [orb]. apply Z.ltb_lt.
    assert (4 <= 2 ^ (- zExp)) by (change 4 with (2 ^ 2); apply Z.pow_le_mono_r; lia).
    assert (rnd mode s (2 * n) d <= 2 ^ 23); [|lia]. apply rnd_le; [lia|].
    rewrite Z.pow_add_r in E by lia. change (2 ^ 7) with 128 in E.
    apply Z.mul_le_mono_pos_r with (D * 128 * 4); nia.
  - assert (zExp = -1) as -> by lia. cbn [orb]. f_equal.
    change (1 * 128) with 128 in F1. rewrite F1.
    apply rnd_ext; [lia..|]. change (2 ^ (7 + - -1)) with 256 in E. lia.
Qed.

Lemma carries_significand :
  (z + round_increment mode s <? 2 ^ 31) = (rnd mode s z 128 <? 2 ^ 24) /\
  2 ^ 23 <= rnd mode s z 128 <= 2 ^ 24 /\ 0 <= round_increment mode s <= 127.
Proof.
  pose proof stands_bits. split; [|split].
  - apply (increment_carries mode s z (2 ^ 23)); [exact Hm | lia..].
  - split; [apply rnd_ge | apply rnd_le]; lia.
  - unfold round_increment. repeat case_match; lia.
Qed.

(** The test for overflow. *)
Lemma overflow_test :
  (0xFD <? zExp) || ((zExp =? 0xFD) && (s32 (u32 (z + round_increment mode s)) <? 0)) =
  (inf_word <=? magnitude mode s n d).
Proof.
  pose proof stands_bits. destruct carries_significand as (Hc & Hr & ?). destruct Hv as (HD & HN & ? & He & _).
  rewrite u32_small, s32_of_u32 by lia.
  replace ((if _ <? 2 ^ 31 then _ else _) <? 0) with (negb (rnd mode s z 128 <? 2 ^ 24))
    by (rewrite <- Hc; destruct (Z.ltb_spec (z + round_increment mode s) (2 ^ 31)); cbn; symmetry;
        [apply Z.ltb_ge | apply Z.ltb_lt]; lia).
  symmetry. destruct (Z.ltb_spec 0xFD zExp) as [Hh|Hh]; cbn [orb]; [by apply Z.leb_le, round_huge|].
  destruct (Z.lt_ge_cases zExp 0) as [Hn|Hn].
  - destruct (round_subnormal Hn) as (_ & -> & _). rewrite (proj2 (Z.eqb_neq zExp 253)) by lia.
    cbn [andb]. apply Z.leb_gt.
    assert (rnd mode s (jam z (2 ^ (- zExp))) 128 <= 2 ^ 24); [|unfold inf_word; lia].
    assert (2 <= 2 ^ (- zExp)) by (change 2 with (2 ^ 1) at 1; apply Z.pow_le_mono_r; lia).
    rewrite rnd_jam7 by lia. apply rnd_le; lia.
  - destruct (round_normal Hn) as (_ & -> & _). unfold inf_word.
    apply eq_bool_prop_intro. rewrite !Is_true_true, andb_true_iff, negb_true_iff, Z.eqb_eq, Z.ltb_ge, Z.leb_le. lia.
Qed.

Lemma round_in_range y e σ' :
  (inf_word <=? magnitude mode s n d) = false -> 0 <= e -> 0 <= y < 2 ^ 32 - 127 ->
  magnitude mode s n d = e * 2 ^ 23 + rnd mode s y 128 -> inexact n d = nz (y mod 128) ->
  (rnd mode s y 128 = 0 -> e = 0) ->
  pack_rounded s mode e y σ' = Ok (round32 mode s n d) (raise_flags (if inexact n d then [float_flag_inexact] else []) σ').
Proof.
  intros Ho He Hz Em Ei H0. unfold round32. rewrite Ho, Em, Ei.
  apply Z.leb_gt in Ho. unfold inf_word in Ho. rewrite pack_rounded_ok by (done || lia).
  destruct (Z.eqb_spec (rnd mode s y 128) 0); [by rewrite H0 | done].
Qed.

(** The rounding function computes the correctly rounded result and raises its
    exceptions. *)
Lemma roundAndPack_rounds :
  roundAndPackFloat32 s zExp z σ = Ok (round32 mode s n d) (raise_flags (round32_raises mode s n d) σ).
Proof.
  pose proof stands_bits. destruct carries_significand as (Hc & Hr & ?).
  unfold roundAndPackFloat32. unfold bind at 1, rd at 1. fold mode. cbv beta iota.
  rewrite overflow_test. unfold round32_raises.
  destruct (inf_word <=? magnitude mode s n d) eqn:Eo.
  { assert ((0xFD <=? u16 zExp) = true) as ->.
    { rewrite <- overflow_test in Eo. destruct Hv as (_ & _ & _ & ? & _). apply Z.leb_le.
      rewrite wrap_small; [|apply inty_U16]; destruct (Z.ltb_spec 253 zExp), (Z.eqb_spec zExp 253); cbn in Eo; (lia || done). }
    cbn. unfold round32. rewrite Eo, overflow_word; done. }
  destruct (Z.lt_ge_cases zExp 0) as [Hn|Hn].
  - assert ((0xFD <=? u16 zExp) = true) as ->.
    { destruct Hv as (_ & _ & _ & ? & _). apply Z.leb_le. change (u16 zExp) with (zExp mod 2 ^ 16).
      rewrite <- (Z.mod_unique zExp (2 ^ 16) (-1) (zExp + 2 ^ 16)) by lia. lia. }
    change 0x80000000 with (2 ^ 31). rewrite (proj2 (Z.ltb_lt zExp 0)), (u32_small (_ + _)), Hc by lia.
    destruct (round_subnormal Hn) as (_ & Em & Ei & Et). unfold bind at 1. rewrite shift32_jams by lia.
    set (y := jam z (2 ^ (- zExp))) in *.
    assert (0 <= y < 2 ^ 31).
    { apply (jam_bounds _ _ 0 (2 ^ 30)); [lia|]. assert (0 < 2 ^ (- zExp)) by lia. nia. }
    change 0x7F with (2 ^ 7 - 1). rewrite land_low by lia. change (2 ^ 7) with 128.
    unfold bind at 1. unfold float_raise. rewrite when_raise. cbn [orb]. change (float_detect_tininess =? _) with false.
    cbn [orb]. rewrite <- Et, <- Ei.
    rewrite (round_in_range y 0 _ Eo) by (done || lia || by rewrite Em; lia).
    f_equal. rewrite <- raise_flags_app. by destruct (inexact n d), (tiny mode s n d).
  - destruct (round_normal Hn) as (_ & Em & Ei & Et).
    rewrite (proj2 (Z.ltb_ge zExp 0)) by lia.
    destruct (0xFD <=? u16 zExp); rewrite (round_in_range _ _ _ Eo Hn) by (done || lia); rewrite Et;
      by destruct (inexact n d).
Qed.
End RoundAndPack.

(** ** Normalization *)

Lemma high_zeros i : 0 < i < 256 -> nth (Z.to_nat i) countLeadingZerosHigh 0 = 7 - Z.log2 i.
Proof.
  intros Hi. assert (H : forallb (fun k => nth k countLeadingZerosHigh 0 =? 7 - Z.log2 (Z.of_nat k)) (seq 1 255) = true)
    by reflexivity.
  rewrite forallb_forall in H. specialize (H (Z.to_nat i)). rewrite Z2Nat.id, Z.eqb_eq in H by lia.
  apply H, in_seq. lia.
Qed.

Lemma log2_shl a k : 0 < a -> 0 <= k -> Z.log2 (Z.shiftl a k) = Z.log2 a + k.
Proof. intros. by apply Z.log2_shiftl. Qed.
Lemma clz32 a : 0 < a < 2 ^ 32 -> countLeadingZeros32 a = 31 - Z.log2 a.
Proof.
  intros Ha. unfold countLeadingZeros32.
  assert (Hlast : forall b k, 2 ^ 24 <= b < 2 ^ 32 ->
    k + nth (Z.to_nat (Z.shiftr b 24)) countLeadingZerosHigh 0 = k + 31 - Z.log2 b).
  { intros b k Hb. assert (1 <= b / 2 ^ 24) by (apply Z.div_le_lower_bound; lia).
    assert (b / 2 ^ 24 < 256) by (apply Z.div_lt_upper_bound; lia).
    rewrite high_zeros by (rewrite Z.shiftr_div_pow2; lia).
    rewrite Z.log2_shiftr by lia. assert (24 <= Z.log2 b) by (apply Z.log2_le_pow2; lia). lia. }
  assert (Hmid : forall b k, 2 ^ 16 <= b < 2 ^ 32 ->
    (let '(k, b) := if b <? 0x1000000 then (k + 8, u32 (Z.shiftl b 8)) else (k, b) in
     k + nth (Z.to_nat (Z.shiftr b 24)) countLeadingZerosHigh 0) = k + 31 - Z.log2 b).
  { intros b k Hb. destruct (Z.ltb_spec b 0x1000000); [|apply Hlast; lia].
    rewrite (u32_small (Z.shiftl b 8)) by (rewrite Z.shiftl_mul_pow2; lia).
    rewrite Hlast, log2_shl by (rewrite ?Z.shiftl_mul_pow2; lia). lia. }
  destruct (Z.ltb_spec a 0x10000); [|rewrite Hmid by lia; lia].
  rewrite (u32_small (Z.shiftl a 16)) by (rewrite Z.shiftl_mul_pow2; lia).
  rewrite Hmid, log2_shl by (rewrite ?Z.shiftl_mul_pow2; lia). lia.
Qed.

(** Shifting the leading bit to bit 30. *)
Lemma normalize_rounds s z N D zExp n d (σ : Sim) k :
  mode_ok (σ Float_rounding_mode) -> 0 < z -> k = 30 - Z.log2 z -> 0 <= k ->
  stands_for (2 ^ k * z) N D (zExp - k) n d ->
  normalizeRoundAndPackFloat32 s zExp z σ =
  Ok (round32 (σ Float_rounding_mode) s n d) (raise_flags (round32_raises (σ Float_rounding_mode) s n d) σ).
Proof.
  intros Hm Hz Hk Hk0 Hv. unfold normalizeRoundAndPackFloat32.
  pose proof (Z.log2_nonneg z). assert (Z.log2 z <= 30) by lia.
  assert (z < 2 ^ 31).
  { apply Z.log2_lt_cancel. rewrite Z.log2_pow2 by lia. lia. }
  rewrite clz32 by lia. replace (31 - Z.log2 z - 1) with k by lia.
  unfold shl_bits. rewrite (proj2 (Z.leb_le 0 k)) by lia.
  rewrite (proj2 (Z.ltb_lt k (width U32))) by (cbn; lia). unfold bind at 1, ret at 1.
  rewrite Z.shiftl_mul_pow2, (Z.mul_comm z) by lia.
  assert (2 ^ k * z < 2 ^ 32) by (pose proof (stands_bits _ _ _ _ _ _ Hv); lia).
  rewrite u32_small by nia. eapply roundAndPack_rounds; [done | exact Hv].
Qed.
Lemma normalize_zero s zExp (σ : Sim) :
  mode_ok (σ Float_rounding_mode) -> -400 <= zExp <= 0xFF ->
  normalizeRoundAndPackFloat32 s zExp 0 σ = Ok (signed s 0) σ.
Proof.
  intros Hm He. unfold normalizeRoundAndPackFloat32. change (countLeadingZeros32 0 - 1) with 31.
  change (shl_bits U32 0 31) with (ret (A := Z) 0). unfold bind at 1, ret at 1.
  unfold roundAndPackFloat32. unfold bind at 1, rd at 1. set (mode := σ Float_rounding_mode) in *.
  assert (0 <= round_increment mode s <= 127) by (unfold round_increment; repeat case_match; lia).
  assert (H0 : forall e, 0 <= e <= 0xFD -> pack_rounded s mode e 0 σ = Ok (signed s 0) σ).
  { intros e He'. assert (E0 : rnd mode s 0 128 = 0) by apply (rnd_multiple mode s 0 128 ltac:(lia)).
    rewrite pack_rounded_ok by (rewrite ?E0; done || lia). rewrite E0. reflexivity. }
  rewrite (proj2 (Z.ltb_ge 0xFD (zExp - 31))), (proj2 (Z.eqb_neq (zExp - 31) 0xFD)) by lia. cbn [orb andb].
  destruct (Z.ltb_spec (zExp - 31) 0).
  - assert ((0xFD <=? u16 (zExp - 31)) = true) as ->.
    { apply Z.leb_le. change (u16 (zExp - 31)) with ((zExp - 31) mod 2 ^ 16).
      rewrite <- (Z.mod_unique (zExp - 31) (2 ^ 16) (-1) (zExp - 31 + 2 ^ 16)) by lia. lia. }
    unfold bind at 1. rewrite shift32_jams by lia.
    replace (jam 0 (2 ^ (- (zExp - 31)))) with 0 by (unfold jam; by rewrite Z.div_0_l, Z.mod_0_l by lia).
    rewrite andb_false_r. cbn [when]. apply H0; lia.
  - destruct (0xFD <=? _); apply H0; lia.
Qed.

End FloatRound.
