(* ===== verification/FloatArith.v ===== *)
(** * The arithmetic of single-precision numbers

    The reference operations of IEEE 754 on encodings, NaNs, infinities, signed
    zeros and exceptions included, and that the functions of the library compute
    them.  The value of a finite number is an integer, in units of [2 ^ -149]. *)

From S2P Require Export FloatRound.

Module FloatArith.
Import Insnset Float32 FloatRound.

(** ** Encodings *)

Definition fword (a : Z) : Prop := 0 <= a < 2 ^ 32.

Definition is_nan (a : Z) : bool := (extractFloat32Exp a =? 255) && nz (extractFloat32Frac a).
Definition is_inf (a : Z) : bool := (extractFloat32Exp a =? 255) && (extractFloat32Frac a =? 0).
(** The magnitude of a finite number. *)
Definition units (a : Z) : Z :=
  if extractFloat32Exp a =? 0 then extractFloat32Frac a
  else (2 ^ 23 + extractFloat32Frac a) * 2 ^ (extractFloat32Exp a - 1).
Definition fval (a : Z) : Z := if extractFloat32Sign a then - units a else units a.
Definition is_zero (a : Z) : bool := negb (is_nan a) && negb (is_inf a) && (units a =? 0).
Definition finite (a : Z) : bool := negb (extractFloat32Exp a =? 255).

Lemma frac_mod a : extractFloat32Frac a = a mod 2 ^ 23.
Proof. unfold extractFloat32Frac. change 0x007FFFFF with (2 ^ 23 - 1). by apply land_low. Qed.
Lemma exp_mod a : extractFloat32Exp a = a / 2 ^ 23 mod 2 ^ 8.
Proof.
  unfold extractFloat32Exp. change 0xFF with (2 ^ 8 - 1). by rewrite land_low, Z.shiftr_div_pow2 by lia.
Qed.
Lemma frac_bounds a : 0 <= extractFloat32Frac a < 2 ^ 23.
Proof. rewrite frac_mod. apply Z.mod_pos_bound. lia. Qed.
Lemma exp_bounds a : 0 <= extractFloat32Exp a <= 255.
Proof. rewrite exp_mod. pose proof (Z.mod_pos_bound (a / 2 ^ 23) (2 ^ 8)). lia. Qed.
Lemma sign_ltb a : fword a -> extractFloat32Sign a = (2 ^ 31 <=? a).
Proof.
  intros [? ?]. unfold extractFloat32Sign, nz. rewrite Z.shiftr_div_pow2 by lia.
  destruct (Z.leb_spec (2 ^ 31) a).
  - assert (1 <= a / 2 ^ 31) by (apply Z.div_le_lower_bound; lia).
    by rewrite (proj2 (Z.eqb_neq _ 0)) by lia.
  - by rewrite Z.div_small by lia.
Qed.

(** An encoding is its three fields. *)
Lemma word_fields a :
  fword a -> a = signed (extractFloat32Sign a) (extractFloat32Exp a * 2 ^ 23 + extractFloat32Frac a).
Proof.
  intros Ha. rewrite sign_ltb, exp_mod, frac_mod by done. unfold fword, signed in *.
  pose proof (Z.div_mod a (2 ^ 23) ltac:(lia)). pose proof (Z.mod_pos_bound a (2 ^ 23) ltac:(lia)).
  set (q := a / 2 ^ 23) in *. assert (0 <= q < 512) by lia.
  destruct (Z.leb_spec (2 ^ 31) a); cbn [b2z].
  - rewrite <- (Z.mod_unique q (2 ^ 8) 1 (q - 256)) by lia. lia.
  - rewrite Z.mod_small by lia. lia.
Qed.
Lemma fields_word s e f :
  0 <= e <= 255 -> 0 <= f < 2 ^ 23 -> let a := signed s (e * 2 ^ 23 + f) in
  fword a /\ extractFloat32Sign a = s /\ extractFloat32Exp a = e /\ extractFloat32Frac a = f.
Proof.
  intros He Hf a. assert (Ha : fword a) by (unfold a, fword, signed; destruct s; cbn [b2z]; lia).
  rewrite sign_ltb, exp_mod, frac_mod by done. split; [done|].
  assert (Ed : a / 2 ^ 23 = b2z s * 256 + e /\ a mod 2 ^ 23 = f).
  { unfold a, signed. split; symmetry; [apply Z.div_unique with f | apply Z.mod_unique with (b2z s * 256 + e)]; lia. }
  destruct Ed as [-> ->]. unfold a, signed. split; [|split; [|done]].
  - destruct s; cbn [b2z]; [apply Z.leb_le | apply Z.leb_gt]; lia.
  - symmetry. apply Z.mod_unique with (b2z s); lia.
Qed.

Lemma units_nonneg a : 0 <= units a.
Proof.
  unfold units. pose proof (frac_bounds a). pose proof (exp_bounds a).
  destruct (Z.eqb_spec (extractFloat32Exp a) 0); [lia|].
  assert (0 < 2 ^ (extractFloat32Exp a - 1)) by lia. nia.
Qed.
Lemma units_bound a : extractFloat32Exp a <> 255 -> units a < 2 ^ 277.
Proof.
  intros. unfold units. pose proof (frac_bounds a). pose proof (exp_bounds a).
  destruct (Z.eqb_spec (extractFloat32Exp a) 0); [lia|].
  assert (2 ^ (extractFloat32Exp a - 1) <= 2 ^ 253) by (apply Z.pow_le_mono_r; lia).
  assert (0 < 2 ^ (extractFloat32Exp a - 1)) by lia. change (2 ^ 277) with (2 ^ 24 * 2 ^ 253). nia.
Qed.

(** ** NaNs *)

(** The NaN an operation with a NaN returns: the first operand made quiet when
    it is one, unless it is signaling and the second is a NaN too. *)
Definition quiet (a : Z) : Z := Z.lor a 0x00400000.
Definition nan_result (a b : Z) : Z * list Z :=
  (if is_nan a && negb (float32_is_signaling_nan a && is_nan b) then quiet a else quiet b,
   if float32_is_signaling_nan a || float32_is_signaling_nan b then [float_flag_invalid] else []).
Definition invalid_result : Z * list Z := (float32_default_nan, [float_flag_invalid]).

Lemma is_nan_spec a : fword a -> float32_is_nan a = is_nan a.
Proof.
  intros Ha. pose proof (word_fields a Ha) as E. pose proof (frac_bounds a). pose proof (exp_bounds a).
  unfold float32_is_nan, is_nan. set (e := extractFloat32Exp a) in *. set (f := extractFloat32Frac a) in *.
  assert (E1 : u32 (Z.shiftl a 1) = 2 * (e * 2 ^ 23 + f)).
  { rewrite E at 1. rewrite Z.shiftl_mul_pow2, u32_eq by lia. symmetry.
    apply Z.mod_unique with (b2z (extractFloat32Sign a)); unfold signed; lia. }
  rewrite E1. apply eq_bool_prop_intro. rewrite !Is_true_true, andb_true_iff, nz_spec, Z.eqb_eq, Z.ltb_lt. lia.
Qed.

(** What a run computes: a result and the exceptions raised. *)
Definition computes {A} (m : M A) (σ : Sim) (r : A * list Z) : Prop := m σ = Ok (fst r) (raise_flags (snd r) σ).

Lemma propagate_computes a b σ :
  fword a -> fword b -> is_nan a || is_nan b = true -> computes (propagateFloat32NaN a b) σ (nan_result a b).
Proof.
  intros Ha Hb Hn. unfold computes, propagateFloat32NaN, nan_result. rewrite !is_nan_spec by done.
  unfold bind at 1, float_raise. rewrite when_raise. unfold quiet; cbn.
  destruct (is_nan a), (is_nan b), (float32_is_signaling_nan a); done.
Qed.
Lemma invalid_computes σ : computes invalid σ invalid_result.
Proof. reflexivity. Qed.
Lemma ret_computes {A} (v : A) σ : computes (ret v) σ (v, []).
Proof. reflexivity. Qed.

Lemma computes_bind {A B} (m : M A) (k : A -> M B) v σ r : m σ = Ok v σ -> computes (k v) σ r -> computes (bind m k) σ r.
Proof. unfold computes, bind. by intros ->. Qed.

(** ** The reference operations *)

(** The encoding of a product's sign, and a rounded exact value. *)
Definition rounded (mode : Z) (s : bool) (n d : Z) : Z * list Z := (round32 mode s n d, round32_raises mode s n d).
Definition infinity (s : bool) : Z * list Z := (signed s inf_word, []).
Definition zero (s : bool) : Z * list Z := (signed s 0, []).

Definition ieee_mul (mode a b : Z) : Z * list Z :=
  let s := xorb (extractFloat32Sign a) (extractFloat32Sign b) in
  if is_nan a || is_nan b then nan_result a b
  else if is_inf a || is_inf b then if is_zero a || is_zero b then invalid_result else infinity s
  else rounded mode s (units a * units b) (2 ^ 149).

Definition ieee_div (mode a b : Z) : Z * list Z :=
  let s := xorb (extractFloat32Sign a) (extractFloat32Sign b) in
  if is_nan a || is_nan b then nan_result a b
  else if is_inf a then if is_inf b then invalid_result else infinity s
  else if is_inf b then zero s
  else if is_zero b then
    if is_zero a then invalid_result else (fst (infinity s), [float_flag_divbyzero])
  else rounded mode s (units a * 2 ^ 149) (units b).

(** An exact value of at most 31 bits is normalized and rounded. *)
Lemma normalize_exact s z e n (σ : Sim) :
  mode_ok (σ Float_rounding_mode) -> 0 < z < 2 ^ 31 -> -22 <= e <= 254 -> n * 2 ^ 29 = z * 2 ^ (e + 22) ->
  computes (normalizeRoundAndPackFloat32 s e z) σ (rounded (σ Float_rounding_mode) s n 1).
Proof.
  intros Hm Hz He En. pose proof (Z.log2_spec z ltac:(lia)) as Hl.
  rewrite Z.pow_succ_r in Hl by (pose proof (Z.log2_nonneg z); lia).
  assert (Z.log2 z < 31) by (apply Z.log2_lt_pow2; lia). pose proof (Z.log2_nonneg z).
  set (k := 30 - Z.log2 z). assert (0 < 2 ^ k) by lia.
  assert (E30 : 2 ^ k * 2 ^ Z.log2 z = 2 ^ 30) by (rewrite <- Z.pow_add_r by lia; f_equal; lia).
  apply (normalize_rounds _ z (2 ^ k * z) 1 _ _ _ _ k); [done | lia | done | lia | apply stands_exact; [lia | nia | lia|]].
  assert (Ek : 2 ^ k * 2 ^ (e - k + 400) = 2 ^ (e + 22) * 2 ^ 378) by (rewrite <- !Z.pow_add_r by lia; f_equal; lia).
  replace (2 ^ k * z * 1 * 2 ^ (e - k + 400)) with (2 ^ k * 2 ^ (e - k + 400) * z) by lia. rewrite Ek.
  replace (2 ^ (e + 22) * 2 ^ 378 * z) with (z * 2 ^ (e + 22) * 2 ^ 378) by lia. rewrite <- En. lia.
Qed.

(** ** Normalized operands *)

(** The exponent and the significand of 24 bits of a finite number. *)
Definition normal_form (a e m : Z) : Prop :=
  -22 <= e <= 254 /\ 2 ^ 23 <= m < 2 ^ 24 /\ units a * 2 ^ 23 = m * 2 ^ (e + 22).

Lemma lor_bit23 m : 2 ^ 23 <= m < 2 ^ 24 -> Z.lor m 0x00800000 = m.
Proof.
  intros. change 0x00800000 with (2 ^ 23). apply lor_bit_set; [lia|].
  rewrite Z.testbit_true by lia. by rewrite <- (Z.div_unique m (2 ^ 23) 1 (m - 2 ^ 23)) by lia.
Qed.
Lemma lor_high n f : 0 <= n -> 0 <= f < 2 ^ n -> Z.lor f (2 ^ n) = 2 ^ n + f.
Proof. intros. rewrite Z.lor_comm, <- (Z.mul_1_l (2 ^ n)), lor_low by lia. lia. Qed.

Lemma normalized_ok a z k σ :
  extractFloat32Exp a <> 255 -> units a <> 0 ->
  exists e m m0, normal_form a e m /\ Z.lor m0 0x00800000 = m /\
    normalized (extractFloat32Exp a) (extractFloat32Frac a) z k σ = k e m0 σ.
Proof.
  intros He Hu. pose proof (frac_bounds a). pose proof (exp_bounds a).
  unfold normalized, normal_form, units in *. set (f := extractFloat32Frac a) in *.
  set (x := extractFloat32Exp a) in *. destruct (Z.eqb_spec x 0) as [E|E].
  - rewrite (proj2 (Z.eqb_neq f 0)) by done.
    assert (Z.log2 f < 23) by (apply Z.log2_lt_pow2; lia). pose proof (Z.log2_nonneg f).
    pose proof (Z.log2_spec f ltac:(lia)) as Hl. set (sc := 23 - Z.log2 f).
    assert (E2 : 2 ^ 23 = 2 ^ sc * 2 ^ Z.log2 f) by (rewrite <- Z.pow_add_r by lia; f_equal; lia).
    rewrite Z.pow_succ_r in Hl by lia. assert (0 < 2 ^ sc) by lia.
    assert (2 ^ 23 <= f * 2 ^ sc < 2 ^ 24) by (change (2 ^ 24) with (2 * 2 ^ 23); nia).
    exists (1 - sc), (f * 2 ^ sc), (f * 2 ^ sc). split; [|split; [by apply lor_bit23|]].
    + split; [lia|]. split; [done|]. rewrite <- Z.mul_assoc, <- Z.pow_add_r by lia. do 2 f_equal. lia.
    + unfold normalizeFloat32Subnormal, bind, shl_bits. rewrite clz32 by lia.
      replace (31 - Z.log2 f - 8) with sc by lia.
      rewrite (proj2 (Z.leb_le 0 sc)), (proj2 (Z.ltb_lt sc (width U32))) by (cbn; lia). cbn.
      rewrite Z.shiftl_mul_pow2, u32_small by lia. done.
  - exists x, (2 ^ 23 + f), f. split; [|split; [apply (lor_high 23); lia | done]].
    split; [lia|]. split; [lia|]. rewrite <- Z.mul_assoc, <- Z.pow_add_r by lia. do 2 f_equal. lia.
Qed.
Lemma normalized_zero a z k σ :
  extractFloat32Exp a <> 255 -> units a = 0 ->
  normalized (extractFloat32Exp a) (extractFloat32Frac a) z k σ = z σ.
Proof.
  intros He Hu. pose proof (frac_bounds a). pose proof (exp_bounds a).
  unfold normalized, units in *. destruct (Z.eqb_spec (extractFloat32Exp a) 0) as [E|E].
  - by rewrite Hu.
  - assert (0 < 2 ^ (extractFloat32Exp a - 1)) by lia. nia.
Qed.
Lemma normalized_computes a z k σ r :
  extractFloat32Exp a <> 255 -> (units a = 0 -> computes z σ r) ->
  (forall e m m0, normal_form a e m -> Z.lor m0 0x00800000 = m -> computes (k e m0) σ r) ->
  computes (normalized (extractFloat32Exp a) (extractFloat32Frac a) z k) σ r.
Proof.
  intros He Hz Hk. unfold computes. destruct (Z.eq_dec (units a) 0) as [E|E].
  - rewrite normalized_zero by done. by apply Hz.
  - destruct (normalized_ok a z k σ He E) as (e & m & m0 & F & L & ->). by eapply Hk.
Qed.
Lemma normal_form_pos a e m : normal_form a e m -> 0 < units a.
Proof. intros (? & ? & E). assert (0 < 2 ^ (e + 22)) by lia. nia. Qed.

Lemma round32_zero mode s d : 0 < d -> rounded mode s 0 d = zero s.
Proof.
  intros. unfold rounded, round32, round32_raises, magnitude, inexact, zero.
  assert (El : last_bit 0 d = 0) by (apply last_bit_low; lia).
  assert (Er : rnd mode s 0 (d * 1) = 0) by (apply (rnd_multiple mode s 0); lia).
  rewrite El, Z.pow_0_r, Er, Z.mod_0_l by lia. reflexivity.
Qed.

(** ** Multiplication *)

(** The significand of a product, shifted left once if its leading bit is low. *)
Lemma product_rounds s P zExp n d (σ : Sim) :
  mode_ok (σ Float_rounding_mode) -> 2 ^ 61 <= P < 2 ^ 63 -> 0 < d -> -399 <= zExp <= 1000 ->
  n * 2 ^ 32 * 2 ^ 407 = P * d * 2 ^ (zExp + 400) ->
  computes (let zSig := u32 (jam P (2 ^ 32)) in
    if 0 <=? s32 (u32 (Z.shiftl zSig 1))
    then roundAndPackFloat32 s (zExp - 1) (u32 (Z.shiftl zSig 1))
    else roundAndPackFloat32 s zExp zSig) σ (rounded (σ Float_rounding_mode) s n d).
Proof.
  intros Hm HP Hd He E.
  assert (Hj : 2 ^ 29 <= jam P (2 ^ 32) < 2 ^ 31) by (apply (jam_bounds _ _ (2 ^ 29) (2 ^ 30)); lia).
  cbv zeta. rewrite (u32_small (jam P _)), Z.shiftl_mul_pow2, (u32_small (jam P _ * _)), s32_of_u32 by lia.
  change (2 ^ 1) with 2. unfold computes, rounded. cbn [fst snd].
  destruct (Z.ltb_spec (jam P (2 ^ 32) * 2) (2 ^ 31)) as [Hk|Hk].
  - rewrite (proj2 (Z.leb_le 0 _)) by lia. eapply roundAndPack_rounds; [done|].
    eapply (stands_jam _ P (2 ^ 32) 1); try lia. change (2 ^ 1) with 2.
    replace (zExp + 400) with (zExp - 1 + 400 + 1) in E by lia. rewrite (Z.pow_add_r 2 (_ + _) 1) in E by lia. lia.
  - rewrite (proj2 (Z.leb_gt 0 _)) by lia. eapply roundAndPack_rounds; [done|].
    eapply (stands_jam _ P (2 ^ 32) 0); lia.
Qed.
Lemma zero_test a : (Z.lor (extractFloat32Exp a) (extractFloat32Frac a) =? 0) = is_zero a.
Proof.
  pose proof (frac_bounds a). pose proof (exp_bounds a). unfold is_zero, is_nan, is_inf, units.
  set (e := extractFloat32Exp a) in *. set (f := extractFloat32Frac a) in *.
  apply eq_bool_prop_intro. rewrite !Is_true_true, Z.eqb_eq, Z.lor_eq_0_iff.
  destruct (Z.eqb_spec e 255), (Z.eqb_spec e 0), (Z.eqb_spec f 0); unfold nz; rewrite ?(proj2 (Z.eqb_neq f 0)) by done;
    rewrite ?(proj2 (Z.eqb_eq f 0)) by done; cbn [andb negb]; rewrite ?Z.eqb_eq; try (split; [lia|done]); try lia.
  all: split; [lia | intros; assert (0 < 2 ^ (e - 1)) by lia; nia].
Qed.
Lemma finite_class a : extractFloat32Exp a <> 255 -> is_nan a = false /\ is_inf a = false /\ is_zero a = (units a =? 0).
Proof. intros. unfold is_zero, is_nan, is_inf. by rewrite (proj2 (Z.eqb_neq _ 255)). Qed.
Lemma special_class a :
  extractFloat32Exp a = 255 -> is_nan a = nz (extractFloat32Frac a) /\ is_inf a = negb (nz (extractFloat32Frac a)) /\ is_zero a = false.
Proof. intros E. unfold is_zero, is_nan, is_inf, nz. rewrite E. cbn. by destruct (_ =? 0). Qed.
Lemma pack_infinity s σ : computes (ret (packFloat32 s 0xFF 0)) σ (infinity s).
Proof. by destruct s. Qed.
Lemma pack_zero s σ : computes (ret (packFloat32 s 0 0)) σ (zero s).
Proof. by destruct s. Qed.

Lemma u64_mul m n : 0 <= m < 2 ^ 32 -> 0 <= n < 2 ^ 32 -> u64 (m * n) = m * n.
Proof. intros. apply wrap_small, inty_U64. nia. Qed.

(** The significands of the operands, [ma * 2 ^ 7] and [mb * 2 ^ 8]. *)
Lemma significand_shl m k : 2 ^ 23 <= m < 2 ^ 24 -> 0 <= k <= 8 -> u32 (Z.shiftl m k) = m * 2 ^ k.
Proof.
  intros. rewrite Z.shiftl_mul_pow2 by lia. apply u32_small.
  assert (2 ^ k <= 2 ^ 8) by (apply Z.pow_le_mono_r; lia). nia.
Qed.

Section Product.
Context (a b : Z) (σ : Sim).
Hypothesis (Ha : fword a) (Hb : fword b) (Hm : mode_ok (σ Float_rounding_mode)).

Theorem float32_mul_ieee : computes (float32_mul a b) σ (ieee_mul (σ Float_rounding_mode) a b).
Proof.
  unfold float32_mul, ieee_mul. rewrite !zero_test. set (s := xorb _ _).
  destruct (Z.eqb_spec (extractFloat32Exp a) 255) as [Ea|Ea].
  { destruct (special_class a Ea) as (Na & Ia & Za). rewrite Ia, <- Na, Za.
    change ((extractFloat32Exp b =? 255) && nz (extractFloat32Frac b)) with (is_nan b).
    destruct (is_nan a || is_nan b) eqn:En; [by apply propagate_computes|].
    apply orb_false_iff in En as [-> _]. cbn. destruct (is_zero b); [apply invalid_computes | apply pack_infinity]. }
  destruct (finite_class a Ea) as (Na & Ia & Za). rewrite Na, Ia.
  destruct (Z.eqb_spec (extractFloat32Exp b) 255) as [Eb|Eb].
  { destruct (special_class b Eb) as (Nb & Ib & Zb). rewrite Ib, <- Nb, Zb, orb_false_r. cbn [orb].
    destruct (is_nan b) eqn:En; [apply propagate_computes; by rewrite ?En, ?orb_true_r|]. cbn.
    destruct (is_zero a); [apply invalid_computes | apply pack_infinity]. }
  destruct (finite_class b Eb) as (Nb & Ib & Zb). rewrite Nb, Ib. cbn [orb].
  apply normalized_computes; [done| |intros e1 m1 m0 (? & ? & E1) L1].
  { intros ->. rewrite round32_zero by lia. apply pack_zero. }
  apply normalized_computes; [done| |intros e2 m2 m0' (? & ? & E2) L2].
  { intros ->. rewrite Z.mul_0_r, round32_zero by lia. apply pack_zero. }
  cbv zeta. rewrite L1, L2, !significand_shl, u64_mul by lia.
  apply (computes_bind _ _ (jam (m1 * 2 ^ 7 * (m2 * 2 ^ 8)) (2 ^ 32))); [apply shift64_jams; nia|].
  apply product_rounds; [done|nia|lia|lia|].
  assert (Ep : 2 ^ (e1 + e2 - 127 + 400) * 2 ^ 171 = 2 ^ (e1 + 22) * 2 ^ (e2 + 22) * 2 ^ 400)
    by (rewrite <- !Z.pow_add_r by lia; f_equal; lia).
  apply Z.mul_reg_r with (2 ^ 171); [lia|].
  replace (m1 * 2 ^ 7 * (m2 * 2 ^ 8) * 2 ^ 149 * 2 ^ (e1 + e2 - 127 + 400) * 2 ^ 171)
    with (m1 * m2 * 2 ^ 15 * 2 ^ 149 * (2 ^ (e1 + e2 - 127 + 400) * 2 ^ 171)) by lia.
  rewrite Ep. replace (m1 * m2 * 2 ^ 15 * 2 ^ 149 * (2 ^ (e1 + 22) * 2 ^ (e2 + 22) * 2 ^ 400))
    with ((m1 * 2 ^ (e1 + 22)) * (m2 * 2 ^ (e2 + 22)) * 2 ^ 564) by lia.
  rewrite <- E1, <- E2. lia.
Qed.

(** The quotient of two significands, the first at most the second. *)
Lemma quotient_rounds s aSig bSig zExp n d :
  2 ^ 29 <= aSig < 2 ^ 31 -> 0 < bSig < 2 ^ 32 -> bSig <= 4 * aSig -> 2 * aSig < bSig -> 0 < d -> -400 <= zExp <= 1000 ->
  n * bSig * 2 ^ 407 = aSig * 2 ^ 32 * d * 2 ^ (zExp + 400) ->
  computes (q ← div_bits (u64 (Z.shiftl aSig 32)) bSig;
    let zSig := u32 q in
    let zSig := if Z.land zSig 0x3F =? 0
                then Z.lor zSig (b2z (negb (u64 (bSig * zSig) =? u64 (Z.shiftl aSig 32)))) else zSig in
    roundAndPackFloat32 s zExp zSig) σ (rounded (σ Float_rounding_mode) s n d).
Proof.
  intros Hs Hs' Hl Hh Hd He E. set (N := aSig * 2 ^ 32).
  assert (EN : u64 (Z.shiftl aSig 32) = N).
  { rewrite Z.shiftl_mul_pow2 by lia. apply wrap_small, inty_U64. lia. }
  rewrite EN. unfold div_bits. rewrite (proj2 (Z.eqb_neq bSig 0)) by lia.
  apply (computes_bind _ _ (N / bSig)); [done|]. cbv zeta.
  assert (2 ^ 30 <= N / bSig) by (apply Z.div_le_lower_bound; lia).
  assert (N / bSig < 2 ^ 31) by (apply Z.div_lt_upper_bound; lia).
  pose proof (Z.mul_div_le N bSig ltac:(lia)).
  rewrite (u32_small (N / bSig)) by lia.
  assert (Eu : u64 (bSig * (N / bSig)) = bSig * (N / bSig)) by (apply wrap_small, inty_U64; lia). rewrite Eu.
  change 0x3F with (2 ^ 6 - 1). rewrite land_low by lia. change (2 ^ 6) with 64.
  eapply roundAndPack_rounds; [done|].
  split; [|split; [|split; [|split; [|split; [|split; [|apply sticky_divided; lia]]]]]]; try lia.
  destruct (_ =? 0); [|lia]. apply (lor_bit0_bounds _ _ (2 ^ 30) (2 ^ 30)). lia.
Qed.

Lemma quotient_scale A B m1 m2 X1 X2 Y j :
  A * 2 ^ 23 = m1 * X1 -> B * 2 ^ 23 = m2 * X2 -> 0 <= j <= 7 -> Y * X2 = X1 * 2 ^ (532 - j) ->
  A * 2 ^ 149 * (m2 * 2 ^ 8) * 2 ^ 407 = m1 * 2 ^ j * 2 ^ 32 * B * Y.
Proof.
  intros EA EB Hj EY. apply Z.mul_reg_r with (2 ^ 23); [lia|].
  replace (A * 2 ^ 149 * (m2 * 2 ^ 8) * 2 ^ 407 * 2 ^ 23) with ((A * 2 ^ 23) * m2 * 2 ^ 564) by lia.
  replace (m1 * 2 ^ j * 2 ^ 32 * B * Y * 2 ^ 23) with (m1 * 2 ^ j * 2 ^ 32 * (B * 2 ^ 23) * Y) by lia.
  rewrite EA, EB. replace (m1 * 2 ^ j * 2 ^ 32 * (m2 * X2) * Y) with (m1 * m2 * 2 ^ 32 * 2 ^ j * (Y * X2)) by lia.
  rewrite EY. replace (2 ^ 564) with (2 ^ 32 * (2 ^ j * 2 ^ (532 - j))); [lia|].
  rewrite <- !Z.pow_add_r by lia. f_equal; lia.
Qed.

Theorem float32_div_ieee : computes (float32_div a b) σ (ieee_div (σ Float_rounding_mode) a b).
Proof.
  unfold float32_div, ieee_div. rewrite !zero_test. set (s := xorb _ _).
  destruct (Z.eqb_spec (extractFloat32Exp a) 255) as [Ea|Ea].
  { destruct (special_class a Ea) as (Na & Ia & Za). rewrite Ia, <- Na.
    destruct (is_nan a) eqn:En; [apply propagate_computes; by rewrite ?En|].
    destruct (Z.eqb_spec (extractFloat32Exp b) 255) as [Eb|Eb].
    - destruct (special_class b Eb) as (-> & -> & _). destruct (nz (extractFloat32Frac b)) eqn:Nb.
      + apply propagate_computes; [done..|]. rewrite (proj1 (special_class b Eb)), Nb. apply orb_true_r.
      + apply invalid_computes.
    - destruct (finite_class b Eb) as (-> & -> & _). apply pack_infinity. }
  destruct (finite_class a Ea) as (Na & Ia & Za). rewrite Na, Ia.
  destruct (Z.eqb_spec (extractFloat32Exp b) 255) as [Eb|Eb].
  { destruct (special_class b Eb) as (Nb & Ib & _). rewrite Ib, <- Nb. cbn [orb].
    destruct (is_nan b) eqn:En; [apply propagate_computes; by rewrite ?En, ?orb_true_r | apply pack_zero]. }
  destruct (finite_class b Eb) as (Nb & Ib & Zb). rewrite Nb, Ib, Zb. cbn [orb].
  apply normalized_computes; [done| |intros e2 m2 m0' F2 L2].
  { intros ->. rewrite Z.eqb_refl. destruct (is_zero a); [apply invalid_computes | by destruct s]. }
  pose proof (normal_form_pos _ _ _ F2). destruct F2 as (? & ? & E2).
  rewrite (proj2 (Z.eqb_neq (units b) 0)) by lia.
  apply normalized_computes; [done| |intros e1 m1 m0 (? & ? & E1) L1].
  { intros ->. rewrite Z.mul_0_l, round32_zero by lia. apply pack_zero. }
  cbv zeta. rewrite L1, L2, !significand_shl, (u32_small (_ + _)) by lia.
  assert (Ep : forall j, 500 <= j -> 2 ^ (e1 - e2 + j) * 2 ^ (e2 + 22) = 2 ^ (e1 + 22) * 2 ^ j)
    by (intros; rewrite <- !Z.pow_add_r by lia; f_equal; lia).
  destruct (Z.leb_spec (m2 * 2 ^ 8) (m1 * 2 ^ 7 + m1 * 2 ^ 7)).
  - rewrite Z.shiftr_div_pow2 by lia. replace (m1 * 2 ^ 7 / 2 ^ 1) with (m1 * 2 ^ 6) by (apply Z.div_unique with 0; lia).
    apply quotient_rounds; try lia. eapply quotient_scale; [exact E1 | exact E2 | lia|].
    replace (e1 - e2 + 125 + 1 + 400) with (e1 - e2 + 526) by lia. by apply Ep.
  - apply quotient_rounds; try lia. eapply quotient_scale; [exact E1 | exact E2 | lia|].
    replace (e1 - e2 + 125 + 400) with (e1 - e2 + 525) by lia. by apply Ep.
Qed.
End Product.
End FloatArith.
