(* ===== verification/FloatAdd.v ===== *)
(** * Addition and subtraction of single-precision numbers *)

From S2P Require Export FloatArith.

Module FloatAdd.
Import Insnset Float32 FloatRound FloatArith.

(** ** The reference operations *)

Definition with_sign (s : bool) (v : Z) : Z := if s then - v else v.

(** The sum of [a] and of [b] with the sign [sb].  An exact zero is negative
    when both are, or when rounding is downward and their signs differ. *)
Definition ieee_sum (mode : Z) (sb : bool) (a b : Z) : Z * list Z :=
  let sa := extractFloat32Sign a in
  if is_nan a || is_nan b then nan_result a b
  else if is_inf a then if is_inf b && xorb sa sb then invalid_result else infinity sa
  else if is_inf b then infinity sb
  else
    let v := with_sign sa (units a) + with_sign sb (units b) in
    if v =? 0 then zero (if eqb sa sb then sa else mode =? float_round_down)
    else rounded mode (v <? 0) (Z.abs v) 1.
Definition ieee_add (mode a b : Z) : Z * list Z := ieee_sum mode (extractFloat32Sign b) a b.
Definition ieee_sub (mode a b : Z) : Z * list Z := ieee_sum mode (negb (extractFloat32Sign b)) a b.

(** ** Jamming in sums and differences *)

Lemma jam_add_even q n d : 0 < d -> 2 * q + jam n d = jam (2 * q * d + n) d.
Proof.
  intros. rewrite !jam_eq, Z.add_comm, (Z.add_comm (2 * q * d)), Z.mod_add, Z.div_add by lia.
  destruct (_ =? 0); [lia|]. rewrite (Z.mul_comm 2 q), Z.div_add by lia. lia.
Qed.
Lemma jam_sub_even q n d : 0 < d -> 2 * q - jam n d = jam (2 * q * d - n) d.
Proof.
  intros Hd. set (k := n / d). set (r := n mod d).
  assert (En : n = d * k + r) by (apply Z.div_mod; lia). assert (Hr : 0 <= r < d) by (apply Z.mod_pos_bound; lia).
  pose proof (Z.div_mod k 2 ltac:(lia)). pose proof (Z.mod_pos_bound k 2 ltac:(lia)).
  rewrite !jam_eq. fold k r. destruct (Z.eqb_spec r 0) as [E|E].
  - assert (E1 : (2 * q * d - n) mod d = 0 /\ (2 * q * d - n) / d = 2 * q - k).
    { split; symmetry; [apply Z.mod_unique with (2 * q - k) | apply Z.div_unique with 0]; lia. }
    destruct E1 as [-> ->]. done.
  - assert (E1 : (2 * q * d - n) mod d = d - r /\ (2 * q * d - n) / d = 2 * q - k - 1).
    { split; symmetry; [apply Z.mod_unique with (2 * q - k - 1) | apply Z.div_unique with (d - r)]; lia. }
    destruct E1 as [-> ->]. rewrite (proj2 (Z.eqb_neq (d - r) 0)) by lia.
    assert (E2 : (2 * q - k - 1) / 2 = q - k / 2 - 1) by (symmetry; apply Z.div_unique with (1 - k mod 2); lia).
    rewrite E2. lia.
Qed.

Lemma jam_pos n d : 0 < d -> 0 < jam n d -> 0 < n.
Proof.
  intros Hd. rewrite jam_eq. pose proof (Z.div_mod n d ltac:(lia)). pose proof (Z.mod_pos_bound n d Hd).
  pose proof (Z.div_mod (n / d) 2 ltac:(lia)). pose proof (Z.mod_pos_bound (n / d) 2 ltac:(lia)).
  destruct (Z.eqb_spec (n mod d) 0); nia.
Qed.

(** ** The significand of a sum *)

Section Sum.
Context (s : bool) (σ : Sim).
Hypothesis (Hm : mode_ok (σ Float_rounding_mode)).

(** [m * 2 ^ 6] and [Y] shifted right by [sh] places, at the exponent [e]. *)
Lemma sum_rounds m Y sh e n :
  2 ^ 23 <= m < 2 ^ 24 -> 0 <= Y -> 0 <= sh -> m * 2 ^ 6 + jam Y (2 ^ sh) < 2 ^ 31 -> 1 <= e <= 254 ->
  n * 2 ^ (sh + 6) = (m * 2 ^ 6 * 2 ^ sh + Y) * 2 ^ (e - 1) ->
  computes (let X := m * 2 ^ 6 + jam Y (2 ^ sh) in
    if s32 (u32 (Z.shiftl X 1)) <? 0 then roundAndPackFloat32 s e X
    else roundAndPackFloat32 s (e - 1) (u32 (Z.shiftl X 1))) σ
  (rounded (σ Float_rounding_mode) s n 1).
Proof.
  intros HM HY Hsh HX He E. set (X := m * 2 ^ 6 + _) in *. cbv zeta. assert (0 < 2 ^ sh) by lia.
  set (N := m * 2 ^ 6 * 2 ^ sh + Y) in *.
  assert (EX : X = jam N (2 ^ sh)).
  { unfold X, N. replace (m * 2 ^ 6) with (2 * (m * 2 ^ 5)) by lia. apply jam_add_even. lia. }
  assert (2 ^ 29 <= X).
  { rewrite EX. apply (jam_bounds _ _ (2 ^ 29) (2 ^ 30)); [lia|]. split; [unfold N; nia|].
    change (2 * 2 ^ 30) with (2 ^ 31). apply jam_upper; [lia|]. by rewrite <- EX. }
  rewrite Z.shiftl_mul_pow2, (u32_small (X * _)), s32_of_u32 by lia. change (2 ^ 1) with 2.
  assert (E7 : n * 2 ^ sh * 2 ^ 407 = N * 2 ^ (e + 400)).
  { replace (2 ^ (e + 400)) with (2 ^ (e - 1) * 2 ^ 401) by (rewrite <- !Z.pow_add_r by lia; f_equal; lia).
    rewrite !Z.mul_assoc, <- E, Z.pow_add_r by lia. lia. }
  destruct (Z.ltb_spec (X * 2) (2 ^ 31)).
  - rewrite (proj2 (Z.ltb_ge (X * 2) 0)) by lia. eapply roundAndPack_rounds; [done|].
    eapply (stands_jam _ N (2 ^ sh) 1); try lia. replace (e + 400) with (e - 1 + 400 + 1) in E7 by lia.
    rewrite (Z.pow_add_r 2 (_ + _) 1) in E7 by lia. lia.
  - rewrite (proj2 (Z.ltb_lt _ 0)) by lia. eapply roundAndPack_rounds; [done|].
    eapply (stands_jam _ N (2 ^ sh) 0); lia.
Qed.

(** The exponent and the significand a finite number is read with: the
    implicit bit is there except for a subnormal, which has the exponent 1. *)
Definition sig_exp (a : Z) : Z := Z.max 1 (extractFloat32Exp a).
Definition sig (a : Z) : Z := extractFloat32Frac a + (if extractFloat32Exp a =? 0 then 0 else 2 ^ 23).

Lemma sig_units a : units a = sig a * 2 ^ (sig_exp a - 1).
Proof.
  unfold units, sig, sig_exp. pose proof (exp_bounds a). destruct (Z.eqb_spec (extractFloat32Exp a) 0) as [->|].
  - change (2 ^ (Z.max 1 0 - 1)) with 1. lia.
  - rewrite Z.max_r by lia. lia.
Qed.
Lemma sig_bounds a : 0 <= sig a < 2 ^ 24 /\ (extractFloat32Exp a <> 0 -> 2 ^ 23 <= sig a).
Proof. unfold sig. pose proof (frac_bounds a). destruct (Z.eqb_spec (extractFloat32Exp a) 0); lia. Qed.

Lemma frac_shl a k : 0 <= k <= 8 -> u32 (Z.shiftl (extractFloat32Frac a) k) = extractFloat32Frac a * 2 ^ k.
Proof.
  intros. pose proof (frac_bounds a). rewrite Z.shiftl_mul_pow2 by lia. apply u32_small.
  assert (2 ^ k <= 2 ^ 8) by (apply Z.pow_le_mono_r; lia). nia.
Qed.
Lemma implicit_bit a k c :
  0 <= k <= 8 -> c = 2 ^ (23 + k) -> extractFloat32Exp a <> 0 ->
  Z.lor (u32 (Z.shiftl (extractFloat32Frac a) k)) c = sig a * 2 ^ k.
Proof.
  intros Hk -> He. rewrite frac_shl by lia. pose proof (frac_bounds a). assert (0 < 2 ^ k) by lia.
  rewrite (lor_high (23 + k)) by (rewrite ?Z.pow_add_r by lia; nia). rewrite Z.pow_add_r by lia.
  unfold sig. rewrite (proj2 (Z.eqb_neq _ 0)) by done. lia.
Qed.
(** The smaller operand, with its implicit bit if it has one. *)
Lemma operand a k c (x y : Z) :
  0 <= k <= 8 -> c = 2 ^ (23 + k) ->
  (if extractFloat32Exp a =? 0 then (x, u32 (Z.shiftl (extractFloat32Frac a) k))
   else (y, Z.lor (u32 (Z.shiftl (extractFloat32Frac a) k)) c)) =
  (if extractFloat32Exp a =? 0 then x else y, sig a * 2 ^ k).
Proof.
  intros Hk Hc. destruct (Z.eqb_spec (extractFloat32Exp a) 0) as [E|E]; [|by rewrite implicit_bit].
  rewrite frac_shl by lia. f_equal. unfold sig. rewrite E. cbn [Z.eqb]. lia.
Qed.

(** What fits the significand is not rounded. *)
Lemma round_exact mode n : 0 <= n < 2 ^ 24 -> rounded mode s n 1 = (signed s n, []).
Proof.
  intros. unfold rounded, round32, round32_raises, magnitude, inexact.
  rewrite last_bit_low, Z.pow_0_r, Z.mul_1_r, rnd_exact, Z.mod_1_r by lia.
  rewrite Z.mul_0_l, Z.add_0_l. by rewrite (proj2 (Z.leb_gt inf_word n)) by (unfold inf_word; lia).
Qed.

(** The operand [b] with the smaller exponent, shifted to that of [a]. *)
Lemma aligned a b sh :
  0 <= sh -> sh = sig_exp a - sig_exp b -> units b * 2 ^ sh = sig b * 2 ^ (sig_exp a - 1).
Proof.
  intros Hsh E. rewrite (sig_units b), <- Z.mul_assoc, <- Z.pow_add_r by (unfold sig_exp in *; lia).
  do 2 f_equal. lia.
Qed.

(** ... and their sum, when the exponent of [a] is the larger one. *)
Lemma add_aligned a b sh :
  extractFloat32Exp a <> 255 -> extractFloat32Exp a <> 0 -> 0 <= sh -> sh = sig_exp a - sig_exp b ->
  sig a * 2 ^ 6 + jam (sig b * 2 ^ 6) (2 ^ sh) < 2 ^ 31 ->
  computes (let X := sig a * 2 ^ 6 + jam (sig b * 2 ^ 6) (2 ^ sh) in
    if s32 (u32 (Z.shiftl X 1)) <? 0 then roundAndPackFloat32 s (extractFloat32Exp a) X
    else roundAndPackFloat32 s (extractFloat32Exp a - 1) (u32 (Z.shiftl X 1))) σ
    (if units a + units b =? 0 then zero s else rounded (σ Float_rounding_mode) s (units a + units b) 1).
Proof.
  intros Ea Ea' Hsh E HX. pose proof (exp_bounds a). destruct (sig_bounds a) as [? Hs]. destruct (sig_bounds b) as [? _].
  assert (Ex : sig_exp a = extractFloat32Exp a) by (unfold sig_exp; lia).
  pose proof (sig_units a) as Ua. pose proof (aligned a b sh Hsh E) as Ub. pose proof (units_nonneg b).
  assert (0 < 2 ^ (sig_exp a - 1)) by lia.
  rewrite (proj2 (Z.eqb_neq (units a + units b) 0)) by nia.
  apply (sum_rounds (sig a) (sig b * 2 ^ 6) sh); try lia.
  rewrite <- Ex, Z.pow_add_r, Z.mul_assoc by lia.
  replace ((units a + units b) * 2 ^ sh) with (units a * 2 ^ sh + units b * 2 ^ sh) by lia.
  rewrite Ub, Ua. lia.
Qed.

Lemma shifted_bounds c sh :
  0 <= sh -> (extractFloat32Exp c <> 0 -> 1 <= sh) -> 0 <= jam (sig c * 2 ^ 6) (2 ^ sh) < 2 ^ 29.
Proof.
  intros Hsh Hc. apply (jam_bounds _ _ 0 (2 ^ 28)); [lia|]. destruct (sig_bounds c) as [? _].
  destruct (Z.eq_dec (extractFloat32Exp c) 0) as [E|E].
  - assert (sig c < 2 ^ 23) by (unfold sig; rewrite E; pose proof (frac_bounds c); cbn [Z.eqb]; lia).
    assert (1 <= 2 ^ sh) by lia. nia.
  - assert (2 ^ 1 <= 2 ^ sh) by (apply Z.pow_le_mono_r; auto with lia). nia.
Qed.

(** The magnitudes added, [s] being the sign of the result. *)
Lemma add_finite a b :
  extractFloat32Exp a <> 255 -> extractFloat32Exp b <> 255 ->
  computes (addFloat32Sigs a b s) σ
    (if units a + units b =? 0 then zero s else rounded (σ Float_rounding_mode) s (units a + units b) 1).
Proof.
  intros Ea Eb. unfold addFloat32Sigs. rewrite (proj2 (Z.eqb_neq _ 255) Ea), (proj2 (Z.eqb_neq _ 255) Eb).
  rewrite !operand by done.
  pose proof (exp_bounds a). pose proof (exp_bounds b). pose proof (sig_bounds a) as [? Ha]. pose proof (sig_bounds b) as [? Hb].
  pose proof (sig_units a) as Ua. pose proof (sig_units b) as Ub.
  assert (Sa : sig_exp a = Z.max 1 (extractFloat32Exp a)) by done.
  assert (Sb : sig_exp b = Z.max 1 (extractFloat32Exp b)) by done.
  pose proof (add_aligned a b) as Kab. pose proof (add_aligned b a) as Kba.
  destruct (Z.ltb_spec 0 (extractFloat32Exp a - extractFloat32Exp b)) as [Hgt|Hgt];
    [|destruct (Z.ltb_spec (extractFloat32Exp a - extractFloat32Exp b) 0) as [Hlt|Hlt]].
  - set (sh := if extractFloat32Exp b =? 0 then _ else _).
    assert (sh = sig_exp a - sig_exp b) by (unfold sh; destruct (Z.eqb_spec (extractFloat32Exp b) 0); lia).
    apply (computes_bind _ _ (jam (sig b * 2 ^ 6) (2 ^ sh))); [apply shift32_jams; lia|].
    pose proof (shifted_bounds b sh ltac:(lia) ltac:(lia)).
    rewrite implicit_bit, (u32_small (_ + _)) by (done || lia). apply Kab; lia.
  - set (sh := if extractFloat32Exp a =? 0 then _ else _).
    assert (- sh = sig_exp b - sig_exp a) by (unfold sh; destruct (Z.eqb_spec (extractFloat32Exp a) 0); lia).
    apply (computes_bind _ _ (jam (sig a * 2 ^ 6) (2 ^ (- sh)))); [apply shift32_jams; lia|].
    pose proof (shifted_bounds a (- sh) ltac:(lia) ltac:(lia)).
    change 0x20000000 with (2 ^ 29). rewrite (lor_high 29), frac_shl by lia.
    replace (2 ^ 29 + jam (sig a * 2 ^ 6) (2 ^ (- sh)) + extractFloat32Frac b * 2 ^ 6)
      with (sig b * 2 ^ 6 + jam (sig a * 2 ^ 6) (2 ^ (- sh)))
      by (unfold sig at 1; rewrite (proj2 (Z.eqb_neq (extractFloat32Exp b) 0)) by lia; lia).
    rewrite (u32_small (_ + _)), (Z.add_comm (units a)) by lia. apply Kba; lia.
  - assert (E : extractFloat32Exp b = extractFloat32Exp a) by lia. rewrite !frac_shl by lia.
    pose proof (frac_bounds a). pose proof (frac_bounds b).
    assert (Es : sig_exp b = sig_exp a) by lia. unfold sig in Ua, Ub. rewrite Es in Ub. rewrite E in *.
    destruct (Z.eqb_spec (extractFloat32Exp a) 0) as [E0|E0].
    + rewrite Sa, E0 in Ua, Ub. change (2 ^ (Z.max 1 0 - 1)) with 1 in *.
      replace (units a + units b) with (extractFloat32Frac a + extractFloat32Frac b) by lia.
      rewrite round_exact, (u32_small (_ + _)), Z.shiftr_div_pow2 by lia.
      rewrite <- Z.mul_add_distr_r, Z.div_mul, pack_word by lia.
      destruct (Z.eqb_spec (extractFloat32Frac a + extractFloat32Frac b) 0) as [->|]; apply ret_computes.
    + specialize (Ha E0). specialize (Hb ltac:(lia)).
      assert (U : units a + units b = (sig a + sig b) * 2 ^ (extractFloat32Exp a - 1)).
      { rewrite (sig_units a), (sig_units b), Es, Sa, Z.max_r by lia. lia. }
      assert (0 < 2 ^ (extractFloat32Exp a - 1)) by lia. rewrite (proj2 (Z.eqb_neq (units a + units b) 0)) by nia.
      rewrite u32_small by lia.
      replace (0x40000000 + _ + _) with ((sig a + sig b) * 2 ^ 6)
        by (unfold sig; rewrite E; destruct (Z.eqb_spec (extractFloat32Exp a) 0); [done | lia]).
      eapply roundAndPack_rounds; [done|]. apply stands_exact; try lia. rewrite U.
      replace (2 ^ (extractFloat32Exp a + 400)) with (2 ^ (extractFloat32Exp a - 1) * 2 ^ 401)
        by (rewrite <- !Z.pow_add_r by lia; f_equal; lia). lia.
Qed.
End Sum.

(** ** The significand of a difference *)

Section Difference.
Context (s : bool) (σ : Sim).
Hypothesis (Hm : mode_ok (σ Float_rounding_mode)).

(** [M * 2 ^ 7] less [y * 2 ^ 7] shifted right by [sh] places.  Few places lose
    no bits; after many the difference has at most one leading zero. *)
Lemma difference_rounds M y sh e n :
  0 <= M < 2 ^ 24 -> 0 <= y < 2 ^ 24 -> 0 <= sh -> (sh <= 7 \/ 2 ^ 23 <= M) -> 1 <= e <= 254 ->
  0 < M * 2 ^ 7 - jam (y * 2 ^ 7) (2 ^ sh) ->
  n * 2 ^ sh = (M * 2 ^ sh - y) * 2 ^ (e - 1) ->
  computes (normalizeRoundAndPackFloat32 s (e - 1) (u32 (M * 2 ^ 7 - jam (y * 2 ^ 7) (2 ^ sh)))) σ
    (rounded (σ Float_rounding_mode) s n 1).
Proof.
  intros HM Hy Hsh Hk He Hpos E. set (N := M * 2 ^ 7 * 2 ^ sh - y * 2 ^ 7). assert (0 < 2 ^ sh) by lia.
  assert (EX : M * 2 ^ 7 - jam (y * 2 ^ 7) (2 ^ sh) = jam N (2 ^ sh)).
  { unfold N. replace (M * 2 ^ 7) with (2 * (M * 2 ^ 6)) by lia. apply jam_sub_even. lia. }
  assert (HY : 0 <= jam (y * 2 ^ 7) (2 ^ sh) < 2 ^ 31) by (apply (jam_bounds _ _ 0 (2 ^ 30)); nia).
  rewrite u32_small by lia. rewrite EX in *. set (z := jam N (2 ^ sh)) in *.
  assert (E7 : n * 2 ^ sh * 2 ^ 407 = N * 2 ^ (e - 1 + 400)).
  { rewrite Z.pow_add_r by lia. unfold N. rewrite E. lia. }
  assert (Hl : Z.log2 z <= 30) by (apply Z.lt_succ_r, Z.log2_lt_pow2; lia).
  pose proof (Z.log2_nonneg z). pose proof (Z.log2_spec z Hpos) as Hz. rewrite Z.pow_succ_r in Hz by lia.
  set (k := 30 - Z.log2 z). assert (E30 : 2 ^ k * 2 ^ Z.log2 z = 2 ^ 30) by (rewrite <- Z.pow_add_r by lia; f_equal; lia).
  assert (0 < 2 ^ k) by lia. assert (Hz2 : 2 ^ 30 <= 2 ^ k * z < 2 ^ 31) by nia.
  assert (Ek : 2 ^ (e - 1 + 400) = 2 ^ k * 2 ^ (e - 1 - k + 400)) by (rewrite <- Z.pow_add_r by lia; f_equal; lia).
  destruct (Z.le_gt_cases sh 7) as [Hs|Hs].
  - apply (normalize_rounds s z (2 ^ k * z) 1 _ _ _ _ k); [done | lia | done | lia | apply stands_exact; try lia].
    apply Z.mul_reg_r with (2 ^ sh); [lia|].
    assert (EN : N = z * 2 ^ sh).
    { assert (E2 : 2 ^ 7 = 2 ^ (7 - sh) * 2 ^ sh) by (rewrite <- Z.pow_add_r by lia; f_equal; lia).
      assert (EN : N = (M * 2 ^ 7 - y * 2 ^ (7 - sh)) * 2 ^ sh) by (unfold N; rewrite E2; lia).
      unfold z, jam. by rewrite EN, Z.mod_mul, Z.div_mul, Z.lor_0_r by lia. }
    rewrite EN, Ek in E7. lia.
  - assert (jam (y * 2 ^ 7) (2 ^ sh) < 2 ^ 24).
    { apply (jam_bounds _ _ 0 (2 ^ 23)); [lia|]. assert (2 ^ 7 <= 2 ^ sh) by (apply Z.pow_le_mono_r; lia). nia. }
    assert (29 <= Z.log2 z) by (apply Z.log2_le_pow2; lia).
    assert (0 < N) by (apply (jam_pos N (2 ^ sh)); lia).
    apply (normalize_rounds s z (2 ^ k * N) (2 ^ sh) _ _ _ _ k); [done | lia | done | lia | apply stands_jam; try done; lia].
Qed.

(** The operand with the larger exponent comes first. *)
Lemma sub_aligned a b sh :
  extractFloat32Exp a <> 255 -> 0 <= sh -> sh = sig_exp a - sig_exp b -> (0 < sh -> extractFloat32Exp a <> 0) ->
  0 < sig a * 2 ^ 7 - jam (sig b * 2 ^ 7) (2 ^ sh) ->
  computes (normalizeRoundAndPackFloat32 s (sig_exp a - 1) (u32 (sig a * 2 ^ 7 - jam (sig b * 2 ^ 7) (2 ^ sh)))) σ
    (rounded (σ Float_rounding_mode) s (units a - units b) 1) /\ units b < units a.
Proof.
  intros Ea Hsh E Ha Hpos. pose proof (exp_bounds a). destruct (sig_bounds a) as [? Hs]. destruct (sig_bounds b) as [? _].
  pose proof (sig_units a) as Ua. pose proof (aligned a b sh Hsh E) as Ub. assert (0 < 2 ^ sh) by lia.
  assert (Hp : 0 < 2 ^ (sig_exp a - 1)) by (unfold sig_exp; lia). split.
  - apply difference_rounds; [lia..| |unfold sig_exp; lia|lia|].
    + destruct (Z.eq_dec sh 0); [left; lia | right; apply Hs, Ha; lia].
    + rewrite !Z.mul_sub_distr_r, Ub, Ua. lia.
  - assert (HN : 0 < sig a * 2 ^ sh - sig b).
    { replace (sig a * 2 ^ 7) with (2 * (sig a * 2 ^ 6)) in Hpos by lia. rewrite jam_sub_even in Hpos by lia.
      apply jam_pos in Hpos; lia. }
    apply Z.mul_lt_mono_pos_r with (2 ^ sh); [lia|]. rewrite Ub, Ua. nia.
Qed.
End Difference.

(** The two orders of the operands; [zero] when they are equal. *)
Definition difference_result (mode : Z) (s : bool) (v : Z) : Z * list Z :=
  if v =? 0 then zero (mode =? float_round_down) else rounded mode (xorb s (v <? 0)) (Z.abs v) 1.

Section Sub.
Context (s : bool) (σ : Sim).
Hypothesis (Hm : mode_ok (σ Float_rounding_mode)).

Lemma sub_first a b sh :
  extractFloat32Exp a <> 255 -> 0 <= sh -> sh = sig_exp a - sig_exp b -> (0 < sh -> extractFloat32Exp a <> 0) ->
  0 < sig a * 2 ^ 7 - jam (sig b * 2 ^ 7) (2 ^ sh) ->
  computes (normalizeRoundAndPackFloat32 s (sig_exp a - 1) (u32 (sig a * 2 ^ 7 - jam (sig b * 2 ^ 7) (2 ^ sh)))) σ
    (difference_result (σ Float_rounding_mode) s (units a - units b)).
Proof.
  intros Ea Hsh E Ha Hpos. destruct (sub_aligned s σ Hm a b sh) as [Hc Hlt]; try done. unfold difference_result.
  rewrite (proj2 (Z.eqb_neq _ 0)), (proj2 (Z.ltb_ge _ 0)), Z.abs_eq, xorb_false_r by lia. done.
Qed.
Lemma sub_second a b sh :
  extractFloat32Exp b <> 255 -> 0 <= sh -> sh = sig_exp b - sig_exp a -> (0 < sh -> extractFloat32Exp b <> 0) ->
  0 < sig b * 2 ^ 7 - jam (sig a * 2 ^ 7) (2 ^ sh) ->
  computes (normalizeRoundAndPackFloat32 (negb s) (sig_exp b - 1) (u32 (sig b * 2 ^ 7 - jam (sig a * 2 ^ 7) (2 ^ sh)))) σ
    (difference_result (σ Float_rounding_mode) s (units a - units b)).
Proof.
  intros Ea Hsh E Ha Hpos. destruct (sub_aligned (negb s) σ Hm b a sh) as [Hc Hlt]; try done. unfold difference_result.
  rewrite (proj2 (Z.eqb_neq _ 0)), (proj2 (Z.ltb_lt _ 0)), xorb_true_r by lia.
  replace (Z.abs (units a - units b)) with (units b - units a) by lia. done.
Qed.

Lemma difference_pos c d sh :
  0 <= sh -> 2 ^ 23 <= sig d -> (extractFloat32Exp c <> 0 -> 1 <= sh) ->
  0 < sig d * 2 ^ 7 - jam (sig c * 2 ^ 7) (2 ^ sh).
Proof.
  intros Hsh Hd Hc. destruct (sig_bounds c) as [? _].
  destruct (Z.eq_dec sh 0) as [->|].
  - assert (Ec : extractFloat32Exp c = 0) by lia. assert (sig c < 2 ^ 23).
    { unfold sig. rewrite Ec. pose proof (frac_bounds c). cbn [Z.eqb]. lia. }
    unfold jam. rewrite Z.pow_0_r, Z.div_1_r, Z.mod_1_r, Z.lor_0_r. lia.
  - assert (jam (sig c * 2 ^ 7) (2 ^ sh) < 2 * 2 ^ 29); [|lia].
    apply (jam_bounds _ _ 0 (2 ^ 29)); [lia|]. assert (2 ^ 1 <= 2 ^ sh) by (apply Z.pow_le_mono_r; lia). nia.
Qed.

Lemma sub_finite a b :
  extractFloat32Exp a <> 255 -> extractFloat32Exp b <> 255 ->
  computes (subFloat32Sigs a b s) σ (difference_result (σ Float_rounding_mode) s (units a - units b)).
Proof.
  intros Ea Eb. unfold subFloat32Sigs. rewrite (proj2 (Z.eqb_neq _ 255) Ea), (proj2 (Z.eqb_neq _ 255) Eb).
  rewrite !operand by done.
  pose proof (exp_bounds a). pose proof (exp_bounds b). pose proof (sig_bounds a) as [? Ha]. pose proof (sig_bounds b) as [? Hb].
  pose proof (sub_first a b) as Kab. pose proof (sub_second a b) as Kba.
  assert (Sa : sig_exp a = Z.max 1 (extractFloat32Exp a)) by done.
  assert (Sb : sig_exp b = Z.max 1 (extractFloat32Exp b)) by done.
  destruct (Z.ltb_spec 0 (extractFloat32Exp a - extractFloat32Exp b)) as [Hgt|Hgt];
    [|destruct (Z.ltb_spec (extractFloat32Exp a - extractFloat32Exp b) 0) as [Hlt|Hlt]].
  - set (sh := if extractFloat32Exp b =? 0 then _ else _).
    assert (sh = sig_exp a - sig_exp b) by (unfold sh; destruct (Z.eqb_spec (extractFloat32Exp b) 0); lia).
    apply (computes_bind _ _ (jam (sig b * 2 ^ 7) (2 ^ sh))); [apply shift32_jams; lia|].
    rewrite implicit_bit by (done || lia). replace (extractFloat32Exp a - 1) with (sig_exp a - 1) by lia.
    apply Kab; [done|lia|done|lia|]. apply difference_pos; lia.
  - set (sh := if extractFloat32Exp a =? 0 then _ else _).
    assert (- sh = sig_exp b - sig_exp a) by (unfold sh; destruct (Z.eqb_spec (extractFloat32Exp a) 0); lia).
    apply (computes_bind _ _ (jam (sig a * 2 ^ 7) (2 ^ (- sh)))); [apply shift32_jams; lia|].
    rewrite implicit_bit by (done || lia). replace (extractFloat32Exp b - 1) with (sig_exp b - 1) by lia.
    apply Kba; [done|lia|done|lia|]. apply difference_pos; lia.
  - assert (E : extractFloat32Exp b = extractFloat32Exp a) by lia. rewrite !frac_shl, E by lia.
    assert (Es : sig_exp b = sig_exp a) by lia.
    assert (Ep : (if extractFloat32Exp a =? 0 then (1, 1) else (extractFloat32Exp a, extractFloat32Exp a)) = (sig_exp a, sig_exp a)).
    { rewrite Sa. destruct (Z.eqb_spec (extractFloat32Exp a) 0) as [->|]; [done | by rewrite Z.max_r by lia]. }
    rewrite Ep. 
    assert (Ef : sig a - sig b = extractFloat32Frac a - extractFloat32Frac b) by (unfold sig; rewrite E; lia).
    assert (Ej : forall c, jam (sig c * 2 ^ 7) (2 ^ 0) = sig c * 2 ^ 7).
    { intros. unfold jam. by rewrite Z.pow_0_r, Z.div_1_r, Z.mod_1_r, Z.lor_0_r. }
    destruct (Z.ltb_spec (extractFloat32Frac b * 2 ^ 7) (extractFloat32Frac a * 2 ^ 7)).
    + replace (extractFloat32Frac a * 2 ^ 7 - extractFloat32Frac b * 2 ^ 7) with (sig a * 2 ^ 7 - jam (sig b * 2 ^ 7) (2 ^ 0))
        by (rewrite Ej; lia).
      apply Kab; rewrite ?Ej; lia.
    + destruct (Z.ltb_spec (extractFloat32Frac a * 2 ^ 7) (extractFloat32Frac b * 2 ^ 7)).
      * replace (extractFloat32Frac b * 2 ^ 7 - extractFloat32Frac a * 2 ^ 7) with (sig b * 2 ^ 7 - jam (sig a * 2 ^ 7) (2 ^ 0))
          by (rewrite Ej; lia).
        rewrite <- Es. apply Kba; rewrite ?Ej; lia.
      * unfold difference_result. rewrite (sig_units a), (sig_units b), Es.
        rewrite <- Z.mul_sub_distr_r, Ef. replace (extractFloat32Frac a - extractFloat32Frac b) with 0 by lia.
        rewrite Z.mul_0_l, Z.eqb_refl. apply (computes_bind _ _ (σ Float_rounding_mode)); [done | apply pack_zero].
Qed.
End Sub.

(** ** Signs and special operands *)

Section Sum32.
Context (a b : Z) (σ : Sim).
Hypothesis (Ha : fword a) (Hb : fword b) (Hm : mode_ok (σ Float_rounding_mode)).
Let s := extractFloat32Sign a.
Let mode := σ Float_rounding_mode.

(** An infinite or NaN operand. *)
Lemma infinite_word x : fword x -> extractFloat32Exp x = 255 -> nz (extractFloat32Frac x) = false ->
  (x, []) = infinity (extractFloat32Sign x).
Proof.
  intros Hx E F. apply nz_false in F. unfold infinity. rewrite (word_fields x Hx) at 1. rewrite E, F. by rewrite Z.add_0_r.
Qed.
Lemma shl_nz x k : 0 <= k <= 8 -> nz (u32 (Z.shiftl (extractFloat32Frac x) k)) = nz (extractFloat32Frac x).
Proof. intros. rewrite frac_shl by lia. apply nz_iff. assert (0 < 2 ^ k) by lia. nia. Qed.
Lemma lor_nz x y : nz (Z.lor x y) = nz x || nz y.
Proof.
  apply eq_bool_prop_intro. rewrite !Is_true_true, orb_true_iff, !nz_spec, Z.lor_eq_0_iff. lia.
Qed.

(** The order of the exponents when one of them is the largest. *)
Lemma exponents_gt x y : extractFloat32Exp x = 255 -> extractFloat32Exp y <> 255 ->
  (0 <? extractFloat32Exp x - extractFloat32Exp y) = true /\
  (0 <? extractFloat32Exp y - extractFloat32Exp x) = false /\ (extractFloat32Exp y - extractFloat32Exp x <? 0) = true.
Proof.
  intros. pose proof (exp_bounds y). rewrite !Z.ltb_lt, Z.ltb_ge. lia.
Qed.
Lemma exponents_eq x y : extractFloat32Exp x = 255 -> extractFloat32Exp y = 255 ->
  (0 <? extractFloat32Exp x - extractFloat32Exp y) = false /\ (extractFloat32Exp x - extractFloat32Exp y <? 0) = false.
Proof. by intros -> ->. Qed.

Lemma addFloat32Sigs_ieee : computes (addFloat32Sigs a b s) σ (ieee_sum mode s a b).
Proof.
  unfold ieee_sum. fold s. rewrite xorb_nilpotent, andb_false_r, eqb_reflx.
  destruct (Z.eqb_spec (extractFloat32Exp a) 255) as [Ea|Ea].
  { destruct (special_class a Ea) as (Na & Ia & _). unfold addFloat32Sigs. rewrite !shl_nz, lor_nz, !shl_nz, <- Na by lia.
    rewrite (proj2 (Z.eqb_eq _ 255) Ea).
    destruct (Z.eq_dec (extractFloat32Exp b) 255) as [Eb|Eb].
    - destruct (exponents_eq a b Ea Eb) as [-> ->]. destruct (special_class b Eb) as (Nb & _). rewrite <- Nb.
      destruct (is_nan a || is_nan b) eqn:En; [by apply propagate_computes|].
      apply orb_false_iff in En as [En _]. rewrite Ia, <- Na, En. cbn. unfold s. rewrite <- infinite_word; congruence || done.
    - destruct (exponents_gt a b Ea Eb) as [-> _]. destruct (finite_class b Eb) as (-> & _). rewrite orb_false_r.
      destruct (is_nan a) eqn:En; [apply propagate_computes; [done..|by rewrite En]|].
      rewrite Ia, <- Na. cbn. unfold s. rewrite <- infinite_word; congruence || done. }
  destruct (Z.eqb_spec (extractFloat32Exp b) 255) as [Eb|Eb].
  { destruct (special_class b Eb) as (Nb & Ib & _). destruct (finite_class a Ea) as (Na & -> & _). rewrite Na, Ib, <- Nb. cbn [orb].
    unfold addFloat32Sigs. destruct (exponents_gt b a Eb Ea) as (_ & -> & ->). rewrite (proj2 (Z.eqb_eq _ 255) Eb), !shl_nz, <- Nb by lia.
    destruct (is_nan b) eqn:En; [apply propagate_computes; [done..|by rewrite En, orb_true_r] | apply pack_infinity]. }
  destruct (finite_class a Ea) as (-> & -> & _), (finite_class b Eb) as (-> & -> & _). cbn [orb].
  pose proof (add_finite s σ Hm a b Ea Eb) as H. pose proof (units_nonneg a). pose proof (units_nonneg b).
  destruct (Z.eqb_spec (units a + units b) 0) as [E0|E0].
  - replace (with_sign s (units a) + with_sign s (units b)) with 0 by (unfold with_sign; destruct s; lia). done.
  - rewrite (proj2 (Z.eqb_neq _ 0)) by (unfold with_sign; destruct s; lia).
    replace (_ <? 0) with s by (unfold with_sign; destruct s; symmetry; [apply Z.ltb_lt | apply Z.ltb_ge]; lia).
    replace (Z.abs _) with (units a + units b) by (unfold with_sign; destruct s; lia). done.
Qed.

Lemma subFloat32Sigs_ieee : computes (subFloat32Sigs a b s) σ (ieee_sum mode (negb s) a b).
Proof.
  unfold ieee_sum. fold s. replace (xorb s (negb s)) with true by (by destruct s). rewrite andb_true_r.
  replace (eqb s (negb s)) with false by (by destruct s).
  destruct (Z.eqb_spec (extractFloat32Exp a) 255) as [Ea|Ea].
  { destruct (special_class a Ea) as (Na & Ia & _). unfold subFloat32Sigs. rewrite !shl_nz, lor_nz, !shl_nz, <- Na by lia.
    rewrite (proj2 (Z.eqb_eq _ 255) Ea).
    destruct (Z.eq_dec (extractFloat32Exp b) 255) as [Eb|Eb].
    - destruct (exponents_eq a b Ea Eb) as [-> ->]. destruct (special_class b Eb) as (Nb & Ib & _). rewrite <- Nb.
      destruct (is_nan a || is_nan b) eqn:En; [by apply propagate_computes|].
      apply orb_false_iff in En as [En En']. rewrite Ia, <- Na, En, Ib, <- Nb, En'. apply invalid_computes.
    - destruct (exponents_gt a b Ea Eb) as [-> _]. destruct (finite_class b Eb) as (-> & -> & _). rewrite orb_false_r.
      destruct (is_nan a) eqn:En; [apply propagate_computes; [done..|by rewrite En]|].
      rewrite Ia, <- Na. cbn. unfold s. rewrite <- infinite_word; congruence || done. }
  destruct (Z.eqb_spec (extractFloat32Exp b) 255) as [Eb|Eb].
  { destruct (special_class b Eb) as (Nb & Ib & _). destruct (finite_class a Ea) as (Na & -> & _). rewrite Na, Ib, <- Nb. cbn [orb].
    unfold subFloat32Sigs. destruct (exponents_gt b a Eb Ea) as (_ & -> & ->). rewrite (proj2 (Z.eqb_eq _ 255) Eb), !shl_nz, <- Nb by lia.
    destruct (is_nan b) eqn:En; [apply propagate_computes; [done..|by rewrite En, orb_true_r] | apply pack_infinity]. }
  destruct (finite_class a Ea) as (-> & -> & _), (finite_class b Eb) as (-> & -> & _). cbn [orb].
  pose proof (sub_finite s σ Hm a b Ea Eb) as H. unfold difference_result in H. set (v := units a - units b) in *.
  assert (Ev : with_sign s (units a) + with_sign (negb s) (units b) = with_sign s v) by (unfold with_sign, v; destruct s; cbn; lia).
  rewrite Ev. destruct (Z.eqb_spec v 0) as [E0|E0].
  - rewrite E0. by replace (with_sign s 0 =? 0) with true by (by destruct s).
  - rewrite (proj2 (Z.eqb_neq _ 0)) by (unfold with_sign; destruct s; lia).
    replace (with_sign s v <? 0) with (xorb s (v <? 0)).
    2:{ unfold with_sign. destruct s; [|apply xorb_false_l]. rewrite xorb_true_l.
        apply eq_bool_prop_intro. rewrite !Is_true_true, negb_true_iff, Z.ltb_lt, Z.ltb_ge. lia. }
    replace (Z.abs (with_sign s v)) with (Z.abs v) by (unfold with_sign; destruct s; lia). done.
Qed.

(** Addition and subtraction are those of IEEE 754: the correctly rounded sum,
    with its exceptions. *)
Theorem float32_add_ieee : computes (float32_add a b) σ (ieee_add mode a b).
Proof.
  unfold float32_add, ieee_add. fold s. destruct (eqb s (extractFloat32Sign b)) eqn:E.
  - apply eqb_prop in E. rewrite <- E. apply addFloat32Sigs_ieee.
  - apply eqb_false_iff in E. replace (extractFloat32Sign b) with (negb s) by (by destruct s, (extractFloat32Sign b)).
    apply subFloat32Sigs_ieee.
Qed.
Theorem float32_sub_ieee : computes (float32_sub a b) σ (ieee_sub mode a b).
Proof.
  unfold float32_sub, ieee_sub. fold s. destruct (eqb s (extractFloat32Sign b)) eqn:E.
  - apply eqb_prop in E. rewrite <- E. apply subFloat32Sigs_ieee.
  - apply eqb_false_iff in E. replace (negb (extractFloat32Sign b)) with s by (by destruct s, (extractFloat32Sign b)).
    apply addFloat32Sigs_ieee.
Qed.
End Sum32.
End FloatAdd.
