(* ===== verification/FloatConv.v ===== *)
(** * Conversions and comparisons of single-precision numbers

    ... and what the rounding of FloatRound.v means: no number with the
    encoding of a finite one is nearer, or lies between. *)

From S2P Require Export FloatAdd.

Module FloatConv.
Import Insnset Float32 FloatRound FloatArith FloatAdd.

(** ** From integers *)

Definition ieee_of_int (mode a : Z) : Z * list Z := rounded mode (a <? 0) (Z.abs a * 2 ^ 149) 1.

Theorem int32_to_float32_ieee a (σ : Sim) :
  mode_ok (σ Float_rounding_mode) -> inty I32 a ->
  computes (int32_to_float32 a) σ (ieee_of_int (σ Float_rounding_mode) a).
Proof.
  intros Hm Ha. apply inty_I32 in Ha. unfold int32_to_float32, ieee_of_int.
  destruct (Z.eqb_spec a 0) as [->|E0]; [rewrite round32_zero by lia; apply ret_computes|].
  change (s32 0x80000000) with (- 2 ^ 31). destruct (Z.eqb_spec a (- 2 ^ 31)) as [->|Em].
  { assert (Hc : σ Float_rounding_mode = 0 \/ σ Float_rounding_mode = 1 \/ σ Float_rounding_mode = 2 \/ σ Float_rounding_mode = 3)
      by (unfold mode_ok in Hm; lia).
    destruct Hc as [->|[->|[->| ->]]]; reflexivity. }
  replace (u32 (if a <? 0 then - a else a)) with (Z.abs a)
    by (rewrite u32_small; destruct (Z.ltb_spec a 0); lia).
  apply normalize_exact; [done | lia..].
Qed.

(** ** To integers *)

Definition ieee_to_int (mode a : Z) : Z * list Z :=
  let s := extractFloat32Sign a in
  let v := with_sign s (rnd mode s (units a) (2 ^ 149)) in
  if is_nan a then (2 ^ 31 - 1, [float_flag_invalid])
  else if (- 2 ^ 31 <=? v) && (v <? 2 ^ 31) && negb (is_inf a)
  then (v, if nz (units a mod 2 ^ 149) then [float_flag_inexact] else [])
  else (if s then - 2 ^ 31 else 2 ^ 31 - 1, [float_flag_invalid]).

(** The test for overflow of a rounded magnitude, and the signed result. *)
Lemma int32_overflow (s : bool) m :
  0 <= m ->
  let v := with_sign s m in
  let z := if s then s32 (- s32 m) else s32 m in
  nz (m / 2 ^ 32) || (nz z && xorb (z <? 0) s) = negb ((- 2 ^ 31 <=? v) && (v <? 2 ^ 31)) /\
  ((- 2 ^ 31 <=? v) && (v <? 2 ^ 31) = true -> z = v).
Proof.
  intros Hm v z.
  assert (Ez : m < 2 ^ 32 -> z = if s then (if m <=? 2 ^ 31 then - m else 2 ^ 32 - m) else (if m <? 2 ^ 31 then m else m - 2 ^ 32)).
  { intros. unfold z. rewrite (s32_of_u32 m) by lia. destruct s; [|done].
    destruct (Z.ltb_spec m (2 ^ 31)), (Z.leb_spec m (2 ^ 31)); try lia.
    - apply s32_small. lia.
    - assert (m = 2 ^ 31) as -> by lia. reflexivity.
    - rewrite s32_small; lia. }
  assert (Er : (- 2 ^ 31 <=? v) && (v <? 2 ^ 31) = if s then m <=? 2 ^ 31 else m <? 2 ^ 31).
  { apply eq_bool_prop_intro. rewrite !Is_true_true, andb_true_iff, Z.leb_le, Z.ltb_lt. unfold v, with_sign.
    destruct s; rewrite ?Z.leb_le, ?Z.ltb_lt; lia. }
  rewrite Er. destruct (Z.lt_ge_cases m (2 ^ 32)) as [Hl|Hl].
  - rewrite Z.div_small by lia. cbn [nz Z.eqb negb orb]. rewrite Ez by done. unfold v, with_sign, nz.
    destruct s; [destruct (Z.leb_spec m (2 ^ 31)) | destruct (Z.ltb_spec m (2 ^ 31))]; split; try done.
    all: match goal with |- negb (?x =? 0) && xorb (?x <? 0) _ = _ => destruct (Z.eqb_spec x 0), (Z.ltb_spec x 0) end; cbn; (done || lia).
  - assert (1 <= m / 2 ^ 32) by (apply Z.div_le_lower_bound; lia).
    unfold nz at 1. rewrite (proj2 (Z.eqb_neq (m / 2 ^ 32) 0)) by lia. cbn [negb orb].
    destruct s; [rewrite (proj2 (Z.leb_gt m (2 ^ 31))) by lia | rewrite (proj2 (Z.ltb_ge m (2 ^ 31))) by lia]; split; done.
Qed.

Lemma roundAndPackInt32_rounds s absZ (σ : Sim) :
  mode_ok (σ Float_rounding_mode) -> 0 <= absZ < 2 ^ 63 ->
  let v := with_sign s (rnd (σ Float_rounding_mode) s absZ 128) in
  computes (roundAndPackInt32 s absZ) σ
    (if (- 2 ^ 31 <=? v) && (v <? 2 ^ 31) then (v, if nz (absZ mod 128) then [float_flag_inexact] else [])
     else (if s then - 2 ^ 31 else 2 ^ 31 - 1, [float_flag_invalid])).
Proof.
  intros Hm Hz v. unfold roundAndPackInt32. apply (computes_bind _ _ (σ Float_rounding_mode)); [done|]. cbv zeta.
  set (mode := σ Float_rounding_mode) in *.
  assert (0 <= round_increment mode s <= 127) by (unfold round_increment; repeat case_match; lia).
  assert (Eu : u64 (absZ + round_increment mode s) = absZ + round_increment mode s) by (apply wrap_small, inty_U64; lia).
  rewrite Eu, increment_rounds by (done || lia). set (m := rnd mode s absZ 128) in *.
  assert (0 <= m) by (apply rnd_ge; lia).
  change 0x7F with (2 ^ 7 - 1). rewrite land_low, Z.shiftr_div_pow2 by lia. change (2 ^ 7) with 128.
  destruct (int32_overflow s m) as [-> Ev]; [done|]. fold v in Ev |- *.
  destruct ((- 2 ^ 31 <=? v) && (v <? 2 ^ 31)); cbn [negb].
  - rewrite Ev by done. unfold computes, bind. by rewrite when_raise.
  - by destruct s.
Qed.

(** The fixed-point number handed to the rounding function, in 128ths. *)
Definition fixed128 (e f : Z) : Z := let x := f * 2 ^ 32 in if 0 <? 0xAF - e then jam x (2 ^ (0xAF - e)) else x.

Lemma fixed128_bounds e f : 0 <= e -> 0 <= f < 2 ^ 24 -> 0 <= fixed128 e f < 2 ^ 56.
Proof.
  intros He Hf. unfold fixed128. cbv zeta. destruct (Z.ltb_spec 0 (175 - e)); [|lia].
  apply (jam_bounds _ _ 0 (2 ^ 55)); [lia|]. assert (1 <= 2 ^ (175 - e)) by lia. nia.
Qed.

(** Below [2 ^ 31] it has the rounded value and the exactness of the number. *)
Lemma fixed128_value a mode s :
  extractFloat32Exp a <> 255 ->
  let z := fixed128 (extractFloat32Exp a) (sig a) in
  rnd mode s z 128 = rnd mode s (units a) (2 ^ 149) /\ nz (z mod 128) = nz (units a mod 2 ^ 149) \/
  2 ^ 48 <= rnd mode s z 128 /\ 2 ^ 32 <= rnd mode s (units a) (2 ^ 149).
Proof.
  intros Ea z. unfold z, fixed128. cbv zeta. pose proof (exp_bounds a). destruct (sig_bounds a) as [Hf Hf'].
  pose proof (sig_units a) as U. set (e := extractFloat32Exp a) in *. set (f := sig a) in *.
  assert (Se : sig_exp a = Z.max 1 e) by done. rewrite Se in U.
  destruct (Z.ltb_spec 0 (175 - e)) as [H0|H0].
  - left. destruct (Z.eq_dec e 0) as [E|E].
    + assert (f < 2 ^ 23) by (unfold f, sig; fold e; rewrite E; pose proof (frac_bounds a); cbn [Z.eqb]; lia).
      rewrite E in *. change (2 ^ (Z.max 1 0 - 1)) with 1 in U. rewrite jam_small, U, Z.mul_1_r by lia.
      set (x := b2z (nz (f * 2 ^ 32))). assert (0 <= x <= 1 /\ (x = 0 <-> f = 0)) as [Hx Hx0].
      { unfold x, nz. destruct (Z.eqb_spec (f * 2 ^ 32) 0); cbn; lia. }
      unfold rnd. rewrite !Z.div_small, !Z.mod_small by lia. split; [|apply nz_iff; lia]. do 2 f_equal.
      apply rounds_up_ext; apply eq_bool_prop_intro; rewrite !Is_true_true, ?Z.ltb_lt, ?Z.eqb_eq; lia.
    + rewrite rnd_jam7, jam_exact7 by lia.
      assert (E2 : units a * (2 ^ (175 - e) * 128) = f * 2 ^ 32 * 2 ^ 149).
      { rewrite U, Z.max_r by lia. change 128 with (2 ^ 7). rewrite <- !Z.mul_assoc, <- !Z.pow_add_r by lia. do 2 f_equal. lia. }
      split; [apply rnd_ext; lia | apply exact_ext; lia].
  - right. assert (2 ^ 174 <= 2 ^ (Z.max 1 e - 1)) by (apply Z.pow_le_mono_r; lia).
    split; apply rnd_ge; lia.
Qed.

Theorem float32_to_int32_ieee a (σ : Sim) :
  mode_ok (σ Float_rounding_mode) -> computes (float32_to_int32 a) σ (ieee_to_int (σ Float_rounding_mode) a).
Proof.
  intros Hm. unfold float32_to_int32, ieee_to_int. set (mode := σ Float_rounding_mode) in *.
  pose proof (exp_bounds a) as He. pose proof (sig_bounds a) as [Hf _]. pose proof (frac_bounds a).
  change ((extractFloat32Exp a =? 255) && nz (extractFloat32Frac a)) with (is_nan a).
  assert (Es : (if nz (extractFloat32Exp a) then Z.lor (extractFloat32Frac a) 0x00800000 else extractFloat32Frac a) = sig a).
  { unfold sig, nz. destruct (Z.eqb_spec (extractFloat32Exp a) 0); cbn [negb]; [lia|].
    change 0x00800000 with (2 ^ 23). rewrite (lor_high 23) by lia. lia. }
  rewrite Es. assert (E64 : u64 (Z.shiftl (sig a) 32) = sig a * 2 ^ 32).
  { rewrite Z.shiftl_mul_pow2 by lia. apply wrap_small, inty_U64. lia. }
  rewrite E64. pose proof (fixed128_bounds _ _ (proj1 He) Hf) as Hz.
  apply (computes_bind _ _ (fixed128 (extractFloat32Exp a) (sig a))).
  { unfold fixed128. cbv zeta. destruct (Z.ltb_spec 0 (0xAF - extractFloat32Exp a)); [apply shift64_jams; lia | done]. }
  assert (Hbig : forall s m, 2 ^ 32 <= m -> (- 2 ^ 31 <=? with_sign s m) && (with_sign s m <? 2 ^ 31) = false).
  { intros s m ?. apply andb_false_iff. unfold with_sign. rewrite Z.leb_gt, Z.ltb_ge. destruct s; lia. }
  set (s := extractFloat32Sign a). destruct (Z.eq_dec (extractFloat32Exp a) 255) as [Ea|Ea].
  - destruct (special_class a Ea) as (Na & Ia & _).
    assert (Hr : forall s', 2 ^ 32 <= rnd mode s' (fixed128 (extractFloat32Exp a) (sig a)) 128).
    { intros. apply rnd_ge; [lia|]. unfold fixed128. rewrite Ea. cbv zeta.
      rewrite (proj2 (Z.ltb_ge 0 (0xAF - 255))) by lia. destruct (sig_bounds a) as [_ Hs]. lia. }
    eapply eq_trans; [apply roundAndPackInt32_rounds; [done | lia]|]. cbv zeta. rewrite Hbig by apply Hr.
    rewrite Ia, Na, negb_involutive. destruct (nz (extractFloat32Frac a)); [done|]. by rewrite andb_false_r.
  - destruct (finite_class a Ea) as (-> & -> & _). cbv iota.
    eapply eq_trans; [apply roundAndPackInt32_rounds; [done | lia]|]. cbv zeta. fold mode. rewrite andb_true_r.
    destruct (fixed128_value a mode s Ea) as [[-> ->]|[H1 H2]]; [done|].
    by rewrite !Hbig by lia.
Qed.

(** ** Comparisons *)

(** The value decides the order, an infinity being above every finite number. *)
Definition key (a : Z) : Z := extractFloat32Exp a * 2 ^ 23 + extractFloat32Frac a.

Lemma units_mono a b : key a < key b -> units a < units b.
Proof.
  unfold key. intros Hlt. pose proof (frac_bounds a). pose proof (frac_bounds b). pose proof (exp_bounds a). pose proof (exp_bounds b).
  unfold units. set (ea := extractFloat32Exp a) in *. set (eb := extractFloat32Exp b) in *.
  destruct (Z.eqb_spec ea 0) as [Ea|Ea], (Z.eqb_spec eb 0) as [Eb|Eb]; [lia| |lia|].
  - assert (1 <= 2 ^ (eb - 1)) by lia. nia.
  - destruct (Z.eq_dec ea eb) as [->|]; [assert (0 < 2 ^ (eb - 1)) by lia; nia|].
    assert (2 * 2 ^ (ea - 1) <= 2 ^ (eb - 1)) by (rewrite <- Z.pow_succ_r by lia; apply Z.pow_le_mono_r; lia).
    assert (0 < 2 ^ (ea - 1)) by lia. nia.
Qed.
Lemma units_compare a b : (units a < units b <-> key a < key b) /\ (units a = units b <-> key a = key b).
Proof.
  pose proof (units_mono a b). pose proof (units_mono b a).
  assert (key a = key b -> units a = units b); [|lia].
  intros E. unfold key in E. pose proof (frac_bounds a). pose proof (frac_bounds b).
  assert (extractFloat32Exp a = extractFloat32Exp b /\ extractFloat32Frac a = extractFloat32Frac b) as [E1 E2] by lia.
  unfold units. by rewrite E1, E2.
Qed.
Lemma units_zero a : units a = 0 <-> key a = 0.
Proof. exact (proj2 (units_compare a 0)). Qed.
Lemma key_bounds a : 0 <= key a < 2 ^ 31.
Proof. unfold key. pose proof (frac_bounds a). pose proof (exp_bounds a). lia. Qed.
Lemma word_key a : fword a -> a = signed (extractFloat32Sign a) (key a).
Proof. apply word_fields. Qed.

Section Compare.
Context (a b : Z) (σ : Sim).
Hypothesis (Ha : fword a) (Hb : fword b).

Lemma shl1_key x : fword x -> u32 (Z.shiftl x 1) = 2 * key x.
Proof.
  intros Hx. rewrite (word_key x Hx) at 1. pose proof (key_bounds x). rewrite Z.shiftl_mul_pow2, u32_eq by lia.
  symmetry. apply Z.mod_unique with (b2z (extractFloat32Sign x)); unfold signed; lia.
Qed.
Lemma both_zero_spec : both_zero a b = (units a =? 0) && (units b =? 0).
Proof.
  unfold both_zero. apply eq_bool_prop_intro.
  rewrite !Is_true_true, andb_true_iff, !Z.eqb_eq, !units_zero.
  assert (E : u32 (Z.shiftl (Z.lor a b) 1) = Z.lor (u32 (Z.shiftl a 1)) (u32 (Z.shiftl b 1))).
  { rewrite Z.shiftl_lor. apply Z.bits_inj'. intros i Hi. rewrite Z.lor_spec, !testbit_u32, Z.lor_spec by lia.
    by destruct (i <? 32), (Z.testbit (Z.shiftl a 1) i), (Z.testbit (Z.shiftl b 1) i). }
  rewrite E, !shl1_key, Z.lor_eq_0_iff by done. lia.
Qed.
Lemma same_word : (a =? b) = eqb (extractFloat32Sign a) (extractFloat32Sign b) && (units a =? units b).
Proof.
  apply eq_bool_prop_intro. rewrite !Is_true_true, andb_true_iff, !Z.eqb_eq, eqb_true_iff, (proj2 (units_compare a b)).
  rewrite (word_key a Ha) at 1. rewrite (word_key b Hb) at 1.
  pose proof (key_bounds a). pose proof (key_bounds b). unfold signed.
  destruct (extractFloat32Sign a), (extractFloat32Sign b); cbn [b2z];
    (split; [intros; split; [done || lia | lia] | intros []; (done || lia)]).
Qed.

Ltac compare :=
  apply eq_bool_prop_intro; rewrite !Is_true_true; unfold fval;
  destruct (extractFloat32Sign a), (extractFloat32Sign b); rewrite ?xorb_true_l, ?xorb_false_l; cbn [negb eqb orb andb];
  rewrite ?orb_true_iff, ?andb_true_iff, ?negb_true_iff, ?andb_false_iff, ?Z.eqb_eq, ?Z.eqb_neq, ?Z.ltb_lt, ?Z.leb_le, ?Z.ltb_ge.

Lemma word_ltb : extractFloat32Sign a = extractFloat32Sign b -> (a <? b) = (units a <? units b).
Proof.
  intros E. apply eq_bool_prop_intro. rewrite !Is_true_true, !Z.ltb_lt, (proj1 (units_compare a b)).
  rewrite (word_key a Ha) at 1. rewrite (word_key b Hb) at 1. rewrite E. unfold signed. lia.
Qed.

(** The comparisons of encodings compare the values. *)
Lemma equal32_spec : equal32 a b = (fval a =? fval b).
Proof.
  unfold equal32. rewrite both_zero_spec, same_word. pose proof (units_nonneg a). pose proof (units_nonneg b).
  compare; lia.
Qed.
Lemma below_eq32_spec : below_eq32 a b = (fval a <=? fval b).
Proof.
  unfold below_eq32. rewrite both_zero_spec, same_word. pose proof (units_nonneg a). pose proof (units_nonneg b).
  destruct (eqb (extractFloat32Sign a) (extractFloat32Sign b)) eqn:E.
  - rewrite word_ltb by by apply eqb_prop. apply eqb_prop in E. compare; try done; cbn; lia.
  - compare; try done; lia.
Qed.
Lemma below32_spec : below32 a b = (fval a <? fval b).
Proof.
  unfold below32. rewrite both_zero_spec, same_word. pose proof (units_nonneg a). pose proof (units_nonneg b).
  destruct (eqb (extractFloat32Sign a) (extractFloat32Sign b)) eqn:E.
  - rewrite word_ltb by by apply eqb_prop. apply eqb_prop in E. compare; try done; cbn; lia.
  - compare; try done; lia.
Qed.

(** A comparison of values that is false when one is a NaN; the invalid
    exception is raised for every NaN, or only for the signaling ones. *)
Definition ieee_compare (signals : bool) (f : Z -> Z -> bool) : bool * list Z :=
  if is_nan a || is_nan b
  then (false, if signals || float32_is_signaling_nan a || float32_is_signaling_nan b then [float_flag_invalid] else [])
  else (f (fval a) (fval b), []).

Lemma compares (r : bool) (f : Z -> Z -> bool) :
  r = f (fval a) (fval b) ->
  computes (if nan_exp_frac a || nan_exp_frac b then unordered_signals else ret r) σ (ieee_compare true f) /\
  computes (if nan_exp_frac a || nan_exp_frac b then unordered_quiet a b else ret r) σ (ieee_compare false f).
Proof.
  intros ->. unfold ieee_compare, computes. change nan_exp_frac with is_nan. destruct (is_nan a || is_nan b); [|done]. split; [done|].
  unfold unordered_quiet, bind, float_raise. by rewrite when_raise.
Qed.

Theorem float32_compares :
  computes (float32_eq a b) σ (ieee_compare false Z.eqb) /\
  computes (float32_le a b) σ (ieee_compare true Z.leb) /\
  computes (float32_lt a b) σ (ieee_compare true Z.ltb) /\
  computes (float32_eq_signaling a b) σ (ieee_compare true Z.eqb) /\
  computes (float32_le_quiet a b) σ (ieee_compare false Z.leb) /\
  computes (float32_lt_quiet a b) σ (ieee_compare false Z.ltb).
Proof.
  repeat split; apply compares; first [apply equal32_spec | apply below_eq32_spec | apply below32_spec].
Qed.
End Compare.

(** ** What correct rounding means *)

(** The value of a rounded result. *)
Lemma significand_bounds mode s n d :
  0 <= n -> 0 < d -> 0 <= last_bit n d /\
  0 <= rnd mode s n (d * 2 ^ last_bit n d) <= 2 ^ 24 /\
  (0 < last_bit n d -> 2 ^ 23 <= rnd mode s n (d * 2 ^ last_bit n d) /\ 2 ^ 23 * (d * 2 ^ last_bit n d) <= n).
Proof.
  intros Hn Hd. unfold last_bit. set (q := n / d). assert (0 <= q) by (apply Z.div_pos; lia).
  pose proof (Z.div_mod n d ltac:(lia)) as E. pose proof (Z.mod_pos_bound n d Hd). fold q in E.
  set (e := Z.max 0 (Z.log2 q - 23)). assert (0 < 2 ^ e) by lia. split; [lia|].
  assert (Hq : q < 2 ^ (24 + e)).
  { destruct (Z.eq_dec q 0) as [->|]; [lia|]. apply Z.log2_lt_pow2; lia. }
  rewrite Z.pow_add_r in Hq by lia.
  assert (Hlow : 0 < e -> 2 ^ 23 * (d * 2 ^ e) <= n).
  { intros He. assert (0 < q) by (destruct (Z.eq_dec q 0) as [Eq|]; [unfold e in He; rewrite Eq in He; cbn in He; lia | lia]).
    assert (2 ^ (23 + e) <= q) by (apply Z.log2_le_pow2; lia). rewrite Z.pow_add_r in H3 by lia. nia. }
  split; [split; [apply rnd_ge; nia | apply rnd_le; nia]|]. intros He. split; [apply rnd_ge; nia | by apply Hlow].
Qed.

Lemma round32_value mode s n d :
  0 <= n -> 0 < d -> magnitude mode s n d < inf_word ->
  let r := round32 mode s n d in
  fword r /\ extractFloat32Sign r = s /\ extractFloat32Exp r <> 255 /\
  units r = rnd mode s n (d * 2 ^ last_bit n d) * 2 ^ last_bit n d.
Proof.
  intros Hn Hd Hf r. destruct (significand_bounds mode s n d Hn Hd) as (He & Hm & Hl).
  unfold r, round32. rewrite (proj2 (Z.leb_gt inf_word _)) by done. unfold magnitude, inf_word in *.
  set (e := last_bit n d) in *. set (m := rnd mode s n (d * 2 ^ e)) in *.
  assert (Hw : exists x f, 0 <= x < 255 /\ 0 <= f < 2 ^ 23 /\ e * 2 ^ 23 + m = x * 2 ^ 23 + f /\
    (if x =? 0 then f else (2 ^ 23 + f) * 2 ^ (x - 1)) = m * 2 ^ e).
  { destruct (Z.lt_ge_cases m (2 ^ 23)) as [H1|H1].
    - assert (e = 0) as -> by lia. exists 0, m. cbn [Z.eqb]. rewrite Z.pow_0_r. lia.
    - destruct (Z.eq_dec m (2 ^ 24)) as [E|E].
      + exists (e + 2), 0. rewrite E in *. rewrite (proj2 (Z.eqb_neq (e + 2) 0)) by lia.
        replace (e + 2 - 1) with (e + 1) by lia. rewrite Z.pow_add_r by lia. lia.
      + exists (e + 1), (m - 2 ^ 23). rewrite (proj2 (Z.eqb_neq (e + 1) 0)) by lia.
        replace (e + 1 - 1) with e by lia. replace (2 ^ 23 + (m - 2 ^ 23)) with m by lia. lia. }
  destruct Hw as (x & f & Hx & Hf' & -> & <-).
  destruct (fields_word s x f ltac:(lia) Hf') as (? & ? & Ex & Ef). split; [done|]. split; [done|].
  unfold units. rewrite Ex, Ef. split; [lia|done].
Qed.

(** A finite number is a multiple of [2 ^ e], or below every number whose last
    bit is that one. *)
Lemma on_grid b e :
  0 <= e -> extractFloat32Exp b <> 255 -> (exists t, 0 <= t /\ units b = t * 2 ^ e) \/ (0 < e /\ units b < 2 ^ 23 * 2 ^ e).
Proof.
  intros He Hb. pose proof (frac_bounds b). pose proof (exp_bounds b). unfold units.
  destruct (Z.eqb_spec (extractFloat32Exp b) 0) as [E|E].
  - destruct (Z.eq_dec e 0) as [->|]; [left; exists (extractFloat32Frac b); lia | right].
    assert (1 <= 2 ^ e) by lia. nia.
  - destruct (Z.le_gt_cases e (extractFloat32Exp b - 1)).
    + left. exists ((2 ^ 23 + extractFloat32Frac b) * 2 ^ (extractFloat32Exp b - 1 - e)).
      rewrite <- Z.mul_assoc, <- Z.pow_add_r by lia. split; [assert (0 < 2 ^ (extractFloat32Exp b - 1 - e)) by lia; nia|].
      do 2 f_equal. lia.
    + right. split; [lia|].
      assert (2 * 2 ^ (extractFloat32Exp b - 1) <= 2 ^ e) by (rewrite <- Z.pow_succ_r by lia; apply Z.pow_le_mono_r; lia).
      assert (0 < 2 ^ (extractFloat32Exp b - 1)) by lia. nia.
Qed.

Lemma rnd_nearest s n d t :
  0 < d -> Z.abs (n - rnd float_round_nearest_even s n d * d) <= Z.abs (n - t * d) /\
  (Z.abs (n - rnd float_round_nearest_even s n d * d) = Z.abs (n - t * d) -> t <> rnd float_round_nearest_even s n d ->
   Z.even (rnd float_round_nearest_even s n d) = true).
Proof.
  intros Hd. pose proof (Z.div_mod n d ltac:(lia)) as E. pose proof (Z.mod_pos_bound n d Hd).
  unfold rnd, rounds_up. rewrite Z.eqb_refl. set (q := n / d) in *. set (r := n mod d) in *.
  destruct (Z.ltb_spec d (2 * r)); cbn [orb b2z].
  { assert (t <= q \/ q + 1 <= t) as [?|?] by lia; split; nia. }
  destruct (Z.eqb_spec (2 * r) d) as [Er|Er]; cbn [andb].
  2:{ cbn [b2z]. rewrite Z.add_0_r. assert (t <= q \/ q + 1 <= t) as [?|?] by lia; split; nia. }
  destruct (Z.odd q) eqn:Eo; cbn [b2z]; (split; [assert (t <= q \/ q + 1 <= t) as [?|?] by lia; nia|]); intros _ _.
  - by rewrite Z.even_add, <- Z.negb_odd, Eo.
  - by rewrite Z.add_0_r, <- Z.negb_odd, Eo.
Qed.

(** To nearest even: no finite number is nearer to the exact value, and of two
    equally near ones the result is the one whose last bit is 0. *)
Theorem round32_nearest s n d b :
  0 <= n -> 0 < d -> magnitude float_round_nearest_even s n d < inf_word -> extractFloat32Exp b <> 255 ->
  let r := round32 float_round_nearest_even s n d in
  Z.abs (n - units r * d) <= Z.abs (n - units b * d) /\
  (Z.abs (n - units r * d) = Z.abs (n - units b * d) -> units b <> units r -> Z.even r = true).
Proof.
  intros Hn Hd Hf Hb r. destruct (round32_value _ s n d Hn Hd Hf) as (_ & _ & _ & Er).
  destruct (significand_bounds float_round_nearest_even s n d Hn Hd) as (He & Hm & Hl).
  fold r in Er. rewrite Er. 
  assert (Ev : Z.even r = Z.even (rnd float_round_nearest_even s n (d * 2 ^ last_bit n d))).
  { unfold r, round32. rewrite (proj2 (Z.leb_gt inf_word _)) by done. unfold magnitude, signed.
    rewrite !Z.even_add, !Z.even_mul, !Z.even_pow by lia. cbn. rewrite !orb_true_r. cbn. by destruct (Z.even _). }
  rewrite Ev. set (e := last_bit n d) in *. set (m := rnd _ s n (d * 2 ^ e)) in *. assert (0 < 2 ^ e) by lia.
  assert (HD : 0 < d * 2 ^ e) by nia.
  destruct (on_grid b e He Hb) as [(t & Ht & ->)|[H0 Hlow]].
  - pose proof (rnd_nearest s n (d * 2 ^ e) t HD) as [H1 H2]. fold m in H1, H2.
    replace (m * 2 ^ e * d) with (m * (d * 2 ^ e)) by lia. replace (t * 2 ^ e * d) with (t * (d * 2 ^ e)) by lia.
    split; [done|]. intros Heq Hne. apply H2; [done|]. intros ->. lia.
  - pose proof (rnd_nearest s n (d * 2 ^ e) (2 ^ 23) HD) as [H1 _]. fold m in H1.
    destruct (Hl H0) as [_ Hl']. replace (m * 2 ^ e * d) with (m * (d * 2 ^ e)) by lia.
    assert (units b * d < 2 ^ 23 * (d * 2 ^ e)) by nia. split; lia.
Qed.

Lemma rnd_directed mode (s : bool) n d t :
  mode_ok mode -> mode <> float_round_nearest_even -> 0 < d ->
  if mode =? (if s then float_round_down else float_round_up)
  then n <= rnd mode s n d * d /\ (n <= t * d -> rnd mode s n d <= t)
  else rnd mode s n d * d <= n /\ (t * d <= n -> t <= rnd mode s n d).
Proof.
  intros Hm Hne Hd. pose proof (Z.div_mod n d ltac:(lia)) as E. pose proof (Z.mod_pos_bound n d Hd).
  unfold rnd, rounds_up. rewrite (proj2 (Z.eqb_neq mode _) Hne). set (q := n / d) in *. set (r := n mod d) in *.
  assert (Hc : mode = 1 \/ mode = 2 \/ mode = 3) by (unfold mode_ok, float_round_nearest_even in *; lia).
  destruct Hc as [->|[->| ->]], s; cbn; try (rewrite Z.add_0_r; split; nia);
    destruct (Z.ltb_spec 0 r); cbn [b2z]; split; nia.
Qed.

(** The directed modes: the result is on the side of the exact value that the
    mode asks for, and no finite number is closer on that side. *)
Theorem round32_directed mode (s : bool) n d b :
  mode_ok mode -> mode <> float_round_nearest_even ->
  0 <= n -> 0 < d -> magnitude mode s n d < inf_word -> extractFloat32Exp b <> 255 ->
  let r := round32 mode s n d in
  if mode =? (if s then float_round_down else float_round_up)
  then n <= units r * d /\ (n <= units b * d -> units r <= units b)
  else units r * d <= n /\ (units b * d <= n -> units b <= units r).
Proof.
  intros Hm Hne Hn Hd Hf Hb r. destruct (round32_value _ s n d Hn Hd Hf) as (_ & _ & _ & Er).
  destruct (significand_bounds mode s n d Hn Hd) as (He & _ & Hl).
  fold r in Er. rewrite Er. set (e := last_bit n d) in *. set (m := rnd mode s n (d * 2 ^ e)) in *. assert (0 < 2 ^ e) by lia.
  assert (HD : 0 < d * 2 ^ e) by nia. replace (m * 2 ^ e * d) with (m * (d * 2 ^ e)) by lia.
  destruct (on_grid b e He Hb) as [(t & Ht & ->)|[H0 Hlow]].
  - pose proof (rnd_directed mode s n (d * 2 ^ e) t Hm Hne HD) as H1. fold m in H1.
    replace (t * 2 ^ e * d) with (t * (d * 2 ^ e)) by lia.
    destruct (mode =? (if s then _ else _)); (split; [apply H1 | intros Hle; apply H1 in Hle; nia]).
  - pose proof (rnd_directed mode s n (d * 2 ^ e) 0 Hm Hne HD) as H1. fold m in H1.
    destruct (Hl H0) as [Hl1 Hl2]. assert (units b * d < 2 ^ 23 * (d * 2 ^ e)) by nia.
    destruct (mode =? (if s then _ else _)); (split; [apply H1 | intros; nia]).
Qed.
End FloatConv.
