(* ===== verification/FloatRem.v ===== *)
(** * The remainder of single-precision numbers *)

From S2P Require Export FloatConv Wide.

Module FloatRem.
Import Insnset Float32 FloatRound FloatArith FloatAdd FloatConv Wide.

(** ** The reference operation *)

(** The quotient is rounded to the nearest integer, to the even one at a tie;
    the remainder may be negative, and a zero has the sign of [a]. *)
Definition exact_rem (a b : Z) : Z :=
  units a - rnd float_round_nearest_even false (units a) (units b) * units b.
Definition ieee_rem (mode a b : Z) : Z * list Z :=
  let s := extractFloat32Sign a in
  if is_nan a || is_nan b then nan_result a b
  else if is_inf a || is_zero b then invalid_result
  else if is_inf b then (a, [])
  else if exact_rem a b =? 0 then zero s
  else rounded mode (xorb s (exact_rem a b <? 0)) (Z.abs (exact_rem a b)) 1.

(** ** Representable values are not rounded *)

Lemma last_bit_le n e : 0 <= n < 2 ^ (24 + e) -> 0 <= e -> last_bit n 1 <= e.
Proof.
  intros Hn He. unfold last_bit. rewrite Z.div_1_r. destruct (Z.eq_dec n 0) as [->|]; [cbn; lia|].
  assert (Z.log2 n < 24 + e) by (apply Z.log2_lt_pow2; lia). lia.
Qed.
Lemma round_representable mode s m e :
  0 <= m < 2 ^ 24 -> 0 <= e <= 253 ->
  let r := rounded mode s (m * 2 ^ e) 1 in
  snd r = [] /\ fword (fst r) /\ units (fst r) = m * 2 ^ e /\ extractFloat32Sign (fst r) = s /\
  extractFloat32Exp (fst r) <> 255.
Proof.
  intros Hm He r. set (n := m * 2 ^ e). assert (0 < 2 ^ e) by lia.
  assert (Hn : 0 <= n < 2 ^ (24 + e)) by (rewrite Z.pow_add_r by lia; unfold n; nia).
  pose proof (last_bit_le n e Hn (proj1 He)) as Hl. destruct (significand_bounds mode s n 1 (proj1 Hn) ltac:(lia)) as (H0 & Hs & _).
  set (l := last_bit n 1) in *. assert (En : n = m * 2 ^ (e - l) * 2 ^ l) by (rewrite <- Z.mul_assoc, <- Z.pow_add_r by lia; unfold n; do 2 f_equal; lia).
  assert (Er : rnd mode s n (1 * 2 ^ l) = m * 2 ^ (e - l)) by (rewrite En, Z.mul_1_l; apply rnd_multiple; lia).
  assert (Ex : inexact n 1 = false).
  { unfold inexact. fold l. rewrite Z.mul_1_l, En, Z.mod_mul by lia. done. }
  assert (Hf : magnitude mode s n 1 < inf_word).
  { unfold magnitude, inf_word. fold l. rewrite Er in *.
    assert (m * 2 ^ (e - l) < 2 ^ 24 \/ l < e \/ l = e) as [?|[?|E]] by lia; [lia|lia|].
    rewrite E, Z.sub_diag, Z.pow_0_r, Z.mul_1_r. lia. }
  destruct (round32_value mode s n 1 (proj1 Hn) ltac:(lia) Hf) as (Hw & Es & He' & Eu). fold l in Eu.
  unfold r, rounded, round32_raises. cbn [fst snd]. fold n.
  rewrite (proj2 (Z.leb_gt inf_word _)) by done. rewrite Ex. split; [done|]. split; [done|]. split; [|done]. rewrite Eu, Er. lia.
Qed.

(** A finite number rounds to itself. *)
Lemma word_unique a b :
  fword a -> fword b -> extractFloat32Sign a = extractFloat32Sign b -> units a = units b -> a = b.
Proof.
  intros Ha Hb Es Eu. rewrite (word_key a Ha), (word_key b Hb). rewrite Es. f_equal. by apply units_compare.
Qed.
Lemma round_word mode a :
  fword a -> extractFloat32Exp a <> 255 -> rounded mode (extractFloat32Sign a) (units a) 1 = (a, []).
Proof.
  intros Ha Ea. pose proof (exp_bounds a). destruct (sig_bounds a) as [Hs _].
  pose proof (round_representable mode (extractFloat32Sign a) (sig a) (sig_exp a - 1) Hs ltac:(unfold sig_exp; lia)) as Hr.
  rewrite <- sig_units in Hr. destruct Hr as (E1 & E0 & E2 & E3 & E4).
  rewrite (surjective_pairing (rounded _ _ _ _)), E1. f_equal. by apply word_unique.
Qed.

(** ** The loop that settles the quotient *)

Section Rem.
Context (σ : Sim) (b' : Z).
Hypothesis (Hm : mode_ok (σ Float_rounding_mode)) (Hb' : 0 < b' < 2 ^ 30).

Lemma settle_ok fuel x q :
  0 <= x < 3 * b' -> x / b' <= Z.of_nat fuel ->
  rem_settle fuel x b' q σ = Ok (x mod b', u32 (x mod b' - b'), u32 (q + (x / b' + 1))) σ.
Proof.
  revert x q. induction fuel as [|fuel IH]; intros x q Hx Hf; cbn [rem_settle].
  all: assert (Es : (0 <=? s32 (u32 (x - b'))) = (b' <=? x))
    by (rewrite s32_u32, s32_small by lia; apply eq_bool_prop_intro; rewrite !Is_true_true, !Z.leb_le; lia).
  all: rewrite Es; destruct (Z.leb_spec b' x) as [Hl|Hl].
  - assert (1 <= x / b') by (apply Z.div_le_lower_bound; lia). lia.
  - rewrite Z.mod_small, Z.div_small by lia. done.
  - assert (Ed : (x - b') / b' = x / b' - 1 /\ (x - b') mod b' = x mod b').
    { replace (x - b') with (x + -1 * b') by lia. rewrite Z.div_add, Z.mod_add by lia. lia. }
    destruct Ed as [Ed Em]. rewrite (u32_small (x - b')), IH, Ed, Em by lia. do 2 f_equal.
    rewrite (u32_eq (u32 (q + 1) + _)), (u32_eq (q + 1)), Zplus_mod_idemp_l, <- u32_eq. f_equal. lia.
  - rewrite Z.mod_small, Z.div_small by lia. done.
Qed.

(** The choice between the two remainders, and the result. *)
Lemma finish_ok sa bExp x q X qt n :
  0 <= x < 3 * b' -> X = qt * b' + x -> Z.odd q = Z.odd qt -> -22 <= bExp <= 254 ->
  let ρ := X - rnd float_round_nearest_even false X b' * b' in
  n * 2 ^ 29 = Z.abs ρ * 2 ^ (bExp + 22) ->
  computes (rem_finish sa bExp x b' q) σ
    (if ρ =? 0 then zero sa else rounded (σ Float_rounding_mode) (xorb sa (ρ <? 0)) n 1).
Proof.
  intros Hx EX Eo He ρ En. unfold rem_finish.
  assert (H3 : x / b' < 3) by (apply Z.div_lt_upper_bound; lia).
  apply (computes_bind _ _ (x mod b', u32 (x mod b' - b'), u32 (q + (x / b' + 1)))); [apply settle_ok; lia|].
  pose proof (Z.mod_pos_bound x b' ltac:(lia)) as Hr. set (r := x mod b') in *. set (k := x / b') in *.
  assert (Ek : x = b' * k + r) by (apply Z.div_mod; lia).
  assert (E1 : X / b' = qt + k /\ X mod b' = r).
  { split; symmetry; [apply Z.div_unique with r | apply Z.mod_unique with (qt + k)]; lia. }
  destruct E1 as [Ed Em].
  assert (Eρ : ρ = if (b' <? 2 * r) || ((2 * r =? b') && Z.odd (qt + k)) then r - b' else r).
  { unfold ρ, rnd, rounds_up. rewrite Ed, Em, Z.eqb_refl. destruct (_ || _); cbn [b2z]; lia. }
  assert (Es : s32 (u32 (r - b') + r) = 2 * r - b').
  { rewrite <- s32_u32, u32_eq, (u32_eq (r - b')), Zplus_mod_idemp_l, <- u32_eq, s32_u32, s32_small by lia. lia. }
  rewrite Es.
  assert (Eodd : nz (Z.land (u32 (q + (k + 1))) 1) = negb (Z.odd (qt + k))).
  { change 1 with (2 ^ 0) at 2. rewrite nz_land_bit, testbit_u32, Z.bit0_odd, andb_true_r by lia.
    rewrite !Z.odd_add, Eo. cbn. by destruct (Z.odd qt), (Z.odd k). }
  rewrite Eodd.
  assert (Ec : (if (2 * r - b' <? 0) || ((2 * r - b' =? 0) && negb (Z.odd (qt + k))) then r else u32 (r - b')) = u32 ρ).
  { rewrite Eρ. destruct (Z.ltb_spec (2 * r - b') 0), (Z.ltb_spec b' (2 * r)), (Z.eqb_spec (2 * r) b'), (Z.eqb_spec (2 * r - b') 0);
      try lia; cbn [orb andb]; rewrite ?(u32_small r) by lia; try done. by destruct (Z.odd (qt + k)); cbn [negb]; rewrite ?(u32_small r) by lia. }
  rewrite Ec. assert (Hρ : - 2 ^ 30 < ρ < 2 ^ 30) by (rewrite Eρ; destruct (_ || _); lia).
  rewrite s32_u32, (s32_small ρ) by lia.
  assert (Ea : (if ρ <? 0 then u32 (- u32 ρ) else u32 ρ) = Z.abs ρ).
  { destruct (Z.ltb_spec ρ 0).
    - rewrite u32_eq, (u32_eq ρ). rewrite <- (Z.mod_unique ρ (2 ^ 32) (-1) (ρ + 2 ^ 32)) by lia.
      symmetry. apply Z.mod_unique with (-1); lia.
    - rewrite u32_small; lia. }
  rewrite Ea. clear Eρ Ec Ea. destruct (Z.eqb_spec ρ 0) as [E0|E0].
  { rewrite E0. cbn [Z.ltb Z.compare Z.abs]. rewrite xorb_false_r. apply normalize_zero; [done|lia]. }
  eapply eq_trans; [apply (normalize_exact _ (Z.abs ρ) bExp n); [done|lia|lia|exact En]|done].
Qed.
End Rem.

(** ** The partial remainder *)

Lemma div_run {A} x y (k : Z -> M A) σ : y <> 0 -> bind (div_bits x y) k σ = k (x / y) σ.
Proof. intros. unfold bind, div_bits. by rewrite (proj2 (Z.eqb_neq y 0)). Qed.
Lemma shr_run {A} t x n (k : Z -> M A) σ : 0 <= n < width t -> bind (shr_bits t x n) k σ = k (x / 2 ^ n) σ.
Proof.
  intros. unfold bind, shr_bits. rewrite (proj2 (Z.leb_le 0 n)), (proj2 (Z.ltb_lt n _)) by lia.
  by rewrite Z.shiftr_div_pow2 by lia.
Qed.
Lemma shl_run {A} t x n (k : Z -> M A) σ : 0 <= n < width t -> bind (shl_bits t x n) k σ = k (wrap t (x * 2 ^ n)) σ.
Proof.
  intros. unfold bind, shl_bits. rewrite (proj2 (Z.leb_le 0 n)), (proj2 (Z.ltb_lt n _)) by lia.
  by rewrite Z.shiftl_mul_pow2 by lia.
Qed.
Lemma u32_sub_u32 x y : u32 (u32 x - u32 y) = u32 (x - y).
Proof. by rewrite !u32_eq, <- Zminus_mod. Qed.
Lemma u32_mod_small x y : 0 <= y < 2 ^ 32 -> (exists k, x = k * 2 ^ 32 + y) -> u32 x = y.
Proof. intros Hy [k ->]. rewrite u32_eq, Z.add_comm, Z.mod_add by lia. by apply Z.mod_small. Qed.


Section Partial.
Context (σ : Sim) (ma mb : Z).
Hypothesis (Hma : 2 ^ 23 <= ma < 2 ^ 24) (Hmb : 2 ^ 23 <= mb < 2 ^ 24).

(** What the two ways to it compute: the scaled dividend [X] is a multiple of
    the scaled divisor, whose parity is that of [q], plus [x]. *)
Definition partial (X bound : Z) (m : M (Z * Z * Z)) : Prop :=
  exists x q qt, m σ = Ok (x, mb * 2 ^ 6, q) σ /\ X = qt * (mb * 2 ^ 6) + x /\ Z.odd q = Z.odd qt /\
    0 <= x < bound * (mb * 2 ^ 6).

Lemma short_ok D :
  0 <= D < 32 -> partial (ma * 2 ^ D * 2 ^ 6) 1 (rem_short (ma * 2 ^ 8) (mb * 2 ^ 8) D).
Proof.
  intros HD. unfold rem_short, partial. set (q1 := b2z _). set (A := ma - q1 * mb).
  assert (HA : 0 <= A < mb /\ (if nz q1 then ma * 2 ^ 8 - mb * 2 ^ 8 else ma * 2 ^ 8) = A * 2 ^ 8).
  { unfold A, q1. destruct (Z.leb_spec (mb * 2 ^ 8) (ma * 2 ^ 8)); cbn; lia. }
  destruct HA as [HA EA]. cbv zeta. rewrite EA.
  assert (Eb : mb * 2 ^ 8 / 2 ^ 2 = mb * 2 ^ 6) by (symmetry; apply Z.div_unique with 0; lia).
  destruct (Z.ltb_spec 0 D) as [H0|H0].
  - set (q := A * 2 ^ D / mb). assert (0 < 2 ^ D) by lia.
    assert (Hq : A * 2 ^ D = mb * q + A * 2 ^ D mod mb) by (apply Z.div_mod; lia).
    pose proof (Z.mod_pos_bound (A * 2 ^ D) mb ltac:(lia)) as Hr. set (r := A * 2 ^ D mod mb) in *.
    exists (r * 2 ^ 6), q, (q1 * 2 ^ D + q).
    split; [|split; [|split; [|lia]]].
    + assert (Eq : A * 2 ^ 8 * 2 ^ 32 / (mb * 2 ^ 8) / 2 ^ (32 - D) = q).
      { rewrite Z.div_div by lia. unfold q. replace (A * 2 ^ 8 * 2 ^ 32) with (A * 2 ^ D * (2 ^ 8 * 2 ^ (32 - D))).
        2:{ replace (2 ^ 32) with (2 ^ D * 2 ^ (32 - D)) by (rewrite <- Z.pow_add_r by lia; f_equal; lia). lia. }
        replace (mb * 2 ^ 8 * 2 ^ (32 - D)) with (mb * (2 ^ 8 * 2 ^ (32 - D))) by lia. apply Z.div_mul_cancel_r; lia. }
      assert (Hq32 : 0 <= A * 2 ^ 8 * 2 ^ 32 / (mb * 2 ^ 8) < 2 ^ 32)
        by (split; [apply Z.div_pos; lia | apply Z.div_lt_upper_bound; lia]).
      rewrite !Z.shiftl_mul_pow2, u64_small by (unfold B; lia).
      rewrite (div_run _ (mb * 2 ^ 8)), (shr_run U32 _ (32 - D)), shl_run by (cbn [width]; lia).
      rewrite (u32_small (_ / _)), Eq, !Z.shiftr_div_pow2, Eb by lia.
      replace (A * 2 ^ 8 / 2 ^ 1) with (A * 2 ^ 7) by (apply Z.div_unique with 0; lia).
      unfold ret. do 3 f_equal. rewrite u32_sub_u32. apply u32_mod_small; [lia|].
      replace (A * 2 ^ 7 * 2 ^ (D - 1)) with (A * 2 ^ D * 2 ^ 6).
      2:{ replace (2 ^ D) with (2 * 2 ^ (D - 1)) by (rewrite <- Z.pow_succ_r by lia; f_equal; lia). lia. }
      exists 0. lia.
    + unfold A in Hq. lia.
    + rewrite Z.odd_add, Z.odd_mul, Z.odd_pow by lia. cbn. by rewrite andb_false_r.
  - assert (D = 0) as -> by lia. exists (A * 2 ^ 6), q1, q1.
    split; [|split; [unfold A; lia | split; [done | lia]]].
    rewrite !Z.shiftr_div_pow2, Eb by lia. unfold ret. do 3 f_equal. symmetry. apply Z.div_unique with 0; lia.
Qed.
(** The dividend is less than the divisor: its significand was halved. *)
Lemma shorter_ok : partial (ma * 2 ^ 5) 1 (rem_short (Z.shiftr (ma * 2 ^ 8) 1) (mb * 2 ^ 8) (-1)).
Proof.
  unfold rem_short, partial. rewrite !Z.shiftr_div_pow2 by lia.
  replace (ma * 2 ^ 8 / 2 ^ 1) with (ma * 2 ^ 7) by (apply Z.div_unique with 0; lia).
  rewrite (proj2 (Z.leb_gt (mb * 2 ^ 8) (ma * 2 ^ 7))) by lia. cbn [b2z nz Z.eqb negb Z.ltb Z.compare].
  exists (ma * 2 ^ 5), 0, 0. split; [|split; [lia | split; [done | lia]]]. unfold ret. do 3 f_equal.
  - symmetry. apply Z.div_unique with 0; lia.
  - symmetry. apply Z.div_unique with 0; lia.
Qed.

(** Long differences of exponents: 62 bits of the quotient a round. *)
Let β := mb * 2 ^ 40.

Lemma quotient_ok α :
  0 <= α < β -> exists q64, rem_quotient α β σ = Ok q64 σ /\ 0 <= q64 < 2 ^ 64 /\ 0 <= α * 2 ^ 64 - β * q64 < 3 * β.
Proof.
  intros Hα. destruct (estimate_bounds α 0 β σ) as (q & Eq & Hq & Hr); [unfold β; lia | done | done |].
  unfold rem_quotient, bind. rewrite Eq. eexists. split; [done|].
  rewrite Z.add_0_r in Hq. change B with (2 ^ 64) in Hq.
  assert (0 <= α * 2 ^ 64 / β) by (apply Z.div_pos; unfold β in *; lia).
  pose proof (Z.div_mod (α * 2 ^ 64) β ltac:(unfold β; lia)). pose proof (Z.mod_pos_bound (α * 2 ^ 64) β ltac:(unfold β; lia)).
  set (Q := α * 2 ^ 64 / β) in *. destruct (Z.ltb_spec 2 q); (split; [lia|]); nia.
Qed.

Lemma reduce_step α q64 :
  (2 ^ 38 | α) -> 0 <= α * 2 ^ 64 - β * q64 < 3 * β ->
  u64 (- u64 (Z.shiftl (u64 (mb * q64)) 38)) = α * 2 ^ 62 - mb * 2 ^ 38 * q64.
Proof.
  intros [α' Eα] Hρ. rewrite Z.shiftl_mul_pow2 by lia.
  assert (Hlo : 0 <= α * 2 ^ 62 - mb * 2 ^ 38 * q64 < 2 ^ 64) by (unfold β in *; lia).
  rewrite (u64_eq (mb * q64)), (u64_eq (_ * 2 ^ 38)). set (k1 := mb * q64 / B). set (k2 := _ / B).
  change (u64 ?x) with (x mod 2 ^ 64). symmetry. unfold B.
  apply Z.mod_unique with (k1 * 2 ^ 38 + k2 - α' * 2 ^ 36); [left; exact Hlo | rewrite Eα; lia].
Qed.

Lemma reduce_ok fuel α e :
  0 <= α < β -> (2 ^ 38 | α) -> -62 < e <= 62 * Z.of_nat fuel ->
  exists α2 e2 t, rem_reduce fuel mb β α e σ = Ok (α2, e2) σ /\ -62 < e2 <= 0 /\ 0 <= α2 < β /\ (2 ^ 38 | α2) /\
    α * 2 ^ (e + 64) = α2 * 2 ^ (e2 + 64) + 2 * t * β.
Proof.
  revert α e. induction fuel as [|fuel IH]; intros α e Hα Hd He; cbn [rem_reduce];
    destruct (Z.ltb_spec 0 e) as [H0|H0]; try lia; try (exists α, e, 0; split; [done|]; split; [lia|]; by repeat split; try lia).
  destruct (quotient_ok α Hα) as (q64 & Eq & Hq & Hρ). unfold bind. rewrite Eq, (reduce_step α) by done.
  set (α1 := α * 2 ^ 62 - mb * 2 ^ 38 * q64).
  assert (Hd1 : (2 ^ 38 | α1)).
  { destruct Hd as [α' ->]. exists (α' * 2 ^ 62 - mb * q64). unfold α1. lia. }
  destruct (IH α1 (e - 62)) as (α2 & e2 & t & Er & He2 & Hα2 & Hd2 & Et); [unfold α1, β in *; lia | done | lia |].
  exists α2, e2, (t + q64 * 2 ^ (e - 1)). split; [exact Er|]. split; [done|]. split; [done|]. split; [done|].
  replace (2 ^ (e + 64)) with (2 ^ 62 * 2 ^ (e - 62 + 64)) by (rewrite <- Z.pow_add_r by lia; f_equal; lia).
  replace (α * (2 ^ 62 * 2 ^ (e - 62 + 64))) with (α1 * 2 ^ (e - 62 + 64) + mb * 2 ^ 38 * q64 * 2 ^ (e - 62 + 64)) by (unfold α1; lia).
  rewrite Et. replace (2 ^ (e - 62 + 64)) with (2 ^ 3 * 2 ^ (e - 1)) by (rewrite <- Z.pow_add_r by lia; f_equal; lia).
  unfold β. lia.
Qed.

(** The last round keeps as many bits of the quotient as remain. *)
Lemma last_round D α q64 :
  0 < D <= 64 -> (2 ^ 38 | α) -> 0 <= α < β -> 0 <= q64 -> 0 <= α * 2 ^ 64 - β * q64 < 3 * β ->
  let q := q64 / 2 ^ (64 - D) in
  exists x, α * 2 ^ D = (mb * 2 ^ 6 * q + x) * 2 ^ 34 /\ 0 <= x < 3 * (mb * 2 ^ 6) /\
    u32 (u64 (α / 2 ^ 33 * 2 ^ (D - 1)) - u32 (u32 (mb * 2 ^ 6) * u32 q)) = x.
Proof.
  intros HD [α' Eα] Hα Hq Hρ q. set (s := 2 ^ (64 - D)) in *. assert (Hs : 0 < s) by (unfold s; lia).
  pose proof (Z.div_mod q64 s ltac:(lia)) as Eq. pose proof (Z.mod_pos_bound q64 s Hs). fold q in Eq.
  assert (E64 : 2 ^ 64 = 2 ^ D * s) by (unfold s; rewrite <- Z.pow_add_r by lia; f_equal; lia).
  exists (α' * 2 ^ 4 * 2 ^ D - mb * 2 ^ 6 * q).
  assert (Ex : α * 2 ^ D - β * q = (α' * 2 ^ 4 * 2 ^ D - mb * 2 ^ 6 * q) * 2 ^ 34) by (rewrite Eα; unfold β; lia).
  assert (Hβ : 0 < β) by (unfold β; lia).
  assert (Hx : 0 <= α * 2 ^ D - β * q < 3 * β).
  { rewrite E64 in Hρ. split; apply Z.mul_le_mono_pos_r with s || apply Z.mul_lt_mono_pos_r with s; nia. }
  assert (Hb : 0 <= α' * 2 ^ 4 * 2 ^ D - mb * 2 ^ 6 * q < 3 * (mb * 2 ^ 6)) by (unfold β in Hx; lia).
  split; [lia|]. split; [done|].
  assert (Ea : α / 2 ^ 33 * 2 ^ (D - 1) = α' * 2 ^ 4 * 2 ^ D).
  { replace (α / 2 ^ 33) with (α' * 2 ^ 5) by (apply Z.div_unique with 0; lia).
    replace (2 ^ D) with (2 * 2 ^ (D - 1)) by (rewrite <- Z.pow_succ_r by lia; f_equal; lia). lia. }
  rewrite Ea. apply u32_mod_small; [lia|].
  rewrite (u64_eq (α' * 2 ^ 4 * 2 ^ D)), (u32_small (mb * 2 ^ 6)) by lia.
  rewrite !u32_eq, (Z.mod_eq q), (Z.mod_eq (mb * 2 ^ 6 * _)) by lia. unfold B.
  set (k1 := _ / 2 ^ 64). set (k2 := q / 2 ^ 32). set (k3 := _ / 2 ^ 32).
  exists (- k1 * 2 ^ 32 + mb * 2 ^ 6 * k2 + k3). lia.
Qed.

Lemma long_ok D :
  32 <= D <= 276 -> partial (ma * 2 ^ D * 2 ^ 6) 3 (rem_long ma mb D).
Proof.
  intros HD. unfold rem_long, partial. set (q1 := b2z (mb <=? ma)). set (A := ma - q1 * mb).
  assert (HA : 0 <= A < mb /\ (if mb <=? ma then ma - mb else ma) = A).
  { unfold A, q1. destruct (Z.leb_spec mb ma); cbn [b2z]; lia. }
  destruct HA as [HA ->]. cbv zeta. rewrite !Z.shiftl_mul_pow2, !u64_small by (unfold B; lia). fold β.
  destruct (reduce_ok 4 (A * 2 ^ 40) (D - 64)) as (α & e & t & Er & He & Hα & Hd & Et);
    [unfold β; lia | exists (A * 2 ^ 2); lia | lia |].
  unfold bind at 1. rewrite Er. destruct (quotient_ok α Hα) as (q64 & Eq & Hq & Hρ).
  unfold bind at 1. rewrite Eq.
  destruct (last_round (e + 64) α q64 ltac:(lia) Hd Hα (proj1 Hq) Hρ) as (x & Ex & Hx & Erun).
  rewrite (shr_run U64 _ (64 - (e + 64))), shl_run, Z.shiftr_div_pow2, Erun by (cbn [width]; lia).
  set (q := q64 / 2 ^ (64 - (e + 64))) in *.
  exists x, (u32 q), (q1 * 2 ^ D + 2 * t + q). split; [|split; [|split; [|done]]].
  - unfold ret. rewrite (u32_small (mb * 2 ^ 6)) by lia. done.
  - apply Z.mul_reg_r with (2 ^ 34); [lia|]. replace (D - 64 + 64) with D in Et by lia.
    replace (ma * 2 ^ D * 2 ^ 6 * 2 ^ 34) with (A * 2 ^ 40 * 2 ^ D + q1 * 2 ^ D * β) by (unfold A, β; lia).
    rewrite Et, Ex. unfold β. lia.
  - rewrite !Z.odd_add, !Z.odd_mul, Z.odd_pow by lia. cbn. rewrite andb_false_r. cbn.
    rewrite <- !Z.bit0_odd, testbit_u32 by lia. by rewrite andb_true_r.
Qed.
End Partial.

(** ** The remainder *)

Lemma scaled_rem a b ea ma eb mb X :
  normal_form a ea ma -> normal_form b eb mb -> X * 2 ^ (eb + 22) = ma * 2 ^ 6 * 2 ^ (ea + 22) ->
  let ρ := X - rnd float_round_nearest_even false X (mb * 2 ^ 6) * (mb * 2 ^ 6) in
  exact_rem a b * 2 ^ 29 = ρ * 2 ^ (eb + 22).
Proof.
  intros (Hea & Hma & Ea) Fb EX ρ. pose proof (normal_form_pos _ _ _ Fb) as Hub. destruct Fb as (Heb & Hmb & Eb).
  assert (Ec : units a * (mb * 2 ^ 6) = X * units b).
  { apply Z.mul_reg_r with (2 ^ 23); [lia|].
    replace (units a * (mb * 2 ^ 6) * 2 ^ 23) with (units a * 2 ^ 23 * (mb * 2 ^ 6)) by lia.
    replace (X * units b * 2 ^ 23) with (X * (units b * 2 ^ 23)) by lia. rewrite Ea, Eb.
    replace (X * (mb * 2 ^ (eb + 22))) with (mb * (X * 2 ^ (eb + 22))) by lia. rewrite EX. lia. }
  unfold exact_rem, ρ. rewrite (rnd_ext _ _ (units a) (units b) X (mb * 2 ^ 6)) by lia.
  set (R := rnd _ _ X _). apply Z.mul_reg_r with mb; [lia|].
  replace ((units a - R * units b) * 2 ^ 29 * mb) with ((units a * (mb * 2 ^ 6) - R * units b * (mb * 2 ^ 6)) * 2 ^ 23) by lia.
  rewrite Ec. replace ((X * units b - R * units b * (mb * 2 ^ 6)) * 2 ^ 23) with ((X - R * (mb * 2 ^ 6)) * (units b * 2 ^ 23)) by lia.
  rewrite Eb. lia.
Qed.

(** The last part of the function, once a quotient has been found. *)
Lemma partial_finishes a b ea ma eb mb X bound m (σ : Sim) :
  mode_ok (σ Float_rounding_mode) -> normal_form a ea ma -> normal_form b eb mb ->
  X * 2 ^ (eb + 22) = ma * 2 ^ 6 * 2 ^ (ea + 22) -> bound <= 3 -> partial σ mb X bound m ->
  computes (r ← m; let '(aSig, bSig, q) := r in rem_finish (extractFloat32Sign a) eb aSig bSig q) σ
    (if exact_rem a b =? 0 then zero (extractFloat32Sign a)
     else rounded (σ Float_rounding_mode) (xorb (extractFloat32Sign a) (exact_rem a b <? 0)) (Z.abs (exact_rem a b)) 1).
Proof.
  intros Hm Fa Fb EX Hbound (x & q & qt & Em & Ex & Eo & Hx).
  pose proof (scaled_rem a b ea ma eb mb X Fa Fb EX) as Er. cbv zeta in Er. destruct Fb as (Heb & Hmb & _).
  apply (computes_bind _ _ (x, mb * 2 ^ 6, q)); [done|]. cbv beta iota.
  set (ρ := X - _ * (mb * 2 ^ 6)) in Er. assert (0 < 2 ^ (eb + 22)) by lia.
  replace (exact_rem a b =? 0) with (ρ =? 0)
    by (apply eq_bool_prop_intro; rewrite !Is_true_true, !Z.eqb_eq; nia).
  replace (exact_rem a b <? 0) with (ρ <? 0)
    by (apply eq_bool_prop_intro; rewrite !Is_true_true, !Z.ltb_lt; nia).
  apply (finish_ok σ (mb * 2 ^ 6) Hm ltac:(lia) _ eb x q X qt); [nia | done | done | lia |].
  fold ρ. destruct (Z.abs_spec (exact_rem a b)) as [[? ->]|[? ->]], (Z.abs_spec ρ) as [[? ->]|[? ->]]; nia.
Qed.

Lemma small_rem a b : 0 <= units a -> 2 * units a < units b -> exact_rem a b = units a.
Proof.
  intros. unfold exact_rem, rnd, rounds_up. rewrite Z.div_small, Z.mod_small, Z.eqb_refl by lia.
  rewrite (proj2 (Z.ltb_ge (units b) _)), (proj2 (Z.eqb_neq _ (units b))) by lia. cbn. lia.
Qed.

(** The remainder is that of IEEE 754. *)
Theorem float32_rem_ieee a b (σ : Sim) :
  fword a -> fword b -> mode_ok (σ Float_rounding_mode) ->
  computes (float32_rem a b) σ (ieee_rem (σ Float_rounding_mode) a b).
Proof.
  intros Ha Hb Hm. unfold float32_rem, ieee_rem. set (s := extractFloat32Sign a).
  destruct (Z.eqb_spec (extractFloat32Exp a) 255) as [Ea|Ea].
  { destruct (special_class a Ea) as (Na & Ia & _). rewrite Ia, <- Na.
    change ((extractFloat32Exp b =? 255) && nz (extractFloat32Frac b)) with (is_nan b).
    destruct (is_nan a || is_nan b) eqn:En; [by apply propagate_computes|].
    apply orb_false_iff in En as [-> _]. apply invalid_computes. }
  destruct (finite_class a Ea) as (Na & Ia & Za). rewrite Na, Ia.
  destruct (Z.eqb_spec (extractFloat32Exp b) 255) as [Eb|Eb].
  { destruct (special_class b Eb) as (Nb & Ib & Zb). rewrite Ib, <- Nb, Zb. cbn [orb].
    destruct (is_nan b) eqn:En; [apply propagate_computes; by rewrite ?En, ?orb_true_r | apply ret_computes]. }
  destruct (finite_class b Eb) as (Nb & Ib & Zb). rewrite Nb, Ib, Zb. cbn [orb].
  apply normalized_computes; [done| |intros eb mb m0' Fb Lb].
  { intros ->. rewrite Z.eqb_refl. apply invalid_computes. }
  pose proof (normal_form_pos _ _ _ Fb) as Ub. rewrite (proj2 (Z.eqb_neq (units b) 0)) by lia.
  apply normalized_computes; [done| |intros ea ma m0 Fa La].
  { intros E0. rewrite small_rem, E0, Z.eqb_refl by lia. unfold zero.
    rewrite (word_key a Ha) at 1. apply units_zero in E0. rewrite E0. apply ret_computes. }
  cbv zeta. rewrite La, Lb. pose proof Fa as (Hea & Hma & Ua). pose proof Fb as (Heb & Hmb & Ub').
  destruct (Z.ltb_spec (ea - eb) 32) as [Hs|Hl].
  2:{ apply (partial_finishes a b ea ma eb mb (ma * 2 ^ (ea - eb) * 2 ^ 6) 3); try done.
      - replace (2 ^ (ea + 22)) with (2 ^ (ea - eb) * 2 ^ (eb + 22)) by (rewrite <- Z.pow_add_r by lia; f_equal; lia). lia.
      - apply long_ok; lia. }
  rewrite !significand_shl by lia. destruct (Z.ltb_spec (ea - eb) (-1)) as [H1|H1].
  - assert (Hlt : 2 * units a < units b).
    { assert (4 * 2 ^ (ea + 22) <= 2 ^ (eb + 22)) by (change 4 with (2 ^ 2); rewrite <- Z.pow_add_r by lia; apply Z.pow_le_mono_r; lia).
      assert (0 < 2 ^ (ea + 22)) by lia. nia. }
    pose proof (normal_form_pos _ _ _ Fa). rewrite small_rem by lia.
    rewrite (proj2 (Z.eqb_neq _ 0)), (proj2 (Z.ltb_ge _ 0)), xorb_false_r, Z.abs_eq by lia.
    unfold s. rewrite round_word by done. apply ret_computes.
  - destruct (Z.ltb_spec (ea - eb) 0) as [H0|H0].
    + assert (ea - eb = -1) as -> by lia. apply (partial_finishes a b ea ma eb mb (ma * 2 ^ 5) 1); try done.
      * replace (2 ^ (eb + 22)) with (2 * 2 ^ (ea + 22)) by (rewrite <- Z.pow_succ_r by lia; f_equal; lia). lia.
      * by apply shorter_ok.
    + apply (partial_finishes a b ea ma eb mb (ma * 2 ^ (ea - eb) * 2 ^ 6) 1); try done.
      * replace (2 ^ (ea + 22)) with (2 ^ (ea - eb) * 2 ^ (eb + 22)) by (rewrite <- Z.pow_add_r by lia; f_equal; lia). lia.
      * apply short_ok; lia.
Qed.
End FloatRem.
