(* ===== verification/Sbuf.v ===== *)
(** * The store buffer

    The circular buffer of [sbuf_store] and [sbuf_load] (cpu/or32/execute.c)
    implements a queue of stores, each with the cycles it still takes. *)

From S2P Require Export Insnset.

#[global] Open Scope Z_scope.

Module Sbuf.
Import Insnset.

(** ** The queue *)

(** The stores done in [delta] cycles leave; the first of the others is partly
    done. *)
Fixpoint absorb (delta : Z) (q : list Z) : list Z :=
  match q with
  | [] => []
  | c :: q => if c <=? delta then absorb (delta - c) q else c - delta :: q
  end.
(** A store: when the buffer is full the processor waits for the oldest. *)
Definition store_waits (len delta : Z) (q : list Z) : Z :=
  match absorb delta q with
  | c :: q' => if len <=? Z.of_nat (length (c :: q')) then c else 0
  | [] => 0
  end.
Definition store_queue (len delta cyc : Z) (q : list Z) : list Z :=
  match absorb delta q with
  | c :: q' => (if len <=? Z.of_nat (length (c :: q')) then q' else c :: q') ++ [cyc]
  | [] => [cyc]
  end.
(** A load waits for all stores. *)
Definition load_waits (delta : Z) (q : list Z) : Z := foldr Z.add 0 (absorb delta q).

(** ** The buffer represents a queue *)

Definition slot (t i : Z) : Z := (t + i) mod MAX_SBUF_LEN.
Record holds (q : list Z) (s : Sim) : Prop := {
  h_tail : 0 <= s Sbuf_tail < MAX_SBUF_LEN;
  h_count : s Sbuf_count = Z.of_nat (length q);
  h_len : Z.of_nat (length q) <= MAX_SBUF_LEN;
  h_head : s Sbuf_head = slot (s Sbuf_tail) (s Sbuf_count);
  h_slots : forall i c, q !! i = Some c -> s (Sbuf_buf (slot (s Sbuf_tail) (Z.of_nat i))) = c;
  h_range : Forall (fun c => 0 <= c < 2 ^ 31) q }.

Lemma absorb_range delta q :
  0 <= delta -> Forall (fun c => 0 <= c < 2 ^ 31) q -> Forall (fun c => 0 <= c < 2 ^ 31) (absorb delta q).
Proof.
  revert delta. induction q as [|c q IH]; intros delta Hd Hq; cbn [absorb]; [constructor|].
  apply Forall_cons_1 in Hq as [Hc Hq]. destruct (Z.leb_spec c delta); [apply IH; [lia|done]|].
  constructor; [lia|done].
Qed.
Lemma absorb_length delta q : (length (absorb delta q) <= length q)%nat.
Proof.
  revert delta. induction q as [|c q IH]; intros delta; cbn [absorb]; [done|].
  destruct (_ <=? _); cbn; [specialize (IH (delta - c)); lia | lia].
Qed.

(** The cells of the buffer; the wait counters. *)
Definition sbuf_cell (c : cell) : Prop :=
  match c with Sbuf_buf _ | G (Sbuf_tail | Sbuf_count | Sbuf_head) => True | _ => False end.

Lemma slot_range t i : 0 <= slot t i < MAX_SBUF_LEN.
Proof. apply Z.mod_pos_bound. reflexivity. Qed.
Lemma slot_succ t i : slot (slot t 1) i = slot t (i + 1).
Proof. unfold slot. rewrite Zplus_mod_idemp_l. f_equal. lia. Qed.
Lemma slot_0 t : 0 <= t < MAX_SBUF_LEN -> slot t 0 = t.
Proof. intros Ht. unfold slot. rewrite Z.add_0_r. by apply Z.mod_small. Qed.
Lemma slot_inj t i j :
  0 <= i < MAX_SBUF_LEN -> 0 <= j < MAX_SBUF_LEN -> slot t i = slot t j -> i = j.
Proof. unfold slot, MAX_SBUF_LEN. intros. Z.to_euclidean_division_equations; lia. Qed.

Lemma pop_run c q (s : Sim) :
  holds (c :: q) s ->
  wp sbuf_pop (fun _ s' => holds q s' /\ s' Sbuf_tail = slot (s Sbuf_tail) 1 /\
                 frame (foot [G Sbuf_tail; G Sbuf_count]) s s') s.
Proof.
  intros [Ht Hc Hl Hh Hs Hr]. unfold sbuf_pop. wps.
  cbn [length] in *. unfold MAX_SBUF_LEN in *.
  assert (Et : s32 (Z.rem (s32 (s Sbuf_tail + 1)) 256) = slot (s Sbuf_tail) 1).
  { unfold slot, MAX_SBUF_LEN. rewrite (s32_small (_ + 1)), Z.rem_mod_nonneg by lia.
    apply s32_small. pose proof (Z.mod_pos_bound (s Sbuf_tail + 1) 256). lia. }
  split_and!; [|exact Et|solve_frame].
  split; look; rewrite ?Et.
  - apply slot_range.
  - rewrite Hc, s32_small by lia. lia.
  - unfold MAX_SBUF_LEN. lia.
  - rewrite Hh, s32_small, slot_succ by lia. f_equal. lia.
  - intros i c' Hi. rewrite slot_succ. specialize (Hs (S i) c' Hi). by rewrite Nat2Z.inj_succ in Hs.
  - by apply Forall_cons_1 in Hr as [_ Hr].
Qed.

Lemma holds_first c q (s : Sim) : holds (c :: q) s -> s (Sbuf_buf (s Sbuf_tail)) = c.
Proof. intros H. rewrite <- (slot_0 (s Sbuf_tail)) at 1 by apply H. by apply (h_slots _ _ H 0%nat). Qed.

Lemma holds_other q (s s' : Sim) :
  holds q s -> (forall c, sbuf_cell c -> s' c = s c) -> holds q s'.
Proof.
  intros [] Hs. split; rewrite ?Hs by exact I; try done.
  intros i c Hi. rewrite Hs by exact I. auto.
Qed.

Definition charge (delta : Z) (q : list Z) : list Z :=
  match q with [] => [] | c :: q => c - delta :: q end.

Ltac parts := split_and!; try assumption; try lia; try reflexivity; try (by constructor).

Lemma drain_run fuel delta q (s : Sim) :
  holds q s -> (length q <= fuel)%nat -> 0 <= delta < 2 ^ 31 ->
  wp (sbuf_drain fuel delta) (fun d s' => exists q', holds q' s' /\ absorb delta q = charge d q' /\
        0 <= d < 2 ^ 31 /\ Forall (fun c => d <= c) (take 1 q') /\
        frame (foot [G Sbuf_tail; G Sbuf_count]) s s') s.
Proof.
  revert delta q s. induction fuel as [|fuel IH]; intros delta q s Hq Hl Hd; cbn [sbuf_drain]; wps.
  - destruct q as [|c q]; [|cbn in Hl; lia]. rewrite (h_count _ _ Hq) in *. discriminate.
  - exists q. destruct q as [|c q]; [by parts|]. cbn in Hl. lia.
  - destruct q as [|c q]; [rewrite (h_count _ _ Hq) in *; discriminate|].
    rewrite (holds_first _ _ _ Hq) in *. apply andb_true_iff in H as [_ H]. apply Z.leb_le in H.
    pose proof (Forall_inv (h_range _ _ Hq)) as Hc. cbv beta in Hc.
    eapply wpx_mono; [apply (pop_run _ _ _ Hq) | done |]. intros [] s1 (Hq1 & _ & Hf1). cbv beta.
    rewrite s32_small by lia. eapply wpx_mono; [apply (IH (delta - c) q s1 Hq1); [cbn in Hl; lia|lia] | done |].
    intros d s2 (q' & H1 & H2 & H3 & H4 & H5). exists q'. split_and!; auto.
    + cbn [absorb]. by rewrite (proj2 (Z.leb_le c delta)) by lia.
    + lia.
    + lia.
    + by etransitivity.
  - exists q. destruct q as [|c q]; [by parts|].
    rewrite (h_count _ _ Hq), (holds_first _ _ _ Hq) in *. cbn [nz] in *.
    apply andb_false_iff in H as [H|H]; [discriminate|]. apply Z.leb_gt in H.
    parts; [|repeat constructor; lia]. cbn [absorb charge].
    by rewrite (proj2 (Z.leb_gt c delta)).
Qed.

Lemma charge_run delta q (s : Sim) :
  holds q s -> 0 <= delta -> Forall (fun c => delta <= c) (take 1 q) ->
  wp (sbuf_charge delta) (fun _ s' => holds (charge delta q) s' /\
        frame (fun c => match c with Sbuf_buf _ => True | _ => False end) s s') s.
Proof.
  intros Hq Hd Hf. unfold sbuf_charge. wps; destruct q as [|c q];
    try (rewrite (h_count _ _ Hq) in *; discriminate); [|by split].
  pose proof Hq as [Ht Hc Hl Hh Hs Hr]. rewrite (holds_first _ _ _ Hq).
  pose proof (Forall_inv Hr) as Hc0. apply Forall_inv in Hf. cbv beta in *.
  split; [|intros x Hx; apply upd_ne; intros <-; by apply Hx].
  split; look; try done.
  - intros i c' Hi. rewrite upd_lookup. cbn [charge length] in *. destruct i as [|i].
    + rewrite slot_0 by done. rewrite decide_True by done. injection Hi as <-. apply s32_small. lia.
    + rewrite decide_False; [by apply (Hs (S i))|]. intros [= E]. apply lookup_lt_Some in Hi as Hlt.
      rewrite <- (slot_0 (s Sbuf_tail)) in E at 1 by done. apply slot_inj in E; cbn in *; unfold MAX_SBUF_LEN in *; lia.
  - cbn [charge]. apply Forall_cons_1 in Hr as [_ Hr]. constructor; [lia|done].
Qed.

Lemma wait_run c q (s : Sim) :
  holds (c :: q) s ->
  wp sbuf_wait (fun _ s' => holds q s' /\ s' Mem_cycles = s32 (s Mem_cycles + c) /\
    frame (foot [G Sbuf_wait_cyc; G Mem_cycles; G Sbuf_prev_cycles; G Sbuf_tail; G Sbuf_count]) s s') s.
Proof.
  intros Hq. unfold sbuf_wait. wps. rewrite (holds_first _ _ _ Hq).
  match goal with |- wpx _ _ _ ?s => set (s1 := s) end.
  assert (Hq1 : holds (c :: q) s1) by (apply (holds_other _ s); [done|]; intros x Hx; subst s1; by rewrite !upd_ne by (intros <-; exact Hx)).
  eapply wpx_mono; [apply (pop_run _ _ _ Hq1) | done |]. intros [] s2 (Hq2 & _ & Hf). split_and!; [done| |].
  - rewrite (frame_get _ _ _ _ Hf) by reflexivity. subst s1. by look.
  - etransitivity; [|eapply frame_mono; [|exact Hf]; reflexivity]. subst s1. solve_frame.
Qed.

Lemma flush_run fuel q (s : Sim) :
  holds q s -> (length q <= fuel)%nat -> s32 (s Mem_cycles) = s Mem_cycles ->
  wp (sbuf_flush fuel) (fun _ s' => holds [] s' /\ s' Mem_cycles = s32 (s Mem_cycles + foldr Z.add 0 q)) s.
Proof.
  revert q s. induction fuel as [|fuel IH]; intros q s Hq Hl Hm; cbn [sbuf_flush]; wps;
    rewrite (h_count _ _ Hq) in *; (destruct q as [|c q]; [|try (cbn in *; lia)]); cbn [foldr]; try discriminate.
  - split; [done|]. by rewrite Z.add_0_r.
  - eapply wpx_mono; [apply (wait_run c q s Hq) | done |]. intros [] s1 (Hq1 & Em & _). cbv beta.
    eapply wpx_mono; [apply (IH q s1 Hq1); [cbn in Hl; lia | by rewrite Em, wrap_wrap] | done |].
    intros [] s2 (Hq2 & Em2). split; [done|].
    rewrite Em2, Em. rewrite !s32_eq. Z.to_euclidean_division_equations; lia.
  - split; [done|]. by rewrite Z.add_0_r.
Qed.

(** Both functions begin by taking out the stores that are done. *)
Lemma catch_up_run q (s : Sim) delta (k : M unit) (Q : unit -> Sim -> Prop) :
  holds q s -> 0 <= delta < 2 ^ 31 ->
  (forall s', holds (absorb delta q) s' ->
     (forall c, ~ sbuf_cell c -> s' c = s c) -> wp k Q s') ->
  wp (count ← rd Sbuf_count; delta ← sbuf_drain (Z.to_nat count) delta; sbuf_charge delta;; k) Q s.
Proof.
  intros Hq Hd Hk. apply wpx_bind, wpx_rd, wpx_bind. rewrite (h_count _ _ Hq), Nat2Z.id.
  eapply wpx_mono; [apply (drain_run _ _ q s Hq); [done|lia] | done |].
  intros d s1 (q' & Hq1 & Ea & Hd1 & Hf1 & Hfr1). cbv beta. apply wpx_bind.
  eapply wpx_mono; [apply (charge_run d q' s1 Hq1); [lia|done] | done |].
  intros [] s2 (Hq2 & Hfr2). cbv beta. rewrite <- Ea in Hq2. apply Hk; [done|].
  intros c Hc. rewrite Hfr2 by (intros Hx; apply Hc; by destruct c). apply Hfr1. intros Hin. apply Hc. revert Hin. unfold foot. cbn.
  destruct (decide (c = G Sbuf_tail)) as [->|]; [done|]. destruct (decide (c = G Sbuf_count)) as [->|]; [done|].
  by rewrite !bool_decide_eq_false_2.
Qed.

Definition push (cyc : Z) : M unit :=
  head ← rd Sbuf_head;
  wr (Sbuf_buf head) cyc;;
  wr Sbuf_head (Z.rem (s32 (head + 1)) MAX_SBUF_LEN);;
  adds Sbuf_count 1.
Lemma push_run cyc q (s : Sim) :
  holds q s -> Z.of_nat (length q) < MAX_SBUF_LEN -> 0 <= cyc < 2 ^ 31 ->
  wp (push cyc) (fun _ s' => holds (q ++ [cyc]) s' /\ s' Mem_cycles = s Mem_cycles) s.
Proof.
  intros [Ht Hc Hl Hh Hs Hr] Hlen Hcyc. unfold push. wps. split; [|done].
  assert (Hslot : 0 <= s Sbuf_head < MAX_SBUF_LEN) by (rewrite Hh; apply slot_range).
  unfold MAX_SBUF_LEN in *. split; look; rewrite ?length_app; cbn [length].
  - done.
  - rewrite Hc, s32_small by lia. lia.
  - unfold MAX_SBUF_LEN. lia.
  - rewrite (s32_small (_ + 1)), Z.rem_mod_nonneg by lia. rewrite (s32_small (s Sbuf_count + 1)) by lia.
    rewrite s32_small by (pose proof (Z.mod_pos_bound (s Sbuf_head + 1) 256); lia).
    rewrite Hh. unfold slot, MAX_SBUF_LEN. rewrite Zplus_mod_idemp_l. f_equal. lia.
  - intros i c Hi. look. rewrite upd_lookup. apply lookup_app_Some in Hi as [Hi|[Hi1 Hi2]].
    + rewrite decide_False; [by apply Hs|]. rewrite Hh, Hc. intros [= E]. apply lookup_lt_Some in Hi as Hlt.
      apply slot_inj in E; unfold MAX_SBUF_LEN; lia.
    + apply list_lookup_singleton_Some in Hi2 as [Hi2 <-]. replace i with (length q) by lia.
      rewrite decide_True by (rewrite Hh, Hc; done). apply s32_small. lia.
  - apply Forall_app. split; [done|]. constructor; [lia|constructor].
Qed.

Lemma elapsed_run (s : Sim) :
  0 <= s Cycles - s Sbuf_prev_cycles < 2 ^ 31 -> sbuf_elapsed s = Ok (s Cycles - s Sbuf_prev_cycles) s.
Proof. intros Hd. unfold sbuf_elapsed, bind, rd, ret. by rewrite s32_small by lia. Qed.

Lemma absorbed_store len delta cyc q :
  store_queue len delta cyc q =
    (if len <=? Z.of_nat (length (absorb delta q)) then tail (absorb delta q) else absorb delta q) ++ [cyc].
Proof. unfold store_queue. destruct (absorb delta q) as [|c q']; [by destruct (_ <=? _)|]. by destruct (_ <=? _). Qed.

(** C38: the store buffer.  While it holds at most [sbuf_len] stores, a store
    whose access took [cyc] cycles, and a load, [delta] cycles after the last:
    the buffer represents the queue of stores without those done meanwhile, a
    store waits for the oldest when the buffer is full and is appended, a load
    waits for all of them; the waits are added to the cycles of the access, and
    the buffer never holds more than [sbuf_len] stores. *)
Theorem sbuf_refines q (s : Sim) cyc :
  let len := s Cpu_sbuf_len in
  let delta := s Cycles - s Sbuf_prev_cycles in
  typed s -> holds q s -> Z.of_nat (length q) <= len -> 0 < len < MAX_SBUF_LEN ->
  0 <= delta < 2 ^ 31 -> 0 <= cyc < 2 ^ 31 ->
  (exists s', sbuf_store cyc s = Ok tt s' /\ holds (store_queue len delta cyc q) s' /\
     Z.of_nat (length (store_queue len delta cyc q)) <= len /\
     s' Mem_cycles = s32 (s Mem_cycles + store_waits len delta q)) /\
  (exists s', sbuf_load s = Ok tt s' /\ holds [] s' /\
     s' Mem_cycles = s32 (s Mem_cycles + load_waits delta q)).
Proof.
  cbv zeta. intros Hty Hq Hlen Hl Hd Hcyc. set (delta := s Cycles - _) in *. set (len := s Cpu_sbuf_len) in *.
  pose proof (absorb_length delta q) as Ha.
  split; apply wp_unit.
  - unfold sbuf_store. apply wpx_bind, (wpx_eq _ _ _ _ _ _ (elapsed_run s Hd)). fold delta.
    apply wpx_bind, wpx_adds, wpx_bind, wpx_rd, wpx_bind, wpx_wr. look.
    match goal with |- wpx _ _ _ ?s => set (s1 := s) end.
    assert (Hq1 : holds q s1) by (apply (holds_other _ s); [done|]; intros x Hx; subst s1; by rewrite !upd_ne by (intros <-; exact Hx)).
    apply (catch_up_run q s1 delta); [done..|]. intros s2 Hq2 Hs2.
    assert (El : s2 Cpu_sbuf_len = len) by (rewrite Hs2 by (intros []); subst s1; by look).
    assert (Em : s2 Mem_cycles = s Mem_cycles) by (rewrite Hs2 by (intros []); subst s1; by look).
    apply wpx_bind, wpx_rd, wpx_bind, wpx_rd, wpx_bind. rewrite El, (h_count _ _ Hq2), absorbed_store.
    unfold store_waits. destruct (absorb delta q) as [|c q'] eqn:Eq.
    + cbn [length tail]. rewrite (proj2 (Z.leb_gt len _)) by lia. apply wpx_ret.
      eapply wpx_mono; [apply (push_run cyc [] s2); [done|cbn; unfold MAX_SBUF_LEN; lia|lia] | done |].
      intros [] s3 [Hq3 Em3]. split_and!; [exact Hq3 | cbn; lia|].
      rewrite Em3, Em, Z.add_0_r. symmetry. apply (typed_wrap s Mem_cycles Hty).
    + destruct (Z.leb_spec len (Z.of_nat (length (c :: q')))) as [Hfull|Hroom]; cbn [when tail].
      * eapply wpx_mono; [apply (wait_run c q' s2 Hq2) | done |]. intros [] s3 (Hq3 & Em3 & _). cbv beta.
        cbn [length] in *.
        eapply wpx_mono; [apply (push_run cyc q' s3); [done|unfold MAX_SBUF_LEN in *; lia|lia] | done |].
        intros [] s4 [Hq4 Em4]. split_and!; [exact Hq4 | rewrite length_app; cbn; lia | by rewrite Em4, Em3, Em].
      * apply wpx_ret.
        eapply wpx_mono; [apply (push_run cyc (c :: q') s2); [done|lia|lia] | done |].
        intros [] s3 [Hq3 Em3]. split_and!; [exact Hq3 | rewrite length_app; cbn [length] in *; lia |].
        rewrite Em3, Em, Z.add_0_r. symmetry. apply (typed_wrap s Mem_cycles Hty).
  - unfold sbuf_load. apply wpx_bind, (wpx_eq _ _ _ _ _ _ (elapsed_run s Hd)). fold delta.
    apply wpx_bind, wpx_rd, wpx_bind, wpx_wr. look.
    match goal with |- wpx _ _ _ ?s => set (s1 := s) end.
    assert (Hq1 : holds q s1) by (apply (holds_other _ s); [done|]; intros x Hx; subst s1; by rewrite !upd_ne by (intros <-; exact Hx)).
    apply (catch_up_run q s1 delta); [done..|]. intros s2 Hq2 Hs2.
    assert (Em : s2 Mem_cycles = s Mem_cycles) by (rewrite Hs2 by (intros []); subst s1; by look).
    apply wpx_bind, wpx_rd. rewrite (h_count _ _ Hq2), Nat2Z.id.
    eapply wpx_mono; [apply (flush_run _ _ _ Hq2); [done|] | done |].
    + rewrite Em. apply (typed_wrap s Mem_cycles Hty).
    + intros [] s3 [Hq3 Em3]. split; [done|]. by rewrite Em3, Em.
Qed.

(** Two stores in a buffer of length 4 that wraps around, 5 cycles later. *)
Definition ex_sbuf : Sim :=
  upd (Sbuf_buf 255) 3 (upd (Sbuf_buf 0) 9 (upd Sbuf_tail 255 (upd Sbuf_head 1 (upd Sbuf_count 2
    (upd Cycles 5 (upd Cpu_sbuf_len 4 zero_state)))))).
Lemma ex_sbuf_holds : holds [3; 9] ex_sbuf.
Proof.
  split; [closed_Z | reflexivity | closed_Z | vm_compute; reflexivity | |].
  - intros [|[|i]] c Hi; [injection Hi as <- ..|discriminate]; vm_compute; reflexivity.
  - repeat constructor; closed_Z.
Qed.
Lemma sbuf_refines_witness :
  exists s', sbuf_store 7 ex_sbuf = Ok tt s' /\ holds [7; 7] s'.
Proof.
  destruct (sbuf_refines [3; 9] ex_sbuf 7) as [(s' & E & Hq & _) _];
    [by repeat apply upd_typed; apply zero_typed | exact ex_sbuf_holds | closed_Z..|].
  exists s'. split; [exact E|]. exact Hq.
Defined.
End Sbuf.
