(* ===== verification/Arith.v ===== *)
(** * Arithmetic

    What the arithmetic instructions of cpu/or32/insnset.c compute, as
    arithmetic on integers: results modulo [2 ^ 32], carry, overflow, the
    multiply-accumulate register, bit searches. *)

From stdpp Require Import sets.
From S2P Require Export Insnset.

#[global] Open Scope Z_scope.

Module Arith.
Import Insnset Except.

(** ** The shape of an arithmetic instruction *)

(** Assign the result and the flags, check for a range exception. *)
Definition finish (ps : params) (v : Z) (ov cy : bool) (check : M unit) : M unit :=
  SET_PARAM0 ps v;;
  set_sr SPR_SR_OV ov;;
  set_sr SPR_SR_CY cy;;
  check.

(** The values of two source operands. *)
Definition sources (ps : params) (s : Sim) (x y : Z) : Prop :=
  PARAM ps 1 s = Ok x s /\ PARAM ps 2 s = Ok y s /\ 0 <= x < 2 ^ 32 /\ 0 <= y < 2 ^ 32.
Definition fits (z : Z) : bool := (- 2 ^ 31 <=? z) && (z <? 2 ^ 31).

Lemma SET_PARAM0_u32 ps v w s : u32 v = u32 w -> SET_PARAM0 ps v s = SET_PARAM0 ps w s.
Proof.
  intros E. destruct ps as [|[r|x] ps]; [done| |done]. cbn. unfold wr, upd. cbn [ctype]. by rewrite E.
Qed.

Lemma bind_ext {A B} (m : M A) (f g : A -> M B) s : (forall a s, f a s = g a s) -> bind m f s = bind m g s.
Proof. intros Hf. unfold bind. destruct (m s); auto. Qed.
Lemma bind_ext_l {B} (m m' : M unit) (f : unit -> M B) s : m s = m' s -> bind m f s = bind m' f s.
Proof. intros Hm. unfold bind. by rewrite Hm. Qed.

(** Signed sums and differences. *)
Lemma add_overflows a b :
  - 2 ^ 31 <= a < 2 ^ 31 -> - 2 ^ 31 <= b < 2 ^ 31 ->
  negb (s32 (a + b) =? a + b) = negb (fits (a + b)).
Proof.
  intros Ha Hb. unfold fits. rewrite s32_eq. f_equal.
  destruct (Z.eqb_spec ((a + b + 2 ^ 31) mod 2 ^ 32 - 2 ^ 31) (a + b));
    Z.to_euclidean_division_equations; lia.
Qed.
Lemma finish_ext ps v v' ov ov' cy cy' k s :
  u32 v = u32 v' -> ov = ov' -> cy = cy' -> finish ps v ov cy k s = finish ps v' ov' cy' k s.
Proof. intros E -> ->. unfold finish. apply bind_ext_l. by apply SET_PARAM0_u32. Qed.

Lemma s32_u32_eq a b : u32 a = u32 b -> s32 a = s32 b.
Proof. intros E. by rewrite <- (s32_u32 a), <- (s32_u32 b), E. Qed.
Lemma u32_add_s32 a b : u32 (s32 a + s32 b) = u32 (a + b).
Proof. rewrite !u32_eq, !s32_eq. Z.to_euclidean_division_equations; lia. Qed.
Lemma u32_sub_s32 a b : u32 (s32 a - s32 b) = u32 (a - b).
Proof. rewrite !u32_eq, !s32_eq. Z.to_euclidean_division_equations; lia. Qed.

Definition carry (s : Sim) : bool := Z.testbit (s (SPR SPR_SR)) 10.
Lemma carry_run s : all_set (SPR SPR_SR) SPR_SR_CY s = Ok (carry s) s.
Proof.
  unfold all_set, bind, rd, ret, carry. change SPR_SR_CY with (2 ^ 10). by rewrite land_eqb_bit.
Qed.

(** The end of l.add and l.addc: the range exception, and a statistic. *)
Definition add_tail (v : Z) : M unit := trigger_range aecr_add raise_if_ov;; count_byteadd (s32 v).

Section Additive.
Context (ps : params) (s : Sim) (x y : Z).

Lemma add_spec : sources ps s x y ->
  l_add ps s = finish ps (x + y) (negb (fits (s32 x + s32 y))) (2 ^ 32 <=? x + y) (add_tail (x + y)) s.
Proof.
  intros (Ep1 & Ep2 & Hx & Hy). unfold l_add. unfold bind at 1. rewrite Ep2. unfold bind at 1. rewrite Ep1.
  assert (Eu : u32 (s32 (s32 y + s32 x)) = u32 (x + y)) by (rewrite u32_s32, u32_add_s32; f_equal; lia).
  assert (Es : s32 (x + y) = s32 (s32 y + s32 x)) by (apply s32_u32_eq; by rewrite u32_add_s32, Z.add_comm).
  unfold add_tail. rewrite Es.
  apply (finish_ext ps (s32 (s32 y + s32 x)) (x + y) (negb (s32 (s32 y + s32 x) =? s32 y + s32 x)) _
           (u32 (s32 (s32 y + s32 x)) <? u32 (s32 y))).
  - exact Eu.
  - rewrite add_overflows by apply s32_range. by rewrite Z.add_comm.
  - rewrite Eu, u32_s32, !u32_eq.
    destruct (Z.ltb_spec ((x + y) mod 2 ^ 32) (y mod 2 ^ 32)), (Z.leb_spec (2 ^ 32) (x + y)); try done;
      Z.to_euclidean_division_equations; lia.
Qed.

(** The sum with the carry wraps as a whole. *)
Lemma addc_value (c : bool) :
  (if c then s32 (s32 (s32 y + s32 x) + 1) else s32 (s32 y + s32 x)) = s32 (x + y + b2z c).
Proof.
  destruct c; cbn [b2z]; apply s32_u32_eq.
  - replace (s32 (s32 y + s32 x) + 1) with (s32 (s32 y + s32 x) + s32 1) by reflexivity.
    rewrite u32_add_s32, <- (u32_s32 (x + y + 1)), !u32_eq, !s32_eq. Z.to_euclidean_division_equations; lia.
  - rewrite u32_add_s32. f_equal. lia.
Qed.

Lemma addc_spec : sources ps s x y ->
  l_addc ps s = finish ps (x + y + b2z (carry s)) (negb (fits (s32 x + s32 y + b2z (carry s))))
                  (2 ^ 32 <=? x + y + b2z (carry s)) (add_tail (x + y + b2z (carry s))) s.
Proof.
  intros (Ep1 & Ep2 & Hx & Hy). unfold l_addc. unfold bind at 1. rewrite carry_run. unfold bind at 1. rewrite Ep2.
  unfold bind at 1. rewrite Ep1. cbv zeta. rewrite addc_value. set (c := carry s). unfold add_tail.
  set (v := x + y + b2z c).
  apply (finish_ext ps (s32 v) v
           (((s32 y <? 0) && (s32 x <? 0) && (0 <=? s32 v)) || ((0 <=? s32 y) && (0 <=? s32 x) && (s32 v <? 0))) _
           ((c && (u32 (s32 v) <=? u32 (s32 y))) || (u32 (s32 v) <? u32 (s32 y)))).
  - apply u32_s32.
  - assert (Ex : s32 x = x \/ s32 x = x - 2 ^ 32) by (rewrite s32_of_u32 by lia; destruct (_ <? _); auto).
    assert (Ey : s32 y = y \/ s32 y = y - 2 ^ 32) by (rewrite s32_of_u32 by lia; destruct (_ <? _); auto).
    pose proof (s32_range x). pose proof (s32_range y). pose proof (s32_range v).
    assert (Ev : exists k, s32 v = v - k * 2 ^ 32).
    { exists ((v + 2 ^ 31) / 2 ^ 32). rewrite s32_eq. pose proof (Z.div_mod (v + 2 ^ 31) (2 ^ 32)). lia. }
    destruct Ev as [k Ev]. unfold fits. subst v. destruct c; cbn [b2z] in *; lia.
  - rewrite !u32_s32, (u32_small y) by lia. rewrite u32_eq. subst v.
    pose proof (Z.div_mod (x + y + b2z c) (2 ^ 32)). pose proof (Z.mod_pos_bound (x + y + b2z c) (2 ^ 32)).
    destruct c; cbn [b2z andb orb] in *; lia.
Qed.

Lemma sub_spec : sources ps s x y ->
  l_sub ps s = finish ps (x - y) (negb (fits (s32 x - s32 y))) (x <? y) (trigger_range aecr_add raise_if_ov) s.
Proof.
  intros (Ep1 & Ep2 & Hx & Hy). unfold l_sub. unfold bind at 1. rewrite Ep2. unfold bind at 1. rewrite Ep1.
  apply (finish_ext ps (s32 (s32 x - s32 y)) (x - y) (negb (s32 (s32 x - s32 y) =? s32 x - s32 y)) _
           (u32 (s32 x) <? u32 (s32 y))).
  - by rewrite u32_s32, u32_sub_s32.
  - pose proof (s32_range x). pose proof (s32_range y). unfold fits. rewrite s32_eq. f_equal.
    pose proof (Z.div_mod (s32 x - s32 y + 2 ^ 31) (2 ^ 32)).
    pose proof (Z.mod_pos_bound (s32 x - s32 y + 2 ^ 31) (2 ^ 32)). lia.
  - by rewrite !u32_s32, !u32_small by lia.
Qed.
End Additive.

(** ** The state after an arithmetic instruction *)

(** [v] in register [d], and the flags in SR; nothing else changes. *)
Definition result (d v : Z) (ov cy : bool) (s s' : Sim) : Prop :=
  s' (GPR d) = v mod 2 ^ 32 /\
  (forall i, 0 <= i -> Z.testbit (s' (SPR SPR_SR)) i =
     if i =? 11 then ov else if i =? 10 then cy else Z.testbit (s (SPR SPR_SR)) i) /\
  frame (foot [GPR d; SPR SPR_SR]) s s'.

Definition sr_with (k : Z) (b : bool) (sr : Z) : Z :=
  if b then Z.lor sr (2 ^ k) else Z.land sr (Z.lnot (2 ^ k)).
Lemma set_sr_run k b (s : Sim) :
  set_sr (2 ^ k) b s = Ok tt (upd (SPR SPR_SR) (sr_with k b (s (SPR SPR_SR))) s).
Proof. by destruct b. Qed.
Lemma sr_with_bit k b sr i :
  0 <= k < 32 -> 0 <= sr < 2 ^ 32 -> 0 <= i ->
  Z.testbit (u32 (sr_with k b sr)) i = if i =? k then b else Z.testbit sr i.
Proof.
  intros Hk Hsr Hi. rewrite testbit_u32 by lia. unfold sr_with.
  assert (Hhigh : 32 <= i -> Z.testbit sr i = false) by (intros; apply (testbit_above 32); lia).
  destruct b; rewrite ?testbit_set, ?testbit_clr, ?testbit_pow2 by lia; rewrite (Z.eqb_sym k);
    destruct (Z.eqb_spec i k), (Z.ltb_spec i 32); rewrite ?andb_true_r, ?andb_false_r, ?orb_true_r, ?orb_false_r;
    try lia; try done; by rewrite Hhigh.
Qed.

Lemma foot_in l c : c ∈ l -> foot l c.
Proof.
  intros Hc. unfold foot. apply existsb_exists. exists c. split; [by apply list_elem_of_In|].
  by apply bool_decide_eq_true.
Qed.
Lemma finish_run ps d v ov cy k (s : Sim) :
  typed s -> head ps = Some (P_reg d) ->
  exists s', result d v ov cy s s' /\ typed s' /\ finish ps v ov cy k s = k s'.
Proof.
  intros Hty Hd. destruct ps as [|[r|x] ps]; try discriminate. injection Hd as ->.
  set (s1 := upd (GPR d) v s).
  set (s2 := upd (SPR SPR_SR) (sr_with 11 ov (s1 (SPR SPR_SR))) s1).
  exists (upd (SPR SPR_SR) (sr_with 10 cy (s2 (SPR SPR_SR))) s2).
  assert (Hty1 : typed s1) by by apply upd_typed. assert (Hty2 : typed s2) by by apply upd_typed.
  unfold result. split_and!.
  - look. unfold s2. look. unfold s1. look. apply u32_eq.
  - intros i Hi. look. rewrite sr_with_bit; [|lia|by apply (typed_u32 s2)|lia].
    unfold s2 at 1. look. rewrite sr_with_bit; [|lia|by apply (typed_u32 s1)|lia].
    unfold s1. look. destruct (Z.eqb_spec i 10), (Z.eqb_spec i 11); congruence.
  - subst s2 s1. repeat (apply frame_trans_upd; [apply foot_in; rewrite !elem_of_cons; auto|]). reflexivity.
  - by apply upd_typed.
  - unfold finish. cbn [SET_PARAM0]. unfold bind at 1, wr. fold s1.
    change SPR_SR_OV with (2 ^ 11). unfold bind at 1. rewrite set_sr_run. fold s2.
    change SPR_SR_CY with (2 ^ 10). unfold bind at 1. by rewrite set_sr_run.
Qed.

(** C14: addition and subtraction.  l.add, l.addc and l.sub put the sum, the sum
    with the carry and the difference of their operands modulo [2 ^ 32] in the
    destination; SR[CY] tells whether the unsigned operation carried or
    borrowed, SR[OV] whether the signed one left the 32-bit range; nothing else
    changes before the range check. *)
Theorem additive_correct ps d s x y :
  typed s -> head ps = Some (P_reg d) -> sources ps s x y ->
  (exists s1, result d (x + y) (negb (fits (s32 x + s32 y))) (2 ^ 32 <=? x + y) s s1 /\
     l_add ps s = add_tail (x + y) s1) /\
  (let c := b2z (carry s) in
   exists s1, result d (x + y + c) (negb (fits (s32 x + s32 y + c))) (2 ^ 32 <=? x + y + c) s s1 /\
     l_addc ps s = add_tail (x + y + c) s1) /\
  (exists s1, result d (x - y) (negb (fits (s32 x - s32 y))) (x <? y) s s1 /\
     l_sub ps s = trigger_range aecr_add raise_if_ov s1).
Proof.
  intros Hty Hd Hs. rewrite (add_spec ps s x y Hs), (addc_spec ps s x y Hs), (sub_spec ps s x y Hs).
  split_and!; edestruct (finish_run ps d) as (s1 & Hr & _ & ->); eauto.
Qed.

(** ** Range exceptions *)

Definition sr_bit (k : Z) (s : Sim) : bool := Z.testbit (s (SPR SPR_SR)) k.
Definition precise (s : Sim) : bool := Z.testbit (s (SPR SPR_CPUCFGR)) 14.
(** An exception is due: with AECR on carry or overflow, where enabled, without
    on overflow; in both cases when SR[OVE] is set. *)
Definition range_due (s : Sim) : bool :=
  sr_bit 12 s &&
  (if precise s then
     sr_bit 10 s && Z.testbit (s (SPR SPR_AECR)) 0 || sr_bit 11 s && Z.testbit (s (SPR SPR_AECR)) 1
   else sr_bit 11 s).
(** The flags that raised it, in AESR. *)
Definition reported (s : Sim) : Sim :=
  if precise s then
    let s := upd (SPR SPR_AESR) 0 s in
    let s := if sr_bit 11 s then upd (SPR SPR_AESR) (Z.lor (s (SPR SPR_AESR)) SPR_AESR_OVADDE) s else s in
    if sr_bit 10 s then upd (SPR SPR_AESR) (Z.lor (s (SPR SPR_AESR)) SPR_AESR_CYADDE) s else s
  else s.

Lemma all_set_run c k (s : Sim) : 0 <= k -> all_set c (2 ^ k) s = Ok (Z.testbit (s c) k) s.
Proof. intros Hk. unfold all_set, bind, rd, ret. by rewrite land_eqb_bit. Qed.

Lemma bind_when_ors {A} b c v (f : unit -> M A) (s : Sim) :
  bind (when b (ors c v)) f s = f tt (if b then upd c (Z.lor (s c) v) s else s).
Proof. by destruct b. Qed.

(** The range check after an addition or subtraction raises the exception
    at the instruction exactly when it is due (SR[OVE] set, and overflow, or
    with AECR an enabled flag), after noting the flags in AESR. *)
Theorem range_check_correct (s : Sim) :
  trigger_range aecr_add raise_if_ov s =
  if range_due s then except_handle EXCEPT_RANGE (s Pc) (reported s) else Ok tt s.
Proof.
  unfold trigger_range, range_due, reported. change SPR_SR_OVE with (2 ^ 12).
  unfold bind at 1. rewrite all_set_run by lia. fold (sr_bit 12 s). destruct (sr_bit 12 s); [|done].
  cbn [when andb]. change SPR_CPUCFGR_AECSRP with (2 ^ 14). unfold bind at 1. rewrite all_set_run by lia.
  fold (precise s). destruct (precise s).
  - unfold aecr_add. change SPR_SR_CY with (2 ^ 10). change SPR_SR_OV with (2 ^ 11).
    change SPR_AECR_CYADDE with (2 ^ 0). change SPR_AECR_OVADDE with (2 ^ 1).
    do 4 (unfold bind at 1; rewrite all_set_run by lia). fold (sr_bit 10 s) (sr_bit 11 s).
    destruct (_ || _); [|done]. cbn [when]. unfold range_exception.
    unfold bind at 1, wr. set (s1 := upd (SPR SPR_AESR) 0 s). cbv zeta.
    unfold bind at 1. rewrite all_set_run by lia. fold (sr_bit 11 s1).
    rewrite bind_when_ors. set (s2 := if sr_bit 11 s1 then _ else _).
    unfold bind at 1. rewrite all_set_run by lia. fold (sr_bit 10 s2). rewrite bind_when_ors.
    unfold bind, rd. f_equal. subst s2 s1. repeat case_match; by look.
  - unfold raise_if_ov. change SPR_SR_OV with (2 ^ 11). unfold bind at 1. rewrite all_set_run by lia. 
    fold (sr_bit 11 s). by destruct (sr_bit 11 s).
Qed.

(** ** Multiplication and division *)

(** [v] in register [d] if any, flag [k] of SR is [b]; nothing else changes. *)
Definition result_flag (d : Z) (v : option Z) (k : Z) (b : bool) (s s' : Sim) : Prop :=
  s' (GPR d) = match v with Some v => v mod 2 ^ 32 | None => s (GPR d) end /\
  (forall i, 0 <= i -> Z.testbit (s' (SPR SPR_SR)) i = if i =? k then b else Z.testbit (s (SPR SPR_SR)) i) /\
  frame (foot [GPR d; SPR SPR_SR]) s s'.

(** Assign the result and one flag, check for a range exception. *)
Definition finish_flag (ps : params) (v : option Z) (k : Z) (b : bool) (check : M unit) : M unit :=
  match v with Some v => SET_PARAM0 ps v | None => ret tt end;;
  set_sr (2 ^ k) b;;
  check.

Lemma finish_flag_run ps d v k b check (s : Sim) :
  typed s -> head ps = Some (P_reg d) -> 0 <= k < 32 ->
  exists s', result_flag d v k b s s' /\ finish_flag ps v k b check s = check s'.
Proof.
  intros Hty Hd Hk. destruct ps as [|[r|x] ps]; try discriminate. injection Hd as ->.
  set (s1 := match v with Some v => upd (GPR d) v s | None => s end).
  exists (upd (SPR SPR_SR) (sr_with k b (s1 (SPR SPR_SR))) s1).
  assert (Hty1 : typed s1) by (destruct v; [by apply upd_typed | exact Hty]).
  assert (Esr : s1 (SPR SPR_SR) = s (SPR SPR_SR)) by (destruct v; [by apply upd_ne | done]).
  unfold result_flag. split_and!.
  - look. subst s1. destruct v; look; [apply u32_eq | done].
  - intros i Hi. look. rewrite sr_with_bit; [by rewrite Esr|lia|by apply (typed_u32 s1)|lia].
  - apply frame_trans_upd; [apply foot_in; rewrite !elem_of_cons; auto|]. subst s1.
    destruct v; [apply frame_upd, foot_in; rewrite !elem_of_cons; auto | reflexivity].
  - unfold finish_flag. cbn [SET_PARAM0]. unfold bind at 1.
    assert (E : match v with Some v => wr (GPR d) v | None => ret tt end s = Ok tt s1) by by destruct v.
    rewrite E. unfold bind at 1. by rewrite set_sr_run.
Qed.

Lemma finish_flag_ext ps v v' k b b' check s :
  u32 v = u32 v' -> b = b' ->
  finish_flag ps (Some v) k b check s = finish_flag ps (Some v') k b' check s.
Proof. intros E ->. apply bind_ext_l. by apply SET_PARAM0_u32. Qed.

Definition trigger_mul : M unit := trigger_range (aecr_one SPR_SR_OV SPR_AECR_OVMULE SPR_AESR_OVMULE) raise_if_ov.
Definition trigger_mulu : M unit := trigger_range (aecr_one SPR_SR_CY SPR_AECR_CYMULE SPR_AESR_CYMULE) (ret tt).
Definition trigger_div : M unit := trigger_range (aecr_one SPR_SR_OV SPR_AECR_DBZE SPR_AESR_DBZE) raise_if_ov.

Section Multiplicative.
Context (ps : params) (s : Sim) (x y : Z).

Lemma u32_mul_s32 a b : u32 (s32 a * s32 b) = u32 (a * b).
Proof.
  rewrite !u32_eq, <- (Zmult_mod_idemp_l (s32 a)), <- (Zmult_mod_idemp_r (s32 b)), <- !u32_eq, !u32_s32, !u32_eq.
  by rewrite Zmult_mod_idemp_l, Zmult_mod_idemp_r.
Qed.
Lemma s64_prod a b : s64 (s32 a * s32 b) = s32 a * s32 b.
Proof. apply wrap_small, inty_I64. pose proof (s32_range a). pose proof (s32_range b). nia. Qed.

Lemma mul_spec : sources ps s x y ->
  l_mul ps s = finish_flag ps (Some (s32 x * s32 y)) 11 (negb (fits (s32 x * s32 y))) trigger_mul s.
Proof.
  intros (Ep1 & Ep2 & Hx & Hy). unfold l_mul. unfold bind at 1. rewrite Ep2. unfold bind at 1. rewrite Ep1.
  cbv zeta. rewrite s64_prod.
  apply (finish_flag_ext ps (s32 (Z.land (s32 x * s32 y) 0xffffffff)) (s32 x * s32 y) 11
           ((s32 x * s32 y <? INT32_MIN) || (INT32_MAX <? s32 x * s32 y))).
  - rewrite u32_s32, !u32_eq. change 0xffffffff with (2 ^ 32 - 1). by rewrite land_low, Z.mod_mod by lia.
  - unfold fits, INT32_MIN, INT32_MAX. lia.
Qed.

Lemma mulu_spec : sources ps s x y ->
  l_mulu ps s = finish_flag ps (Some (x * y)) 10 (2 ^ 32 <=? x * y) trigger_mulu s.
Proof.
  intros (Ep1 & Ep2 & Hx & Hy). unfold l_mulu. unfold bind at 1. rewrite Ep2. unfold bind at 1. rewrite Ep1.
  cbv zeta. change 0xffffffff with (2 ^ 32 - 1). rewrite !land_low, (Z.mod_small x), (Z.mod_small y) by lia.
  assert (E : u64 (x * y) = x * y) by (apply wrap_small, inty_U64; nia). rewrite E.
  apply (finish_flag_ext ps ((x * y) mod 2 ^ 32) (x * y) 10 (UINT32_MAX <? x * y)).
  - by rewrite !u32_eq, Z.mod_mod by lia.
  - unfold UINT32_MAX. lia.
Qed.

Lemma div_spec : sources ps s x y ->
  let fails := (y =? 0) || ((x =? 2 ^ 31) && (y =? 2 ^ 32 - 1)) in
  l_div ps s = finish_flag ps (if fails then None else Some (Z.quot (s32 x) (s32 y))) 11 fails trigger_div s.
Proof.
  intros (Ep1 & Ep2 & Hx & Hy). unfold l_div. unfold bind at 1. rewrite Ep2. unfold bind at 1. rewrite Ep1.
  cbv zeta. rewrite !u32_s32, !u32_small by lia. change 0x80000000 with (2 ^ 31). change 0xffffffff with (2 ^ 32 - 1).
  assert (Ez : (s32 y =? 0) = (y =? 0)) by (rewrite s32_of_u32 by lia; destruct (Z.ltb_spec y (2 ^ 31)); lia).
  rewrite Ez. unfold finish_flag. destruct (_ || _); [done|]. unfold bind. by destruct (SET_PARAM0 _ _ _).
Qed.

Lemma divu_spec : sources ps s x y ->
  l_divu ps s = finish_flag ps (if y =? 0 then None else Some (x / y)) 11 (y =? 0) trigger_div s.
Proof.
  intros (Ep1 & Ep2 & Hx & Hy). unfold l_divu. unfold bind at 1. rewrite Ep2. unfold bind at 1. rewrite Ep1.
  unfold finish_flag. destruct (y =? 0); [done|]. unfold bind. by destruct (SET_PARAM0 _ _ _).
Qed.
End Multiplicative.

(** C15: multiplication and division.  l.mul and l.mulu put the low word of the
    product in the destination and set SR[OV] (signed) or SR[CY] (unsigned) when
    the product does not fit in 32 bits; l.div and l.divu put the quotient
    rounded towards zero there and clear SR[OV], or, when the divisor is 0 or
    the signed quotient is [2 ^ 31], set SR[OV] and leave the destination.  SR[CY]
    keeps its value in a division: the comments in [l_div] and [l_divu] that the
    check for a zero divisor sets carry are older than the code. *)
Theorem multiplicative_correct ps d s x y :
  typed s -> head ps = Some (P_reg d) -> sources ps s x y ->
  (exists s1, result_flag d (Some (s32 x * s32 y)) 11 (negb (fits (s32 x * s32 y))) s s1 /\
     l_mul ps s = trigger_mul s1) /\
  (exists s1, result_flag d (Some (x * y)) 10 (2 ^ 32 <=? x * y) s s1 /\ l_mulu ps s = trigger_mulu s1) /\
  (let fails := (y =? 0) || ((x =? 2 ^ 31) && (y =? 2 ^ 32 - 1)) in
   exists s1, result_flag d (if fails then None else Some (Z.quot (s32 x) (s32 y))) 11 fails s s1 /\
     l_div ps s = trigger_div s1) /\
  (exists s1, result_flag d (if y =? 0 then None else Some (x / y)) 11 (y =? 0) s s1 /\
     l_divu ps s = trigger_div s1).
Proof.
  intros Hty Hd Hs. cbv zeta.
  rewrite (mul_spec ps s x y Hs), (mulu_spec ps s x y Hs), (div_spec ps s x y Hs), (divu_spec ps s x y Hs).
  split_and!; edestruct (finish_flag_run ps d) as (s1 & Hr & ->); eauto; lia.
Qed.

(** ** Multiply-accumulate *)

(** The accumulator: a signed 64-bit number in two registers. *)
Definition mac_value (s : Sim) : Z := s32 (s (SPR SPR_MACHI)) * 2 ^ 32 + s (SPR SPR_MACLO).
Definition fits64 (z : Z) : bool := (- 2 ^ 63 <=? z) && (z <? 2 ^ 63).

Lemma mac_acc_run (s : Sim) : typed s -> mac_acc s = Ok (mac_value s) s.
Proof.
  intros Hty. pose proof (typed_u32 s (SPR SPR_MACLO) Hty eq_refl) as Hlo.
  pose proof (typed_u32 s (SPR SPR_MACHI) Hty eq_refl) as Hhi. unfold mac_acc, bind, rd, ret, mac_value.
  set (lo := s (SPR SPR_MACLO)) in *. set (hi := s (SPR SPR_MACHI)) in *. f_equal.
  change 0xffffffff with (2 ^ 32 - 1). rewrite land_low, Z.shiftl_mul_pow2 by lia.
  assert (El : u64 (s32 lo) mod 2 ^ 32 = lo).
  { unfold wrap at 1. cbn [is_signed width]. rewrite <- (u32_small lo Hlo) at 2. rewrite <- u32_s32, u32_eq.
    generalize (s32 lo). intros z. Z.to_euclidean_division_equations; lia. }
  assert (Eh : u64 (s64 (s32 hi * 2 ^ 32)) = hi * 2 ^ 32).
  { pose proof (s32_range hi). rewrite (wrap_small I64) by (apply inty_I64; lia).
    rewrite s32_of_u32 by lia. unfold wrap. cbn [is_signed width]. destruct (Z.ltb_spec hi (2 ^ 31)).
    - apply Z.mod_small. lia.
    - symmetry. apply (Z.mod_unique_pos _ _ (-1)); lia. }
  rewrite El, Eh, Z.lor_comm, lor_low by lia. rewrite s32_of_u32 by lia.
  unfold wrap. cbn [is_signed width]. destruct (Z.ltb_spec hi (2 ^ 31)).
  - rewrite Z.mod_small; lia.
  - rewrite <- (Z.mod_unique_pos _ _ 1 ((hi - 2 ^ 32) * 2 ^ 32 + lo + 2 ^ (64 - 1))); lia.
Qed.

Lemma mac_set_run v (s : Sim) :
  - 2 ^ 63 <= v < 2 ^ 63 ->
  exists s', mac_set v s = Ok tt s' /\ mac_value s' = v /\ s' (SPR SPR_SR) = s (SPR SPR_SR) /\
    frame (foot [SPR SPR_MACLO; SPR SPR_MACHI]) s s' /\ (typed s -> typed s').
Proof.
  intros Hv.
  assert (Elow : forall z, u32 (s32 (Z.land (u64 z) 0xffffffff)) = z mod 2 ^ 32).
  { intros z. change 0xffffffff with (2 ^ 32 - 1). rewrite u32_s32, u32_eq, land_low, Z.mod_mod by lia.
    unfold wrap. cbn [is_signed width]. Z.to_euclidean_division_equations; lia. }
  eexists. split; [reflexivity|]. split_and!.
  - assert (Hq : - 2 ^ 31 <= v / 2 ^ 32 < 2 ^ 31) by (Z.to_euclidean_division_equations; lia).
    unfold mac_value. look. rewrite !Elow, Z.shiftr_div_pow2, <- u32_eq, s32_u32, s32_small by lia.
    pose proof (Z.div_mod v (2 ^ 32)). lia.
  - by look.
  - solve_frame.
  - intros Hty. by do 2 apply upd_typed.
Qed.

Definition trigger_mac : M unit :=
  trigger_range (aecr_one SPR_SR_OV SPR_AECR_OVMACADDE SPR_AESR_OVMACADDE) raise_if_ov.

(** [v] in the accumulator, and the overflow flag; nothing else changes. *)
Definition mac_result (v : Z) (s s' : Sim) : Prop :=
  mac_value s' = s64 v /\
  (forall i, 0 <= i -> Z.testbit (s' (SPR SPR_SR)) i =
     if i =? 11 then negb (fits64 v) else Z.testbit (s (SPR SPR_SR)) i) /\
  frame (foot [SPR SPR_MACLO; SPR SPR_MACHI; SPR SPR_SR]) s s'.

Lemma mac_finish v (check : M unit) (s : Sim) :
  typed s ->
  exists s', mac_result v s s' /\
    (mac_set (s64 v);; set_sr SPR_SR_OV (negb (s64 v =? v));; check) s = check s'.
Proof.
  intros Hty. destruct (mac_set_run (s64 v) s) as (s1 & E & Hv & Esr & Hf & Hty1).
  { apply inty_I64, wrap_inty. }
  specialize (Hty1 Hty). unfold bind at 1. rewrite E. change SPR_SR_OV with (2 ^ 11). unfold bind at 1.
  rewrite set_sr_run. eexists. split; [|reflexivity]. unfold mac_result. split_and!.
  - unfold mac_value in *. look. exact Hv.
  - intros i Hi. look. rewrite sr_with_bit; [|lia|by apply (typed_u32 s1)|lia]. rewrite Esr.
    replace (s64 v =? v) with (fits64 v); [done|]. unfold fits64.
    destruct (Z.eqb_spec (s64 v) v) as [E1|E1].
    + pose proof (wrap_inty I64 v) as H1%inty_I64. lia.
    + apply not_true_is_false. intros H1. apply E1, wrap_small, inty_I64. lia.
  - apply frame_trans_upd; [reflexivity|]. by apply (frame_mono [SPR SPR_MACLO; SPR SPR_MACHI]).
Qed.

(** Multiply-accumulate.  l.mac and l.msb add the signed product of their
    operands to the 64-bit accumulator, and subtract it; the accumulator wraps,
    and SR[OV] tells whether it did. *)
Theorem mac_correct ps (s : Sim) x y :
  typed s -> PARAM ps 0 s = Ok x s -> PARAM ps 1 s = Ok y s ->
  (exists s1, mac_result (mac_value s + s32 x * s32 y) s s1 /\ l_mac ps s = trigger_mac s1) /\
  (exists s1, mac_result (mac_value s - s32 x * s32 y) s s1 /\ l_msb ps s = trigger_mac s1).
Proof.
  intros Hty Ex Ey. split.
  - unfold l_mac. unfold bind at 1. rewrite mac_acc_run by done. unfold bind at 1. rewrite Ex.
    unfold bind at 1. rewrite Ey. cbv zeta. rewrite s64_prod. by apply mac_finish.
  - unfold l_msb. unfold bind at 1. rewrite mac_acc_run by done. unfold bind at 1. rewrite Ex.
    unfold bind at 1. rewrite Ey. cbv zeta. rewrite s64_prod. by apply mac_finish.
Qed.

(** ** Bit searches *)

(** [r] is the number of the lowest set bit among the low 32, from 1, or 0. *)
Definition lowest_set (z r : Z) : Prop :=
  (r = 0 /\ forall i, 0 <= i < 32 -> Z.testbit z i = false) \/
  (1 <= r <= 32 /\ Z.testbit z (r - 1) = true /\ forall i, 0 <= i < r - 1 -> Z.testbit z i = false).

Lemma ffs_spec z : lowest_set z (ffs z).
Proof.
  unfold ffs.
  assert (H : forall n i, 0 <= i -> i + Z.of_nat n = 32 -> (forall j, 0 <= j < i -> Z.testbit z j = false) ->
    lowest_set z (ffs_from n i z)).
  { induction n as [|n IH]; intros i Hi Hn Hb; cbn [ffs_from].
    - left. split; [done|]. intros j Hj. apply Hb. lia.
    - destruct (Z.testbit z i) eqn:Eb.
      + right. split; [lia|]. replace (i + 1 - 1) with i by lia. by split.
      + apply IH; [lia..|]. intros j Hj. destruct (Z.eq_dec j i) as [->|]; [done|]. apply Hb. lia. }
  apply (H 32%nat 0); lia.
Qed.

Lemma testbit_s32 z i : 0 <= i < 32 -> Z.testbit (s32 z) i = Z.testbit z i.
Proof.
  intros Hi. rewrite <- (s32_u32 z). pose proof (testbit_u32 z i ltac:(lia)) as Hu.
  rewrite (proj2 (Z.ltb_lt i 32)), andb_true_r in Hu by lia. rewrite <- Hu.
  rewrite s32_of_u32 by apply u32_range. destruct (_ <? _); [done|].
  rewrite <- (Z.mod_pow2_bits_low _ 32), <- (Z.mod_pow2_bits_low (u32 z) 32) by lia. f_equal.
  replace (u32 z - 2 ^ 32) with (u32 z + (-1) * 2 ^ 32) by lia. apply Z.mod_add. lia.
Qed.

(** A step of the reversal exchanges neighbouring groups of bits. *)
Lemma swap_bits_bit t hi lo n i :
  0 <= n < 32 -> 0 <= hi < 2 ^ 32 -> 0 <= i < 32 ->
  Z.testbit (swap_bits t hi lo n) i =
    (i + n <? 32) && Z.testbit t (i + n) && Z.testbit hi (i + n) ||
    (n <=? i) && Z.testbit t (i - n) && Z.testbit lo (i - n).
Proof.
  intros Hn Hhi Hi. unfold swap_bits. rewrite testbit_s32, Z.lor_spec, Z.shiftr_spec, Z.land_spec by lia.
  rewrite (testbit_u32 (Z.shiftl _ _)), Z.shiftl_spec, (proj2 (Z.ltb_lt i 32)), andb_true_r by lia. f_equal.
  - rewrite testbit_u32 by lia. destruct (Z.ltb_spec (i + n) 32); [by rewrite andb_true_r|].
    rewrite (testbit_above 32 hi) by lia. by rewrite !andb_false_r.
  - destruct (Z.leb_spec n i).
    + rewrite Z.land_spec, testbit_u32, (proj2 (Z.ltb_lt (i - n) 32)), andb_true_r by lia. done.
    + rewrite Z.testbit_neg_r by lia. done.
Qed.

Definition swap_ok (hi lo n i : Z) : bool :=
  ((i + n =? Z.lxor i n) && (i + n <? 32) && Z.testbit hi (i + n) && negb ((n <=? i) && Z.testbit lo (i - n))) ||
  ((i - n =? Z.lxor i n) && (n <=? i) && Z.testbit lo (i - n) && negb ((i + n <? 32) && Z.testbit hi (i + n))).
Lemma swap_step t hi lo n i :
  0 <= n < 32 -> 0 <= hi < 2 ^ 32 -> forallb (swap_ok hi lo n) (seqZ 0 32) = true -> 0 <= i < 32 ->
  Z.testbit (swap_bits t hi lo n) i = Z.testbit t (Z.lxor i n).
Proof.
  intros Hn Hhi Hc Hi. rewrite forallb_forall in Hc.
  specialize (Hc i ltac:(apply list_elem_of_In, elem_of_seqZ; lia)). rewrite swap_bits_bit by lia.
  unfold swap_ok in Hc. apply orb_true_iff in Hc as [Hc|Hc]; rewrite !andb_true_iff, negb_true_iff in Hc;
    destruct Hc as (((H1 & H2) & H3) & H4); apply Z.eqb_eq in H1; rewrite <- H1, H2, H3, andb_true_r;
    destruct (Z.testbit t (i + n)), (Z.testbit t (i - n));
    rewrite ?andb_true_r, ?andb_false_r, ?orb_true_r, ?orb_false_r; try done;
    rewrite H4 by done; done.
Qed.

(** The word with its bits in reverse order, except that the last step shifts a
    signed number: bit 31 may fill the upper half. *)
Definition mirrored (t : Z) : Z :=
  swap_bits (swap_bits (swap_bits (swap_bits t 0xaaaaaaaa 0x55555555 1) 0xcccccccc 0x33333333 2)
    0xf0f0f0f0 0x0f0f0f0f 4) 0xff00ff00 0x00ff00ff 8.
Lemma mirrored_bit t i : 0 <= i < 32 -> Z.testbit (mirrored t) i = Z.testbit t (Z.lxor i 15).
Proof.
  intros Hi.
  assert (Hx : forall n, 0 <= n < 32 -> 0 <= Z.lxor i n < 32) by (intros n Hn; apply (lxor_range 5); lia).
  unfold mirrored. rewrite !swap_step by first [closed_Z | vm_compute; reflexivity | lia | rewrite ?Z.lxor_assoc; apply Hx; closed_Z].
  rewrite !Z.lxor_assoc. done.
Qed.

Lemma fl1_reverse_eq t :
  fl1_reverse t = Z.lor (Z.shiftr (mirrored t) 16) (s32 (Z.shiftl (mirrored t) 16)).
Proof. unfold fl1_reverse, mirrored. cbv zeta. reflexivity. Qed.
Lemma mirrored_s32 t : exists z, mirrored t = s32 z.
Proof. unfold mirrored, swap_bits at 1. eauto. Qed.
#[local] Opaque mirrored.

Lemma fl1_low t i : 0 <= i < 16 -> Z.testbit (fl1_reverse t) i = Z.testbit t (31 - i).
Proof.
  intros Hi. rewrite fl1_reverse_eq.
  rewrite Z.lor_spec, Z.shiftr_spec, (testbit_s32 (Z.shiftl _ _)), Z.shiftl_spec, (Z.testbit_neg_r _ (i - 16)), orb_false_r by lia.
  rewrite mirrored_bit by lia. f_equal.
  assert (H : forallb (fun j => Z.lxor (j + 16) 15 =? 31 - j) (seqZ 0 16) = true) by (vm_compute; reflexivity).
  rewrite forallb_forall in H. by apply Z.eqb_eq, H, list_elem_of_In, elem_of_seqZ.
Qed.
Lemma fl1_high t i :
  16 <= i < 32 -> (forall j, 16 <= j < 32 -> Z.testbit t j = false) ->
  Z.testbit (fl1_reverse t) i = Z.testbit t (31 - i).
Proof.
  intros Hi Ht. rewrite fl1_reverse_eq.
  rewrite Z.lor_spec, Z.shiftr_spec, (testbit_s32 (Z.shiftl _ _)), Z.shiftl_spec by lia.
  assert (Hs : Z.testbit (mirrored t) (i + 16) = false).
  { pose proof (mirrored_bit t 31 ltac:(lia)) as H31. rewrite (Ht (Z.lxor 31 15)) in H31 by closed_Z.
    destruct (mirrored_s32 t) as [z Ez]. rewrite Ez in *. rewrite testbit_s32 in H31 by lia. rewrite <- s32_u32.
    assert (Hr : 0 <= u32 z < 2 ^ 31).
    { pose proof (u32_range z) as Hz. apply range_of_bits; [lia..|]. intros k Hk.
      destruct (Z.eq_dec k 31) as [->|]; [by rewrite testbit_u32, H31 by lia|]. apply (testbit_above 32); lia. }
    rewrite s32_small by lia. apply (testbit_above 31); lia. }
  rewrite Hs, mirrored_bit by lia. cbn [orb]. f_equal.
  assert (H : forallb (fun j => Z.lxor (j - 16) 15 =? 31 - j) (seqZ 16 16) = true) by (vm_compute; reflexivity).
  rewrite forallb_forall in H. by apply Z.eqb_eq, H, list_elem_of_In, elem_of_seqZ.
Qed.

(** [r] is the number of the highest set bit, from 1, or 0. *)
Definition highest_set (x r : Z) : Prop := r = if x =? 0 then 0 else Z.log2 x + 1.

Lemma fl1_value x :
  0 <= x < 2 ^ 32 -> let t := ffs (fl1_reverse (s32 x)) in highest_set x (if 0 =? t then t else 33 - t).
Proof.
  intros Hx. cbv zeta. pose proof (ffs_spec (fl1_reverse (s32 x))) as Hf. set (r := ffs _) in *. clearbody r.
  assert (Hb : forall j, 0 <= j < 32 -> Z.testbit (s32 x) j = Z.testbit x j) by apply testbit_s32.
  unfold highest_set. destruct Hf as [[-> Hf]|(Hr & Hset & Hlow)].
  - cbn [Z.eqb]. destruct (Z.eqb_spec x 0) as [|Hx0]; [done|]. exfalso.
    pose proof (Z.log2_spec x ltac:(lia)). pose proof (Z.log2_lt_pow2 x 32 ltac:(lia)).
    pose proof (Z.log2_nonneg x). pose proof (Z.bit_log2 x ltac:(lia)) as Hl.
    assert (Hup : forall j, 16 <= j < 32 -> Z.testbit (s32 x) j = false).
    { intros j Hj. replace j with (31 - (31 - j)) by lia. rewrite <- fl1_low by lia. apply Hf. lia. }
    destruct (Z.le_gt_cases 16 (Z.log2 x)).
    + rewrite <- Hb, Hup in Hl by lia. discriminate.
    + rewrite <- Hb in Hl by lia. replace (Z.log2 x) with (31 - (31 - Z.log2 x)) in Hl by lia.
      rewrite <- fl1_high, Hf in Hl by (auto; lia). discriminate.
  - assert (Hup : 16 < r -> forall j, 16 <= j < 32 -> Z.testbit (s32 x) j = false).
    { intros Hr16 j Hj. replace j with (31 - (31 - j)) by lia. rewrite <- fl1_low by lia. apply Hlow. lia. }
    assert (Hbit : forall k, 0 <= k <= r - 1 -> Z.testbit (fl1_reverse (s32 x)) k = Z.testbit x (31 - k)).
    { intros k Hk. rewrite <- Hb by lia. destruct (Z.lt_ge_cases k 16); [apply fl1_low; lia|].
      apply fl1_high; [lia|]. apply Hup. lia. }
    rewrite Hbit in Hset by lia. replace (31 - (r - 1)) with (32 - r) in Hset by lia.
    assert (Hx1 : 0 <= x < 2 ^ (33 - r)).
    { apply range_of_bits; [lia..|]. intros j Hj. destruct (Z.lt_ge_cases j 32).
      - replace j with (31 - (31 - j)) by lia. rewrite <- Hbit by lia. apply Hlow. lia.
      - apply (testbit_above 32); lia. }
    assert (Hx2 : 2 ^ (32 - r) <= x).
    { destruct (Z.lt_ge_cases x (2 ^ (32 - r))); [|lia]. rewrite (testbit_above (32 - r)) in Hset by lia. discriminate. }
    assert (Hpos : 0 < 2 ^ (32 - r)) by (apply Z.pow_pos_nonneg; lia).
    rewrite (proj2 (Z.eqb_neq 0 r)), (proj2 (Z.eqb_neq x 0)) by lia.
    rewrite (Z.log2_unique x (32 - r)); [lia..|]. replace (Z.succ (32 - r)) with (33 - r) by lia. lia.
Qed.

(** The bit searches.  l.ff1 finds the lowest set bit of its operand and
    l.fl1 the highest, counted from 1, and both give 0 for 0: the reversal of
    the word in l.fl1, which shifts a signed number, does not disturb it. *)
Theorem bit_search_correct ps d x (s : Sim) :
  head ps = Some (P_reg d) -> PARAM ps 1 s = Ok x s -> 0 <= x < 2 ^ 32 ->
  (exists r, lowest_set x r /\ l_ff1 ps s = Ok tt (upd (GPR d) r s)) /\
  (exists r, highest_set x r /\ l_fl1 ps s = Ok tt (upd (GPR d) r s)).
Proof.
  intros Hd Ex Hx. destruct ps as [|[r|v] ps]; try discriminate. injection Hd as ->.
  split; eexists; (split; [|unfold l_ff1, l_fl1, bind at 1; rewrite Ex; reflexivity]).
  - apply ffs_spec.
  - by apply fl1_value.
Qed.

(** ** Witnesses *)

(** r1 = 0x7fffffff, r2 = 3, for an instruction with destination r3. *)
Definition ex_regs : Sim := upd (GPR 1) 0x7fffffff (upd (GPR 2) 3 zero_state).
Definition ex_ps : params := [P_reg 3; P_reg 1; P_reg 2].
Lemma ex_regs_typed : typed ex_regs.
Proof. do 2 apply upd_typed. exact zero_typed. Qed.
Lemma ex_sources : sources ex_ps ex_regs 0x7fffffff 3.
Proof. split_and!; first [vm_compute; reflexivity | closed_Z]. Qed.

Lemma additive_correct_witness :
  exists s1, result 3 0x80000002 true false ex_regs s1 /\ l_add ex_ps ex_regs = add_tail 0x80000002 s1.
Proof.
  exact (proj1 (additive_correct ex_ps 3 ex_regs 0x7fffffff 3 ex_regs_typed eq_refl ex_sources)).
Defined.
Lemma multiplicative_correct_witness :
  exists s1, result_flag 3 (Some (s32 0x7fffffff * s32 3)) 11 true ex_regs s1 /\ l_mul ex_ps ex_regs = trigger_mul s1.
Proof.
  exact (proj1 (multiplicative_correct ex_ps 3 ex_regs 0x7fffffff 3 ex_regs_typed eq_refl ex_sources)).
Defined.
Lemma mac_correct_witness :
  exists s1, mac_result (mac_value ex_regs + s32 0x7fffffff * s32 3) ex_regs s1 /\
    l_mac [P_reg 1; P_reg 2] ex_regs = trigger_mac s1.
Proof.
  exact (proj1 (mac_correct [P_reg 1; P_reg 2] ex_regs 0x7fffffff 3 ex_regs_typed eq_refl eq_refl)).
Defined.
Lemma bit_search_correct_witness :
  exists r, highest_set 0x7fffffff r /\ l_fl1 ex_ps ex_regs = Ok tt (upd (GPR 3) r ex_regs).
Proof.
  apply (bit_search_correct ex_ps 3 0x7fffffff ex_regs eq_refl eq_refl). closed_Z.
Defined.
End Arith.
