(* ===== verification/FloatInsn.v ===== *)
(** * The floating point instructions

    The library implements the interface of the instruction set, and what the
    instructions then do to the registers. *)

From S2P Require Export FloatRem Arith.

Module FloatInsn.
Import Insnset Arith FloatRound FloatArith FloatAdd FloatConv FloatRem.

(** ** The library writes its flags only *)

Section Flags.
Context (R : relation Sim) {HR : Writes float_flags R}.

#[local] Hint Extern 1 (float_flags _) => reflexivity : footprint.

#[local] Instance float_raise_keeps f : Respects R (Float32.float_raise f).
Proof. unfold Float32.float_raise. respects. Qed.
#[local] Instance shl_bits_keeps t x n : Respects R (Float32.shl_bits t x n).
Proof. unfold Float32.shl_bits. respects. Qed.
#[local] Instance shr_bits_keeps t x n : Respects R (Float32.shr_bits t x n).
Proof. unfold Float32.shr_bits. respects. Qed.
#[local] Instance div_bits_keeps x y : Respects R (Float32.div_bits x y).
Proof. unfold Float32.div_bits. respects. Qed.
#[local] Instance propagate_keeps a b : Respects R (Float32.propagateFloat32NaN a b).
Proof. unfold Float32.propagateFloat32NaN. respects. Qed.
#[local] Instance shift32_keeps a c : Respects R (Float32.shift32RightJamming a c).
Proof. unfold Float32.shift32RightJamming. respects. Qed.
#[local] Instance shift64_keeps a c : Respects R (Float32.shift64RightJamming a c).
Proof. unfold Float32.shift64RightJamming. respects. Qed.
#[local] Instance estimate_correct_keeps n b0 b1 z r0 r1 : Respects R (Float32.estimate_correct n b0 b1 z r0 r1).
Proof. revert z r0 r1. induction n; intros; cbn [Float32.estimate_correct]; respects. Qed.
#[local] Instance estimateDiv_keeps a0 a1 b : Respects R (Float32.estimateDiv128To64 a0 a1 b).
Proof. unfold Float32.estimateDiv128To64. respects. Qed.
#[local] Instance pack_rounded_keeps s m e z : Respects R (Float32.pack_rounded s m e z).
Proof. unfold Float32.pack_rounded. respects. Qed.
#[local] Instance roundAndPack_keeps s e z : Respects R (Float32.roundAndPackFloat32 s e z).
Proof. unfold Float32.roundAndPackFloat32. respects. Qed.
#[local] Instance normalizeRoundAndPack_keeps s e z : Respects R (Float32.normalizeRoundAndPackFloat32 s e z).
Proof. unfold Float32.normalizeRoundAndPackFloat32. respects. Qed.
#[local] Instance roundAndPackInt32_keeps s z : Respects R (Float32.roundAndPackInt32 s z).
Proof. unfold Float32.roundAndPackInt32. respects. Qed.
#[local] Instance normalized_keeps e f z k :
  Respects R z -> (forall e f, Respects R (k e f)) -> Respects R (Float32.normalized e f z k).
Proof. intros ? ?. unfold Float32.normalized, Float32.normalizeFloat32Subnormal. respects. Qed.
#[local] Instance invalid_keeps : Respects R Float32.invalid.
Proof. unfold Float32.invalid. respects. Qed.
#[local] Instance addSigs_keeps a b s : Respects R (Float32.addFloat32Sigs a b s).
Proof. unfold Float32.addFloat32Sigs. respects. Qed.
#[local] Instance subSigs_keeps a b s : Respects R (Float32.subFloat32Sigs a b s).
Proof. unfold Float32.subFloat32Sigs. respects. Qed.
#[local] Instance rem_quotient_keeps a b : Respects R (Float32.rem_quotient a b).
Proof. unfold Float32.rem_quotient. respects. Qed.
#[local] Instance rem_reduce_keeps n b c a e : Respects R (Float32.rem_reduce n b c a e).
Proof. revert a e. induction n; intros; cbn [Float32.rem_reduce]; respects. Qed.
#[local] Instance rem_settle_keeps n a b q : Respects R (Float32.rem_settle n a b q).
Proof. revert a q. induction n; intros; cbn [Float32.rem_settle]; respects. Qed.
#[local] Instance rem_short_keeps a b d : Respects R (Float32.rem_short a b d).
Proof. unfold Float32.rem_short. respects. Qed.
#[local] Instance rem_long_keeps a b d : Respects R (Float32.rem_long a b d).
Proof. unfold Float32.rem_long. respects. Qed.
#[local] Instance rem_finish_keeps s e a b q : Respects R (Float32.rem_finish s e a b q).
Proof. unfold Float32.rem_finish. respects. Qed.
#[local] Instance unordered_signals_keeps : Respects R Float32.unordered_signals.
Proof. unfold Float32.unordered_signals. respects. Qed.
#[local] Instance unordered_quiet_keeps a b : Respects R (Float32.unordered_quiet a b).
Proof. unfold Float32.unordered_quiet. respects. Qed.

Lemma binary_keeps a b :
  Respects R (Float32.float32_add a b) /\ Respects R (Float32.float32_sub a b) /\
  Respects R (Float32.float32_mul a b) /\ Respects R (Float32.float32_div a b) /\ Respects R (Float32.float32_rem a b).
Proof.
  unfold Float32.float32_add, Float32.float32_sub, Float32.float32_mul, Float32.float32_div, Float32.float32_rem.
  repeat split; repeat first [apply normalized_keeps | respects1].
Qed.
Lemma comparisons_keep a b :
  Respects R (Float32.float32_eq a b) /\ Respects R (Float32.float32_le a b) /\ Respects R (Float32.float32_lt a b).
Proof. unfold Float32.float32_eq, Float32.float32_le, Float32.float32_lt. repeat split; respects. Qed.
Lemma convert_keeps a : Respects R (Float32.float32_to_int32 a) /\ Respects R (Float32.int32_to_float32 a).
Proof. unfold Float32.float32_to_int32, Float32.int32_to_float32. split; respects. Qed.
End Flags.

(** The library as an implementation of the interface. *)
Definition float32_softfloat : Softfloat.
Proof.
  refine {| float32_add := Float32.float32_add; float32_sub := Float32.float32_sub;
            float32_mul := Float32.float32_mul; float32_div := Float32.float32_div;
            float32_rem := Float32.float32_rem; float32_eq := Float32.float32_eq;
            float32_le := Float32.float32_le; float32_lt := Float32.float32_lt;
            float32_is_nan := Float32.float32_is_nan;
            float32_to_int32 := Float32.float32_to_int32; int32_to_float32 := Float32.int32_to_float32 |};
    intros; unfold OnlyFlags; intros R HR;
    first [apply (binary_keeps R) | apply (comparisons_keep R) | apply (convert_keeps R)].
Defined.

(** ** The rounding mode and the flags of FPCSR *)

(** The mode that the field RM selects. *)
Definition fp_mode (fpcsr : Z) : Z :=
  switch (Z.land fpcsr SPR_FPCSR_RM)
    [ ([FPCSR_RM_RN], float_round_nearest_even); ([FPCSR_RM_RZ], float_round_to_zero);
      ([FPCSR_RM_RIP], float_round_up); ([FPCSR_RM_RIN], float_round_down) ] 0.

Lemma rm_cases p : In (Z.land p SPR_FPCSR_RM) [0; 2; 4; 6].
Proof.
  assert (E : Z.land p SPR_FPCSR_RM = Z.land (p mod 2 ^ 3) 6).
  { rewrite <- (land_low 3) by lia. rewrite <- Z.land_assoc. reflexivity. }
  rewrite E. pose proof (Z.mod_pos_bound p (2 ^ 3) ltac:(lia)).
  assert (Hc : p mod 2 ^ 3 = 0 \/ p mod 2 ^ 3 = 1 \/ p mod 2 ^ 3 = 2 \/ p mod 2 ^ 3 = 3 \/
               p mod 2 ^ 3 = 4 \/ p mod 2 ^ 3 = 5 \/ p mod 2 ^ 3 = 6 \/ p mod 2 ^ 3 = 7) by lia.
  repeat destruct Hc as [->|Hc]; try rewrite Hc; cbn; tauto.
Qed.
Lemma fp_mode_ok p : mode_ok (fp_mode p).
Proof.
  unfold fp_mode. destruct (rm_cases p) as [<-|[<-|[<-|[<-|[]]]]]; vm_compute; split; discriminate.
Qed.
Lemma float_set_rm_run (σ : Sim) :
  float_set_rm σ = Ok tt (upd Float_rounding_mode (fp_mode (σ (SPR SPR_FPCSR))) σ).
Proof.
  unfold float_set_rm, fp_mode. unfold bind, rd. 
  destruct (rm_cases (σ (SPR SPR_FPCSR))) as [<-|[<-|[<-|[<-|[]]]]]; reflexivity.
Qed.

(** FPCSR after an instruction that raised [F]: its flags are those of this
    instruction only. *)
Definition report (F fpcsr : Z) : Z :=
  let bit f m := if nz (Z.land F f) then m else 0 in
  Z.lor (Z.lor (Z.lor (Z.lor (Z.lor (Z.land fpcsr (Z.lnot SPR_FPCSR_ALLF))
    (bit float_flag_invalid SPR_FPCSR_IVF)) (bit float_flag_divbyzero SPR_FPCSR_DZF))
    (bit float_flag_overflow SPR_FPCSR_OVF)) (bit float_flag_underflow SPR_FPCSR_UNF))
    (bit float_flag_inexact SPR_FPCSR_IXF).
Definition or_flags (l : list Z) : Z := foldl Z.lor 0 l.

Lemma raise_flags_other l (σ : Sim) c : c <> G Float_exception_flags -> raise_flags l σ c = σ c.
Proof.
  intros Hc. revert σ. induction l as [|f l IH]; intros σ; [done|].
  change (raise_flags l (raise_flag σ f) c = σ c). rewrite IH. unfold raise_flag. by apply upd_ne.
Qed.
Lemma raise_flags_value l (σ : Sim) :
  Forall (fun f => 0 <= f < 2 ^ 6) l -> 0 <= σ Float_exception_flags < 2 ^ 6 ->
  raise_flags l σ Float_exception_flags = foldl Z.lor (σ Float_exception_flags) l /\
  0 <= foldl Z.lor (σ Float_exception_flags) l < 2 ^ 6.
Proof.
  intros Hl. revert σ. induction Hl as [|f l Hf Hl IH]; intros σ Hs; [done|].
  change (raise_flags (f :: l) σ) with (raise_flags l (raise_flag σ f)). cbn [foldl].
  assert (Ho : 0 <= Z.lor (σ Float_exception_flags) f < 2 ^ 6) by (apply lor_range; lia).
  assert (E : raise_flag σ f Float_exception_flags = Z.lor (σ Float_exception_flags) f).
  { unfold raise_flag. rewrite upd_eq. apply wrap_small, inty_I8. lia. }
  destruct (IH (raise_flag σ f)) as [E1 E2]; [rewrite E; lia|]. rewrite E in E1, E2. done.
Qed.

(** [if (b) cpu_state.sprs[...] |= m]. *)
Lemma wp_set_if b c m (Q : unit -> Sim -> Prop) (s : Sim) :
  typed s -> ctype c = U32 -> 0 <= m < 2 ^ 32 ->
  (forall s' : Sim, typed s' -> s' c = Z.lor (s c) (if b : bool then m else 0) -> (forall c', c' <> c -> s' c' = s c') -> Q tt s') ->
  wp (when b (ors c m)) Q s.
Proof.
  intros Ht Hc Hm HQ. destruct b; cbn [when].
  - apply wpx_ors. apply HQ; [by apply upd_typed | | intros; apply upd_ne; congruence].
    rewrite upd_eq, Hc. apply u32_small, lor_range; [lia | by apply typed_u32 | done].
  - apply wpx_ret. apply HQ; [done | by rewrite Z.lor_0_r | done].
Qed.

Lemma report_fpee F p : Z.testbit (report F p) 0 = Z.testbit p 0.
Proof.
  unfold report. cbv zeta. rewrite !Z.lor_spec, Z.land_spec, Z.lnot_spec by lia.
  replace (Z.testbit SPR_FPCSR_ALLF 0) with false by reflexivity. rewrite andb_true_r.
  repeat case_match; rewrite ?orb_false_r; done.
Qed.

Lemma float_set_flags_spec (Q : unit -> Sim -> Prop) (s : Sim) :
  typed s -> Z.testbit (s (SPR SPR_FPCSR)) 0 = false ->
  (forall s' : Sim, s' (SPR SPR_FPCSR) = report (s Float_exception_flags) (s (SPR SPR_FPCSR)) -> s' Float_exception_flags = 0 ->
     (forall c, c <> SPR SPR_FPCSR -> c <> G Float_exception_flags -> s' c = s c) -> Q tt s') ->
  wp float_set_flags Q s.
Proof.
  intros Ht He HQ. unfold float_set_flags. set (F := s Float_exception_flags) in *.
  pose proof (typed_u32 s (SPR SPR_FPCSR) Ht eq_refl) as Hp. set (p := s (SPR SPR_FPCSR)) in *.
  assert (Hr : 0 <= Z.land p (Z.lnot SPR_FPCSR_ALLF) < 2 ^ 32) by (apply land_range; lia).
  apply wpx_bind, wpx_clr. set (s0 := upd _ _ s).
  assert (H0 : typed s0 /\ s0 (SPR SPR_FPCSR) = Z.land p (Z.lnot SPR_FPCSR_ALLF) /\ (forall c, c <> SPR SPR_FPCSR -> s0 c = s c)).
  { split; [by apply upd_typed|]. split; [unfold s0; rewrite upd_eq; by apply u32_small | intros; apply upd_ne; congruence]. }
  destruct H0 as (T0 & V0 & O0). clearbody s0. apply wpx_bind, wpx_rd. rewrite O0 by discriminate. fold F.
  apply wpx_bind, wp_set_if; [done | done | done |]. intros s1 T1 V1 O1.
  apply wpx_bind, wp_set_if; [done | done | done |]. intros s2 T2 V2 O2.
  apply wpx_bind, wp_set_if; [done | done | done |]. intros s3 T3 V3 O3.
  apply wpx_bind, wp_set_if; [done | done | done |]. intros s4 T4 V4 O4.
  apply wpx_bind, wp_set_if; [done | done | done |]. intros s5 T5 V5 O5.
  assert (V : s5 (SPR SPR_FPCSR) = report F p) by (rewrite V5, V4, V3, V2, V1, V0; reflexivity).
  apply wpx_bind, wpx_flag. change SPR_FPCSR_FPEE with (2 ^ 0). rewrite nz_land_bit, V, report_fpee by lia. rewrite He.
  apply wpx_bind, wpx_flag. cbn [andb when]. apply wpx_bind, wpx_ret, wpx_wr.
  apply HQ; [by rewrite upd_ne | by rewrite upd_eq |].
  intros c H1 H2. rewrite upd_ne, O5, O4, O3, O2, O1, O0; congruence.
Qed.

(** ** What the instructions compute *)

(** A result that fits a word, and flags of softfloat.h. *)
Definition small_raises (l : list Z) : Prop := Forall (fun f => 0 <= f < 2 ^ 6) l.
Definition word_result (r : Z * list Z) : Prop := fword (fst r) /\ small_raises (snd r).

Lemma signed_word s w : 0 <= w < 2 ^ 31 -> fword (signed s w).
Proof. unfold fword, signed. destruct s; cbn [b2z]; lia. Qed.
Lemma rounded_word mode s n d : 0 <= n -> 0 < d -> word_result (rounded mode s n d).
Proof.
  intros Hn Hd. split; cbn [fst snd rounded].
  - destruct (significand_bounds mode s n d Hn Hd) as (He & Hs & _). unfold round32. apply signed_word.
    destruct (Z.leb_spec inf_word (magnitude mode s n d)); unfold magnitude, inf_word in *; [destruct (negb _); cbn [b2z]; lia | lia].
  - unfold round32_raises, small_raises. repeat case_match; repeat constructor; discriminate || reflexivity.
Qed.
Lemma zero_word s : word_result (zero s).
Proof. split; [apply signed_word; lia | constructor]. Qed.
Lemma infinity_word s : word_result (infinity s).
Proof. split; [apply signed_word; unfold inf_word; lia | constructor]. Qed.
Lemma invalid_word : word_result invalid_result.
Proof. split; [split; [discriminate | reflexivity] | repeat constructor; discriminate || reflexivity]. Qed.
Lemma nan_word a b : fword a -> fword b -> word_result (nan_result a b).
Proof.
  intros Ha Hb. assert (Hq : forall x, fword x -> fword (quiet x)) by (intros x Hx; apply lor_range; done || lia).
  split; cbn [fst snd nan_result]; [destruct (_ && _); by apply Hq|].
  unfold small_raises. destruct (_ || _); repeat constructor; discriminate || reflexivity.
Qed.

(** The binary instructions. *)
Definition binary_ops : list ((Z -> Z -> M Z) * (Z -> Z -> Z -> Z * list Z)) :=
  [(Float32.float32_add, ieee_add); (Float32.float32_sub, ieee_sub); (Float32.float32_mul, ieee_mul);
   (Float32.float32_div, ieee_div); (Float32.float32_rem, ieee_rem)].

Lemma binary_op_computes f ref a b (σ : Sim) :
  In (f, ref) binary_ops -> fword a -> fword b -> mode_ok (σ Float_rounding_mode) ->
  computes (f a b) σ (ref (σ Float_rounding_mode) a b).
Proof.
  intros Hin Ha Hb Hm. cbn in Hin.
  destruct Hin as [[= <- <-]|[[= <- <-]|[[= <- <-]|[[= <- <-]|[[= <- <-]|[]]]]]].
  - by apply float32_add_ieee.
  - by apply float32_sub_ieee.
  - by apply float32_mul_ieee.
  - by apply float32_div_ieee.
  - by apply float32_rem_ieee.
Qed.
Lemma sum_word mode s a b : fword a -> fword b -> word_result (ieee_sum mode s a b).
Proof.
  intros Ha Hb. unfold ieee_sum. cbv zeta. repeat case_match;
    try apply zero_word; try apply infinity_word; try apply invalid_word; try (by apply nan_word); apply rounded_word; lia.
Qed.
Lemma binary_op_word f ref mode a b :
  In (f, ref) binary_ops -> fword a -> fword b -> word_result (ref mode a b).
Proof.
  intros Hin Ha Hb. cbn in Hin. pose proof (units_nonneg a). pose proof (units_nonneg b).
  destruct Hin as [[= <- <-]|[[= <- <-]|[[= <- <-]|[[= <- <-]|[[= <- <-]|[]]]]]]; try by apply sum_word.
  - unfold ieee_mul. cbv zeta. repeat case_match;
      try apply infinity_word; try apply invalid_word; try (by apply nan_word); apply rounded_word; lia.
  - unfold ieee_div. cbv zeta. destruct (is_nan a || is_nan b) eqn:En; [by apply nan_word|].
    destruct (is_inf a); [destruct (is_inf b); [apply invalid_word | apply infinity_word]|].
    destruct (is_inf b) eqn:Ei; [apply zero_word|]. destruct (is_zero b) eqn:Ez.
    + destruct (is_zero a); [apply invalid_word|]. split; [apply infinity_word | repeat constructor; discriminate || reflexivity].
    + apply rounded_word; [lia|]. unfold is_zero in Ez. apply orb_false_iff in En as [_ En].
      rewrite En, Ei in Ez. apply Z.eqb_neq in Ez. lia.
  - unfold ieee_rem. cbv zeta. destruct (_ || _); [by apply nan_word|]. destruct (_ || _); [apply invalid_word|].
    destruct (is_inf b); [split; [done | constructor]|]. destruct (_ =? 0); [apply zero_word | apply rounded_word; lia].
Qed.

Section Instructions.
Context (σ : Sim).
Hypothesis (Ht : typed σ) (Hf : σ Cpu_hardfloat <> 0) (H0 : σ Float_exception_flags = 0)
  (He : Z.testbit (σ (SPR SPR_FPCSR)) 0 = false).
Let mode := fp_mode (σ (SPR SPR_FPCSR)).
Let σ1 := upd Float_rounding_mode mode σ.
Local Existing Instance float32_softfloat.

Lemma mode_set : σ1 Float_rounding_mode = mode /\ mode_ok (σ1 Float_rounding_mode).
Proof.
  assert (E : σ1 Float_rounding_mode = mode).
  { unfold σ1. rewrite upd_eq. pose proof (fp_mode_ok (σ (SPR SPR_FPCSR))) as Hok. unfold mode_ok in Hok. fold mode in Hok.
    apply wrap_small, inty_I8. lia. }
  split; [done|]. rewrite E. apply fp_mode_ok.
Qed.

(** An instruction assigns [v] to [c] and reports what its operation raised. *)
Definition instruction_effect (c : cell) (v : Z) (l : list Z) (s' : Sim) : Prop :=
  s' c = v /\ s' (SPR SPR_FPCSR) = report (or_flags l) (σ (SPR SPR_FPCSR)) /\ s' Float_exception_flags = 0 /\
  forall c', c' <> c -> c' <> SPR SPR_FPCSR -> c' <> G Float_exception_flags -> c' <> G Float_rounding_mode -> s' c' = σ c'.

Lemma hardfloat_effect body c v l :
  body σ1 = Ok tt (upd c v (raise_flags l σ1)) -> small_raises l -> inty (ctype c) v ->
  c <> SPR SPR_FPCSR -> c <> G Float_exception_flags -> c <> G Float_rounding_mode ->
  wp (hardfloat body) (fun _ => instruction_effect c v l) σ.
Proof.
  intros Hbody Hl Hv N1 N2 N3. unfold hardfloat. apply wpx_bind, wpx_isset.
  rewrite (proj2 (nz_spec _)) by done. apply wpx_bind. eapply wpx_eq; [apply float_set_rm_run|]. fold mode σ1.
  apply wpx_bind. eapply wpx_eq; [exact Hbody|]. set (s2 := upd c v _).
  assert (Hother : forall c', c' <> c -> c' <> G Float_exception_flags -> c' <> G Float_rounding_mode -> s2 c' = σ c').
  { intros. unfold s2. rewrite upd_ne, raise_flags_other by congruence. unfold σ1. apply upd_ne. congruence. }
  destruct (raise_flags_value l σ1 Hl) as [Ev _]; [unfold σ1; rewrite upd_ne by discriminate; lia|].
  assert (Ef : s2 Float_exception_flags = or_flags l).
  { unfold s2. rewrite upd_ne by done. rewrite Ev. unfold σ1. rewrite upd_ne, H0 by discriminate. done. }
  assert (Ht2 : typed s2).
  { apply upd_typed. assert (Hg : forall l s, typed s -> typed (raise_flags l s)).
    { clear. induction l as [|f l IH]; intros s Hs; [done|]. apply (IH (raise_flag s f)), upd_typed, Hs. }
    apply Hg, upd_typed, Ht. }
  apply float_set_flags_spec; [done | by rewrite Hother | ].
  intros s' E1 E2 E3. rewrite Ef, Hother in E1 by congruence. split; [|split; [done|split; [done|]]].
  - rewrite E3 by done. unfold s2. rewrite upd_eq. by apply wrap_small.
  - intros. rewrite E3, Hother by done. done.
Qed.

Lemma PARAM_after ps i x :
  PARAM ps i σ = Ok x σ -> PARAM ps i σ1 = Ok x σ1.
Proof.
  unfold PARAM. destruct (ps !! i) as [[r|v]|]; [|intros [= ->]; done | done].
  unfold rd. intros [= <-]. unfold σ1. by rewrite upd_ne.
Qed.
Lemma upd_u32 d v s : upd (GPR d) v s = upd (GPR d) (u32 v) s.
Proof. unfold upd. cbn [ctype]. by rewrite wrap_wrap. Qed.

(** C16: lf.add.s, lf.sub.s, lf.mul.s, lf.div.s and lf.rem.s put into their
    destination the result of the operation of IEEE 754 (the exact result
    rounded once, infinities, NaNs and signed zeros included) in the rounding
    mode that FPCSR selects; FPCSR then reports the exceptions of this operation
    and no others, and nothing else changes. *)
Theorem lf_binary_ieee f ref d ps x y :
  In (f, ref) binary_ops -> sources (P_reg d :: ps) σ x y ->
  wp (lf_binary f (P_reg d :: ps))
    (fun _ => instruction_effect (GPR d) (fst (ref mode x y)) (snd (ref mode x y))) σ.
Proof.
  intros Hin (E1 & E2 & Hx & Hy). destruct mode_set as [Em Hm].
  destruct (binary_op_word f ref mode x y Hin Hx Hy) as [Hw Hl].
  apply hardfloat_effect; [|done | by apply inty_U32 | done..].
  unfold bind. rewrite (PARAM_after _ _ _ E1), (PARAM_after _ _ _ E2).
  rewrite (binary_op_computes f ref x y σ1 Hin Hx Hy Hm), Em. done.
Qed.

(** lf.madd.s rounds twice: the product, and the sum. *)
Theorem lf_madd_ieee d ps w x y :
  PARAM (P_reg d :: ps) 0 σ = Ok w σ -> fword w -> sources (P_reg d :: ps) σ x y ->
  let m := ieee_mul mode x y in let r := ieee_add mode w (fst m) in
  wp (lf_madd_s (P_reg d :: ps)) (fun _ => instruction_effect (GPR d) (fst r) (snd m ++ snd r)) σ.
Proof.
  intros E0 Hw (E1 & E2 & Hx & Hy) m r. destruct mode_set as [Em Hm].
  assert (Hmul : In (Float32.float32_mul, ieee_mul) binary_ops) by (cbn; tauto).
  assert (Hadd : In (Float32.float32_add, ieee_add) binary_ops) by (cbn; tauto).
  destruct (binary_op_word _ _ mode x y Hmul Hx Hy) as [Hmw Hml]. fold m in Hmw, Hml.
  destruct (binary_op_word _ _ mode w (fst m) Hadd Hw Hmw) as [Hrw Hrl]. fold r in Hrw, Hrl.
  apply hardfloat_effect; [|by apply Forall_app | by apply inty_U32 | done..].
  unfold bind. rewrite (PARAM_after _ _ _ E0), (PARAM_after _ _ _ E1), (PARAM_after _ _ _ E2). cbn [float32_mul float32_softfloat float32_add].
  rewrite (binary_op_computes _ _ x y σ1 Hmul Hx Hy Hm), Em. fold m.
  assert (E : raise_flags (snd m) σ1 Float_rounding_mode = mode) by (rewrite raise_flags_other by discriminate; done).
  rewrite (binary_op_computes _ _ w (fst m) (raise_flags (snd m) σ1) Hadd Hw Hmw) by (rewrite E; apply fp_mode_ok).
  rewrite E. fold r. by rewrite <- raise_flags_app.
Qed.

(** lf.itof.s and lf.ftoi.s. *)
Theorem lf_convert_ieee d ps x :
  PARAM (P_reg d :: ps) 1 σ = Ok x σ -> fword x ->
  wp (lf_itof_s (P_reg d :: ps)) (fun _ =>
    instruction_effect (GPR d) (fst (ieee_of_int mode (s32 x))) (snd (ieee_of_int mode (s32 x)))) σ /\
  wp (lf_ftoi_s (P_reg d :: ps)) (fun _ =>
    instruction_effect (GPR d) (u32 (fst (ieee_to_int mode x))) (snd (ieee_to_int mode x))) σ.
Proof.
  intros E1 Hx. destruct mode_set as [Em Hm]. split.
  - destruct (rounded_word mode (s32 x <? 0) (Z.abs (s32 x) * 2 ^ 149) 1 ltac:(lia) ltac:(lia)) as [Hw Hl].
    apply hardfloat_effect; [|done | by apply inty_U32 | done..].
    unfold bind. rewrite (PARAM_after _ _ _ E1). cbn [int32_to_float32 float32_softfloat].
    rewrite (int32_to_float32_ieee (s32 x) σ1 Hm) by apply wrap_inty. rewrite Em. done.
  - apply hardfloat_effect; [|unfold ieee_to_int, small_raises; cbv zeta; repeat case_match; repeat constructor; discriminate || reflexivity
      | apply wrap_inty | done..].
    unfold bind. rewrite (PARAM_after _ _ _ E1). cbn [float32_to_int32 float32_softfloat].
    rewrite (float32_to_int32_ieee x σ1 Hm). rewrite Em. cbn [SET_PARAM0]. unfold wr. by rewrite upd_u32.
Qed.

(** The comparisons: their functions, whether a quiet NaN raises the invalid
    exception, the result with a NaN, and the relation of the values. *)
Definition compare_ops : list ((params -> M unit) * (bool * bool * (Z -> Z -> bool))) :=
  [(lf_sfeq_s, (false, false, Z.eqb)); (lf_sfne_s, (false, true, fun x y => negb (x =? y)));
   (lf_sfge_s, (true, false, Z.geb)); (lf_sfgt_s, (true, false, Z.gtb));
   (lf_sfle_s, (true, false, Z.leb)); (lf_sflt_s, (true, false, Z.ltb))].

Lemma lf_compare_effect g ps x y (b : bool) l :
  PARAM ps 0 σ = Ok x σ -> PARAM ps 1 σ = Ok y σ -> g x y σ1 = Ok b (raise_flags l σ1) -> small_raises l ->
  let sr := σ (SPR SPR_SR) in
  wp (lf_compare g ps) (fun _ =>
    instruction_effect (SPR SPR_SR) (if b then Z.lor sr SPR_SR_F else Z.land sr (Z.lnot SPR_SR_F)) l) σ.
Proof.
  intros E0 E1 Eg Hl sr. pose proof (typed_u32 σ (SPR SPR_SR) Ht eq_refl) as Hsr.
  apply hardfloat_effect; [|done | | done..].
  - unfold bind. rewrite (PARAM_after _ _ _ E0), (PARAM_after _ _ _ E1), Eg.
    assert (E : raise_flags l σ1 (SPR SPR_SR) = sr) by (rewrite raise_flags_other by discriminate; apply upd_ne; discriminate).
    unfold set_sr, ors, clr, bind, rd, wr. destruct b; by rewrite E.
  - apply inty_U32. fold sr in Hsr. destruct b; [apply lor_range; [lia | exact Hsr | split; [discriminate | reflexivity]] | by apply land_range].
Qed.

(** C17: the comparisons set SR[F] to the relation of the numbers that their
    operands stand for: the two zeros are equal, and with a NaN every relation
    but "not equal" is false; an ordered comparison of a NaN and any comparison
    of a signaling one report an invalid operation in FPCSR, and nothing else
    changes. *)
Theorem lf_compare_ieee instr signals nan rel ps x y :
  In (instr, (signals, nan, rel)) compare_ops ->
  PARAM ps 0 σ = Ok x σ -> PARAM ps 1 σ = Ok y σ -> fword x -> fword y ->
  let sr := σ (SPR SPR_SR) in
  let holds := if is_nan x || is_nan y then nan else rel (fval x) (fval y) in
  wp (instr ps) (fun _ =>
    instruction_effect (SPR SPR_SR) (if holds then Z.lor sr SPR_SR_F else Z.land sr (Z.lnot SPR_SR_F))
      (snd (ieee_compare x y signals rel))) σ.
Proof.
  intros Hin E0 E1 Hx Hy sr holds. destruct (float32_compares x y σ1 Hx Hy) as (Ceq & Cle & Clt & _).
  assert (Hl : small_raises (snd (ieee_compare x y signals rel))).
  { unfold ieee_compare. destruct (_ || _); [|constructor]. cbn [snd]. destruct (_ || _); repeat constructor; discriminate || reflexivity. }
  assert (Hg : exists g, instr = lf_compare g /\ g x y σ1 = Ok holds (raise_flags (snd (ieee_compare x y signals rel)) σ1)).
  { unfold holds, ieee_compare, computes in *. cbn in Hin.
    destruct Hin as [[= <- <- <- <-]|[[= <- <- <- <-]|[[= <- <- <- <-]|[[= <- <- <- <-]|[[= <- <- <- <-]|[[= <- <- <- <-]|[]]]]]]];
      (eexists; split; [reflexivity|]); unfold ordered, negated, bind; cbn [float32_eq float32_le float32_lt float32_is_nan float32_softfloat];
      rewrite ?Ceq, ?Cle, ?Clt; unfold ret; rewrite ?is_nan_spec by done;
      destruct (is_nan x), (is_nan y); cbn [orb fst snd negb andb]; rewrite ?andb_true_r, ?andb_false_r; try done.
    - by rewrite Z.geb_leb, Z.leb_antisym.
    - by rewrite Z.gtb_ltb, Z.ltb_antisym. }
  destruct Hg as (g & -> & Eg). by apply (lf_compare_effect g ps x y).
Qed.
End Instructions.

(** 1 / 3 to nearest even is inexact; -0 is not below 0, and comparing a NaN by
    order is invalid. *)
Definition ex_fp (x y : Z) : Sim := upd Cpu_hardfloat 1 (upd (GPR 1) x (upd (GPR 2) y zero_state)).
Lemma ex_fp_typed x y : typed (ex_fp x y).
Proof. do 3 apply upd_typed. exact zero_typed. Qed.

Lemma lf_binary_ieee_witness :
  ieee_div 0 0x3f800000 0x40400000 = (0x3eaaaaab, [float_flag_inexact]) /\
  wp (lf_binary Float32.float32_div ex_ps)
    (fun _ => instruction_effect (ex_fp 0x3f800000 0x40400000) (GPR 3) 0x3eaaaaab [float_flag_inexact])
    (ex_fp 0x3f800000 0x40400000).
Proof.
  split; [vm_compute; reflexivity|].
  refine (lf_binary_ieee (ex_fp 0x3f800000 0x40400000) (ex_fp_typed _ _) _ eq_refl eq_refl
            Float32.float32_div ieee_div 3 [P_reg 1; P_reg 2] 0x3f800000 0x40400000 _ _);
    [discriminate | cbn; tauto | repeat split; discriminate].
Defined.

Lemma lf_compare_ieee_witness :
  ieee_compare 0x80000000 0 true Z.ltb = (false, []) /\ ieee_compare 0x7fc00000 0 true Z.ltb = (false, [float_flag_invalid]) /\
  wp (@lf_sflt_s float32_softfloat [P_reg 1; P_reg 2])
    (fun _ => instruction_effect (ex_fp 0x7fc00000 0) (SPR SPR_SR) 0 [float_flag_invalid]) (ex_fp 0x7fc00000 0).
Proof.
  split; [vm_compute; reflexivity|]. split; [vm_compute; reflexivity|].
  refine (lf_compare_ieee (ex_fp 0x7fc00000 0) (ex_fp_typed _ _) _ eq_refl eq_refl
            (@lf_sflt_s float32_softfloat) true false Z.ltb [P_reg 1; P_reg 2] 0x7fc00000 0 _ eq_refl eq_refl _ _);
    [discriminate | cbn; tauto | split; [discriminate | reflexivity] | split; [discriminate | reflexivity]].
Defined.
End FloatInsn.
