(* ===== verification/FloatLaws.v ===== *)
(** * What the floating point functions promise to a user

    The results of the library in terms of the numbers they stand for, without
    the reference operations: nearness of sums, products and quotients,
    exactness of remainders and of conversions of small integers. *)

From S2P Require Export FloatInsn.

Module FloatLaws.
Import Insnset Float32 FloatRound FloatArith FloatAdd FloatConv FloatRem.

(** ** Nearness *)

(** [r] is the finite number nearest to [n / d] units; of two equally near ones
    its last bit is 0. *)
Definition nearest (r n d : Z) : Prop :=
  forall c, finite c = true ->
    Z.abs (fval r * d - n) <= Z.abs (fval c * d - n) /\
    (Z.abs (fval r * d - n) = Z.abs (fval c * d - n) -> fval c <> fval r -> Z.even r = true).

(** Half a unit in the last place above the largest finite number, in units. *)
Definition overflow_units : Z := (2 ^ 25 - 1) * 2 ^ 252.

Lemma finite_spec a : finite a = true <-> extractFloat32Exp a <> 255.
Proof. unfold finite. by rewrite negb_true_iff, Z.eqb_neq. Qed.

Lemma below_overflow s n d :
  0 <= n -> 0 < d -> n < overflow_units * d -> magnitude float_round_nearest_even s n d < inf_word.
Proof.
  intros Hn Hd Ho. unfold overflow_units in Ho. destruct (significand_bounds float_round_nearest_even s n d Hn Hd) as (H0 & Hm & Hl).
  unfold magnitude, inf_word. set (e := last_bit n d) in *. set (m := rnd _ s n _) in *. assert (0 < 2 ^ e) by lia.
  assert (e <= 253).
  { destruct (Z.le_gt_cases e 253); [done|]. destruct Hl as [_ Hl]; [lia|].
    assert (2 ^ 254 <= 2 ^ e) by (apply Z.pow_le_mono_r; lia).
    assert (d * 2 ^ 254 <= d * 2 ^ e) by (apply Z.mul_le_mono_nonneg_l; lia). lia. }
  destruct (Z.eq_dec e 253) as [E|]; [|lia]. set (D := d * 2 ^ e) in *. fold D in Hm.
  assert (HD : 0 < D /\ 2 * n < (2 ^ 25 - 1) * D) by (unfold D; rewrite E; lia). clearbody D.
  assert (m <= 2 ^ 24 - 1); [|lia].
  destruct (Z.le_gt_cases n ((2 ^ 24 - 1) * D)); [apply rnd_le; lia|].
  pose proof (rnd_nearest s n D (2 ^ 24 - 1) (proj1 HD)) as [Hr _]. fold m in Hr.
  destruct (Z.le_gt_cases m (2 ^ 24 - 1)); [done|]. assert (m = 2 ^ 24) as -> by lia. lia.
Qed.

Lemma nearest_of_units s r n d :
  0 <= n -> 0 < d -> extractFloat32Sign r = s ->
  (forall b, extractFloat32Exp b <> 255 ->
     Z.abs (n - units r * d) <= Z.abs (n - units b * d) /\
     (Z.abs (n - units r * d) = Z.abs (n - units b * d) -> units b <> units r -> Z.even r = true)) ->
  nearest r (with_sign s n) d.
Proof.
  intros Hn Hd Es Hr c Hc. apply finite_spec in Hc. pose proof (units_nonneg r). pose proof (units_nonneg c).
  destruct (Hr 0) as [Hz _]; [discriminate|]. change (units 0) with 0 in Hz.
  destruct (Hr c Hc) as [H1 H2]. unfold fval, with_sign. rewrite Es.
  assert (0 <= units r * d) by nia. assert (0 <= units c * d) by nia.
  assert (units c = units r \/ units c <> units r /\ units c * d <> units r * d) as [E|[N N']] by nia.
  - rewrite E in *. destruct s, (extractFloat32Sign c); (split; [lia|]); intros Ht Hne; nia.
  - destruct s, (extractFloat32Sign c); (split; [lia|]); intros Ht Hne; apply H2; lia.
Qed.

Lemma round32_exact mode s n d :
  0 <= n -> 0 < d -> magnitude mode s n d < inf_word ->
  (round32_raises mode s n d = [] <-> units (round32 mode s n d) * d = n).
Proof.
  intros Hn Hd Hf. destruct (round32_value mode s n d Hn Hd Hf) as (_ & _ & _ & ->).
  unfold round32_raises, inexact. rewrite (proj2 (Z.leb_gt inf_word _)) by done.
  set (e := last_bit n d). set (D := d * 2 ^ e). assert (HD : 0 < D).
  { assert (0 < 2 ^ e) by (apply Z.pow_pos_nonneg; [lia | apply Z.le_max_l]). unfold D. nia. }
  replace (rnd mode s n D * 2 ^ e * d) with (rnd mode s n D * D) by (unfold D; lia).
  unfold nz. destruct (Z.eqb_spec (n mod D) 0) as [E|E]; cbn [negb].
  - split; [intros _ | done]. pose proof (Z.div_mod n D ltac:(lia)) as En. rewrite E, Z.add_0_r in En.
    assert (Em : n / D * D = n) by lia. pose proof (rnd_multiple mode s (n / D) D HD) as Er. rewrite Em in Er. by rewrite Er.
  - split; [by destruct (tiny mode s n d)|]. intros En. contradict E. rewrite <- En. by apply Z.mod_mul; lia.
Qed.

(** What an operation promises of its exact value [n / d]. *)
Definition best (r : Z * list Z) (n d : Z) : Prop :=
  finite (fst r) = true /\ nearest (fst r) n d /\ (snd r = [] <-> fval (fst r) * d = n).

Lemma rounded_best s n d :
  0 <= n -> 0 < d -> n < overflow_units * d -> best (rounded float_round_nearest_even s n d) (with_sign s n) d.
Proof.
  intros Hn Hd Ho. pose proof (below_overflow s n d Hn Hd Ho) as Hf.
  destruct (round32_value _ s n d Hn Hd Hf) as (_ & Es & He & _). unfold best. cbn [fst snd rounded].
  split; [by apply finite_spec|]. split.
  - apply nearest_of_units; [done..|]. intros b Hb. by apply round32_nearest.
  - rewrite round32_exact by done. unfold fval, with_sign. rewrite Es. destruct s; lia.
Qed.

(** A negative divisor: the same quotient. *)
Lemma best_neg r n d : best r n d -> best r (- n) (- d).
Proof.
  intros (Hf & Hn & Hx). split; [done|]. split; [|rewrite Hx; lia].
  intros c Hc. destruct (Hn c Hc) as [H1 H2].
  replace (fval (fst r) * - d - - n) with (- (fval (fst r) * d - n)) by lia.
  replace (fval c * - d - - n) with (- (fval c * d - n)) by lia. by rewrite !Z.abs_opp.
Qed.

(** The arithmetic functions and their exact values, as fractions. *)
Definition exact_ops : list ((Z -> Z -> M Z) * (Z -> Z -> Z * Z)) :=
  [(float32_add, fun a b => (fval a + fval b, 1)); (float32_sub, fun a b => (fval a - fval b, 1));
   (float32_mul, fun a b => (fval a * fval b, 2 ^ 149)); (float32_div, fun a b => (fval a * 2 ^ 149, fval b))].

Lemma with_sign_abs n : with_sign (n <? 0) (Z.abs n) = n.
Proof. unfold with_sign. destruct (Z.ltb_spec n 0); lia. Qed.
Lemma fval_with_sign a : fval a = with_sign (extractFloat32Sign a) (units a).
Proof. done. Qed.

Lemma sum_best sb a b :
  finite a = true -> finite b = true ->
  let v := with_sign (extractFloat32Sign a) (units a) + with_sign sb (units b) in
  Z.abs v < overflow_units -> best (ieee_sum float_round_nearest_even sb a b) v 1.
Proof.
  intros Fa%finite_spec Fb%finite_spec v Hv. unfold ieee_sum.
  destruct (finite_class a Fa) as (-> & -> & _), (finite_class b Fb) as (-> & -> & _). cbn [orb]. fold v.
  destruct (Z.eqb_spec v 0) as [E|E].
  - set (s := if eqb _ _ then _ else _). rewrite <- (round32_zero float_round_nearest_even s 1) by done.
    pose proof (rounded_best s 0 1 ltac:(lia) ltac:(lia) eq_refl) as Hr.
    replace (with_sign s 0) with v in Hr by (rewrite E; by destruct s). exact Hr.
  - rewrite <- (with_sign_abs v) at 3. apply rounded_best; lia.
Qed.
Lemma mul_best a b :
  finite a = true -> finite b = true -> Z.abs (fval a * fval b) < overflow_units * 2 ^ 149 ->
  best (ieee_mul float_round_nearest_even a b) (fval a * fval b) (2 ^ 149).
Proof.
  intros Fa%finite_spec Fb%finite_spec Hv. unfold ieee_mul.
  destruct (finite_class a Fa) as (-> & -> & _), (finite_class b Fb) as (-> & -> & _). cbn [orb].
  pose proof (units_nonneg a). pose proof (units_nonneg b). assert (0 <= units a * units b) by nia.
  assert (E : fval a * fval b = with_sign (xorb (extractFloat32Sign a) (extractFloat32Sign b)) (units a * units b)).
  { unfold fval, with_sign. destruct (extractFloat32Sign a), (extractFloat32Sign b); cbn; lia. }
  rewrite E in *. apply rounded_best; [done | done|]. unfold with_sign in Hv. destruct (xorb _ _); lia.
Qed.
Lemma div_best a b :
  finite a = true -> finite b = true -> fval b <> 0 -> Z.abs (fval a * 2 ^ 149) < overflow_units * Z.abs (fval b) ->
  best (ieee_div float_round_nearest_even a b) (fval a * 2 ^ 149) (fval b).
Proof.
  intros Fa%finite_spec Fb%finite_spec Hb Hv. unfold ieee_div.
  destruct (finite_class a Fa) as (-> & -> & _), (finite_class b Fb) as (-> & -> & ->). cbn [orb].
  pose proof (units_nonneg a). pose proof (units_nonneg b).
  assert (0 < units b) by (unfold fval in Hb; destruct (extractFloat32Sign b); lia).
  rewrite (proj2 (Z.eqb_neq (units b) 0)) by lia.
  pose proof (rounded_best (xorb (extractFloat32Sign a) (extractFloat32Sign b)) (units a * 2 ^ 149) (units b)) as Hr.
  assert (Ho : units a * 2 ^ 149 < overflow_units * units b).
  { unfold fval in Hv. destruct (extractFloat32Sign a), (extractFloat32Sign b); lia. }
  specialize (Hr ltac:(lia) ltac:(lia) Ho). unfold fval, with_sign in *.
  destruct (extractFloat32Sign a), (extractFloat32Sign b); cbn [xorb] in *; rewrite ?Z.mul_opp_l; try done;
    apply best_neg in Hr; by rewrite ?Z.opp_involutive in Hr.
Qed.

(** C18: to nearest even, a sum, difference, product or quotient of finite numbers
    that is below the overflow threshold (half a unit in the last place above
    the largest finite number) is the finite number nearest to the exact value,
    the even one of two equally near; an exception is raised exactly when the
    result is not the exact value. *)
Theorem float32_nearest f exact a b (σ : Sim) :
  In (f, exact) exact_ops -> fword a -> fword b -> finite a = true -> finite b = true ->
  σ Float_rounding_mode = float_round_nearest_even ->
  let n := fst (exact a b) in let d := snd (exact a b) in
  d <> 0 -> Z.abs n < overflow_units * Z.abs d ->
  exists r, computes (f a b) σ r /\ best r n d.
Proof.
  intros Hin Ha Hb Fa Fb Em n d Hd Ho. assert (Hm : mode_ok (σ Float_rounding_mode)) by (rewrite Em; done).
  cbn in Hin. destruct Hin as [[= <- <-]|[[= <- <-]|[[= <- <-]|[[= <- <-]|[]]]]]; cbn [fst snd] in n, d.
  - eexists. split; [by apply float32_add_ieee|]. rewrite Em. apply sum_best; [done..|]. unfold n, d, fval in Ho. unfold with_sign. lia.
  - eexists. split; [by apply float32_sub_ieee|]. rewrite Em.
    assert (En : n = with_sign (extractFloat32Sign a) (units a) + with_sign (negb (extractFloat32Sign b)) (units b)).
    { unfold n, fval, with_sign. destruct (extractFloat32Sign a), (extractFloat32Sign b); cbn; lia. }
    rewrite En in *. apply sum_best; [done..|]. unfold d in Ho. lia.
  - eexists. split; [by apply float32_mul_ieee|]. rewrite Em. apply mul_best; done.
  - eexists. split; [by apply float32_div_ieee|]. rewrite Em. apply div_best; done.
Qed.

(** ** Exactness *)

(** The remainder has the exponent of one of the operands and fits its
    significand. *)
Lemma exact_rem_bounds a b :
  0 < units b ->
  let q := rnd float_round_nearest_even false (units a) (units b) in
  2 * Z.abs (exact_rem a b) <= units b /\ (2 * Z.abs (exact_rem a b) = units b -> Z.even q = true) /\
  Z.abs (exact_rem a b) <= units a.
Proof.
  intros Hb q. unfold exact_rem. fold q. pose proof (units_nonneg a) as Ha.
  pose proof (rnd_nearest false (units a) (units b) 0 Hb) as [H0 _]. fold q in H0.
  pose proof (rnd_nearest false (units a) (units b) (q + 1) Hb) as [H1 H1']. fold q in H1, H1'.
  pose proof (rnd_nearest false (units a) (units b) (q - 1) Hb) as [H2 H2']. fold q in H2, H2'.
  set (x := q * units b) in *. replace ((q + 1) * units b) with (x + units b) in * by (unfold x; lia).
  replace ((q - 1) * units b) with (x - units b) in * by (unfold x; lia). clearbody x.
  split; [lia|]. split; [|lia]. intros Ht. destruct (Z.le_gt_cases 0 (units a - x)); [apply H1' | apply H2']; lia.
Qed.

Lemma exact_rem_representable a b :
  finite a = true -> finite b = true -> 0 < units b ->
  exists m e, 0 <= m < 2 ^ 24 /\ 0 <= e <= 253 /\ Z.abs (exact_rem a b) = m * 2 ^ e.
Proof.
  intros Fa%finite_spec Fb%finite_spec Hb. destruct (exact_rem_bounds a b Hb) as (H1 & _ & H2).
  destruct (sig_bounds a) as [Sa _], (sig_bounds b) as [Sb _]. pose proof (exp_bounds a). pose proof (exp_bounds b).
  set (e := Z.min (sig_exp a) (sig_exp b) - 1).
  assert (He : 0 <= e <= 253) by (unfold e, sig_exp; lia). assert (0 < 2 ^ e) by lia.
  assert (Hu : forall c, e <= sig_exp c - 1 -> units c = sig c * 2 ^ (sig_exp c - 1 - e) * 2 ^ e).
  { intros c Hc. rewrite sig_units, <- Z.mul_assoc, <- Z.pow_add_r by lia. do 2 f_equal. lia. }
  set (t := sig a * 2 ^ (sig_exp a - 1 - e) - rnd float_round_nearest_even false (units a) (units b) * (sig b * 2 ^ (sig_exp b - 1 - e))).
  assert (Et : exact_rem a b = t * 2 ^ e).
  { unfold t. rewrite Z.mul_sub_distr_r, <- Hu, <- Z.mul_assoc, <- Hu by (unfold e; lia). done. }
  exists (Z.abs t), e. rewrite Et, Z.abs_mul, (Z.abs_eq (2 ^ e)) in * by lia. split; [|done]. split; [lia|].
  destruct (Z.le_gt_cases (sig_exp b) (sig_exp a)).
  - rewrite (Hu b), (proj2 (Z.sub_move_0_r (sig_exp b - 1) e)), Z.pow_0_r in H1 by (unfold e; lia). nia.
  - rewrite (Hu a), (proj2 (Z.sub_move_0_r (sig_exp a - 1) e)), Z.pow_0_r in H2 by (unfold e; lia). nia.
Qed.

(** C19: the remainder of finite numbers is exact and raises no exception: it
    differs from [a] by a whole multiple of [b], the one that brings it nearest
    to 0, the even one of two; a zero remainder has the sign of [a]. *)
Theorem float32_rem_exact a b (σ : Sim) :
  fword a -> fword b -> finite a = true -> finite b = true -> fval b <> 0 -> mode_ok (σ Float_rounding_mode) ->
  exists r k, float32_rem a b σ = Ok r σ /\ finite r = true /\ fval r = fval a - k * fval b /\
    2 * Z.abs (fval r) <= Z.abs (fval b) /\ (2 * Z.abs (fval r) = Z.abs (fval b) -> Z.even k = true) /\
    (fval r = 0 -> extractFloat32Sign r = extractFloat32Sign a).
Proof.
  intros Ha Hb Fa Fb Nb Hm. pose proof (float32_rem_ieee a b σ Ha Hb Hm) as Hc.
  assert (Hub : 0 < units b) by (pose proof (units_nonneg b); unfold fval in Nb; destruct (extractFloat32Sign b); lia).
  destruct (exact_rem_bounds a b Hub) as (H1 & H2 & _).
  destruct (exact_rem_representable a b Fa Fb Hub) as (m & e & Hsm & He & Er).
  set (q := rnd float_round_nearest_even false (units a) (units b)) in *.
  set (s := extractFloat32Sign a). set (R := exact_rem a b) in *.
  assert (ER : R = units a - q * units b) by done.
  assert (Hr : exists r, float32_rem a b σ = Ok r σ /\ finite r = true /\ fval r = with_sign s R /\
    (R = 0 -> extractFloat32Sign r = s)).
  { unfold computes, ieee_rem in Hc. fold R s in Hc. pose proof Fa as Fa'. pose proof Fb as Fb'. apply finite_spec in Fa', Fb'.
    destruct (finite_class a Fa') as (Na & Ia & _), (finite_class b Fb') as (Nb' & Ib & Zb).
    rewrite Na, Ia, Nb', Ib, Zb, (proj2 (Z.eqb_neq (units b) 0)) in Hc by lia. cbn [orb] in Hc.
    destruct (Z.eqb_spec R 0) as [E|E].
    - exists (signed s 0). split; [exact Hc|]. rewrite E. destruct s; repeat split; done.
    - rewrite Er in Hc. destruct (round_representable (σ Float_rounding_mode) (xorb s (R <? 0)) m e Hsm He) as (E0 & _ & Eu & Es & Ef).
      rewrite E0 in Hc. eexists. split; [exact Hc|]. split; [by apply finite_spec|]. split; [|done].
      unfold fval, with_sign. rewrite Es, Eu, <- Er. destruct (Z.ltb_spec R 0), s; cbn [xorb]; lia. }
  destruct Hr as (r & Hr & Fr & Ev & Hs). exists r, (with_sign (xorb s (extractFloat32Sign b)) q).
  split; [exact Hr|]. split; [done|]. rewrite Ev. unfold fval, with_sign. fold s.
  destruct s, (extractFloat32Sign b); cbn [xorb]; rewrite ?Z.even_opp;
    (split; [lia|]); (split; [lia|]); (split; [intros; apply H2; lia | intros; apply Hs; lia]).
Qed.

(** An integer of at most 24 bits survives the conversion to a
    floating point number and back, in every rounding mode, without an
    exception. *)
Theorem int_roundtrip v (σ : Sim) :
  mode_ok (σ Float_rounding_mode) -> - 2 ^ 24 <= v <= 2 ^ 24 ->
  (r ← int32_to_float32 v; float32_to_int32 r) σ = Ok v σ.
Proof.
  intros Hm Hv. assert (Hi : inty I32 v) by (apply inty_I32; lia).
  pose proof (int32_to_float32_ieee v σ Hm Hi) as Hc. set (s := v <? 0) in *. set (mode := σ Float_rounding_mode) in *.
  assert (Hr : exists m e, 0 <= m < 2 ^ 24 /\ 0 <= e <= 253 /\ Z.abs v * 2 ^ 149 = m * 2 ^ e).
  { destruct (Z.eq_dec (Z.abs v) (2 ^ 24)) as [->|]; [exists (2 ^ 23), 150 | exists (Z.abs v), 149]; lia. }
  destruct Hr as (m & e & Hsm & He & E). unfold ieee_of_int in Hc. fold s mode in Hc.
  destruct (round_representable mode s m e Hsm He) as (E0 & _ & Eu & Es & Ef). rewrite <- E in *.
  unfold computes in Hc. rewrite E0 in Hc. unfold bind. rewrite Hc. cbn [raise_flags foldl].
  rewrite (float32_to_int32_ieee _ σ Hm). fold mode. unfold ieee_to_int.
  destruct (finite_class _ Ef) as (-> & -> & _). rewrite Es, Eu, rnd_multiple, Z.mod_mul by lia.
  replace (with_sign s (Z.abs v)) with v by (unfold s; by rewrite with_sign_abs).
  replace (- 2 ^ 31 <=? v) with true by (symmetry; apply Z.leb_le; lia).
  by replace (v <? 2 ^ 31) with true by (symmetry; apply Z.ltb_lt; lia).
Qed.

(** 1 / 3, the remainder of 5 by 3, and -(2 ^ 24). *)
Lemma float32_nearest_witness :
  exists r, computes (float32_div 0x3f800000 0x40400000) zero_state r /\ best r (fval 0x3f800000 * 2 ^ 149) (fval 0x40400000).
Proof.
  refine (float32_nearest float32_div _ 0x3f800000 0x40400000 zero_state (or_intror (or_intror (or_intror (or_introl eq_refl))))
    _ _ eq_refl eq_refl eq_refl _ _); [split; [discriminate | reflexivity].. | discriminate | vm_compute; reflexivity].
Defined.

Lemma float32_rem_exact_witness :
  exists r k, float32_rem 0x40a00000 0x40400000 zero_state = Ok r zero_state /\ finite r = true /\
    fval r = fval 0x40a00000 - k * fval 0x40400000 /\
    2 * Z.abs (fval r) <= Z.abs (fval 0x40400000) /\ (2 * Z.abs (fval r) = Z.abs (fval 0x40400000) -> Z.even k = true) /\
    (fval r = 0 -> extractFloat32Sign r = extractFloat32Sign 0x40a00000).
Proof.
  refine (float32_rem_exact 0x40a00000 0x40400000 zero_state _ _ eq_refl eq_refl _ _);
    [split; [discriminate | reflexivity] | split; [discriminate | reflexivity] | discriminate | split; discriminate].
Defined.

Lemma int_roundtrip_witness :
  (r ← int32_to_float32 (- 2 ^ 24); float32_to_int32 r) zero_state = Ok (- 2 ^ 24) zero_state.
Proof. refine (int_roundtrip (- 2 ^ 24) zero_state _ _); split; discriminate. Defined.
End FloatLaws.
