(* ===== verification/Execute.v ===== *)
(** * Decoding and executing one instruction

    The code cpu/or32/generate.c writes into execgen.c at build time, which is
    the body of [decode_execute], and the functions of cpu/or32/execute.c
    around it: one clock of the CPU and one turn of the main loop. *)

From S2P Require Export Bus Rsp Insnset Disasm.

#[global] Open Scope Z_scope.
#[global] Open Scope sim_scope.

Module Execute.
Import Sched Debug Except Tick Pic Mem Ram Mmu Dcache Icache Abstract Sprs Bpb Insnset Or32 Decode Operands.

(** ** Operands ([gen_eval_operands]) *)

Record operands := Operands {
  ops_params : params;
  ops_dis : option nat }.          (* the operand that is an address, [dis_op] *)

(** [(insn >> shr) & mask] *)
Definition field (insn : Z) (opd : insn_op_struct) : Z :=
  Z.land (Z.shiftr insn (Z.land (type opd) OPTYPE_SHR)) (u32 (s32 (s32 (Z.shiftl 1 (data opd)) - 1))).

(** The rest of the loop body once [cur] has the bits of descriptor [opd]: for
    a displacement the register of the next descriptor is added; at the end of
    an operand its parameter is defined; [k] is the next turn of the loop. *)
Definition end_of_field (k : list insn_op_struct -> Z -> Z -> bool -> operands -> M operands)
  (insn : Z) (opd : insn_op_struct) (rest : list insn_op_struct) (cur nbits : Z) (dis : bool)
  (acc : operands) : M operands :=
  let is_dis := nz (Z.land (type opd) OPTYPE_DIS) && nz (Z.land (type opd) OPTYPE_OP) in
  st ← (if is_dis then
          match rest with
          | [] => stop_with Undefined
          | reg :: rest =>
              r ← rd (GPR (field insn reg));
              ret (reg, rest, u32 (s32 (u32 (sign_operand opd cur)) + s32 r), true)
          end
        else ret (opd, rest, cur, dis));
  let '(opd, rest, cur, dis) := st in
  let acc := Operands (ops_params acc)
               (if is_dis then Some (length (ops_params acc)) else ops_dis acc) in
  let is_op := nz (Z.land (type opd) OPTYPE_OP) in
  let cur := if is_op then u32 (sign_operand opd cur) else cur in
  let acc :=
    if is_op then
      Operands (ops_params acc ++
                [if nz (Z.land (type opd) OPTYPE_REG) && negb dis then P_reg cur else P_val cur])
               (ops_dis acc)
    else acc in
  if nz (Z.land (type opd) OPTYPE_LAST) then ret acc
  else if is_op then k rest 0 0 false acc
  else k rest cur nbits dis acc.

(** The loop of [gen_eval_operands]: [cur] is the variable of the current
    operand, [nbits] the bits it has, [acc] the operands before it. *)
Fixpoint eval_operands (fuel : nat) (insn : Z) (opds : list insn_op_struct) (cur nbits : Z) (dis : bool)
  (acc : operands) : M operands :=
  match fuel, opds with
  | O, _ => stop_with Out_of_fuel
  | _, [] => stop_with Undefined
  | S fuel, opd :: rest =>
      let cur :=
        if nz nbits then Z.lor cur (u32 (Z.shiftl (field insn opd) nbits)) else field insn opd in
      end_of_field (eval_operands fuel insn) insn opd rest cur (nbits + data opd) dis acc
  end.
Definition gen_eval_operands (insn : Z) (opds : list insn_op_struct) : M operands :=
  eval_operands (length opds) insn opds 0 0 false (Operands [] None).

(** [write_to_reg] is set while the code is generated. *)
Fixpoint writes_reg (opds : list insn_op_struct) (dis : bool) : bool :=
  match opds with
  | [] => false
  | opd :: rest =>
      let is_op := nz (Z.land (type opd) OPTYPE_OP) in
      (is_op && nz (Z.land (type opd) OPTYPE_REG) && negb dis && nz (Z.land (type opd) OPTYPE_DST))
      || (if nz (Z.land (type opd) OPTYPE_LAST) then false
          else writes_reg rest (if is_op then nz (Z.land (type opd) OPTYPE_DIS) else dis))
  end.

(** ** Instruction bodies ([output_function]) *)

Section Execute.
Context `{Devices} `{Softfloat} `{Host}.

(** The functions insnset.c defines. *)
Definition instructions : list (string * (params -> M unit)) :=
  [("l_add", l_add); ("l_addc", l_addc); ("l_swa", l_swa); ("l_sw", l_sw); ("l_sb", l_sb);
   ("l_sh", l_sh); ("l_lwa", l_lwa); ("l_lws", l_lws); ("l_lwz", l_lwz); ("l_lbs", l_lbs);
   ("l_lbz", l_lbz); ("l_lhs", l_lhs); ("l_lhz", l_lhz); ("l_movhi", l_movhi); ("l_and", l_and);
   ("l_or", l_or); ("l_xor", l_xor); ("l_sub", l_sub); ("l_mul", l_mul); ("l_mulu", l_mulu);
   ("l_div", l_div); ("l_divu", l_divu); ("l_sll", l_sll); ("l_sra", l_sra); ("l_srl", l_srl);
   ("l_ror", l_ror); ("l_bf", l_bf); ("l_bnf", l_bnf); ("l_j", l_j); ("l_jal", l_jal);
   ("l_jalr", l_jalr); ("l_jr", l_jr); ("l_rfe", l_rfe); ("l_nop", l_nop); ("l_sfeq", l_sfeq);
   ("l_sfne", l_sfne); ("l_sfgts", l_sfgts); ("l_sfges", l_sfges); ("l_sflts", l_sflts);
   ("l_sfles", l_sfles); ("l_sfgtu", l_sfgtu); ("l_sfgeu", l_sfgeu); ("l_sfltu", l_sfltu);
   ("l_sfleu", l_sfleu); ("l_extbs", l_extbs); ("l_extbz", l_extbz); ("l_exths", l_exths);
   ("l_exthz", l_exthz); ("l_extws", l_extws); ("l_extwz", l_extwz); ("l_mtspr", l_mtspr);
   ("l_mfspr", l_mfspr); ("l_sys", l_sys); ("l_trap", l_trap); ("l_mac", l_mac); ("l_msb", l_msb);
   ("l_macrc", l_macrc); ("l_cmov", l_cmov); ("l_ff1", l_ff1); ("l_fl1", l_fl1);
   ("lf_add_s", lf_add_s); ("lf_div_s", lf_div_s); ("lf_ftoi_s", lf_ftoi_s);
   ("lf_itof_s", lf_itof_s); ("lf_madd_s", lf_madd_s); ("lf_mul_s", lf_mul_s);
   ("lf_rem_s", lf_rem_s); ("lf_sfeq_s", lf_sfeq_s); ("lf_sfge_s", lf_sfge_s);
   ("lf_sfgt_s", lf_sfgt_s); ("lf_sfle_s", lf_sfle_s); ("lf_sflt_s", lf_sflt_s);
   ("lf_sfne_s", lf_sfne_s); ("lf_sub_s", lf_sub_s); ("l_cust1", l_cust1); ("l_cust2", l_cust2);
   ("l_cust3", l_cust3); ("l_cust4", l_cust4); ("lf_cust1", lf_cust1)]%string.

(** [output_function] copies the body of the function from insnset.c.  For a
    name that is not there it means to write a call, but insnset.c ends in a
    newline, so that [fgets] fails before [feof] is true and the function
    returns having written nothing. *)
Definition output_function (func_name : string) (ps : params) : M unit :=
  match list_find (fun p => fst p = func_name) instructions with
  | Some (_, (_, body)) => body ps
  | None => ret tt
  end.

(** ** Statistics ([check_depend], [analysis]) *)

(** The first loop of [check_depend]: the destination register of [prev]. *)
Fixpoint depend_dest (insn : Z) (opds : list insn_op_struct) : M (option Z) :=
  match opds with
  | [] => stop_with Undefined
  | opd :: rest =>
      if nz (Z.land (type opd) OPTYPE_DST) then
        match eval_operand_val insn opds with Some v => ret (Some v) | None => stop_with Undefined end
      else if nz (Z.land (type opd) OPTYPE_LAST) then ret None
      else depend_dest insn rest
  end.
(** The second loop: does a source operand of [next] read it?  [next_dis] is
    never cleared there. *)
Fixpoint depend_source (insn : Z) (opds : list insn_op_struct) (prev_reg_val : Z) (next_dis : bool)
  : M bool :=
  match opds with
  | [] => stop_with Undefined
  | opd :: rest =>
      let next_dis := next_dis || nz (Z.land (type opd) OPTYPE_DIS) in
      let dst := nz (Z.land (type opd) OPTYPE_DST) in
      v ← (if (negb dst || (next_dis && dst)) && nz (Z.land (type opd) OPTYPE_REG) then
             match eval_operand_val insn opds with Some v => ret (Some v) | None => stop_with Undefined end
           else ret None);
      if bool_decide (v = Some prev_reg_val) then ret true
      else if nz (Z.land (type opd) OPTYPE_LAST) then ret false
      else depend_source insn rest prev_reg_val next_dis
  end.

(** [or1ksim_or32_opcodes[i]] and [or1ksim_op_start[i]]; the index -1 of an
    invalid instruction is outside both. *)
Definition opcode_at (i : Z) : M or32_opcode :=
  match (if 0 <=? i then or1ksim_or32_opcodes !! Z.to_nat i else None) with
  | Some o => ret o
  | None => stop_with Undefined
  end.
Definition op_start_at (t : tables) (i : Z) : M (list insn_op_struct) :=
  match (if 0 <=? i then opds_of t (Z.to_nat i) else None) with
  | Some opds => ret opds
  | None => stop_with Undefined
  end.

(** [check_depend (&cpu_state.icomplet, current)] *)
Definition check_depend (t : tables) : M Z :=
  pi ← rd Ico_insn_index; prev ← opcode_at pi;
  ni ← rd Iq_insn_index;
  next ← (if nz (Z.land (flags prev) OR32_W_FLAG) then opcode_at ni else ret prev);
  if nz (Z.land (flags prev) OR32_W_FLAG) && nz (Z.land (flags next) OR32_R_FLAG) then ret 1
  else
    popds ← op_start_at t pi;
    pinsn ← rd Ico_insn;
    dest ← depend_dest pinsn popds;
    match dest with
    | None => ret 0
    | Some prev_reg_val =>
        nopds ← op_start_at t ni;
        ninsn ← rd Iq_insn;
        b ← depend_source ninsn nopds prev_reg_val false;
        ret (b2z b)
    end.

Definition unit_code (u : insn_type) : Z :=
  match u with
  | it_unknown => 0 | it_exception => 1 | it_arith => 2 | it_shift => 3 | it_compare => 4
  | it_branch => 5 | it_jump => 6 | it_load => 7 | it_store => 8 | it_movimm => 9
  | it_move => 10 | it_extend => 11 | it_nop => 12 | it_mac => 13 | it_float => 14
  end.

(** [multissue[u] = n] *)
Definition issue (u : insn_type) (n : Z) : M unit := wr (Multissue (unit_code u)) n.

(** [analysis (current)], without the execution history and the log files. *)
Definition analysis (t : tables) : M unit :=
  dependstats ← isset Cpu_dependstats;
  when dependstats
    (pi ← rd Ico_insn_index; ni ← rd Iq_insn_index;
     d ← check_depend t; emit (Ev_dstats pi ni d);;
     prev ← opcode_at pi; next ← opcode_at ni;
     d ← check_depend t; emit (Ev_fstats (unit_code (func_unit prev)) (unit_code (func_unit next)) d);;
     emit (Ev_sstats ni));;
  superscalar ← isset Cpu_superscalar;
  when superscalar
    (ni ← rd Iq_insn_index; next ← opcode_at ni;
     when (bool_decide (func_unit next = it_store)) (adds Storecycles 1);;
     when (bool_decide (func_unit next = it_load)) (adds Loadcycles 1);;
     m ← rd (Multissue (unit_code (func_unit next)));
     d ← (if m <? 1 then ret 0 else check_depend t);
     per_cycle ← rd Issued_per_cycle;
     when ((m <? 1) || nz d || (per_cycle <? 1))
       (for_ 20 0 1 (fun i => wr (Multissue i) 2);;
        wr Issued_per_cycle 2;;
        adds Supercycles 1;;
        d ← check_depend t; when (nz d) (adds Hazardwait 1);;
        issue it_unknown 2;; issue it_shift 2;; issue it_compare 1;; issue it_branch 1;;
        issue it_jump 1;; issue it_extend 2;; issue it_nop 2;; issue it_move 2;;
        issue it_movimm 2;; issue it_arith 2;; issue it_store 2;; issue it_load 2);;
     adds (Multissue (unit_code (func_unit next))) (-1);;
     adds Issued_per_cycle (-1));;
  when dependstats
    (i ← rd Iq_insn_index; wr Ico_insn_index i;;
     w ← rd Iq_insn; wr Ico_insn w;;
     a ← rd Iq_insn_addr; wr Ico_insn_addr a).

(** ** The generated decoder *)

(** [output_call (fo, index, level)]: operands, body, statistics, and the
    repair of r0. *)
Definition output_stats (t : tables) (ea : option Z) (index : Z) : M unit :=
  do_stats ← isset Do_stats;
  when do_stats
    (match ea with Some a => wr Insn_ea a | None => ret tt end;;
     wr Iq_insn_index index;; analysis t).

Definition ops_ea (ops : operands) : option Z :=
  match ops_dis ops with
  | None => None
  | Some i => match ops_params ops !! i with Some (P_val v) => Some v | _ => None end
  end.

Definition output_call (t : tables) (index insn : Z) : M unit :=
  o ← opcode_at index;
  opds ← op_start_at t index;
  ops ← gen_eval_operands insn opds;
  output_function (function_name o) (ops_params ops);;
  output_stats t (ops_ea ops) index;;
  when (writes_reg opds false) (wr (GPR 0) 0).

(** [output_call (fo, -1, level)] in the else branch of instruction [index]:
    [write_to_reg] still has the value of that instruction. *)
Definition output_call_invalid (t : tables) (index : Z) : M unit :=
  opds ← op_start_at t index;
  output_function "l_invalid" [];;
  output_stats t None (-1);;
  when (writes_reg opds false) (wr (GPR 0) 0).

(** [generate_body]: nested switches; a branch of the automaton that is 0
    raises an illegal instruction exception, and a leaf checks the remaining
    bits unless the switches above it have covered them. *)
Fixpoint generate_body (t : tables) (fuel : nat) (a cur_mask insn : Z) : M unit :=
  match fuel, or1ksim_automata t !! a with
  | O, _ => stop_with Out_of_fuel
  | _, None => stop_with Undefined
  | S fuel, Some w =>
      if negb (nz (Z.land w LEAF_FLAG)) then
        match or1ksim_automata t !! (a + 1) with
        | None => stop_with Undefined
        | Some m =>
            match or1ksim_automata t !! (a + 2 + Z.land (Z.shiftr insn w) m) with
            | None => stop_with Undefined
            | Some c =>
                if c =? 0 then pc ← rd Pc; except_handle EXCEPT_ILLEGAL pc
                else generate_body t fuel c (Z.lor cur_mask (Z.shiftl m w)) insn
            end
        end
      else
        let i := Z.land w (u32 (Z.lnot LEAF_FLAG)) in
        match or1ksim_ti t !! Z.to_nat i with
        | None => stop_with Undefined
        | Some e =>
            if negb (insn_mask e =? cur_mask) then
              if Z.land insn (insn_mask e) =? Or32.insn e then output_call t i insn
              else output_call_invalid t i
            else output_call t i insn
        end
  end.

Definition decode_execute (t : tables) : M unit :=
  insn ← rd Iq_insn; generate_body t 33 0 0 insn.

(** [decode_execute_wrapper (&cpu_state.iqueue)] *)
Definition decode_execute_wrapper (t : tables) : M unit :=
  wr Breakpoint 0;;
  decode_execute t;;
  bp ← isset Breakpoint;
  when bp (eear ← rd (SPR SPR_EEAR_BASE); except_handle EXCEPT_TRAP eear).

(** ** One clock of the CPU *)

Definition has_breakpoint (addr : Z) : M bool :=
  l ← gets (fun s => breakpoints (dbg s)); ret (existsb (Z.eqb addr) l).

(** [fetch]: true when the instruction should not be executed. *)
Definition fetch_insn : M unit :=
  wr Breakpoint 0;;
  pc ← rd Pc; wr Iq_insn_addr pc;;
  pc ← rd Pc; insn ← eval_insn pc Breakpoint; wr Iq_insn insn;;
  pending ← isset Except_pending;
  when (negb pending) (adds Instructions 1).
Definition fetch : M bool :=
  l ← gets (fun s => breakpoints (dbg s));
  stop ← match l with
         | [] => ret false
         | _ :: _ =>
             pc ← rd Pc; phys ← peek_into_itlb pc;
             hit ← has_breakpoint phys;
             just ← isset Break_just_hit;
             let stop := hit && negb just in
             wr Break_just_hit (b2z stop);; ret stop
         end;
  if stop : bool then ret true else fetch_insn;; ret false.

Definition update_pc : M unit :=
  next ← rd Next_delay_insn; wr Delay_insn next;;
  pc ← rd Pc; wr (SPR SPR_PPC) pc;;
  pcnext ← rd Pcnext; wr Pc pcnext;;
  delay ← isset Delay_insn;
  pc_delay ← rd Pc_delay; pcnext ← rd Pcnext;
  wr Pcnext (if delay : bool then pc_delay else pcnext + 4).

(** [cpu_clock]: true when a breakpoint is hit. *)
Definition cpu_clock (t : tables) : M bool :=
  wr Except_pending 0;;
  wr Next_delay_insn 0;;
  stop ← fetch;
  if stop : bool then ret true
  else
    pending ← isset Except_pending;
    if pending : bool then update_pc;; wr Except_pending 0;; ret false
    else
      bp ← isset Breakpoint;
      if bp : bool then
        eear ← rd (SPR SPR_EEAR_BASE); except_handle EXCEPT_TRAP eear;;
        update_pc;; wr Except_pending 0;; ret false
      else decode_execute_wrapper t;; update_pc;; ret false.

(** [cpu_reset], without the execution history. *)
Definition cpu_reset : M unit :=
  wr Cycles 0;; wr Loadcycles 0;; wr Storecycles 0;; wr Instructions 0;;
  wr Supercycles 0;; wr Hazardwait 0;;
  for_ (Z.to_nat MAX_GPRS) 0 1 (fun i => setsim_reg i 0);;
  wr Iq_insn_index 0;; wr Iq_insn 0;; wr Iq_insn_addr 0;;
  wr Ico_insn_index 0;; wr Ico_insn 0;; wr Ico_insn_addr 0;;
  wr Sbuf_head 0;; wr Sbuf_tail 0;; wr Sbuf_count 0;; wr Sbuf_prev_cycles 0;;
  eph ← flag (SPR SPR_SR) SPR_SR_EPH;
  wr Pcnext (if eph : bool then 0xf0000000 else 0x00000000);;
  pcnext ← rd Pcnext; wr Pc pcnext;;
  adds Pcnext 4;;
  except_handle EXCEPT_RESET 0;;
  update_pc;;
  wr Except_pending 0;;
  eph ← flag (SPR SPR_SR) SPR_SR_EPH;
  wr Pc (if eph : bool then 0xf0000000 + EXCEPT_RESET else EXCEPT_RESET).

(** ** The main loop *)

(** The monitor and the scheduled functions of the peripherals that are not
    modelled, which may change any of the state. *)
Class Monitor := {
  handle_sim_command : M unit;     (* sim-cmd.c *)
  check_insn_exec : Z -> M unit;
  vapi_check : M unit;             (* vapi/vapi.c *)
  device_job : Z -> Z -> M unit;   (* peripheral/ *)
  handle_sim_command_typed :: Respects keeps_typed handle_sim_command;
  check_insn_exec_typed :: forall p, Respects keeps_typed (check_insn_exec p);
  vapi_check_typed :: Respects keeps_typed vapi_check;
  device_job_typed :: forall n p, Respects keeps_typed (device_job n p) }.

Context `{Monitor} `{Channels} `{Rsp.Client}.

(** [check_int] (toplevel-support.c). *)
Definition CHECK_INT_TIME : Z := 100000.
Definition check_int : M unit :=
  iprompt ← isset Iprompt;
  when iprompt (set_stall_state 0;; handle_sim_command);;
  sched_add J_check_int 0 CHECK_INT_TIME.

(** The call through [tmp->func] in [do_scheduler]. *)
Definition run_job (f : job_fn) (p : Z) : M unit :=
  match f with
  | J_sched_guard => sched_guard p
  | J_pic_rep_int => pic_rep_int p
  | J_tick_raise_except => tick_raise_except p
  | J_tick_restart => tick_restart p
  | J_tick_one_shot => tick_one_shot p
  | J_check_insn_exec => check_insn_exec p
  | J_check_int => check_int
  | J_gpio_clock => Gpio.gpio_clock p
  | J_gpio_do_int => Gpio.gpio_do_int p
  | J_dma_channel_clock => Dma.on_channel Dma.dma_channel_clock p
  | J_uart_int_cti => Uart.uart_int_cti p
  | J_uart_char_clock => Uart.uart_char_clock p
  | J_uart_send_break => Uart.uart_send_break p
  | J_uart_tx_send => Uart.uart_tx_send p
  | J_uart_recv_break_start => Uart.uart_recv_break_start p
  | J_uart_recv_break_stop => Uart.uart_recv_break_stop p
  | J_uart_recv_break => Uart.uart_recv_break p
  | J_uart_recv_char => Uart.uart_recv_char p
  | J_uart_check_char => Uart.uart_check_char p
  | J_uart_vapi_cmd => Uart.uart_vapi_cmd p
  | J_device n => device_job n p
  end.

(** [trace_instr]; [Disasm] has the text of the line. *)
Definition trace_instr : M unit :=
  addr ← rd Iq_insn_addr; insn ← rd Iq_insn;
  phys ← peek_into_itlb addr;
  emit (if nz phys then Ev_trace phys addr insn else Ev_no_trace).

(** [while (runtime.cpu.stalled) ...] *)
Fixpoint wait_stalled (fuel : nat) : M unit :=
  stalled ← isset Stalled;
  if negb stalled then ret tt
  else
    match fuel with
    | O => stop_with Out_of_fuel
    | S fuel =>
        rsp ← isset Debug_rsp_enabled;
        (if rsp : bool then Rsp.handle_rsp fuel else handle_sim_command;; sim_done);;
        iprompt ← isset Iprompt;
        when iprompt handle_sim_command;;
        wait_stalled fuel
    end.

(** The processor sleeps: [config.pm.enabled & (PMR & (DME | SME))], bit by
    bit. *)
Definition asleep : M bool :=
  pm ← rd State.Pm_enabled;
  pmr ← rd (SPR SPR_PMR);
  ret (nz pm && nz (Z.land (u32 pm) (Z.land pmr (Z.lor SPR_PMR_DME SPR_PMR_SME)))).

(** One turn of [exec_main]'s loop; [fuel] bounds the wait for the debugger and
    the jobs that are due. *)
Definition exec_turn (t : tables) (fuel : nat) : M unit :=
  time_start ← rd Cycles;
  debug ← isset Debug_enabled;
  when debug (wait_stalled fuel);;
  wr Mem_cycles 0;;
  sleeping ← asleep;
  when (negb sleeping) (stop ← cpu_clock t; when stop handle_sim_command);;
  hush ← isset Hush;
  when (negb hush) trace_instr;;
  vapi ← isset Vapi_enabled; rvapi ← isset Runtime_vapi_enabled;
  when (vapi && rvapi) vapi_check;;
  debug ← isset Debug_enabled;
  when debug
    (st ← flag (SPR SPR_DMR1) SPR_DMR1_ST;
     when st
       (set_stall_state 1;;
        rsp ← isset Debug_rsp_enabled;
        when rsp (rsp_exception EXCEPT_TRAP)));;
  mem_cycles ← rd Mem_cycles; adds Cycles mem_cycles;;
  cycles ← rd Cycles;
  elapse run_job fuel (cycles - time_start).
Fixpoint exec_main (n : nat) (t : tables) (fuel : nat) : M unit :=
  match n with O => ret tt | S n => exec_turn t fuel;; exec_main n t fuel end.
End Execute.

(** A host with a constant source of random numbers, no client and an idle
    monitor. *)
Definition zero_host : Host := {| random_value _ := 0 |}.
Definition idle_channels : Channels := {| channel_read _ _ := Chan_none |}.
Definition no_client : Rsp.Client :=
  {| Rsp.service_port _ := None; Rsp.can_listen _ := true; Rsp.accept_client _ := None; Rsp.client_writable _ := true |}.
Definition idle_monitor : Monitor.
Proof.
  refine {| handle_sim_command := ret tt; check_insn_exec _ := ret tt;
            vapi_check := ret tt; device_job _ _ := ret tt |}; intros; respects.
Defined.
End Execute.
