(* ===== verification/Insn.v ===== *)
(** * What an instruction writes

    The general purpose registers each function of cpu/or32/insnset.c can
    assign, and the types of the cells: both come from one walk over the
    bodies. *)

From S2P Require Export Execute.

Module Insn.
Import Sched Debug Except Tick Pic Mem Ram Mmu Dcache Icache Abstract Sprs Bpb Insnset Or32 Execute.

(** ** Shared code *)

#[export] Instance only_flags_keeps {A} (m : M A) R :
  OnlyFlags m -> Enters R -> Respects R m.
Proof.
  intros Hm HR. apply Hm. generalize (enters_writes (Enters:=HR)). apply writes_sub. by intros c ->.
Qed.

#[export] Instance PARAM_keeps R `{!PreOrder R} ps i : Respects R (PARAM ps i).
Proof. unfold PARAM. respects. Qed.
#[export] Instance REG_PARAM0_keeps R `{!PreOrder R} ps : Respects R (REG_PARAM0 ps).
Proof. unfold REG_PARAM0. respects. Qed.

Section Shared.
Context (R : relation Sim) `{!Enters R}.

#[export] Instance evalsim_reg_keeps r : Respects R (evalsim_reg r).
Proof. unfold evalsim_reg. respects. Qed.
#[export] Instance sbuf_pop_keeps : Respects R sbuf_pop.
Proof. unfold sbuf_pop. respects. Qed.
#[export] Instance sbuf_drain_keeps fuel delta : Respects R (sbuf_drain fuel delta).
Proof. revert delta. induction fuel as [|fuel IH]; intros delta; cbn [sbuf_drain]; respects. Qed.
#[export] Instance sbuf_wait_keeps : Respects R sbuf_wait.
Proof. unfold sbuf_wait. respects. Qed.
#[export] Instance sbuf_flush_keeps fuel : Respects R (sbuf_flush fuel).
Proof. induction fuel as [|fuel IH]; cbn [sbuf_flush]; respects. Qed.
#[export] Instance sbuf_store_keeps cyc : Respects R (sbuf_store cyc).
Proof. unfold sbuf_store, sbuf_elapsed, sbuf_charge. respects. Qed.
#[export] Instance sbuf_load_keeps : Respects R sbuf_load.
Proof. unfold sbuf_load, sbuf_elapsed, sbuf_charge. respects. Qed.
#[export] Instance float_set_rm_keeps : Respects R float_set_rm.
Proof. unfold float_set_rm. respects. Qed.
#[export] Instance float_set_flags_keeps : Respects R float_set_flags.
Proof. unfold float_set_flags. respects. Qed.
#[export] Instance l_invalid_keeps : Respects R l_invalid.
Proof. unfold l_invalid. respects. Qed.
#[export] Instance set_sr_keeps m b : Respects R (set_sr m b).
Proof. unfold set_sr. respects. Qed.
#[export] Instance all_set_keeps c m : Respects R (all_set c m).
Proof. unfold all_set. respects. Qed.
#[export] Instance raise_if_ov_keeps : Respects R raise_if_ov.
Proof. unfold raise_if_ov, range_exception. respects. Qed.
#[export] Instance aecr_add_keeps : Respects R aecr_add.
Proof. unfold aecr_add, range_exception. respects. Qed.
#[export] Instance aecr_one_keeps f a e : Respects R (aecr_one f a e).
Proof. unfold aecr_one, range_exception. respects. Qed.
#[export] Instance trigger_range_keeps a b : Respects R a -> Respects R b -> Respects R (trigger_range a b).
Proof. intros Ha Hb. unfold trigger_range. respects. Qed.
#[export] Instance mac_set_keeps t : Respects R (mac_set t).
Proof. unfold mac_set. respects. Qed.
#[export] Instance mac_acc_keeps : Respects R mac_acc.
Proof. unfold mac_acc. respects. Qed.
#[export] Instance profile_call_keeps a b : Respects R (profile_call a b).
Proof. unfold profile_call. respects. Qed.
#[export] Instance profile_return_keeps a : Respects R (profile_return a).
Proof. unfold profile_return. respects. Qed.
#[export] Instance nop_exit_keeps : Respects R nop_exit.
Proof. unfold nop_exit. respects. Qed.
#[export] Instance buffered_keeps m : Respects R m -> Respects R (buffered m).
Proof. intros Hm. unfold buffered. respects. Qed.
#[export] Instance wait_stores_keeps : Respects R wait_stores.
Proof. unfold wait_stores. respects. Qed.
#[export] Instance shift_count_keeps n : Respects R (shift_count n).
Proof. unfold shift_count. respects. Qed.
#[export] Instance count_byteadd_keeps n : Respects R (count_byteadd n).
Proof. unfold count_byteadd. respects. Qed.
#[export] Instance branch_target_keeps ps : Respects R (branch_target ps).
Proof. unfold branch_target. respects. Qed.
#[export] Instance compare_keeps ps f : Respects R (compare ps f).
Proof. unfold compare. respects. Qed.
#[export] Instance lf_compare_keeps `{Softfloat} f ps :
  (forall a b, Respects R (f a b)) -> Respects R (lf_compare f ps).
Proof. intros Hf. unfold lf_compare, hardfloat. respects. Qed.
#[export] Instance ordered_keeps `{Softfloat} f a b : Respects R (f a b) -> Respects R (ordered f a b).
Proof. intros Hf. unfold ordered. respects. Qed.
#[export] Instance negated_keeps f a b : Respects R (f a b) -> Respects R (negated f a b).
Proof. intros Hf. unfold negated. respects. Qed.
End Shared.

(** ** The destination register *)

Definition dest (ps : params) : list Z := match ps with P_reg r :: _ => [r] | _ => [] end.

#[export] Hint Extern 2 (cells _ _ (GPR _)) => cbn; set_solver : footprint.
#[export] Instance SET_PARAM0_writes R ps v :
  Writes (cells (dest ps) false) R -> Respects R (SET_PARAM0 ps v).
Proof.
  intros HR. destruct ps as [|[r|x] ps]; [intros s; reflexivity| |intros s; reflexivity].
  apply (writes_wr _ _ (GPR r) v). cbn. set_solver.
Qed.
#[export] Instance set_loaded_writes R ps v :
  Writes (cells (dest ps) false) R -> Respects R (set_loaded ps v).
Proof. intros HR. unfold set_loaded. respects. Qed.
#[export] Instance setsim_reg_writes R r v : Writes (cells [r] false) R -> Respects R (setsim_reg r v).
Proof. intros HR. unfold setsim_reg. respects. Qed.
#[export] Instance branch_if_writes R l c st ps :
  Writes (cells l true) R -> Respects R (branch_if c st ps).
Proof. intros HR. unfold branch_if. respects. Qed.

(** The functions that assign [PARAM0]. *)
Definition setters : list string :=
  ["l_add"; "l_addc"; "l_lwa"; "l_lws"; "l_lwz"; "l_lbs"; "l_lbz"; "l_lhs"; "l_lhz"; "l_movhi";
   "l_and"; "l_or"; "l_xor"; "l_sub"; "l_mul"; "l_mulu"; "l_div"; "l_divu"; "l_sll"; "l_sra";
   "l_srl"; "l_ror"; "l_extbs"; "l_extbz"; "l_exths"; "l_exthz"; "l_extws"; "l_extwz"; "l_mfspr";
   "l_macrc"; "l_cmov"; "l_ff1"; "l_fl1"; "lf_add_s"; "lf_div_s"; "lf_ftoi_s"; "lf_itof_s";
   "lf_madd_s"; "lf_mul_s"; "lf_rem_s"; "lf_sub_s"]%string.

(** The registers the function [name] can assign, when its destination operand
    is one of [d]: the link register for calls, r11 and r12 for the services of
    l.nop. *)
Definition insn_regs (name : string) (d : list Z) : list Z :=
  if bool_decide (name ∈ setters) then d
  else if bool_decide (name = "l_jal" \/ name = "l_jalr")%string then [LINK_REGNO]
  else if bool_decide (name = "l_nop")%string then [11; 12]
  else [].

(** The functions that assign the program counters without an exception. *)
Definition jumpers : list string := ["l_bf"; "l_bnf"; "l_j"; "l_jal"; "l_jalr"; "l_jr"; "l_rfe"]%string.
Definition insn_cells (name : string) (d : list Z) : cell -> Prop :=
  cells (insn_regs name d) (bool_decide (name ∈ jumpers)).

Section Bodies.
Context `{Devices} `{Softfloat} `{Host}.

Ltac head m := lazymatch m with ?f _ => head f | _ => m end.
Ltac body :=
  cbn [fst snd]; intros Hname ps R He HR;
  let W := match type of HR with Writes ?W R => W end in
  first [ change W with (cells (dest ps) false) in HR
        | change W with (cells [LINK_REGNO] true) in HR
        | change W with (cells [11; 12] false) in HR
        | change W with (cells [] true) in HR
        | change W with (cells [] false) in HR ];
  lazymatch goal with |- Respects _ ?m => let f := head m in unfold f end;
  unfold lf_binary, lf_unary; unfold buffered, hardfloat, trigger_range; respects.

Definition writes_only (p : string * (params -> M unit)) : Prop :=
  p.1 <> "l_mtspr"%string ->
  forall ps R, Enters R -> Writes (insn_cells p.1 (dest ps)) R -> Respects R (p.2 ps).

Lemma bodies_write : Forall writes_only instructions.
Proof.
  unfold instructions. repeat (apply Forall_cons_2; [unfold writes_only|]); [..|apply Forall_nil_2].
  all: first [done | body].
Qed.
End Bodies.
End Insn.
