(* ===== verification/Generated.v ===== *)
(** * The generated decoder is correct

    The switches cpu/or32/generate.c writes select the instruction
    [or1ksim_insn_decode] finds, and the parameters they set up are the
    operands the disassembler prints. *)

From S2P Require Export Execute.

Module Generated.
Import Except Or32 Decode Operands Disasm Insnset Execute.

(** ** Selection *)

(** The bits the switches on the way to a leaf without a final check have
    fixed are those of its instruction. *)
Fixpoint check_gen (t : tables) (fuel : nat) (a kmask kval : Z) : bool :=
  match fuel with
  | O => false
  | S fuel =>
      match or1ksim_automata t !! a with
      | None => false
      | Some w =>
          if nz (Z.land w LEAF_FLAG) then
            match or1ksim_ti t !! Z.to_nat (Z.land w (u32 (Z.lnot LEAF_FLAG))) with
            | None => false
            | Some e => negb (insn_mask e =? kmask) || (insn e =? kval)
            end
          else
            match or1ksim_automata t !! (a + 1) with
            | None => false
            | Some m =>
                (0 <=? w) && (0 <=? m) && forallb (fun v =>
                  match or1ksim_automata t !! (a + 2 + v) with
                  | None => false
                  | Some c =>
                      if c =? 0 then true
                      else check_gen t fuel c (Z.lor kmask (Z.shiftl m w)) (Z.lor kval (Z.shiftl v w))
                  end) (seqZ 0 (m + 1))
            end
      end
  end.

Lemma path_bits x w m kmask kval :
  0 <= w -> Z.land x kmask = kval ->
  Z.land x (Z.lor kmask (Z.shiftl m w)) = Z.lor kval (Z.shiftl (Z.land (Z.shiftr x w) m) w).
Proof.
  intros Hw <-. apply Z.bits_inj'. intros i Hi.
  rewrite Z.lor_spec, !Z.land_spec, Z.lor_spec, !Z.shiftl_spec by lia.
  destruct (Z.lt_ge_cases i w).
  - rewrite !(Z.testbit_neg_r _ (i - w)) by lia. by rewrite orb_false_r, orb_false_r.
  - rewrite Z.land_spec, Z.shiftr_spec by lia. replace (i - w + w) with i by lia.
    by destruct (Z.testbit x i), (Z.testbit kmask i), (Z.testbit m (i - w)).
Qed.

Section Generated.
Context `{Devices} `{Softfloat} `{Host}.

(** What the generated code does for a word no encoding matches. *)
Definition illegal_instruction : M unit := pc ← rd Pc; except_handle EXCEPT_ILLEGAL pc.

Definition selects (t : tables) (r x : Z) (m : M unit) : Prop :=
  if r =? -1 then m = illegal_instruction \/ exists i, m = output_call_invalid t i
  else m = output_call t r x.

Lemma generate_body_selects t x fuel a kmask kval :
  check_gen t fuel a kmask kval = true -> Z.land x kmask = kval ->
  exists r, decode_from t fuel a x = Some r /\ selects t r x (generate_body t fuel a kmask x).
Proof.
  revert a kmask kval. induction fuel as [|fuel IH]; intros a kmask kval; [discriminate|].
  cbn [check_gen decode_from generate_body].
  destruct (or1ksim_automata t !! a) as [w|]; [|discriminate]. cbn [mbind option_bind].
  destruct (nz (Z.land w LEAF_FLAG)); cbn [negb].
  - set (i := Z.land w _). destruct (or1ksim_ti t !! Z.to_nat i) as [e|]; [|discriminate].
    cbn [mbind option_bind]. intros Hc Hx.
    assert (Hi : i <> -1) by (unfold i; pose proof (land_le w (u32 (Z.lnot LEAF_FLAG)) ltac:(closed_Z)); lia).
    destruct (Z.eqb_spec (insn_mask e) kmask) as [Em|Em]; cbn [negb orb] in *.
    + apply Z.eqb_eq in Hc. rewrite Z.land_comm, Em, Hx, Hc, Z.eqb_refl.
      eexists. split; [reflexivity|]. unfold selects. by rewrite (proj2 (Z.eqb_neq _ _) Hi).
    + rewrite (Z.land_comm x). destruct (Z.land (insn_mask e) x =? insn e).
      * eexists. split; [reflexivity|]. unfold selects. by rewrite (proj2 (Z.eqb_neq _ _) Hi).
      * eexists. split; [reflexivity|]. cbn. eauto.
  - destruct (or1ksim_automata t !! (a + 1)) as [m|]; [|discriminate]. cbn [mbind option_bind].
    rewrite !andb_true_iff, forallb_forall, !Z.leb_le. intros ((Hw & Hm) & Hv) Hx.
    set (v := Z.land (Z.shiftr x w) m).
    assert (Hr : 0 <= v <= m) by (apply land_le; lia).
    specialize (Hv v ltac:(apply list_elem_of_In, elem_of_seqZ; lia)).
    destruct (or1ksim_automata t !! (a + 2 + v)) as [c|]; [|discriminate]. cbn [mbind option_bind].
    destruct (c =? 0).
    + eexists. split; [reflexivity|]. cbn. by left.
    + apply (IH _ _ _ Hv). by apply path_bits.
Qed.

Lemma gen_checked : exists t, or1ksim_build_automata = Some t /\ check_gen t 33 0 0 0 = true.
Proof.
  destruct (option_map (fun t => check_gen t 33 0 0 0) or1ksim_build_automata) as [b|] eqn:E.
  2:{ exfalso. revert E. vm_compute. discriminate. }
  assert (b = true) as -> by (apply (inj Some); rewrite <- E; vm_compute; reflexivity).
  destruct or1ksim_build_automata as [t|]; [|discriminate]. injection E as E. eauto.
Qed.

Lemma generated_selects t w :
  or1ksim_build_automata = Some t ->
  exists r, or1ksim_insn_decode t w = Some r /\ selects t r w (generate_body t 33 0 0 w).
Proof.
  intros Et. destruct gen_checked as (t' & Et' & Hc). rewrite Et in Et'. injection Et' as <-.
  unfold or1ksim_insn_decode. eapply generate_body_selects; [exact Hc | apply Z.land_0_r].
Qed.

(** On every instruction word the generated switches run exactly the
    instruction [or1ksim_insn_decode] finds; on a word that is no instruction
    they raise an illegal instruction exception or take the else branch of a
    leaf's final check. *)
Theorem generated_decoder_correct :
  exists t, or1ksim_build_automata = Some t /\ forall w,
    exists r, or1ksim_insn_decode t w = Some r /\ selects t r w (generate_body t 33 0 0 w).
Proof.
  destruct gen_checked as (t & Et & _). exists t. split; [exact Et|]. intros w. by apply generated_selects.
Qed.
End Generated.

(** ** Parameters *)

(** The operands of an argument string: a register, an immediate, or an
    address "I(rA)". *)
Inductive token := T_reg (l : ascii) | T_imm (l : ascii) | T_disp (l r : ascii).

Fixpoint tokens (ops : list (bool * ascii)) (args : string) : list token :=
  match ops with
  | [] => []
  | (true, l) :: ops => T_reg l :: tokens ops args
  | (false, l) :: ops =>
      match ops with
      | (true, r) :: ops' => if strchr args "(" then T_disp l r :: tokens ops' args else T_imm l :: tokens ops args
      | _ => T_imm l :: tokens ops args
      end
  end.

(** The parameter an operand stands for, from what the disassembler prints. *)
Definition expected_param (enc : string) (w : Z) (s : Sim) (k : token) : option param :=
  match k with
  | T_reg l => P_reg <$> disassembled_operand enc w (true, l)
  | T_imm l => P_val <$> disassembled_operand enc w (false, l)
  | T_disp l r =>
      match disassembled_operand enc w (false, l), disassembled_operand enc w (true, r) with
      | Some d, Some n => Some (P_val (u32 (d + s (GPR n))))
      | _, _ => None
      end
  end.
Definition expected_params (o : or32_opcode) (w : Z) (s : Sim) : option (list param) :=
  match args o with
  | EmptyString => Some [P_reg 0]
  | a => mapM (expected_param (encoding o) w s) (tokens (operand_letters a) a)
  end.

(** The descriptors of one operand, and what follows them. *)
Fixpoint split_operand (opds : list insn_op_struct) : option (insn_op_struct * list insn_op_struct) :=
  match opds with
  | [] => None
  | opd :: rest =>
      if nz (Z.land (type opd) OPTYPE_OP) then Some (opd, rest)
      else if nz (Z.land (type opd) OPTYPE_LAST) then None
      else split_operand rest
  end.

(** A descriptor inside an operand is only gathered. *)
Lemma end_of_field_inner k w o rest cur nb dis acc s :
  nz (Z.land (type o) OPTYPE_OP) = false -> nz (Z.land (type o) OPTYPE_LAST) = false ->
  end_of_field k w o rest cur nb dis acc s = k rest cur nb dis acc s.
Proof.
  intros Eo El. unfold end_of_field, bind, ret. rewrite Eo, andb_false_r. cbv beta iota.
  rewrite Eo, El. by destruct acc.
Qed.

Lemma eval_operand_fields n w opds cur nbits acc opd rest ps s :
  field_positions opds nbits = Some (opd, ps) -> split_operand opds = Some (opd, rest) ->
  0 <= nbits -> 0 <= cur < 2 ^ nbits -> (length opds <= n)%nat ->
  exists n' nb, (length rest <= n')%nat /\
    eval_operands n w opds cur nbits false acc s =
      end_of_field (eval_operands n' w) w opd rest (cur + 2 ^ nbits * sel w ps) nb false acc s.
Proof.
  revert n cur nbits ps. induction opds as [|o opds IH]; [discriminate|].
  intros n cur nbits ps. cbn [field_positions split_operand].
  destruct ((0 <=? data o) && (nbits + data o <=? 31)) eqn:Hd; [|discriminate].
  rewrite andb_true_iff in Hd. destruct Hd as [Hd0 Hd1]. apply Z.leb_le in Hd0, Hd1.
  intros Ef Es Hn Hc Hl. destruct n as [|n]; [cbn in Hl; lia|]. cbn [eval_operands length] in *.
  unfold field at 1 2. rewrite field_value by (try apply shr_nonneg; lia).
  set (qs := seqZ _ (data o)) in *. pose proof (sel_range w qs) as Hq.
  assert (El : Z.of_nat (length qs) = data o) by (unfold qs; rewrite length_seqZ; lia).
  rewrite El in Hq. assert (Hp : 2 ^ nbits * 2 ^ data o <= 2 ^ 31).
  { rewrite <- Z.pow_add_r by lia. apply Z.pow_le_mono_r; lia. }
  rewrite Z.shiftl_mul_pow2 by lia. rewrite u32_small by nia.
  replace (if nz nbits then _ else _) with (cur + 2 ^ nbits * sel w qs).
  2:{ destruct (nz nbits) eqn:En.
      - rewrite Z.lor_comm, lor_low by lia. lia.
      - apply nz_false in En as ->. lia. }
  destruct (nz (Z.land (type o) OPTYPE_OP)) eqn:Eo.
  - injection Ef as <- <-. injection Es as <-. exists n, (nbits + data o). split; [lia|reflexivity].
  - destruct (nz (Z.land (type o) OPTYPE_LAST)) eqn:Ela; [discriminate|].
    destruct (field_positions opds (nbits + data o)) as [[o' qs']|] eqn:Er; [|discriminate].
    cbn in Ef. injection Ef as <- <-.
    destruct (IH n (cur + 2 ^ nbits * sel w qs) (nbits + data o) qs' Er Es) as (n' & nb & Hn' & E); try lia.
    { rewrite Z.pow_add_r by lia. nia. }
    exists n', nb. split; [exact Hn'|].
    rewrite end_of_field_inner by assumption. rewrite E.
    f_equal. rewrite sel_app, El, Z.pow_add_r by lia. lia.
Qed.

Lemma split_positions opds nbits o o' rest ps :
  field_positions opds nbits = Some (o', ps) -> split_operand opds = Some (o, rest) -> o' = o.
Proof.
  revert nbits ps. induction opds as [|d opds IH]; [discriminate|]. intros nbits ps.
  cbn [field_positions split_operand]. destruct (_ && _); [|discriminate].
  destruct (nz (Z.land (type d) OPTYPE_OP)); [congruence|].
  destruct (nz (Z.land (type d) OPTYPE_LAST)); [discriminate|].
  destruct (field_positions opds _) as [[x qs]|] eqn:Er; [|discriminate]. cbn. intros [= <- _]. eauto.
Qed.

(** At the end of an operand the variable holds what the disassembler prints. *)
Lemma operand_end enc op w n opds o rest acc s :
  check_operand enc op opds = true -> split_operand opds = Some (o, rest) -> (length opds <= n)%nat ->
  exists n' nb cur, (length rest <= n')%nat /\
    eval_operands n w opds 0 0 false acc s = end_of_field (eval_operands n' w) w o rest cur nb false acc s /\
    disassembled_operand enc w op = Some (u32 (sign_operand o cur)).
Proof.
  intros Hc Hs Hn. destruct (check_operand_bits enc w op opds Hc) as (m & v & _ & _ & _ & Ev & Ed).
  unfold check_operand in Hc. destruct (field_positions opds 0) as [[o' ps]|] eqn:Ef; [|discriminate].
  pose proof (split_positions _ _ _ _ _ _ Ef Hs) as ->.
  destruct (eval_operand_fields n w opds 0 0 acc o rest ps s) as (n' & nb & Hn' & E); try lia; try assumption.
  exists n', nb, (0 + 2 ^ 0 * sel w ps). split; [exact Hn'|]. split; [exact E|].
  rewrite Ed, <- Ev. unfold eval_operand_val.
  by rewrite (operand_fields_sel w _ _ _ _ _ Ef) by lia.
Qed.

Lemma end_plain k w o rest cur nb acc s :
  nz (Z.land (type o) OPTYPE_OP) = true -> nz (Z.land (type o) OPTYPE_DIS) = false ->
  end_of_field k w o rest cur nb false acc s =
    let v := u32 (sign_operand o cur) in
    let acc := Operands (ops_params acc ++ [if nz (Z.land (type o) OPTYPE_REG) then P_reg v else P_val v])
                        (ops_dis acc) in
    if nz (Z.land (type o) OPTYPE_LAST) then Ok acc s else k rest 0 0 false acc s.
Proof.
  intros Eo Ed. unfold end_of_field, bind, ret. rewrite Eo, Ed. cbn [andb]. cbv beta iota. rewrite Eo.
  cbn [negb ops_params ops_dis]. rewrite andb_true_r. cbn zeta. destruct (nz (Z.land (type o) OPTYPE_LAST)); reflexivity.
Qed.

Lemma u32_s32_add a b : u32 (s32 a + s32 b) = u32 (a + b).
Proof.
  rewrite (u32_eq (s32 a + s32 b)), Zplus_mod, <- !u32_eq, !u32_s32, !u32_eq, <- Zplus_mod. reflexivity.
Qed.

Lemma sign_operand_unsigned o v : nz (Z.land (type o) OPTYPE_SIG) = false -> sign_operand o v = v.
Proof. unfold sign_operand. by intros ->. Qed.

Lemma end_disp k w o reg rest cur nb acc s :
  nz (Z.land (type o) OPTYPE_OP) = true -> nz (Z.land (type o) OPTYPE_DIS) = true ->
  nz (Z.land (type reg) OPTYPE_OP) = true -> nz (Z.land (type reg) OPTYPE_SIG) = false ->
  end_of_field k w o (reg :: rest) cur nb false acc s =
    let v := u32 (u32 (sign_operand o cur) + s (GPR (field w reg))) in
    let acc := Operands (ops_params acc ++ [P_val v]) (Some (length (ops_params acc))) in
    if nz (Z.land (type reg) OPTYPE_LAST) then Ok acc s else k rest 0 0 false acc s.
Proof.
  intros Eo Ed Er Es. unfold end_of_field, bind, ret, rd. rewrite Eo, Ed. cbn [andb]. cbv beta iota. rewrite Er.
  cbn [negb ops_params ops_dis]. rewrite andb_false_r, sign_operand_unsigned by exact Es.
  rewrite wrap_wrap, u32_s32_add. cbn zeta. destruct (nz (Z.land (type reg) OPTYPE_LAST)); reflexivity.
Qed.

Lemma field_reg enc l w reg rest :
  check_operand enc (true, l) (reg :: rest) = true -> nz (Z.land (type reg) OPTYPE_OP) = true ->
  nz (Z.land (type reg) OPTYPE_SIG) = false /\ disassembled_operand enc w (true, l) = Some (field w reg).
Proof.
  intros Hc Eo. assert (Es : nz (Z.land (type reg) OPTYPE_SIG) = false).
  { unfold check_operand in Hc. cbn [field_positions] in Hc. rewrite Eo in Hc.
    destruct (_ && _) in Hc; [|discriminate]. destruct (extract_positions _ _ _ _); [|discriminate].
    rewrite !andb_true_iff in Hc. cbn [fst] in Hc. destruct Hc as [_ Hc]. by rewrite negb_true_iff in Hc. }
  split; [exact Es|].
  destruct (check_operand_bits enc w _ _ Hc) as (m & v & _ & _ & _ & Ev & ->).
  rewrite <- Ev. unfold eval_operand_val. cbn [operand_fields]. rewrite Eo.
  cbn [mbind option_bind]. rewrite sign_operand_unsigned by exact Es. fold (field w reg).
  rewrite Z.shiftl_0_r, Z.lor_0_l, wrap_wrap. f_equal. apply u32_small.
  apply land_range_r; [lia|]. apply u32_range.
Qed.

Definition opt_is (b : bool) (toks : list token) : bool := eqb b (match toks with [] => true | _ => false end).

Fixpoint check_params (enc : string) (toks : list token) (opds : list insn_op_struct) : bool :=
  match toks with
  | [] => false
  | k :: toks =>
      match split_operand opds with
      | None => false
      | Some (o, rest) =>
          nz (Z.land (type o) OPTYPE_OP) &&
          match k with
          | T_reg _ | T_imm _ =>
              let reg := match k with T_reg _ => true | _ => false end in
              let l := match k with T_reg l | T_imm l | T_disp l _ => l end in
              check_operand enc (reg, l) opds && negb (nz (Z.land (type o) OPTYPE_DIS))
              && eqb (nz (Z.land (type o) OPTYPE_REG)) reg
              && opt_is (nz (Z.land (type o) OPTYPE_LAST)) toks
              && match toks with [] => true | _ => check_params enc toks rest end
          | T_disp l r =>
              check_operand enc (false, l) opds && nz (Z.land (type o) OPTYPE_DIS) &&
              match rest with
              | [] => false
              | reg :: rest' =>
                  check_operand enc (true, r) (reg :: rest') && nz (Z.land (type reg) OPTYPE_OP)
                  && opt_is (nz (Z.land (type reg) OPTYPE_LAST)) toks
                  && match toks with [] => true | _ => check_params enc toks rest' end
              end
          end
      end
  end.

(** The index of the operand that is an address. *)
Fixpoint disp_index (base : nat) (toks : list token) (d : option nat) : option nat :=
  match toks with
  | [] => d
  | T_disp _ _ :: toks => disp_index (S base) toks (Some base)
  | _ :: toks => disp_index (S base) toks d
  end.

#[local] Arguments disassembled_operand : simpl never.

Lemma check_params_sound enc w s toks n opds acc :
  check_params enc toks opds = true -> (length opds <= n)%nat ->
  exists ps, mapM (expected_param enc w s) toks = Some ps /\
    eval_operands n w opds 0 0 false acc s =
      Ok (Operands (ops_params acc ++ ps) (disp_index (length (ops_params acc)) toks (ops_dis acc))) s.
Proof.
  revert n opds acc. induction toks as [|k toks IH]; intros n opds acc; [discriminate|].
  cbn [check_params]. destruct (split_operand opds) as [[o rest]|] eqn:Es; [|discriminate].
  rewrite andb_true_iff. intros [Eo Hk] Hn.
  (* one parameter [p] from here, the others by induction *)
  assert (Hrest : forall n' rest' p (dis : option nat) (last : bool),
    (length rest' <= n')%nat -> opt_is last toks = true ->
    match toks with [] => true | _ => check_params enc toks rest' end = true ->
    exists ps, mapM (expected_param enc w s) toks = Some ps /\
      (if last then Ok (Operands (ops_params acc ++ [p]) dis) s
       else eval_operands n' w rest' 0 0 false (Operands (ops_params acc ++ [p]) dis) s) =
      Ok (Operands (ops_params acc ++ p :: ps) (disp_index (S (length (ops_params acc))) toks dis)) s).
  { intros n' rest' p dis last Hn' Hlast Hc. unfold opt_is in Hlast. apply eqb_prop in Hlast. subst last.
    destruct toks as [|k' toks']; [exists []; split; reflexivity|].
    destruct (IH n' rest' (Operands (ops_params acc ++ [p]) dis) Hc Hn') as (ps & Em & Er).
    exists ps. split; [exact Em|]. rewrite Er. cbn [ops_params ops_dis].
    rewrite <- app_assoc, length_app. cbn. rewrite Nat.add_1_r. reflexivity. }
  destruct k as [l|l|l r].
  1,2: rewrite !andb_true_iff, negb_true_iff in Hk; destruct Hk as ((((Hc & Ed) & Er) & Hlast) & Hrec);
    apply eqb_prop in Er;
    destruct (operand_end enc _ w n opds o rest acc s Hc Es Hn) as (n' & nb & cur & Hn' & E & Ep);
    edestruct Hrest as (ps & Em & Eq); [exact Hn' | exact Hlast | exact Hrec |];
    eexists; (split; [cbn; rewrite Em, Ep; reflexivity|]);
    rewrite E, end_plain by assumption; rewrite Er; exact Eq.
  rewrite !andb_true_iff in Hk. destruct Hk as ((Hc & Ed) & Hk). destruct rest as [|reg rest]; [discriminate|].
  rewrite !andb_true_iff in Hk. destruct Hk as (((Hcr & Eor) & Hlast) & Hrec).
  destruct (operand_end enc _ w n opds o (reg :: rest) acc s Hc Es Hn) as (n' & nb & cur & Hn' & E & Ep).
  destruct (field_reg enc r w reg rest Hcr Eor) as [Esig Edr].
  edestruct Hrest as (ps & Em & Eq); [|exact Hlast|exact Hrec|].
  2:{ eexists. split; [cbn; rewrite Em, Ep, Edr; reflexivity|].
      rewrite E, end_disp by assumption. exact Eq. }
  cbn in Hn'. lia.
Qed.

Definition check_row (t : tables) (i : nat) (o : or32_opcode) : bool :=
  match opds_of t i with
  | None => false
  | Some opds =>
      match args o with
      | EmptyString =>
          match opds with
          | opd :: _ => (type opd =? Z.lor (Z.lor OPTYPE_REG OPTYPE_OP) OPTYPE_LAST) && (data opd =? 0)
          | [] => false
          end
      | a => check_params (encoding o) (tokens (operand_letters a) a) opds
      end
  end.

Lemma rows_checked :
  exists t, or1ksim_build_automata = Some t /\ forallb id (imap (check_row t) or1ksim_or32_opcodes) = true.
Proof.
  destruct (option_map (fun t => forallb id (imap (check_row t) or1ksim_or32_opcodes)) or1ksim_build_automata)
    as [b|] eqn:E.
  2:{ exfalso. revert E. vm_compute. discriminate. }
  assert (b = true) as -> by (apply (inj Some); rewrite <- E; vm_compute; reflexivity).
  destruct or1ksim_build_automata as [t|]; [|discriminate]. injection E as E. eauto.
Qed.

Lemma gen_operands t i o w s :
  or1ksim_build_automata = Some t -> or1ksim_or32_opcodes !! i = Some o ->
  exists opds ps, opds_of t i = Some opds /\ expected_params o w s = Some ps /\
    gen_eval_operands w opds s =
      Ok (Operands ps (disp_index 0 (tokens (operand_letters (args o)) (args o)) None)) s.
Proof.
  intros Et Ho. destruct rows_checked as (t' & Et' & Hc). rewrite Et in Et'. injection Et' as <-.
  rewrite forallb_forall in Hc. assert (Hi : check_row t i o = true)
    by (apply Hc, list_elem_of_In, elem_of_lookup_imap; eauto).
  unfold check_row, expected_params, gen_eval_operands in *.
  destruct (opds_of t i) as [opds|]; [|discriminate]. exists opds. destruct (args o) as [|c a].
  - destruct opds as [|opd opds]; [discriminate|]. rewrite andb_true_iff, !Z.eqb_eq in Hi.
    destruct opd as [ty d]; cbn in Hi; destruct Hi as [-> ->].
    exists [P_reg 0]. split; [reflexivity|]. split; [reflexivity|]. cbn [eval_operands length].
    rewrite end_plain by reflexivity. unfold field. cbn [data type].
    change (u32 (s32 (s32 (Z.shiftl 1 0) - 1))) with 0. rewrite Z.land_0_r. reflexivity.
  - destruct (check_params_sound (encoding o) w s _ (length opds) opds (Operands [] None) Hi (Nat.le_refl _))
      as (ps & Em & Er). exists ps. split; [reflexivity|]. split; [exact Em|]. exact Er.
Qed.

(** For every opcode, instruction word and register contents the code
    [gen_eval_operands] writes sets the parameters to the operands the
    disassembler prints: registers by number, immediates extended, and "I(rA)"
    as the sum of the displacement and the register; it changes no state. *)
Theorem gen_eval_operands_correct :
  exists t, or1ksim_build_automata = Some t /\
    forall i o w s, or1ksim_or32_opcodes !! i = Some o ->
      exists opds ps, opds_of t i = Some opds /\ expected_params o w s = Some ps /\
        gen_eval_operands w opds s =
          Ok (Operands ps (disp_index 0 (tokens (operand_letters (args o)) (args o)) None)) s.
Proof.
  destruct rows_checked as (t & Et & _). exists t. split; [exact Et|]. intros i o w s.
  by apply gen_operands.
Qed.
End Generated.
