(* ===== verification/Cpu.v ===== *)
(** * The processor

    Properties of whole instructions and clocks: the registers an instruction
    writes, the types of all cells, the program counter. *)

From S2P Require Import FloatInsn.
From S2P Require Export Insn Generated.

Module Cpu.
Import Sched Debug Except Tick Pic Mem Ram Mmu Dcache Icache Abstract Sprs Bpb Insnset Or32 Decode Operands Execute Generated Insn.

Section Cpu.
Context `{Devices} `{Softfloat} `{Host}.

(** ** Footprints *)

Lemma output_function_writes name ps R :
  name <> "l_mtspr"%string -> Enters R -> Writes (insn_cells name (dest ps)) R ->
  Respects R (output_function name ps).
Proof.
  intros Hn He HR. unfold output_function.
  destruct (list_find _ _) as [[i [n body]]|] eqn:E; [|intros s; reflexivity].
  apply list_find_Some in E as (E & Hf & _). cbn in Hf. subst n.
  apply (proj1 (Forall_forall _ _) bodies_write (name, body));
    [by eapply list_elem_of_lookup_2 | done | exact He | exact HR].
Qed.

Section Shared.
Context (R : relation Sim) `{!Enters R} (t : tables).
#[export] Instance opcode_at_keeps i : Respects R (opcode_at i).
Proof. unfold opcode_at. respects. Qed.
#[export] Instance op_start_at_keeps i : Respects R (op_start_at t i).
Proof. unfold op_start_at. respects. Qed.
#[export] Instance depend_dest_keeps w opds : Respects R (depend_dest w opds).
Proof. induction opds as [|o opds IH]; cbn [depend_dest]; respects. Qed.
#[export] Instance depend_source_keeps w opds v d : Respects R (depend_source w opds v d).
Proof. revert d. induction opds as [|o opds IH]; intros d; cbn [depend_source]; respects. Qed.
#[export] Instance check_depend_keeps : Respects R (check_depend t).
Proof. unfold check_depend. respects. Qed.
#[export] Instance analysis_keeps : Respects R (analysis t).
Proof. unfold analysis, issue. respects. Qed.
#[export] Instance output_stats_keeps ea i : Respects R (output_stats t ea i).
Proof. unfold output_stats. respects. Qed.
#[export] Instance eval_operands_keeps n w opds cur nb dis acc : Respects R (eval_operands n w opds cur nb dis acc).
Proof.
  revert opds cur nb dis acc. induction n as [|n IH]; intros opds cur nb dis acc; cbn [eval_operands]; [respects|].
  destruct opds as [|o rest]; unfold end_of_field; cbv zeta; respects.
Qed.
#[export] Instance fetch_insn_keeps : Respects R fetch_insn.
Proof. unfold fetch_insn. respects. Qed.
#[export] Instance fetch_keeps : Respects R fetch.
Proof. unfold fetch, has_breakpoint. respects. Qed.
End Shared.

(** A relation that allows every assignment. *)
Section All.
Context (R : relation Sim) `{!Writes everything R} (t : tables).
#[export] Instance output_function_keeps name ps : Respects R (output_function name ps).
Proof.
  destruct (decide (name = "l_mtspr"%string)) as [->|Hn]; [|apply output_function_writes; [done | apply _ | apply _]].
  change (Respects R (l_mtspr ps)). unfold l_mtspr. respects.
Qed.
#[export] Instance update_pc_keeps : Respects R update_pc.
Proof. unfold update_pc. respects. Qed.
#[export] Instance output_call_keeps i w : Respects R (output_call t i w).
Proof. unfold output_call, gen_eval_operands. respects. Qed.
#[export] Instance output_call_invalid_keeps i : Respects R (output_call_invalid t i).
Proof. unfold output_call_invalid. respects. Qed.
#[export] Instance generate_body_keeps n a m w : Respects R (generate_body t n a m w).
Proof. revert a m. induction n as [|n IH]; intros a m; cbn [generate_body]; cbv zeta; respects. Qed.
#[export] Instance decode_execute_wrapper_keeps : Respects R (decode_execute_wrapper t).
Proof. unfold decode_execute_wrapper, decode_execute. respects. Qed.
#[export] Instance cpu_clock_keeps : Respects R (cpu_clock t).
Proof. unfold cpu_clock. respects. Qed.
#[export] Instance cpu_reset_keeps : Respects R cpu_reset.
Proof. unfold cpu_reset. respects. Qed.
End All.

(** ** One instruction *)

(** The address of an instruction that has an operand "I(rA)". *)
Definition address_of (o : or32_opcode) (ps : params) : option Z :=
  ops_ea (Operands ps (disp_index 0 (tokens (operand_letters (args o)) (args o)) None)).
(** The instruction of opcode [o], index [i], with the operands [ps]: the body
    of its function, the statistics, the repair of r0. *)
Definition run_instruction (t : tables) (i : nat) (o : or32_opcode) (ps : params) (ea : option Z) (repair : bool)
  : M unit :=
  output_function (function_name o) ps;;
  output_stats t ea (Z.of_nat i);;
  when repair (wr (GPR 0) 0).

Lemma opcode_at_ok i o : or1ksim_or32_opcodes !! i = Some o -> opcode_at (Z.of_nat i) = ret o.
Proof. intros Ho. unfold opcode_at. rewrite (proj2 (Z.leb_le 0 _)), Nat2Z.id, Ho by lia. done. Qed.
Lemma op_start_at_ok t i opds : opds_of t i = Some opds -> op_start_at t (Z.of_nat i) = ret opds.
Proof. intros Ho. unfold op_start_at. rewrite (proj2 (Z.leb_le 0 _)), Nat2Z.id, Ho by lia. done. Qed.

Lemma decode_execute_run t i o (s : Sim) :
  or1ksim_build_automata = Some t -> or1ksim_or32_opcodes !! i = Some o -> matches (encoding o) (s Iq_insn) ->
  exists opds ps, opds_of t i = Some opds /\ expected_params o (s Iq_insn) s = Some ps /\
    decode_execute t s = run_instruction t i o ps (address_of o ps) (writes_reg opds false) s.
Proof.
  intros Et Ho Hm. destruct (decode_word t (s Iq_insn) Et) as (r & Er & Hr & _). apply (Hr i o Ho) in Hm. subst r.
  destruct (generated_selects t (s Iq_insn) Et) as (r & Er' & Hs). rewrite Er in Er'. injection Er' as <-.
  unfold selects in Hs. rewrite (proj2 (Z.eqb_neq _ _)) in Hs by lia.
  destruct (gen_operands t i o (s Iq_insn) s Et Ho) as (opds & ps & Hopds & Hps & Eg).
  exists opds, ps. split; [exact Hopds|]. split; [exact Hps|].
  unfold decode_execute, bind at 1, rd. rewrite Hs. unfold output_call.
  rewrite (opcode_at_ok _ _ Ho), (op_start_at_ok _ _ _ Hopds). unfold bind at 1 2 3, ret. rewrite Eg. reflexivity.
Qed.

(** C2: executing an instruction word is running the function its opcode
    names: for every state whose instruction register holds an instance of an
    opcode's encoding, [decode_execute] is the body of that function on the
    operands the disassembler prints, then the statistics, then the repair of r0
    when an operand is a destination register. *)
Theorem decode_execute_correct :
  exists t, or1ksim_build_automata = Some t /\
    forall i o (s : Sim), or1ksim_or32_opcodes !! i = Some o -> matches (encoding o) (s Iq_insn) ->
      exists opds ps, opds_of t i = Some opds /\ expected_params o (s Iq_insn) s = Some ps /\
        decode_execute t s = run_instruction t i o ps (address_of o ps) (writes_reg opds false) s.
Proof.
  destruct gen_checked as (t & Et & _). exists t. split; [exact Et|]. intros i o s. by apply decode_execute_run.
Qed.

(** ** The registers it writes *)

(** An opcode whose function assigns its first operand has a destination. *)
Definition check_repair (t : tables) (i : nat) (o : or32_opcode) : bool :=
  match opds_of t i with
  | Some opds => implb (bool_decide (function_name o ∈ setters)) (writes_reg opds false)
  | None => false
  end.
Lemma repairs_checked :
  exists t, or1ksim_build_automata = Some t /\ forallb id (imap (check_repair t) or1ksim_or32_opcodes) = true.
Proof.
  destruct (option_map (fun t => forallb id (imap (check_repair t) or1ksim_or32_opcodes)) or1ksim_build_automata)
    as [b|] eqn:E.
  2:{ exfalso. revert E. vm_compute. discriminate. }
  assert (b = true) as -> by (apply (inj Some); rewrite <- E; vm_compute; reflexivity).
  destruct or1ksim_build_automata as [t|]; [|discriminate]. injection E as E. eauto.
Qed.

Lemma setter_repairs t i o opds :
  or1ksim_build_automata = Some t -> or1ksim_or32_opcodes !! i = Some o -> opds_of t i = Some opds ->
  function_name o ∈ setters -> writes_reg opds false = true.
Proof.
  intros Et Ho Hopds Hin. destruct repairs_checked as (t' & Et' & Hc). rewrite Et in Et'. injection Et' as <-.
  rewrite forallb_forall in Hc. assert (Hi : check_repair t i o = true)
    by (apply Hc, list_elem_of_In, elem_of_lookup_imap; eauto).
  unfold check_repair in Hi. rewrite Hopds, bool_decide_eq_true_2 in Hi by done. exact Hi.
Qed.

Lemma insn_regs_link name d : name ∉ setters -> 0 ∉ insn_regs name d.
Proof.
  intros Hn. unfold insn_regs. rewrite bool_decide_eq_false_2 by exact Hn. clear Hn.
  assert (Hl : 0 ∉ [LINK_REGNO]) by (intros Hb; apply (bool_decide_pack _) in Hb; exact Hb).
  assert (Hnop : 0 ∉ [11; 12]) by (intros Hb; apply (bool_decide_pack _) in Hb; exact Hb).
  destruct (bool_decide _); [exact Hl|]. destruct (bool_decide _); [exact Hnop | apply not_elem_of_nil].
Qed.

Lemma gprs_written t i o ps ea (repair : bool) s s' :
  function_name o <> "l_mtspr"%string -> run_instruction t i o ps ea repair s = Ok tt s' ->
  (forall r, r ∉ insn_regs (function_name o) (dest ps) -> r <> 0 -> s' (GPR r) = s (GPR r)) /\
  (repair = true \/ 0 ∉ insn_regs (function_name o) (dest ps) -> s (GPR 0) = 0 -> s' (GPR 0) = 0).
Proof.
  intros Hn. unfold run_instruction. set (l := insn_regs _ _).
  assert (Hm : Respects (frame (cells l true)) (output_function (function_name o) ps;; output_stats t ea (Z.of_nat i))).
  { apply respects_bind; [apply _ | apply output_function_writes; [done|apply _|] |].
    - generalize (writes_frame (cells l true)). apply writes_sub. intros c. by apply cells_le.
    - intros _. apply _. }
  specialize (Hm s). unfold bind in *. destruct (output_function _ _ s) as [[] s1|]; [|discriminate].
  destruct (output_stats _ _ _ s1) as [[] s2|]; [|discriminate]. cbn [state_of] in Hm.
  destruct repair; intros [= <-]; split.
  - intros r Hr H0'. rewrite upd_ne by congruence. by apply Hm.
  - intros _ _. by rewrite upd_eq.
  - intros r Hr _. by apply Hm.
  - intros [?|Hr] E0; [discriminate|]. by rewrite (Hm (GPR 0) Hr).
Qed.

(** C12: an instruction other than l.mtspr writes no general purpose register
    but its destination (the register the disassembler prints first), r9 for
    l.jal and l.jalr, r11 and r12 for the services of l.nop; and r0 stays 0. *)
Theorem registers_written :
  exists t, or1ksim_build_automata = Some t /\
    forall i o (s s' : Sim), or1ksim_or32_opcodes !! i = Some o -> matches (encoding o) (s Iq_insn) ->
      function_name o <> "l_mtspr"%string -> decode_execute t s = Ok tt s' ->
      exists ps, expected_params o (s Iq_insn) s = Some ps /\
        (forall r, r ∉ insn_regs (function_name o) (dest ps) -> r <> 0 -> s' (GPR r) = s (GPR r)) /\
        (s (GPR 0) = 0 -> s' (GPR 0) = 0).
Proof.
  destruct gen_checked as (t & Et & _). exists t. split; [exact Et|]. intros i o s s' Ho Hm Hn.
  destruct (decode_execute_run t i o s Et Ho Hm) as (opds & ps & Hopds & Hps & ->). intros E.
  exists ps. split; [exact Hps|]. destruct (gprs_written _ _ _ _ _ _ _ _ Hn E) as [Hr H0']. split; [exact Hr|].
  intros E0. apply H0'; [|exact E0]. destruct (decide (function_name o ∈ setters)) as [Hin|Hin].
  - left. by eapply setter_repairs.
  - right. by apply insn_regs_link.
Qed.

(** ** Types *)

Context `{Monitor} `{Channels} `{Rsp.Client}.
Import Gpio Uart Dma Rsp.

#[export] Instance run_job_typed f p : Respects keeps_typed (run_job f p).
Proof. unfold run_job, sched_guard, check_int. respects. Qed.
#[export] Instance do_scheduler_typed n : Respects keeps_typed (do_scheduler n run_job).
Proof. induction n as [|n IH]; cbn [do_scheduler]; respects. Qed.
#[export] Instance wait_stalled_typed n : Respects keeps_typed (wait_stalled n).
Proof. induction n as [|n IH]; cbn [wait_stalled]; respects. Qed.
#[export] Instance exec_turn_typed t n : Respects keeps_typed (exec_turn t n).
Proof. unfold exec_turn, elapse, asleep, trace_instr. cbv zeta. respects. Qed.

(** Every variable stays in the range of its C type, because every assignment
    converts: what the instances of [Respects keeps_typed] find. *)
Lemma exec_main_keeps n t fuel : Respects keeps_typed (exec_main n t fuel).
Proof. induction n as [|n IH]; cbn [exec_main]; respects. Qed.

End Cpu.

(** ** Executions *)

(** Register 3 after [l.add r3,r1,r2] with r1 = 5, r2 = 7, and r0 after
    [l.add r0,r1,r2], in supervisor mode. *)
Definition execute_word (w : Z) (r : Z) : option Z :=
  option_map (fun t =>
    state_of (@decode_execute no_devices FloatInsn.float32_softfloat zero_host t
                (upd (GPR 1) 5 (upd (GPR 2) 7 (upd (SPR SPR_SR) SPR_SR_SM (upd Iq_insn w zero_state))))) (GPR r)) or1ksim_build_automata.
Example add_executes : execute_word 0xe0611000 3 = Some 12 /\ execute_word 0xe0011000 0 = Some 0.
Proof. split; vm_compute; reflexivity. Qed.

(** [lf.add.s r3,r1,r2]: 0.5 + 2 with floating point on. *)
Example fp_executes :
  option_map (fun t =>
    state_of (@decode_execute no_devices FloatInsn.float32_softfloat zero_host t
                (upd Cpu_hardfloat 1 (upd (GPR 1) 0x3f000000 (upd (GPR 2) 0x40000000
                  (upd (SPR SPR_SR) SPR_SR_SM (upd Iq_insn 0xc8611000 zero_state)))))) (GPR 3)) or1ksim_build_automata
  = Some 0x40200000.
Proof. vm_compute. reflexivity. Qed.

(** The registers are special purpose registers 0x400 to 0x41f for l.mtspr,
    which has no destination operand, so that nothing repairs r0:
    [l.mtspr r0,r1,0x400] sets it to 5. *)
Lemma mtspr_sets_r0 : execute_word 0xc0000c00 0 = Some 5.
Proof. vm_compute. reflexivity. Qed.
End Cpu.
