(* ===== verification/Jobs.v ===== *)
(** * The jobs of the processor's own devices, run by the scheduler

    [do_scheduler] with the functions that the tick timer, the interrupt
    controller and the console put on its queue.  The reference runs the due jobs
    one after another on the registers, and keeps a list of jobs with absolute
    times for what is left and what the jobs schedule again. *)


From S2P Require Import Cpu.

Module Jobs.
Import Debug Except Sched Pic Tick Execute Cpu.

(** ** What each job does *)

(** The jobs described here; those of the peripherals are [Execute.run_job]'s too. *)
Definition core (f : job_fn) : bool :=
  match f with
  | J_pic_rep_int | J_tick_raise_except | J_tick_restart | J_tick_one_shot | J_check_int => true
  | _ => false
  end.

(** The exception is entered, or the debug unit takes it over and stalls. *)
Definition trapped (except : Z) (s s' : Sim) : Prop :=
  s' Stalled = 1 /\ s' Loadlock_active = 0 /\
  s' (SPR SPR_DRR) = u32 (Z.lor (s (SPR SPR_DRR)) (Z.land (s (SPR SPR_DSR)) (dsr_mask except))) /\
  frame (foot (G Loadlock_active :: debug_cells)) s s' /\ same_lists s s'.
Definition takes (except ea : Z) (s s' : Sim) : Prop :=
  if ignored except s then trapped except s s' else entered except ea s s'.

(** A pending interrupt is an exception; the timer's interrupt sets the pending
    bit and is an exception when SR[TEE] is set; restarting the timer clears the
    count, stopping it leaves the count at the match value. *)
Definition job_does (f : job_fn) (s t : Sim) : Prop :=
  match f with
  | J_pic_rep_int => if nz (s (SPR SPR_PICSR)) then takes EXCEPT_INT (s (SPR SPR_EEAR_BASE)) s t else t = s
  | J_tick_raise_except =>
      let s1 := upd (SPR SPR_TTMR) (Z.lor (s (SPR SPR_TTMR)) SPR_TTMR_IP) s in
      if Z.testbit (s (SPR SPR_SR)) 1 then takes EXCEPT_TICK (s (SPR SPR_EEAR_BASE)) s1 t else t = s1
  | J_tick_restart => t = upd Cycle_count_at_tick_start (s Cycles) (upd (SPR SPR_TTCR) 0 s)
  | J_tick_one_shot => t = upd Tick_counting 0 (upd (SPR SPR_TTCR) (Z.land (s (SPR SPR_TTMR)) SPR_TTMR_TP) s)
  | _ => t = s
  end.

(** When it runs again: the timer's interrupt after the next instruction that
    the first job on the queue, due at [next], allows; the restart after a
    period; the console is looked at every 100000 cycles. *)
Definition again (f : job_fn) (next : Z) (s : Sim) : option Z :=
  match f with
  | J_tick_raise_except => Some (1 + Z.max 0 (- next))
  | J_tick_restart => Some (Z.land (s (SPR SPR_TTMR)) SPR_TTMR_TP)
  | J_check_int => Some CHECK_INT_TIME
  | _ => None
  end.
Definition first_time (l : list ajob) : Z := match l with j :: _ => at_time j | [] => 0 end.
Definition requeue (f : job_fn) (next : Z) (s : Sim) (l : list ajob) : list ajob :=
  match again f next s with Some t => insert_at (t, 0, f) l | None => l end.

(** The due jobs run in order; [rest] are the jobs left on the queue. *)
Inductive runs : list ajob -> list ajob -> Sim -> list ajob -> Sim -> Prop :=
| runs_nil rest s : runs [] rest s rest s
| runs_cons j due rest s t rest' s' :
    job_does j.2 s t -> runs due (requeue j.2 (first_time (due ++ rest)) s rest) t rest' s' ->
    runs (j :: due) rest s rest' s'.

(** What a job needs: a period that is not 0, and no prompt asked for (which
    would enter the command line). *)
Definition can_run (f : job_fn) (s : Sim) : Prop :=
  (f = J_tick_restart -> Z.land (s (SPR SPR_TTMR)) SPR_TTMR_TP <> 0) /\ (f = J_check_int -> s Iprompt = 0).

(** ** Jobs leave what they need *)

Lemma takes_frame e ea s t c :
  takes e ea s t -> existsb (fun c' => bool_decide (c = c')) (entry_cells ++ [SPR SPR_DRR; G Rsp_sigval]) = false -> t c = s c.
Proof.
  unfold takes. rewrite existsb_app. intros Ht [Hc Hd]%orb_false_iff.
  destruct (ignored e s); [destruct Ht as (_ & _ & _ & Hf & _) | destruct Ht as (_ & _ & _ & _ & _ & _ & _ & _ & _ & _ & Hf & _)];
    apply (frame_get _ _ _ _ Hf); [|done].
  unfold entry_cells in Hc. rewrite existsb_app in Hc. apply orb_false_iff in Hc as [H1 H2].
  unfold debug_cells. cbn [existsb] in *. apply orb_false_iff in Hd as [-> [-> _]%orb_false_iff].
  apply orb_false_iff in H2 as [-> _]. exact H1.
Qed.

Lemma job_does_keeps f s t :
  job_does f s t -> typed s -> t Iprompt = s Iprompt /\ Z.land (t (SPR SPR_TTMR)) SPR_TTMR_TP = Z.land (s (SPR SPR_TTMR)) SPR_TTMR_TP.
Proof.
  intros Hj Hty. pose proof (typed_u32 s (SPR SPR_TTMR) Hty eq_refl) as Hr.
  assert (Htp : Z.land (u32 (Z.lor (s (SPR SPR_TTMR)) SPR_TTMR_IP)) SPR_TTMR_TP = Z.land (s (SPR SPR_TTMR)) SPR_TTMR_TP).
  { rewrite u32_small by (apply lor_range; [lia | exact Hr | split; [discriminate | reflexivity]]).
    rewrite Z.land_lor_distr_l. change (Z.land SPR_TTMR_IP SPR_TTMR_TP) with 0. apply Z.lor_0_r. }
  destruct f; cbn [job_does] in Hj; cbv zeta in Hj; try (subst t; look; done).
  - destruct (nz _); [|by subst t]. by rewrite !(takes_frame _ _ _ _ _ Hj) by reflexivity.
  - destruct (Z.testbit _ 1).
    + rewrite !(takes_frame _ _ _ _ _ Hj) by reflexivity. look. done.
    + subst t. look. done.
Qed.
Lemma can_run_kept f g s t : job_does f s t -> typed s -> can_run g s -> can_run g t.
Proof. intros Hj Hty [H1 H2]. destruct (job_does_keeps f s t Hj Hty) as [E1 E2]. unfold can_run. by rewrite E1, E2. Qed.

(** ** One job *)

Lemma takes_run e ea s : typed s -> wp (except_handle e ea) (fun _ s' => takes e ea s s' /\ typed s') s.
Proof.
  intros Hty. unfold takes. destruct (ignored e s) eqn:Hig; [|by apply except_handle_run].
  eapply (wpx_respects keeps_typed); [apply _|].
  eapply wpx_mono; [by apply except_handle_ignored_run | done |]. intros _ s' (H1 & H2 & H3 & H4 & H5) Hk. cbv beta.
  split; [done|]. by apply Hk.
Qed.

(** The queue is not looked at when an exception is entered. *)
Lemma takes_set_queue e ea q fr s s1 :
  takes e ea (set_queue q fr s) s1 -> typed s1 -> exists t, s1 = set_queue q fr t /\ takes e ea s t /\ typed t.
Proof.
  intros Ht Hty. exists (set_queue (job_queue s) (free_jobs s) s1).
  assert (Hsl : same_lists (set_queue q fr s) s1) by (unfold takes in Ht; destruct (ignored e _); apply Ht).
  split; [|split; [|exact Hty]].
  - destruct Hsl as (E1 & E2 & _). destruct s1. cbn in *. by subst.
  - assert (Hsl' : same_lists s (set_queue (job_queue s) (free_jobs s) s1)).
    { destruct Hsl as (_ & _ & H). split; [done|]. split; [done|]. exact H. }
    unfold takes in *. change (ignored e (set_queue q fr s)) with (ignored e s) in Ht.
    destruct (ignored e s).
    + destruct Ht as (H1 & H2 & H3 & H4 & _). by split_and!.
    + destruct Ht as (H1 & H2 & H3 & H4 & H5 & H6 & H7 & H8 & H9 & H10 & H11 & _). by split_and!.
Qed.
Lemma takes_at e ea s l n s0 :
  sched_at s l n s0 -> typed s ->
  wp (except_handle e ea) (fun _ s2 => exists t, takes e ea s t /\ typed t /\ sched_at t l n s2) s0.
Proof.
  intros (q & fr & -> & Hg & Hl & Hn) Hty. eapply wpx_mono; [apply takes_run; exact Hty | done |].
  intros [] s1 [Ht Hty1]. destruct (takes_set_queue _ _ _ _ _ _ Ht Hty1) as (t & -> & Ht' & Hty'). exists t.
  split; [done|]. split; [done|]. by exists q, fr.
Qed.

Lemma wp_next_insn s l n s' f d :
  sched_at s l (S n) s' -> - 2 ^ 29 <= first_time l ->
  wp (sched_next_insn f d) (fun _ => sched_at s (insert_at (1 + Z.max 0 (- first_time l), d, f) l) n) s'.
Proof.
  intros Hs Hf. unfold sched_next_insn. apply wpx_bind, wpx_gets. cbv beta.
  assert (E : next_insn_cycles 1 (job_queue s') = 1 + Z.max 0 (- first_time l)).
  { destruct Hs as (q & fr & -> & Hg & Hl & _). cbn [job_queue set_queue].
    destruct q as [|h r]; [by destruct Hg as [[? _] _]|]. subst l. cbn in *. rewrite Z.add_0_l in *.
    apply next_insn_cycles_run; [apply Hg | lia]. }
  rewrite E. apply wp_add; [done | lia].
Qed.

(** A run of a job on a queue changes the registers and the queue as described. *)
Lemma sched_at_upd c v s l n s' : sched_at s l n s' -> sched_at (upd c v s) l n (upd c v s').
Proof. intros (q & fr & -> & H). by exists q, fr. Qed.

Section Run.
Context `{Devices} `{Monitor} `{Uart.Channels}.

Lemma core_run f p s l n s0 :
  core f = true -> can_run f s -> sched_at s l (S n) s0 -> typed s -> - 2 ^ 29 <= first_time l ->
  wp (run_job f p) (fun _ s2 => exists t, job_does f s t /\ typed t /\ sched_at t (requeue f (first_time l) s l) n s2) s0.
Proof.
  intros Hc [Hre Hpr] Hs Hty Hfirst. pose proof (typed_u32 s (SPR SPR_TTMR) Hty eq_refl) as Hr.
  pose proof (fun c => sched_at_cell _ _ _ _ c Hs) as Hcell.
  assert (Hw : sched_at s l n s0) by (eapply sched_at_weaken; [|exact Hs]; lia).
  assert (Htp : 0 <= Z.land (s (SPR SPR_TTMR)) SPR_TTMR_TP < 2 ^ 28).
  { change SPR_TTMR_TP with (2 ^ 28 - 1). rewrite land_low by lia. apply Z.mod_pos_bound. lia. }
  destruct f; try discriminate; cbn [run_job job_does requeue again]; unfold requeue, again.
  - unfold pic_rep_int. apply wpx_bind, wpx_isset. rewrite Hcell. destruct (nz _); cbn [when].
    + apply wpx_bind, wpx_rd. rewrite Hcell. by apply takes_at.
    + apply wpx_ret. by exists s.
  - unfold tick_raise_except. apply wpx_bind, wpx_ors. rewrite Hcell. set (v := Z.lor _ _).
    apply (sched_at_upd (SPR SPR_TTMR) v) in Hs. apply wpx_bind.
    eapply wpx_mono; [apply wp_next_insn; [exact Hs | exact Hfirst] | done |]. intros [] s1 Hs1. cbv beta.
    apply wpx_bind, wpx_flag. rewrite (sched_at_cell _ _ _ _ _ Hs1). look.
    change SPR_SR_TEE with (2 ^ 1). rewrite nz_land_bit by lia. destruct (Z.testbit _ 1); cbn [when].
    + apply wpx_bind, wpx_rd. rewrite (sched_at_cell _ _ _ _ _ Hs1). look. apply takes_at; [done | by apply upd_typed].
    + apply wpx_ret. eexists. split; [reflexivity|]. split; [by apply upd_typed | done].
  - unfold tick_restart. apply wpx_bind, wpx_wr, wpx_bind, wpx_rd. look. rewrite Hcell. apply wpx_bind, wpx_wr, wpx_bind, wpx_rd. look. rewrite Hcell.
    apply (sched_at_upd (SPR SPR_TTCR) 0), (sched_at_upd Cycle_count_at_tick_start (s Cycles)) in Hs.
    eapply wpx_mono; [apply wp_add; [exact Hs | lia] | done |]. intros [] s1 Hs1. eexists. split; [reflexivity|].
    split; [by repeat apply upd_typed | done].
  - unfold tick_one_shot. apply wpx_bind, wpx_rd. rewrite Hcell. apply wpx_bind, wpx_wr, wpx_wr. eexists. split; [reflexivity|].
    split; [by repeat apply upd_typed|]. by apply sched_at_upd, sched_at_upd.
  - unfold check_int. apply wpx_bind, wpx_isset. rewrite Hcell, (Hpr eq_refl). cbn [nz Z.eqb negb when].
    apply wpx_bind, wpx_ret. eapply wpx_mono; [apply wp_add; [exact Hs | done] | done |].
    intros [] s1 Hs1. by exists s.
Qed.

(** ** The loop *)

Lemma span_due_app l due rest : span_due l = (due, rest) ->
  l = due ++ rest /\ Forall (fun j => at_time j <= 0) due /\ (forall j r, rest = j :: r -> 0 < at_time j).
Proof.
  revert due rest. induction l as [|j l IH]; cbn; intros due rest E.
  - injection E as <- <-. done.
  - destruct (Z.leb_spec (at_time j) 0).
    + destruct (span_due l) as [d n]. injection E as <- <-. destruct (IH d n eq_refl) as (-> & Hd & Hn). by repeat constructor.
    + injection E as <- <-. split; [done|]. split; [constructor|]. by intros ? ? [= <- _].
Qed.
Lemma insert_due j due rest :
  0 < at_time j -> Forall (fun k => at_time k <= 0) due -> insert_at j (due ++ rest) = due ++ insert_at j rest.
Proof.
  intros Hj Hd. induction Hd as [|k due Hk Hd IH]; [done|]. cbn. rewrite (proj2 (Z.ltb_lt _ _)) by lia. by rewrite IH.
Qed.
Lemma insert_later j rest :
  0 < at_time j -> (forall k r, rest = k :: r -> 0 < at_time k) -> forall k r, insert_at j rest = k :: r -> 0 < at_time k.
Proof.
  intros Hj Hr k r. destruct rest as [|k' r']; cbn; [by intros [= <- _]|].
  destruct (_ <? _); intros [= <- _]; [by eapply Hr | done].
Qed.

(** A job that runs again does so later. *)
Lemma requeue_later f next s due rest :
  can_run f s -> Forall (fun k => at_time k <= 0) due -> (forall k r, rest = k :: r -> 0 < at_time k) ->
  requeue f next s (due ++ rest) = due ++ requeue f next s rest /\ (forall k r, requeue f next s rest = k :: r -> 0 < at_time k).
Proof.
  intros [Hre _] Hd Hr. unfold requeue. destruct (again f next s) as [t|] eqn:E; [|done].
  assert (0 < t).
  { destruct f; cbn in E; try discriminate; injection E as <-; [lia | | done].
    specialize (Hre eq_refl). assert (0 <= Z.land (s (SPR SPR_TTMR)) SPR_TTMR_TP) by (apply Z.land_nonneg; right; done). lia. }
  split; [by apply insert_due | by apply insert_later].
Qed.

(** What a list of due jobs needs. *)
Definition runnable (due : list ajob) (s : Sim) : Prop :=
  Forall (fun j => core j.2 = true /\ can_run j.2 s /\ - 2 ^ 29 <= at_time j) due.

Lemma absq_cons q j l : absq 0 q = j :: l -> exists h r,
  q = h :: r /\ j = (time h, param h, func h) /\ l = absq (time h) r.
Proof.
  destruct q as [|h r]; [done|]. cbn. rewrite Z.add_0_l. intros [= <- <-]. by exists h, r.
Qed.

Lemma loop_run due : forall fuel j rest s l n s0,
  runnable (j :: due) s -> typed s -> sched_at s l n s0 -> (length (j :: due) <= fuel)%nat ->
  l = j :: due ++ rest -> Forall (fun k => at_time k <= 0) due -> (forall k r, rest = k :: r -> 0 < at_time k) ->
  wp (do_scheduler fuel run_job) (fun _ s2 => exists t rest', runs (j :: due) rest s rest' t /\
    sched_at t rest' n s2 /\ (forall k r, rest' = k :: r -> 0 < at_time k)) s0.
Proof.
  induction due as [|j2 due IH]; intros fuel j rest s l n s0 Hrun Hty Hs Hfuel -> Hd Hr;
    (destruct fuel as [|fuel]; [cbn in Hfuel; lia|]); cbn [do_scheduler];
    apply Forall_cons_1 in Hrun as [(Hc & Hcan & _) Hrun];
    destruct Hs as (q & fr & -> & Hg & Hl & Hn);
    apply absq_cons in Hl as (h & q' & -> & -> & Hl); cbn [snd] in *;
    (assert (Hnf : func h <> J_sched_guard) by (intros E; rewrite E in Hc; discriminate));
    destruct (pop_good h q' Hg Hnf) as [Hg' Hl']; rewrite <- Hl in Hl';
    apply wpx_bind, wpx_gets; cbv beta; apply wpx_bind, wpx_gets; cbv beta; cbn [job_queue free_jobs set_queue];
    apply wpx_bind, wpx_modify; cbv beta;
    (destruct q' as [|h2 q2]; [by destruct Hg' as [[Hne _] _]|]); apply wpx_bind.
  - destruct (requeue_later (func h) (first_time ([] ++ rest)) s [] rest Hcan Hd Hr) as [_ Hlate].
    eapply wpx_mono; [apply (core_run (func h) (param h) s ([] ++ rest) n); [done | done | | done |] | done |].
    + exists (head_plus (time h) (h2 :: q2)), (h :: fr). split; [done|]. split; [exact Hg'|]. split; [exact Hl' | cbn; lia].
    + destruct rest as [|k r]; [done|]. specialize (Hr k r eq_refl). cbn. lia.
    + intros [] s1 (t & Hj & Ht & Hs1). cbv beta. apply wpx_bind, wpx_gets. cbv beta.
      pose proof Hs1 as (q3 & fr3 & -> & Hg3 & Hl3 & Hn3). cbn [job_queue set_queue].
      destruct q3 as [|h3 q3]; [by destruct Hg3 as [[Hne _] _]|].
      assert (Hpos : 0 < time h3). { cbn [absq] in Hl3. symmetry in Hl3. specialize (Hlate _ _ Hl3). cbn in Hlate. lia. }
      rewrite (proj2 (Z.leb_gt _ _)) by done. apply wpx_ret. exists t, (requeue (func h) (first_time ([] ++ rest)) s rest).
      split; [|by split]. eapply runs_cons; [exact Hj | constructor].
  - pose proof Hrun as Hrun'. apply Forall_cons_1 in Hrun' as [(_ & _ & Hj2) _].
    destruct (requeue_later (func h) (first_time ((j2 :: due) ++ rest)) s (j2 :: due) rest Hcan Hd Hr) as [Hsplit Hlate].
    eapply wpx_mono; [apply (core_run (func h) (param h) s ((j2 :: due) ++ rest) n); [done | done | | done | exact Hj2] | done |].
    { exists (head_plus (time h) (h2 :: q2)), (h :: fr). split; [done|]. split; [exact Hg'|]. split; [exact Hl' | cbn; lia]. }
    intros [] s1 (t & Hj & Ht & Hs1). cbv beta. apply wpx_bind, wpx_gets. cbv beta.
    rewrite Hsplit in Hs1. pose proof Hs1 as (q3 & fr3 & E3 & _ & Hl3 & _). rewrite E3. cbn [job_queue set_queue].
    apply absq_cons in Hl3 as (h3 & q4 & Eq & Ej2 & _). rewrite Eq in *. apply Forall_cons_1 in Hd as [Hd1 Hd].
    assert (Hle : time h3 <= 0) by (rewrite Ej2 in Hd1; exact Hd1). rewrite (proj2 (Z.leb_le _ _)) by done. rewrite <- E3.
    eapply wpx_mono; [eapply (IH fuel j2); [| exact Ht | exact Hs1 | cbn in *; lia | done | done | exact Hlate] | done |].
    + eapply Forall_impl; [exact Hrun|]. cbn. intros k (K1 & K2 & K3). split; [done|]. split; [|done]. by eapply can_run_kept.
    + intros [] s2 (t' & rest' & Hruns & Hat & Hl'2). exists t', rest'. split; [|by split]. by eapply runs_cons.
Qed.

(** C5: one call of [do_scheduler] runs exactly the jobs that are due, in the
    order of their times, each with the effect of its function, and schedules
    again those that ask for it; every other job stays on the queue with the
    absolute time it had.  The loop makes as many rounds as there are due jobs,
    and none is due when it ends.  This is for due jobs of the timer, the
    interrupt controller and the console, at most [2 ^ 29] cycles late, with a
    period that is not 0 ([restart_loops]); the jobs behind them may be any. *)
Theorem do_scheduler_runs_due fuel due rest (s : Sim) :
  typed s -> queue_good (job_queue s) -> span_due (absq 0 (job_queue s)) = (due, rest) -> due <> [] ->
  runnable due s -> (length due <= fuel)%nat ->
  exists t rest' s', do_scheduler fuel run_job s = Ok tt s' /\ runs due rest s rest' t /\
    sched_at t rest' (length (free_jobs s)) s' /\ span_due rest' = ([], rest').
Proof.
  intros Hty Hg Hsp Hne Hrun Hfuel. destruct (span_due_app _ _ _ Hsp) as (Hl & Hd & Hr).
  destruct due as [|j due]; [done|]. apply Forall_cons_1 in Hd as [_ Hd].
  pose proof (sched_at_refl s (length (free_jobs s)) Hg (le_n _)) as Hs.
  pose proof (loop_run due fuel j rest s _ _ s Hrun Hty Hs Hfuel Hl Hd Hr) as Hwp.
  apply wp_ok in Hwp as ([] & s' & E & t & rest' & Hruns & Hat & Hlate). exists t, rest', s'. split_and!; try done.
  destruct rest' as [|k r]; [done|]. cbn. rewrite (proj2 (Z.leb_gt _ _)); [done|]. by eapply Hlate.
Qed.

(** A timer in restart mode whose period is 0 is due again at once: the loop
    does not end. *)
Theorem restart_loops fuel p h r (s : Sim) :
  job_queue s = SchedEntry 0 p J_tick_restart :: h :: r -> 0 < time h -> inty I32 (time h) ->
  typed s -> Z.land (s (SPR SPR_TTMR)) SPR_TTMR_TP = 0 ->
  exists s', do_scheduler fuel run_job s = Stop Out_of_fuel s'.
Proof.
  intros Hq Hh Hi Hty Htp. revert p s Hq Hty Htp. induction fuel as [|fuel IH]; intros p s Hq Hty Htp; [by exists s|].
  cbn [do_scheduler]. unfold gets, modify, bind. rewrite Hq. cbn [head_plus time param func run_job].
  rewrite Z.add_0_r, wrap_small by exact Hi. unfold tick_restart, bind, wr, rd. set (s1 := set_queue _ _ s).
  set (s2 := upd Cycle_count_at_tick_start _ _).
  assert (E2 : s2 (SPR SPR_TTMR) = s (SPR SPR_TTMR)) by (unfold s2, s1; look; done). rewrite E2, Htp.
  assert (Hq2 : job_queue s2 = SchedEntry (time h) (param h) (func h) :: r) by done.
  assert (Hf2 : free_jobs s2 = SchedEntry 0 p J_tick_restart :: free_jobs s) by done.
  rewrite (sched_add_now s2 J_tick_restart 0 _ _ _ _ Hq2 Hf2) by (done || (cbn; lia)). cbn [job_queue set_queue time].
  apply (IH 0); [cbn; by destruct h | | by rewrite <- E2 in Htp].
  exact (upd_typed _ _ _ (upd_typed _ _ s1 Hty)).
Qed.
End Run.

(** ** Witnesses *)

(** The timer restarts 3 cycles late and raises its interrupt; a line of the
    interrupt controller is pending; a device and the guard come later. *)
Definition ex_jobs : list sched_entry :=
  [SchedEntry (-3) 0 J_tick_restart; SchedEntry 0 0 J_tick_raise_except; SchedEntry 2 0 J_pic_rep_int;
   SchedEntry 6 1 (J_device 0); SchedEntry 1000 0 J_sched_guard].
Definition ex_timer : Sim :=
  set_queue ex_jobs [SchedEntry 0 0 J_sched_guard]
    (upd Cycles 500 (upd Pc 0x2000 (upd (SPR SPR_PICSR) 1 (upd (SPR SPR_SR) 0x8003 (upd (SPR SPR_TTMR) 0x60000064 zero_state))))).
Definition ex_due : list ajob := [(-3, 0, J_tick_restart); (-3, 0, J_tick_raise_except); (-1, 0, J_pic_rep_int)].
Definition ex_rest : list ajob := [(5, 1, J_device 0); (1005, 0, J_sched_guard)].
Definition ex_scheduler (fuel : nat) : M unit :=
  @do_scheduler fuel (@run_job (Bus.bus no_devices) idle_monitor idle_channels).

Lemma ex_timer_typed : typed ex_timer.
Proof. exact (upd_typed _ _ _ (upd_typed _ _ _ (upd_typed _ _ _ (upd_typed _ _ _ (upd_typed _ _ _ zero_typed))))). Qed.
Lemma ex_jobs_good : queue_good ex_jobs.
Proof.
  split; [unfold queue_ok, ex_jobs; cbn; queue_facts|]. split.
  - cbn. do 4 apply List.Exists_cons_tl. apply List.Exists_cons_hd. reflexivity.
  - intros j r [= <- <-]. split; [closed_Z|]. queue_facts.
Qed.

Lemma do_scheduler_runs_due_witness :
  exists t rest' s', ex_scheduler 3 ex_timer = Ok tt s' /\ runs ex_due ex_rest ex_timer rest' t /\
    sched_at t rest' 1 s' /\ span_due rest' = ([], rest').
Proof.
  assert (Hrun : runnable ex_due ex_timer).
  { unfold runnable, ex_due. repeat constructor; cbn [snd fst at_time]; (discriminate || intros _; vm_compute; discriminate). }
  exact (@do_scheduler_runs_due (Bus.bus no_devices) idle_monitor idle_channels 3 ex_due ex_rest ex_timer
    ex_timer_typed ex_jobs_good eq_refl ltac:(discriminate) Hrun ltac:(cbn; lia)).
Defined.

(** The period is 100 cycles; both exceptions are entered, the second with the
    address of the first one's handler. *)
Example ex_timer_runs :
  match ex_scheduler 3 ex_timer with
  | Ok _ s' => absq 0 (job_queue s') = [(2, 0, J_tick_raise_except); (5, 1, J_device 0); (100, 0, J_tick_restart); (1005, 0, J_sched_guard)] /\
      s' Pc = 0x800 /\ s' (SPR SPR_EPCR_BASE) = 0x500
  | Stop _ _ => False
  end.
Proof. vm_compute. repeat split. Qed.

Lemma restart_loops_witness :
  exists s', ex_scheduler 1000 (set_queue [SchedEntry 0 0 J_tick_restart; SchedEntry 5 0 J_sched_guard] [] zero_state) = Stop Out_of_fuel s'.
Proof.
  exact (@restart_loops (Bus.bus no_devices) idle_monitor idle_channels 1000 0 (SchedEntry 5 0 J_sched_guard) []
    (set_queue [SchedEntry 0 0 J_tick_restart; SchedEntry 5 0 J_sched_guard] [] zero_state)
    eq_refl eq_refl ltac:(by apply inty_I32; cbn; lia) zero_typed eq_refl).
Defined.
End Jobs.
