(* ===== verification/Pc.v ===== *)
(** * The program counter

    How a clock moves [cpu_state.pc], [pcnext] and the delay slot: the
    instructions that jump, and all the others. *)

From S2P Require Export Cpu.

Module PC.
Import Sched Debug Except Tick Pic Mem Ram Mmu Dcache Icache Abstract Sprs Bpb Insnset Or32 Decode Operands Execute Generated Insn Cpu.

(** Nothing moved the program counter, unless an exception is pending. *)
Definition same_pcs (s s' : Sim) : Prop :=
  s' Pc = s Pc /\ s' Pcnext = s Pcnext /\ s' Pc_delay = s Pc_delay /\
  s' Next_delay_insn = s Next_delay_insn.
Definition steady (s s' : Sim) : Prop :=
  s' Except_pending = 0 -> s Except_pending = 0 /\ same_pcs s s'.

#[export] Instance steady_preorder : PreOrder steady.
Proof.
  split; unfold steady, same_pcs; red; [tauto|]. intros s1 s2 s3 H1 H2 H3.
  destruct (H2 H3) as (E & ? & ? & ? & ?). destruct (H1 E) as (? & ? & ? & ? & ?). repeat split; congruence.
Qed.
#[export] Instance steady_writes l : Writes (cells l false) steady.
Proof.
  split; [apply _ | |].
  - intros c v s Hc H0. unfold same_pcs.
    rewrite !upd_ne in * by (intros ->; discriminate Hc). done.
  - intros f s Hf. unfold steady, same_pcs. rewrite !Hf. tauto.
Qed.

(** Once an exception is pending, the rest of [except_handle] leaves it so. *)
Definition keeps_pending (c : cell) : Prop := c <> Except_pending.
#[export] Hint Extern 1 (keeps_pending _) => unfold keeps_pending; discriminate : footprint.
Lemma steady_pending (k : M unit) : Respects (frame keeps_pending) k -> Respects steady (wr Except_pending 1;; k).
Proof.
  intros Hk s H0. exfalso. revert H0.
  change (state_of ((wr Except_pending 1;; k) s)) with (state_of (k (upd Except_pending 1 s))).
  rewrite (Hk _ Except_pending) by (intros Hc; by apply Hc). rewrite upd_eq. discriminate.
Qed.
#[export] Instance steady_enters : Enters steady.
Proof.
  split; [apply (steady_writes [])|]. intros e ea. unfold except_handle.
  apply respects_bind; [apply _ | respects |]. intros _.
  apply respects_bind; [apply _ | apply debug_ignore_exception_typed, (steady_writes []) |].
  intros [|]; [respects|]. apply steady_pending. unfold delay_offset. respects.
Qed.

(** ** Jumps *)

Definition param_value (ps : params) (i : nat) (s : Sim) : Z :=
  match ps !! i with Some (P_reg r) => s (GPR r) | Some (P_val v) => v | None => 0 end.

Definition relative (ps : params) (s : Sim) : option Z :=
  Some (u32 (s Pc + s32 (s32 (param_value ps 0 s) * 4))).
Definition conditional (cond : bool) (ps : params) (s : Sim) : option Z :=
  if eqb (nz (Z.land (s (SPR SPR_SR)) SPR_SR_F)) cond then relative ps s else None.
Definition absolute (ps : params) (s : Sim) : option Z :=
  if nz (Z.land (param_value ps 0 s) 3) then None else Some (u32 (param_value ps 0 s)).
(** Where the function [name] jumps: a word offset from the program counter, or
    a register; a register that is no aligned address, and l.jalr to the link
    register, raise an exception instead. *)
Definition jump_target (name : string) (ps : params) : Sim -> option Z :=
  if bool_decide (name = "l_j" \/ name = "l_jal")%string then relative ps
  else if bool_decide (name = "l_bf")%string then conditional true ps
  else if bool_decide (name = "l_bnf")%string then conditional false ps
  else if bool_decide (name = "l_jr")%string then absolute ps
  else if bool_decide (name = "l_jalr")%string then
    if bool_decide (dest ps = [LINK_REGNO]) then fun _ => None else absolute ps
  else fun _ => None.

Definition no_delay_slot (s : Sim) : bool := nz (Z.land (s (SPR SPR_CPUCFGR)) SPR_CPUCFGR_ND).

(** The sequencing variables after an instruction that jumps to [target], or
    does not jump. *)
Definition jumped (target : option Z) (s s' : Sim) : Prop :=
  s' Pc = s Pc /\
  match target with
  | None => s' Pcnext = s Pcnext /\ s' Next_delay_insn = s Next_delay_insn
  | Some a =>
      if no_delay_slot s then s' Pcnext = a /\ s' Next_delay_insn = s Next_delay_insn
      else s' Pcnext = s Pcnext /\ s' Next_delay_insn = 1 /\ s' Pc_delay = a
  end.

Lemma steady_jumped (s s1 s2 : Sim) target :
  steady s1 s2 -> (s1 Except_pending = 0 -> jumped target s s1) -> s2 Except_pending = 0 -> jumped target s s2.
Proof.
  intros H12 Hj H0. destruct (H12 H0) as (E & Ep & En & Ed & Ei). specialize (Hj E).
  unfold jumped in *. rewrite Ep, En, Ed, Ei. exact Hj.
Qed.

Abbreviation pwp m := (wpx m (fun _ _ => True)).

Lemma pwp_param ps i (Q : Z -> Sim -> Prop) s : Q (param_value ps i s) s -> pwp (PARAM ps i) Q s.
Proof. unfold param_value, PARAM, wpx. destruct (ps !! i) as [[r|v]|]; cbn; auto. Qed.
Lemma pwp_target ps (Q : Z -> Sim -> Prop) (s : Sim) :
  Q (u32 (s Pc + s32 (s32 (param_value ps 0 s) * 4))) s -> pwp (branch_target ps) Q s.
Proof.
  intros HQ. unfold branch_target. apply wpx_bind, wpx_rd, wpx_bind, pwp_param, wpx_ret. exact HQ.
Qed.

(** A function body that jumps to [target s]. *)
Definition jumps_to (target : Sim -> option Z) (m : M unit) : Prop :=
  forall s, pwp m (fun _ s' => s' Except_pending = 0 -> jumped (target s) s s') s.

Lemma pwp_respects {A} R (m : M A) (Q : A -> Sim -> Prop) (s : Sim) :
  Respects R m -> (forall a s', R s s' -> Q a s') -> pwp m Q s.
Proof. intros Hm HQ. specialize (Hm s). unfold wpx. destruct (m s); [by apply HQ | done]. Qed.

Lemma pwp_steady (m : M unit) target (s0 s : Sim) :
  Respects steady m -> (s Except_pending = 0 -> jumped target s0 s) ->
  pwp m (fun _ s' => s' Except_pending = 0 -> jumped target s0 s') s.
Proof.
  intros Hm Hs. eapply (wpx_respects steady); [exact Hm|]. unfold wpx. destruct (m s); [|done].
  intros H1. by apply (steady_jumped s0 s).
Qed.

Ltac jumped_done :=
  intros _; unfold jumped, relative, no_delay_slot in *;
  repeat match goal with E : nz _ = _ |- _ => rewrite E end; look; rewrite ?wrap_wrap; done.

Lemma steady_jumps m target : Respects steady m -> (forall s, target s = None) -> jumps_to target m.
Proof. intros Hm Ht s. apply pwp_steady; [exact Hm|]. intros _. rewrite Ht. done. Qed.

Lemma l_j_jumps ps : jumps_to (relative ps) (l_j ps).
Proof. intros s. unfold l_j. wps. apply wpx_bind, pwp_target. wps; jumped_done. Qed.

Section Jumps.
Context `{Devices} `{Softfloat} `{Host}.
Lemma l_jal_jumps ps : jumps_to (relative ps) (l_jal ps).
Proof.
  intros s. unfold l_jal. wps. apply wpx_bind, pwp_target. 
  wps; change (setsim_reg LINK_REGNO) with (wr (GPR LINK_REGNO)); wps; (apply pwp_steady; [apply _|]); jumped_done.
Qed.

Lemma l_jr_jumps ps : jumps_to (absolute ps) (l_jr ps).
Proof.
  intros s. unfold l_jr. apply wpx_bind, pwp_param. wps.
  all: apply pwp_steady; [apply _|]; unfold absolute.
  all: match goal with E : nz (Z.land _ 3) = _ |- _ => rewrite E end.
  all: jumped_done.
Qed.

Lemma reg_param0 ps (Q : Z -> Sim -> Prop) s :
  (forall r, dest ps = [r] -> Q r s) -> pwp (REG_PARAM0 ps) Q s.
Proof. unfold REG_PARAM0, wpx. destruct ps as [|[r|v] ps]; cbn; auto. Qed.

Lemma l_jalr_jumps ps :
  jumps_to (if bool_decide (dest ps = [LINK_REGNO]) then fun _ => None else absolute ps) (l_jalr ps).
Proof.
  intros s. unfold l_jalr. apply wpx_bind, pwp_param, wpx_bind, reg_param0.
  intros r ->. apply wpx_bind, wpx_rd, wpx_if; intros Er.
  - apply Z.eqb_eq in Er as ->. apply pwp_steady; [apply _ | done].
  - rewrite bool_decide_eq_false_2 by (intros [= ->]; discriminate). unfold absolute.
    wps; change (setsim_reg LINK_REGNO) with (wr (GPR LINK_REGNO)); wps.
    1: apply pwp_steady; [apply _|].
    all: match goal with E : nz (Z.land _ 3) = _ |- _ => rewrite E end.
    all: jumped_done.
Qed.

(** The branch statistics touch nothing that decides the jump. *)
Lemma jumped_bp target (s0 s : Sim) s' :
  frame bp_cell s0 s -> jumped target s s' -> jumped target s0 s'.
Proof.
  intros Hf. unfold jumped, no_delay_slot. rewrite !Hf by (intros Hc; exact Hc). done.
Qed.
Lemma branch_if_jumps cond st ps : jumps_to (conditional cond ps) (branch_if cond st ps).
Proof.
  intros s. unfold branch_if.
  apply wpx_bind, wpx_isset, wpx_bind, (pwp_respects (frame bp_cell)); [respects|]. intros [] s1 Hf; cbv beta.
  assert (Ef : conditional cond ps s = if eqb (nz (Z.land (s1 (SPR SPR_SR)) SPR_SR_F)) cond then relative ps s1 else None).
  { unfold conditional, relative, param_value. rewrite !Hf by (intros Hc; exact Hc).
    destruct (ps !! 0%nat) as [[r|v]|]; rewrite ?Hf by (intros Hc; exact Hc); done. }
  rewrite Ef. clear Ef. remember (if eqb _ cond then relative ps s1 else None) as target eqn:Et.
  apply wpx_mono with (E := fun _ _ => True) (Q := fun _ (s' : Sim) => s' Except_pending = 0 -> jumped target s1 s');
    [|done|intros _ s' HQ H0'; exact (jumped_bp _ s s1 s' Hf (HQ H0'))].
  subst target.
  apply wpx_bind, wpx_flag, wpx_if; intros Eb; rewrite Eb.
  - wps. apply wpx_bind, pwp_target. wps; (apply pwp_steady; [apply _|]); jumped_done.
  - wps. by apply pwp_steady; [apply _|].
Qed.


Lemma output_function_jumps name ps :
  name <> "l_mtspr"%string -> name <> "l_rfe"%string ->
  jumps_to (jump_target name ps) (output_function name ps).
Proof.
  intros Hm Hr. destruct (decide (name ∈ jumpers)) as [Hj|Hj].
  - unfold jumpers in Hj. repeat apply elem_of_cons in Hj as [->|Hj]; [..|by apply elem_of_nil in Hj].
    + exact (branch_if_jumps true St_bf ps).
    + exact (branch_if_jumps false St_bnf ps).
    + exact (l_j_jumps ps).
    + exact (l_jal_jumps ps).
    + exact (l_jalr_jumps ps).
    + exact (l_jr_jumps ps).
    + done.
  - apply steady_jumps.
    + apply output_function_writes; [done | apply _ |]. unfold insn_cells. rewrite bool_decide_eq_false_2 by done. apply _.
    + intros s. unfold jump_target. rewrite !bool_decide_eq_false_2; [done|..].
      all: intros Hx; apply Hj; clear -Hx; first [destruct Hx as [-> | ->] | rewrite Hx]; apply (bool_decide_unpack _); reflexivity.
Qed.

(** ** A whole instruction *)

Lemma expected_params_ext o w (s s0 : Sim) :
  (forall r, s0 (GPR r) = s (GPR r)) -> expected_params o w s0 = expected_params o w s.
Proof.
  intros Hs. unfold expected_params. destruct (args o); [done|]. apply mapM_ext. intros [l|l|l r]; cbn [expected_param]; [done..|].
  repeat case_match; by rewrite ?Hs.
Qed.
Lemma jump_target_ext name ps (s s0 : Sim) :
  frame (foot [G Breakpoint]) s s0 -> jump_target name ps s0 = jump_target name ps s.
Proof.
  intros Hf. assert (Hs : forall c, c <> G Breakpoint -> s0 c = s c).
  { intros c Hc. apply Hf. unfold foot. cbn. rewrite bool_decide_eq_false_2 by done. discriminate. }
  assert (Hp : param_value ps 0 s0 = param_value ps 0 s).
  { unfold param_value. destruct (ps !! 0%nat) as [[r|v]|]; rewrite ?Hs by discriminate; done. }
  assert (Hr : relative ps s0 = relative ps s) by (unfold relative; rewrite Hp, Hs by discriminate; done).
  assert (Hc : forall b, conditional b ps s0 = conditional b ps s)
    by (intros b; unfold conditional; rewrite Hr, Hs by discriminate; done).
  assert (Ha : absolute ps s0 = absolute ps s) by (unfold absolute; rewrite Hp; done).
  unfold jump_target. repeat case_bool_decide; auto.
Qed.

Lemma run_jumps t i o ps ea repair :
  function_name o <> "l_mtspr"%string -> function_name o <> "l_rfe"%string ->
  jumps_to (jump_target (function_name o) ps) (run_instruction t i o ps ea repair).
Proof.
  intros Hm Hr s. unfold run_instruction. apply wpx_bind.
  eapply wpx_mono; [by apply output_function_jumps | done |]. intros [] s1 Hj. cbv beta.
  apply pwp_steady; [pose proof (steady_writes [0]); respects | exact Hj].
Qed.

Lemma update_pc_run (s : Sim) :
  typed s ->
  wp update_pc (fun _ s' =>
    s' Except_pending = s Except_pending /\ s' (SPR SPR_PPC) = s Pc /\ s' Pc = s Pcnext /\
    s' Delay_insn = s Next_delay_insn /\
    s' Pcnext = (if nz (s Next_delay_insn) then s Pc_delay else u32 (s Pcnext + 4)) /\
    frame (foot [G Delay_insn; SPR SPR_PPC; G Pc; G Pcnext]) s s' /\ typed s') s.
Proof.
  intros Hty. pose proof (fun c => typed_wrap s c Hty) as Hw.
  pose proof (Hw Pc) as H1'. pose proof (Hw Pcnext) as H2'. pose proof (Hw Pc_delay) as H3'.
  pose proof (Hw Next_delay_insn) as H4'. cbn [ctype] in *.
  unfold update_pc. wps. rewrite !H4', !H1', !H2'. repeat (split; [done|]).
  split; [by destruct (nz (s Next_delay_insn))|]. split; [solve_frame | by repeat apply upd_typed].
Qed.

(** The instruction is executed from [s] with the breakpoint flag cleared. *)
Lemma wrapper_jumps t i o (s : Sim) :
  or1ksim_build_automata = Some t -> or1ksim_or32_opcodes !! i = Some o -> matches (encoding o) (s Iq_insn) ->
  function_name o <> "l_mtspr"%string -> function_name o <> "l_rfe"%string ->
  exists ps, expected_params o (s Iq_insn) s = Some ps /\
    pwp (decode_execute_wrapper t)
        (fun _ s' => s' Except_pending = 0 -> jumped (jump_target (function_name o) ps s) s s') s.
Proof.
  intros Et Ho Hm Hn1 Hn2. set (s0 := upd Breakpoint 0 s).
  assert (Hf : frame (foot [G Breakpoint]) s s0) by (subst s0; solve_frame).
  assert (Hs : forall c, c <> G Breakpoint -> s0 c = s c) by (intros c Hc; apply upd_ne; congruence).
  destruct (decode_execute_run t i o s0 Et Ho) as (opds & ps & _ & Hps & Er); [by rewrite Hs|].
  rewrite Hs in Hps by discriminate. rewrite (expected_params_ext o _ s s0) in Hps by (intros; by apply Hs).
  exists ps. split; [exact Hps|]. rewrite <- (jump_target_ext _ ps s s0 Hf).
  unfold decode_execute_wrapper. apply wpx_bind, wpx_wr, wpx_bind. fold s0. unfold wpx at 1. rewrite Er.
  pose proof (run_jumps t i o ps (address_of o ps) (writes_reg opds false) Hn1 Hn2 s0) as Hj.
  unfold wpx in Hj. destruct (run_instruction _ _ _ _ _ _ s0) as [[] s1|]; [|done]. 
  apply pwp_steady; [respects|]. intros H0'. specialize (Hj H0'). revert Hj.
  unfold jumped, no_delay_slot. by rewrite !Hs by discriminate.
Qed.

(** C4: the program counters.  When no exception is pending after an
    instruction other than l.mtspr and l.rfe, the next clock fetches from the
    old [pcnext] and the one after it from the jump target, or from the next
    word: every jump has a delay slot, unless CPUCFGR[ND] is set, when the next
    clock fetches from the target. *)
Theorem instruction_sequencing :
  exists t, or1ksim_build_automata = Some t /\
    forall i o (s s' : Sim), typed s -> or1ksim_or32_opcodes !! i = Some o -> matches (encoding o) (s Iq_insn) ->
      function_name o <> "l_mtspr"%string -> function_name o <> "l_rfe"%string ->
      s Next_delay_insn = 0 ->
      (decode_execute_wrapper t;; update_pc) s = Ok tt s' -> s' Except_pending = 0 ->
      exists ps, expected_params o (s Iq_insn) s = Some ps /\
        let target := jump_target (function_name o) ps s in
        let next := s Pcnext in
        s' (SPR SPR_PPC) = s Pc /\
        if no_delay_slot s then
          s' Pc = default next target /\ s' Pcnext = u32 (s' Pc + 4) /\ s' Delay_insn = 0
        else
          s' Pc = next /\ s' Pcnext = default (u32 (next + 4)) target /\
          s' Delay_insn = b2z (bool_decide (is_Some target)).
Proof.
  destruct gen_checked as (t & Et & _). exists t. split; [exact Et|].
  intros i o s s' Hty Ho Hm Hn1 Hn2 Hnd E H0'.
  destruct (wrapper_jumps t i o s Et Ho Hm Hn1 Hn2) as (ps & Hps & Hj). exists ps. split; [exact Hps|].
  unfold bind, wpx in *. pose proof (decode_execute_wrapper_keeps keeps_typed t s Hty) as Hty1.
  destruct (decode_execute_wrapper t s) as [[] s1|]; [|discriminate]. cbn [state_of] in Hty1.
  pose proof (update_pc_run s1 Hty1) as Hu. unfold wpx in Hu. rewrite E in Hu.
  destruct Hu as (Ep & Eppc & Epc & Ed & Enext & _).
  destruct Hj as [Hpc Hj]; [congruence|]. cbv zeta. rewrite Eppc, Epc, Ed, Enext. split; [exact Hpc|].
  clear -Hj Hnd. destruct (jump_target _ _ _) as [a|]; cbn [default]; [destruct (no_delay_slot s)|].
  - destruct Hj as [-> ->]. by rewrite Hnd.
  - destruct Hj as (-> & -> & ->). done.
  - destruct Hj as [-> ->]. rewrite Hnd. by destruct (no_delay_slot s).
Qed.
End Jumps.
End PC.
