(* ===== verification/Reset.v ===== *)
(** * Resetting the processor

    The state [cpu_reset] leaves, and the sleep and doze modes of the main
    loop. *)

From S2P Require Export Pc.

Module Reset.
Import Sched Debug Except Insnset Execute PC.

(** Everything [cpu_reset] clears before it raises the exception. *)
Definition cleared : list cell :=
  [G Cycles; G Loadcycles; G Storecycles; G Instructions; G Supercycles; G Hazardwait;
   G Iq_insn_index; G Iq_insn; G Iq_insn_addr; G Ico_insn_index; G Ico_insn; G Ico_insn_addr;
   G Sbuf_head; G Sbuf_tail; G Sbuf_count; G Sbuf_prev_cycles].
Definition reset_vector (s : Sim) : Z :=
  EXCEPT_RESET + if Z.testbit (s (SPR SPR_SR)) 14 then 0xf0000000 else 0.

Lemma setsim_reg_0 r (s : Sim) : 0 <= r < 32 -> setsim_reg r 0 s = Ok tt (upd (GPR r) 0 s).
Proof.
  intros Hr. unfold setsim_reg, MAX_GPRS. rewrite (proj2 (Z.ltb_lt r 32)) by lia. by destruct (r =? 0).
Qed.
Definition gpr_cell (c : cell) : Prop := match c with GPR _ => True | _ => False end.
Lemma clear_gprs_run (s : Sim) E :
  wpx (for_ (Z.to_nat MAX_GPRS) 0 1 (fun i => setsim_reg i 0)) E
    (fun _ (s' : Sim) => (forall r, 0 <= r < 32 -> s' (GPR r) = 0) /\ frame gpr_cell s s' /\ (typed s -> typed s')) s.
Proof.
  apply wpx_for with (I := fun i (s' : Sim) => (forall r, 0 <= r < Z.of_nat i -> s' (GPR r) = 0) /\
    frame gpr_cell s s' /\ (typed s -> typed s')).
  - split_and!; [lia | reflexivity | done].
  - intros i s1 Hi (H1 & H2 & H3). unfold wpx. change (Z.to_nat MAX_GPRS) with 32%nat in Hi.
    rewrite setsim_reg_0 by lia. split_and!.
    + intros r Hr. rewrite upd_lookup. case_decide as Ed; [done|]. apply H1.
      assert (r <> 0 + Z.of_nat i * 1) by congruence. lia.
    + by apply frame_trans_upd.
    + intros Hty. by apply upd_typed, H3.
  - auto.
Qed.

(** [cpu_reset] clears the registers, the counters and the store buffer,
    enters supervisor mode with interrupts and translation off and starts at the
    reset vector; a jump that was about to be taken survives it ([pcnext] and
    [delay_insn] come from the [next_delay_insn] of the last clock). *)
Theorem cpu_reset_correct (s : Sim) :
  typed s -> ignored EXCEPT_RESET s = false ->
  exists s', cpu_reset s = Ok tt s' /\
    (forall r, 0 <= r < 32 -> s' (GPR r) = 0) /\ (forall c, c ∈ cleared -> s' c = 0) /\
    s' Pc = reset_vector s /\ s' Except_pending = 0 /\
    (forall i, 0 <= i < 32 -> Z.testbit (s' (SPR SPR_SR)) i = entry_sr_bit (s (SPR SPR_SR)) i) /\
    s' Delay_insn = s Next_delay_insn /\
    s' Pcnext = if nz (s Next_delay_insn) then s Pc_delay else reset_vector s + 4.
Proof.
  intros Hty Hig. apply wp_unit.
  unfold cpu_reset. do 6 (apply wpx_bind, wpx_wr). apply wpx_bind.
  set (s0 := upd Hazardwait 0 _).
  eapply wpx_mono; [apply (clear_gprs_run _ (fun _ _ => False)) | done |].
  intros [] s1 (Hr & Hf & Hty1). cbv beta.
  assert (Hty0 : typed s0) by (subst s0; by repeat apply upd_typed). specialize (Hty1 Hty0).
  assert (Hg : forall c, existsb (fun c' => bool_decide (c = c')) (G Pc :: G Pcnext :: cleared) = false ->
                 ~ gpr_cell c -> s1 c = s c).
  { intros c Hc Hn. rewrite Hf by done. apply (frame_get (G Pc :: G Pcnext :: cleared)); [subst s0; solve_frame | done]. }
  wps. set (s2 := upd Pcnext _ _).
  assert (Hty2 : typed s2) by (subst s2; by repeat apply upd_typed).
  assert (Hf2 : frame (foot (G Pc :: G Pcnext :: cleared)) s1 s2) by (subst s2; solve_frame).
  assert (Hs2 : forall c, existsb (fun c' => bool_decide (c = c')) (G Pc :: G Pcnext :: cleared) = false ->
                 ~ gpr_cell c -> s2 c = s c).
  { intros c Hc Hn. rewrite (frame_get _ _ _ _ Hf2 Hc). by apply Hg. }
  assert (Hc2 : forall c, c ∈ cleared -> s2 c = 0).
  { intros c Hc. unfold cleared in Hc. subst s2.
    do 6 (apply elem_of_cons in Hc as [->|Hc]; [look; rewrite Hf by (intros []); subst s0; look; done|]).
    repeat (apply elem_of_cons in Hc as [->|Hc]; [look; done|]). by apply elem_of_nil in Hc. }
  assert (Hig2 : ignored EXCEPT_RESET s2 = false) by (unfold ignored; rewrite Hs2 by (reflexivity || intros []); exact Hig).
  eapply wpx_mono; [apply (except_handle_run EXCEPT_RESET 0 s2 Hty2 Hig2) | done |].
  intros [] s3 [He Hty3]. cbv beta.
  apply wpx_bind. eapply wpx_mono; [apply (update_pc_run s3 Hty3) | done |].
  intros [] s4 (_ & _ & Epc & Ed & En & Hf4 & Hty4). cbv beta. wps.
  destruct He as (Hsr & _ & _ & _ & _ & Hpcn & _ & _ & _ & _ & Hf3 & _).
  assert (Esr : s4 (SPR SPR_SR) = entry_sr (s (SPR SPR_SR)))
    by (rewrite (frame_get _ _ _ _ Hf4) by reflexivity; rewrite Hsr, Hs2 by (reflexivity || intros []); done).
  assert (Eph : nz (Z.land (s4 (SPR SPR_SR)) SPR_SR_EPH) = Z.testbit (s (SPR SPR_SR)) 14).
  { change SPR_SR_EPH with (2 ^ 14). rewrite nz_land_bit, Esr, entry_sr_spec by lia. done. }
  assert (Eh : handler_addr EXCEPT_RESET s2 = reset_vector s).
  { unfold handler_addr, reset_vector. rewrite Hs2 by (reflexivity || intros []). by destruct (Z.testbit _ 14). }
  assert (E34 : forall c, existsb (fun c' => bool_decide (c = c')) (G Delay_insn :: SPR SPR_PPC :: entry_cells) = false ->
                  existsb (fun c' => bool_decide (c = c')) [G Delay_insn; SPR SPR_PPC; G Pc; G Pcnext] = false ->
                  s4 c = s2 c).
  { intros c Hc Hc'. rewrite (frame_get _ _ _ _ Hf4 Hc'). apply (frame_get _ _ _ _ Hf3).
    cbn [existsb] in Hc. by apply orb_false_iff in Hc as [_ [_ Hc]%orb_false_iff]. }
  split_and!.
  - intros r Hr'. look. rewrite E34 by reflexivity. rewrite (frame_get _ _ _ _ Hf2) by reflexivity. by apply Hr.
  - intros c Hc. rewrite !upd_ne by (intros <-; by apply (bool_decide_pack _) in Hc).
    rewrite E34; [by apply Hc2|..]; unfold cleared in Hc;
      repeat (apply elem_of_cons in Hc as [->|Hc]; [reflexivity|]); by apply elem_of_nil in Hc.
  - rewrite Eph. unfold reset_vector. by destruct (Z.testbit _ 14).
  - done.
  - intros i Hi. rewrite Esr. by apply entry_sr_spec.
  - rewrite Ed, (frame_get _ _ _ _ Hf3), Hs2 by (reflexivity || intros []). done.
  - rewrite En, !(frame_get _ _ _ _ Hf3), !Hs2, Hpcn, Eh by (reflexivity || intros []).
    destruct (nz (s Next_delay_insn)); [done|]. unfold reset_vector. by destruct (Z.testbit _ 14).
Qed.

(** A processor reset while the jump of the last clock is pending. *)
Definition ex_jumping : Sim := upd Next_delay_insn 1 (upd Pc_delay 0x2000 zero_state).
Lemma ex_jumping_typed : typed ex_jumping.
Proof. do 2 apply upd_typed. exact zero_typed. Qed.
Lemma cpu_reset_correct_witness :
  exists s', cpu_reset ex_jumping = Ok tt s' /\ s' Pc = 0x100 /\ s' Pcnext = 0x2000.
Proof.
  destruct (cpu_reset_correct ex_jumping ex_jumping_typed) as (s' & E & _ & _ & Hp & _ & _ & _ & Hn);
    [reflexivity|]. exists s'. split_and!; [exact E | rewrite Hp; reflexivity | rewrite Hn; reflexivity].
Defined.

(** ** Sleep and doze *)

(** With [config.pm.enabled] 0 or 1, as the configuration sets it, the
    main loop never finds the processor asleep, whatever PMR holds: the test
    combines the flag with the bits DME and SME bit by bit. *)
Theorem never_asleep (s : Sim) :
  s State.Pm_enabled = 0 \/ s State.Pm_enabled = 1 -> asleep s = Ok false s.
Proof.
  intros Hpm. unfold asleep, bind, rd, ret. f_equal. destruct Hpm as [-> | ->]; [done|].
  cbn [nz negb Z.eqb andb]. change (u32 1) with (2 ^ 0).
  change (Z.lor SPR_PMR_DME SPR_PMR_SME) with (Z.lor (2 ^ 4) (2 ^ 5)).
  rewrite Z.land_comm, nz_land_bit, Z.land_spec by lia. by rewrite andb_false_r.
Qed.
Lemma never_asleep_witness :
  asleep (upd State.Pm_enabled 1 (upd (SPR SPR_PMR) 0x30 zero_state)) =
  Ok false (upd State.Pm_enabled 1 (upd (SPR SPR_PMR) 0x30 zero_state)).
Proof. apply never_asleep. right. reflexivity. Defined.
End Reset.
