(* ===== verification/Toplevel.v ===== *)
(** * Resetting the simulator, and the scan chains (toplevel-support.c, debug/debug-unit.c)

    [sim_reset] runs the reset functions of every part.  The second half of
    debug-unit.c serves a debugger that works with scan chains: the registers of
    the processor, memory, and the development interface, through which it
    stalls and resets the processor. *)

From S2P Require Export Reset Direct.

Module Toplevel.
Import Sched Debug Except Pic Tick Mem Ram Abstract Direct Sprs Insnset Execute Cpu.

(** ** The error codes of debug/gdb.h and the chains of debug/debug-unit.h *)

Definition ERR_NONE := 0.
Definition JTAG_PROXY_INVALID_CHAIN := -8.
Definition JTAG_PROXY_INVALID_ADDRESS := -9.
Definition JTAG_PROXY_ACCESS_EXCEPTION := -10.

Definition JTAG_CHAIN_GLOBAL := 0.
Definition JTAG_CHAIN_DEBUG_UNIT := 1.
Definition JTAG_CHAIN_TRACE := 3.
Definition JTAG_CHAIN_DEVELOPMENT := 4.
Definition JTAG_CHAIN_WISHBONE := 5.

Section Toplevel.
(** [rnd mem i]: the [i]-th value of [random ()] after seeding for the block. *)
Context `{Devices} (rnd : mem_config -> Z -> Z).

(** ** Reset *)

Definition reg_sim_reset (hook : reset_fn) : M unit :=
  h ← gets reset_hooks; modify (set_hooks (hook :: h)).

Definition run_hook (hook : reset_fn) : M unit :=
  match hook with
  | R_mem_reset mem => mem_reset (rnd mem) mem
  | R_device d => dev_reset d
  end.
Fixpoint run_hooks (l : list reset_fn) : M unit :=
  match l with [] => ret tt | hook :: l => run_hook hook;; run_hooks l end.

Definition sim_reset : M unit :=
  cur_reset ← gets reset_hooks;
  sched_reset;;
  run_hooks cur_reset;;
  tick_reset;;
  pm_reset;;
  pic_reset;;
  du_reset;;
  sched_add J_check_int 0 1;;
  wr Mem_cycles 0;;
  cpu_reset.

(** ** The development interface *)

(** The registers return their error code, and what they store through the
    pointer [data]; [get_devint_reg] stores an [unsigned long] in what the
    callers declared as an [uorreg_t], half as wide: undefined. *)
Definition get_devint_reg (address : Z) : M (Z * option Z) :=
  if address <=? DEVELOPINT_MAX then stop_with Undefined
  else ret (JTAG_PROXY_INVALID_ADDRESS, None).

Definition set_devint_reg (address data : Z) : M Z :=
  if DEVELOPINT_RISCOP =? address then
    old_value ← flag (Development DEVELOPINT_RISCOP) RISCOP_RESET;
    wr (Development DEVELOPINT_RISCOP) data;;
    wr In_reset (b2z (nz (Z.land data RISCOP_RESET)));;
    in_reset ← isset In_reset;
    when (old_value && negb in_reset) sim_reset;;
    stall ← flag (Development DEVELOPINT_RISCOP) RISCOP_STALL;
    set_stall_state (b2z stall);;
    ret ERR_NONE
  else if address <=? DEVELOPINT_MAX then wr (Development address) data;; ret ERR_NONE
  else ret JTAG_PROXY_INVALID_ADDRESS.

(** ** Memory *)

Definition debug_get_mem (address : Z) : M (Z * option Z) :=
  mem ← verify_memoryarea address;
  match mem with
  | None => ret (JTAG_PROXY_INVALID_ADDRESS, None)
  | Some _ => data ← eval_direct32 address false false; ret (ERR_NONE, Some data)
  end.
Definition debug_set_mem (address data : Z) : M Z :=
  mem ← verify_memoryarea address;
  match mem with
  | None => ret JTAG_PROXY_INVALID_ADDRESS
  | Some _ => set_program32 address data;; ret ERR_NONE
  end.

(** ** The chains *)

Definition debug_get_register (address : Z) : M (Z * option Z) :=
  chain ← rd Current_scan_chain;
  switch chain
    [ ([JTAG_CHAIN_DEBUG_UNIT], v ← mfspr (u16 address); ret (ERR_NONE, Some v));
      ([JTAG_CHAIN_TRACE], ret (JTAG_PROXY_INVALID_CHAIN, None));
      ([JTAG_CHAIN_DEVELOPMENT], get_devint_reg address);
      ([JTAG_CHAIN_WISHBONE], debug_get_mem address) ]
    (ret (JTAG_PROXY_INVALID_CHAIN, None)).
Definition debug_set_register (address data : Z) : M Z :=
  chain ← rd Current_scan_chain;
  switch chain
    [ ([JTAG_CHAIN_DEBUG_UNIT], mtspr (u16 address) data;; ret ERR_NONE);
      ([JTAG_CHAIN_TRACE], ret JTAG_PROXY_ACCESS_EXCEPTION);
      ([JTAG_CHAIN_DEVELOPMENT], set_devint_reg address data);
      ([JTAG_CHAIN_WISHBONE], debug_set_mem address data) ]
    (ret JTAG_PROXY_INVALID_CHAIN).
Definition debug_set_chain (chain : Z) : M Z :=
  switch chain
    [ ([JTAG_CHAIN_DEBUG_UNIT; JTAG_CHAIN_DEVELOPMENT; JTAG_CHAIN_WISHBONE],
        wr Current_scan_chain chain;; ret ERR_NONE);
      ([JTAG_CHAIN_TRACE], ret JTAG_PROXY_INVALID_CHAIN) ]
    (ret JTAG_PROXY_INVALID_CHAIN).
End Toplevel.

#[export] Hint Opaque run_hook run_hooks sim_reset get_devint_reg set_devint_reg debug_get_mem debug_set_mem
  debug_get_register debug_set_register debug_set_chain : typeclass_instances.
Section Typing.
Context `{Devices} (rnd : mem_config -> Z -> Z).

#[export] Instance run_hooks_typed l : Respects keeps_typed (run_hooks rnd l).
Proof. induction l as [|[] l IH]; cbn [run_hooks run_hook]; respects. Qed.
#[export] Instance sim_reset_typed : Respects keeps_typed (sim_reset rnd).
Proof. unfold sim_reset, tick_reset, pm_reset, pic_reset, du_reset, sched_reset, sched_guard. respects. Qed.
#[export] Instance debug_set_register_typed a d : Respects keeps_typed (debug_set_register rnd a d).
Proof. unfold debug_set_register, set_devint_reg, debug_set_mem. respects. Qed.
#[export] Instance debug_get_register_typed a : Respects keeps_typed (debug_get_register a).
Proof. unfold debug_get_register, get_devint_reg, debug_get_mem. respects. Qed.

Lemma stored_word (s s' : Sim) a v : stored_at s a 4 v s' -> (forall k, 0 <= k < 4 -> is_ram s (a + k)) -> 0 <= v < 2 ^ 32 ->
  ram_val s' a 4 = v.
Proof.
  intros (Hst & _) Hr Hv. assert (Hb : forall k, 0 <= k < 4 -> ram_byte s' (a + k) = v / 2 ^ (8 * (3 - k)) mod 256).
  { intros k Hk. rewrite Hst, (proj2 (Z.leb_le _ _)), (proj2 (Z.ltb_lt _ _)) by first [lia | by apply Hr]. cbn [andb].
    rewrite Z.shiftr_div_pow2 by lia. replace (4 - 1 - (a + k - a)) with (3 - k) by lia. reflexivity. }
  cbn [ram_val]. rewrite <- !Z.add_assoc. rewrite <- (Z.add_0_r a) at 1. change (1 + (1 + 1)) with 3. change (1 + 1) with 2.
  rewrite !Hb by lia. change (2 ^ (8 * Z.of_nat 0)) with 1; change (2 ^ (8 * Z.of_nat 1)) with 256;
    change (2 ^ (8 * Z.of_nat 2)) with 65536; change (2 ^ (8 * Z.of_nat 3)) with 16777216.
  change (2 ^ (8 * (3 - 0))) with 16777216; change (2 ^ (8 * (3 - 1))) with 65536; change (2 ^ (8 * (3 - 2))) with 256; change (2 ^ (8 * (3 - 3))) with 1.
  change (2 ^ 32) with 4294967296 in Hv. clear - Hv.
  pose proof (Z.rem_mul_r v 16777216 256) as H3; pose proof (Z.rem_mul_r v 65536 256) as H2; pose proof (Z.rem_mul_r v 256 256) as H1.
  change (16777216 * 256) with 4294967296 in H3; change (65536 * 256) with 16777216 in H2; change (256 * 256) with 65536 in H1.
  rewrite (Z.mod_small v 4294967296) in H3 by lia. rewrite Z.div_1_r. lia.
Qed.

(** A word that is written on the memory chain is read back there. *)
Theorem chain_roundtrip a v (s : Sim) : ram_ok s -> debug_ram s a -> a mod 4 = 0 -> 0 <= v < 2 ^ 32 ->
  exists s', (_ ← debug_set_chain JTAG_CHAIN_WISHBONE; _ ← debug_set_register rnd a v; debug_get_register a) s = Ok (ERR_NONE, Some v) s' /\
    forall x, is_ram s x -> x < a \/ a + 4 <= x -> ram_byte s' x = ram_byte s x.
Proof.
  intros Hok Hd Hm Hv. set (s1 := upd Current_scan_chain JTAG_CHAIN_WISHBONE s).
  assert (Hr1 : mem_rest s s1) by (apply mem_rest_upd; [done | by apply mem_rest_refl]).
  pose proof (mem_rest_ok s s1 Hok Hr1) as Hok1. assert (Hd1 : debug_ram s1 a) by by apply (debug_ram_lists s).
  destruct (eval_direct8_ram s1 a Hok1 Hd1) as (i & Ev & _ & Hi). set (s2 := set_cur_area (Some i) s1).
  assert (Hok2 : ram_ok s2) by (apply (lists_ram_ok s1); try done; by intros j [= <-]).
  assert (Hd2 : debug_ram s2 a) by by apply (debug_ram_lists s1).
  destruct (set_program32_ram s2 a v Hok2 Hd2 Hm) as (s3 & j & Ew & Hst & Hc & Hj). pose proof Hst as (Hby & Hcell & Hl & _ & Hbl & _).
  assert (Hok3 : ram_ok s3) by (by eapply stored_ok). assert (Hd3 : debug_ram s3 a) by by apply (debug_ram_lists s2).
  destruct (eval_direct8_ram s3 a Hok3 Hd3) as (i' & Ev' & _ & Hi'). set (s4 := set_cur_area (Some i') s3).
  assert (Hok4 : ram_ok s4) by (apply (lists_ram_ok s3); try done; by intros k [= <-]).
  assert (Hd4 : debug_ram s4 a) by by apply (debug_ram_lists s3).
  destruct (eval_direct32_ram s4 a Hok4 (debug_ram_word _ _ Hd4 Hm)) as (k & Er & _).
  assert (E3 : s3 Current_scan_chain = JTAG_CHAIN_WISHBONE) by by rewrite Hcell.
  exists (set_cur_area (Some k) s4). split.
  - assert (S1 : debug_set_chain JTAG_CHAIN_WISHBONE s = Ok ERR_NONE s1) by done.
    assert (S2 : debug_set_register rnd a v s1 = Ok ERR_NONE s3).
    { unfold debug_set_register, bind at 1, rd at 1. assert (E1 : s1 Current_scan_chain = JTAG_CHAIN_WISHBONE) by (unfold s1; by look).
      rewrite E1. change (switch JTAG_CHAIN_WISHBONE _ _) with (debug_set_mem a v). unfold debug_set_mem, bind. rewrite Ev. fold s2. by rewrite Ew. }
    assert (S3 : debug_get_register a s3 = Ok (ERR_NONE, Some v) (set_cur_area (Some k) s4)).
    { unfold debug_get_register, bind at 1, rd at 1. rewrite E3.
      change (switch JTAG_CHAIN_WISHBONE _ _) with (debug_get_mem a). unfold debug_get_mem, bind. rewrite Ev'. fold s4. rewrite Er.
      unfold ret. do 3 f_equal. change (ram_val s4 a 4) with (ram_val s3 a 4). apply (stored_word s2); [exact Hst | | done].
      intros o Ho. apply (dma_ram_bytes s2); [done | by apply debug_ram_word | done]. }
    unfold bind. by rewrite S1, S2.
  - intros x Hx Ho. change (ram_byte s3 x = ram_byte s x). rewrite Hby by (apply (lists_is_ram s); done).
    destruct (Z.leb_spec a x), (Z.ltb_spec x (a + 4)); try lia; cbn [andb]; exact (mem_rest_byte s s1 x Hr1).
Qed.
End Typing.
End Toplevel.
