(* ===== verification/Jtag.v ===== *)
(** * The JTAG interface of the library (debug/jtag.c)

    A program that uses the simulator as a library shifts registers through the
    debug unit: [jtag_shift_ir] and [jtag_shift_dr].  A register is an array of
    bytes that is parsed and overwritten with the answer; the caller's array is
    the list [jreg], which the functions return as they leave it.  An access
    outside the array is undefined. *)

From S2P Require Export Toplevel.

Module Jtag.
Import Sched Debug Except Mem Abstract Sprs Insnset Execute Toplevel.

(** ** The constants of debug/jtag.h *)

(** [enum jtag_instr] *)
Definition JI_UNDEFINED := -1.
Definition JI_EXTEST := 0x0.
Definition JI_SAMPLE_PRELOAD := 0x1.
Definition JI_IDCODE := 0x2.
Definition JI_DEBUG := 0x8.
Definition JI_MBIST := 0x9.
Definition JI_BYPASS := 0xf.

(** [enum jtag_mod_id]; [runtime.debug.mod_id] is an [unsigned long]. *)
Definition JM_UNDEFINED := u64 (-1).
Definition JM_WISHBONE := 0x0.
Definition JM_CPU0 := 0x1.
Definition JM_CPU1 := 0x2.

(** [enum jtag_cmd] *)
Definition JCMD_GO_COMMAND := 0x0.
Definition JCMD_READ_COMMAND := 0x1.
Definition JCMD_WRITE_COMMAND := 0x2.
Definition JCMD_READ_CONTROL := 0x3.
Definition JCMD_WRITE_CONTROL := 0x4.

(** [enum jtag_acc_type] *)
Definition JAT_WRITE8 := 0.
Definition JAT_WRITE16 := 1.
Definition JAT_WRITE32 := 2.
Definition JAT_READ8 := 4.
Definition JAT_READ16 := 5.
Definition JAT_READ32 := 6.

(** [enum jtag_status] *)
Definition JS_OK := 0x0.
Definition JS_CRC_IN_ERROR := 0x1.
Definition JS_MODULE_MISSING := 0x2.
Definition JS_WISHBONE_ERROR := 0x4.
Definition JS_OVER_UNDERRUN := 0x8.

(** [enum jtag_control_bits] *)
Definition JCB_RESET := 51.
Definition JCB_STALL := 50.

(** ** Bits *)

Definition CRC32_POLY := 0x04c11db7.

Definition crc32_bit (value crc_in i : Z) : Z :=
  let d := if 1 =? Z.land (Z.shiftr value i) 1 then 0xfffffff else 0x0000000 in
  let t := if 1 =? Z.land (Z.shiftr crc_in 31) 1 then 0xfffffff else 0x0000000 in
  Z.lxor (u32 (Z.shiftl crc_in 1)) (Z.land (Z.lxor d t) CRC32_POLY).
(** [for (i = num_bits - 1; i >= 0; i--)] *)
Fixpoint crc32_from (n : nat) (value crc_in : Z) : Z :=
  match n with
  | O => crc_in
  | S i => crc32_from i value (crc32_bit value crc_in (Z.of_nat i))
  end.
Definition crc32 (value num_bits crc_in : Z) : Z := crc32_from (Z.to_nat num_bits) (u64 value) (u32 crc_in).

Definition reverse_bits (val numBits : Z) : Z :=
  let val := Z.lor (Z.shiftr (Z.land val 0xaaaaaaaaaaaaaaaa) 1) (Z.shiftl (Z.land val 0x5555555555555555) 1) in
  let val := Z.lor (Z.shiftr (Z.land val 0xcccccccccccccccc) 2) (Z.shiftl (Z.land val 0x3333333333333333) 2) in
  let val := Z.lor (Z.shiftr (Z.land val 0xf0f0f0f0f0f0f0f0) 4) (Z.shiftl (Z.land val 0x0f0f0f0f0f0f0f0f) 4) in
  let val := Z.lor (Z.shiftr (Z.land val 0xff00ff00ff00ff00) 8) (Z.shiftl (Z.land val 0x00ff00ff00ff00ff) 8) in
  let val := Z.lor (Z.shiftr (Z.land val 0xffff0000ffff0000) 16) (Z.shiftl (Z.land val 0x0000ffff0000ffff) 16) in
  let val := u64 (Z.lor (Z.shiftr val 32) (Z.shiftl val 32)) in
  Z.shiftr val (64 - numBits).

Definition reverse_byte (byte : Z) : Z :=
  let byte := u8 (Z.lor (Z.shiftr (Z.land byte 0xaa) 1) (Z.shiftl (Z.land byte 0x55) 1)) in
  let byte := u8 (Z.lor (Z.shiftr (Z.land byte 0xcc) 2) (Z.shiftl (Z.land byte 0x33) 2)) in
  u8 (Z.lor (Z.shiftr byte 4) (Z.shiftl byte 4)).

(** ** The register: reading, writing and or-ing into one byte, [memset]. *)

Definition in_jreg (jreg : list Z) (i : Z) : bool := (0 <=? i) && (i <? Z.of_nat (length jreg)).
Definition jget (jreg : list Z) (i : Z) : M Z :=
  if in_jreg jreg i then ret (nth (Z.to_nat i) jreg 0) else stop_with Undefined.
Definition jput (jreg : list Z) (i v : Z) : M (list Z) :=
  if in_jreg jreg i then ret (<[Z.to_nat i := u8 v]> jreg) else stop_with Undefined.
Definition jor (jreg : list Z) (i v : Z) : M (list Z) := x ← jget jreg i; jput jreg i (Z.lor x v).
Definition jzero (jreg : list Z) (n : Z) : M (list Z) :=
  if n <=? Z.of_nat (length jreg) then ret (replicate (Z.to_nat n) 0 ++ drop (Z.to_nat n) jreg)
  else stop_with Undefined.

(** The two places where a CRC comes in: five bits into a byte (after the
    command and any data), and one bit into a byte (after the longer headers). *)
Definition crc_in_5 (jreg : list Z) (at_ : Z) : M Z :=
  b0 ← jget jreg (at_ + 0); b1 ← jget jreg (at_ + 1); b2 ← jget jreg (at_ + 2);
  b3 ← jget jreg (at_ + 3); b4 ← jget jreg (at_ + 4);
  ret (u32 (reverse_bits (Z.lor (Z.lor (Z.lor (Z.lor (Z.shiftr (Z.land b0 0xe0) 5) (Z.shiftl b1 3))
    (Z.shiftl b2 11)) (Z.shiftl b3 19)) (Z.shiftl (Z.land b4 0x1f) 27)) 32)).
Definition crc_in_1 (jreg : list Z) : M Z :=
  b7 ← jget jreg 7; b8 ← jget jreg 8; b9 ← jget jreg 9; b10 ← jget jreg 10; b11 ← jget jreg 11;
  ret (u32 (reverse_bits (Z.lor (Z.lor (Z.lor (Z.lor (Z.shiftr (Z.land b7 0xfe) 1) (Z.shiftl b8 7))
    (Z.shiftl b9 15)) (Z.shiftl b10 23)) (Z.shiftl (Z.land b11 0x01) 31)) 32)).

(** ** The answer *)

(** Clears the first bits. *)
Definition clear_zeros (jreg : list Z) (zero_bits : Z) : M (list Z) :=
  let zero_bytes := zero_bits / 8 in
  let zero_off := zero_bits mod 8 in
  jreg ← (if 0 <? zero_bytes then jzero jreg zero_bytes else ret jreg);
  b ← jget jreg zero_bytes;
  jreg ← jput jreg zero_bytes (Z.shiftr b zero_off);
  b ← jget jreg zero_bytes;
  jput jreg zero_bytes (Z.shiftl b zero_off).
(** Puts in the reversed status and CRC. *)
Definition insert_status (jreg : list Z) (status_r crc_out_r skip_bytes bit_off : Z) : M (list Z) :=
  if bit_off <=? 4 then
    jreg ← jor jreg skip_bytes
      (Z.lor (Z.shiftl (Z.land status_r 0xf) bit_off) (Z.land (u32 (Z.shiftl crc_out_r (4 + bit_off))) 0xff));
    jreg ← jput jreg (u32 (skip_bytes + 1)) (Z.land (Z.shiftr crc_out_r (4 - bit_off)) 0xff);
    jreg ← jput jreg (u32 (skip_bytes + 2)) (Z.land (Z.shiftr crc_out_r (12 - bit_off)) 0xff);
    jreg ← jput jreg (u32 (skip_bytes + 3)) (Z.land (Z.shiftr crc_out_r (20 - bit_off)) 0xff);
    jput jreg (u32 (skip_bytes + 4)) (Z.land (Z.shiftr crc_out_r (28 - bit_off)) 0xff)
  else if bit_off <? 8 then
    jreg ← jor jreg skip_bytes (Z.shiftl status_r bit_off);
    jreg ← jput jreg (u32 (skip_bytes + 1))
      (Z.lor (Z.shiftr status_r (8 - bit_off)) (Z.land (u32 (Z.shiftl crc_out_r (bit_off - 4))) 0xff));
    jreg ← jput jreg (u32 (skip_bytes + 2)) (Z.land (Z.shiftr crc_out_r (12 - bit_off)) 0xff);
    jreg ← jput jreg (u32 (skip_bytes + 3)) (Z.land (Z.shiftr crc_out_r (20 - bit_off)) 0xff);
    jreg ← jput jreg (u32 (skip_bytes + 4)) (Z.land (Z.shiftr crc_out_r (28 - bit_off)) 0xff);
    jput jreg (u32 (skip_bytes + 5)) (Z.land (Z.shiftr crc_out_r (36 - bit_off)) 0xff)
  else emit Ev_warning;; stop_with Exited.
Definition construct_response (jreg : list Z) (status crc_in ign_bits zero_bits : Z) : M (list Z) :=
  let status := u8 status in
  let crc_out := crc32 status 4 crc_in in
  let status_r := u8 (reverse_bits status 4) in
  let crc_out_r := u32 (reverse_bits crc_out 32) in
  let ign_bits := u32 ign_bits in
  let zero_bits := u32 zero_bits in
  jreg ← clear_zeros jreg zero_bits;
  insert_status jreg status_r crc_out_r (u32 (ign_bits + zero_bits) / 8) (u32 (ign_bits + zero_bits) mod 8).

(** ** Selecting a module *)

Definition select_module (jreg : list Z) (num_bits : Z) : M (list Z) :=
  if negb (36 + 32 + 4 + 1 =? num_bits) then emit Ev_warning;; ret jreg
  else
    b0 ← jget jreg 0;
    let mod_id := u8 (reverse_bits (Z.land (Z.shiftr b0 1) 0xf) 4) in
    crc_in ← crc_in_5 jreg 0;
    let crc_computed := crc32 1 1 0xffffffff in
    let crc_computed := crc32 mod_id 4 crc_computed in
    status ←
      (if crc_computed =? crc_in then
         switch mod_id
           [ ([JM_WISHBONE; JM_CPU0; JM_CPU1], wr Jtag_mod_id mod_id;; ret JS_OK) ]
           (wr Jtag_mod_id JM_UNDEFINED;; ret (Z.lor JS_OK JS_MODULE_MISSING))
       else ret (Z.lor JS_OK JS_CRC_IN_ERROR));
    construct_response jreg status 0xffffffff 0 37.

(** ** Reading data

    The loops visit the bytes of the register; they stop at its end, if not
    before, so its length is enough fuel.  [status] is what [*status_ptr] holds;
    the functions return it with the CRC. *)

(** Clears the eight bits from 37 + 8 * i on, and fills them with a byte. *)
Definition clear_data (jreg : list Z) (i : Z) : M (list Z) :=
  x ← jget jreg (4 + i); jreg ← jput jreg (4 + i) (Z.shiftl x 3);
  x ← jget jreg (4 + i); jreg ← jput jreg (4 + i) (Z.shiftr x 3);
  x ← jget jreg (4 + i + 1); jreg ← jput jreg (4 + i + 1) (Z.shiftr x 5);
  x ← jget jreg (4 + i + 1); jput jreg (4 + i + 1) (Z.shiftl x 5).
Definition put_data (jreg : list Z) (i byte : Z) : M (list Z) :=
  jreg ← clear_data jreg i;
  jreg ← jor jreg (4 + i) (Z.land (Z.shiftl byte 5) 0xff);
  jor jreg (4 + i + 1) (Z.land (Z.shiftr byte 3) 0xff).

(** What the three functions do with a byte: its CRC, and its place. *)
Record reading := Reading { r_jreg : list Z; r_status : Z; r_crc : Z }.
Definition read_byte (r : reading) (i byte : Z) : M reading :=
  jreg ← put_data (r_jreg r) i (reverse_byte byte);
  ret (Reading jreg (r_status r) (crc32 byte 8 (r_crc r))).

Section Read.
Context `{Devices}.

(** One round of the loop: the byte, and an error if it cannot be accessed. *)
Definition wishbone_byte (i : Z) (r : reading) : M reading :=
  size ← rd Jtag_size;
  if i <? size then
    addr ← rd Jtag_addr;
    mem ← verify_memoryarea (u32 (addr + i));
    match mem with
    | None => read_byte (Reading (r_jreg r) (Z.lor (r_status r) JS_WISHBONE_ERROR) (r_crc r)) i 0
    | Some _ => byte ← eval_direct8 (u32 (addr + i)) false false; read_byte r i byte
    end
  else read_byte r i 0.
Fixpoint wishbone_read_from (fuel : nat) (jreg_bytes i : Z) (r : reading) : M reading :=
  if negb (i <? jreg_bytes) then ret r
  else
    match fuel with
    | O => stop_with Out_of_fuel
    | S fuel => r ← wishbone_byte i r; wishbone_read_from fuel jreg_bytes (i + 1) r
    end.
Definition wishbone_read (jreg : list Z) (jreg_bytes status : Z) : M reading :=
  r ← wishbone_read_from (length jreg) jreg_bytes 0 (Reading jreg status 0xffffffff);
  when (JS_OK =? r_status r) (size ← rd Jtag_size; adds Jtag_addr size);;
  ret r.

Fixpoint spr_read_from (fuel : nat) (spr jreg_bytes i : Z) (r : reading) : M reading :=
  if negb (i <? jreg_bytes) then ret r
  else
    match fuel with
    | O => stop_with Out_of_fuel
    | S fuel =>
        let byte := if i <? 4 then Z.land (Z.shiftr spr (8 * i)) 0xff else 0 in
        r ← read_byte r i byte;
        spr_read_from fuel spr jreg_bytes (i + 1) r
    end.
Definition spr_read (jreg : list Z) (jreg_bytes status : Z) : M reading :=
  addr ← rd Jtag_addr;
  spr ← mfspr (u16 addr);
  r ← spr_read_from (length jreg) (u32 spr) jreg_bytes 0 (Reading jreg status 0xffffffff);
  when (JS_OK =? r_status r) (adds Jtag_addr 1);;
  ret r.

Fixpoint null_read_from (fuel : nat) (jreg_bytes i : Z) (r : reading) : M reading :=
  if negb (i <? jreg_bytes) then ret r
  else
    match fuel with
    | O => stop_with Out_of_fuel
    | S fuel =>
        jreg ← clear_data (r_jreg r) i;
        null_read_from fuel jreg_bytes (i + 1) (Reading jreg (r_status r) (crc32 0 8 (r_crc r)))
    end.
Definition null_read (jreg : list Z) (jreg_bytes status : Z) : M reading :=
  null_read_from (length jreg) jreg_bytes 0 (Reading jreg status 0xffffffff).

Definition go_command_read (jreg : list Z) (num_bits : Z) : M (list Z) :=
  size ← rd Jtag_size;
  let REG_BITS := s32 (36 + 8 * size + 32 + 4 + 1) in
  let jreg_bytes := if REG_BITS =? num_bits then size else u64 (size * 8 + num_bits - REG_BITS) / 8 in
  let status := if REG_BITS =? num_bits then JS_OK else JS_OVER_UNDERRUN in
  crc_in ← crc_in_5 jreg 0;
  let crc_computed := crc32 0 1 0xffffffff in
  let crc_computed := crc32 JCMD_GO_COMMAND 4 crc_computed in
  r ←
    (if crc_computed =? crc_in then
       mod_id ← rd Jtag_mod_id;
       switch mod_id
         [ ([JM_WISHBONE], wishbone_read jreg jreg_bytes status);
           ([JM_CPU0], spr_read jreg jreg_bytes status) ]
         (null_read jreg jreg_bytes status)
     else ret (Reading jreg (Z.lor status JS_CRC_IN_ERROR) 0));
  construct_response (r_jreg r) (r_status r) (r_crc r) (8 * jreg_bytes) 37.

(** ** Writing data *)

(** [(jreg[i] >> BIT_OFF) | (jreg[i + 1] << (8 - BIT_OFF))], reversed. *)
Definition data_byte (jreg : list Z) (i : Z) : M Z :=
  x ← jget jreg i; y ← jget jreg (i + 1);
  ret (reverse_byte (u8 (Z.lor (Z.shiftr x 5) (Z.shiftl y 3)))).

Definition wishbone_write_byte (jreg : list Z) (i status : Z) : M Z :=
  size ← rd Jtag_size;
  if i <? size then
    addr ← rd Jtag_addr;
    mem ← verify_memoryarea (u32 (addr + i));
    match mem with
    | None => ret (Z.lor status JS_WISHBONE_ERROR)
    | Some _ =>
        byte ← data_byte jreg i;
        set_program8 (u32 (addr + i)) byte;;
        ret status
    end
  else ret status.
Fixpoint wishbone_write_from (fuel : nat) (jreg : list Z) (jreg_bytes i status : Z) : M Z :=
  if negb (i <? jreg_bytes) then ret status
  else
    match fuel with
    | O => stop_with Out_of_fuel
    | S fuel =>
        status ← wishbone_write_byte jreg i status;
        wishbone_write_from fuel jreg jreg_bytes (i + 1) status
    end.
Definition wishbone_write (jreg : list Z) (jreg_bytes status : Z) : M Z :=
  status ← wishbone_write_from (length jreg) jreg jreg_bytes 0 status;
  when (JS_OK =? status) (size ← rd Jtag_size; adds Jtag_addr size);;
  ret status.

Fixpoint spr_write_from (fuel : nat) (jreg : list Z) (jreg_bytes i spr : Z) : M Z :=
  if negb (i <? jreg_bytes) then ret spr
  else
    match fuel with
    | O => stop_with Out_of_fuel
    | S fuel =>
        spr ← (if i <? 4 then byte ← data_byte jreg i; ret (Z.lor spr (u32 (Z.shiftl byte (8 * i))))
               else ret spr);
        spr_write_from fuel jreg jreg_bytes (i + 1) spr
    end.
Definition spr_write (jreg : list Z) (jreg_bytes status : Z) : M Z :=
  spr ← spr_write_from (length jreg) jreg jreg_bytes 0 0;
  addr ← rd Jtag_addr;
  mtspr (u16 addr) spr;;
  when (JS_OK =? status) (adds Jtag_addr 1);;
  ret status.

(** The CRC of the data. *)
Fixpoint crc_data_from (fuel : nat) (jreg : list Z) (real_size i crc : Z) : M Z :=
  if negb (i <? real_size) then ret crc
  else
    match fuel with
    | O => stop_with Out_of_fuel
    | S fuel =>
        x ← jget jreg i; y ← jget jreg (i + 1);
        let byte := u8 (reverse_bits (Z.lor (Z.shiftr (Z.land x 0xe0) 5) (Z.shiftl (Z.land y 0x1f) 3)) 8) in
        crc_data_from fuel jreg real_size (i + 1) (crc32 byte 8 crc)
    end.
Definition go_command_write (jreg : list Z) (num_bits : Z) : M (list Z) :=
  size ← rd Jtag_size;
  let REG_BITS := s32 (36 + 32 + 8 * size + 4 + 1) in
  let real_size := if REG_BITS =? num_bits then size else u64 (size * 8 + num_bits - REG_BITS) / 8 in
  let status := if REG_BITS =? num_bits then JS_OK else JS_OVER_UNDERRUN in
  crc_in ← crc_in_5 jreg real_size;
  let crc_computed := crc32 0 1 0xffffffff in
  let crc_computed := crc32 JCMD_GO_COMMAND 4 crc_computed in
  crc_computed ← crc_data_from (length jreg) jreg real_size 0 crc_computed;
  status ←
    (if crc_computed =? crc_in then
       mod_id ← rd Jtag_mod_id;
       switch mod_id
         [ ([JM_WISHBONE], wishbone_write jreg real_size status);
           ([JM_CPU0], spr_write jreg real_size status) ]
         (ret status)
     else ret (Z.lor status JS_CRC_IN_ERROR));
  construct_response jreg status 0xffffffff 0 (37 + 8 * real_size).

Definition go_command (jreg : list Z) (num_bits : Z) : M (list Z) :=
  write_defined_p ← isset Jtag_write_defined_p;
  if negb write_defined_p then
    jreg ← jzero jreg (u64 (Z.quot (s32 (num_bits + 7)) 8));
    emit Ev_warning;; ret jreg
  else
    acc_type ← rd Jtag_acc_type;
    switch acc_type
      [ ([JAT_WRITE8; JAT_WRITE16; JAT_WRITE32], go_command_write jreg num_bits);
        ([JAT_READ8; JAT_READ16; JAT_READ32], go_command_read jreg num_bits) ]
      (ret jreg).
End Read.

(** ** The command: what a later GO_COMMAND does *)

Definition read_command (jreg : list Z) (num_bits : Z) : M (list Z) :=
  if negb (88 + 32 + 4 + 1 =? num_bits) then emit Ev_warning;; ret jreg
  else
    crc_in ← crc_in_5 jreg 0;
    let crc_computed := crc32 0 1 0xffffffff in
    let crc_computed := crc32 JCMD_READ_COMMAND 4 crc_computed in
    if crc_computed =? crc_in then
      defined ← isset Jtag_write_defined_p;
      when (negb defined) (emit Ev_warning);;
      acc_type ← (if defined : bool then rd Jtag_acc_type else ret 0);
      addr ← (if defined : bool then (addr ← rd Jtag_addr; ret (u32 addr)) else ret 0);
      len ← (if defined : bool then (size ← rd Jtag_size; ret (u16 (size - 1))) else ret 0);
      let crc_out := crc32 acc_type 4 0xffffffff in
      let crc_out := crc32 addr 32 crc_out in
      let crc_out := crc32 len 16 crc_out in
      let acc_type := u8 (reverse_bits acc_type 4) in
      let addr := u32 (reverse_bits addr 32) in
      let len := u16 (reverse_bits len 16) in
      jreg ← jor jreg 4 (Z.land (Z.shiftl acc_type 5) 0xe0);
      jreg ← jor jreg 5 (Z.land (Z.shiftr acc_type 3) 0x01);
      jreg ← jor jreg 5 (Z.land (u32 (Z.shiftl addr 1)) 0xfe);
      jreg ← jor jreg 6 (Z.land (Z.shiftr addr 7) 0xff);
      jreg ← jor jreg 7 (Z.land (Z.shiftr addr 15) 0xff);
      jreg ← jor jreg 8 (Z.land (Z.shiftr addr 23) 0xff);
      jreg ← jor jreg 9 (Z.land (Z.shiftr addr 31) 0x01);
      jreg ← jor jreg 9 (Z.land (Z.shiftl len 1) 0xfe);
      jreg ← jor jreg 10 (Z.land (Z.shiftr len 7) 0xff);
      jreg ← jor jreg 11 (Z.land (Z.shiftr len 15) 0x01);
      construct_response jreg JS_OK crc_out 52 37
    else construct_response jreg (Z.lor JS_OK JS_CRC_IN_ERROR) 0xffffffff 52 37.

(** They only look at the fields; a refusal prints messages. *)
Definition access_bytes (acc_type : Z) : option Z :=
  switch acc_type
    [ ([JAT_WRITE8; JAT_READ8], Some 1);
      ([JAT_WRITE16; JAT_READ16], Some 2);
      ([JAT_WRITE32; JAT_READ32], Some 4) ]
    None.
Definition validate_wb_fields (acc_type addr size : Z) : M bool :=
  let bytes := default 1 (access_bytes acc_type) in
  let known := bool_decide (is_Some (access_bytes acc_type)) in
  let aligned := addr mod bytes =? 0 in
  let whole := size mod bytes =? 0 in
  when (negb known) (emit Ev_warning);;
  when (negb aligned) (emit Ev_warning);;
  when (negb whole) (emit Ev_warning);;
  ret (known && aligned && whole).
Definition validate_spr_fields (acc_type addr size : Z) : M bool :=
  let word := (acc_type =? JAT_WRITE32) || (acc_type =? JAT_READ32) in
  let four := 4 =? size in
  when (negb word) (emit Ev_warning);;
  when (negb four) (emit Ev_warning);;
  when (MAX_SPRS <=? addr) (emit Ev_warning);;
  ret (word && four).

Definition define_write (acc_type addr size : Z) : M unit :=
  wr Jtag_write_defined_p 1;;
  wr Jtag_acc_type acc_type;;
  wr Jtag_addr addr;;
  wr Jtag_size size.
Definition write_command (jreg : list Z) (num_bits : Z) : M (list Z) :=
  if negb (36 + 32 + 16 + 32 + 4 + 4 + 1 =? num_bits) then
    wr Jtag_write_defined_p 0;; emit Ev_warning;; ret jreg
  else
    b0 ← jget jreg 0; b1 ← jget jreg 1; b2 ← jget jreg 2; b3 ← jget jreg 3; b4 ← jget jreg 4;
    b5 ← jget jreg 5; b6 ← jget jreg 6; b7 ← jget jreg 7;
    let acc_type := u8 (reverse_bits (Z.lor (Z.shiftr (Z.land b0 0xe0) 5) (Z.shiftl (Z.land b1 0x01) 3)) 4) in
    let addr := u32 (reverse_bits (Z.lor (Z.lor (Z.lor (Z.lor (Z.shiftr (Z.land b1 0xfe) 1) (Z.shiftl b2 7))
      (Z.shiftl b3 15)) (Z.shiftl b4 23)) (Z.shiftl (Z.land b5 0x01) 31)) 32) in
    let len := u16 (reverse_bits (Z.lor (Z.lor (Z.shiftr (Z.land b5 0xfe) 1) (Z.shiftl b6 7))
      (Z.shiftl (Z.land b7 0x01) 15)) 16) in
    crc_in ← crc_in_1 jreg;
    let crc_computed := crc32 0 1 0xffffffff in
    let crc_computed := crc32 JCMD_WRITE_COMMAND 4 crc_computed in
    let crc_computed := crc32 acc_type 4 crc_computed in
    let crc_computed := crc32 addr 32 crc_computed in
    let crc_computed := crc32 len 16 crc_computed in
    status ←
      (if crc_computed =? crc_in then
         let data_size := len + 1 in
         mod_id ← rd Jtag_mod_id;
         switch mod_id
           [ ([JM_WISHBONE],
               valid ← validate_wb_fields acc_type addr data_size;
               if valid : bool then define_write acc_type addr data_size else wr Jtag_write_defined_p 0);
             ([JM_CPU0],
               valid ← validate_spr_fields acc_type addr data_size;
               if valid : bool then define_write acc_type (addr mod MAX_SPRS) data_size
               else wr Jtag_write_defined_p 0);
             ([JM_CPU1; JM_UNDEFINED], wr Jtag_write_defined_p 0;; emit Ev_warning) ]
           (wr Jtag_write_defined_p 0);;
         ret JS_OK
       else wr Jtag_write_defined_p 0;; ret (Z.lor JS_OK JS_CRC_IN_ERROR));
    construct_response jreg status 0xffffffff 0 89.

(** ** The control bits of the processor *)

Definition read_control (jreg : list Z) (num_bits : Z) : M (list Z) :=
  if negb (88 + 32 + 4 + 1 =? num_bits) then emit Ev_warning;; ret jreg
  else
    crc_in ← crc_in_5 jreg 0;
    let crc_computed := crc32 0 1 0xffffffff in
    let crc_computed := crc32 JCMD_READ_CONTROL 4 crc_computed in
    if crc_computed =? crc_in then
      mod_id ← rd Jtag_mod_id;
      data ←
        switch mod_id
          [ ([JM_CPU0], stalled ← rd Stalled; ret (u64 (Z.shiftl (u64 stalled) JCB_STALL)));
            ([JM_UNDEFINED; JM_WISHBONE; JM_CPU1], emit Ev_warning;; ret 0) ]
          (ret 0);
      let crc_out := crc32 data 52 0xffffffff in
      let data := reverse_bits data 52 in
      jreg ← jor jreg 4 (Z.land (u64 (Z.shiftl data 5)) 0xf8);
      jreg ← jor jreg 5 (Z.land (Z.shiftr data 3) 0x07);
      jreg ← jor jreg 6 (Z.land (Z.shiftr data 11) 0xff);
      jreg ← jor jreg 7 (Z.land (Z.shiftr data 19) 0xff);
      jreg ← jor jreg 8 (Z.land (Z.shiftr data 27) 0xff);
      jreg ← jor jreg 9 (Z.land (Z.shiftr data 35) 0xff);
      jreg ← jor jreg 10 (Z.land (Z.shiftr data 43) 0xff);
      jreg ← jor jreg 11 (Z.land (Z.shiftr data 51) 0x01);
      construct_response jreg JS_OK crc_out 52 37
    else construct_response jreg (Z.lor JS_OK JS_CRC_IN_ERROR) 0xffffffff 52 37.

Section Shift.
Context `{Devices} (rnd : mem_config -> Z -> Z).

Definition write_control (jreg : list Z) (num_bits : Z) : M (list Z) :=
  if negb (36 + 32 + 52 + 4 + 1 =? num_bits) then emit Ev_warning;; ret jreg
  else
    b0 ← jget jreg 0; b1 ← jget jreg 1; b2 ← jget jreg 2; b3 ← jget jreg 3; b4 ← jget jreg 4;
    b5 ← jget jreg 5; b6 ← jget jreg 6; b7 ← jget jreg 7;
    let data := reverse_bits (Z.lor (Z.lor (Z.lor (Z.lor (Z.lor (Z.lor (Z.lor (Z.shiftr (Z.land b0 0xe0) 5)
      (Z.shiftl b1 3)) (Z.shiftl b2 11)) (Z.shiftl b3 19)) (Z.shiftl b4 27)) (Z.shiftl b5 35))
      (Z.shiftl b6 43)) (Z.shiftl (Z.land b7 0x01) 51)) 52 in
    crc_in ← crc_in_1 jreg;
    let crc_computed := crc32 0 1 0xffffffff in
    let crc_computed := crc32 JCMD_WRITE_CONTROL 4 crc_computed in
    let crc_computed := crc32 data 52 crc_computed in
    status ←
      (if crc_computed =? crc_in then
         mod_id ← rd Jtag_mod_id;
         switch mod_id
           [ ([JM_CPU0],
               let reset_bit := 0x1 =? Z.land (Z.shiftr data JCB_RESET) 0x1 in
               let stall_bit := 0x1 =? Z.land (Z.shiftr data JCB_STALL) 0x1 in
               if reset_bit then sim_reset rnd else set_stall_state (b2z stall_bit));
             ([JM_UNDEFINED; JM_WISHBONE; JM_CPU1], emit Ev_warning) ]
           (ret tt);;
         ret JS_OK
       else ret (Z.lor JS_OK JS_CRC_IN_ERROR));
    construct_response jreg status 0xffffffff 0 89.

(** ** The interface *)

Definition jtag_reset : M unit := wr Jtag_instr JI_UNDEFINED.
Definition jtag_init : M unit := jtag_reset.

Definition jtag_shift_ir (jreg : list Z) (num_bits : Z) : M unit :=
  if negb (4 =? num_bits) then emit Ev_warning
  else
    b0 ← jget jreg 0;
    wr Jtag_instr (reverse_bits (Z.land b0 0xf) 4);;
    instr ← rd Jtag_instr;
    switch instr [ ([JI_DEBUG], ret tt) ] (emit Ev_warning).

Definition jtag_shift_dr (jreg : list Z) (num_bits : Z) : M (list Z) :=
  instr ← rd Jtag_instr;
  if negb (JI_DEBUG =? instr) then emit Ev_warning;; ret jreg
  else
    b0 ← jget jreg 0;
    let select_module_p := 1 =? Z.land b0 0x1 in
    if select_module_p then select_module jreg num_bits
    else
      switch (reverse_bits (Z.land (Z.shiftr b0 1) 0xf) 4)
        [ ([JCMD_GO_COMMAND], go_command jreg num_bits);
          ([JCMD_READ_COMMAND], read_command jreg num_bits);
          ([JCMD_WRITE_COMMAND], write_command jreg num_bits);
          ([JCMD_READ_CONTROL], read_control jreg num_bits);
          ([JCMD_WRITE_CONTROL], write_control jreg num_bits) ]
        (emit Ev_warning;; ret jreg).
End Shift.

(** ** Types *)

#[export] Hint Opaque jget jput jor jzero crc_in_5 crc_in_1 construct_response select_module clear_data put_data read_byte
  wishbone_byte wishbone_read_from wishbone_read spr_read_from spr_read null_read_from null_read go_command_read data_byte
  wishbone_write_byte wishbone_write_from wishbone_write spr_write_from spr_write crc_data_from go_command_write go_command
  read_command validate_wb_fields validate_spr_fields define_write write_command read_control write_control
  jtag_shift_ir jtag_shift_dr : typeclass_instances.
Section Typing.
#[export] Instance jget_typed jreg i : Respects keeps_typed (jget jreg i).
Proof. unfold jget. respects. Qed.
#[export] Instance jput_typed jreg i v : Respects keeps_typed (jput jreg i v).
Proof. unfold jput. respects. Qed.
#[export] Instance jor_typed jreg i v : Respects keeps_typed (jor jreg i v).
Proof. unfold jor. respects. Qed.
#[export] Instance jzero_typed jreg n : Respects keeps_typed (jzero jreg n).
Proof. unfold jzero. respects. Qed.
#[export] Instance crc_in_5_typed jreg i : Respects keeps_typed (crc_in_5 jreg i).
Proof. unfold crc_in_5. respects. Qed.
#[export] Instance crc_in_1_typed jreg : Respects keeps_typed (crc_in_1 jreg).
Proof. unfold crc_in_1. respects. Qed.
#[export] Instance construct_response_typed jreg st c i z : Respects keeps_typed (construct_response jreg st c i z).
Proof. unfold construct_response, clear_zeros, insert_status. respects. Qed.
#[export] Instance select_module_typed jreg n : Respects keeps_typed (select_module jreg n).
Proof. unfold select_module. respects. Qed.
#[export] Instance clear_data_typed jreg i : Respects keeps_typed (clear_data jreg i).
Proof. unfold clear_data. respects. Qed.
#[export] Instance read_byte_typed r i b : Respects keeps_typed (read_byte r i b).
Proof. unfold read_byte, put_data. respects. Qed.
#[export] Instance data_byte_typed jreg i : Respects keeps_typed (data_byte jreg i).
Proof. unfold data_byte. respects. Qed.
#[export] Instance crc_data_typed f jreg n i c : Respects keeps_typed (crc_data_from f jreg n i c).
Proof. revert i c. induction f; intros i c; cbn [crc_data_from]; respects. Qed.
#[export] Instance null_read_typed jreg n st : Respects keeps_typed (null_read jreg n st).
Proof.
  unfold null_read. generalize 0, (Reading jreg st 0xffffffff). induction (length jreg); intros i r; cbn [null_read_from]; respects.
Qed.
#[export] Instance read_command_typed jreg n : Respects keeps_typed (read_command jreg n).
Proof. unfold read_command. respects. Qed.
#[export] Instance write_command_typed jreg n : Respects keeps_typed (write_command jreg n).
Proof. unfold write_command, validate_wb_fields, validate_spr_fields, define_write. respects. Qed.
#[export] Instance read_control_typed jreg n : Respects keeps_typed (read_control jreg n).
Proof. unfold read_control. respects. Qed.

Context `{Devices} (rnd : mem_config -> Z -> Z).
#[export] Instance wishbone_read_typed jreg n st : Respects keeps_typed (wishbone_read jreg n st).
Proof.
  unfold wishbone_read. apply respects_bind; [preorder | | respects].
  generalize 0, (Reading jreg st 0xffffffff). induction (length jreg); intros i r; cbn [wishbone_read_from]; unfold wishbone_byte; respects.
Qed.
#[export] Instance spr_read_typed jreg n st : Respects keeps_typed (spr_read jreg n st).
Proof.
  unfold spr_read. respects.
  generalize 0, (Reading jreg st 0xffffffff), (u32 a0). induction (length jreg); intros i r spr; cbn [spr_read_from]; respects.
Qed.
#[export] Instance wishbone_write_typed jreg n st : Respects keeps_typed (wishbone_write jreg n st).
Proof.
  unfold wishbone_write. apply respects_bind; [preorder | | respects].
  generalize 0. revert st. induction (length jreg); intros st i; cbn [wishbone_write_from]; unfold wishbone_write_byte; respects.
Qed.
#[export] Instance spr_write_typed jreg n st : Respects keeps_typed (spr_write jreg n st).
Proof.
  unfold spr_write. apply respects_bind; [preorder | | respects].
  generalize 0 at 1. generalize 0. induction (length jreg); intros i spr; cbn [spr_write_from]; respects.
Qed.
#[export] Instance go_command_typed jreg n : Respects keeps_typed (go_command jreg n).
Proof. unfold go_command, go_command_read, go_command_write. respects. Qed.
#[export] Instance write_control_typed jreg n : Respects keeps_typed (write_control rnd jreg n).
Proof. unfold write_control. respects. Qed.
#[export] Instance jtag_shift_ir_typed jreg n : Respects keeps_typed (jtag_shift_ir jreg n).
Proof. unfold jtag_shift_ir. respects. Qed.
#[export] Instance jtag_shift_dr_typed jreg n : Respects keeps_typed (jtag_shift_dr rnd jreg n).
Proof. unfold jtag_shift_dr. respects. Qed.
End Typing.
End Jtag.
