(* ===== verification/JtagBits.v ===== *)
(** * The registers of the JTAG interface as sequences of bits

    Reversing bits, the CRC, the fields of a register ([slice], most significant
    bit first) and the layout of the answer. *)

From S2P Require Export Jtag.

Module JtagBits.
Import Jtag.

(** ** Reversing *)

Lemma forallb_seqZ f lo n k : forallb f (seqZ lo n) = true -> lo <= k < lo + n -> f k = true.
Proof. rewrite forallb_forall. intros Hf Hk. apply Hf, list_elem_of_In, elem_of_seqZ. lia. Qed.

(** One step exchanges groups of [s] bits: the masks select, of the bits moved
    down and up, the one from place [k xor s]. *)
Definition swap_masks (hi lo s : Z) : bool :=
  forallb (fun k => if Z.testbit hi (k + s) then (Z.lxor k s =? k + s) && negb (Z.testbit lo (k - s))
                    else (Z.lxor k s =? k - s) && Z.testbit lo (k - s)) (seqZ 0 64).
Lemma swap_bit hi lo s v k : swap_masks hi lo s = true -> 0 <= s < 64 -> 0 <= k < 64 ->
  Z.testbit (Z.lor (Z.shiftr (Z.land v hi) s) (Z.shiftl (Z.land v lo) s)) k = Z.testbit v (Z.lxor k s) /\
  0 <= Z.lxor k s < 64.
Proof.
  intros Hm Hs Hk. split; [|by apply (lxor_range 6)].
  pose proof (forallb_seqZ _ _ _ k Hm ltac:(lia)) as Hb. cbv beta in Hb.
  rewrite Z.lor_spec, Z.shiftr_spec, Z.shiftl_spec, !Z.land_spec by lia.
  destruct (Z.testbit hi (k + s)); apply andb_true_iff in Hb as [->%Z.eqb_eq H2].
  - apply negb_true_iff in H2. by rewrite H2, andb_false_r, andb_true_r, orb_false_r.
  - by rewrite H2, andb_false_r, andb_true_r.
Qed.

Lemma reverse_bits_spec v n i : 0 <= n <= 64 -> 0 <= i ->
  Z.testbit (reverse_bits v n) i = Z.testbit v (n - 1 - i).
Proof.
  intros Hn Hi. unfold reverse_bits. rewrite Z.shiftr_spec, testbit_u64 by lia.
  destruct (Z.ltb_spec (i + (64 - n)) 64); cycle 1.
  { rewrite andb_false_r. symmetry. apply Z.testbit_neg_r. lia. }
  rewrite andb_true_r. set (k := i + (64 - n)) in *. replace (n - 1 - i) with (63 - k) by lia.
  assert (Hk : 0 <= k < 64) by lia. clearbody k. clear i Hi n Hn.
  set (v5 := Z.lor _ (Z.shiftl (Z.land _ 0x0000ffff0000ffff) 16)).
  assert (H5 : forall j, 0 <= j < 64 -> Z.testbit v5 j = Z.testbit v (Z.lxor j 31)).
  { intros j Hj. unfold v5. repeat (edestruct swap_bit as [-> ?]; [reflexivity | lia | done |]).
    by rewrite !Z.lxor_assoc. }
  rewrite Z.lor_spec, Z.shiftr_spec, Z.shiftl_spec by lia.
  assert (E : Z.lxor k 31 = if k <? 32 then 31 - k else 95 - k).
  { apply Z.eqb_eq. by apply (forallb_seqZ (fun k => Z.lxor k 31 =? if k <? 32 then 31 - k else 95 - k) 0 64). }
  destruct (Z.ltb_spec k 32).
  - rewrite (Z.testbit_neg_r v5 (k - 32)), orb_false_r, H5 by lia. f_equal.
    pose proof (forallb_seqZ (fun k => Z.lxor (k + 32) 31 =? 63 - k) 0 32 k eq_refl ltac:(lia)) as E'. by apply Z.eqb_eq in E'.
  - replace (Z.testbit v5 (k + 32)) with false; cycle 1.
    { symmetry. unfold v5. rewrite Z.lor_spec, Z.shiftr_spec, Z.shiftl_spec, !Z.land_spec by lia.
      rewrite (testbit_above 64 0xffff0000ffff0000), (testbit_above 48 0x0000ffff0000ffff) by (lia || done).
      by rewrite !andb_false_r. }
    cbn. rewrite H5 by lia. f_equal.
    pose proof (forallb_seqZ (fun k => Z.lxor (k - 32) 31 =? 63 - k) 32 32 k eq_refl ltac:(lia)) as E'. by apply Z.eqb_eq in E'.
Qed.
Lemma reverse_bits_range v n : 0 <= n <= 64 -> 0 <= reverse_bits v n < 2 ^ n.
Proof.
  intros Hn. apply range_of_bits; [lia | |].
  - unfold reverse_bits. apply Z.shiftr_nonneg. match goal with |- 0 <= u64 ?z => by destruct (proj1 (inty_U64 _) (wrap_inty U64 z)) end.
  - intros i Hi. rewrite reverse_bits_spec by lia. apply Z.testbit_neg_r. lia.
Qed.

Lemma reverse_byte_bits b : octet b -> reverse_byte b = reverse_bits b 8.
Proof.
  intros Hb. apply Z.eqb_eq. refine (forallb_seqZ (fun b => reverse_byte b =? reverse_bits b 8) 0 256 b _ Hb).
  vm_compute. reflexivity.
Qed.
Lemma reverse_byte_spec b i : octet b -> 0 <= i -> Z.testbit (reverse_byte b) i = Z.testbit b (7 - i).
Proof. intros Hb Hi. unfold octet in Hb. rewrite reverse_byte_bits, reverse_bits_spec by (unfold octet; lia). f_equal; lia. Qed.

(** ** The CRC

    A step shifts in one bit; the bits of a number come most significant first. *)

Definition crc_step (c : Z) (b : bool) : Z :=
  Z.lxor (u32 (Z.shiftl c 1)) (if xorb b (Z.testbit c 31) then CRC32_POLY else 0).
Definition crc_bits (l : list bool) (c : Z) : Z := fold_left crc_step l c.
Definition msb_bits (v n : Z) : list bool := map (fun j => Z.testbit v (n - 1 - j)) (seqZ 0 n).

Lemma crc_bits_app l l' c : crc_bits (l ++ l') c = crc_bits l' (crc_bits l c).
Proof. apply fold_left_app. Qed.
Lemma crc_step_range c b : 0 <= crc_step c b < 2 ^ 32.
Proof. apply lxor_range; [lia | apply u32_range | destruct (xorb _ _); unfold CRC32_POLY; lia]. Qed.
Lemma crc_bits_range l c : 0 <= c < 2 ^ 32 -> 0 <= crc_bits l c < 2 ^ 32.
Proof. revert c. induction l as [|b l IH]; intros c Hc; [done|]. apply IH, crc_step_range. Qed.

Lemma bit_test v i : 0 <= i -> (1 =? Z.land (Z.shiftr v i) 1) = Z.testbit v i.
Proof.
  intros Hi. change 1 with (2 ^ 0) at 2. rewrite land_pow2, Z.shiftr_spec, Z.add_0_l by lia. by destruct (Z.testbit v i).
Qed.
Lemma crc32_bit_step v c i : 0 <= i -> crc32_bit v c i = crc_step c (Z.testbit v i).
Proof.
  intros Hi. unfold crc32_bit, crc_step. rewrite !bit_test by lia. f_equal. by destruct (Z.testbit v i), (Z.testbit c 31).
Qed.
Lemma msb_bits_S v n : msb_bits v (Z.of_nat (S n)) = Z.testbit v (Z.of_nat n) :: msb_bits v (Z.of_nat n).
Proof.
  unfold msb_bits. rewrite seqZ_cons by lia. cbn [map]. f_equal; [f_equal; lia|].
  replace (Z.pred (Z.of_nat (S n))) with (Z.of_nat n) by lia. rewrite <- (fmap_add_seqZ 1 0), map_map.
  apply map_ext. intros j. f_equal. lia.
Qed.
Lemma crc32_spec v n c : 0 <= n -> 0 <= v < 2 ^ 64 -> 0 <= c < 2 ^ 32 -> crc32 v n c = crc_bits (msb_bits v n) c.
Proof.
  intros Hn Hv Hc. unfold crc32. rewrite u32_small by done.
  replace (u64 v) with v by (symmetry; apply wrap_small, inty_U64; lia). rewrite <- (Z2Nat.id n) at 2 by lia.
  clear Hc. revert c. induction (Z.to_nat n) as [|m IH]; intros c; [done|].
  rewrite msb_bits_S. cbn [crc32_from]. rewrite IH, crc32_bit_step by lia. done.
Qed.
Lemma crc32_range v n c : 0 <= c < 2 ^ 32 -> 0 <= n -> 0 <= v < 2 ^ 64 -> 0 <= crc32 v n c < 2 ^ 32.
Proof. intros. rewrite crc32_spec by done. by apply crc_bits_range. Qed.

(** A burst of errors: the CRC separates any two messages that differ within 32
    consecutive bits.  A step without an input bit is linear and injective, and
    the bits of up to 32 steps could have been added to the top of the CRC
    before the first. *)
Definition crc_step0 (c : Z) : Z := crc_step c false.
Fixpoint top_bits (l : list bool) : Z :=
  match l with [] => 0 | b :: l => Z.lxor (if b then 2 ^ 31 else 0) (Z.shiftr (top_bits l) 1) end.

Lemma top_bits_spec l i : 0 <= i < 32 -> Z.testbit (top_bits l) i = nth (Z.to_nat (31 - i)) l false.
Proof.
  revert i. induction l as [|b l IH]; intros i Hi; cbn [top_bits].
  { rewrite Z.bits_0. by destruct (Z.to_nat _). }
  rewrite Z.lxor_spec, Z.shiftr_spec by lia. destruct (Z.eq_dec i 31) as [->|].
  - assert (E : Z.testbit (top_bits l) (31 + 1) = false); [|rewrite E; by destruct b].
    clear. assert (Hr : 0 <= top_bits l < 2 ^ 32); [|by apply (testbit_above 32)].
    induction l as [|b l IH]; cbn [top_bits]; [lia|].
    apply lxor_range; [lia | destruct b; lia | by apply shiftr_range].
  - rewrite IH by lia. replace (Z.to_nat (31 - i)) with (S (Z.to_nat (31 - (i + 1)))) by lia. cbn [nth].
    replace (Z.testbit (if b then 2 ^ 31 else 0) i) with false; [by destruct (nth _ _ _)|].
    destruct b; [by rewrite testbit_pow2, (proj2 (Z.eqb_neq 31 i)) by lia | by rewrite Z.bits_0].
Qed.
Lemma top_bits_range l : 0 <= top_bits l < 2 ^ 32.
Proof.
  induction l as [|b l IH]; cbn [top_bits]; [lia|]. apply lxor_range; [lia | destruct b; lia | by apply shiftr_range].
Qed.

Lemma crc_step0_lxor a b : crc_step0 (Z.lxor a b) = Z.lxor (crc_step0 a) (crc_step0 b).
Proof.
  unfold crc_step0, crc_step. cbn [xorb]. apply Z.bits_inj'. intros i Hi. rewrite !Z.lxor_spec, !testbit_u32, !Z.shiftl_spec, !Z.lxor_spec by lia.
  destruct (Z.testbit a 31), (Z.testbit b 31); cbn [xorb]; rewrite ?Z.bits_0;
    destruct (Z.testbit a (i - 1)), (Z.testbit b (i - 1)), (i <? 32), (Z.testbit CRC32_POLY i); done.
Qed.
(** A bit that comes in is a bit on top of the CRC. *)
Lemma crc_step_top c b : crc_step c b = crc_step0 (Z.lxor c (if b then 2 ^ 31 else 0)).
Proof.
  unfold crc_step0, crc_step. rewrite Z.lxor_spec. f_equal.
  - apply Z.bits_inj'. intros i Hi. rewrite !testbit_u32, !Z.shiftl_spec, Z.lxor_spec by lia.
    destruct (Z.ltb_spec i 32); [|by rewrite !andb_false_r]. rewrite !andb_true_r.
    destruct b; [|by rewrite Z.bits_0, xorb_false_r]. rewrite testbit_pow2, (proj2 (Z.eqb_neq 31 (i - 1))) by lia. by rewrite xorb_false_r.
  - destruct b; cbn [xorb]; [|by rewrite Z.bits_0, xorb_false_r]. rewrite testbit_pow2 by lia. by destruct (Z.testbit c 31).
Qed.
(** The polynomial has its last bit: nothing is lost. *)
Lemma crc_step0_inj a b : 0 <= a < 2 ^ 32 -> 0 <= b < 2 ^ 32 -> crc_step0 a = crc_step0 b -> a = b.
Proof.
  intros Ha Hb E. assert (H0 : forall c i, 0 <= i < 32 -> Z.testbit (crc_step0 c) i =
    xorb (Z.testbit c (i - 1)) (Z.testbit c 31 && Z.testbit CRC32_POLY i)).
  { intros c i Hi. unfold crc_step0, crc_step. rewrite Z.lxor_spec, testbit_u32, Z.shiftl_spec by lia.
    rewrite (proj2 (Z.ltb_lt i 32)), andb_true_r by lia. cbn [xorb]. destruct (Z.testbit c 31); [done|]. by rewrite Z.bits_0. }
  assert (E31 : Z.testbit a 31 = Z.testbit b 31).
  { pose proof (f_equal (fun z => Z.testbit z 0) E) as E'. cbv beta in E'. rewrite !H0 in E' by lia.
    rewrite !(Z.testbit_neg_r _ (0 - 1)) in E' by lia. change (Z.testbit CRC32_POLY 0) with true in E'.
    by rewrite !andb_true_r, !xorb_false_l in E'. }
  apply Z.bits_inj'. intros i Hi. destruct (Z.lt_ge_cases i 31) as [Hlt|Hge].
  - pose proof (f_equal (fun z => Z.testbit z (i + 1)) E) as E'. cbv beta in E'. rewrite !H0, E31 in E' by lia.
    replace (i + 1 - 1) with i in E' by lia.
    by destruct (Z.testbit a i), (Z.testbit b i), (Z.testbit b 31 && Z.testbit CRC32_POLY (i + 1)).
  - destruct (Z.eq_dec i 31) as [->|]; [done|]. by rewrite !(testbit_above 32) by lia.
Qed.
Lemma crc_step0_range c : 0 <= crc_step0 c < 2 ^ 32.
Proof. apply crc_step_range. Qed.
Lemma crc_step0_shift c : 0 <= c < 2 ^ 32 -> Z.testbit c 0 = false -> crc_step0 (Z.shiftr c 1) = c.
Proof.
  intros Hc H0. unfold crc_step0, crc_step. rewrite Z.shiftr_spec, (testbit_above 32 c) by lia. cbn [xorb].
  rewrite Z.lxor_0_r. apply Z.bits_inj'. intros i Hi. rewrite testbit_u32, Z.shiftl_spec by lia.
  destruct (Z.eq_dec i 0) as [->|]; [by rewrite H0|]. rewrite Z.shiftr_spec by lia. replace (i - 1 + 1) with i by lia.
  destruct (Z.ltb_spec i 32); [apply andb_true_r|]. by rewrite (testbit_above 32) by lia.
Qed.

Lemma crc_bits_top l c : (length l <= 32)%nat -> crc_bits l c = Nat.iter (length l) crc_step0 (Z.lxor c (top_bits l)).
Proof.
  revert c. induction l as [|b l IH]; intros c Hl; [by rewrite Z.lxor_0_r|]. cbn [length] in *.
  change (crc_bits (b :: l) c) with (crc_bits l (crc_step c b)).
  rewrite IH, crc_step_top, Nat.iter_succ_r by lia. f_equal. cbn [top_bits].
  rewrite <- (Z.lxor_assoc c), (crc_step0_lxor (Z.lxor c _)). rewrite crc_step0_shift; [done | apply top_bits_range|].
  rewrite top_bits_spec by lia. apply nth_overflow. change (Z.to_nat (31 - 0)) with 31%nat. lia.
Qed.
Lemma crc_bits_window l l' c :
  length l = length l' -> (length l <= 32)%nat -> 0 <= c < 2 ^ 32 -> crc_bits l c = crc_bits l' c -> l = l'.
Proof.
  intros El Hl Hc. rewrite !crc_bits_top, <- El by lia.
  assert (Hi : forall n a b, 0 <= a < 2 ^ 32 -> 0 <= b < 2 ^ 32 -> Nat.iter n crc_step0 a = Nat.iter n crc_step0 b -> a = b).
  { clear. induction n as [|n IH]; intros a b Ha Hb E; [done|]. rewrite !Nat.iter_succ_r in E.
    apply IH in E; [by apply crc_step0_inj | apply crc_step0_range..]. }
  intros E. apply Hi in E; [|by apply lxor_range, top_bits_range..].
  assert (Et : top_bits l = top_bits l').
  { by rewrite <- (Z.lxor_0_l (top_bits l)), <- (Z.lxor_nilpotent c), Z.lxor_assoc, E, <- Z.lxor_assoc, Z.lxor_nilpotent, Z.lxor_0_l. }
  apply (nth_ext _ _ false false El). intros k Hk.
  pose proof (top_bits_spec l (31 - Z.of_nat k) ltac:(lia)) as H1. rewrite Et, top_bits_spec in H1 by lia.
  replace (Z.to_nat (31 - (31 - Z.of_nat k))) with k in H1 by lia. by rewrite <- H1.
Qed.
Lemma crc_bits_inj l a b : 0 <= a < 2 ^ 32 -> 0 <= b < 2 ^ 32 -> crc_bits l a = crc_bits l b -> a = b.
Proof.
  revert a b. induction l as [|x l IH]; intros a b Ha Hb E; [done|]. change (crc_bits l (crc_step a x) = crc_bits l (crc_step b x)) in E.
  apply IH in E; [|apply crc_step_range..]. rewrite !crc_step_top in E.
  assert (Hx : 0 <= (if x then 2 ^ 31 else 0) < 2 ^ 32) by (destruct x; lia).
  apply crc_step0_inj in E; [|by apply lxor_range..].
  by rewrite <- (Z.lxor_0_r a), <- (Z.lxor_nilpotent (if x then 2 ^ 31 else 0)), <- Z.lxor_assoc, E, Z.lxor_assoc, Z.lxor_nilpotent, Z.lxor_0_r.
Qed.
Lemma crc_burst_bits p w w' q c :
  length w = length w' -> (length w <= 32)%nat -> 0 <= c < 2 ^ 32 ->
  crc_bits (p ++ w ++ q) c = crc_bits (p ++ w' ++ q) c -> w = w'.
Proof.
  intros El Hl Hc E. rewrite !crc_bits_app in E. pose proof (crc_bits_range p c Hc) as Hp.
  apply crc_bits_inj in E; [|by apply crc_bits_range..]. by apply crc_bits_window in E.
Qed.

(** ** The fields of a register *)

(** Bit [p] of the register, [n] bits from place [off] on in the order in which
    they are shifted, and the number they stand for: its most significant bit is
    shifted first. *)
Definition jbyte (jreg : list Z) (i : Z) : Z := nth (Z.to_nat i) jreg 0.
Definition jbit (jreg : list Z) (p : Z) : bool := Z.testbit (jbyte jreg (p / 8)) (p mod 8).
Definition jbits (jreg : list Z) (off n : Z) : list bool := map (jbit jreg) (seqZ off n).
Definition bits_value (l : list bool) : Z := fold_left (fun v (b : bool) => 2 * v + b2z b) l 0.
Definition slice (jreg : list Z) (off n : Z) : Z := bits_value (jbits jreg off n).
Definition octets (jreg : list Z) : Prop := Forall octet jreg.

Lemma bits_value_snoc l b : bits_value (l ++ [b]) = 2 * bits_value l + b2z b.
Proof. unfold bits_value. by rewrite fold_left_app. Qed.
Lemma bits_value_range l : 0 <= bits_value l < 2 ^ Z.of_nat (length l).
Proof.
  induction l as [|b l IH] using rev_ind; [done|]. rewrite bits_value_snoc, length_app. cbn [length].
  rewrite Nat2Z.inj_add, Z.pow_add_r by lia. change (2 ^ Z.of_nat 1) with 2. destruct b; cbn [b2z]; lia.
Qed.
Lemma bits_value_bit l k : 0 <= k < Z.of_nat (length l) -> Z.testbit (bits_value l) k = nth (length l - 1 - Z.to_nat k) l false.
Proof.
  revert k. induction l as [|b l IH] using rev_ind; intros k Hk; [cbn in Hk; lia|].
  rewrite bits_value_snoc. rewrite length_app in *. cbn [length] in *. destruct (Z.eq_dec k 0) as [->|].
  - rewrite app_nth2 by lia. replace (_ - _)%nat with 0%nat by lia. cbn [nth].
    destruct b; cbn [b2z]; [apply Z.testbit_odd_0 | rewrite Z.add_0_r; apply Z.testbit_even_0].
  - rewrite app_nth1 by lia. replace (length l + 1 - 1 - Z.to_nat k)%nat with (length l - 1 - Z.to_nat (k - 1))%nat by lia.
    rewrite <- IH by lia. replace k with (Z.succ (k - 1)) at 1 by lia.
    destruct b; cbn [b2z]; [apply Z.testbit_odd_succ; lia | rewrite Z.add_0_r; apply Z.testbit_even_succ; lia].
Qed.
Lemma length_jbits jreg off n : length (jbits jreg off n) = Z.to_nat n.
Proof. unfold jbits. by rewrite length_map, length_seqZ. Qed.
Lemma slice_range jreg off n : 0 <= n -> 0 <= slice jreg off n < 2 ^ n.
Proof. intros Hn. pose proof (bits_value_range (jbits jreg off n)) as Hr. by rewrite length_jbits, Z2Nat.id in Hr by lia. Qed.
Lemma nth_jbits jreg off n k : (k < Z.to_nat n)%nat -> nth k (jbits jreg off n) false = jbit jreg (off + Z.of_nat k).
Proof.
  intros Hk. apply nth_lookup_Some with (d := false). unfold jbits. by rewrite list_lookup_fmap, lookup_seqZ_lt by lia.
Qed.
Lemma slice_bit jreg off n k : 0 <= k < n -> Z.testbit (slice jreg off n) k = jbit jreg (off + (n - 1 - k)).
Proof.
  intros Hk. unfold slice. rewrite bits_value_bit; rewrite length_jbits; [|lia]. rewrite nth_jbits by lia. f_equal. lia.
Qed.
Lemma slice_intro jreg off n v :
  0 <= n -> 0 <= v < 2 ^ n -> (forall k, 0 <= k < n -> Z.testbit v k = jbit jreg (off + (n - 1 - k))) -> v = slice jreg off n.
Proof.
  intros Hn Hv Hb. pose proof (slice_range jreg off n Hn). apply Z.bits_inj'. intros k Hk.
  destruct (Z.lt_ge_cases k n); [by rewrite slice_bit, Hb by lia|]. by rewrite !(testbit_above n) by lia.
Qed.
Lemma slice_ext jreg jreg' off off' n : 0 <= n -> (forall j, 0 <= j < n -> jbit jreg (off + j) = jbit jreg' (off' + j)) ->
  slice jreg off n = slice jreg' off' n.
Proof. intros Hn Hb. apply slice_intro; [done | by apply slice_range|]. intros k Hk. rewrite slice_bit by lia. apply Hb. lia. Qed.

Lemma msb_slice jreg off n : 0 <= n -> msb_bits (slice jreg off n) n = jbits jreg off n.
Proof.
  intros Hn. unfold msb_bits, jbits. replace (seqZ off n) with (map (Z.add off) (seqZ 0 n)) by (setoid_rewrite fmap_add_seqZ; f_equal; lia). rewrite map_map.
  apply map_ext_in. intros j Hj%list_elem_of_In%elem_of_seqZ. rewrite slice_bit by lia. f_equal. lia.
Qed.
Lemma crc32_slice jreg off n c : 0 <= n <= 64 -> 0 <= c < 2 ^ 32 -> crc32 (slice jreg off n) n c = crc_bits (jbits jreg off n) c.
Proof.
  intros Hn Hc. pose proof (slice_range jreg off n ltac:(lia)). pose proof (Z.pow_le_mono_r 2 n 64).
  by rewrite crc32_spec, msb_slice by lia.
Qed.
Lemma jbits_app jreg off n m : 0 <= n -> 0 <= m -> jbits jreg off (n + m) = jbits jreg off n ++ jbits jreg (off + n) m.
Proof. intros. unfold jbits. by rewrite seqZ_app, map_app by lia. Qed.

(** ** Reading and writing one byte *)

Lemma jbyte_octet jreg i : octets jreg -> octet (jbyte jreg i).
Proof.
  intros Ho. unfold jbyte. destruct (decide (Z.to_nat i < length jreg)%nat).
  - eapply List.Forall_forall; [exact Ho|]. by apply nth_In.
  - rewrite nth_overflow by lia. unfold octet. lia.
Qed.
Lemma octet_out b i : octet b -> i < 0 \/ 8 <= i -> Z.testbit b i = false.
Proof. intros Hb [Hi|Hi]; [by apply Z.testbit_neg_r | by apply (testbit_above 8)]. Qed.
Lemma jbit_at jreg p k : 8 * k <= p < 8 * k + 8 -> jbit jreg p = Z.testbit (jbyte jreg k) (p - 8 * k).
Proof.
  intros Hp. unfold jbit. rewrite <- (Z.div_unique p 8 k (p - 8 * k)), <- (Z.mod_unique p 8 k (p - 8 * k)) by lia. done.
Qed.

Definition jset (jreg : list Z) (i v : Z) : list Z := <[Z.to_nat i := u8 v]> jreg.
Definition jlen (jreg : list Z) : Z := Z.of_nat (length jreg).
Lemma jlen_set jreg i v : jlen (jset jreg i v) = jlen jreg.
Proof. unfold jlen, jset. by rewrite length_insert. Qed.
Lemma octets_set jreg i v : octets jreg -> octets (jset jreg i v).
Proof. intros Ho. apply Forall_insert; [done | apply octet_u8]. Qed.
Lemma jbyte_set jreg k v i : 0 <= k < jlen jreg -> 0 <= i -> jbyte (jset jreg k v) i = if i =? k then u8 v else jbyte jreg i.
Proof.
  intros Hk Hi. unfold jlen in Hk. unfold jbyte, jset. rewrite !nth_lookup. destruct (Z.eqb_spec i k) as [->|].
  - by rewrite list_lookup_insert_eq by lia.
  - by rewrite list_lookup_insert_ne by lia.
Qed.
Lemma testbit_u8 z i : 0 <= i < 8 -> Z.testbit (u8 z) i = Z.testbit z i.
Proof. intros Hi. change (u8 z) with (z mod 2 ^ 8). by rewrite Z.mod_pow2_bits_low by lia. Qed.
Lemma jbit_set jreg k v p : 0 <= k < jlen jreg -> 0 <= p ->
  jbit (jset jreg k v) p = if p / 8 =? k then Z.testbit v (p mod 8) else jbit jreg p.
Proof.
  intros Hk Hp. unfold jbit. rewrite jbyte_set by (lia || by apply Z.div_pos). destruct (_ =? _); [|done].
  apply testbit_u8, Z.mod_pos_bound. lia.
Qed.

Lemma in_jreg_true jreg i : 0 <= i < jlen jreg -> in_jreg jreg i = true.
Proof. unfold in_jreg, jlen. lia. Qed.
Lemma bind_jget {A} jreg i (f : Z -> M A) (s : Sim) : 0 <= i < jlen jreg -> (x ← jget jreg i; f x) s = f (jbyte jreg i) s.
Proof. intros Hi. unfold bind, jget. by rewrite in_jreg_true. Qed.
Lemma bind_jput {A} jreg i v (f : list Z -> M A) (s : Sim) : 0 <= i < jlen jreg -> (x ← jput jreg i v; f x) s = f (jset jreg i v) s.
Proof. intros Hi. unfold bind, jput. by rewrite in_jreg_true. Qed.
Lemma bind_jor {A} jreg i v (f : list Z -> M A) (s : Sim) : 0 <= i < jlen jreg ->
  (x ← jor jreg i v; f x) s = f (jset jreg i (Z.lor (jbyte jreg i) v)) s.
Proof. intros Hi. unfold bind at 1, jor. rewrite bind_jget by done. unfold jput. by rewrite in_jreg_true. Qed.
Lemma jput_run jreg i v (s : Sim) : 0 <= i < jlen jreg -> jput jreg i v s = Ok (jset jreg i v) s.
Proof. intros Hi. unfold jput. by rewrite in_jreg_true. Qed.
Lemma bind_rd {A} c (f : Z -> M A) (s : Sim) : (x ← rd c; f x) s = f (s c) s.
Proof. reflexivity. Qed.
Lemma bind_isset {A} c (f : bool -> M A) (s : Sim) : (x ← isset c; f x) s = f (nz (s c)) s.
Proof. reflexivity. Qed.
Lemma bind_ret {A B} (a : A) (f : A -> M B) (s : Sim) : (x ← ret a; f x) s = f a s.
Proof. reflexivity. Qed.
Lemma bind_assoc {A B C} (m : M A) (f : A -> M B) (g : B -> M C) s : (y ← (x ← m; f x); g y) s = (x ← m; y ← f x; g y) s.
Proof. unfold bind. by destruct (m s). Qed.

(** ** Fields that come in

    The code puts a field together from the pieces in successive bytes; bit [j]
    of the result is in one of them. *)

Lemma mask_hi5 b : octet b -> Z.shiftr (Z.land b 0xe0) 5 = Z.shiftr b 5.
Proof. intros Hb. apply Z.eqb_eq. refine (forallb_seqZ (fun b => Z.shiftr (Z.land b 0xe0) 5 =? Z.shiftr b 5) 0 256 b _ Hb). vm_compute. done. Qed.
Lemma mask_hi1 b : octet b -> Z.shiftr (Z.land b 0xfe) 1 = Z.shiftr b 1.
Proof. intros Hb. apply Z.eqb_eq. refine (forallb_seqZ (fun b => Z.shiftr (Z.land b 0xfe) 1 =? Z.shiftr b 1) 0 256 b _ Hb). vm_compute. done. Qed.
Lemma mask_low n b i : 0 <= n -> i < n -> Z.testbit (Z.land b (2 ^ n - 1)) i = Z.testbit b i.
Proof.
  intros Hn Hi. destruct (Z.lt_ge_cases i 0); [by rewrite !Z.testbit_neg_r|]. by rewrite land_low, Z.mod_pow2_bits_low by lia.
Qed.

Ltac piece_bits Ho :=
  rewrite ?Z.lor_spec, ?Z.shiftl_spec, ?Z.shiftr_spec by lia;
  rewrite ?(mask_low 5) by lia; rewrite ?(mask_low 1) by lia; rewrite ?(mask_low 4) by lia;
  repeat match goal with
  | |- context [Z.testbit (jbyte ?jreg ?k) ?i] => rewrite (octet_out (jbyte jreg k) i) by (exact (jbyte_octet jreg k Ho) || lia)
  end; rewrite ?orb_false_r, ?orb_false_l; f_equal; lia.
(** The bit is in the byte that starts at [8 * k]. *)
Ltac in_byte Ho k :=
  match goal with |- _ = jbit _ ?p => rewrite (jbit_at _ p k) by lia end; piece_bits Ho.

(** The reversed pieces are the field. *)
Lemma reverse_slice jreg off n v : 0 <= n <= 64 -> (forall j, 0 <= j < n -> Z.testbit v j = jbit jreg (off + j)) ->
  reverse_bits v n = slice jreg off n.
Proof.
  intros Hn Hb. apply slice_intro; [lia | by apply reverse_bits_range|]. intros k Hk. rewrite reverse_bits_spec, Hb by lia. f_equal.
Qed.
Lemma slice_wrap t jreg off n : 0 <= n <= width t -> is_signed t = false -> wrap t (slice jreg off n) = slice jreg off n.
Proof.
  intros Hn Ht. unfold wrap. rewrite Ht. apply Z.mod_small. pose proof (slice_range jreg off n ltac:(lia)).
  pose proof (Z.pow_le_mono_r 2 n (width t)). lia.
Qed.

Lemma crc_in_5_run jreg at_ s : octets jreg -> 0 <= at_ -> at_ + 5 <= jlen jreg ->
  crc_in_5 jreg at_ s = Ok (slice jreg (8 * at_ + 5) 32) s.
Proof.
  intros Ho Ha Hl. unfold crc_in_5. rewrite !bind_jget by lia. unfold ret. f_equal.
  rewrite mask_hi5 by (by apply jbyte_octet). change 0x1f with (2 ^ 5 - 1).
  rewrite (reverse_slice jreg (8 * at_ + 5) 32); [by apply slice_wrap | lia |]. intros j Hj.
  assert (j < 3 \/ 3 <= j < 11 \/ 11 <= j < 19 \/ 19 <= j < 27 \/ 27 <= j) as [?|[?|[?|[?|?]]]] by lia.
  - in_byte Ho (at_ + 0).
  - in_byte Ho (at_ + 1).
  - in_byte Ho (at_ + 2).
  - in_byte Ho (at_ + 3).
  - in_byte Ho (at_ + 4).
Qed.
Lemma crc_in_1_run jreg s : octets jreg -> 12 <= jlen jreg -> crc_in_1 jreg s = Ok (slice jreg 57 32) s.
Proof.
  intros Ho Hl. unfold crc_in_1. rewrite !bind_jget by lia. unfold ret. f_equal.
  rewrite mask_hi1 by (by apply jbyte_octet). change 0x01 with (2 ^ 1 - 1) at 1.
  rewrite (reverse_slice jreg 57 32); [by apply slice_wrap | lia |]. intros j Hj.
  assert (j < 7 \/ 7 <= j < 15 \/ 15 <= j < 23 \/ 23 <= j < 31 \/ 31 <= j) as [?|[?|[?|[?|?]]]] by lia.
  - in_byte Ho 7.
  - in_byte Ho 8.
  - in_byte Ho 9.
  - in_byte Ho 10.
  - in_byte Ho 11.
Qed.
Lemma field_first jreg : octets jreg -> (1 =? Z.land (jbyte jreg 0) 0x1) = jbit jreg 0.
Proof. intros Ho. rewrite <- (Z.shiftr_0_r (jbyte jreg 0)). by rewrite bit_test by lia. Qed.
Lemma field_id jreg : octets jreg -> reverse_bits (Z.land (Z.shiftr (jbyte jreg 0) 1) 0xf) 4 = slice jreg 1 4.
Proof. intros Ho. change 0xf with (2 ^ 4 - 1). apply reverse_slice; [lia|]. intros j Hj. rewrite mask_low by lia. in_byte Ho 0. Qed.
Lemma field_acc jreg : octets jreg ->
  reverse_bits (Z.lor (Z.shiftr (Z.land (jbyte jreg 0) 0xe0) 5) (Z.shiftl (Z.land (jbyte jreg 1) 0x01) 3)) 4 = slice jreg 5 4.
Proof.
  intros Ho. rewrite mask_hi5 by (by apply jbyte_octet). change 0x01 with (2 ^ 1 - 1) at 2. apply reverse_slice; [lia|]. intros j Hj.
  assert (j < 3 \/ 3 <= j) as [?|?] by lia; [in_byte Ho 0 | in_byte Ho 1].
Qed.
Lemma field_addr jreg : octets jreg ->
  reverse_bits (Z.lor (Z.lor (Z.lor (Z.lor (Z.shiftr (Z.land (jbyte jreg 1) 0xfe) 1) (Z.shiftl (jbyte jreg 2) 7))
    (Z.shiftl (jbyte jreg 3) 15)) (Z.shiftl (jbyte jreg 4) 23)) (Z.shiftl (Z.land (jbyte jreg 5) 0x01) 31)) 32 = slice jreg 9 32.
Proof.
  intros Ho. rewrite mask_hi1 by (by apply jbyte_octet).
  change (Z.land (jbyte jreg 5) 0x01) with (Z.land (jbyte jreg 5) (2 ^ 1 - 1)). apply reverse_slice; [lia|]. intros j Hj.
  assert (j < 7 \/ 7 <= j < 15 \/ 15 <= j < 23 \/ 23 <= j < 31 \/ 31 <= j) as [?|[?|[?|[?|?]]]] by lia;
    [in_byte Ho 1 | in_byte Ho 2 | in_byte Ho 3 | in_byte Ho 4 | in_byte Ho 5].
Qed.
Lemma field_len jreg : octets jreg ->
  reverse_bits (Z.lor (Z.lor (Z.shiftr (Z.land (jbyte jreg 5) 0xfe) 1) (Z.shiftl (jbyte jreg 6) 7))
    (Z.shiftl (Z.land (jbyte jreg 7) 0x01) 15)) 16 = slice jreg 41 16.
Proof.
  intros Ho. rewrite mask_hi1 by (by apply jbyte_octet).
  change (Z.land (jbyte jreg 7) 0x01) with (Z.land (jbyte jreg 7) (2 ^ 1 - 1)). apply reverse_slice; [lia|]. intros j Hj.
  assert (j < 7 \/ 7 <= j < 15 \/ 15 <= j) as [?|[?|?]] by lia; [in_byte Ho 5 | in_byte Ho 6 | in_byte Ho 7].
Qed.
Lemma field_data jreg : octets jreg ->
  reverse_bits (Z.lor (Z.lor (Z.lor (Z.lor (Z.lor (Z.lor (Z.lor (Z.shiftr (Z.land (jbyte jreg 0) 0xe0) 5)
    (Z.shiftl (jbyte jreg 1) 3)) (Z.shiftl (jbyte jreg 2) 11)) (Z.shiftl (jbyte jreg 3) 19)) (Z.shiftl (jbyte jreg 4) 27))
    (Z.shiftl (jbyte jreg 5) 35)) (Z.shiftl (jbyte jreg 6) 43)) (Z.shiftl (Z.land (jbyte jreg 7) 0x01) 51)) 52 = slice jreg 5 52.
Proof.
  intros Ho. rewrite mask_hi5 by (by apply jbyte_octet).
  change (Z.land (jbyte jreg 7) 0x01) with (Z.land (jbyte jreg 7) (2 ^ 1 - 1)). apply reverse_slice; [lia|]. intros j Hj.
  assert (j < 3 \/ 3 <= j < 11 \/ 11 <= j < 19 \/ 19 <= j < 27 \/ 27 <= j < 35 \/ 35 <= j < 43 \/ 43 <= j < 51 \/ 51 <= j)
    as [?|[?|[?|[?|[?|[?|[?|?]]]]]]] by lia;
    [in_byte Ho 0 | in_byte Ho 1 | in_byte Ho 2 | in_byte Ho 3 | in_byte Ho 4 | in_byte Ho 5 | in_byte Ho 6 | in_byte Ho 7].
Qed.
(** The bytes of the data, as they are written and as their CRC is computed. *)
Lemma field_byte jreg i : octets jreg -> 0 <= i ->
  reverse_byte (u8 (Z.lor (Z.shiftr (jbyte jreg i) 5) (Z.shiftl (jbyte jreg (i + 1)) 3))) = slice jreg (5 + 8 * i) 8.
Proof.
  intros Ho Hi. rewrite reverse_byte_bits by apply octet_u8. apply reverse_slice; [lia|]. intros j Hj. rewrite testbit_u8 by lia.
  assert (j < 3 \/ 3 <= j) as [?|?] by lia; [in_byte Ho i | in_byte Ho (i + 1)].
Qed.
Lemma field_crc_byte jreg i : octets jreg -> 0 <= i ->
  reverse_bits (Z.lor (Z.shiftr (Z.land (jbyte jreg i) 0xe0) 5) (Z.shiftl (Z.land (jbyte jreg (i + 1)) 0x1f) 3)) 8 =
  slice jreg (5 + 8 * i) 8.
Proof.
  intros Ho Hi. rewrite mask_hi5 by (by apply jbyte_octet). change 0x1f with (2 ^ 5 - 1). apply reverse_slice; [lia|]. intros j Hj.
  assert (j < 3 \/ 3 <= j) as [?|?] by lia; [in_byte Ho i | in_byte Ho (i + 1)].
Qed.

(** ** The answer

    Whatever the register held, the bits of the zeros are clear, those that are
    skipped are untouched, and the status and its CRC follow; but the status is
    or-ed to the bits that follow the skipped ones in their byte. *)

Lemma jzero_run jreg n s : 0 <= n <= jlen jreg -> exists jreg', jzero jreg n s = Ok jreg' s /\ jlen jreg' = jlen jreg /\
  (octets jreg -> octets jreg') /\ forall p, 0 <= p -> jbit jreg' p = if p <? 8 * n then false else jbit jreg p.
Proof.
  intros Hn. unfold jzero, jlen in *. rewrite (proj2 (Z.leb_le n _)) by lia. eexists. split; [done|]. split_and!.
  - rewrite length_app, length_replicate, length_drop. lia.
  - intros Ho. apply Forall_app; split; [|by apply Forall_drop]. apply Forall_replicate. unfold octet. lia.
  - intros p Hp. unfold jbit, jbyte. pose proof (Z.div_mod p 8 ltac:(lia)). pose proof (Z.mod_pos_bound p 8 ltac:(lia)).
    destruct (Z.ltb_spec p (8 * n)).
    + rewrite app_nth1, nth_lookup, lookup_replicate_2 by (rewrite ?length_replicate; lia). apply Z.bits_0.
    + rewrite app_nth2, length_replicate, !nth_lookup, lookup_drop by (rewrite length_replicate; lia). do 3 f_equal. lia.
Qed.

Lemma testbit_255 z r : 0 <= r < 8 -> Z.testbit (Z.land z 0xff) r = Z.testbit z r.
Proof. intros Hr. change 0xff with (2 ^ 8 - 1). by rewrite mask_low by lia. Qed.

Lemma clear_zeros_run jreg zero s : octets jreg -> 0 <= zero -> zero < 8 * jlen jreg ->
  exists jreg', clear_zeros jreg zero s = Ok jreg' s /\ jlen jreg' = jlen jreg /\ octets jreg' /\
    forall p, 0 <= p -> jbit jreg' p = if p <? zero then false else jbit jreg p.
Proof.
  intros Ho Hz Hl. unfold clear_zeros. pose proof (Z.div_mod zero 8 ltac:(lia)) as Ez. pose proof (Z.mod_pos_bound zero 8 ltac:(lia)).
  set (k := zero / 8) in *. set (off := zero mod 8) in *.
  assert (H1 : exists jreg1, (if 0 <? k then jzero jreg k else ret jreg) s = Ok jreg1 s /\ jlen jreg1 = jlen jreg /\
    octets jreg1 /\ forall p, 0 <= p -> jbit jreg1 p = if p <? 8 * k then false else jbit jreg p).
  { destruct (Z.ltb_spec 0 k).
    - destruct (jzero_run jreg k s) as (j1 & E & El & Hj & Hb); [lia|]. exists j1. auto.
    - exists jreg. split_and!; try done. intros p Hp. destruct (Z.ltb_spec p (8 * k)); [lia | done]. }
  destruct H1 as (jreg1 & E1 & El1 & Ho1 & Hb1). unfold bind at 1. rewrite E1.
  rewrite bind_jget, bind_jput, bind_jget by (rewrite ?jlen_set; lia). rewrite jput_run by (rewrite ?jlen_set; lia).
  eexists. split; [done|]. split; [by rewrite !jlen_set|]. split; [by apply octets_set, octets_set|].
  intros p Hp. pose proof (Z.div_mod p 8 ltac:(lia)). pose proof (Z.mod_pos_bound p 8 ltac:(lia)).
  rewrite !jbit_set by (rewrite ?jlen_set; lia). destruct (Z.eqb_spec (p / 8) k) as [Ek|Ek].
  - rewrite Z.shiftl_spec, jbyte_set, Z.eqb_refl by (try split; lia). destruct (Z.ltb_spec p zero).
    + apply Z.testbit_neg_r. lia.
    + rewrite testbit_u8, Z.shiftr_spec by lia. replace (p mod 8 - off + off) with (p mod 8) by lia.
      specialize (Hb1 p Hp). rewrite (proj2 (Z.ltb_ge p (8 * k))) in Hb1 by lia. rewrite <- Hb1. unfold jbit. by rewrite Ek.
  - rewrite Hb1 by done. destruct (Z.ltb_spec p zero), (Z.ltb_spec p (8 * k)); done || lia.
Qed.

(** The bit [p], in the byte [p / 8]: the pieces that reach it are equal, the
    others have no bit there. *)
Ltac answer_bit Est Ec :=
  match goal with |- jbit _ ?p = _ =>
    rewrite !jbit_set by (rewrite ?jlen_set; lia);
    repeat match goal with |- context [p / 8 =? ?x] => destruct (Z.eqb_spec (p / 8) x) end; try lia;
    rewrite ?(proj2 (Z.ltb_lt p _)), ?(proj2 (Z.ltb_ge p _)) by lia;
    rewrite ?Z.lor_spec, ?testbit_255, ?Z.shiftr_spec, ?testbit_u32, ?Z.shiftl_spec by lia;
    rewrite ?(proj2 (Z.ltb_lt (p mod 8) 32)), ?andb_true_r by lia;
    repeat match goal with
    | |- context [Z.testbit _ ?i] => first [rewrite (Est i) by lia | rewrite (Ec i) by lia]
    end; rewrite ?orb_false_l, ?orb_false_r
  end.

Lemma insert_status_run jreg st c sb bo s :
  octets jreg -> 0 <= sb -> 0 <= bo < 8 -> 8 * sb + bo + 36 <= 8 * jlen jreg < 2 ^ 32 -> 0 <= st < 2 ^ 4 -> 0 <= c < 2 ^ 32 ->
  exists jreg', insert_status jreg st c sb bo s = Ok jreg' s /\ jlen jreg' = jlen jreg /\ octets jreg' /\
    forall p, 0 <= p < 8 * sb + bo + 36 -> jbit jreg' p =
      (if p <? 8 * (sb + 1) then jbit jreg p else false) || Z.testbit st (p - (8 * sb + bo)) || Z.testbit c (p - (8 * sb + bo) - 4).
Proof.
  intros Ho Hs Hb Hl Hst Hc. unfold insert_status.
  assert (Est : forall i, i < 0 \/ 4 <= i -> Z.testbit st i = false)
    by (intros i [Hi|Hi]; [by apply Z.testbit_neg_r | by apply (testbit_above 4)]).
  assert (Ec : forall i, i < 0 \/ 32 <= i -> Z.testbit c i = false)
    by (intros i [Hi|Hi]; [by apply Z.testbit_neg_r | by apply (testbit_above 32)]).
  replace (Z.land st 0xf) with st by (change 0xf with (2 ^ 4 - 1); rewrite land_low, Z.mod_small; lia).
  destruct (Z.leb_spec bo 4) as [H4|H4]; [|destruct (Z.ltb_spec bo 8); [|lia]].
  all: rewrite (u32_small (sb + 1)), (u32_small (sb + 2)), (u32_small (sb + 3)), (u32_small (sb + 4)), ?(u32_small (sb + 5)) by lia.
  all: rewrite bind_jor, !bind_jput by (rewrite ?jlen_set; lia); rewrite jput_run by (rewrite ?jlen_set; lia).
  all: eexists; split; [done|]; split; [by rewrite !jlen_set|]; split; [by repeat apply octets_set|].
  all: intros p Hp; pose proof (Z.div_mod p 8 ltac:(lia)); pose proof (Z.mod_pos_bound p 8 ltac:(lia)).
  all: answer_bit Est Ec; try rewrite (jbit_at jreg p sb) by lia; rewrite ?orb_assoc.
  all: repeat match goal with |- _ || _ = _ || _ => f_equal end; f_equal; lia.
Qed.

(** The answer to the register [jreg]: zeros, the skipped bits, the status with
    what the register held there, the CRC.  The bits that the status sets are set
    whatever the register held. *)
Record answer (jreg jreg' : list Z) (status crc_in ign zero : Z) : Prop := {
  an_len : jlen jreg' = jlen jreg;
  an_octets : octets jreg';
  an_zero : forall p, 0 <= p < zero -> jbit jreg' p = false;
  an_ign : forall p, zero <= p < ign + zero -> jbit jreg' p = jbit jreg p;
  an_flags : forall i, 0 <= i < 4 -> Z.testbit status (3 - i) = true -> jbit jreg' (ign + zero + i) = true;
  an_status : (forall p, ign + zero <= p < 8 * ((ign + zero) / 8 + 1) -> jbit jreg p = false) ->
    slice jreg' (ign + zero) 4 = status /\
    slice jreg' (ign + zero + 4) 32 = crc_bits (jbits jreg' (ign + zero) 4) crc_in }.

Lemma construct_response_run jreg status crc_in ign zero s :
  octets jreg -> 0 <= ign -> 0 <= zero -> ign + zero + 36 <= 8 * jlen jreg < 2 ^ 32 -> 0 <= status < 2 ^ 4 -> 0 <= crc_in < 2 ^ 32 ->
  exists jreg', construct_response jreg status crc_in ign zero s = Ok jreg' s /\ answer jreg jreg' status crc_in ign zero.
Proof.
  intros Ho Hi Hz Hl Hs Hc. unfold construct_response.
  replace (u8 status) with status by (symmetry; apply wrap_small, inty_U8; lia).
  rewrite (u32_small ign), (u32_small zero), (u32_small (ign + zero)) by lia.
  pose proof (crc32_range status 4 crc_in Hc ltac:(lia) ltac:(lia)) as Hcr. set (crc := crc32 status 4 crc_in) in *.
  pose proof (reverse_bits_range status 4 ltac:(lia)) as Hsr. pose proof (reverse_bits_range crc 32 ltac:(lia)) as Hrr.
  rewrite u32_small by done. replace (u8 (reverse_bits status 4)) with (reverse_bits status 4) by (symmetry; apply wrap_small, inty_U8; lia).
  destruct (clear_zeros_run jreg zero s Ho Hz ltac:(lia)) as (j1 & E1 & El1 & Ho1 & Hb1). unfold bind. rewrite E1.
  pose proof (Z.div_mod (ign + zero) 8 ltac:(lia)) as Ed. pose proof (Z.mod_pos_bound (ign + zero) 8 ltac:(lia)).
  assert (H0 : 0 <= (ign + zero) / 8) by (apply Z.div_pos; lia).
  destruct (insert_status_run j1 (reverse_bits status 4) (reverse_bits crc 32) ((ign + zero) / 8) ((ign + zero) mod 8) s)
    as (j2 & E2 & El2 & Ho2 & Hb2); try done; try lia.
  rewrite <- Ed in Hb2. exists j2. split; [done|].
  assert (Hn : forall v n i, i < 0 -> Z.testbit (reverse_bits v n) i = false) by (intros; by apply Z.testbit_neg_r).
  split; [congruence | done | | | |].
  - intros p Hp. rewrite Hb2, Hb1, !Hn by lia. rewrite (proj2 (Z.ltb_lt p zero)) by lia. by destruct (p <? _).
  - intros p Hp. rewrite Hb2, Hb1, !Hn by lia. rewrite (proj2 (Z.ltb_ge p zero)), (proj2 (Z.ltb_lt p _)) by lia.
    by rewrite !orb_false_r.
  - intros i Hi4 Hset. rewrite Hb2 by lia. replace (ign + zero + i - (ign + zero)) with i by lia.
    rewrite (reverse_bits_spec status), (Hn crc 32), orb_false_r by lia. replace (4 - 1 - i) with (3 - i) by lia.
    by rewrite Hset, orb_true_r.
  - intros Hd.
    assert (Hclear : forall p, 0 <= ign + zero <= p -> (if p <? 8 * ((ign + zero) / 8 + 1) then jbit j1 p else false) = false).
    { intros p Hp. destruct (Z.ltb_spec p (8 * ((ign + zero) / 8 + 1))); [|done]. rewrite Hb1, Hd by lia. by destruct (p <? zero). }
    assert (E4 : slice j2 (ign + zero) 4 = status).
    { symmetry. apply slice_intro; [lia | done|]. intros k Hk. rewrite Hb2, Hclear by lia.
      rewrite (Hn _ _ (ign + zero + (4 - 1 - k) - (ign + zero) - 4)), orb_false_r, orb_false_l, reverse_bits_spec by lia. f_equal. lia. }
    split; [done|]. rewrite <- crc32_slice, E4 by lia. symmetry. apply slice_intro; [lia | done|]. intros k Hk. rewrite Hb2, Hclear by lia.
    rewrite (testbit_above 4 (reverse_bits status 4)), !orb_false_l, reverse_bits_spec by lia. f_equal. lia.
Qed.
End JtagBits.
