(* ===== verification/JtagFrames.v ===== *)
(** * The commands of the JTAG interface

    A data register starts with a header; its CRC follows.  The theorems here
    say what makes [jtag_shift_dr] refuse a register, and what it then leaves
    alone. *)

From S2P Require Export JtagBits.

Module JtagFrames.
Import Mem Debug Sprs Insnset Execute Toplevel Jtag JtagBits.

(** ** The kinds of registers *)

Inductive kind := Select | Go_write | Go_read | Read_command | Write_command | Read_control | Write_control.

Definition is_write (acc_type : Z) : bool := existsb (Z.eqb acc_type) [JAT_WRITE8; JAT_WRITE16; JAT_WRITE32].
Definition is_read (acc_type : Z) : bool := existsb (Z.eqb acc_type) [JAT_READ8; JAT_READ16; JAT_READ32].
Definition kind_of (s : Sim) (jreg : list Z) : option kind :=
  if jbit jreg 0 then Some Select
  else
    switch (slice jreg 1 4)
      [ ([JCMD_GO_COMMAND],
          if negb (nz (s Jtag_write_defined_p)) then None
          else if is_write (s Jtag_acc_type) then Some Go_write
          else if is_read (s Jtag_acc_type) then Some Go_read else None);
        ([JCMD_READ_COMMAND], Some Read_command);
        ([JCMD_WRITE_COMMAND], Some Write_command);
        ([JCMD_READ_CONTROL], Some Read_control);
        ([JCMD_WRITE_CONTROL], Some Write_control) ]
      None.

(** The bits that the CRC covers, all bits, and in the answer the bits that
    are skipped and those that are zero, for a transfer of [n] bytes.  In a
    READ_CONTROL the code takes the CRC of the five bits of the header, although
    the comment above [read_control] says 57. *)
Definition header_bits (k : kind) (n : Z) : Z :=
  match k with Go_write => 5 + 8 * n | Write_command | Write_control => 57 | _ => 5 end.
Definition all_bits (k : kind) (n : Z) : Z :=
  match k with Select => 73 | Go_write | Go_read => 73 + 8 * n | _ => 125 end.
Definition ign_bits (k : kind) (n : Z) : Z :=
  match k with Go_read => 8 * n | Read_command | Read_control => 52 | _ => 0 end.
Definition zero_bits (k : kind) (n : Z) : Z :=
  match k with Go_write => 37 + 8 * n | Write_command | Write_control => 89 | _ => 37 end.

Definition frame_crc (jreg : list Z) (n : Z) : Z := crc_bits (jbits jreg 0 n) 0xffffffff.
Definition crc_ok (jreg : list Z) (n : Z) : bool := frame_crc jreg n =? slice jreg n 32.

Record frame_ok (jreg : list Z) (bits : Z) : Prop := {
  fr_octets : octets jreg; fr_bits : bits <= 8 * jlen jreg; fr_len : 8 * jlen jreg < 2 ^ 32 }.

(** ** The CRC of the header, piece by piece *)

Lemma frame_crc_range jreg n : 0 <= frame_crc jreg n < 2 ^ 32.
Proof. by apply crc_bits_range. Qed.
Lemma frame_crc_app jreg n m : 0 <= n -> 0 <= m -> frame_crc jreg (n + m) = crc_bits (jbits jreg n m) (frame_crc jreg n).
Proof. intros. unfold frame_crc. by rewrite jbits_app, crc_bits_app by lia. Qed.
Lemma crc32_next jreg n m : 0 <= n -> 0 <= m <= 64 -> crc32 (slice jreg n m) m (frame_crc jreg n) = frame_crc jreg (n + m).
Proof. intros. pose proof (frame_crc_range jreg n). by rewrite crc32_slice, frame_crc_app by lia. Qed.
Lemma crc32_first jreg : crc32 (b2z (jbit jreg 0)) 1 0xffffffff = frame_crc jreg 1.
Proof.
  replace (b2z (jbit jreg 0)) with (slice jreg 0 1); [by rewrite crc32_slice by lia|].
  by change (slice jreg 0 1) with (2 * 0 + b2z (jbit jreg 0)).
Qed.
Lemma command_crc jreg b c : jbit jreg 0 = b -> slice jreg 1 4 = c -> crc32 c 4 (crc32 (b2z b) 1 0xffffffff) = frame_crc jreg 5.
Proof. intros <- <-. by rewrite crc32_first, (crc32_next jreg 1 4) by lia. Qed.
Lemma module_crc jreg c : jbit jreg 0 = true -> slice jreg 1 4 = c -> crc32 c 4 (crc32 1 1 0xffffffff) = frame_crc jreg 5.
Proof. apply (command_crc jreg true). Qed.
Lemma debug_crc jreg c : jbit jreg 0 = false -> slice jreg 1 4 = c -> crc32 c 4 (crc32 0 1 0xffffffff) = frame_crc jreg 5.
Proof. apply (command_crc jreg false). Qed.

Lemma crc_bad jreg n : crc_ok jreg n = false -> (frame_crc jreg n =? slice jreg n 32) = false.
Proof. exact id. Qed.
Lemma crc_good jreg n : crc_ok jreg n = true -> (frame_crc jreg n =? slice jreg n 32) = true.
Proof. exact id. Qed.
Lemma crc_in_5_start jreg s : octets jreg -> 5 <= jlen jreg -> crc_in_5 jreg 0 s = Ok (slice jreg 5 32) s.
Proof. intros Ho Hl. by apply (crc_in_5_run jreg 0). Qed.

Lemma crc_data_run jreg size i c s fuel : octets jreg -> 0 <= i <= size -> size < jlen jreg -> 0 <= c < 2 ^ 32 ->
  size - i <= Z.of_nat fuel ->
  crc_data_from fuel jreg size i c s = Ok (crc_bits (jbits jreg (5 + 8 * i) (8 * (size - i))) c) s.
Proof.
  intros Ho Hi Hl Hc. revert i c Hi Hc. induction fuel as [|fuel IH]; intros i c Hi Hc Hf; cbn [crc_data_from];
    destruct (Z.ltb_spec i size); cbn [negb]; try lia.
  1, 3: replace (8 * (size - i)) with 0 by lia; done.
  rewrite !bind_jget by lia. rewrite field_crc_byte by (done || lia). rewrite slice_wrap by (cbn; done || lia).
  rewrite crc32_slice, IH by (done || lia || by apply crc_bits_range).
  replace (8 * (size - i)) with (8 + 8 * (size - (i + 1))) by lia. rewrite jbits_app, crc_bits_app by lia.
  by replace (5 + 8 * (i + 1)) with (5 + 8 * i + 8) by lia.
Qed.

(** ** The commands, with the fields for the expressions that extract them *)

(** The test of the number of bits. *)
Ltac right_size := match goal with |- context [if negb (?x =? ?y) then _ else _] => change (negb (x =? y)) with false end; cbv iota.

Lemma u8_slice jreg off n : 0 <= n <= 8 -> u8 (slice jreg off n) = slice jreg off n.
Proof. intros. by apply slice_wrap. Qed.

Lemma select_module_eq jreg s : frame_ok jreg 73 -> jbit jreg 0 = true ->
  select_module jreg 73 s =
  (status ←
     (if crc_ok jreg 5 then
        switch (slice jreg 1 4)
          [ ([JM_WISHBONE; JM_CPU0; JM_CPU1], wr Jtag_mod_id (slice jreg 1 4);; ret JS_OK) ]
          (wr Jtag_mod_id JM_UNDEFINED;; ret (Z.lor JS_OK JS_MODULE_MISSING))
      else ret (Z.lor JS_OK JS_CRC_IN_ERROR));
   construct_response jreg status 0xffffffff 0 37) s.
Proof.
  intros [Ho Hb Hl] H0. unfold select_module. right_size. rewrite bind_jget by lia. rewrite field_id by done.
  unfold bind at 1. rewrite crc_in_5_start by (done || lia).
  rewrite u8_slice by lia. rewrite (module_crc jreg (slice jreg 1 4)) by done.
   unfold crc_ok. reflexivity.
Qed.

(** What an accepted WRITE_COMMAND does. *)
Definition accept_command (acc_type addr size : Z) : M unit :=
  mod_id ← rd Jtag_mod_id;
  switch mod_id
    [ ([JM_WISHBONE],
        valid ← validate_wb_fields acc_type addr size;
        if valid : bool then define_write acc_type addr size else wr Jtag_write_defined_p 0);
      ([JM_CPU0],
        valid ← validate_spr_fields acc_type addr size;
        if valid : bool then define_write acc_type (addr mod MAX_SPRS) size else wr Jtag_write_defined_p 0);
      ([JM_CPU1; JM_UNDEFINED], wr Jtag_write_defined_p 0;; emit Ev_warning) ]
    (wr Jtag_write_defined_p 0).
Lemma write_command_eq jreg s : frame_ok jreg 125 -> jbit jreg 0 = false -> slice jreg 1 4 = JCMD_WRITE_COMMAND ->
  write_command jreg 125 s =
  (status ←
     (if crc_ok jreg 57 then accept_command (slice jreg 5 4) (slice jreg 9 32) (slice jreg 41 16 + 1);; ret JS_OK
      else wr Jtag_write_defined_p 0;; ret (Z.lor JS_OK JS_CRC_IN_ERROR));
   construct_response jreg status 0xffffffff 0 89) s.
Proof.
  intros [Ho Hb Hl] H0 H1. unfold write_command. right_size. rewrite !bind_jget by lia.
  rewrite field_acc, field_addr, field_len by done. rewrite u8_slice by lia. rewrite !slice_wrap by (done || cbn; lia).
  unfold bind at 1. rewrite crc_in_1_run by (done || lia).
 rewrite (debug_crc jreg) by done.
  rewrite (crc32_next jreg 5 4) by lia. change (5 + 4) with 9. rewrite (crc32_next jreg 9 32) by lia. change (9 + 32) with 41.
  rewrite (crc32_next jreg 41 16) by lia. change (41 + 16) with 57.
  unfold crc_ok, accept_command. destruct (_ =? _); unfold bind, rd; reflexivity.
Qed.

Lemma read_command_eq jreg s : frame_ok jreg 125 -> jbit jreg 0 = false -> slice jreg 1 4 = JCMD_READ_COMMAND ->
  crc_ok jreg 5 = false ->
  read_command jreg 125 s = construct_response jreg (Z.lor JS_OK JS_CRC_IN_ERROR) 0xffffffff 52 37 s.
Proof.
  intros [Ho Hb Hl] H0 H1 Hc. unfold read_command. right_size. unfold bind at 1. rewrite crc_in_5_start by (done || lia).
 rewrite (debug_crc jreg) by done.
 by rewrite (crc_bad _ _ Hc).
Qed.
Lemma read_control_eq jreg s : frame_ok jreg 125 -> jbit jreg 0 = false -> slice jreg 1 4 = JCMD_READ_CONTROL ->
  crc_ok jreg 5 = false ->
  read_control jreg 125 s = construct_response jreg (Z.lor JS_OK JS_CRC_IN_ERROR) 0xffffffff 52 37 s.
Proof.
  intros [Ho Hb Hl] H0 H1 Hc. unfold read_control. right_size. unfold bind at 1. rewrite crc_in_5_start by (done || lia).
  rewrite (debug_crc jreg) by done. by rewrite (crc_bad _ _ Hc).
Qed.

Section Commands.
Context `{Devices} (rnd : mem_config -> Z -> Z).

(** What an accepted WRITE_CONTROL does. *)
Definition accept_control (data : Z) : M unit :=
  mod_id ← rd Jtag_mod_id;
  switch mod_id
    [ ([JM_CPU0], if Z.testbit data JCB_RESET then sim_reset rnd else set_stall_state (b2z (Z.testbit data JCB_STALL)));
      ([JM_UNDEFINED; JM_WISHBONE; JM_CPU1], emit Ev_warning) ]
    (ret tt).
Lemma write_control_eq jreg s : frame_ok jreg 125 -> jbit jreg 0 = false -> slice jreg 1 4 = JCMD_WRITE_CONTROL ->
  write_control rnd jreg 125 s =
  (status ← (if crc_ok jreg 57 then accept_control (slice jreg 5 52);; ret JS_OK else ret (Z.lor JS_OK JS_CRC_IN_ERROR));
   construct_response jreg status 0xffffffff 0 89) s.
Proof.
  intros [Ho Hb Hl] Hf Hcmd. unfold write_control. right_size. rewrite !bind_jget by lia. rewrite field_data by done.
  unfold bind at 1. rewrite crc_in_1_run by (done || lia). rewrite (debug_crc jreg) by done.
  rewrite (crc32_next jreg 5 52) by lia. change (5 + 52) with 57.
  rewrite !bit_test by (unfold JCB_RESET, JCB_STALL; lia). unfold crc_ok, accept_control.
  destruct (_ =? _); unfold bind, rd; reflexivity.
Qed.

(** The number of bytes of a GO_COMMAND of the right length. *)
Lemma go_length n : 0 <= n <= 2 ^ 16 ->
  s32 (36 + 8 * n + 32 + 4 + 1) = 73 + 8 * n /\ s32 (36 + 32 + 8 * n + 4 + 1) = 73 + 8 * n.
Proof. intros Hn. rewrite !s32_small by lia. lia. Qed.

Lemma go_command_read_eq jreg (s : Sim) : 0 <= s Jtag_size <= 2 ^ 16 -> frame_ok jreg (73 + 8 * s Jtag_size) ->
  jbit jreg 0 = false -> slice jreg 1 4 = JCMD_GO_COMMAND ->
  go_command_read jreg (73 + 8 * s Jtag_size) s =
  (r ←
     (if crc_ok jreg 5 then
        mod_id ← rd Jtag_mod_id;
        switch mod_id
          [ ([JM_WISHBONE], wishbone_read jreg (s Jtag_size) JS_OK);
            ([JM_CPU0], spr_read jreg (s Jtag_size) JS_OK) ]
          (null_read jreg (s Jtag_size) JS_OK)
      else ret (Reading jreg (Z.lor JS_OK JS_CRC_IN_ERROR) 0));
   construct_response (r_jreg r) (r_status r) (r_crc r) (8 * s Jtag_size) 37) s.
Proof.
  intros Hn [Ho Hb Hl] Hf Hcmd. unfold go_command_read. unfold bind at 1, rd at 1.
  rewrite (proj1 (go_length _ Hn)), Z.eqb_refl. unfold bind at 1. rewrite crc_in_5_start by (done || lia).
  rewrite (debug_crc jreg) by done. unfold crc_ok. reflexivity.
Qed.
Lemma go_command_write_eq jreg (s : Sim) : 0 <= s Jtag_size <= 2 ^ 16 -> frame_ok jreg (73 + 8 * s Jtag_size) ->
  jbit jreg 0 = false -> slice jreg 1 4 = JCMD_GO_COMMAND ->
  go_command_write jreg (73 + 8 * s Jtag_size) s =
  (status ←
     (if crc_ok jreg (5 + 8 * s Jtag_size) then
        mod_id ← rd Jtag_mod_id;
        switch mod_id
          [ ([JM_WISHBONE], wishbone_write jreg (s Jtag_size) JS_OK);
            ([JM_CPU0], spr_write jreg (s Jtag_size) JS_OK) ]
          (ret JS_OK)
      else ret (Z.lor JS_OK JS_CRC_IN_ERROR));
   construct_response jreg status 0xffffffff 0 (37 + 8 * s Jtag_size)) s.
Proof.
  intros Hn [Ho Hb Hl] Hf Hcmd. unfold go_command_write. unfold bind at 1, rd at 1.
  rewrite (proj2 (go_length _ Hn)), Z.eqb_refl. unfold bind at 1. rewrite crc_in_5_run by (done || lia).
  rewrite (debug_crc jreg) by done. unfold bind at 1. rewrite crc_data_run by (unfold jlen in *; done || lia || apply frame_crc_range).
  replace (8 * s Jtag_size + 5) with (5 + 8 * s Jtag_size) by lia. rewrite Z.sub_0_r. change (5 + 8 * 0) with 5.
  rewrite <- frame_crc_app by lia. unfold crc_ok. reflexivity.
Qed.

(** ** Which command runs *)

Definition run_kind (k : kind) : list Z -> Z -> M (list Z) :=
  match k with
  | Select => select_module
  | Go_write => go_command_write
  | Go_read => go_command_read
  | Read_command => read_command
  | Write_command => write_command
  | Read_control => read_control
  | Write_control => write_control rnd
  end.
Lemma kind_header (s : Sim) jreg k : kind_of s jreg = Some k ->
  jbit jreg 0 = (if k is Select then true else false) /\
  match k with
  | Select => True
  | Go_write => slice jreg 1 4 = JCMD_GO_COMMAND /\ nz (s Jtag_write_defined_p) = true /\ is_write (s Jtag_acc_type) = true
  | Go_read => slice jreg 1 4 = JCMD_GO_COMMAND /\ nz (s Jtag_write_defined_p) = true /\
      is_write (s Jtag_acc_type) = false /\ is_read (s Jtag_acc_type) = true
  | Read_command => slice jreg 1 4 = JCMD_READ_COMMAND
  | Write_command => slice jreg 1 4 = JCMD_WRITE_COMMAND
  | Read_control => slice jreg 1 4 = JCMD_READ_CONTROL
  | Write_control => slice jreg 1 4 = JCMD_WRITE_CONTROL
  end.
Proof.
  unfold kind_of. destruct (jbit jreg 0); [by intros [= <-]|]. set (c := slice jreg 1 4). clearbody c. cbn [switch existsb]. rewrite !orb_false_r.
  repeat match goal with |- context [if c =? ?x then _ else _] => destruct (Z.eqb_spec c x) as [Ec|_] end; try by intros [= <-].
  destruct (nz (s Jtag_write_defined_p)); [|done]. cbn [negb].
  destruct (is_write _); [by intros [= <-]|]. destruct (is_read _); [by intros [= <-] | done].
Qed.

Lemma jtag_shift_dr_eq jreg n k (s : Sim) : octets jreg -> 0 < jlen jreg -> s Jtag_instr = JI_DEBUG -> kind_of s jreg = Some k ->
  jtag_shift_dr rnd jreg n s = run_kind k jreg n s.
Proof.
  intros Ho Hl Hi Hk. apply kind_header in Hk as [Hf Hk]. unfold jtag_shift_dr, bind at 1, rd at 1. rewrite Hi.
  change (negb (JI_DEBUG =? JI_DEBUG)) with false. cbv iota. rewrite bind_jget by lia. rewrite field_first, Hf, field_id by done.
  destruct k; cbn [run_kind]; [done|..]; try (rewrite Hk; done);
    destruct Hk as (-> & Hd & Hk); change (switch _ _ _ s) with (go_command jreg n s);
    unfold go_command, isset, bind, ret, rd; rewrite Hd; cbn [negb switch]; unfold is_write, is_read in Hk.
  - by rewrite Hk.
  - destruct Hk as [-> Hk]. by rewrite Hk.
Qed.

(** ** Refusing a register *)

(** What a refused register does to the simulator. *)
Definition refused (k : kind) (s : Sim) : Sim := if k is Write_command then upd Jtag_write_defined_p 0 s else s.

Lemma bits_pos k n : 0 <= n -> 0 <= ign_bits k n /\ 0 <= zero_bits k n /\ ign_bits k n + zero_bits k n + 36 = all_bits k n.
Proof. intros Hn. destruct k; cbn; lia. Qed.

Lemma refused_answer jreg k (s : Sim) : s Jtag_instr = JI_DEBUG -> kind_of s jreg = Some k -> 0 <= s Jtag_size <= 2 ^ 16 ->
  frame_ok jreg (all_bits k (s Jtag_size)) -> crc_ok jreg (header_bits k (s Jtag_size)) = false ->
  exists jreg', jtag_shift_dr rnd jreg (all_bits k (s Jtag_size)) s = Ok jreg' (refused k s) /\
    answer jreg jreg' JS_CRC_IN_ERROR (if k is Go_read then 0 else 0xffffffff) (ign_bits k (s Jtag_size)) (zero_bits k (s Jtag_size)).
Proof.
  intros Hi Hk Hn Hfr Hc. pose proof Hfr as [Ho Hb Hl]. pose proof (bits_pos k (s Jtag_size) (proj1 Hn)) as (B1 & B2 & B3).
  destruct (construct_response_run jreg JS_CRC_IN_ERROR (if k is Go_read then 0 else 0xffffffff)
    (ign_bits k (s Jtag_size)) (zero_bits k (s Jtag_size)) (refused k s)) as (j & E & A);
    [done | lia | lia | lia | done | by destruct k |].
  exists j. split; [|done]. rewrite (jtag_shift_dr_eq _ _ k) by (done || lia). apply kind_header in Hk as [Hf Hk].
  destruct k; cbn [run_kind all_bits header_bits] in *.
  - rewrite select_module_eq, Hc by done. exact E.
  - destruct Hk as [Hk _]. rewrite go_command_write_eq, Hc by done. exact E.
  - destruct Hk as [Hk _]. rewrite go_command_read_eq, Hc by done. exact E.
  - rewrite read_command_eq by done. exact E.
  - rewrite write_command_eq, Hc by done. exact E.
  - rewrite read_control_eq by done. exact E.
  - rewrite write_control_eq, Hc by done. exact E.
Qed.

(** A data register whose CRC is not the one of its header and data is not
    acted upon, whichever of the seven kinds it is: nothing of the simulator
    changes (a WRITE_COMMAND also cancels the previous one), and the answer
    carries the CRC error. *)
Theorem bad_crc_refused jreg k (s : Sim) : s Jtag_instr = JI_DEBUG -> kind_of s jreg = Some k -> 0 <= s Jtag_size <= 2 ^ 16 ->
  frame_ok jreg (all_bits k (s Jtag_size)) -> crc_ok jreg (header_bits k (s Jtag_size)) = false ->
  exists jreg', jtag_shift_dr rnd jreg (all_bits k (s Jtag_size)) s = Ok jreg' (refused k s) /\
    answer jreg jreg' JS_CRC_IN_ERROR (if k is Go_read then 0 else 0xffffffff) (ign_bits k (s Jtag_size)) (zero_bits k (s Jtag_size)).
Proof. apply refused_answer. Qed.

(** Registers that differ in a burst. *)
Record burst (jreg jreg' : list Z) (off w : Z) : Prop := {
  bu_same : forall p, 0 <= p -> p < off \/ off + w <= p -> jbit jreg' p = jbit jreg p;
  bu_differ : exists p, off <= p < off + w /\ jbit jreg' p <> jbit jreg p }.

Lemma jbits_ext jreg jreg' off n : (forall p, off <= p < off + n -> jbit jreg' p = jbit jreg p) -> jbits jreg' off n = jbits jreg off n.
Proof. intros Hb. unfold jbits. apply map_ext_in. intros p Hp%list_elem_of_In%elem_of_seqZ. apply Hb. lia. Qed.
Lemma burst_bad jreg jreg' off w h : burst jreg jreg' off w -> 0 <= off -> 0 <= w <= 32 -> off + w <= h ->
  crc_ok jreg h = true -> crc_ok jreg' h = false.
Proof.
  intros [Hs (p & Hp & Hd)] Ho Hw Hh Hc. apply Z.eqb_eq in Hc. apply Z.eqb_neq. intros Hc'. apply Hd.
  rewrite (slice_ext jreg' jreg h h 32), <- Hc in Hc' by (try lia; intros; apply Hs; lia).
  unfold frame_crc in Hc'. replace h with (off + (w + (h - off - w))) in Hc' by lia.
  rewrite !(jbits_app _ 0 off), !(jbits_app _ (0 + off) w), !Z.add_0_l in Hc' by lia.
  rewrite (jbits_ext jreg jreg' 0 off), (jbits_ext jreg jreg' (off + w)) in Hc' by (intros; apply Hs; lia).
  apply crc_burst_bits in Hc'; [| by rewrite !length_jbits | rewrite length_jbits; lia | lia].
  pose proof (f_equal (fun l => nth (Z.to_nat (p - off)) l false) Hc') as E. cbv beta in E. rewrite !nth_jbits in E by lia.
  by replace (off + Z.of_nat (Z.to_nat (p - off))) with p in E by lia.
Qed.


(** A GO_COMMAND that is shorter than its header, CRC and answer: the number of
    bytes is computed in unsigned arithmetic, and is about 2^61. *)
Theorem go_write_short jreg num_bits (s : Sim) : s Jtag_instr = JI_DEBUG -> kind_of s jreg = Some Go_write -> 0 <= s Jtag_size <= 2 ^ 16 ->
  octets jreg -> 0 < jlen jreg < 2 ^ 60 -> 0 <= num_bits < 73 -> jtag_shift_dr rnd jreg num_bits s = Stop Undefined s.
Proof.
  intros Hi Hk Hn Ho Hl Hb. rewrite (jtag_shift_dr_eq _ _ Go_write) by (done || lia). cbn [run_kind].
  unfold go_command_write. rewrite bind_rd, (proj2 (go_length _ Hn)), (proj2 (Z.eqb_neq _ _)) by lia.
  assert (Eu : u64 (s Jtag_size * 8 + num_bits - (73 + 8 * s Jtag_size)) = 2 ^ 64 + (num_bits - 73)).
  { replace (s Jtag_size * 8 + num_bits - (73 + 8 * s Jtag_size)) with (num_bits - 73) by lia. unfold wrap. cbn [is_signed width].
    symmetry. apply (Z.mod_unique _ _ (-1)); lia. }
  rewrite Eu. pose proof (Z.div_mod (2 ^ 64 + (num_bits - 73)) 8 ltac:(lia)). pose proof (Z.mod_pos_bound (2 ^ 64 + (num_bits - 73)) 8 ltac:(lia)).
  unfold crc_in_5, bind, jget, in_jreg. fold (jlen jreg). set (q := (2 ^ 64 + (num_bits - 73)) / 8) in *.
  rewrite (proj2 (Z.ltb_ge (q + 0) (jlen jreg))), andb_false_r by lia. done.
Qed.
End Commands.

(** ** Registers that a client sends

    The header, its CRC, and [pad] bits that are ignored. *)

Fixpoint pack (bytes : nat) (l : list bool) : list Z :=
  match bytes with
  | O => []
  | S bytes => bits_value (rev (take 8 l)) :: pack bytes (drop 8 l)
  end.
Definition register (header : list bool) (pad : nat) : list Z :=
  let l := header ++ msb_bits (crc_bits header 0xffffffff) 32 ++ replicate pad false in
  pack ((length l + 7) / 8) l.
Definition command_bits (command : Z) : list bool := false :: msb_bits command 4.
Definition client_write_command (acc_type addr size : Z) : list Z :=
  register (command_bits JCMD_WRITE_COMMAND ++ msb_bits acc_type 4 ++ msb_bits addr 32 ++ msb_bits (size - 1) 16) 36.
Definition client_go_write (data : list Z) : list Z :=
  register (command_bits JCMD_GO_COMMAND ++ concat (map (fun b => msb_bits b 8) data)) 36.
Definition client_go_read (size : nat) : list Z := register (command_bits JCMD_GO_COMMAND) (36 + 8 * size).
Definition client_query (command : Z) : list Z := register (command_bits command) 88.
Definition client_write_control (data : Z) : list Z := register (command_bits JCMD_WRITE_CONTROL ++ msb_bits data 52) 36.

Lemma octets_by l : forallb (fun b => (0 <=? b) && (b <? 256)) l = true -> octets l.
Proof.
  rewrite forallb_forall. intros H. apply List.Forall_forall. intros b Hb. specialize (H b Hb). unfold octet. lia.
Qed.
Ltac frame_by := split; [apply octets_by; vm_compute; reflexivity | vm_compute; discriminate | vm_compute; reflexivity].

(** A debugger that has selected the processor, and one that has defined a
    write of two bytes. *)
Definition ex_jtag (module : Z) (s : Sim) : Sim := upd Jtag_mod_id module (upd Jtag_instr JI_DEBUG s).
Definition ex_write : Sim := upd Jtag_size 2 (upd Jtag_write_defined_p 1 (ex_jtag JM_WISHBONE zero_state)).
Definition no_random (mem : mem_config) (i : Z) : Z := 0.

(** The data 12 34 with the CRC of 12 35. *)
Definition ex_bad : list Z :=
  pack 12 (command_bits 0 ++ msb_bits 0x1234 16 ++ msb_bits (crc_bits (command_bits 0 ++ msb_bits 0x1235 16) 0xffffffff) 32).
Lemma bad_crc_refused_witness :
  exists a, jtag_shift_dr (H := no_devices) no_random ex_bad 89 ex_write = Ok a ex_write /\ slice a 53 4 = JS_CRC_IN_ERROR.
Proof.
  destruct (bad_crc_refused (H := no_devices) no_random ex_bad Go_write ex_write) as (a & E & A);
    [reflexivity | vm_compute; reflexivity | vm_compute; split; discriminate | frame_by | vm_compute; reflexivity |].
  exists a. split; [exact E|]. apply (an_status _ _ _ _ _ _ A). intros p Hp.
  change (0 + 37 + 8 * 2 <= p < 56) in Hp. assert (p = 53 \/ p = 54 \/ p = 55) as [->|[->| ->]] by lia; vm_compute; reflexivity.
Defined.

End JtagFrames.
