(* ===== verification/JtagMem.v ===== *)
(** * Memory, registers and the processor through the JTAG interface

    What the accepted registers do: a GO_COMMAND stores its data in memory or
    answers with what memory holds, a WRITE_CONTROL stalls and resets the
    processor. *)

From S2P Require Export Direct JtagFrames.
From S2P Require Import GdbMemory.

Module JtagMem.
Import Mem Ram Abstract Direct Debug Sprs Insnset Execute Toplevel Jtag JtagBits JtagFrames.

(** ** Writing *)

(** The [n] bytes at [a] have become those of [f]; nothing else has changed. *)
Record poured (s s' : Sim) (a n : Z) (f : Z -> Z) : Prop := {
  po_ram : forall x, is_ram s x -> ram_byte s' x = if (a <=? x) && (x <? a + n) then f (x - a) else ram_byte s x;
  po_cells : forall c, c <> G Mem_cycles -> c <> G Cur_vadd -> (forall b i, c <> Mem b i) -> s' c = s c;
  po_lists : dev_list s' = dev_list s /\ mc_area s' = mc_area s /\ blocks s' = blocks s;
  po_rest : job_queue s' = job_queue s /\ free_jobs s' = free_jobs s /\ reset_hooks s' = reset_hooks s /\
    out s' = out s /\ dbg s' = dbg s }.

Lemma poured_none s a f : poured s s a 0 f.
Proof.
  split; try done. intros x _. destruct (Z.leb_spec a x), (Z.ltb_spec x (a + 0)); try lia; done.
Qed.
Lemma poured_next s s1 s2 a n f v :
  0 <= n -> octet v -> f 0 = v -> stored_at s a 1 v s1 -> poured s1 s2 (a + 1) n (fun i => f (i + 1)) -> poured s s2 a (n + 1) f.
Proof.
  intros Hn Hv Hf (R1 & C1 & D1 & M1 & B1 & Q1 & F1 & H1 & O1 & G1) [R2 C2 (D2 & M2 & B2) (Q2 & F2 & H2 & O2 & G2)].
  split; [| intros c N1 N2 N3; by rewrite C2, C1 | split_and!; congruence | split_and!; congruence].
  intros x Hx. rewrite R2, R1 by (try done; by apply (lists_is_ram s)).
  destruct (Z.leb_spec (a + 1) x), (Z.ltb_spec x (a + 1 + n)), (Z.leb_spec a x), (Z.ltb_spec x (a + (n + 1))), (Z.ltb_spec x (a + 1));
    try lia; cbn [andb]; try done.
  - f_equal. lia.
  - replace (x - a) with 0 by lia. rewrite Hf. cbn. change (u8 v = v). apply wrap_small, inty_U8. exact Hv.
Qed.
Lemma poured_ok s s' a n f i :
  ram_ok s -> poured s s' a n f -> cur_area s' = Some i -> (i < length (dev_list s))%nat -> ram_ok s'.
Proof. intros Hok [_ _ (Hd & Hm & Hb) _] Hc Hi. apply (lists_ram_ok s); try done. intros j Hj. congruence. Qed.

Lemma stored_cur s k a n v s' : stored_at (set_cur_area k s) a n v s' -> stored_at s a n v s'.
Proof.
  intros (R & Hrest). split; [|exact Hrest]. intros x Hx. apply R. by apply (lists_is_ram s).
Qed.

Section Access.
Context `{Devices} (rnd : mem_config -> Z -> Z).

Lemma wishbone_write_run jreg n a : octets jreg -> n < jlen jreg -> 0 <= a -> a + n <= 2 ^ 32 ->
  forall fuel i (s : Sim), ram_ok s -> s Jtag_size = n -> s Jtag_addr = a -> 0 <= i <= n -> n - i <= Z.of_nat fuel ->
  (forall j, i <= j < n -> debug_ram s (a + j)) ->
  exists s', wishbone_write_from fuel jreg n i JS_OK s = Ok JS_OK s' /\
    poured s s' (a + i) (n - i) (fun j => slice jreg (5 + 8 * (i + j)) 8) /\ ram_ok s'.
Proof.
  intros Ho Hl Ha Hn. induction fuel as [|fuel IH]; intros i s Hok Es Ea Hi Hf Hd; cbn [wishbone_write_from];
    destruct (Z.ltb_spec i n); cbn [negb]; try lia.
  1, 3: exists s; split; [done|]; split; [replace (n - i) with 0 by lia; apply poured_none | done].
  unfold bind at 1. unfold wishbone_write_byte. unfold bind at 1, rd at 1. rewrite Es, (proj2 (Z.ltb_lt i n)) by lia.
  unfold bind at 1, rd at 1. rewrite Ea, u32_small by lia.
  destruct (eval_direct8_ram s (a + i) Hok (Hd i ltac:(lia))) as (k & Ev & _ & Hk). unfold bind at 1. rewrite Ev.
  set (s0 := set_cur_area (Some k) s). unfold data_byte.
  rewrite bind_assoc, bind_jget, bind_assoc, bind_jget by lia. unfold bind at 1, ret at 1. rewrite field_byte by (done || lia).
  assert (Hok0 : ram_ok s0) by (apply (lists_ram_ok s); try done; by intros j [= <-]).
  assert (Hd0 : forall j, i <= j < n -> debug_ram s0 (a + j)) by (intros j Hj; by apply (debug_ram_lists s); auto).
  destruct (set_program8_ram s0 (a + i) (slice jreg (5 + 8 * i) 8) Hok0) as (s1 & k1 & E1 & St & Hc1 & Hk1); [apply Hd0; lia|].
  unfold bind at 1. rewrite E1. unfold ret.
  assert (Hlists : dev_list s1 = dev_list s0 /\ blocks s1 = blocks s0) by apply St || (destruct St as (_ & _ & ? & _ & ? & _); done).
  destruct (IH (i + 1) s1) as (s' & E & P & Hok'); try lia.
  - by eapply stored_ok.
  - destruct St as (_ & C & _). by rewrite C.
  - destruct St as (_ & C & _). by rewrite C.
  - intros j Hj. destruct Hlists. apply (debug_ram_lists s0); [done | done | apply Hd0; lia].
  - exists s'. split; [exact E|]. split; [|exact Hok']. replace (n - i) with (n - (i + 1) + 1) by lia.
    apply stored_cur in St. apply (poured_next s s1 s' _ _ _ (slice jreg (5 + 8 * i) 8)); [lia | apply (slice_range _ _ 8); lia | do 2 f_equal; lia | exact St |].
    replace (a + i + 1) with (a + (i + 1)) by lia. destruct P. split; try done. intros x Hx. rewrite po_ram0 by done.
    destruct (_ && _); [|done]. do 2 f_equal. lia.
Qed.

Definition jtag_cell (c : cell) : Prop := c = Jtag_addr \/ c = Mem_cycles \/ c = Cur_vadd \/ exists b i, c = Mem b i.
(** A state in which a GO_COMMAND [jreg] transfers [n] bytes at [a] of memory. *)
Record go_ready (s : Sim) (jreg : list Z) (k : kind) (a n : Z) : Prop := {
  gr_ram : ram_ok s; gr_instr : s Jtag_instr = JI_DEBUG; gr_kind : kind_of s jreg = Some k;
  gr_module : s Jtag_mod_id = JM_WISHBONE; gr_addr : s Jtag_addr = a; gr_size : s Jtag_size = n;
  gr_range : 0 <= a /\ 0 <= n <= 2 ^ 16 /\ a + n <= 2 ^ 32; gr_frame : frame_ok jreg (73 + 8 * n);
  gr_crc : crc_ok jreg (header_bits k n) = true; gr_mem : forall i, 0 <= i < n -> debug_ram s (a + i) }.

Lemma go_write_run (s : Sim) jreg a n : go_ready s jreg Go_write a n ->
  exists jreg' s', jtag_shift_dr rnd jreg (73 + 8 * n) s = Ok jreg' s' /\ answer jreg jreg' JS_OK 0xffffffff 0 (37 + 8 * n) /\
    ram_ok s' /\ s' Jtag_addr = a + n /\ frame jtag_cell s s' /\ dev_list s' = dev_list s /\ blocks s' = blocks s /\
    forall x, is_ram s x -> ram_byte s' x = if (a <=? x) && (x <? a + n) then slice jreg (5 + 8 * (x - a)) 8 else ram_byte s x.
Proof.
  intros [Hok Hi Hk Hm Ha Hn (R1 & R2 & R3) Hfr Hc Hd]. pose proof Hfr as [Ho Hb Hl]. cbn [header_bits] in Hc.
  rewrite (jtag_shift_dr_eq rnd _ _ Go_write) by (done || lia). apply kind_header in Hk as [Hf [Hcmd _]]. cbn [run_kind].
  rewrite <- Hn in Hfr, Hc, R2, Hd |- *. rewrite go_command_write_eq, Hc by done.
  unfold bind at 1, bind at 1, rd at 1. rewrite Hm. change (switch JM_WISHBONE _ _) with (wishbone_write jreg (s Jtag_size) JS_OK).
  destruct (wishbone_write_run jreg n a Ho ltac:(lia) R1 R3 (length jreg) 0 s Hok Hn Ha) as (s1 & E & P & Hok1);
    [lia | unfold jlen in *; lia | rewrite <- Hn; exact Hd |]. rewrite Z.add_0_r, Z.sub_0_r in P.
  unfold wishbone_write. rewrite <- Hn in E. unfold bind at 1. rewrite E. change (JS_OK =? JS_OK) with true. cbn [when].
  unfold bind at 1, bind at 1, rd at 1, adds, bind at 1, rd at 1, wr, ret.
  set (s2 := upd Jtag_addr _ s1).
  assert (Es : s1 Jtag_size = n) by (rewrite (po_cells _ _ _ _ _ P); done).
  assert (Ea : s1 Jtag_addr = a) by (rewrite (po_cells _ _ _ _ _ P); done).
  destruct (construct_response_run jreg JS_OK 0xffffffff 0 (37 + 8 * n) s2) as (j & Ej & A); [done | lia | lia | lia | done | done |].
  assert (Hm2 : mem_rest s1 s2) by (apply mem_rest_upd; [done | by apply mem_rest_refl]).
  exists j, s2. rewrite Hn. split; [exact Ej|]. split; [exact A|]. destruct P as [Pr Pc (Pd & Pm & Pb) _].
  split_and!.
  - by apply (mem_rest_ok s1).
  - unfold s2. rewrite upd_eq, Es, Ea. cbn [ctype]. apply wrap_small, inty_U64. lia.
  - intros c Nc. unfold jtag_cell in Nc. unfold s2. rewrite upd_ne by (intros <-; tauto). apply Pc; [tauto | tauto |].
    intros b' i' ->. apply Nc. do 3 right. eauto.
  - done.
  - done.
  - intros x Hx. rewrite (mem_rest_byte s1 s2) by done. by apply Pr.
Qed.

(** ** Reading *)

Lemma clear_data_run jreg i s : octets jreg -> 0 <= i -> 4 + i + 1 < jlen jreg ->
  exists jreg', clear_data jreg i s = Ok jreg' s /\ jlen jreg' = jlen jreg /\ octets jreg' /\
    forall p, 0 <= p -> jbit jreg' p = if (37 + 8 * i <=? p) && (p <? 45 + 8 * i) then false else jbit jreg p.
Proof.
  intros Ho Hi Hl. unfold clear_data.
  rewrite !bind_jget, !bind_jput, !bind_jget, !bind_jput, !bind_jget, !bind_jput, !bind_jget by (rewrite ?jlen_set; lia).
  rewrite jput_run by (rewrite ?jlen_set; lia). eexists. split; [done|]. split; [by rewrite !jlen_set|].
  split; [by repeat apply octets_set|]. intros p Hp.
  rewrite !jbit_set by (rewrite ?jlen_set; lia). rewrite !jbyte_set by (rewrite ?jlen_set; lia).
  rewrite !Z.eqb_refl, !(proj2 (Z.eqb_neq (4 + i + 1) (4 + i))) by lia.
  pose proof (Z.div_mod p 8 ltac:(lia)). pose proof (Z.mod_pos_bound p 8 ltac:(lia)).
  assert (Hb : forall k, p / 8 = k -> Z.testbit (jbyte jreg k) (p mod 8) = jbit jreg p) by (intros k <-; done).
  destruct (Z.eqb_spec (p / 8) (4 + i + 1)); [|destruct (Z.eqb_spec (p / 8) (4 + i))].
  - rewrite Z.shiftl_spec by lia. destruct (Z.leb_spec (37 + 8 * i) p), (Z.ltb_spec p (45 + 8 * i)); cbn [andb]; try lia.
    + apply Z.testbit_neg_r. lia.
    + rewrite testbit_u8, Z.shiftr_spec by lia. rewrite <- (Hb (4 + i + 1)) by done. f_equal. lia.
  - rewrite Z.shiftr_spec by lia. destruct (Z.leb_spec (37 + 8 * i) p), (Z.ltb_spec p (45 + 8 * i)); cbn [andb]; try lia.
    + apply octet_out; [apply octet_u8 | lia].
    + rewrite testbit_u8, Z.shiftl_spec by lia. rewrite <- (Hb (4 + i)) by done. f_equal. lia.
  - destruct (Z.leb_spec (37 + 8 * i) p), (Z.ltb_spec p (45 + 8 * i)); cbn [andb]; try done. lia.
Qed.
Lemma put_data_run jreg i byte s : octets jreg -> octet byte -> 0 <= i -> 4 + i + 1 < jlen jreg ->
  exists jreg', put_data jreg i (reverse_byte byte) s = Ok jreg' s /\ jlen jreg' = jlen jreg /\ octets jreg' /\
    forall p, 0 <= p -> jbit jreg' p =
      if (37 + 8 * i <=? p) && (p <? 45 + 8 * i) then Z.testbit byte (7 - (p - (37 + 8 * i))) else jbit jreg p.
Proof.
  intros Ho Hy Hi Hl. destruct (clear_data_run jreg i s Ho Hi Hl) as (j & E & El & Hoj & Hb).
  unfold put_data, bind at 1. rewrite E, bind_jor by lia. unfold jor. rewrite bind_jget, jput_run by (rewrite ?jlen_set; lia).
  eexists. split; [done|]. split; [by rewrite !jlen_set|]. split; [by repeat apply octets_set|]. intros p Hp.
  rewrite !jbit_set by (rewrite ?jlen_set; lia). rewrite !jbyte_set by (rewrite ?jlen_set; lia).
  rewrite !(proj2 (Z.eqb_neq (4 + i + 1) (4 + i))) by lia.
  pose proof (Z.div_mod p 8 ltac:(lia)). pose proof (Z.mod_pos_bound p 8 ltac:(lia)).
  assert (Hj : forall k, p / 8 = k -> Z.testbit (jbyte j k) (p mod 8) = jbit j p) by (intros k <-; done).
  destruct (Z.eqb_spec (p / 8) (4 + i + 1)); [|destruct (Z.eqb_spec (p / 8) (4 + i))].
  - rewrite Z.lor_spec, testbit_255, Z.shiftr_spec, Hj, Hb, reverse_byte_spec by (done || lia).
    destruct (Z.leb_spec (37 + 8 * i) p), (Z.ltb_spec p (45 + 8 * i)); cbn [andb]; try lia.
    + rewrite orb_false_l. f_equal. lia.
    + rewrite (octet_out byte) by (done || lia). apply orb_false_r.
  - rewrite Z.lor_spec, testbit_255, Z.shiftl_spec, Hj, Hb by (done || lia).
    destruct (Z.leb_spec (37 + 8 * i) p), (Z.ltb_spec p (45 + 8 * i)); cbn [andb]; try lia.
    + rewrite orb_false_l, reverse_byte_spec by (done || lia). f_equal. lia.
    + rewrite (Z.testbit_neg_r (reverse_byte byte)) by lia. apply orb_false_r.
  - rewrite Hb by done. destruct (Z.leb_spec (37 + 8 * i) p), (Z.ltb_spec p (45 + 8 * i)); cbn [andb]; try done. lia.
Qed.

(** The data from byte [i] to byte [n] is that of [f], with its CRC. *)
Record filled (r r' : reading) (i n : Z) (f : Z -> Z) : Prop := {
  fi_len : jlen (r_jreg r') = jlen (r_jreg r); fi_octets : octets (r_jreg r'); fi_status : r_status r' = r_status r;
  fi_data : forall k, i <= k < n -> slice (r_jreg r') (37 + 8 * k) 8 = f k;
  fi_rest : forall p, 0 <= p -> p < 37 + 8 * i \/ 37 + 8 * n <= p -> jbit (r_jreg r') p = jbit (r_jreg r) p;
  fi_crc : r_crc r' = crc_bits (jbits (r_jreg r') (37 + 8 * i) (8 * (n - i))) (r_crc r) }.

Lemma filled_none r i f : octets (r_jreg r) -> filled r r i i f.
Proof. intros Ho. split; try done; [intros k Hk; lia|]. by rewrite Z.sub_diag. Qed.
Lemma filled_next r r1 r2 i n f : 0 <= i < n -> filled r r1 i (i + 1) f -> filled r1 r2 (i + 1) n f -> filled r r2 i n f.
Proof.
  intros Hi [L1 O1 S1 D1 R1 C1] [L2 O2 S2 D2 R2 C2]. split; try congruence.
  - intros k Hk. destruct (Z.eq_dec k i) as [->|]; [|apply D2; lia]. rewrite <- D1 by lia.
    apply slice_ext; [lia|]. intros j Hj. apply R2; lia.
  - intros p Hp Hr. rewrite R2, R1 by lia. done.
  - rewrite C2, C1, <- crc_bits_app. f_equal. replace (8 * (n - i)) with (8 * (i + 1 - i) + 8 * (n - (i + 1))) by lia.
    rewrite jbits_app by lia. f_equal; [symmetry; apply jbits_ext; intros p Hp; apply R2; lia | f_equal; lia].
Qed.
Lemma read_byte_run r i byte f s : octets (r_jreg r) -> octet byte -> 0 <= i -> 4 + i + 1 < jlen (r_jreg r) ->
  0 <= r_crc r < 2 ^ 32 -> f i = byte -> exists r', read_byte r i byte s = Ok r' s /\ filled r r' i (i + 1) f.
Proof.
  intros Ho Hy Hi Hl Hc Hf. destruct (put_data_run (r_jreg r) i byte s Ho Hy Hi Hl) as (j & E & El & Hoj & Hb).
  unfold read_byte, bind. rewrite E. eexists. split; [done|].
  assert (Es : slice j (37 + 8 * i) 8 = byte).
  { symmetry. apply slice_intro; [lia | done|]. intros k Hk. rewrite Hb by lia.
    destruct (Z.leb_spec (37 + 8 * i) (37 + 8 * i + (8 - 1 - k))), (Z.ltb_spec (37 + 8 * i + (8 - 1 - k)) (45 + 8 * i)); cbn [andb]; try lia.
    f_equal. lia. }
  split; cbn [r_jreg r_status r_crc]; try done.
  - intros k Hk. replace k with i by lia. by rewrite Es.
  - intros p Hp Hr. rewrite Hb by done. destruct (Z.leb_spec (37 + 8 * i) p), (Z.ltb_spec p (45 + 8 * i)); cbn [andb]; try done. lia.
  - replace (8 * (i + 1 - i)) with 8 by lia. by rewrite <- Es, crc32_slice by lia.
Qed.
Lemma filled_ready r r' i n f m : filled r r' i n f -> 0 <= r_crc r < 2 ^ 32 -> m < jlen (r_jreg r) ->
  octets (r_jreg r') /\ 0 <= r_crc r' < 2 ^ 32 /\ m < jlen (r_jreg r').
Proof. intros [L O _ _ _ C] Hc Hm. rewrite L, C. split_and!; try done; by apply crc_bits_range. Qed.

(** What reading memory changes. *)
Definition visited (s s' : Sim) : Prop := s' = s \/ exists k, s' = set_cur_area (Some k) s /\ (k < length (dev_list s))%nat.
Lemma visited_ok s s' : ram_ok s -> visited s s' ->
  ram_ok s' /\ dev_list s' = dev_list s /\ blocks s' = blocks s /\ (forall c, s' c = s c) /\ (forall x, ram_byte s' x = ram_byte s x).
Proof.
  intros Hok [->|(k & -> & Hk)]; [by split_and!|]. split; [|done]. apply (lists_ram_ok s); try done. by intros j [= <-].
Qed.

Lemma wishbone_read_run n a : 0 <= a -> a + n <= 2 ^ 32 ->
  forall fuel i r (s : Sim), ram_ok s -> typed s -> s Jtag_size = n -> s Jtag_addr = a -> 0 <= i <= n -> n - i <= Z.of_nat fuel ->
  (forall j, i <= j < n -> debug_ram s (a + j)) -> octets (r_jreg r) -> 0 <= r_crc r < 2 ^ 32 -> 5 + n <= jlen (r_jreg r) ->
  exists r' s', wishbone_read_from fuel n i r s = Ok r' s' /\ filled r r' i n (fun j => ram_byte s (a + j)) /\ visited s s'.
Proof.
  intros Ha Hn. induction fuel as [|fuel IH]; intros i r s Hok Hty Es Ea Hi Hf Hd Ho Hc Hl; cbn [wishbone_read_from];
    destruct (Z.ltb_spec i n); cbn [negb]; try lia.
  1, 3: exists r, s; replace n with i by lia; split; [done|]; split; [by apply filled_none | by left].
  unfold bind at 1, wishbone_byte. unfold bind at 1, rd at 1. rewrite Es, (proj2 (Z.ltb_lt i n)) by lia.
  unfold bind at 1, rd at 1. rewrite Ea, u32_small by lia.
  destruct (eval_direct8_ram s (a + i) Hok (Hd i ltac:(lia))) as (k & Ev & _ & Hk). unfold bind at 1. rewrite Ev.
  set (s0 := set_cur_area (Some k) s).
  assert (V0 : visited s s0) by (right; eauto). destruct (visited_ok s s0 Hok V0) as (Hok0 & Hd0 & Hb0 & _ & Hr0).
  destruct (eval_direct8_ram s0 (a + i) Hok0) as (k1 & _ & E1 & Hk1); [apply (debug_ram_lists s); auto with lia|].
  unfold bind at 1. rewrite E1, Hr0. set (s1 := set_cur_area (Some k1) s0).
  destruct (read_byte_run r i (ram_byte s (a + i)) (fun j => ram_byte s (a + j)) s1) as (r1 & Er & F1); try done; try lia.
  { by apply ram_byte_range. }
  rewrite Er. assert (V1 : visited s s1) by (right; exists k1; split; [done | by rewrite <- Hd0]).
  destruct (visited_ok s s1 Hok V1) as (Hok1 & Hd1 & Hb1 & Hc1 & Hr1).
  destruct (filled_ready _ _ _ _ _ (4 + n) F1 Hc ltac:(lia)) as (Ho1 & Hcr1 & Hl1).
  destruct (IH (i + 1) r1 s1) as (r2 & s2 & E2 & F2 & V2); try done; try lia.
  { intros j Hj. apply (debug_ram_lists s); auto with lia. }
  exists r2, s2. split; [exact E2|]. split.
  - apply (filled_next r r1); [lia | done|]. by destruct F2.
  - destruct V2 as [->|(k2 & -> & Hk2)]; [done|]. right. exists k2. split; [done|]. by rewrite Hd1 in Hk2.
Qed.

(** The data of [jreg'] are the [n] bytes of memory at [a]. *)
Definition holds_bytes (jreg' : list Z) (s : Sim) (a n : Z) : Prop :=
  forall i, 0 <= i < n -> slice jreg' (37 + 8 * i) 8 = ram_byte s (a + i).
(** The answer to a read is sealed: no error, and the CRC of data and status. *)
Definition sealed (jreg' : list Z) (n : Z) : Prop :=
  slice jreg' (37 + 8 * n) 4 = JS_OK /\ slice jreg' (41 + 8 * n) 32 = crc_bits (jbits jreg' 37 (8 * n + 4)) 0xffffffff.
Definition clean (jreg : list Z) (off n : Z) : Prop := forall p, off <= p < n -> jbit jreg p = false.

Lemma read_answer jreg jreg' r r' n f : filled r r' 0 n f -> r_jreg r = jreg -> r_crc r = 0xffffffff -> 0 <= n ->
  answer (r_jreg r') jreg' JS_OK (r_crc r') (8 * n) 37 ->
  (forall k, 0 <= k < n -> slice jreg' (37 + 8 * k) 8 = f k) /\ (clean jreg (37 + 8 * n) (73 + 8 * n) -> sealed jreg' n).
Proof.
  intros [L O S D R C] Ej Ec Hn [_ _ _ Ai _ As]. split.
  - intros k Hk. rewrite <- D by done. apply slice_ext; [lia|]. intros j Hj. apply Ai. lia.
  - intros Hcl. destruct As as [A1 A2].
    { intros p Hp. rewrite R, Ej by lia. apply Hcl.
      pose proof (Z.div_mod (8 * n + 37) 8). pose proof (Z.mod_pos_bound (8 * n + 37) 8). lia. }
    split; [by replace (37 + 8 * n) with (8 * n + 37) by lia|]. replace (41 + 8 * n) with (8 * n + 37 + 4) by lia.
    rewrite A2, C, Ec, jbits_app, crc_bits_app by lia. replace (37 + 8 * n) with (8 * n + 37) by lia. f_equal.
    rewrite Z.sub_0_r. change (37 + 8 * 0) with 37. f_equal. symmetry. apply jbits_ext. intros p Hp. apply Ai. lia.
Qed.

Lemma go_read_run (s : Sim) jreg a n : go_ready s jreg Go_read a n -> typed s ->
  exists jreg' s', jtag_shift_dr rnd jreg (73 + 8 * n) s = Ok jreg' s' /\ holds_bytes jreg' s a n /\
    (clean jreg (37 + 8 * n) (73 + 8 * n) -> sealed jreg' n) /\
    ram_ok s' /\ s' Jtag_addr = a + n /\ frame (eq (G Jtag_addr)) s s' /\ dev_list s' = dev_list s /\ blocks s' = blocks s /\
    forall x, ram_byte s' x = ram_byte s x.
Proof.
  intros [Hok Hi Hk Hm Ha Hn (R1 & R2 & R3) Hfr Hc Hd] Hty. pose proof Hfr as [Ho Hb Hl]. cbn [header_bits] in Hc.
  rewrite (jtag_shift_dr_eq rnd _ _ Go_read) by (done || lia). apply kind_header in Hk as [Hf [Hcmd _]]. cbn [run_kind].
  destruct (wishbone_read_run n a R1 R3 (length jreg) 0 (Reading jreg JS_OK 0xffffffff) s Hok Hty Hn Ha)
    as (r & s1 & E & F & V); cbn [r_jreg r_crc]; [lia | unfold jlen in *; lia | done | done | lia | lia |].
  destruct (filled_ready _ _ _ _ _ 0 F) as (Hor & Hcr & _); [cbn; lia | cbn; lia |]. pose proof (fi_len _ _ _ _ _ F) as Hlr. cbn [r_jreg] in Hlr.
  destruct (visited_ok s s1 Hok V) as (Hok1 & Hd1 & Hb1 & Hc1 & Hr1).
  rewrite <- Hn in Hfr, R2 |- *. rewrite go_command_read_eq, Hc by done. rewrite Hn in Hfr, R2 |- *.
  unfold bind at 1, bind at 1, rd at 1. rewrite Hm. change (switch JM_WISHBONE _ _) with (wishbone_read jreg n JS_OK).
  unfold wishbone_read. unfold bind at 1. rewrite E. rewrite (fi_status _ _ _ _ _ F). cbn [r_status].
  change (JS_OK =? JS_OK) with true. cbn [when]. unfold bind at 1, bind at 1, rd at 1, adds, bind at 1, rd at 1, wr, ret.
  set (s2 := upd Jtag_addr _ s1).
  destruct (construct_response_run (r_jreg r) JS_OK (r_crc r) (8 * n) 37 s2) as (j & Ej & A); [done | lia | lia | lia | done | done |].
  destruct (read_answer jreg j _ r n _ F) as [A1 A2]; try done; [lia|].
  assert (Hm2 : mem_rest s1 s2) by (apply mem_rest_upd; [done | by apply mem_rest_refl]).
  exists j, s2. split; [rewrite (fi_status _ _ _ _ _ F); exact Ej|]. split; [exact A1|]. split; [exact A2|].
  split; [by apply (mem_rest_ok s1)|]. split.
  { unfold s2. rewrite upd_eq, !Hc1, Hn, Ha. cbn [ctype]. apply wrap_small, inty_U64. lia. }
  split; [intros c Nc; unfold s2; rewrite upd_ne by done; apply Hc1|]. split; [exact Hd1|]. split; [exact Hb1|].
  intros x. by rewrite (mem_rest_byte s1 s2), Hr1.
Qed.

(** ** The command before the data *)

Definition wb_valid (acc_type addr size : Z) : Prop :=
  exists bytes, access_bytes acc_type = Some bytes /\ addr mod bytes = 0 /\ size mod bytes = 0.
Lemma validate_wb_ok acc_type addr size s : wb_valid acc_type addr size -> validate_wb_fields acc_type addr size s = Ok true s.
Proof. intros (b & E & Ha & Hs). unfold validate_wb_fields. rewrite E. change (default 1 (Some b)) with b. by rewrite Ha, Hs. Qed.

(** An intact WRITE_COMMAND for [n] bytes at [a], and an intact GO_COMMAND. *)
Record command_frame (jreg : list Z) (acc_type a n : Z) : Prop := {
  cf_frame : frame_ok jreg 125; cf_first : jbit jreg 0 = false; cf_command : slice jreg 1 4 = JCMD_WRITE_COMMAND;
  cf_acc : slice jreg 5 4 = acc_type; cf_addr : slice jreg 9 32 = a; cf_len : slice jreg 41 16 = n - 1;
  cf_crc : crc_ok jreg 57 = true }.
Record go_frame (jreg : list Z) (n header : Z) : Prop := {
  gf_frame : frame_ok jreg (73 + 8 * n); gf_first : jbit jreg 0 = false; gf_command : slice jreg 1 4 = JCMD_GO_COMMAND;
  gf_crc : crc_ok jreg header = true }.

Lemma command_range jreg acc_type a n : command_frame jreg acc_type a n -> 0 <= acc_type < 2 ^ 4 /\ 0 <= a < 2 ^ 32 /\ 0 < n <= 2 ^ 16.
Proof.
  intros [_ _ _ <- <- El _]. pose proof (slice_range jreg 5 4 ltac:(lia)). pose proof (slice_range jreg 9 32 ltac:(lia)).
  pose proof (slice_range jreg 41 16 ltac:(lia)). lia.
Qed.

Definition defined (acc_type a n : Z) (s : Sim) : Sim :=
  upd Jtag_size n (upd Jtag_addr a (upd Jtag_acc_type acc_type (upd Jtag_write_defined_p 1 s))).
Lemma command_run (s : Sim) jreg acc_type a n : s Jtag_instr = JI_DEBUG -> s Jtag_mod_id = JM_WISHBONE ->
  command_frame jreg acc_type a n -> wb_valid acc_type a n ->
  exists jreg', jtag_shift_dr rnd jreg 125 s = Ok jreg' (defined acc_type a n s) /\ answer jreg jreg' JS_OK 0xffffffff 0 89.
Proof.
  intros Hi Hm [Hfr Hf Hc Ea Ed El Hcrc] Hv. pose proof Hfr as [Ho Hb Hl].
  rewrite (jtag_shift_dr_eq rnd _ _ Write_command) by (first [done | lia | unfold kind_of; by rewrite Hf, Hc]). cbn [run_kind].
  rewrite write_command_eq, Hcrc, Ea, Ed, El by done. replace (n - 1 + 1) with n by lia.
  unfold bind at 1, bind at 1, accept_command. unfold bind at 1, rd at 1. rewrite Hm. cbn [switch existsb Z.eqb JM_WISHBONE orb].
  unfold bind at 1. rewrite validate_wb_ok by done. unfold define_write, bind at 1, bind at 1, bind at 1, wr, ret.
  destruct (construct_response_run jreg JS_OK 0xffffffff 0 89 (defined acc_type a n s)) as (j & E & A); [done | lia | lia | lia | done | done |].
  exists j. split; [exact E | exact A].
Qed.

Lemma defined_ready (s : Sim) jreg k acc_type a n :
  ram_ok s -> s Jtag_instr = JI_DEBUG -> s Jtag_mod_id = JM_WISHBONE -> 0 <= acc_type < 2 ^ 4 -> 0 <= a -> 0 < n <= 2 ^ 16 -> a + n <= 2 ^ 32 ->
  (k = Go_write /\ is_write acc_type = true \/ k = Go_read /\ is_write acc_type = false /\ is_read acc_type = true) ->
  go_frame jreg n (header_bits k n) -> (forall i, 0 <= i < n -> debug_ram s (a + i)) -> go_ready (defined acc_type a n s) jreg k a n.
Proof.
  intros Hok Hi Hm Hc Ha Hn Hr Hk [Hfr Hf Hcmd Hcrc] Hd. unfold defined.
  assert (E1 : u64 a = a) by (apply wrap_small, inty_U64; lia). assert (E2 : u64 n = n) by (apply wrap_small, inty_U64; lia).
  assert (E3 : u8 acc_type = acc_type) by (apply wrap_small, inty_U8; lia).
  split; try done; look; try done; try lia.
  - apply (mem_rest_ok s); [done|]. do 4 (apply mem_rest_upd; [done|]). by apply mem_rest_refl.
  - unfold kind_of. rewrite Hf, Hcmd. cbn [switch existsb Z.eqb JCMD_GO_COMMAND orb]. look. rewrite E3.
    change (nz (s32 1)) with true. cbn [negb]. destruct Hk as [[-> ->] | (-> & -> & ->)]; done.
  - intros i Hi'. apply (debug_ram_lists s); [done | done | by apply Hd].
Qed.

Lemma read_not_write acc_type : is_read acc_type = true -> is_write acc_type = false.
Proof.
  unfold is_read, is_write. cbn [existsb]. rewrite !orb_true_iff, !Z.eqb_eq.
  by intros [->|[->|[->|[=]]]].
Qed.
Lemma dr_typed jreg n (s s' : Sim) jreg' : jtag_shift_dr rnd jreg n s = Ok jreg' s' -> typed s -> typed s'.
Proof. intros E Hty. pose proof (jtag_shift_dr_typed rnd jreg n s Hty) as Ht. by rewrite E in Ht. Qed.

(** A transfer: the command, then the data. *)
Definition transfer (c d : list Z) (n : Z) : M (list Z) := jtag_shift_dr rnd c 125;; jtag_shift_dr rnd d (73 + 8 * n).

Lemma write_transfer (s : Sim) c d acc_type a n :
  ram_ok s -> s Jtag_instr = JI_DEBUG -> s Jtag_mod_id = JM_WISHBONE -> command_frame c acc_type a n -> wb_valid acc_type a n ->
  is_write acc_type = true -> go_frame d n (5 + 8 * n) -> a + n <= 2 ^ 32 -> (forall i, 0 <= i < n -> debug_ram s (a + i)) ->
  exists d' s', transfer c d n s = Ok d' s' /\ answer d d' JS_OK 0xffffffff 0 (37 + 8 * n) /\
    ram_ok s' /\ s' Jtag_instr = JI_DEBUG /\ s' Jtag_mod_id = JM_WISHBONE /\ dev_list s' = dev_list s /\ blocks s' = blocks s /\
    forall x, is_ram s x -> ram_byte s' x = if (a <=? x) && (x <? a + n) then slice d (5 + 8 * (x - a)) 8 else ram_byte s x.
Proof.
  intros Hok Hi Hm Hc Hv Hw Hd Hr Hdb. destruct (command_range _ _ _ _ Hc) as (R1 & R2 & R3).
  destruct (command_run s c acc_type a n Hi Hm Hc Hv) as (c' & E1 & _). unfold transfer, bind. rewrite E1.
  assert (Hg : go_ready (defined acc_type a n s) d Go_write a n) by (apply defined_ready; auto; lia).
  destruct (go_write_run _ _ _ _ Hg) as (d' & s' & E2 & A & Hok' & _ & Hf & Hd' & Hb' & Hx).
  exists d', s'. split; [exact E2|]. split; [exact A|]. split; [exact Hok'|]. destruct Hg.
  split; [by rewrite Hf by (intros [?|[?|[?|(?&?&?)]]]; discriminate)|].
  split; [by rewrite Hf by (intros [?|[?|[?|(?&?&?)]]]; discriminate)|]. split; [exact Hd'|]. split; [exact Hb'|].
  intros x Hx'. apply Hx. by apply (lists_is_ram s).
Qed.

Lemma read_transfer (s : Sim) c d acc_type a n :
  ram_ok s -> typed s -> s Jtag_instr = JI_DEBUG -> s Jtag_mod_id = JM_WISHBONE -> command_frame c acc_type a n -> wb_valid acc_type a n ->
  is_read acc_type = true -> go_frame d n 5 -> a + n <= 2 ^ 32 -> (forall i, 0 <= i < n -> debug_ram s (a + i)) ->
  exists d' s', transfer c d n s = Ok d' s' /\ holds_bytes d' s a n /\ (clean d (37 + 8 * n) (73 + 8 * n) -> sealed d' n) /\
    forall x, ram_byte s' x = ram_byte s x.
Proof.
  intros Hok Hty Hi Hm Hc Hv Hw Hd Hr Hdb. destruct (command_range _ _ _ _ Hc) as (R1 & R2 & R3).
  destruct (command_run s c acc_type a n Hi Hm Hc Hv) as (c' & E1 & _). unfold transfer, bind. rewrite E1.
  assert (Hg : go_ready (defined acc_type a n s) d Go_read a n).
  { apply defined_ready; auto; [lia|]. right. split; [done|]. split; [by apply read_not_write | done]. }
  destruct (go_read_run _ _ _ _ Hg) as (d' & s' & E2 & Hh & Hs & _ & _ & _ & _ & _ & Hx); [by eapply dr_typed|].
  exists d', s'. split; [exact E2|]. split; [exact Hh|]. split; [exact Hs | exact Hx].
Qed.

(** C28: what a debugger writes to memory through JTAG it reads back.  A
    WRITE_COMMAND for a write, a GO_COMMAND with [n] bytes, a WRITE_COMMAND for
    a read of the same bytes and a GO_COMMAND, all intact: the last answer holds
    the data of the first, a status without error and the CRC of both, and the
    other bytes of memory are what they were. *)
Theorem jtag_memory_roundtrip (s : Sim) c1 d1 c2 d2 w r a n :
  ram_ok s -> typed s -> s Jtag_instr = JI_DEBUG -> s Jtag_mod_id = JM_WISHBONE ->
  command_frame c1 w a n -> wb_valid w a n -> is_write w = true -> go_frame d1 n (5 + 8 * n) ->
  command_frame c2 r a n -> wb_valid r a n -> is_read r = true -> go_frame d2 n 5 ->
  a + n <= 2 ^ 32 -> (forall i, 0 <= i < n -> debug_ram s (a + i)) ->
  exists d' s', (transfer c1 d1 n;; transfer c2 d2 n) s = Ok d' s' /\
    (forall i, 0 <= i < n -> slice d' (37 + 8 * i) 8 = slice d1 (5 + 8 * i) 8) /\
    (clean d2 (37 + 8 * n) (73 + 8 * n) -> sealed d' n) /\
    forall x, is_ram s x -> x < a \/ a + n <= x -> ram_byte s' x = ram_byte s x.
Proof.
  intros Hok Hty Hi Hm Hc1 Hv1 Hw Hd1 Hc2 Hv2 Hr Hd2 Hl Hdb.
  destruct (write_transfer s c1 d1 w a n) as (d1' & s1 & E1 & _ & Hok1 & Hi1 & Hm1 & Hdv & Hbl & Hx1); [done..|].
  assert (Hty1 : typed s1).
  { assert (Ht : Respects keeps_typed (transfer c1 d1 n)) by (unfold transfer; respects). specialize (Ht s Hty). by rewrite E1 in Ht. }
  destruct (read_transfer s1 c2 d2 r a n) as (d2' & s2 & E2 & Hh & Hs & Hx2); try done.
  { intros i Hi'. apply (debug_ram_lists s); auto. }
  unfold bind at 1. rewrite E1. exists d2', s2. split; [exact E2|]. split; [|split; [exact Hs|]].
  - intros i Hi'. rewrite Hh, Hx1 by (try done; destruct (Hdb i Hi') as (k & ar & b & Hin & _); by exists k, ar, b).
    destruct (Z.leb_spec a (a + i)), (Z.ltb_spec (a + i) (a + n)); try lia. cbn [andb]. do 2 f_equal. lia.
  - intros x Hx Ho. rewrite Hx2, Hx1 by done. destruct (Z.leb_spec a x), (Z.ltb_spec x (a + n)); try lia; done.
Qed.
End Access.

(** ** Witness *)

Ltac sent := split; [frame_by | vm_compute; reflexivity ..].
Lemma ex_jtag_memory m s : ram_ok s -> typed s ->
  ram_ok (ex_jtag m s) /\ typed (ex_jtag m s) /\ forall a, debug_ram s a -> debug_ram (ex_jtag m s) a.
Proof.
  intros Hok Hty. split; [|split].
  - apply (mem_rest_ok s); [done|]. do 2 (apply mem_rest_upd; [done|]). by apply mem_rest_refl.
  - by apply upd_typed, upd_typed.
  - intros a. by apply debug_ram_lists.
Qed.
Lemma jtag_memory_roundtrip_witness :
  exists d' s', (transfer (H := no_devices) no_random (client_write_command JAT_WRITE8 0x40 3) (client_go_write [0xde; 0xad; 0x42]) 3;;
      transfer (H := no_devices) no_random (client_write_command JAT_READ8 0x40 3) (client_go_read 3) 3)
    (ex_jtag JM_WISHBONE (GdbMemory.ex_gdb [])) = Ok d' s' /\ slice d' 53 8 = 0x42 /\ sealed d' 3.
Proof.
  destruct (ex_jtag_memory JM_WISHBONE (GdbMemory.ex_gdb []) (GdbMemory.ex_gdb_ram []) (GdbMemory.ex_gdb_typed [])) as (Hok & Hty & Hd).
  destruct (jtag_memory_roundtrip (H := no_devices) no_random (ex_jtag JM_WISHBONE (GdbMemory.ex_gdb []))
    (client_write_command JAT_WRITE8 0x40 3) (client_go_write [0xde; 0xad; 0x42])
    (client_write_command JAT_READ8 0x40 3) (client_go_read 3) JAT_WRITE8 JAT_READ8 0x40 3) as (d' & s' & E & Hb & Hs & _).
  - exact Hok.
  - exact Hty.
  - vm_compute. reflexivity.
  - vm_compute. reflexivity.
  - sent.
  - exists 1. split_and!; vm_compute; reflexivity.
  - reflexivity.
  - sent.
  - sent.
  - exists 1. split_and!; vm_compute; reflexivity.
  - reflexivity.
  - sent.
  - vm_compute. discriminate.
  - intros i Hi. apply Hd, GdbMemory.ex_gdb_debug. lia.
  - exists d', s'. split; [exact E|]. split; [exact (Hb 2 ltac:(lia))|]. apply Hs. intros p Hp.
    assert (Hall : forallb (fun p => negb (jbit (client_go_read 3) p)) (seqZ 61 36) = true) by (vm_compute; reflexivity).
    apply negb_true_iff. refine (forallb_seqZ _ 61 36 p Hall _). lia.
Defined.
End JtagMem.
