(* ===== verification/JtagSpr.v ===== *)
(** * Special purpose registers through the JTAG interface

    A GO_COMMAND with the processor as its module transfers one register, its
    least significant byte first. *)

From S2P Require Export JtagMem.

Module JtagSpr.
Import Mem Ram Abstract Direct Debug Except Spr Sprs Insnset Execute Toplevel Jtag JtagBits JtagFrames JtagMem.

(** ** Special purpose registers *)

(** The value of four bytes of data: the first is the least significant. *)
Definition spr_value (jreg : list Z) : Z :=
  Z.lor (Z.lor (Z.lor (slice jreg 5 8) (Z.shiftl (slice jreg 13 8) 8)) (Z.shiftl (slice jreg 21 8) 16)) (Z.shiftl (slice jreg 29 8) 24).
Lemma shiftl_octet b k : octet b -> 0 <= k <= 24 -> 0 <= Z.shiftl b k < 2 ^ 32.
Proof.
  unfold octet. intros Hb Hk. rewrite Z.shiftl_mul_pow2 by lia. pose proof (Z.pow_le_mono_r 2 k 24 ltac:(lia) ltac:(lia)).
  pose proof (Z.pow_pos_nonneg 2 k). nia.
Qed.
Lemma slice_octet jreg off : octet (slice jreg off 8).
Proof. apply (slice_range jreg off 8). lia. Qed.
Lemma spr_value_range jreg : 0 <= spr_value jreg < 2 ^ 32.
Proof.
  unfold spr_value. pose proof (slice_octet jreg 5) as H5. unfold octet in H5.
  repeat apply lor_range; try lia; apply shiftl_octet; (lia || apply slice_octet).
Qed.
Lemma spr_value_byte jreg i : 0 <= i < 4 -> Z.land (Z.shiftr (spr_value jreg) (8 * i)) 0xff = slice jreg (5 + 8 * i) 8.
Proof.
  intros Hi. apply Z.bits_inj'. intros k Hk. destruct (Z.lt_ge_cases k 8); cycle 1.
  { rewrite Z.land_spec, (testbit_above 8 0xff), andb_false_r, (testbit_above 8) by (try lia; apply slice_octet). done. }
  rewrite testbit_255, Z.shiftr_spec by lia. unfold spr_value. rewrite !Z.lor_spec, !Z.shiftl_spec by lia.
  assert (i = 0 \/ i = 1 \/ i = 2 \/ i = 3) as [->|[->|[->| ->]]] by lia;
    repeat match goal with |- context [Z.testbit (slice jreg ?o 8) ?j] => rewrite (octet_out (slice jreg o 8) j) by (apply slice_octet || lia) end;
    rewrite ?orb_false_r, ?orb_false_l; f_equal; lia.
Qed.

Lemma data_byte_run jreg i (s : Sim) : octets jreg -> 0 <= i -> i + 1 < jlen jreg -> data_byte jreg i s = Ok (slice jreg (5 + 8 * i) 8) s.
Proof. intros Ho Hi Hl. unfold data_byte. rewrite !bind_jget, field_byte by (done || lia). done. Qed.
Lemma spr_bytes_run jreg (s : Sim) : octets jreg -> 5 <= jlen jreg -> spr_write_from (length jreg) jreg 4 0 0 s = Ok (spr_value jreg) s.
Proof.
  intros Ho Hl. assert (length jreg = S (S (S (S (length jreg - 4))))) as -> by (unfold jlen in Hl; lia).
  assert (Hs : forall fuel i spr, 0 <= i < 4 -> spr_write_from (S fuel) jreg 4 i spr s =
    spr_write_from fuel jreg 4 (i + 1) (Z.lor spr (u32 (Z.shiftl (slice jreg (5 + 8 * i) 8) (8 * i)))) s).
  { intros fuel i spr Hi. cbn [spr_write_from]. rewrite (proj2 (Z.ltb_lt i 4)) by lia. cbn [negb].
    rewrite bind_assoc. unfold bind at 1. rewrite data_byte_run, bind_ret by (done || lia). done. }
  rewrite !Hs by lia. assert (Hz : forall fuel spr, spr_write_from fuel jreg 4 (0 + 1 + 1 + 1 + 1) spr s = Ok spr s) by (by intros []).
  rewrite Hz. f_equal. rewrite Z.lor_0_l. unfold spr_value. cbn [Z.add Z.mul Pos.add Pos.mul Pos.succ Pos.add_carry].
  rewrite !u32_small by (apply shiftl_octet; [apply slice_octet | lia]). by rewrite Z.shiftl_0_r.
Qed.
Lemma spr_read_run spr n fuel i r (s : Sim) : 0 <= i <= n -> n - i <= Z.of_nat fuel -> octets (r_jreg r) -> 0 <= r_crc r < 2 ^ 32 ->
  5 + n <= jlen (r_jreg r) -> exists r', spr_read_from fuel spr n i r s = Ok r' s /\
    filled r r' i n (fun k => if k <? 4 then Z.land (Z.shiftr spr (8 * k)) 0xff else 0).
Proof.
  revert i r. induction fuel as [|fuel IH]; intros i r Hi Hf Ho Hc Hl; cbn [spr_read_from];
    destruct (Z.ltb_spec i n); cbn [negb]; try lia.
  1, 3: exists r; replace n with i by lia; split; [done | by apply filled_none].
  destruct (read_byte_run r i (if i <? 4 then Z.land (Z.shiftr spr (8 * i)) 0xff else 0)
    (fun k => if k <? 4 then Z.land (Z.shiftr spr (8 * k)) 0xff else 0) s) as (r1 & E1 & F1); try done; try lia.
  { unfold octet. destruct (i <? 4); [|lia]. apply (land_range_r 8); lia. }
  unfold bind. rewrite E1. destruct (filled_ready _ _ _ _ _ (4 + n) F1 Hc ltac:(lia)) as (Ho1 & Hc1 & Hl1).
  destruct (IH (i + 1) r1) as (r2 & E2 & F2); [lia | lia | done | done | lia |].
  exists r2. split; [exact E2|]. apply (filled_next r r1); [lia | done | done].
Qed.

Section Registers.
Context `{Devices} (rnd : mem_config -> Z -> Z).

(** ** Registers *)

Definition spr_valid (acc_type : Z) : bool := (acc_type =? JAT_WRITE32) || (acc_type =? JAT_READ32).
Lemma spr_command_run (s : Sim) c acc a : s Jtag_instr = JI_DEBUG -> s Jtag_mod_id = JM_CPU0 -> command_frame c acc a 4 ->
  spr_valid acc = true -> a < MAX_SPRS ->
  exists c', jtag_shift_dr rnd c 125 s = Ok c' (defined acc a 4 s).
Proof.
  intros Hi Hm Hc Hv Ha. destruct (command_range _ _ _ _ Hc) as (_ & Ha0 & _). destruct Hc as [Hfr Hf Hcmd Ea Ed El Hcrc]. pose proof Hfr as [Ho Hb Hl].
  rewrite (jtag_shift_dr_eq rnd _ _ Write_command) by (first [done | lia | unfold kind_of; by rewrite Hf, Hcmd]). cbn [run_kind].
  rewrite write_command_eq, Hcrc, Ea, Ed, El, bind_assoc by done.
  assert (E : accept_command acc a (4 - 1 + 1) s = Ok tt (defined acc a 4 s)).
  { unfold accept_command. rewrite bind_rd, Hm. unfold spr_valid in Hv.
    change (switch JM_CPU0 _ _) with (valid ← validate_spr_fields acc a 4; if valid then define_write acc (a mod MAX_SPRS) 4 else wr Jtag_write_defined_p 0).
    unfold bind, validate_spr_fields. rewrite Hv, (proj2 (Z.leb_gt MAX_SPRS a)), Z.mod_small by lia. done. }
  unfold bind at 1. rewrite E, bind_ret.
  destruct (construct_response_run c JS_OK 0xffffffff 0 89 (defined acc a 4 s)) as (j & Ej & _); [done | lia | lia | lia | done | done |].
  by exists j.
Qed.

(** The state after [mtspr] on the link of a general purpose register. *)
Definition linked_write (r v : Z) (s : Sim) : Sim := upd (GPR r) v (upd (SPR (0x400 + r)) v s).
Lemma is_link r : 0 <= r < 32 -> u16 (0x400 + r) = 0x400 + r /\ is_gpr (0x400 + r) = true /\ is_dtlb (0x400 + r) = false /\ is_itlb (0x400 + r) = false /\
  forallb (fun x => negb (0x400 + r =? x)) [SPR_TTCR; SPR_TTMR; SPR_DCBPR; SPR_DCBFR; SPR_DCBIR; SPR_DCBWR; SPR_DCBLR; SPR_ICBPR; SPR_ICBIR;
    SPR_ICBLR; SPR_SR; SPR_NPC; SPR_PICSR; SPR_PICMR; SPR_PMR; SPR_FPCSR] = true.
Proof.
  intros Hr. assert (Hf : forall f : Z -> bool, forallb f (seqZ 0x400 32) = true -> f (0x400 + r) = true).
  { intros f E. apply (forallb_seqZ f 0x400 32); [done | lia]. }
  split_and!; [apply wrap_small, inty_U16; lia | by apply Hf | apply negb_true_iff; by apply (Hf (fun x => negb (is_dtlb x))) |
    apply negb_true_iff; by apply (Hf (fun x => negb (is_itlb x))) | by apply (Hf (fun y => forallb (fun x => negb (y =? x)) _))].
Qed.
Ltac no_label H :=
  cbn [existsb switch]; rewrite ?orb_false_r;
  repeat match goal with |- context [?a =? ?x] =>
    rewrite (proj1 (negb_true_iff (a =? x)) (proj1 (forallb_forall _ _) H x ltac:(cbn; tauto))) end; cbv iota.
Lemma mtspr_link r v (s : Sim) : 0 <= r < 32 -> 0 <= v < 2 ^ 32 -> mtspr (0x400 + r) v s = Ok tt (linked_write r v s).
Proof.
  intros Hr Hv. destruct (is_link r Hr) as (E & Eg & Ed & Ei & Hl). unfold mtspr. rewrite E, (u32_small v) by done. no_label Hl. rewrite Ed, Ei, Eg. replace (0x400 + r - 0x400) with r by lia. done.
Qed.
Lemma mfspr_link r (s : Sim) : 0 <= r < 32 -> mfspr (0x400 + r) s = Ok (s (GPR r)) s.
Proof.
  intros Hr. destruct (is_link r Hr) as (E & Eg & Ed & Ei & Hl). unfold mfspr. rewrite E.
  unfold bind at 1, rd at 1. no_label Hl. rewrite Eg. replace (0x400 + r - 0x400) with r by lia. done.
Qed.


Lemma kind_defined acc a n (s : Sim) d h : 0 <= acc < 2 ^ 4 -> go_frame d n h ->
  kind_of (defined acc a n s) d = if is_write acc then Some Go_write else if is_read acc then Some Go_read else None.
Proof.
  intros Hc [_ Hf Hcmd _]. unfold kind_of. rewrite Hf, Hcmd. cbn [switch existsb Z.eqb JCMD_GO_COMMAND orb]. unfold defined. look.
  change (nz (s32 1)) with true. by replace (u8 acc) with acc by (symmetry; apply wrap_small, inty_U8; lia).
Qed.
Lemma defined_size acc a n s : 0 <= n < 2 ^ 64 -> defined acc a n s Jtag_size = n.
Proof. intros Hn. unfold defined. look. by apply wrap_small, inty_U64. Qed.
Lemma defined_addr acc a n s : 0 <= a < 2 ^ 64 -> defined acc a n s Jtag_addr = a.
Proof. intros Hn. unfold defined. look. by apply wrap_small, inty_U64. Qed.

Lemma spr_write_run (s s1 : Sim) c d acc a : s Jtag_instr = JI_DEBUG -> s Jtag_mod_id = JM_CPU0 -> command_frame c acc a 4 ->
  spr_valid acc = true -> is_write acc = true -> a < MAX_SPRS -> go_frame d 4 37 ->
  mtspr a (spr_value d) (defined acc a 4 s) = Ok tt s1 ->
  exists d', transfer rnd c d 4 s = Ok d' (upd Jtag_addr (s1 Jtag_addr + 1) s1) /\ answer d d' JS_OK 0xffffffff 0 69.
Proof.
  intros Hi Hm Hc Hv Hw Ha Hd Em. destruct (command_range _ _ _ _ Hc) as (R1 & R2 & _). change MAX_SPRS with 65536 in Ha.
  destruct (spr_command_run s c acc a Hi Hm Hc Hv Ha) as (c' & E1). unfold transfer, bind at 1. rewrite E1.
  pose proof (kind_defined acc a 4 s d 37 R1 Hd) as Hk. rewrite Hw in Hk. destruct Hd as [Hfr Hf Hcmd Hcrc]. pose proof Hfr as [Ho Hb Hl].
  set (t := defined acc a 4 s) in *. assert (Es : t Jtag_size = 4) by (by apply defined_size). assert (Ea : t Jtag_addr = a) by (apply defined_addr; lia).
  rewrite (jtag_shift_dr_eq rnd _ _ Go_write) by first [done | lia]. cbn [run_kind].
  change 4 with (4 : Z). rewrite <- Es. rewrite go_command_write_eq, Es by (rewrite ?Es; done || lia).
  change (5 + 8 * 4) with 37. rewrite Hcrc. rewrite bind_assoc, bind_rd. change (t Jtag_mod_id) with (s Jtag_mod_id). rewrite Hm.
  change (switch JM_CPU0 _ _) with (spr_write d 4 JS_OK). unfold spr_write. rewrite bind_assoc. unfold bind at 1. rewrite spr_bytes_run by (done || lia).
  rewrite bind_assoc, bind_rd, Ea. replace (u16 a) with a by (symmetry; apply wrap_small, inty_U16; lia).
  rewrite bind_assoc. unfold bind at 1. rewrite Em. change (JS_OK =? JS_OK) with true. cbn [when].
  unfold adds. rewrite !bind_assoc, bind_rd. unfold bind at 1, wr at 1. rewrite bind_ret.
  apply (construct_response_run d JS_OK 0xffffffff 0 69); done || lia.
Qed.

Lemma spr_read_transfer (s s1 : Sim) c d acc a v : s Jtag_instr = JI_DEBUG -> s Jtag_mod_id = JM_CPU0 -> command_frame c acc a 4 ->
  spr_valid acc = true -> is_read acc = true -> a < MAX_SPRS -> go_frame d 4 5 ->
  mfspr a (defined acc a 4 s) = Ok v s1 -> 0 <= v < 2 ^ 32 ->
  exists d', transfer rnd c d 4 s = Ok d' (upd Jtag_addr (s1 Jtag_addr + 1) s1) /\
    (forall i, 0 <= i < 4 -> slice d' (37 + 8 * i) 8 = Z.land (Z.shiftr v (8 * i)) 0xff) /\ (clean d 69 105 -> sealed d' 4).
Proof.
  intros Hi Hm Hc Hv Hw Ha Hd Em Hvr. destruct (command_range _ _ _ _ Hc) as (R1 & R2 & _). change MAX_SPRS with 65536 in Ha.
  destruct (spr_command_run s c acc a Hi Hm Hc Hv Ha) as (c' & E1). unfold transfer, bind at 1. rewrite E1.
  pose proof (kind_defined acc a 4 s d 5 R1 Hd) as Hk. rewrite Hw, read_not_write in Hk by done. destruct Hd as [Hfr Hf Hcmd Hcrc]. pose proof Hfr as [Ho Hb Hl].
  set (t := defined acc a 4 s) in *. assert (Es : t Jtag_size = 4) by (by apply defined_size). assert (Ea : t Jtag_addr = a) by (apply defined_addr; lia).
  rewrite (jtag_shift_dr_eq rnd _ _ Go_read) by first [done | lia]. cbn [run_kind].
  rewrite <- Es. rewrite go_command_read_eq, Es, Hcrc by (rewrite ?Es; done || lia).
  rewrite bind_assoc, bind_rd. change (t Jtag_mod_id) with (s Jtag_mod_id). rewrite Hm.
  change (switch JM_CPU0 _ _) with (spr_read d 4 JS_OK). unfold spr_read. rewrite bind_assoc, bind_rd, Ea.
  replace (u16 a) with a by (symmetry; apply wrap_small, inty_U16; lia). rewrite bind_assoc. unfold bind at 1. rewrite Em, (u32_small v) by done.
  destruct (spr_read_run v 4 (length d) 0 (Reading d JS_OK 0xffffffff) s1) as (r & E & F); try done; try (unfold jlen in *; cbn; lia).
  rewrite bind_assoc. unfold bind at 1. rewrite E. rewrite (fi_status _ _ _ _ _ F). cbn [r_status]. change (JS_OK =? JS_OK) with true. cbn [when].
  unfold adds. rewrite !bind_assoc, bind_rd. unfold bind at 1, wr at 1. rewrite bind_ret. rewrite (fi_status _ _ _ _ _ F). cbn [r_status].
  destruct (filled_ready _ _ _ _ _ 0 F) as (Hor & Hcr & _); [cbn; lia | cbn; lia |]. pose proof (fi_len _ _ _ _ _ F) as Hlr. cbn [r_jreg] in Hlr.
  destruct (construct_response_run (r_jreg r) JS_OK (r_crc r) (8 * 4) 37 (upd Jtag_addr (s1 Jtag_addr + 1) s1)) as (j & Ej & A); [done | lia | lia | lia | done | done |].
  destruct (read_answer d j _ r 4 _ F) as [A1 A2]; try done. exists j. split; [exact Ej|]. split; [|exact A2].
  intros i Hi'. rewrite A1, (proj2 (Z.ltb_lt i 4)) by lia. done.
Qed.

(** C29: a general purpose register that a debugger writes through JTAG reads
    back: the processor's register takes the four bytes of data, the first of
    them as its least significant byte, and a read answers with the same bytes,
    no error and the CRC of both. *)
Theorem jtag_gpr_roundtrip (s : Sim) c1 d1 c2 d2 r :
  s Jtag_instr = JI_DEBUG -> s Jtag_mod_id = JM_CPU0 -> 0 <= r < 32 ->
  command_frame c1 JAT_WRITE32 (0x400 + r) 4 -> go_frame d1 4 37 ->
  command_frame c2 JAT_READ32 (0x400 + r) 4 -> go_frame d2 4 5 ->
  exists d' s', (transfer rnd c1 d1 4;; transfer rnd c2 d2 4) s = Ok d' s' /\ s' (GPR r) = spr_value d1 /\
    (forall i, 0 <= i < 4 -> slice d' (37 + 8 * i) 8 = slice d1 (5 + 8 * i) 8) /\ (clean d2 69 105 -> sealed d' 4).
Proof.
  intros Hi Hm Hr Hc1 Hd1 Hc2 Hd2. pose proof (spr_value_range d1) as Hv.
  destruct (spr_write_run s _ c1 d1 _ _ Hi Hm Hc1 eq_refl eq_refl ltac:(unfold MAX_SPRS; lia) Hd1 (mtspr_link r _ _ Hr Hv)) as (d1' & E1 & _).
  set (s1 := upd Jtag_addr _ _) in E1.
  assert (Eg : s1 (GPR r) = spr_value d1) by (unfold s1, linked_write; look; by rewrite u32_small).
  destruct (spr_read_transfer s1 _ c2 d2 _ _ _ Hi Hm Hc2 eq_refl eq_refl ltac:(unfold MAX_SPRS; lia) Hd2 (mfspr_link r _ Hr)) as (d2' & E2 & H1 & H2).
  { change (defined JAT_READ32 (0x400 + r) 4 s1 (GPR r)) with (s1 (GPR r)). by rewrite Eg. }
  unfold bind. rewrite E1. eexists d2', _. split; [exact E2|]. split; [|split; [|exact H2]].
  - unfold defined. look. exact Eg.
  - intros i Hi'. rewrite H1 by done. change (defined JAT_READ32 (0x400 + r) 4 s1 (GPR r)) with (s1 (GPR r)). rewrite Eg. by apply spr_value_byte.
Qed.
End Registers.

(** ** Witness *)

Lemma jtag_gpr_roundtrip_witness :
  exists d' s', (transfer (H := no_devices) no_random (client_write_command JAT_WRITE32 0x403 4) (client_go_write [1; 2; 3; 4]) 4;;
      transfer (H := no_devices) no_random (client_write_command JAT_READ32 0x403 4) (client_go_read 4) 4) (ex_jtag JM_CPU0 zero_state) = Ok d' s' /\
    s' (GPR 3) = 0x04030201 /\ slice d' 37 8 = 1.
Proof.
  destruct (jtag_gpr_roundtrip (H := no_devices) no_random (ex_jtag JM_CPU0 zero_state)
    (client_write_command JAT_WRITE32 0x403 4) (client_go_write [1; 2; 3; 4])
    (client_write_command JAT_READ32 0x403 4) (client_go_read 4) 3) as (d' & s' & E & Hg & Hb & _);
    [vm_compute; reflexivity | vm_compute; reflexivity | lia | sent | sent | sent | sent |].
  exists d', s'. split; [exact E|]. split; [rewrite Hg; vm_compute; reflexivity | exact (Hb 0 ltac:(lia))].
Defined.
End JtagSpr.
