(* ===== verification/JtagControl.v ===== *)
(** * Reading back the command, special purpose registers and the stall bit *)

From S2P Require Export JtagMem.

Module JtagControl.
Import Mem Ram Abstract Direct Debug Except Sprs Insnset Execute Toplevel Jtag JtagBits JtagFrames JtagMem.

(** ** Fields that go out

    They are or-ed to the register, byte by byte. *)

Definition jor_at (jreg : list Z) (k v : Z) : list Z := jset jreg k (Z.lor (jbyte jreg k) v).
Lemma jlen_or jreg k v : jlen (jor_at jreg k v) = jlen jreg.
Proof. apply jlen_set. Qed.
Lemma octets_or jreg k v : octets jreg -> octets (jor_at jreg k v).
Proof. apply octets_set. Qed.
Lemma jbit_or jreg k v p : 0 <= k < jlen jreg -> 0 <= p ->
  jbit (jor_at jreg k v) p = jbit jreg p || ((p / 8 =? k) && Z.testbit v (p mod 8)).
Proof.
  intros Hk Hp. unfold jor_at. rewrite jbit_set by done. destruct (Z.eqb_spec (p / 8) k) as [<-|]; cbn [andb]; [|by rewrite orb_false_r].
  by rewrite Z.lor_spec.
Qed.
Lemma bind_or {A} jreg i v (f : list Z -> M A) (s : Sim) : 0 <= i < jlen jreg -> (x ← jor jreg i v; f x) s = f (jor_at jreg i v) s.
Proof. apply bind_jor. Qed.

Lemma out_hi5 v r : 0 <= r < 8 -> Z.testbit (Z.land (Z.shiftl v 5) 0xe0) r = Z.testbit v (r - 5).
Proof.
  intros Hr. rewrite Z.land_spec, Z.shiftl_spec by lia. destruct (Z.lt_ge_cases r 5); [by rewrite Z.testbit_neg_r by lia|].
  assert (Hm : Z.testbit 0xe0 r = true) by (assert (r = 5 \/ r = 6 \/ r = 7) as [->|[->| ->]] by lia; done). by rewrite Hm, andb_true_r.
Qed.
Lemma out_hi1 v r : 0 <= r < 8 -> Z.testbit (Z.land (Z.shiftl v 1) 0xfe) r = Z.testbit v (r - 1).
Proof.
  intros Hr. rewrite Z.land_spec, Z.shiftl_spec by lia. destruct (Z.lt_ge_cases r 1); [by rewrite Z.testbit_neg_r by lia|].
  assert (Hm : Z.testbit 0xfe r = true)
    by (assert (r = 1 \/ r = 2 \/ r = 3 \/ r = 4 \/ r = 5 \/ r = 6 \/ r = 7) as [->|[->|[->|[->|[->|[->| ->]]]]]] by lia; done).
  by rewrite Hm, andb_true_r.
Qed.
(** The last bit of a field of [k + 1] bits. *)
Lemma out_top v k r : 0 <= k -> 0 <= v < 2 ^ (k + 1) -> 0 <= r < 8 -> Z.testbit (Z.land (Z.shiftr v k) 0x01) r = Z.testbit v (r + k).
Proof.
  intros Hk Hv Hr. rewrite Z.land_spec, Z.shiftr_spec by lia. destruct (Z.eq_dec r 0) as [->|]; [by rewrite andb_true_r|].
  by rewrite (testbit_above (k + 1) v) by lia.
Qed.

(** ** READ_COMMAND *)

(** The register with the fields of the answer. *)
Definition command_out (jreg : list Z) (acc addr len : Z) : list Z :=
  let j := jor_at jreg 4 (Z.land (Z.shiftl acc 5) 0xe0) in
  let j := jor_at j 5 (Z.land (Z.shiftr acc 3) 0x01) in
  let j := jor_at j 5 (Z.land (u32 (Z.shiftl addr 1)) 0xfe) in
  let j := jor_at j 6 (Z.land (Z.shiftr addr 7) 0xff) in
  let j := jor_at j 7 (Z.land (Z.shiftr addr 15) 0xff) in
  let j := jor_at j 8 (Z.land (Z.shiftr addr 23) 0xff) in
  let j := jor_at j 9 (Z.land (Z.shiftr addr 31) 0x01) in
  let j := jor_at j 9 (Z.land (Z.shiftl len 1) 0xfe) in
  let j := jor_at j 10 (Z.land (Z.shiftr len 7) 0xff) in
  jor_at j 11 (Z.land (Z.shiftr len 15) 0x01).

Lemma mask_u32_fe v : Z.land (u32 v) 0xfe = Z.land v 0xfe.
Proof.
  apply Z.bits_inj'. intros i Hi. rewrite !Z.land_spec, testbit_u32 by lia. destruct (Z.ltb_spec i 32); [by rewrite andb_true_r|].
  by rewrite (testbit_above 32 0xfe), !andb_false_r by lia.
Qed.
Lemma command_out_bit jreg acc addr len p :
  12 <= jlen jreg -> 0 <= acc < 2 ^ 4 -> 0 <= addr < 2 ^ 32 -> 0 <= len < 2 ^ 16 -> 37 <= p < 125 ->
  jbit (command_out jreg acc addr len) p = jbit jreg p || Z.testbit acc (p - 37) || Z.testbit addr (p - 41) || Z.testbit len (p - 73).
Proof.
  intros Hl Hc Ha Hn Hp. unfold command_out. rewrite mask_u32_fe. rewrite !jbit_or by (rewrite ?jlen_or; lia).
  pose proof (Z.div_mod p 8 ltac:(lia)). pose proof (Z.mod_pos_bound p 8 ltac:(lia)).
  rewrite out_hi5, !out_hi1, (out_top acc 3), (out_top addr 31), (out_top len 15), !testbit_255, !Z.shiftr_spec by lia.
  assert (Eo : forall n v i, 0 <= v < 2 ^ n -> i < 0 \/ n <= i -> Z.testbit v i = false)
    by (intros n v i Hv [Hi|Hi]; [by apply Z.testbit_neg_r | by apply (testbit_above n)]).
  repeat match goal with |- context [p / 8 =? ?x] => destruct (Z.eqb_spec (p / 8) x) end; try lia; cbn [andb];
  repeat match goal with
  | |- context [Z.testbit acc ?i] => rewrite (Eo 4 acc i) by lia
  | |- context [Z.testbit addr ?i] => rewrite (Eo 32 addr i) by lia
  | |- context [Z.testbit len ?i] => rewrite (Eo 16 len i) by lia
  end; rewrite ?orb_false_r; repeat match goal with |- _ || _ = _ || _ => f_equal end; f_equal; lia.
Qed.
Lemma command_out_len jreg acc addr len : jlen (command_out jreg acc addr len) = jlen jreg.
Proof. unfold command_out. by rewrite !jlen_or. Qed.
Lemma command_out_octets jreg acc addr len : octets jreg -> octets (command_out jreg acc addr len).
Proof. intros Ho. unfold command_out. by repeat apply octets_or. Qed.

Lemma read_command_run jreg (s : Sim) acc a n : frame_ok jreg 125 -> jbit jreg 0 = false -> slice jreg 1 4 = JCMD_READ_COMMAND ->
  crc_ok jreg 5 = true -> s Jtag_write_defined_p = 1 -> s Jtag_acc_type = acc -> s Jtag_addr = a -> s Jtag_size = n ->
  0 <= acc < 2 ^ 4 -> 0 <= a < 2 ^ 32 -> 0 < n <= 2 ^ 16 ->
  read_command jreg 125 s =
  construct_response (command_out jreg (reverse_bits acc 4) (reverse_bits a 32) (reverse_bits (n - 1) 16)) JS_OK
    (crc32 (n - 1) 16 (crc32 a 32 (crc32 acc 4 0xffffffff))) 52 37 s.
Proof.
  intros [Ho Hb Hl] Hf Hcmd Hc Hd Hacc Ha Hn R1 R2 R3. unfold read_command. right_size. unfold bind at 1. rewrite crc_in_5_start by (done || lia).
  rewrite (debug_crc jreg) by done. rewrite (crc_good _ _ Hc), bind_isset, Hd. change (nz 1) with true. cbn [negb when].
  rewrite bind_ret, bind_rd, Hacc, bind_assoc, bind_rd, bind_ret, Ha, (u32_small a), bind_assoc, bind_rd, bind_ret, Hn by done.
  replace (u16 (n - 1)) with (n - 1) by (symmetry; apply wrap_small, inty_U16; lia).
  pose proof (reverse_bits_range acc 4 ltac:(lia)). pose proof (reverse_bits_range a 32 ltac:(lia)). pose proof (reverse_bits_range (n - 1) 16 ltac:(lia)).
  rewrite (u32_small (reverse_bits a 32)) by lia.
  replace (u8 (reverse_bits acc 4)) with (reverse_bits acc 4) by (symmetry; apply wrap_small, inty_U8; lia).
  replace (u16 (reverse_bits (n - 1) 16)) with (reverse_bits (n - 1) 16) by (symmetry; apply wrap_small, inty_U16; lia).
  rewrite !bind_or by (rewrite ?jlen_or; lia). unfold command_out. reflexivity.
Qed.

Section Control.
Context `{Devices} (rnd : mem_config -> Z -> Z).

(** An intact register that asks for an answer. *)
Record query_frame (jreg : list Z) (command : Z) : Prop := {
  qf_frame : frame_ok jreg 125; qf_first : jbit jreg 0 = false; qf_command : slice jreg 1 4 = command;
  qf_crc : crc_ok jreg 5 = true; qf_clean : clean jreg 37 125 }.

(** The answer to a query: 52 bits of data, no error, the CRC of both. *)
Definition query_answer (jreg' : list Z) (data : Z) : Prop :=
  slice jreg' 37 52 = data /\ slice jreg' 89 4 = JS_OK /\ slice jreg' 93 32 = crc_bits (jbits jreg' 37 56) 0xffffffff.

Lemma query_response jreg j data s : frame_ok j 125 -> clean jreg 37 125 -> 0 <= data < 2 ^ 52 ->
  (forall p, 37 <= p < 125 -> jbit j p = jbit jreg p || Z.testbit (reverse_bits data 52) (p - 37)) ->
  exists j', construct_response j JS_OK (crc32 data 52 0xffffffff) 52 37 s = Ok j' s /\ query_answer j' data.
Proof.
  intros [Ho Hb Hl] Hcl Hd Hj. pose proof (crc32_range data 52 0xffffffff ltac:(lia) ltac:(lia) ltac:(lia)) as Hc.
  destruct (construct_response_run j JS_OK (crc32 data 52 0xffffffff) 52 37 s) as (j' & E & [_ _ _ Ai _ As]); [done | lia | lia | lia | done | done |].
  exists j'. split; [exact E|].
  assert (E52 : slice j' 37 52 = data).
  { symmetry. apply slice_intro; [lia | done|]. intros k Hk. rewrite Ai, Hj, Hcl, orb_false_l, reverse_bits_spec by lia. f_equal. lia. }
  destruct As as [A1 A2].
  { intros p Hp. change (8 * ((52 + 37) / 8 + 1)) with 96 in Hp. rewrite Hj, Hcl, reverse_bits_spec by lia. apply Z.testbit_neg_r. lia. }
  split; [exact E52|]. split; [exact A1|]. change (52 + 37 + 4) with 93 in A2. change (52 + 37) with 89 in A2.
  rewrite A2, <- E52, crc32_slice, <- crc_bits_app by lia. change 56 with (52 + 4). by rewrite (jbits_app j' 37 52 4) by lia.
Qed.

(** The three fields as one number. *)
Lemma command_fields acc a len : 0 <= acc < 2 ^ 4 -> 0 <= a < 2 ^ 32 -> 0 <= len < 2 ^ 16 -> forall c,
  slice c 5 4 = acc -> slice c 9 32 = a -> slice c 41 16 = len ->
  crc32 len 16 (crc32 a 32 (crc32 acc 4 0xffffffff)) = crc32 (slice c 5 52) 52 0xffffffff /\
  forall i, Z.testbit (reverse_bits (slice c 5 52) 52) i =
    Z.testbit (reverse_bits acc 4) i || Z.testbit (reverse_bits a 32) (i - 4) || Z.testbit (reverse_bits len 16) (i - 36).
Proof.
  intros R1 R2 R3 c <- <- <-. split.
  - rewrite (crc32_slice c 5 4), (crc32_slice c 9 32), (crc32_slice c 41 16), (crc32_slice c 5 52)
      by first [lia | repeat apply crc_bits_range; lia].
    by rewrite <- !crc_bits_app.
  - intros i. destruct (Z.lt_ge_cases i 0); [by rewrite !Z.testbit_neg_r by lia|]. rewrite reverse_bits_spec by lia.
    assert (Ho : forall n m i, 0 <= n <= 64 -> i < 0 \/ n <= i -> Z.testbit (reverse_bits m n) i = false).
    { intros n m j Hn Hj. destruct (Z.lt_ge_cases j 0); [by apply Z.testbit_neg_r|]. apply (testbit_above n); [by apply reverse_bits_range | lia]. }
    assert (i < 4 \/ 4 <= i < 36 \/ 36 <= i < 52 \/ 52 <= i) as [?|[?|[?|?]]] by lia.
    + rewrite (Ho 32), (Ho 16), !orb_false_r, reverse_bits_spec, !slice_bit by lia. f_equal. lia.
    + rewrite (Ho 4), (Ho 16), orb_false_r, orb_false_l, reverse_bits_spec, !slice_bit by lia. f_equal. lia.
    + rewrite (Ho 4), (Ho 32), !orb_false_l, reverse_bits_spec, !slice_bit by lia. f_equal. lia.
    + rewrite (Ho 4), (Ho 32), (Ho 16) by lia. apply Z.testbit_neg_r. lia.
Qed.

(** What a WRITE_COMMAND sets, a READ_COMMAND answers: the 52 bits of access
    type, address and length come back as they were sent, with their CRC. *)
Theorem command_roundtrip (s : Sim) c q acc a n :
  s Jtag_instr = JI_DEBUG -> s Jtag_mod_id = JM_WISHBONE -> command_frame c acc a n -> wb_valid acc a n ->
  query_frame q JCMD_READ_COMMAND ->
  exists q', (jtag_shift_dr rnd c 125;; jtag_shift_dr rnd q 125) s = Ok q' (defined acc a n s) /\ query_answer q' (slice c 5 52).
Proof.
  intros Hi Hm Hc Hv [Hfr Hf Hcmd Hcrc Hcl]. destruct (command_range _ _ _ _ Hc) as (R1 & R2 & R3).
  destruct (command_run rnd s c acc a n Hi Hm Hc Hv) as (c' & E1 & _). unfold bind. rewrite E1. pose proof Hfr as [Ho Hb Hl].
  rewrite (jtag_shift_dr_eq rnd _ _ Read_command); [| done | lia | unfold defined; by look | unfold kind_of; by rewrite Hf, Hcmd].
  cbn [run_kind]. rewrite (read_command_run q _ acc a n); try done; try lia.
  2, 3, 4: unfold defined; look; apply wrap_small; first [apply inty_U8; lia | apply inty_U64; lia].
  destruct (command_fields acc a (n - 1) R1 R2 ltac:(lia) c) as [-> Hbit]; [apply Hc..|].
  apply (query_response q); [|done | by apply slice_range |].
  - split; [by apply command_out_octets | by rewrite command_out_len | by rewrite command_out_len].
  - intros p Hp. rewrite command_out_bit by first [lia | by apply reverse_bits_range].
    rewrite Hbit, !orb_assoc. by replace (p - 37 - 4) with (p - 41) by lia; replace (p - 37 - 36) with (p - 73) by lia.
Qed.

(** ** The control bits *)

Record control_frame (jreg : list Z) (data : Z) : Prop := {
  nf_frame : frame_ok jreg 125; nf_first : jbit jreg 0 = false; nf_command : slice jreg 1 4 = JCMD_WRITE_CONTROL;
  nf_data : slice jreg 5 52 = data; nf_crc : crc_ok jreg 57 = true }.

Lemma control_run (s s1 : Sim) c data : s Jtag_instr = JI_DEBUG -> control_frame c data -> accept_control rnd data s = Ok tt s1 ->
  exists c', jtag_shift_dr rnd c 125 s = Ok c' s1 /\ answer c c' JS_OK 0xffffffff 0 89.
Proof.
  intros Hi [Hfr Hf Hcmd Hd Hcrc] Ea. pose proof Hfr as [Ho Hb Hl].
  rewrite (jtag_shift_dr_eq rnd _ _ Write_control); [| done | lia | done | unfold kind_of; by rewrite Hf, Hcmd]. cbn [run_kind].
  rewrite write_control_eq, Hcrc, Hd by done. rewrite bind_assoc. unfold bind at 1. rewrite Ea, bind_ret.
  apply construct_response_run; done || lia.
Qed.

(** The register with the bit of [stalled], at its place among the reversed data. *)
Lemma read_control_run jreg (s : Sim) b : frame_ok jreg 125 -> jbit jreg 0 = false -> slice jreg 1 4 = JCMD_READ_CONTROL ->
  crc_ok jreg 5 = true -> s Jtag_mod_id = JM_CPU0 -> s Stalled = b2z b ->
  exists j, read_control jreg 125 s = construct_response j JS_OK (crc32 (if b then 2 ^ JCB_STALL else 0) 52 0xffffffff) 52 37 s /\
    frame_ok j 125 /\ forall p, 37 <= p < 125 -> jbit j p = jbit jreg p || Z.testbit (reverse_bits (if b then 2 ^ JCB_STALL else 0) 52) (p - 37).
Proof.
  intros [Ho Hb Hl] Hf Hcmd Hc Hm Hs. unfold read_control. right_size. unfold bind at 1. rewrite crc_in_5_start by (done || lia).
  rewrite (debug_crc jreg) by done. rewrite (crc_good _ _ Hc), bind_rd, Hm.
  change (switch JM_CPU0 _ _) with (stalled ← rd Stalled; ret (u64 (Z.shiftl (u64 stalled) JCB_STALL))).
  rewrite bind_assoc, bind_rd, bind_ret, Hs.
  replace (u64 (Z.shiftl (u64 (b2z b)) JCB_STALL)) with (if b then 2 ^ JCB_STALL else 0) by (by destruct b).
  set (data := if b then _ else _). rewrite !bind_or by (rewrite ?jlen_or; lia). eexists. split; [reflexivity|].
  split; [split; [by repeat apply octets_or | by rewrite !jlen_or | by rewrite !jlen_or]|].
  intros p Hp. rewrite !jbit_or by (rewrite ?jlen_or; lia).
  pose proof (Z.div_mod p 8 ltac:(lia)). pose proof (Z.mod_pos_bound p 8 ltac:(lia)).
  assert (E : reverse_bits data 52 = if b then 2 else 0) by (unfold data; by destruct b). rewrite E. rewrite <- !orb_assoc. f_equal.
  destruct b; [|rewrite ?Z.shiftr_0_l, ?Z.shiftl_0_l; change (u64 0) with 0; rewrite ?Z.land_0_l, ?Z.bits_0, ?andb_false_r; done].
  repeat match goal with |- context [Z.land (Z.shiftr 2 ?k) ?m] => change (Z.land (Z.shiftr 2 k) m) with 0 end.
  change (Z.land (u64 (Z.shiftl 2 5)) 0xf8) with (2 ^ 6). rewrite !Z.bits_0, !andb_false_r, !orb_false_r.
  replace (Z.testbit 2 (p - 37)) with (Z.testbit (2 ^ 1) (p - 37)) by done. rewrite !testbit_pow2 by lia.
  destruct (Z.eqb_spec (p / 8) 4), (Z.eqb_spec 6 (p mod 8)), (Z.eqb_spec 1 (p - 37)); cbn [andb]; done || lia.
Qed.

Lemma stall_run b (s : Sim) : exists s', set_stall_state (b2z b) s = Ok tt s' /\ s' Stalled = b2z b /\
  s' Jtag_instr = s Jtag_instr /\ s' Jtag_mod_id = s Jtag_mod_id.
Proof.
  apply (wp_unit (set_stall_state (b2z b)) (fun s' => s' Stalled = b2z b /\ s' Jtag_instr = s Jtag_instr /\ s' Jtag_mod_id = s Jtag_mod_id)).
  unfold set_stall_state. wps; rewrite ?s32_b2z; done.
Qed.

(** C30: stalling the processor: an intact WRITE_CONTROL for the processor sets
    its stall state to bit 50 of the data, unless bit 51 asks for a reset, and a
    READ_CONTROL then answers with that bit in its place, all others clear.  The
    CRC that the READ_CONTROL must carry is the one of its five header bits, and
    the one that the answer carries covers data and status, as in READ_COMMAND;
    the comment above [read_control] gives the numbers of WRITE_CONTROL, 57 and 4
    bits, instead. *)
Theorem stall_roundtrip (s : Sim) c q data :
  s Jtag_instr = JI_DEBUG -> s Jtag_mod_id = JM_CPU0 -> control_frame c data -> Z.testbit data JCB_RESET = false ->
  query_frame q JCMD_READ_CONTROL ->
  exists q' s', (jtag_shift_dr rnd c 125;; jtag_shift_dr rnd q 125) s = Ok q' s' /\
    set_stall_state (b2z (Z.testbit data JCB_STALL)) s = Ok tt s' /\ s' Stalled = b2z (Z.testbit data JCB_STALL) /\
    query_answer q' (if Z.testbit data JCB_STALL then 2 ^ JCB_STALL else 0).
Proof.
  intros Hi Hm Hc Hr [Hfr Hf Hcmd Hcrc Hcl]. destruct (stall_run (Z.testbit data JCB_STALL) s) as (s1 & E & Es & Ei & Em).
  destruct (control_run s s1 c data Hi Hc) as (c' & E1 & _).
  { unfold accept_control. rewrite bind_rd, Hm. change (switch JM_CPU0 _ _) with (if Z.testbit data JCB_RESET then sim_reset rnd else set_stall_state (b2z (Z.testbit data JCB_STALL))).
    by rewrite Hr. }
  unfold bind. rewrite E1. pose proof Hfr as [Ho Hb Hl].
  rewrite (jtag_shift_dr_eq rnd _ _ Read_control); [| done | lia | congruence | unfold kind_of; by rewrite Hf, Hcmd]. cbn [run_kind].
  destruct (read_control_run q s1 (Z.testbit data JCB_STALL)) as (j & -> & Hj & Hbit); try done; [congruence|].
  destruct (query_response q j (if Z.testbit data JCB_STALL then 2 ^ JCB_STALL else 0) s1) as (q' & E2 & Hq); try done.
  { destruct (Z.testbit data JCB_STALL); unfold JCB_STALL; lia. }
  exists q', s1. done.
Qed.

(** Resetting the processor: a WRITE_CONTROL whose bit 51 is set resets the
    simulator, whatever the stall bit says. *)
Theorem control_resets (s s1 : Sim) c data :
  s Jtag_instr = JI_DEBUG -> s Jtag_mod_id = JM_CPU0 -> control_frame c data -> Z.testbit data JCB_RESET = true ->
  sim_reset rnd s = Ok tt s1 ->
  exists c', jtag_shift_dr rnd c 125 s = Ok c' s1 /\ answer c c' JS_OK 0xffffffff 0 89.
Proof.
  intros Hi Hm Hc Hr E. apply (control_run s s1 c data Hi Hc). unfold accept_control. rewrite bind_rd, Hm.
  change (switch JM_CPU0 _ _) with (if Z.testbit data JCB_RESET then sim_reset rnd else set_stall_state (b2z (Z.testbit data JCB_STALL))).
  by rewrite Hr.
Qed.
End Control.

(** ** Witnesses *)

Lemma clean_by jreg off n : 0 <= n -> forallb (fun p => negb (jbit jreg p)) (seqZ off (n - off)) = true -> clean jreg off n.
Proof. intros Hn Hall p Hp. apply negb_true_iff. refine (forallb_seqZ _ off (n - off) p Hall _). lia. Qed.
Ltac asked := split; [frame_by | vm_compute; reflexivity .. | apply clean_by; [lia | vm_compute; reflexivity]].

Lemma command_roundtrip_witness :
  exists q', (jtag_shift_dr (H := no_devices) no_random (client_write_command JAT_READ16 0x1234 6) 125;;
      jtag_shift_dr (H := no_devices) no_random (client_query JCMD_READ_COMMAND) 125) (ex_jtag JM_WISHBONE zero_state) =
    Ok q' (defined JAT_READ16 0x1234 6 (ex_jtag JM_WISHBONE zero_state)) /\ slice q' 37 52 = 0x5000012340005.
Proof.
  destruct (command_roundtrip (H := no_devices) no_random (ex_jtag JM_WISHBONE zero_state) (client_write_command JAT_READ16 0x1234 6)
    (client_query JCMD_READ_COMMAND) JAT_READ16 0x1234 6) as (q' & E & Hq & _);
    [vm_compute; reflexivity | vm_compute; reflexivity | sent | exists 2; split; [|split]; vm_compute; reflexivity | asked |].
  exists q'. split; [exact E|]. rewrite Hq. vm_compute. reflexivity.
Defined.

Lemma stall_roundtrip_witness :
  exists q' s', (jtag_shift_dr (H := no_devices) no_random (client_write_control (2 ^ JCB_STALL)) 125;;
      jtag_shift_dr (H := no_devices) no_random (client_query JCMD_READ_CONTROL) 125) (ex_jtag JM_CPU0 zero_state) = Ok q' s' /\
    s' Stalled = 1 /\ slice q' 37 52 = 2 ^ 50.
Proof.
  destruct (stall_roundtrip (H := no_devices) no_random (ex_jtag JM_CPU0 zero_state) (client_write_control (2 ^ JCB_STALL))
    (client_query JCMD_READ_CONTROL) (2 ^ JCB_STALL)) as (q' & s' & E & _ & Hs & Hq & _);
    [vm_compute; reflexivity | vm_compute; reflexivity | sent | reflexivity | asked |].
  exists q', s'. split; [exact E|]. split; [exact Hs | exact Hq].
Defined.
End JtagControl.
